(* ===== verification/_CoqProject ===== *)
-Q . S2P
Prelude.v
PyBytes.v
SailRuntime.v
OrderedDict.v
HostTypes.v
Words.v
WordTheorems.v
WordBits.v
ChainConfig.v
Regions.v
RegionAccess.v
Gas.v
GasSchedule.v
GasTheorems.v
RegionFacts.v
PrecompileGas.v
MemoryTheorems.v
Sha256.v
Crypto.v
Storage.v
Accounts.v
WarmLogs.v
Journal.v
JournalFacts.v
JournalTheorems.v
StorageTheorems.v
AccountTheorems.v
BlockIteration.v
CodeDb.v
Bal.v
Accelerators.v
AccelTheorems.v
Secp256k1.v
HostContext.v
OperandStack.v
StackTheorems.v
Environment.v
Scratch.v
Rlp.v
RlpTheorems.v
RlpEncoders.v
Kernel.v
Machine.v
Instructions.v
Execute.v
Precompiles.v
TxCodec.v
Interpreter.v
Transaction.v
GasSettlement.v
StackMachine.v
Stable.v
Ledger.v
AdmissionTheorems.v
TriePath.v
TriePathTheorems.v
TrieCodec.v
TrieUpdates.v
StateRoot.v
TrieLookup.v
StateRootTheorems.v
JumpTheorems.v
FrameGas.v
FrameLoop.v
PyText.v
BuildSupport.v
Json.v
Corpus.v
CLexer.v
Quality.v
ZiskCases.v
Dashboard.v
Ssz.v
StatelessInput.v
Receipts.v
Payload.v
BlockAccessList.v
Htr.v
Executor.v
BlockTheorems.v
