(* ===== verification/Prelude.v ===== *)
(** * A verification of the executable EVM specification of evm-sail

    The repository is a formal specification of the Ethereum Virtual Machine
    written in Sail, with the Python extraction of it
    ([src/extractions/python/src/evm/]), the host the extraction runs on
    ([src/extractions/python/contract/HostContract.py], shipped unchanged as
    [evm/HostContract.py]) and the developer tools ([src/devtools/]). This
    development models the Python code of all three and proves what makes it
    correct. It is a shallow embedding: every Python function is a definition
    of the same name, read against the lines it translates.

    ** Conventions (Prelude, PyBytes, SailRuntime, OrderedDict, HostTypes)

    A call that can raise is an [outcome]; a stateful one is in the monad
    [M S], which keeps the mutations made before a raise, as Python does. The
    host state is a record of components ([Regions], [Stacks], [CodeState],
    [World], ...) reached through the class [Component]; [zoom] runs an
    operation of a component on the whole state. The specification's own state
    is [SpecState]: the host, the registers of [kernel/environment.py] and the
    arena of [kernel/scratch.py]. Integers are [Z] with the bounds their
    constructors check; bytes are [Byte.byte] or integers, as in the source.
    Where the source is a loop without a syntactic bound the definition takes
    fuel: the loops with fuel of their own pass an amount the theorems show to
    be enough ([analyze_code_from]: the bytes left; [fake_exponential_word]:
    its series; the pops of the tables: their rows), and the frame loop
    [interpret_loop] takes it as an argument and answers [None] when it runs
    out, which [FrameLoop.interpret_terminates] rules out from
    [3 * gas + 2] on before Amsterdam.

    ** The host (HostContract.py)

    - Regions: the six byte regions; RegionFacts and MemoryTheorems show that
      they behave as an infinite zero-extended memory.
    - Sha256, Crypto: digests; Keccak-256 is third-party code, the class
      [Keccak].
    - Storage, Accounts, WarmLogs: the transaction tables with generations and
      epochs; StorageTheorems, AccountTheorems and BlockIteration state what a
      read sees after writes and clears, what the pops drain and the order in
      which the block caches are walked.
    - Journal, with JournalFacts and JournalTheorems: checkpoints;
      a revert restores every observable of the transaction state, for any
      sequence of operations and nested frames.
    - CodeDb, Bal: the content-addressed tables and the block access list.
    - Accelerators, AccelTheorems: the adaptation around the native library,
      which is the class [AccelLib]; Secp256k1: recovery, executable.
    - OperandStack, StackTheorems: one flat stack for all frames; it refines a
      list of words per frame.
    - HostContext: the context variable that holds the current host.

    ** The specification (evm/)

    - Words, WordTheorems, WordBits ([prelude.py]): words and the
      function of each arithmetic instruction, against the integers.
    - ChainConfig ([primitives/fork.py], [chain_config.py]): every profile.
    - RegionAccess ([primitives/bytes.py], [host/region_access.py]): slices.
    - Gas, GasSchedule ([evm/gas.py]): the gas schedule; GasTheorems
      and PrecompileGas compare it with closed
      formulas, whatever is available, and prove the conservation laws.
    - Environment, Scratch, Rlp ([kernel/environment.py], [kernel/scratch.py],
      [lib/rlp/encoding.py], [decoding.py]): registers, the scratch arena, RLP;
      RlpTheorems: writers, decoders, canonicity and round trip.
    - Kernel ([kernel/accounts.py], [storage.py], [code.py],
      [selfdestruct.py], [lifecycle.py], [host/code.py]): the world the
      instructions see; the state trie under it is the class [StateTrie].
    - Machine, Instructions, Execute ([evm/machine.py], [instructions.py],
      [execute.py], [host/stack.py], [host/output.py]): every instruction.
      Their common steps (stack guard, charge, expansion) are combinators.
    - Precompiles ([evm/precompiles.py], [lib/address.py],
      [lib/rlp/codecs/address.py], [primitives/crypto.py]).
    - Interpreter ([evm/interpreter.py]): decoding, calls, creations, returns
      and the frame loop. [run_call] and [run_create] are split where the
      source nests, each part with its lines.
    - Stable, FrameGas, FrameLoop: what operations
      leave alone, the gas each step leaves, and the theorem that the
      interpreter ends; also that it cannot start before Cancun.
    - StackMachine, JumpTheorems: the instructions refine a machine on a list
      of words; the code analysis and the program counter agree on which bytes
      are instructions.
    - TxCodec ([primitives/tx.py], [lib/tx.py], [lib/rlp/codecs/transactions.py],
      [transaction_signing.py]), Transaction ([evm/transaction.py]): decoding,
      admission, authorizations, the frames of calls and creations, settlement
      and receipt. Admission is split in two, the recovery of the sender and
      the checks. AdmissionTheorems and GasSettlement: intrinsic gas as a
      formula, what an admitted sender can pay, where every unit of gas goes.
    - Ledger: the balances of all accounts as one function; a transfer
      conserves every sum of them.
    - TriePath, TrieCodec, TrieUpdates ([lib/mpt/]), StateRoot
      ([lib/state_trie.py], [lib/rlp/codecs/state.py]): paths, nodes, lookups
      and updates over the witness, the state root. Each pair of decoders for
      the input and the arena is one definition over the region. A walk passes
      66 as its fuel and an update 132: each step moves along a path of 64
      nibbles, an update twice for a node. TriePathTheorems, TrieLookup,
      RlpEncoders and StateRootTheorems: paths refine lists of nibbles, the
      lookups refine an abstract trie, leaves round trip, and the instance
      [state_trie] has the laws the clients of [StateTrie] ask for.

    ** A block (evm/executor/ and its codecs)

    - Ssz ([lib/ssz/ssz.py], [primitives/ssz.py]): the SSZ readers over the
      input; [ssz_list_exact]: a list of byte strings is read item by item
      exactly when the slice is its canonical encoding.
    - StatelessInput ([lib/ssz/stateless_input.py]): the references into the
      input, the payload, the chain configuration, and the indexing of the
      witness into the host's node, code and ancestor tables. The object
      [EMPTY_PARENT_HEADER_FIELDS], which the module passes to the decoder of
      every header and which the decoder changes, is a cell of the state
      ([header_fields_leak]).
    - Receipts ([executor/receipts.py], [lib/rlp/codecs/receipts.py],
      [kernel/logs.py]): blooms, the receipt codec, and the receipt records in
      the arena.
    - Payload ([lib/mpt/indexed.py], [executor/payload.py],
      [lib/rlp/codecs/block_header.py], [withdrawals.py]): the index tries,
      the header hash and the checks on the payload. Its [Module IndexTrie]
      has a reference trie built from a list of items, what each node is
      encoded as, and [transaction_trie_root_exact]: the one pass over the
      keys computes the Merkle Patricia root of the transactions.
    - BlockAccessList ([executor/block_access_list.py],
      [lib/rlp/codecs/block_access_list.py]): the traversal of the encoded
      list in step with the events of the host's collector.
    - Htr ([lib/htr.py]): hash tree roots; [htr_bytelist_exact] compares the
      root of a byte list with the padded binary tree of the SSZ specification.
    - Executor ([executor/system_calls.py], [block.py], [stateless.py],
      [result.py], [main.py]): the program from its input to its public
      output. Its state, [ProgramState], is [SpecState] with the header
      fields object beside it.
    - BlockTheorems: [accepted_block_checked] (a run that returns has checked
      the block against every root, the gas and the blobs it claims) and
      [main_writes_once] (the output is one record, or empty after a raise).
      Its witness is a whole block, serialised by hand, that [main] accepts
      under the toy instances.

    Fuel of this layer: lists and loops over transactions, withdrawals and
    requests pass the number of items left; the block access list the bytes
    left of its cursor; an index trie 66 levels of 17 turns each, more than
    the 64 nibbles of a path and the 16 children of a branch
    ([transaction_trie_root_exact] holds with them); a Merkle subtree its
    depth. The interpreter's fuel is an argument of [main].

    ** The developer tools (devtools/)

    - PyText, Json: Python strings, floats, JSON values.
    - BuildSupport ([build_support.py]); Corpus
      ([corpus.py]); CLexer, Quality
      ([optimised_c/evaluate.py]); ZiskCases, Dashboard
      ([benchmarks/zisk.py]).

    ** Interfaces and hypotheses

    [Keccak] (digests of 32 bytes) and [AccelLib] (output sizes of the native
    library) stand for code outside the model. [StateTrie] is what the kernel
    asks of the trie; theorems that need its lookups to leave the frame stack,
    the tables or the registers alone say so, and [state_trie_laws] shows that
    the trie of the program does. Concrete instances ([toy_Keccak], [toy_lib],
    an empty trie) show that the hypotheses hold somewhere, in the witness
    that follows each theorem.

    ** Not modelled

    - [evm/__init__.py], [evm/_types.py] and the copy [evm/HostContract.py]:
      re-exports and a copy of a modelled file.
    - Python's own limits: the source recurses on the input in places, and an
      interpreter would raise on a recursion deeper than its limit or when
      memory runs out; the definitions do neither.
    - The logs bloom of a header enters as its slice, as in the code.
    - Loading the native library, running tools, parsing command lines,
      reading the emulator's reports, and writing reports: input and output.

    ** Extensions

    What could be added on this foundation: the roots of receipts and
    withdrawals through the lemmas of [IndexTrie] (their cursors read the
    arena and the fixed-size records of the input); the update of the state
    trie against the abstract trie of [TrieLookup]; a gas bound for the
    interpreter from Amsterdam on, where state gas is refilled. *)

From Stdlib Require Import ZArith Lia.
From stdpp Require Export base tactics option list gmap sets strings.

(** ** Python exceptions and fallible computations *)

(** The exception classes the modelled code raises (explicitly, or through
    an operation of the language or its standard library). *)
Inductive py_exn : Type :=
| ValueError (msg : string)
| RuntimeError (msg : string)
| TypeError (msg : string)
| IndexError
| KeyError
| AttributeError
| AssertionError
| SailError (msg : string)
| SailMatchFailure
| SailExit
| OverflowError
| ZeroDivisionError.

#[export] Instance py_exn_eq_dec : EqDecision py_exn.
Proof. solve_decision. Defined.

(** The result of a call: a value or a raised exception. *)
Inductive outcome (A : Type) : Type :=
| Ok (a : A)
| Raise (e : py_exn).
Arguments Ok {A} _.
Arguments Raise {A} _.

#[export] Instance outcome_ret : MRet outcome := λ A a, Ok a.
#[export] Instance outcome_bind : MBind outcome := λ A B f m,
  match m with Ok a => f a | Raise e => Raise e end.

Definition is_ok {A} (o : outcome A) : bool :=
  match o with Ok _ => true | Raise _ => false end.

(** Inversion of a sequence that returned. *)
Lemma bind_Ok {A B} (m : outcome A) (f : A → outcome B) b :
  m ≫= f = Ok b ↔ ∃ a, m = Ok a ∧ f a = Ok b.
Proof. destruct m as [a|e]; cbn; naive_solver. Qed.

(** A stateful call: the state it leaves behind is kept when it raises,
    because Python does not undo the mutations made before a raise. *)
Definition M (S A : Type) : Type := S → outcome A * S.

#[export] Instance M_ret {S} : MRet (M S) := λ A a s, (Ok a, s).
#[export] Instance M_bind {S} : MBind (M S) := λ A B f m s,
  match m s with
  | (Ok a, s') => f a s'
  | (Raise e, s') => (Raise e, s')
  end.

Definition gets {S A} (f : S → A) : M S A := λ s, (Ok (f s), s).
Definition modify {S} (f : S → S) : M S unit := λ s, (Ok tt, f s).
Definition raise {S A} (e : py_exn) : M S A := λ s, (Raise e, s).
Definition of_outcome {S A} (o : outcome A) : M S A := λ s, (o, s).
(** A lookup in the state that can raise. *)
Definition reads {S A} (f : S → outcome A) : M S A := λ s, (f s, s).
Definition when {S} (b : bool) (m : M S unit) : M S unit :=
  if b then m else mret tt.

(** [runs m s a s']: the call returns [a], leaving [s']. *)
Definition runs {S A} (m : M S A) (s : S) (a : A) (s' : S) : Prop :=
  m s = (Ok a, s').

(** [for x in xs: body] *)
Fixpoint for_each {S X} (body : X → M S unit) (xs : list X) : M S unit :=
  match xs with
  | [] => mret tt
  | x :: xs' => body x ≫= λ _, for_each body xs'
  end.

Section monad.
Context {S : Type}.

Lemma bind_run {A B} (m : M S A) (f : A → M S B) s :
  (m ≫= f) s = match m s with
               | (Ok a, s') => f a s'
               | (Raise e, s') => (Raise e, s')
               end.
Proof. reflexivity. Qed.

Lemma ret_run {A} (a : A) (s : S) : (mret a : M S A) s = (Ok a, s).
Proof. reflexivity. Qed.

Lemma gets_run {A} (f : S → A) (s : S) : gets f s = (Ok (f s), s).
Proof. reflexivity. Qed.

Lemma modify_run (f : S → S) (s : S) : modify f s = (Ok tt, f s).
Proof. reflexivity. Qed.

Lemma raise_run {A} e (s : S) : (raise e : M S A) s = (Raise e, s).
Proof. reflexivity. Qed.

Lemma of_outcome_run {A} (o : outcome A) (s : S) : of_outcome o s = (o, s).
Proof. reflexivity. Qed.

Lemma reads_run {A} (f : S → outcome A) (s : S) : reads f s = (f s, s).
Proof. reflexivity. Qed.

Lemma when_true (m : M S unit) : when true m = m.
Proof. reflexivity. Qed.

Lemma when_false (m : M S unit) s : when false m s = (Ok tt, s).
Proof. reflexivity. Qed.

Lemma runs_ret {A} (a b : A) (s s' : S) :
  runs (mret a) s b s' ↔ b = a ∧ s' = s.
Proof. unfold runs. rewrite ret_run. naive_solver. Qed.

Lemma runs_bind {A B} (m : M S A) (f : A → M S B) s b s'' :
  runs (m ≫= f) s b s'' ↔ ∃ a s', runs m s a s' ∧ runs (f a) s' b s''.
Proof.
  unfold runs. rewrite bind_run. split.
  - destruct (m s) as [[a|e] s'] eqn:E; [eauto|discriminate].
  - intros (a & s' & -> & H). exact H.
Qed.

Lemma for_each_app {X} (body : X → M S unit) xs ys s :
  for_each body (xs ++ ys) s =
  (for_each body xs ≫= λ _, for_each body ys) s.
Proof.
  revert s. induction xs as [|x xs IH]; intros s; [reflexivity|].
  simpl. rewrite !bind_run. destruct (body x s) as [[[]|e] s']; [|reflexivity].
  rewrite IH. reflexivity.
Qed.
End monad.

Create Rewrite HintDb py_run.
#[export] Hint Rewrite @bind_run @ret_run @gets_run @modify_run @raise_run
  @of_outcome_run @reads_run @when_true @when_false : py_run.

(** Runs a straight-line call on a given state. *)
Ltac py_step := autorewrite with py_run; cbn [fst snd].

(** Runs a closed call, naming its equation: gives the state (and the value)
    it leaves. *)
Ltac run_call_as H :=
  cbv zeta;
  match goal with
  | |- ∃ s' : ?T, ?c = (Ok ?a, s') ∧ _ =>
      let r := eval vm_compute in c in
      match r with (_, ?s) =>
        assert (H : c = (Ok a, s)) by (vm_compute; reflexivity);
        exists s; split; [exact H|] end
  | |- ∃ (s' : ?T) (v : ?U), ?c = (Ok v, s') ∧ _ =>
      let r := eval vm_compute in c in
      match r with (Ok ?v, ?s) =>
        assert (H : c = (Ok v, s)) by (vm_compute; reflexivity);
        exists s, v; split; [exact H|] end
  end.

(** ** Components of a larger state *)

(** A component [C] held inside a state [S]: how to read and replace it,
    with the laws of a well-behaved reference. Operations of a component are
    written on the component and run on any state that holds it. *)
Class Component (S C : Type) := {
  view : S → C;
  put : C → S → S;
  view_put : ∀ c s, view (put c s) = c;
  put_view : ∀ s, put (view s) s = s;
  put_put : ∀ c d s, put c (put d s) = put c s;
}.

Definition zoom {S C A} `{Component S C} (m : M C A) : M S A := λ s,
  let '(o, c) := m (view s) in (o, put c s).

Section zoom.
Context {S C : Type} `{Component S C}.

Lemma zoom_run {A} (m : M C A) (s : S) :
  zoom m s = (fst (m (view s)), put (snd (m (view s))) s).
Proof. unfold zoom. by destruct (m (view s)). Qed.

Lemma zoom_ret {A} (a : A) (s : S) : zoom (mret a : M C A) s = (mret a : M S A) s.
Proof. rewrite zoom_run, !ret_run. cbn. by rewrite put_view. Qed.

(** Running a sequence inside a component is running its steps one by one
    on the whole state. *)
Lemma zoom_bind {A B} (m : M C A) (f : A → M C B) (s : S) :
  zoom (m ≫= f) s = (zoom m ≫= λ a, zoom (f a)) s.
Proof.
  unfold zoom. rewrite !bind_run.
  destruct (m (view s)) as [[a|e] c]; [|reflexivity].
  rewrite view_put. destruct (f a c) as [o d]. by rewrite put_put.
Qed.

Lemma zoom_runs {A} (m : M C A) (s : S) a s' :
  runs (zoom m) s a s' ↔ ∃ c, runs m (view s) a c ∧ s' = put c s.
Proof.
  unfold runs, zoom. destruct (m (view s)) as [o c]. naive_solver.
Qed.
End zoom.

(** ** Machine words *)

Definition WORD_BYTES : Z := 32.
Definition WORD_MASK : Z := (2 ^ 256 - 1)%Z.

(** ** Options and lists *)

Lemma from_option_id {A} (d : A) (o : option A) :
  from_option id d o = match o with Some a => a | None => d end.
Proof. by destruct o. Qed.
