(* ===== verification/PyBytes.v ===== *)
(** * PyBytes: Python bytes, bytearrays, slices and big-endian integers

    The part of Python's [bytes]/[bytearray]/[int] the host code uses:
    slicing and slice assignment with Python's clamping of out-of-range and
    negative bounds, indexing with its errors, zero-filled buffers, [ljust],
    [int.from_bytes]/[int.to_bytes] in big-endian order, and the order of
    [bytes] used by [sorted]. *)

From Stdlib Require Import ZArith Lia NArith Sorting.Sorted.
From Stdlib.Init Require Byte.
From stdpp Require Import base tactics option list gmap countable.
From S2P Require Import Prelude.

#[local] Open Scope Z_scope.

Abbreviation byte := Byte.byte.
Abbreviation bytes := (list Byte.byte).

#[export] Instance byte_eq_dec : EqDecision byte.
Proof. intros x y. destruct (Byte.byte_eq_dec x y); [by left|by right]. Defined.

#[export] Instance byte_countable : Countable byte :=
  inj_countable Byte.to_N Byte.of_N Byte.of_to_N.

Definition Z_of_byte (b : byte) : Z := Z.of_N (Byte.to_N b).

(** The low eight bits of an integer, as [Bits(8, value)] stores them. *)
Definition byte_wrap (z : Z) : byte :=
  match Byte.of_N (Z.to_N (z mod 256)) with Some b => b | None => Byte.x00 end.

(** [bytes([z])] and [bytearray.__setitem__]: the value must be a byte. *)
Definition byte_of_Z (z : Z) : outcome byte :=
  if (0 <=? z) && (z <? 256) then Ok (byte_wrap z)
  else Raise (ValueError "byte must be in range(0, 256)").

(** ** Sequences *)

Section seq.
Context {A : Type}.
Implicit Types (l p : list A) (i j : Z).

Definition py_len l : Z := Z.of_nat (length l).

(** The clamping of a slice bound: negative bounds count from the end. *)
Definition slice_bound l i : Z :=
  if i <? 0 then Z.max 0 (i + py_len l) else Z.min i (py_len l).

(** [l[i:j]] *)
Definition py_slice l i j : list A :=
  let a := slice_bound l i in
  let b := slice_bound l j in
  take (Z.to_nat (b - a)) (drop (Z.to_nat a) l).

(** [l[i:]] *)
Definition py_slice_from l i : list A := drop (Z.to_nat (slice_bound l i)) l.

(** [l[:j]] *)
Definition py_slice_to l j : list A := take (Z.to_nat (slice_bound l j)) l.

(** [l[i:j] = p] *)
Definition py_slice_set l i j p : list A :=
  let a := slice_bound l i in
  let b := Z.max a (slice_bound l j) in
  take (Z.to_nat a) l ++ p ++ drop (Z.to_nat b) l.

(** [del l[i:]] *)
Definition py_del_from l i : list A := take (Z.to_nat (slice_bound l i)) l.

(** The position an index denotes, if it is in range. *)
Definition py_pos l i : option nat :=
  let k := if i <? 0 then i + py_len l else i in
  if (0 <=? k) && (k <? py_len l) then Some (Z.to_nat k) else None.

(** [l[i]] *)
Definition py_index l i : outcome A :=
  match py_pos l i with
  | Some k => match l !! k with Some x => Ok x | None => Raise IndexError end
  | None => Raise IndexError
  end.

(** [l[i] = x] *)
Definition py_setitem l i (x : A) : outcome (list A) :=
  match py_pos l i with
  | Some k => Ok (<[k := x]> l)
  | None => Raise IndexError
  end.

Lemma py_len_nonneg l : 0 <= py_len l.
Proof. unfold py_len. lia. Qed.

Lemma py_len_app l p : py_len (l ++ p) = py_len l + py_len p.
Proof. unfold py_len. rewrite length_app. lia. Qed.

Lemma py_len_nil : py_len [] = 0.
Proof. reflexivity. Qed.

Lemma slice_bound_in l i : 0 <= i <= py_len l → slice_bound l i = i.
Proof. unfold slice_bound. intros. case (Z.ltb_spec i 0); lia. Qed.

Lemma slice_bound_neg l i : i < 0 → slice_bound l i = Z.max 0 (i + py_len l).
Proof. unfold slice_bound. intros. case (Z.ltb_spec i 0); lia. Qed.

Lemma slice_bound_range l i : 0 <= slice_bound l i <= py_len l.
Proof.
  unfold slice_bound. pose proof (py_len_nonneg l).
  case (Z.ltb_spec i 0); lia.
Qed.

Lemma slice_bound_past l i : py_len l <= i → slice_bound l i = py_len l.
Proof.
  unfold slice_bound. pose proof (py_len_nonneg l).
  intros. case (Z.ltb_spec i 0); lia.
Qed.

Lemma py_pos_in l i : 0 <= i < py_len l → py_pos l i = Some (Z.to_nat i).
Proof.
  intros. unfold py_pos. rewrite (proj2 (Z.ltb_ge _ _)) by lia.
  by rewrite (proj2 (Z.leb_le _ _)), (proj2 (Z.ltb_lt _ _)) by lia.
Qed.

Lemma py_index_middle l x p i : i = py_len l → py_index (l ++ x :: p) i = Ok x.
Proof.
  intros ->. unfold py_index. rewrite py_pos_in.
  - rewrite list_lookup_middle; [done|]. unfold py_len. lia.
  - rewrite py_len_app. unfold py_len. cbn. lia.
Qed.

Lemma py_slice_length l i j :
  0 <= i → 0 <= j →
  py_len (py_slice l i j) = Z.max 0 (Z.min j (py_len l) - Z.min i (py_len l)).
Proof.
  intros. unfold py_slice, py_len, slice_bound.
  rewrite length_take, length_drop.
  do 2 (rewrite (proj2 (Z.ltb_ge _ _)) by lia).
  unfold py_len. lia.
Qed.

Lemma py_slice_in l i n :
  0 <= i → 0 <= n → i + n <= py_len l →
  py_slice l i (i + n) = take (Z.to_nat n) (drop (Z.to_nat i) l).
Proof.
  intros. unfold py_slice. rewrite !slice_bound_in by lia.
  f_equal. lia.
Qed.

(** With non-negative bounds a slice is [take] after [drop], whether or not
    the bounds are within the sequence. *)
Lemma py_slice_nonneg l i n :
  0 <= i → 0 <= n → py_slice l i (i + n) = take (Z.to_nat n) (drop (Z.to_nat i) l).
Proof.
  intros. destruct (decide (i + n <= py_len l)); [by apply py_slice_in|].
  unfold py_slice. rewrite (slice_bound_past l (i + n)) by lia.
  destruct (decide (i <= py_len l)).
  - rewrite slice_bound_in by lia.
    rewrite !take_ge; [done|rewrite length_drop; unfold py_len in *; lia..].
  - rewrite slice_bound_past by lia.
    rewrite !drop_ge by (unfold py_len in *; lia). by rewrite !take_nil.
Qed.

(** A slice within the sequence has exactly the requested length. *)
Lemma py_slice_in_length l i n :
  0 <= i → 0 <= n → i + n <= py_len l → py_len (py_slice l i (i + n)) = n.
Proof. intros. rewrite py_slice_length; lia. Qed.

Lemma py_slice_all l : py_slice l 0 (py_len l) = l.
Proof.
  unfold py_slice. rewrite !slice_bound_in by (pose proof (py_len_nonneg l); lia).
  cbn. rewrite drop_0, take_ge; [done|]. unfold py_len. lia.
Qed.

Lemma py_slice_set_length l i p :
  0 <= i → i + py_len p <= py_len l →
  py_len (py_slice_set l i (i + py_len p) p) = py_len l.
Proof.
  intros. unfold py_slice_set. pose proof (py_len_nonneg p).
  rewrite !slice_bound_in by lia. rewrite Z.max_r by lia.
  unfold py_len in *. rewrite !length_app, length_take, length_drop. lia.
Qed.

(** Reading back exactly the range that was written. *)
Lemma py_slice_set_same l i p :
  0 <= i → i + py_len p <= py_len l →
  py_slice (py_slice_set l i (i + py_len p) p) i (i + py_len p) = p.
Proof.
  intros Hi Hp. pose proof (py_len_nonneg p).
  rewrite py_slice_in by (rewrite ?py_slice_set_length; lia).
  unfold py_slice_set. rewrite !slice_bound_in by lia. rewrite Z.max_r by lia.
  unfold py_len in *.
  rewrite drop_app_length' by (rewrite length_take; lia).
  by rewrite take_app_length' by lia.
Qed.

(** A write leaves every position outside its range alone. *)
Lemma py_slice_set_lookup_ne l i p k :
  0 <= i → i + py_len p <= py_len l →
  (Z.of_nat k < i ∨ i + py_len p <= Z.of_nat k) →
  py_slice_set l i (i + py_len p) p !! k = l !! k.
Proof.
  intros Hi Hp Hk. pose proof (py_len_nonneg p).
  unfold py_slice_set. rewrite !slice_bound_in by lia. rewrite Z.max_r by lia.
  unfold py_len in *. destruct Hk as [Hk|Hk].
  - rewrite lookup_app_l by (rewrite length_take; lia).
    by rewrite lookup_take_lt by lia.
  - rewrite lookup_app_r by (rewrite length_take; lia).
    rewrite length_take. rewrite lookup_app_r by lia.
    rewrite lookup_drop. f_equal. lia.
Qed.

(** The positions of a range read from the underlying sequence. *)
Lemma py_slice_lookup l i n k :
  0 <= i → 0 <= n → i + n <= py_len l → Z.of_nat k < n →
  py_slice l i (i + n) !! k = l !! (Z.to_nat i + k)%nat.
Proof.
  intros. rewrite py_slice_in by lia.
  rewrite lookup_take_lt by lia. by rewrite lookup_drop.
Qed.

(** A range read that does not meet the range written is unchanged. *)
Lemma py_slice_set_other l i p j n :
  0 <= i → i + py_len p <= py_len l →
  0 <= j → 0 <= n → j + n <= py_len l →
  (j + n <= i ∨ i + py_len p <= j) →
  py_slice (py_slice_set l i (i + py_len p) p) j (j + n) = py_slice l j (j + n).
Proof.
  intros. apply list_eq. intros k.
  destruct (decide (Z.of_nat k < n)).
  - rewrite !py_slice_lookup by (rewrite ?py_slice_set_length; lia).
    apply py_slice_set_lookup_ne; lia.
  - pose proof (py_slice_in_length l j n).
    pose proof (py_slice_in_length (py_slice_set l i (i + py_len p) p) j n).
    pose proof (py_slice_set_length l i p).
    rewrite !lookup_ge_None_2; [done|..]; unfold py_len in *; lia.
Qed.

Lemma py_index_in l i x :
  0 <= i → l !! Z.to_nat i = Some x → py_index l i = Ok x.
Proof.
  intros Hi Hx. unfold py_index, py_pos.
  pose proof (lookup_lt_Some _ _ _ Hx).
  rewrite (proj2 (Z.ltb_ge _ _)) by lia.
  rewrite (proj2 (Z.leb_le _ _)) by lia.
  rewrite (proj2 (Z.ltb_lt _ _)) by (unfold py_len; lia).
  cbn. by rewrite Hx.
Qed.

Lemma py_index_out l i : py_len l <= i → py_index l i = Raise IndexError.
Proof.
  intros Hi. unfold py_index, py_pos. pose proof (py_len_nonneg l).
  rewrite (proj2 (Z.ltb_ge i 0)) by lia.
  rewrite (proj2 (Z.ltb_ge i (py_len l))) by lia.
  by rewrite andb_false_r.
Qed.
End seq.

(** ** Buffers *)

Definition zeros (n : Z) : bytes := replicate (Z.to_nat n) Byte.x00.

(** [bytes(n)] *)
Definition py_bytes_zero (n : Z) : outcome bytes :=
  if n <? 0 then Raise (ValueError "negative count") else Ok (zeros n).

(** [data.ljust(width, zero)] with the zero byte for fill. *)
Definition py_ljust (l : bytes) (width : Z) : bytes := l ++ zeros (width - py_len l).

Lemma zeros_length n : py_len (zeros n) = Z.max 0 n.
Proof. unfold py_len, zeros. rewrite length_replicate. lia. Qed.

Lemma py_ljust_length l w : py_len (py_ljust l w) = Z.max (py_len l) w.
Proof. unfold py_ljust. rewrite py_len_app, zeros_length. pose proof (py_len_nonneg l). lia. Qed.

Lemma py_ljust_id l w : w <= py_len l → py_ljust l w = l.
Proof.
  intros. unfold py_ljust, zeros.
  replace (Z.to_nat (w - py_len l)) with 0%nat by lia. apply app_nil_r.
Qed.

(** ** Bytes as integers *)

(** [int.from_bytes(l, "big")] *)
Definition from_be (l : bytes) : Z :=
  fold_left (λ acc b, acc * 256 + Z_of_byte b) l 0.

(** The [n] low bytes of an integer, most significant first. *)
Fixpoint be_bytes (n : nat) (v : Z) : bytes :=
  match n with
  | O => []
  | S n' => be_bytes n' (v / 256) ++ [byte_wrap v]
  end.

(** [v.to_bytes(n, "big")] *)
Definition to_bytes_big (v : Z) (n : nat) : outcome bytes :=
  if (0 <=? v) && (v <? 256 ^ Z.of_nat n) then Ok (be_bytes n v)
  else Raise OverflowError.

Lemma Z_of_byte_range b : 0 <= Z_of_byte b < 256.
Proof. unfold Z_of_byte. pose proof (Byte.to_N_bounded b). lia. Qed.

Lemma Z_of_byte_wrap z : Z_of_byte (byte_wrap z) = z mod 256.
Proof.
  unfold byte_wrap, Z_of_byte. pose proof (Z.mod_pos_bound z 256).
  destruct (Byte.of_N _) as [b|] eqn:E.
  - apply Byte.to_of_N in E. rewrite E. lia.
  - apply Byte.of_N_None_iff in E. lia.
Qed.

Lemma Z_of_byte_inj b c : Z_of_byte b = Z_of_byte c → b = c.
Proof.
  unfold Z_of_byte. intros H. apply N2Z.inj in H.
  pose proof (Byte.of_to_N b). pose proof (Byte.of_to_N c). congruence.
Qed.

Lemma byte_wrap_Z_of_byte b : byte_wrap (Z_of_byte b) = b.
Proof.
  apply Z_of_byte_inj. rewrite Z_of_byte_wrap.
  apply Z.mod_small, Z_of_byte_range.
Qed.

Lemma byte_of_Z_ok z b : byte_of_Z z = Ok b → Z_of_byte b = z.
Proof.
  unfold byte_of_Z. case_match eqn:E; [|done]. intros [= <-].
  rewrite Z_of_byte_wrap. apply Z.mod_small. lia.
Qed.

Lemma from_be_nil : from_be [] = 0.
Proof. reflexivity. Qed.

Lemma from_be_snoc l b : from_be (l ++ [b]) = from_be l * 256 + Z_of_byte b.
Proof. unfold from_be. by rewrite fold_left_app. Qed.

Lemma be_bytes_length n v : length (be_bytes n v) = n.
Proof.
  revert v. induction n as [|n IH]; intros v; [done|].
  cbn. rewrite length_app, IH. cbn. lia.
Qed.

Lemma be_bytes_len n v : py_len (be_bytes n v) = Z.of_nat n.
Proof. unfold py_len. by rewrite be_bytes_length. Qed.

Lemma from_be_bound l : 0 <= from_be l < 256 ^ py_len l.
Proof.
  induction l as [|b l IH] using rev_ind; [cbv; split; congruence|].
  rewrite from_be_snoc, py_len_app. pose proof (Z_of_byte_range b).
  change (py_len [b]) with 1. rewrite Z.pow_add_r; [|apply py_len_nonneg|lia].
  change (256 ^ 1) with 256. lia.
Qed.

Lemma from_be_be_bytes n v : from_be (be_bytes n v) = v mod 256 ^ Z.of_nat n.
Proof.
  revert v. induction n as [|n IH]; intros v.
  { cbn. by rewrite Z.mod_1_r. }
  cbn [be_bytes]. rewrite from_be_snoc, IH, Z_of_byte_wrap.
  replace (Z.of_nat (S n)) with (1 + Z.of_nat n) by lia.
  rewrite Z.pow_add_r by lia. change (256 ^ 1) with 256.
  rewrite (Z.rem_mul_r v 256 (256 ^ Z.of_nat n)) by lia. lia.
Qed.

Lemma be_bytes_from_be l : be_bytes (length l) (from_be l) = l.
Proof.
  induction l as [|b l IH] using rev_ind; [done|].
  rewrite length_app, Nat.add_comm, from_be_snoc. cbn [Nat.add length be_bytes].
  pose proof (Z_of_byte_range b). f_equal.
  - rewrite Z.div_add_l, (Z.div_small (Z_of_byte b)), Z.add_0_r by lia. exact IH.
  - f_equal. apply Z_of_byte_inj. rewrite Z_of_byte_wrap.
    rewrite Z.add_comm, Z.mod_add, Z.mod_small by lia. done.
Qed.

(** Two byte strings of one length that denote the same integer are equal. *)
Lemma from_be_inj l k : length l = length k → from_be l = from_be k → l = k.
Proof.
  intros Hl Hv. rewrite <-(be_bytes_from_be l), <-(be_bytes_from_be k).
  by rewrite Hl, Hv.
Qed.

Lemma be_bytes_mod n v : be_bytes n (v mod 256 ^ Z.of_nat n) = be_bytes n v.
Proof.
  apply from_be_inj; [by rewrite !be_bytes_length|].
  rewrite !from_be_be_bytes, Z.mod_mod; [done|]. apply Z.pow_nonzero; lia.
Qed.

Lemma from_be_zeros n : from_be (zeros n) = 0.
Proof.
  unfold zeros. induction (Z.to_nat n) as [|k IH]; [done|].
  rewrite replicate_S_end, from_be_snoc, IH. reflexivity.
Qed.

Lemma from_be_app l k : from_be (l ++ k) = from_be l * 256 ^ py_len k + from_be k.
Proof.
  induction k as [|b k IH] using rev_ind.
  { rewrite app_nil_r, from_be_nil. change (256 ^ py_len (@nil byte)) with 1. lia. }
  rewrite app_assoc, !from_be_snoc, IH, py_len_app.
  change (py_len [b]) with 1. rewrite Z.pow_add_r; [|apply py_len_nonneg|lia].
  change (256 ^ 1) with 256. ring.
Qed.

(** The tail of a big-endian encoding is the encoding of the low bytes. *)
Lemma be_bytes_drop n m v :
  (m <= n)%nat → drop (n - m) (be_bytes n v) = be_bytes m v.
Proof.
  intros Hm. revert m v Hm. induction n as [|n IH]; intros m v Hm.
  { by replace m with 0%nat by lia. }
  destruct m as [|m].
  { rewrite drop_ge; [done|]. rewrite be_bytes_length. lia. }
  cbn [be_bytes]. replace (S n - S m)%nat with (n - m)%nat by lia.
  rewrite drop_app_le by (rewrite be_bytes_length; lia).
  by rewrite IH by lia.
Qed.

(** ** Sorting *)

(** The comparison a sort key is ordered by. *)
Class TotalOrder {K : Type} (leb : K → K → bool) : Prop := {
  leb_total : ∀ x y, leb x y = false → leb y x = true;
  leb_trans : ∀ x y z, leb x y = true → leb y z = true → leb x z = true;
  leb_antisym : ∀ x y, leb x y = true → leb y x = true → x = y;
}.

#[export] Instance Z_leb_order : TotalOrder Z.leb.
Proof. split; intros *; rewrite ?Z.leb_le, ?Z.leb_gt; lia. Qed.

(** Lexicographic order of [bytes]; a proper prefix comes first. *)
Fixpoint bytes_leb (l k : bytes) : bool :=
  match l, k with
  | [], _ => true
  | _ :: _, [] => false
  | b :: l', c :: k' =>
      (Z_of_byte b <? Z_of_byte c) || ((Z_of_byte b =? Z_of_byte c) && bytes_leb l' k')
  end.

#[export] Instance bytes_leb_order : TotalOrder bytes_leb.
Proof.
  split.
  - induction x as [|b x IH]; intros [|c y]; cbn; try done.
    rewrite orb_false_iff, andb_false_iff, orb_true_iff, andb_true_iff.
    intros [H1 [H2|H2]]; [left; lia|]. apply IH in H2.
    destruct (decide (Z_of_byte b = Z_of_byte c)); [right; split; [lia|done]|left; lia].
  - induction x as [|b x IH]; intros [|c y] [|d z]; cbn; try done.
    rewrite !orb_true_iff, !andb_true_iff.
    intros [H1|[H1 H1']] [H2|[H2 H2']]; [left; lia..|right; split; [lia|by eapply IH]].
  - induction x as [|b x IH]; intros [|c y]; cbn; try done.
    rewrite !orb_true_iff, !andb_true_iff.
    intros [H1|[H1 H1']] [H2|[H2 H2']]; try lia.
    f_equal; [apply Z_of_byte_inj; lia|by apply IH].
Qed.

(** Pairs, compared first component first. *)
Definition pair_leb {K L} `{EqDecision K} (lebK : K → K → bool) (lebL : L → L → bool)
    (p q : K * L) : bool :=
  if decide (p.1 = q.1) then lebL p.2 q.2 else lebK p.1 q.1.

#[export] Instance pair_leb_order {K L} `{EqDecision K}
    (lebK : K → K → bool) (lebL : L → L → bool) :
  TotalOrder lebK → TotalOrder lebL → TotalOrder (pair_leb lebK lebL).
Proof.
  intros HK HL. split; unfold pair_leb.
  - intros [k l] [k' l']; cbn. repeat case_decide; subst; try done; apply leb_total.
  - intros [k l] [k' l'] [k'' l'']; cbn.
    repeat case_decide; subst; try done; try apply leb_trans.
    intros H1 H2. exfalso. by apply H, leb_antisym.
  - intros [k l] [k' l']; cbn. repeat case_decide; subst; try done.
    + intros. f_equal. by apply leb_antisym.
    + intros. exfalso. by apply H, leb_antisym.
Qed.

Section sorted.
Context {A K : Type} (leb : K → K → bool) (key : A → K).

Fixpoint sort_insert (x : A) (l : list A) : list A :=
  match l with
  | [] => [x]
  | y :: l' => if leb (key x) (key y) then x :: l else y :: sort_insert x l'
  end.

(** [sorted(l, key=key)]: stable, ascending. *)
Definition py_sorted (l : list A) : list A := foldr sort_insert [] l.

Definition key_le (x y : A) : Prop := leb (key x) (key y) = true.

Lemma sort_insert_perm x l : sort_insert x l ≡ₚ x :: l.
Proof.
  induction l as [|y l IH]; cbn; [done|]. case_match; [done|].
  rewrite IH. apply Permutation_swap.
Qed.

Lemma py_sorted_perm l : py_sorted l ≡ₚ l.
Proof. induction l as [|x l IH]; cbn; [done|]. by rewrite sort_insert_perm, IH. Qed.

Context `{!TotalOrder leb}.

Lemma sort_insert_sorted x l :
  StronglySorted key_le l → StronglySorted key_le (sort_insert x l).
Proof.
  induction 1 as [|y l Hl IH Hy]; cbn; [repeat constructor|].
  case_match eqn:E.
  - constructor; [by constructor|]. constructor; [done|].
    eapply Forall_impl; [exact Hy|]. intros z Hz. by eapply leb_trans.
  - constructor; [done|]. rewrite sort_insert_perm. constructor; [|done].
    by apply leb_total.
Qed.

Lemma py_sorted_sorted l : StronglySorted key_le (py_sorted l).
Proof. induction l; cbn; [constructor|]. by apply sort_insert_sorted. Qed.

(** With distinct keys the order is strict: no two equal keys. *)
Definition key_lt (x y : A) : Prop := key_le x y ∧ key x ≠ key y.

Lemma py_sorted_strict l :
  NoDup (key <$> l) → StronglySorted key_lt (py_sorted l).
Proof.
  intros Hd. assert (NoDup (key <$> py_sorted l)) as Hd'.
  { by rewrite py_sorted_perm. }
  pose proof (py_sorted_sorted l) as Hs. revert Hd'.
  induction Hs as [|x l' Hl IH Hx]; cbn; [constructor|].
  intros [Hn Hd']%NoDup_cons. constructor; [by apply IH|].
  apply Forall_forall. intros y Hy.
  rewrite Forall_forall in Hx. split; [by apply Hx|].
  intros E. apply Hn. rewrite E. by apply list_elem_of_fmap_2.
Qed.
End sorted.

(** Sorted lists under weakening, filtering and concatenation. *)
Lemma ss_mono {A} (R S : A → A → Prop) l :
  (∀ x y, R x y → S x y) → StronglySorted R l → StronglySorted S l.
Proof.
  intros HRS. induction 1 as [|x l Hl IH Hx]; constructor; [done|].
  eapply Forall_impl; [exact Hx|]. auto.
Qed.

Lemma ss_filter {A} (R : A → A → Prop) (P : A → Prop) `{!∀ x, Decision (P x)} l :
  StronglySorted R l → StronglySorted R (filter P l).
Proof.
  induction 1 as [|x l Hl IH Hx]; [constructor|]. rewrite filter_cons. case_decide; [|done].
  constructor; [done|]. apply Forall_forall. intros y [_ Hy]%list_elem_of_filter.
  rewrite Forall_forall in Hx. by apply Hx.
Qed.

Lemma ss_map {A B} (R : A → A → Prop) (S : B → B → Prop) (f : A → B) l :
  (∀ x y, R x y → S (f x) (f y)) → StronglySorted R l → StronglySorted S (f <$> l).
Proof.
  intros Hf. induction 1 as [|x l Hl IH Hx]; cbn; constructor; [done|].
  apply Forall_fmap. eapply Forall_impl; [exact Hx|]. intros y. apply Hf.
Qed.

Lemma ss_app {A} (R : A → A → Prop) l k :
  StronglySorted R l → StronglySorted R k → (∀ x y, x ∈ l → y ∈ k → R x y) →
  StronglySorted R (l ++ k).
Proof.
  induction 1 as [|x l Hl IH Hx]; cbn; [done|]. intros Hk Hlk. constructor.
  - apply IH; [done|]. intros y z Hy. apply Hlk. by apply list_elem_of_further.
  - apply Forall_app. split; [done|]. apply Forall_forall. intros y.
    apply Hlk, list_elem_of_here.
Qed.

(** Concatenating sorted groups whose heads are sorted. *)
Lemma ss_bind {A B} (R : A → A → Prop) (S : B → B → Prop) (f : A → list B) l :
  (∀ x, x ∈ l → StronglySorted S (f x)) →
  (∀ x y u v, R x y → u ∈ f x → v ∈ f y → S u v) →
  StronglySorted R l → StronglySorted S (l ≫= f).
Proof.
  intros Hf HRS. induction 1 as [|x l Hl IH Hx]; cbn; [constructor|].
  apply ss_app.
  - apply Hf, list_elem_of_here.
  - apply IH. intros y Hy. apply Hf. by apply list_elem_of_further.
  - intros u v Hu (y & Hv & Hy)%list_elem_of_bind. rewrite Forall_forall in Hx.
    eapply HRS; eauto.
Qed.

Lemma py_sorted_elem {A K} (leb : K → K → bool) (key : A → K) l x :
  x ∈ py_sorted leb key l ↔ x ∈ l.
Proof. by rewrite py_sorted_perm. Qed.

Arguments py_sorted : simpl never.
Arguments be_bytes : simpl never.
Arguments from_be : simpl never.
Arguments zeros : simpl never.
Arguments py_slice {A} : simpl never.
Arguments py_slice_set {A} : simpl never.
Arguments py_ljust : simpl never.
Arguments py_len {A} : simpl never.
