(* ===== verification/SailRuntime.v ===== *)
(** * SailRuntime: the runtime of the extracted specification

    [_runtime.py]: fixed-width bitvectors ([Bits]), the integer primitives of
    Sail whose division differs from Python's, ranges, bounded unsigned
    integers and vector accesses, with what each of them raises. *)

From Stdlib Require Import ZArith Lia.
From stdpp Require Import base tactics option list.
From S2P Require Import Prelude PyBytes.
Local Open Scope Z_scope.

(** ** Integers *)

Definition _nonzero_divisor (value : Z) : outcome Z :=
  if value =? 0 then Raise ZeroDivisionError else Ok value.

Definition sail_emod_int (dividend divisor : Z) : outcome Z :=
  divisor ← _nonzero_divisor divisor; Ok (dividend mod Z.abs divisor).

Definition sail_ediv_int (dividend divisor : Z) : outcome Z :=
  divisor ← _nonzero_divisor divisor;
  r ← sail_emod_int dividend divisor; Ok ((dividend - r) / divisor).

Definition sail_tdiv_int (dividend divisor : Z) : outcome Z :=
  divisor ← _nonzero_divisor divisor;
  let quotient := Z.abs dividend / Z.abs divisor in
  Ok (if Bool.eqb (dividend <? 0) (divisor <? 0) then quotient else - quotient).

Definition sail_tmod_int (dividend divisor : Z) : outcome Z :=
  divisor ← _nonzero_divisor divisor;
  q ← sail_tdiv_int dividend divisor; Ok (dividend - q * divisor).

Definition sail_pow_int (base exponent : Z) : outcome Z :=
  if exponent <? 0 then Raise (ValueError "negative exponent") else Ok (base ^ exponent).

(** [Unsigned] types: a value outside the bounds raises. *)
Definition BoundedUint (lower upper value : Z) : outcome Z :=
  if (lower <=? value) && (value <=? upper) then Ok value else Raise OverflowError.

(** ** Bitvectors *)

Record Bits : Type := mkBits { width : Z; value : Z }.

#[export] Instance Bits_eq_dec : EqDecision Bits.
Proof. solve_decision. Defined.

(** [Bits(width, value)] of a width that is not negative. *)
Definition bits_of (w v : Z) : Bits := mkBits w (Z.land v (Z.ones w)).
Definition bits (w v : Z) : outcome Bits :=
  if w <? 0 then Raise (ValueError "bitvector width must be non-negative") else Ok (bits_of w v).

Definition mask (b : Bits) : Z := Z.ones b.(width).

(** The right operand of an operator: a bitvector, or an integer to be taken
    at the width of the left operand. *)
Inductive operand : Type :=
| OfBits (b : Bits)
| OfInt (z : Z).

Definition _as_bits (w : option Z) (v : operand) : outcome Bits :=
  match v, w with
  | OfBits b, Some w =>
      if b.(width) =? w then Ok b else Raise (ValueError "bitvector width mismatch")
  | OfBits b, None => Ok b
  | OfInt _, None => Raise (TypeError "an exact bitvector width is required")
  | OfInt z, Some w => bits w z
  end.

Definition _same_width (b : Bits) (other : operand) : outcome Z :=
  o ← _as_bits (Some b.(width)) other; Ok o.(value).

Definition bits_binop (f : Z → Z → Z) (b : Bits) (other : operand) : outcome Bits :=
  v ← _same_width b other; bits b.(width) (f b.(value) v).

Definition bits_and := bits_binop Z.land.
Definition bits_or := bits_binop Z.lor.
Definition bits_xor := bits_binop Z.lxor.
Definition bits_add := bits_binop Z.add.
Definition bits_sub := bits_binop Z.sub.
Definition bits_mul := bits_binop Z.mul.
Definition bits_invert (b : Bits) : outcome Bits := bits b.(width) (Z.lnot b.(value)).

Definition _shift_amount (amount : Z) : outcome Z :=
  if amount <? 0 then Raise (ValueError "shift amount must be non-negative") else Ok amount.
Definition bits_lshift (b : Bits) (amount : Z) : outcome Bits :=
  n ← _shift_amount amount; bits b.(width) (Z.shiftl b.(value) n).
Definition bits_rshift (b : Bits) (amount : Z) : outcome Bits :=
  n ← _shift_amount amount; bits b.(width) (Z.shiftr b.(value) n).

(** [int.bit_length] of a value that is not negative. *)
Definition bit_length (z : Z) : Z := if z =? 0 then 0 else Z.log2 z + 1.

Definition access (b : Bits) (index : Z) : outcome Bits :=
  if (0 <=? index) && (index <? b.(width))
  then bits 1 (Z.land (Z.shiftr b.(value) index) 1) else Raise IndexError.

Definition slice (b : Bits) (start w : Z) : outcome Bits :=
  if (start <? 0) || (w <? 0) || (b.(width) <? start + w) then Raise IndexError
  else bits w (Z.shiftr b.(value) start).

Definition set_slice (b : Bits) (start : Z) (v : Bits) : outcome Bits :=
  if (start <? 0) || (b.(width) <? start + v.(width)) then Raise IndexError
  else
    let m := Z.shiftl (mask v) start in
    bits b.(width) (Z.lor (Z.land b.(value) (Z.lnot m)) (Z.shiftl v.(value) start)).

Definition concat (b other : Bits) : outcome Bits :=
  bits (b.(width) + other.(width)) (Z.lor (Z.shiftl b.(value) other.(width)) other.(value)).

Definition zero_extend (b : Bits) (w : Z) : outcome Bits :=
  if w <? b.(width) then Raise (ValueError "cannot zero-extend") else bits w b.(value).

Definition signed (b : Bits) : Z :=
  if negb (b.(width) =? 0) && negb (Z.land b.(value) (Z.shiftl 1 (b.(width) - 1)) =? 0)
  then b.(value) - Z.shiftl 1 b.(width) else b.(value).

Definition sign_extend (b : Bits) (w : Z) : outcome Bits :=
  if w <? b.(width) then Raise (ValueError "cannot sign-extend") else bits w (signed b).

Definition truncate_lsb (b : Bits) (w : Z) : outcome Bits :=
  if (0 <=? w) && (w <=? b.(width)) then slice b (b.(width) - w) w
  else Raise (ValueError "cannot truncate").

Definition arith_shift_right (b : Bits) (amount : Z) : outcome Bits :=
  n ← _shift_amount amount; bits b.(width) (Z.shiftr (signed b) n).

Definition count_leading_zeros (b : Bits) : Z := b.(width) - bit_length b.(value).
Definition count_trailing_zeros (b : Bits) : Z :=
  if b.(value) =? 0 then b.(width) else bit_length (Z.land b.(value) (- b.(value))) - 1.

(** A bitvector holds a value of its width. *)
Definition bits_wf (b : Bits) : Prop := 0 <= b.(width) ∧ 0 <= b.(value) < 2 ^ b.(width).

(** ** Vectors *)

Section vector.
Context {A : Type}.
Implicit Types l : list A.

(** A Sail index counts from the last element unless [increasing]. *)
Definition _logical_index (l : list A) (index : Z) (increasing : bool) : outcome nat :=
  if (0 <=? index) && (index <? py_len l)
  then Ok (Z.to_nat (if increasing then index else py_len l - 1 - index))
  else Raise IndexError.

Definition sail_vector_access (l : list A) (index : Z) (increasing : bool) : outcome A :=
  i ← _logical_index l index increasing;
  match l !! i with Some x => Ok x | None => Raise IndexError end.

Definition sail_vector_update (l : list A) (index : Z) (item : A) (increasing : bool) :
    outcome (list A) :=
  i ← _logical_index l index increasing; Ok (<[i := item]> l).

Definition sail_vector_init (length : Z) (v : A) : outcome (list A) :=
  if length <? 0 then Raise (ValueError "vector length must be non-negative")
  else Ok (replicate (Z.to_nat length) v).

Definition sail_vector_append (left right : list A) : list A := left ++ right.

Definition _inclusive_indices (first last : Z) : list Z :=
  if first <=? last then seqZ first (last - first + 1)
  else reverse (seqZ last (first - last + 1)).

Definition sail_vector_subrange (l : list A) (first last : Z) (increasing : bool) :
    outcome (list A) :=
  mapM (λ i, sail_vector_access l i increasing) (_inclusive_indices first last).
End vector.

(** [sail_range(start, finish, step, increasing)]: the values of a [for]
    loop, both ends included. *)
Definition sail_range (start finish step : Z) (increasing : bool) : outcome (list Z) :=
  let step := Z.abs step in
  if step =? 0 then Raise (ValueError "Sail loop step cannot be zero")
  else if increasing then
    Ok ((λ k, start + k * step) <$> seqZ 0 (Z.max 0 ((finish - start) / step + 1)))
  else Ok ((λ k, start - k * step) <$> seqZ 0 (Z.max 0 ((start - finish) / step + 1))).

(** ** Facts: integers *)

Lemma sail_emod_ok n d : d ≠ 0 → sail_emod_int n d = Ok (n mod Z.abs d).
Proof. intros H. unfold sail_emod_int, _nonzero_divisor. by rewrite (proj2 (Z.eqb_neq d 0)). Qed.

(** Euclidean division, with a remainder that is never negative. *)
Lemma sail_ediv_ok n d :
  d ≠ 0 → ∃ q, sail_ediv_int n d = Ok q ∧ n = q * d + n mod Z.abs d.
Proof.
  intros H. unfold sail_ediv_int, _nonzero_divisor.
  rewrite (proj2 (Z.eqb_neq d 0)) by done. cbn [mbind outcome_bind].
  rewrite sail_emod_ok by done. cbn [mbind outcome_bind].
  exists ((n - n mod Z.abs d) / d). split; [done|].
  assert ((n - n mod Z.abs d) mod d = 0) as Hm.
  { apply Z.mod_divide; [done|]. apply Z.divide_abs_l.
    exists (n / Z.abs d). pose proof (Z.div_mod n (Z.abs d)). lia. }
  pose proof (Z.div_mod (n - n mod Z.abs d) d H). lia.
Qed.

Lemma sail_ediv_pos n d : 0 < d → sail_ediv_int n d = Ok (n / d).
Proof.
  intros H. destruct (sail_ediv_ok n d) as (q & -> & E); [lia|].
  f_equal. rewrite Z.abs_eq in E by lia. apply (Z.div_unique_pos _ _ _ (n mod d)); [|lia].
  by apply Z.mod_pos_bound.
Qed.

Lemma sail_tdiv_ok n d : d ≠ 0 → sail_tdiv_int n d = Ok (Z.quot n d).
Proof.
  intros H. unfold sail_tdiv_int, _nonzero_divisor.
  rewrite (proj2 (Z.eqb_neq d 0)) by done. cbn [mbind outcome_bind]. f_equal.
  rewrite <-Z.quot_div_nonneg by lia.
  destruct (Z.ltb_spec n 0), (Z.ltb_spec d 0); cbn [Bool.eqb];
    rewrite ?(Z.abs_neq n), ?(Z.abs_neq d), ?(Z.abs_eq n), ?(Z.abs_eq d) by lia;
    rewrite ?Z.quot_opp_l, ?Z.quot_opp_r by lia; lia.
Qed.

Lemma sail_tmod_ok n d : d ≠ 0 → sail_tmod_int n d = Ok (Z.rem n d).
Proof.
  intros H. unfold sail_tmod_int, _nonzero_divisor.
  rewrite (proj2 (Z.eqb_neq d 0)) by done. cbn [mbind outcome_bind].
  rewrite sail_tdiv_ok by done. cbn [mbind outcome_bind]. f_equal.
  pose proof (Z.quot_rem' n d). lia.
Qed.

Lemma BoundedUint_ok lo hi v : lo <= v <= hi → BoundedUint lo hi v = Ok v.
Proof. intros H. unfold BoundedUint. by rewrite (proj2 (Z.leb_le _ _)), (proj2 (Z.leb_le _ _)) by lia. Qed.

Lemma BoundedUint_inv lo hi v w : BoundedUint lo hi v = Ok w → w = v ∧ lo <= v <= hi.
Proof.
  unfold BoundedUint. destruct (Z.leb_spec lo v), (Z.leb_spec v hi); cbn; intros; simplify_eq; lia.
Qed.

(** ** Facts: bitvectors *)

Lemma bits_of_value w v : 0 <= w → (bits_of w v).(value) = v mod 2 ^ w.
Proof. intros H. cbn. by apply Z.land_ones. Qed.

Lemma bits_ok w v : 0 <= w → bits w v = Ok (bits_of w v).
Proof. intros H. unfold bits. by rewrite (proj2 (Z.ltb_ge _ _)). Qed.

Lemma bits_of_wf w v : 0 <= w → bits_wf (bits_of w v).
Proof.
  intros H. split; [done|]. rewrite bits_of_value by done. apply Z.mod_pos_bound.
  by apply Z.pow_pos_nonneg.
Qed.

Lemma bits_of_small w v : 0 <= w → 0 <= v < 2 ^ w → bits_of w v = mkBits w v.
Proof. intros Hw Hv. unfold bits_of. rewrite Z.land_ones, Z.mod_small by done. done. Qed.

(** Every operation of a well-formed bitvector gives one, or raises. *)
Lemma bits_inv w v b : bits w v = Ok b → bits_wf b ∧ b.(width) = w.
Proof.
  unfold bits. destruct (Z.ltb_spec w 0); [done|]. intros [= <-]. split; [|done].
  by apply bits_of_wf.
Qed.

Lemma bit_length_0 : bit_length 0 = 0.
Proof. done. Qed.

Lemma bit_length_le z n : 0 <= z → 0 <= n → bit_length z <= n ↔ z < 2 ^ n.
Proof.
  intros Hz Hn. unfold bit_length. destruct (Z.eqb_spec z 0) as [->|].
  - split; [|lia]. intros _. by apply Z.pow_pos_nonneg.
  - rewrite Z.log2_lt_pow2 by lia. lia.
Qed.

Lemma bit_length_nonneg z : 0 <= bit_length z.
Proof. unfold bit_length. destruct (z =? 0); [lia|]. pose proof (Z.log2_nonneg z). lia. Qed.

Lemma access_testbit b i :
  bits_wf b → 0 <= i < b.(width) → access b i = Ok (mkBits 1 (Z.b2z (Z.testbit b.(value) i))).
Proof.
  intros [Hw Hv] Hi. unfold access.
  rewrite (proj2 (Z.leb_le _ _)), (proj2 (Z.ltb_lt _ _)) by lia. cbn [andb].
  rewrite bits_ok by lia. f_equal.
  change 1 with (Z.ones 1) at 2. rewrite Z.land_ones, Z.shiftr_div_pow2 by lia.
  change (2 ^ 1) with 2. rewrite Z.testbit_spec' by lia.
  apply bits_of_small; [lia|]. apply (Z.mod_pos_bound _ 2). lia.
Qed.

Lemma signed_spec b :
  bits_wf b → 0 < b.(width) →
  signed b = if b.(value) <? 2 ^ (b.(width) - 1) then b.(value) else b.(value) - 2 ^ b.(width).
Proof.
  intros [Hw Hv] Hp. unfold signed. rewrite (proj2 (Z.eqb_neq _ _)) by lia. cbn [negb andb].
  rewrite !Z.shiftl_1_l. set (n := b.(width) - 1) in *.
  assert (Z.land b.(value) (2 ^ n) = if Z.testbit b.(value) n then 2 ^ n else 0) as ->.
  { apply Z.bits_inj'. intros i Hi. rewrite Z.land_spec, Z.pow2_bits_eqb by lia.
    destruct (Z.eqb_spec n i) as [<-|].
    - destruct (Z.testbit b.(value) n) eqn:E; [by rewrite Z.pow2_bits_true by lia|by rewrite Z.bits_0].
    - rewrite andb_false_r. destruct (Z.testbit b.(value) n); [|by rewrite Z.bits_0].
      by rewrite Z.pow2_bits_false by lia. }
  assert (2 ^ b.(width) = 2 * 2 ^ n) as E2 by (rewrite <-Z.pow_succ_r by lia; f_equal; lia).
  assert (0 < 2 ^ n) by (apply Z.pow_pos_nonneg; lia).
  destruct (Z.testbit b.(value) n) eqn:T.
  - rewrite (proj2 (Z.eqb_neq _ _)) by lia. cbn [negb].
    destruct (Z.ltb_spec b.(value) (2 ^ n)) as [Hl|]; [|done].
    apply Z.testbit_true in T; [|lia]. rewrite Z.div_small in T by lia. done.
  - cbn [negb Z.eqb]. destruct (Z.ltb_spec b.(value) (2 ^ n)) as [|Hg]; [done|].
    apply Z.testbit_false in T; [|lia]. exfalso.
    assert (b.(value) / 2 ^ n = 1) as E1.
    { symmetry. apply (Z.div_unique_pos _ _ _ (b.(value) - 2 ^ n)); lia. }
    by rewrite E1 in T.
Qed.
