(* ===== verification/OrderedDict.v ===== *)
(** * OrderedDict: Python's insertion-ordered [dict]

    The transaction tables of the host are [dict]s whose insertion order is
    observable, because [popitem] removes the last inserted item and a journal
    entry is undone by removing the last listed row. They are modelled as
    association lists in insertion order, with distinct keys. *)

From Stdlib Require Import Lia.
From stdpp Require Import base tactics option list gmap.
From S2P Require Import Prelude.

Section odict.
Context {K V : Type} `{EqDecision K}.

Definition odict := list (K * V).
Implicit Types (d : odict) (k : K) (v : V).

(** [d.get(k)] *)
Fixpoint od_get (k : K) (d : odict) : option V :=
  match d with
  | [] => None
  | (k', v) :: d' => if decide (k = k') then Some v else od_get k d'
  end.

(** [d[k] = v]: an existing key keeps its position. *)
Fixpoint od_set (k : K) (v : V) (d : odict) : odict :=
  match d with
  | [] => [(k, v)]
  | (k', v') :: d' =>
      if decide (k = k') then (k', v) :: d' else (k', v') :: od_set k v d'
  end.

(** Mutation of the value object held under [k]. *)
Definition od_alter (f : V → V) (k : K) (d : odict) : odict :=
  match od_get k d with Some v => od_set k (f v) d | None => d end.

(** [del d[k]] *)
Fixpoint od_del (k : K) (d : odict) : odict :=
  match d with
  | [] => []
  | (k', v) :: d' => if decide (k = k') then d' else (k', v) :: od_del k d'
  end.

(** [d.popitem()]: the last inserted item and the rest. *)
Definition od_popitem (d : odict) : option ((K * V) * odict) :=
  match last d with
  | Some kv => Some (kv, removelast d)
  | None => None
  end.

Definition od_keys (d : odict) : list K := d.*1.

(** The keys of a [dict] are distinct. *)
Definition od_wf (d : odict) : Prop := NoDup (od_keys d).

Lemma od_get_In k v d : od_get k d = Some v → (k, v) ∈ d.
Proof.
  induction d as [|[k' v'] d IH]; cbn; [done|].
  case_decide; intros; simplify_eq; [apply list_elem_of_here|].
  apply list_elem_of_further. auto.
Qed.

Lemma od_get_None k d : od_get k d = None ↔ k ∉ od_keys d.
Proof.
  induction d as [|[k' v'] d IH]; cbn.
  { split; [|done]. intros _ H. by apply not_elem_of_nil in H. }
  rewrite not_elem_of_cons. case_decide; [naive_solver|]. rewrite IH. naive_solver.
Qed.

Lemma od_get_wf_In k v d : od_wf d → (k, v) ∈ d → od_get k d = Some v.
Proof.
  induction d as [|[k' v'] d IH]; cbn; intros Hd Hin.
  { by apply not_elem_of_nil in Hin. }
  apply NoDup_cons in Hd as [Hn Hd]. apply elem_of_cons in Hin as [[= -> ->]|Hin].
  - by rewrite decide_True.
  - rewrite decide_False; [by apply IH|]. intros ->. apply Hn.
    by apply (list_elem_of_fmap_2 fst _ (k', v)).
Qed.

Lemma od_get_set_eq k v d : od_get k (od_set k v d) = Some v.
Proof.
  induction d as [|[k' v'] d IH]; cbn; [by rewrite decide_True|].
  case_decide; cbn; [by rewrite decide_True|by rewrite decide_False].
Qed.

Lemma od_get_set_ne k k' v d : k ≠ k' → od_get k' (od_set k v d) = od_get k' d.
Proof.
  intros Hk. induction d as [|[k'' v''] d IH]; cbn; [by rewrite decide_False|].
  case_decide; cbn; subst; [by rewrite !decide_False by congruence|].
  case_decide; [done|exact IH].
Qed.

Lemma od_get_set k k' v d :
  od_get k' (od_set k v d) = if decide (k = k') then Some v else od_get k' d.
Proof.
  case_decide; subst; [apply od_get_set_eq|by apply od_get_set_ne].
Qed.

Lemma od_set_fresh k v d : od_get k d = None → od_set k v d = d ++ [(k, v)].
Proof.
  induction d as [|[k' v'] d IH]; cbn; [done|].
  case_decide; [done|]. intros H'. by rewrite IH.
Qed.

Lemma od_keys_set k v d :
  od_keys (od_set k v d) =
  match od_get k d with Some _ => od_keys d | None => od_keys d ++ [k] end.
Proof.
  unfold od_keys. induction d as [|[k' v'] d IH]; cbn; [done|].
  case_decide; cbn; [done|]. rewrite IH. by destruct (od_get k d).
Qed.

Lemma od_set_wf k v d : od_wf d → od_wf (od_set k v d).
Proof.
  unfold od_wf. rewrite od_keys_set. destruct (od_get k d) eqn:E; [done|].
  intros Hd. apply NoDup_app. split; [done|]. split; [|apply NoDup_singleton].
  intros x Hx ->%list_elem_of_singleton. by apply od_get_None in E.
Qed.

(** Writing back the value a key already has changes nothing. *)
Lemma od_set_same k v d : od_get k d = Some v → od_set k v d = d.
Proof.
  induction d as [|[k' v'] d IH]; cbn; [done|].
  case_decide; [by intros [= ->]|]. intros. by rewrite IH.
Qed.

Lemma od_set_set k v v' d : od_set k v (od_set k v' d) = od_set k v d.
Proof.
  induction d as [|[k' w] d IH]; cbn; [by rewrite decide_True|].
  case_decide; cbn; [by rewrite decide_True|]. rewrite decide_False by done.
  by rewrite IH.
Qed.

Lemma od_get_alter f k k' d :
  od_get k' (od_alter f k d) =
  if decide (k = k') then f <$> od_get k' d else od_get k' d.
Proof.
  unfold od_alter. case_decide; subst.
  - destruct (od_get k' d) as [v|] eqn:E; cbn; [by rewrite od_get_set_eq|done].
  - destruct (od_get k d) eqn:E; [by apply od_get_set_ne|done].
Qed.

Lemma od_keys_alter f k d : od_keys (od_alter f k d) = od_keys d.
Proof.
  unfold od_alter. destruct (od_get k d) eqn:E; [|done].
  by rewrite od_keys_set, E.
Qed.

Lemma od_alter_wf f k d : od_wf d → od_wf (od_alter f k d).
Proof. unfold od_wf. by rewrite od_keys_alter. Qed.

Lemma od_alter_alter f g k d :
  od_alter f k (od_alter g k d) = od_alter (f ∘ g) k d.
Proof.
  unfold od_alter. destruct (od_get k d) as [v|] eqn:E; [|by rewrite E].
  by rewrite od_get_set_eq, od_set_set.
Qed.

Lemma od_alter_id f k d :
  (∀ v, od_get k d = Some v → f v = v) → od_alter f k d = d.
Proof.
  unfold od_alter. intros H. destruct (od_get k d) as [v|] eqn:E; [|done].
  rewrite H by done. by apply od_set_same.
Qed.

Lemma od_popitem_snoc d k v : od_popitem (d ++ [(k, v)]) = Some ((k, v), d).
Proof. unfold od_popitem. by rewrite last_snoc, removelast_last. Qed.

Lemma od_popitem_None d : od_popitem d = None ↔ d = [].
Proof.
  split; [|by intros ->]. unfold od_popitem.
  destruct d as [|x d _] using rev_ind; [done|]. by rewrite last_snoc.
Qed.

Lemma od_popitem_Some d k v d' :
  od_popitem d = Some ((k, v), d') ↔ d = d' ++ [(k, v)].
Proof.
  split; [|intros ->; apply od_popitem_snoc].
  destruct d as [|[k' v'] d _] using rev_ind; [done|].
  rewrite od_popitem_snoc. by intros [= -> -> ->].
Qed.

(** [popitem] undoes the insertion of a fresh key. *)
Lemma od_popitem_set_fresh k v d :
  od_get k d = None → od_popitem (od_set k v d) = Some ((k, v), d).
Proof. intros. rewrite od_set_fresh by done. apply od_popitem_snoc. Qed.

Lemma od_get_snoc_ne k k' v d : k ≠ k' → od_get k (d ++ [(k', v)]) = od_get k d.
Proof.
  intros Hk. induction d as [|[k'' v''] d IH]; cbn; [by rewrite decide_False|].
  by case_decide.
Qed.

Lemma od_get_app_Some k v d d' : od_get k d = Some v → od_get k (d ++ d') = Some v.
Proof.
  induction d as [|[k' v'] d IH]; cbn; [done|]. by case_decide.
Qed.

Lemma od_del_snoc_fresh k v d : od_get k d = None → od_del k (d ++ [(k, v)]) = d.
Proof.
  induction d as [|[k' v'] d IH]; cbn; [by rewrite decide_True|].
  case_decide; [done|]. intros. by rewrite IH.
Qed.

Lemma od_get_del_ne k k' d : k ≠ k' → od_get k' (od_del k d) = od_get k' d.
Proof.
  intros Hk. induction d as [|[k'' v''] d IH]; cbn; [done|].
  case_decide; subst; cbn; [by rewrite decide_False by congruence|].
  by case_decide.
Qed.

Lemma od_popitem_length d kv d' : od_popitem d = Some (kv, d') → length d = S (length d').
Proof. destruct kv. rewrite od_popitem_Some. intros ->. rewrite length_app. cbn. lia. Qed.
End odict.

Arguments odict : clear implicits.
