(* ===== verification/HostTypes.v ===== *)
(** * HostTypes: the data the host contract stores and exchanges

    The records and tagged unions of [primitives/account.py],
    [host/journal.py], [host/state.py], [primitives/bytes.py],
    [primitives/code.py], [primitives/evm.py] and [evm/halt.py] that cross the
    host boundary, the row types of [HostContract.py], and [HostState], whose
    fields are grouped by the component that owns them. Integers are [Z];
    [address] and [hash] hold the bytes of a [Bytes20]/[Bytes32] in sequence
    order, least significant first, so the wire order is their reverse. *)

From Stdlib Require Import ZArith.
From stdpp Require Import base tactics option list gmap.
From S2P Require Import Prelude PyBytes OrderedDict.

#[local] Open Scope Z_scope.

Abbreviation address := bytes.
Abbreviation hash := bytes.

(** ** Slices of the byte regions *)

Record Slice : Type := mkSlice { sl_bytes : Z; sl_len : Z }.

#[export] Instance Slice_eq_dec : EqDecision Slice.
Proof. solve_decision. Defined.

(** The validity check every slice constructor performs. *)
Definition region_valid_range (off len : Z) : bool :=
  (0 <=? off) && ((0 <=? len) && (off + len <=? 2 ^ 32 - 1)).

Definition checked_slice (off len : Z) : outcome Slice :=
  if region_valid_range off len then Ok (mkSlice off len)
  else Raise (ValueError "violates Sail constraint valid_range('off, 'len)").

Definition stateless_input_slice (off sail_len : Z) : outcome Slice := checked_slice off sail_len.
Definition scratch_slice (off sail_len : Z) : outcome Slice := checked_slice off sail_len.
Definition evm_memory_slice (off sail_len : Z) : outcome Slice := checked_slice off sail_len.
Definition code_region_slice (off sail_len : Z) : outcome Slice := checked_slice off sail_len.
Definition log_data_slice (off sail_len : Z) : outcome Slice := checked_slice off sail_len.
Definition output_slice (off sail_len : Z) : outcome Slice := checked_slice off sail_len.

Definition EMPTY_STATELESS_INPUT_SLICE : Slice := mkSlice 0 0.

Inductive CalldataSlice : Type :=
| InputCalldata (inner : Slice)
| MemoryCalldata (inner : Slice).

(** ** Contract code *)

Record Code : Type := mkCode { code_off : Z; code_len : Z; jumpdests : Z }.

#[export] Instance Code_eq_dec : EqDecision Code.
Proof. solve_decision. Defined.

Definition EMPTY_CODE : Code := mkCode 0 0 0.

Definition code_bytes_slice (code : Code) : outcome Slice :=
  code_region_slice code.(code_off) code.(code_len).

(** ** Frames *)

Inductive HaltKind : Type :=
| HaltStop
| HaltReturn (value : Slice)
| HaltRevert (value : Slice)
| HaltSelfDestruct.

Inductive FrameStatus : Type :=
| Running
| Halted (value : HaltKind)
| Exceptional (exception_kind : Z).

Record StackPointer : Type := mkStackPointer { sp_storage : Z; sp_height : Z }.

Record Message : Type := mkMessage {
  msg_caller : address;
  msg_code_address : address;
  msg_address : address;
  msg_value : Z;
  msg_state_gas_reservoir : Z;
  msg_is_static : bool;
  msg_depth : Z;
}.

Record FrameCheckpoint : Type := mkFrameCheckpoint {
  fc_pc : Z;
  fc_gas_remaining : Z;
  fc_stack_top : StackPointer;
  fc_state_gas_remaining : Z;
  fc_state_gas_spilled : Z;
  fc_refund : Z;
  fc_status : FrameStatus;
  fc_message : Message;
  fc_code : Code;
  fc_calldata : CalldataSlice;
  fc_memory_height : Z;
}.

Record CallContinuation : Type := mkCallContinuation {
  cc_checkpoint : FrameCheckpoint;
  cc_return_offset : Z;
  cc_return_length : Z;
  cc_new_account_charged : bool;
}.

Record CreateContinuation : Type := mkCreateContinuation {
  crc_checkpoint : FrameCheckpoint;
  crc_address : address;
  crc_new_account_charged : bool;
}.

Inductive FrameContinuation : Type :=
| Empty
| ResumeCall (value : CallContinuation)
| ResumeCreate (value : CreateContinuation).

(** ** Accounts and storage *)

(** [AccountInfo] of [primitives/account.py]. *)
Record AccountInfo : Type := mkAccountInfo {
  nonce : Z;
  balance : Z;
  code_hash : hash;
  storage_root : hash;
}.

Definition set_nonce (v : Z) (r : AccountInfo) : AccountInfo :=
  mkAccountInfo v r.(balance) r.(code_hash) r.(storage_root).
Definition set_balance (v : Z) (r : AccountInfo) : AccountInfo :=
  mkAccountInfo r.(nonce) v r.(code_hash) r.(storage_root).
Definition set_code_hash (v : hash) (r : AccountInfo) : AccountInfo :=
  mkAccountInfo r.(nonce) r.(balance) v r.(storage_root).
Definition set_storage_root (v : hash) (r : AccountInfo) : AccountInfo :=
  mkAccountInfo r.(nonce) r.(balance) r.(code_hash) v.

(** [Account]. *)
Record Account : Type := mkAccount {
  info : AccountInfo;
  present : bool;
  storage_cleared : bool;
  created : bool;
  selfdestructed : bool;
}.

Definition set_info (v : AccountInfo) (r : Account) : Account :=
  mkAccount v r.(present) r.(storage_cleared) r.(created) r.(selfdestructed).
Definition set_present (v : bool) (r : Account) : Account :=
  mkAccount r.(info) v r.(storage_cleared) r.(created) r.(selfdestructed).
Definition set_storage_cleared (v : bool) (r : Account) : Account :=
  mkAccount r.(info) r.(present) v r.(created) r.(selfdestructed).
Definition set_created (v : bool) (r : Account) : Account :=
  mkAccount r.(info) r.(present) r.(storage_cleared) v r.(selfdestructed).
Definition set_selfdestructed (v : bool) (r : Account) : Account :=
  mkAccount r.(info) r.(present) r.(storage_cleared) r.(created) v.

(** [StorageValue]. *)
Record StorageValue : Type := mkStorageValue {
  sv_curr : Z;
  sv_orig : Z;
}.

Definition set_sv_curr (v : Z) (r : StorageValue) : StorageValue :=
  mkStorageValue v r.(sv_orig).
Definition set_sv_orig (v : Z) (r : StorageValue) : StorageValue :=
  mkStorageValue r.(sv_curr) v.

#[export] Instance AccountInfo_eq_dec : EqDecision AccountInfo.
Proof. solve_decision. Defined.
#[export] Instance Account_eq_dec : EqDecision Account.
Proof. solve_decision. Defined.
#[export] Instance StorageValue_eq_dec : EqDecision StorageValue.
Proof. solve_decision. Defined.

Record StorageKey : Type := mkStorageKey { sk_addr : address; sk_slot : Z }.

#[export] Instance StorageKey_eq_dec : EqDecision StorageKey.
Proof. solve_decision. Defined.

Record StorageEntry : Type := mkStorageEntry { se_key : StorageKey; se_value : StorageValue }.

Inductive StorageTxLookup : Type :=
| StorageTxHit (value : StorageValue)
| StorageTxCleared
| StorageTxMiss.

Record StorageBlockRow : Type := mkStorageBlockRow { sbr_found : bool; sbr_value : StorageValue }.

Inductive StorageTxPopResult : Type :=
| StorageTxPopRow (value : StorageEntry)
| StorageTxPopExhausted.

Record AcctValue : Type := mkAcctValue { av_curr : Account; av_orig : Account }.
Record AcctEntry : Type := mkAcctEntry { ae_addr : address; ae_value : AcctValue }.
Record AccountRow : Type := mkAccountRow { ar_found : bool; ar_account : Account }.

Inductive AcctTxPopResult : Type :=
| AcctTxPopRow (value : AcctEntry)
| AcctTxPopExhausted.

Record StorageTrieEntry : Type := mkStorageTrieEntry {
  ste_entry : StorageEntry;
  ste_address_hash : option hash;
  ste_slot_hash : option hash;
}.

Inductive StorageBlockIterResult : Type :=
| StorageBlockIterRow (value : StorageTrieEntry)
| StorageBlockIterExhausted.

Record AcctTrieEntry : Type := mkAcctTrieEntry {
  ate_entry : AcctEntry;
  ate_address_hash : option hash;
}.

Inductive AcctBlockIterResult : Type :=
| AcctBlockIterRow (value : AcctTrieEntry)
| AcctBlockIterExhausted.

Record AddressResult : Type := mkAddressResult { adr_success : bool; adr_address : address }.

(** ** The state journal *)

Inductive StateJournalEntry : Type :=
| JournalTransientChanged (address : address) (slot prior : Z)
| JournalWarmAccountChanged (address : address) (prior_epoch : Z)
| JournalWarmStorageChanged (key : StorageKey) (prior_epoch : Z)
| JournalAccountBalanceChanged (address : address) (prior : Z)
| JournalAccountNonceChanged (address : address) (prior : Z)
| JournalAccountCodeHashChanged (address : address) (prior : hash)
| JournalAccountExistsChanged (address : address) (prior : bool)
| JournalAccountCreatedChanged (address : address) (prior : bool)
| JournalAccountSelfdestructedChanged (address : address) (prior : bool)
| JournalTransactionAccountListed
| JournalTransactionStorageListed (address : address)
| JournalLogAppended
| JournalStorageValueChanged (key : StorageKey) (prior : Z)
| JournalStorageRowGenerationChanged (key : StorageKey) (prior : Z)
| JournalAccountStorageGenerationChanged (address : address) (prior : Z)
| JournalFrameCheckpointed
| JournalFrameCommitted.

#[export] Instance StateJournalEntry_eq_dec : EqDecision StateJournalEntry.
Proof. solve_decision. Defined.

(** ** Rows of the host tables *)

Record JumpdestTable : Type := mkJumpdestTable { jt_code_length : Z; jt_positions : gset Z }.

(** [LogRecord]. *)
Record LogRecord : Type := mkLogRecord {
  log_address_ : address;
  topics : list Z;
  data_offset : Z;
  data_length : Z;
}.

Definition set_topics (v : list Z) (r : LogRecord) : LogRecord :=
  mkLogRecord r.(log_address_) v r.(data_offset) r.(data_length).
Definition set_data_length (v : Z) (r : LogRecord) : LogRecord :=
  mkLogRecord r.(log_address_) r.(topics) r.(data_offset) v.

(** [AuthorizationRecord]. *)
Record AuthorizationRecord : Type := mkAuthorizationRecord {
  seen : bool;
  originally_delegated : bool;
  delegation_set : bool;
}.

(** [StorageBlockCacheRow]. *)
Record StorageBlockCacheRow : Type := mkStorageBlockCacheRow {
  sb_key : StorageKey;
  sb_value : StorageValue;
  sb_address_hash : option hash;
  sb_slot_hash : option hash;
}.

Record AccountBlockRow : Type := mkAccountBlockRow {
  ab_address : address;
  ab_value : AcctValue;
  ab_address_hash : option hash;
}.

(** [AccountTxRow]. *)
Record AccountTxRow : Type := mkAccountTxRow {
  current : Account;
  original : Account;
}.

Definition set_current (v : Account) (r : AccountTxRow) : AccountTxRow :=
  mkAccountTxRow v r.(original).

(** [StorageTxRow]. *)
Record StorageTxRow : Type := mkStorageTxRow {
  str_key : StorageKey;
  str_value : StorageValue;
  generation : Z;
}.

Definition set_str_value (v : StorageValue) (r : StorageTxRow) : StorageTxRow :=
  mkStorageTxRow r.(str_key) v r.(generation).
Definition set_generation (v : Z) (r : StorageTxRow) : StorageTxRow :=
  mkStorageTxRow r.(str_key) r.(str_value) v.

(** ** Block access list events *)

Inductive BalIterEntry : Type :=
| BalAccount (value : address)
| BalStorageChange (slot index value : Z)
| BalStorageRead (value : Z)
| BalBalanceChange (index value : Z)
| BalNonceChange (index value : Z)
| BalCodeChange (index : Z) (code_hash : hash)
| BalAccountEnd
| BalEmpty.

(** ** The state *)

(** The byte regions of [HostState]. *)
Record Regions : Type := mkRegions {
  stateless_input_bytes : bytes;
  memory_bytes : bytes;
  code_bytes : bytes;
  scratch_bytes : bytes;
  output_bytes : bytes;
  public_output : bytes;
}.

Definition set_stateless_input_bytes (v : bytes) (r : Regions) : Regions :=
  mkRegions v r.(memory_bytes) r.(code_bytes) r.(scratch_bytes) r.(output_bytes) r.(public_output).
Definition set_memory_bytes (v : bytes) (r : Regions) : Regions :=
  mkRegions r.(stateless_input_bytes) v r.(code_bytes) r.(scratch_bytes) r.(output_bytes) r.(public_output).
Definition set_code_bytes (v : bytes) (r : Regions) : Regions :=
  mkRegions r.(stateless_input_bytes) r.(memory_bytes) v r.(scratch_bytes) r.(output_bytes) r.(public_output).
Definition set_scratch_bytes (v : bytes) (r : Regions) : Regions :=
  mkRegions r.(stateless_input_bytes) r.(memory_bytes) r.(code_bytes) v r.(output_bytes) r.(public_output).
Definition set_output_bytes (v : bytes) (r : Regions) : Regions :=
  mkRegions r.(stateless_input_bytes) r.(memory_bytes) r.(code_bytes) r.(scratch_bytes) v r.(public_output).
Definition set_public_output (v : bytes) (r : Regions) : Regions :=
  mkRegions r.(stateless_input_bytes) r.(memory_bytes) r.(code_bytes) r.(scratch_bytes) r.(output_bytes) v.

(** The operand and continuation stacks of [HostState]. *)
Record Stacks : Type := mkStacks {
  operand_stack : list Z;
  operand_stack_frames : list Z;
  continuation_frames : list FrameContinuation;
}.

Definition set_operand_stack (v : list Z) (r : Stacks) : Stacks :=
  mkStacks v r.(operand_stack_frames) r.(continuation_frames).
Definition set_operand_stack_frames (v : list Z) (r : Stacks) : Stacks :=
  mkStacks r.(operand_stack) v r.(continuation_frames).
Definition set_continuation_frames (v : list FrameContinuation) (r : Stacks) : Stacks :=
  mkStacks r.(operand_stack) r.(operand_stack_frames) v.

(** The code, trie-node and ancestor-hash tables of [HostState]. *)
Record CodeState : Type := mkCodeState {
  ancestor_hashes : gmap Z hash;
  jumpdest_tables : gmap Z JumpdestTable;
  next_jumpdest_table : Z;
  code_db : gmap bytes Code;
  node_db : gmap bytes Slice;
}.

Definition set_ancestor_hashes (v : gmap Z hash) (r : CodeState) : CodeState :=
  mkCodeState v r.(jumpdest_tables) r.(next_jumpdest_table) r.(code_db) r.(node_db).
Definition set_jumpdest_tables (v : gmap Z JumpdestTable) (r : CodeState) : CodeState :=
  mkCodeState r.(ancestor_hashes) v r.(next_jumpdest_table) r.(code_db) r.(node_db).
Definition set_next_jumpdest_table (v : Z) (r : CodeState) : CodeState :=
  mkCodeState r.(ancestor_hashes) r.(jumpdest_tables) v r.(code_db) r.(node_db).
Definition set_code_db (v : gmap bytes Code) (r : CodeState) : CodeState :=
  mkCodeState r.(ancestor_hashes) r.(jumpdest_tables) r.(next_jumpdest_table) v r.(node_db).
Definition set_node_db (v : gmap bytes Slice) (r : CodeState) : CodeState :=
  mkCodeState r.(ancestor_hashes) r.(jumpdest_tables) r.(next_jumpdest_table) r.(code_db) v.

(** The journalled state and its block caches, and the log store. *)
Record World : Type := mkWorld {
  transient : gmap (bytes * Z) Z;
  storage_tx : odict (bytes * Z) StorageTxRow;
  storage_generations : gmap bytes Z;
  storage_next_generation : Z;
  storage_block : odict (bytes * Z) StorageBlockCacheRow;
  storage_iterator : list StorageBlockCacheRow;
  account_tx : odict bytes AccountTxRow;
  account_block : odict bytes AccountBlockRow;
  account_iterator : list AccountBlockRow;
  journal : list StateJournalEntry;
  warm_addresses : gmap bytes Z;
  warm_slots : gmap (bytes * Z) Z;
  current_warm_epoch : Z;
  logs : list LogRecord;
  log_data : bytes;
  transaction_log_start : Z;
  current_log : option Z;
}.

Definition set_transient (v : gmap (bytes * Z) Z) (r : World) : World :=
  mkWorld v r.(storage_tx) r.(storage_generations) r.(storage_next_generation) r.(storage_block) r.(storage_iterator) r.(account_tx) r.(account_block) r.(account_iterator) r.(journal) r.(warm_addresses) r.(warm_slots) r.(current_warm_epoch) r.(logs) r.(log_data) r.(transaction_log_start) r.(current_log).
Definition set_storage_tx (v : odict (bytes * Z) StorageTxRow) (r : World) : World :=
  mkWorld r.(transient) v r.(storage_generations) r.(storage_next_generation) r.(storage_block) r.(storage_iterator) r.(account_tx) r.(account_block) r.(account_iterator) r.(journal) r.(warm_addresses) r.(warm_slots) r.(current_warm_epoch) r.(logs) r.(log_data) r.(transaction_log_start) r.(current_log).
Definition set_storage_generations (v : gmap bytes Z) (r : World) : World :=
  mkWorld r.(transient) r.(storage_tx) v r.(storage_next_generation) r.(storage_block) r.(storage_iterator) r.(account_tx) r.(account_block) r.(account_iterator) r.(journal) r.(warm_addresses) r.(warm_slots) r.(current_warm_epoch) r.(logs) r.(log_data) r.(transaction_log_start) r.(current_log).
Definition set_storage_next_generation (v : Z) (r : World) : World :=
  mkWorld r.(transient) r.(storage_tx) r.(storage_generations) v r.(storage_block) r.(storage_iterator) r.(account_tx) r.(account_block) r.(account_iterator) r.(journal) r.(warm_addresses) r.(warm_slots) r.(current_warm_epoch) r.(logs) r.(log_data) r.(transaction_log_start) r.(current_log).
Definition set_storage_block (v : odict (bytes * Z) StorageBlockCacheRow) (r : World) : World :=
  mkWorld r.(transient) r.(storage_tx) r.(storage_generations) r.(storage_next_generation) v r.(storage_iterator) r.(account_tx) r.(account_block) r.(account_iterator) r.(journal) r.(warm_addresses) r.(warm_slots) r.(current_warm_epoch) r.(logs) r.(log_data) r.(transaction_log_start) r.(current_log).
Definition set_storage_iterator (v : list StorageBlockCacheRow) (r : World) : World :=
  mkWorld r.(transient) r.(storage_tx) r.(storage_generations) r.(storage_next_generation) r.(storage_block) v r.(account_tx) r.(account_block) r.(account_iterator) r.(journal) r.(warm_addresses) r.(warm_slots) r.(current_warm_epoch) r.(logs) r.(log_data) r.(transaction_log_start) r.(current_log).
Definition set_account_tx (v : odict bytes AccountTxRow) (r : World) : World :=
  mkWorld r.(transient) r.(storage_tx) r.(storage_generations) r.(storage_next_generation) r.(storage_block) r.(storage_iterator) v r.(account_block) r.(account_iterator) r.(journal) r.(warm_addresses) r.(warm_slots) r.(current_warm_epoch) r.(logs) r.(log_data) r.(transaction_log_start) r.(current_log).
Definition set_account_block (v : odict bytes AccountBlockRow) (r : World) : World :=
  mkWorld r.(transient) r.(storage_tx) r.(storage_generations) r.(storage_next_generation) r.(storage_block) r.(storage_iterator) r.(account_tx) v r.(account_iterator) r.(journal) r.(warm_addresses) r.(warm_slots) r.(current_warm_epoch) r.(logs) r.(log_data) r.(transaction_log_start) r.(current_log).
Definition set_account_iterator (v : list AccountBlockRow) (r : World) : World :=
  mkWorld r.(transient) r.(storage_tx) r.(storage_generations) r.(storage_next_generation) r.(storage_block) r.(storage_iterator) r.(account_tx) r.(account_block) v r.(journal) r.(warm_addresses) r.(warm_slots) r.(current_warm_epoch) r.(logs) r.(log_data) r.(transaction_log_start) r.(current_log).
Definition set_journal (v : list StateJournalEntry) (r : World) : World :=
  mkWorld r.(transient) r.(storage_tx) r.(storage_generations) r.(storage_next_generation) r.(storage_block) r.(storage_iterator) r.(account_tx) r.(account_block) r.(account_iterator) v r.(warm_addresses) r.(warm_slots) r.(current_warm_epoch) r.(logs) r.(log_data) r.(transaction_log_start) r.(current_log).
Definition set_warm_addresses (v : gmap bytes Z) (r : World) : World :=
  mkWorld r.(transient) r.(storage_tx) r.(storage_generations) r.(storage_next_generation) r.(storage_block) r.(storage_iterator) r.(account_tx) r.(account_block) r.(account_iterator) r.(journal) v r.(warm_slots) r.(current_warm_epoch) r.(logs) r.(log_data) r.(transaction_log_start) r.(current_log).
Definition set_warm_slots (v : gmap (bytes * Z) Z) (r : World) : World :=
  mkWorld r.(transient) r.(storage_tx) r.(storage_generations) r.(storage_next_generation) r.(storage_block) r.(storage_iterator) r.(account_tx) r.(account_block) r.(account_iterator) r.(journal) r.(warm_addresses) v r.(current_warm_epoch) r.(logs) r.(log_data) r.(transaction_log_start) r.(current_log).
Definition set_current_warm_epoch (v : Z) (r : World) : World :=
  mkWorld r.(transient) r.(storage_tx) r.(storage_generations) r.(storage_next_generation) r.(storage_block) r.(storage_iterator) r.(account_tx) r.(account_block) r.(account_iterator) r.(journal) r.(warm_addresses) r.(warm_slots) v r.(logs) r.(log_data) r.(transaction_log_start) r.(current_log).
Definition set_logs (v : list LogRecord) (r : World) : World :=
  mkWorld r.(transient) r.(storage_tx) r.(storage_generations) r.(storage_next_generation) r.(storage_block) r.(storage_iterator) r.(account_tx) r.(account_block) r.(account_iterator) r.(journal) r.(warm_addresses) r.(warm_slots) r.(current_warm_epoch) v r.(log_data) r.(transaction_log_start) r.(current_log).
Definition set_log_data (v : bytes) (r : World) : World :=
  mkWorld r.(transient) r.(storage_tx) r.(storage_generations) r.(storage_next_generation) r.(storage_block) r.(storage_iterator) r.(account_tx) r.(account_block) r.(account_iterator) r.(journal) r.(warm_addresses) r.(warm_slots) r.(current_warm_epoch) r.(logs) v r.(transaction_log_start) r.(current_log).
Definition set_transaction_log_start (v : Z) (r : World) : World :=
  mkWorld r.(transient) r.(storage_tx) r.(storage_generations) r.(storage_next_generation) r.(storage_block) r.(storage_iterator) r.(account_tx) r.(account_block) r.(account_iterator) r.(journal) r.(warm_addresses) r.(warm_slots) r.(current_warm_epoch) r.(logs) r.(log_data) v r.(current_log).
Definition set_current_log (v : option Z) (r : World) : World :=
  mkWorld r.(transient) r.(storage_tx) r.(storage_generations) r.(storage_next_generation) r.(storage_block) r.(storage_iterator) r.(account_tx) r.(account_block) r.(account_iterator) r.(journal) r.(warm_addresses) r.(warm_slots) r.(current_warm_epoch) r.(logs) r.(log_data) r.(transaction_log_start) v.

(** The block access list under construction. *)
Record BalState : Type := mkBalState {
  bal_accounts : gset bytes;
  bal_addresses : gmap bytes address;
  bal_storage_changes : gmap (bytes * Z) (gmap Z Z);
  bal_storage_reads : gset (bytes * Z);
  bal_balance_changes : gmap bytes (gmap Z Z);
  bal_nonce_changes : gmap bytes (gmap Z Z);
  bal_code_changes : gmap bytes (gmap Z hash);
  bal_iterator : list BalIterEntry;
}.

Definition set_bal_accounts (v : gset bytes) (r : BalState) : BalState :=
  mkBalState v r.(bal_addresses) r.(bal_storage_changes) r.(bal_storage_reads) r.(bal_balance_changes) r.(bal_nonce_changes) r.(bal_code_changes) r.(bal_iterator).
Definition set_bal_addresses (v : gmap bytes address) (r : BalState) : BalState :=
  mkBalState r.(bal_accounts) v r.(bal_storage_changes) r.(bal_storage_reads) r.(bal_balance_changes) r.(bal_nonce_changes) r.(bal_code_changes) r.(bal_iterator).
Definition set_bal_storage_changes (v : gmap (bytes * Z) (gmap Z Z)) (r : BalState) : BalState :=
  mkBalState r.(bal_accounts) r.(bal_addresses) v r.(bal_storage_reads) r.(bal_balance_changes) r.(bal_nonce_changes) r.(bal_code_changes) r.(bal_iterator).
Definition set_bal_storage_reads (v : gset (bytes * Z)) (r : BalState) : BalState :=
  mkBalState r.(bal_accounts) r.(bal_addresses) r.(bal_storage_changes) v r.(bal_balance_changes) r.(bal_nonce_changes) r.(bal_code_changes) r.(bal_iterator).
Definition set_bal_balance_changes (v : gmap bytes (gmap Z Z)) (r : BalState) : BalState :=
  mkBalState r.(bal_accounts) r.(bal_addresses) r.(bal_storage_changes) r.(bal_storage_reads) v r.(bal_nonce_changes) r.(bal_code_changes) r.(bal_iterator).
Definition set_bal_nonce_changes (v : gmap bytes (gmap Z Z)) (r : BalState) : BalState :=
  mkBalState r.(bal_accounts) r.(bal_addresses) r.(bal_storage_changes) r.(bal_storage_reads) r.(bal_balance_changes) v r.(bal_code_changes) r.(bal_iterator).
Definition set_bal_code_changes (v : gmap bytes (gmap Z hash)) (r : BalState) : BalState :=
  mkBalState r.(bal_accounts) r.(bal_addresses) r.(bal_storage_changes) r.(bal_storage_reads) r.(bal_balance_changes) r.(bal_nonce_changes) v r.(bal_iterator).
Definition set_bal_iterator (v : list BalIterEntry) (r : BalState) : BalState :=
  mkBalState r.(bal_accounts) r.(bal_addresses) r.(bal_storage_changes) r.(bal_storage_reads) r.(bal_balance_changes) r.(bal_nonce_changes) r.(bal_code_changes) v.

(** All mutable state owned by the host. *)
Record HostState : Type := mkHostState {
  regions : Regions;
  stacks : Stacks;
  codes : CodeState;
  world : World;
  authorizations : gmap bytes AuthorizationRecord;
  bal : BalState;
}.

Definition set_regions (v : Regions) (r : HostState) : HostState :=
  mkHostState v r.(stacks) r.(codes) r.(world) r.(authorizations) r.(bal).
Definition set_stacks (v : Stacks) (r : HostState) : HostState :=
  mkHostState r.(regions) v r.(codes) r.(world) r.(authorizations) r.(bal).
Definition set_codes (v : CodeState) (r : HostState) : HostState :=
  mkHostState r.(regions) r.(stacks) v r.(world) r.(authorizations) r.(bal).
Definition set_world (v : World) (r : HostState) : HostState :=
  mkHostState r.(regions) r.(stacks) r.(codes) v r.(authorizations) r.(bal).
Definition set_authorizations (v : gmap bytes AuthorizationRecord) (r : HostState) : HostState :=
  mkHostState r.(regions) r.(stacks) r.(codes) r.(world) v r.(bal).
Definition set_bal (v : BalState) (r : HostState) : HostState :=
  mkHostState r.(regions) r.(stacks) r.(codes) r.(world) r.(authorizations) v.

#[export] Instance HostState_Regions : Component HostState Regions.
Proof. by refine {| view := regions; put := set_regions |}; intros; repeat match goal with s : HostState |- _ => destruct s end. Defined.
#[export] Instance HostState_Stacks : Component HostState Stacks.
Proof. by refine {| view := stacks; put := set_stacks |}; intros; repeat match goal with s : HostState |- _ => destruct s end. Defined.
#[export] Instance HostState_CodeState : Component HostState CodeState.
Proof. by refine {| view := codes; put := set_codes |}; intros; repeat match goal with s : HostState |- _ => destruct s end. Defined.
#[export] Instance HostState_World : Component HostState World.
Proof. by refine {| view := world; put := set_world |}; intros; repeat match goal with s : HostState |- _ => destruct s end. Defined.
#[export] Instance HostState_BalState : Component HostState BalState.
Proof. by refine {| view := bal; put := set_bal |}; intros; repeat match goal with s : HostState |- _ => destruct s end. Defined.
#[export] Instance HostState_auth : Component HostState (gmap bytes AuthorizationRecord).
Proof. by refine {| view := authorizations; put := set_authorizations |}; intros; repeat match goal with s : HostState |- _ => destruct s end. Defined.

Definition STORAGE_INITIAL_GENERATION : Z := 1.

(** The state a fresh [HostState()] holds. *)
Definition initial_world : World := {|
  transient := ∅; storage_tx := []; storage_generations := ∅;
  storage_next_generation := STORAGE_INITIAL_GENERATION;
  storage_block := []; storage_iterator := [];
  account_tx := []; account_block := []; account_iterator := [];
  journal := []; warm_addresses := ∅; warm_slots := ∅; current_warm_epoch := 1;
  logs := []; log_data := []; transaction_log_start := 0; current_log := None;
|}.

Definition initial_state : HostState := {|
  regions := mkRegions [] [] [] [] [] [];
  stacks := mkStacks [] [] [];
  codes := mkCodeState ∅ ∅ 1 ∅ ∅;
  world := initial_world;
  authorizations := ∅;
  bal := mkBalState ∅ ∅ ∅ ∅ ∅ ∅ ∅ [];
|}.
