(* ===== verification/Words.v ===== *)
(** * Words: 256-bit words and the arithmetic instructions

    [prelude.py]: words, hashes and addresses, and the function [alu_*] of
    each arithmetic, comparison and bitwise instruction. A word is an integer
    of the type [U256], whose constructor raises outside its range. *)

From Stdlib Require Import ZArith Lia.
From stdpp Require Import base tactics option list.
From S2P Require Import Prelude PyBytes HostTypes SailRuntime.
Local Open Scope Z_scope.

Definition WORD_MODULUS : Z := 2 ^ 256.

(** [word(value)] and [u256(value)]. *)
Definition word (value : Z) : outcome Z := BoundedUint 0 (WORD_MODULUS - 1) value.
Definition u256 (value : Z) : outcome Z := word value.

Definition word_bit_count (value : Z) : outcome Z := BoundedUint 0 256 value.

(** [int(value)] of a bitvector of a literal width. *)
Definition bits256 (v : Z) : Bits := bits_of 256 v.

Definition word_from_bits (b : Bits) : outcome Z := u256 b.(SailRuntime.value).

Definition WORD_ZERO : Z := 0.
Definition WORD_ONE : Z := 1.
Definition WORD_ALL_ONES : Z := 2 ^ 256 - 1.
Definition WORD_SIGN_BIT : Z := 2 ^ 255.

(** ** Hashes and addresses *)

(** [Bytes32(v)] and [Bytes20(v)]: raise on another length. *)
Definition fixed_bytes (n : Z) (v : bytes) : outcome bytes :=
  if py_len v =? n then Ok v else Raise (ValueError "wrong number of bytes").
Definition Bytes32 : bytes → outcome bytes := fixed_bytes 32.
Definition Bytes20 : bytes → outcome bytes := fixed_bytes 20.

(** The bytes at the Sail indices [0 ... n - 1], the first one most
    significant. *)
Definition gather_bytes (n : Z) (v : bytes) : outcome bytes :=
  mapM (λ k, sail_vector_access v k false) (seqZ 0 n).

Definition hash_to_word (h : hash) : outcome Z := b ← gather_bytes 32 h; word (from_be b).
Definition address_to_word (a : address) : outcome Z := b ← gather_bytes 20 a; word (from_be b).

(** The updates [result[k] = Bits(8, value >> 8 * (n - 1 - k))]. *)
Fixpoint scatter_bytes (n : Z) (v : Z) (ks : list Z) (result : bytes) : outcome bytes :=
  match ks with
  | [] => Ok result
  | k :: ks' =>
      result ← sail_vector_update result k (byte_wrap (Z.shiftr v (8 * (n - 1 - k)))) false;
      result ← fixed_bytes n result;
      scatter_bytes n v ks' result
  end.

Definition word_to_hash (v : Z) : outcome hash :=
  zero_bytes ← sail_vector_init 32 Byte.x00;
  result ← Bytes32 zero_bytes; scatter_bytes 32 v (seqZ 0 32) result.
Definition word_to_address (v : Z) : outcome address :=
  zero_bytes ← sail_vector_init 20 Byte.x00;
  result ← Bytes20 zero_bytes; scatter_bytes 20 v (seqZ 0 20) result.

Definition hash_from_bits (b : Bits) : outcome hash := w ← word_from_bits b; word_to_hash w.
Definition address_from_bits (b : Bits) : outcome address :=
  w ← word_from_bits b; word_to_address w.
Definition address_from_nat (v : Z) : outcome address := w ← u256 v; word_to_address w.

(** ** Arithmetic *)

Definition word_add_word (left right : Z) : outcome Z :=
  reduced ← sail_tmod_int (left + right) WORD_MODULUS; u256 reduced.

Definition word_sub_word (left right : Z) : outcome Z :=
  if right <=? left then word (left - right)
  else let maximum := WORD_MODULUS - 1 in word (maximum - (right - left) + 1).

Definition word_bitop (f : Bits → operand → outcome Bits) (left right : Z) : outcome Z :=
  b ← f (bits256 left) (OfBits (bits256 right)); u256 b.(SailRuntime.value).
Definition word_and := word_bitop bits_and.
Definition word_or := word_bitop bits_or.
Definition word_xor := word_bitop bits_xor.
Definition word_not (v : Z) : outcome Z :=
  b ← bits_invert (bits256 v); u256 b.(SailRuntime.value).

Definition word_bit (v index : Z) : outcome Bits := access (bits256 v) index.
(** [word_bit(v, index) == Bits(1, 0b1)] *)
Definition bit_is_set (v index : Z) : outcome bool :=
  b ← word_bit v index; Ok (bool_decide (b = mkBits 1 1)).

Definition word_low_byte (v : Z) : Bits := bits_of 8 v.

Definition word_shift_right_one (v : Z) : outcome Z := shifted ← sail_tdiv_int v 2; u256 shifted.

Definition word_of_bool (b : bool) : outcome Z := word (if b then WORD_ONE else WORD_ZERO).
Definition word_is_zero (w : Z) : bool := w =? WORD_ZERO.
Definition word_nonzero (w : Z) : bool := negb (word_is_zero w).
Definition word_ult (a b : Z) : bool := a <? b.
Definition word_ule (a b : Z) : bool := negb (word_ult b a).

Definition u64_bit_length (v : Z) : outcome Z :=
  BoundedUint 0 64 (64 - count_leading_zeros (bits_of 64 v)).

(** The 64-bit limb of a value that starts at a bit. *)
Definition limb (v start : Z) : Z := (bits_of 64 (Z.shiftr v start)).(SailRuntime.value).

Definition word_bit_length (v : Z) : outcome Z :=
  if negb (limb v 192 =? 0) then n ← u64_bit_length (limb v 192); word_bit_count (192 + n)
  else if negb (limb v 128 =? 0) then n ← u64_bit_length (limb v 128); word_bit_count (128 + n)
  else if negb (limb v 64 =? 0) then n ← u64_bit_length (limb v 64); word_bit_count (64 + n)
  else n ← u64_bit_length (limb v 0); word_bit_count n.

Definition word_mul_word (a b : Z) : outcome Z := sail_tmod_int (a * b) WORD_MODULUS.

Definition word_div_word (dividend divisor : Z) : outcome Z :=
  if divisor =? 0 then word WORD_ZERO
  else quotient ← sail_tdiv_int dividend divisor; u256 quotient.

Definition word_mod_word (dividend divisor : Z) : outcome Z :=
  if divisor =? 0 then word WORD_ZERO
  else remainder ← sail_tmod_int dividend divisor; u256 remainder.

Definition word_greater_than_word (left right : Z) : bool := right <? left.

Definition word_shift_left (v amount : Z) : outcome Z :=
  b ← bits_lshift (bits256 v) amount; u256 b.(SailRuntime.value).
Definition word_shift_right (v amount : Z) : outcome Z :=
  b ← bits_rshift (bits256 v) amount; word b.(SailRuntime.value).

Definition word_byte_length (v : Z) : outcome Z :=
  n ← word_bit_length v;
  if n =? 0 then BoundedUint 0 32 0 else q ← sail_tdiv_int (n + 7) 8; BoundedUint 0 32 q.

Definition word_arithmetic_shift_right (v amount : Z) : outcome Z :=
  shifted ← word_shift_right v amount;
  negative ← bit_is_set v 255;
  if (negative : bool) then
    sign_fill ← word_shift_left WORD_ALL_ONES (256 - amount); word_or shifted sign_fill
  else word shifted.

Definition word_negate (v : Z) : outcome Z := word_sub_word WORD_ZERO v.

Definition word_abs (v : Z) : outcome Z :=
  negative ← bit_is_set v 255; if (negative : bool) then word_negate v else word v.

Definition word_slt (a b : Z) : outcome bool :=
  a_neg ← bit_is_set a 255; b_neg ← bit_is_set b 255;
  Ok (if (a_neg : bool) then if (b_neg : bool) then word_ult a b else true
      else if (b_neg : bool) then false else word_ult a b).

(** ** The arithmetic unit *)

Definition alu_add : Z → Z → outcome Z := word_add_word.
Definition alu_sub : Z → Z → outcome Z := word_sub_word.
Definition alu_mul : Z → Z → outcome Z := word_mul_word.
Definition alu_div : Z → Z → outcome Z := word_div_word.
Definition alu_mod : Z → Z → outcome Z := word_mod_word.

Definition alu_sdiv (a b : Z) : outcome Z :=
  if word_is_zero b then word WORD_ZERO
  else
    dividend_magnitude ← word_abs a; divisor_magnitude ← word_abs b;
    quotient ← word_div_word dividend_magnitude divisor_magnitude;
    dividend_sign ← bit_is_set a 255; divisor_sign ← bit_is_set b 255;
    if xorb dividend_sign divisor_sign then word_negate quotient else word quotient.

Definition alu_smod (a b : Z) : outcome Z :=
  if word_is_zero b then word WORD_ZERO
  else
    dividend_magnitude ← word_abs a; modulus_magnitude ← word_abs b;
    remainder ← word_mod_word dividend_magnitude modulus_magnitude;
    dividend_sign ← bit_is_set a 255;
    if (dividend_sign : bool) then word_negate remainder else word remainder.

Definition alu_addmod (a b n : Z) : outcome Z :=
  if n =? 0 then word WORD_ZERO else remainder ← sail_tmod_int (a + b) n; u256 remainder.
Definition alu_mulmod (a b n : Z) : outcome Z :=
  if n =? 0 then word WORD_ZERO else remainder ← sail_tmod_int (a * b) n; u256 remainder.

(** The loop of [alu_exp], [remaining] rounds from its end. *)
Fixpoint alu_exp_loop (remaining : nat) (result b e : Z) : outcome Z :=
  match remaining with
  | O => Ok result
  | S remaining' =>
      low_bit ← bit_is_set e 0;
      result ← (if (low_bit : bool) then word_mul_word result b else Ok result);
      b ← match remaining' with O => Ok b | S _ => word_mul_word b b end;
      e ← word_shift_right_one e;
      alu_exp_loop remaining' result b e
  end.

Definition alu_exp (base exponent : Z) : outcome Z :=
  remaining ← word_bit_length exponent;
  result ← alu_exp_loop (Z.to_nat remaining) WORD_ONE base exponent; word result.

Definition alu_signextend (byte_index v : Z) : outcome Z :=
  if byte_index <? 32 then
    let width := byte_index * 8 + 8 in
    let sign_shift := byte_index * 8 + 7 in
    shifted_sign ← word_shift_right v sign_shift;
    isolated_sign ← word_and shifted_sign WORD_ONE;
    low_mask_end ← word_shift_left WORD_ONE width;
    low_mask ← word_sub_word low_mask_end WORD_ONE;
    if isolated_sign =? WORD_ONE then
      low_value ← word_and v low_mask; high_mask ← word_not low_mask; word_or low_value high_mask
    else word_and v low_mask
  else word v.

Definition alu_lt (a b : Z) : outcome Z := word_of_bool (word_ult a b).
Definition alu_gt (a b : Z) : outcome Z := word_of_bool (word_ult b a).
Definition alu_slt (a b : Z) : outcome Z := r ← word_slt a b; word_of_bool r.
Definition alu_sgt (a b : Z) : outcome Z := r ← word_slt b a; word_of_bool r.
Definition alu_eq (a b : Z) : outcome Z := word_of_bool (a =? b).
Definition alu_iszero (a : Z) : outcome Z := word_of_bool (word_is_zero a).
Definition alu_and : Z → Z → outcome Z := word_and.
Definition alu_or : Z → Z → outcome Z := word_or.
Definition alu_xor : Z → Z → outcome Z := word_xor.
Definition alu_not : Z → outcome Z := word_not.

Definition alu_byte (i x : Z) : outcome Z :=
  if i <? 32 then
    shifted ← word_shift_right x ((31 - i) * 8); word (word_low_byte shifted).(SailRuntime.value)
  else word WORD_ZERO.

Definition alu_shl (shift_amt v : Z) : outcome Z :=
  if shift_amt <? 256 then word_shift_left v shift_amt else word WORD_ZERO.
Definition alu_shr (shift_amt v : Z) : outcome Z :=
  if shift_amt <? 256 then word_shift_right v shift_amt else word WORD_ZERO.
Definition alu_sar (shift_amt v : Z) : outcome Z :=
  if shift_amt <? 256 then word_arithmetic_shift_right v shift_amt
  else
    negative ← bit_is_set v 255; word (if (negative : bool) then WORD_ALL_ONES else WORD_ZERO).

Definition alu_clz (x : Z) : outcome Z := n ← word_bit_length x; u256 (256 - n).

Example sdiv_overflow : alu_sdiv (2 ^ 255) (2 ^ 256 - 1) = Ok (2 ^ 255).
Proof. vm_compute. reflexivity. Qed.
Example signextend_byte : alu_signextend 0 255 = Ok (2 ^ 256 - 1).
Proof. vm_compute. reflexivity. Qed.
