(* ===== verification/WordTheorems.v ===== *)
(** * WordTheorems: the arithmetic instructions against their mathematics

    Each instruction of [Words] is compared with a function on the integers:
    unsigned instructions with arithmetic modulo [2 ^ 256], signed ones with
    the value of the two's-complement reading, bytes with big-endian digits. *)

From Stdlib Require Import ZArith Lia Zpow_facts.
From stdpp Require Import base tactics option list.
From S2P Require Import Prelude PyBytes HostTypes SailRuntime Words.
Local Open Scope Z_scope.

(** ** The reference definitions *)

Definition is_word (v : Z) : Prop := 0 <= v < WORD_MODULUS.

(** The two's-complement value of a word of [n] bits. *)
Definition to_signed (n v : Z) : Z := if v <? 2 ^ (n - 1) then v else v - 2 ^ n.
(** The word of an integer. *)
Definition wrap (z : Z) : Z := z mod WORD_MODULUS.

(** ** Ranges *)

Lemma modulus_pos : 0 < WORD_MODULUS.
Proof. done. Qed.
Lemma modulus_half : WORD_MODULUS = 2 * 2 ^ 255.
Proof. done. Qed.
#[local] Hint Resolve modulus_pos : core.

Lemma wrap_word z : is_word (wrap z).
Proof. by apply Z.mod_pos_bound. Qed.
Lemma wrap_id v : is_word v → wrap v = v.
Proof. apply Z.mod_small. Qed.
Lemma wrap_once z : - WORD_MODULUS <= z < 0 → wrap z = z + WORD_MODULUS.
Proof.
  intros H. symmetry. apply (Z.mod_unique_pos _ _ (-1)); lia.
Qed.

Lemma word_ok v : is_word v → word v = Ok v.
Proof. unfold is_word, word. intros H. apply BoundedUint_ok. lia. Qed.
Lemma word_wrap z : word (wrap z) = Ok (wrap z).
Proof. apply word_ok, wrap_word. Qed.
Lemma bits256_word v : is_word v → bits256 v = mkBits 256 v.
Proof. intros H. by apply bits_of_small. Qed.

Lemma bit_is_set_ok v i : is_word v → 0 <= i < 256 → bit_is_set v i = Ok (Z.testbit v i).
Proof.
  intros Hv Hi. unfold bit_is_set, word_bit. rewrite bits256_word by done.
  rewrite access_testbit by (done || by split). cbn.
  by destruct (Z.testbit v i).
Qed.

Lemma testbit_top n v :
  0 < n → 0 <= v < 2 ^ n → Z.testbit v (n - 1) = negb (v <? 2 ^ (n - 1)).
Proof.
  intros Hn Hv. assert (2 ^ n = 2 * 2 ^ (n - 1)) as E.
  { rewrite <-Z.pow_succ_r by lia. f_equal. lia. }
  assert (0 < 2 ^ (n - 1)) by (apply Z.pow_pos_nonneg; lia).
  destruct (Z.ltb_spec v (2 ^ (n - 1))); cbn [negb].
  - apply Z.testbit_false; [lia|]. by rewrite Z.div_small by lia.
  - apply Z.testbit_true; [lia|].
    by rewrite <-(Z.div_unique_pos v (2 ^ (n - 1)) 1 (v - 2 ^ (n - 1))) by lia.
Qed.

Lemma sign_bit v : is_word v → bit_is_set v 255 = Ok (negb (v <? 2 ^ 255)).
Proof. intros H. rewrite bit_is_set_ok by (done || lia). f_equal. by apply (testbit_top 256). Qed.

Lemma rem_word z d : 0 <= z → 0 < d <= WORD_MODULUS → sail_tmod_int z d = Ok (z mod d) ∧ is_word (z mod d).
Proof.
  intros Hz Hd. rewrite sail_tmod_ok, Z.rem_mod_nonneg by lia.
  split; [done|]. pose proof (Z.mod_pos_bound z d). unfold is_word. lia.
Qed.

(** ** Unsigned arithmetic *)

Lemma word_add_ok a b : is_word a → is_word b → word_add_word a b = Ok (wrap (a + b)).
Proof.
  intros [Ha _] [Hb _]. unfold word_add_word. destruct (rem_word (a + b) WORD_MODULUS) as [-> Hw];
    [lia|done|]. by apply word_ok.
Qed.

Lemma word_sub_ok a b : is_word a → is_word b → word_sub_word a b = Ok (wrap (a - b)).
Proof.
  unfold is_word. intros Ha Hb. unfold word_sub_word. destruct (Z.leb_spec b a).
  - rewrite wrap_id by (unfold is_word; lia). apply word_ok. unfold is_word. lia.
  - rewrite wrap_once by lia. rewrite word_ok by (unfold is_word; lia). f_equal. lia.
Qed.

Lemma word_mul_ok a b : is_word a → is_word b → word_mul_word a b = Ok (wrap (a * b)).
Proof.
  intros [Ha _] [Hb _]. unfold word_mul_word. by destruct (rem_word (a * b) WORD_MODULUS) as [-> _];
    [nia|done|].
Qed.

Lemma word_div_ok a b :
  is_word a → 0 <= b → word_div_word a b = Ok (if b =? 0 then 0 else a / b).
Proof.
  unfold is_word. intros Ha Hb. unfold word_div_word. destruct (Z.eqb_spec b 0); [done|].
  rewrite sail_tdiv_ok, Z.quot_div_nonneg by lia. cbn [mbind outcome_bind].
  apply word_ok. pose proof (Z.div_pos a b). pose proof (Z.div_le_upper_bound a b a).
  unfold is_word. nia.
Qed.

Lemma word_mod_ok a b :
  is_word a → is_word b → word_mod_word a b = Ok (if b =? 0 then 0 else a mod b).
Proof.
  intros [Ha _] Hb. unfold is_word in Hb. unfold word_mod_word.
  destruct (Z.eqb_spec b 0); [done|]. destruct (rem_word a b) as [-> Hw]; [lia..|].
  by apply word_ok.
Qed.

(** the unsigned arithmetic instructions never raise on words and compute
    addition, subtraction and multiplication modulo [2 ^ 256], division and
    remainder that give zero for a zero divisor, and [ADDMOD] and [MULMOD] on
    the unreduced sum and product. *)
Theorem alu_unsigned_spec (a b n : Z) :
  is_word a → is_word b → is_word n →
  alu_add a b = Ok (wrap (a + b)) ∧
  alu_sub a b = Ok (wrap (a - b)) ∧
  alu_mul a b = Ok (wrap (a * b)) ∧
  alu_div a b = Ok (if b =? 0 then 0 else a / b) ∧
  alu_mod a b = Ok (if b =? 0 then 0 else a mod b) ∧
  alu_addmod a b n = Ok (if n =? 0 then 0 else (a + b) mod n) ∧
  alu_mulmod a b n = Ok (if n =? 0 then 0 else (a * b) mod n).
Proof.
  intros Ha Hb Hn. split_and!.
  - by apply word_add_ok.
  - by apply word_sub_ok.
  - by apply word_mul_ok.
  - apply word_div_ok; [done|apply Hb].
  - by apply word_mod_ok.
  - unfold alu_addmod, is_word in *. destruct (Z.eqb_spec n 0); [done|].
    destruct (rem_word (a + b) n) as [-> Hw]; [lia..|]. by apply word_ok.
  - unfold alu_mulmod, is_word in *. destruct (Z.eqb_spec n 0); [done|].
    destruct (rem_word (a * b) n) as [-> Hw]; [nia|lia|]. by apply word_ok.
Qed.

Lemma alu_unsigned_spec_witness :
  alu_sub 3 5 = Ok (wrap (-2)) ∧ alu_addmod (2 ^ 256 - 1) (2 ^ 256 - 1) 7 = Ok (2 * (2 ^ 256 - 1) mod 7).
Proof.
  assert (is_word 3 ∧ is_word 5 ∧ is_word 7 ∧ is_word (2 ^ 256 - 1)) as (H3 & H5 & H7 & Hm)
    by (vm_compute; intuition congruence).
  pose proof (alu_unsigned_spec 3 5 7 H3 H5 H7) as (_ & H & _).
  pose proof (alu_unsigned_spec _ _ 7 Hm Hm H7) as (_ & _ & _ & _ & _ & H' & _).
  split; [exact H|]. rewrite H'. vm_compute. reflexivity.
Defined.

(** ** Signed arithmetic *)

Lemma to_signed_bound v : is_word v → - 2 ^ 255 <= to_signed 256 v < 2 ^ 255.
Proof.
  unfold is_word, to_signed. rewrite modulus_half. change (2 ^ 256) with (2 * 2 ^ 255).
  intros. destruct (Z.ltb_spec v (2 ^ (256 - 1))); change (256 - 1) with 255 in *; lia.
Qed.

Lemma wrap_signed v : is_word v → wrap (to_signed 256 v) = v.
Proof.
  intros Hv. pose proof (to_signed_bound v Hv). unfold to_signed in *.
  change (256 - 1) with 255 in *. destruct (Z.ltb_spec v (2 ^ 255)); [by apply wrap_id|].
  change (2 ^ 256) with WORD_MODULUS in *. unfold is_word in Hv. rewrite wrap_once; lia.
Qed.

Lemma word_negate_ok v : is_word v → word_negate v = Ok (wrap (- v)).
Proof. intros Hv. unfold word_negate. by rewrite word_sub_ok. Qed.

Lemma word_abs_ok v : is_word v → word_abs v = Ok (Z.abs (to_signed 256 v)).
Proof.
  intros Hv. unfold word_abs. rewrite sign_bit by done. cbn [mbind outcome_bind].
  unfold to_signed. change (256 - 1) with 255. unfold is_word in Hv.
  destruct (Z.ltb_spec v (2 ^ 255)); cbn [negb].
  - rewrite Z.abs_eq by lia. by apply word_ok.
  - rewrite word_negate_ok by done. change (2 ^ 256) with WORD_MODULUS.
    rewrite Z.abs_neq, wrap_once by (pose proof modulus_half; lia). f_equal. lia.
Qed.

Lemma sign_negative v : is_word v → negb (v <? 2 ^ 255) = (to_signed 256 v <? 0).
Proof.
  intros Hv. unfold to_signed. change (256 - 1) with 255. change (2 ^ 256) with WORD_MODULUS.
  unfold is_word in Hv. destruct (Z.ltb_spec v (2 ^ 255)); cbn [negb]; symmetry;
    [apply Z.ltb_ge|apply Z.ltb_lt]; lia.
Qed.

Lemma to_signed_zero v : is_word v → to_signed 256 v = 0 ↔ v = 0.
Proof.
  intros Hv. split; [|by intros ->]. intros H. by rewrite <-(wrap_signed v), H.
Qed.

Lemma word_is_zero_spec v : is_word v → word_is_zero v = (to_signed 256 v =? 0).
Proof.
  intros Hv. unfold word_is_zero. apply eq_true_iff_eq.
  rewrite !Z.eqb_eq, to_signed_zero by done. done.
Qed.

(** A magnitude with the sign of a condition. *)
Lemma signed_result (c : bool) m :
  0 <= m < WORD_MODULUS → (if c then word_negate m else word m) = Ok (wrap (if c then - m else m)).
Proof.
  intros Hm. destruct c; [by apply word_negate_ok|]. rewrite wrap_id by done. by apply word_ok.
Qed.

Lemma sdiv_ok a b :
  is_word a → is_word b →
  alu_sdiv a b = Ok (if b =? 0 then 0 else wrap (Z.quot (to_signed 256 a) (to_signed 256 b))).
Proof.
  intros Ha Hb. unfold alu_sdiv, word_is_zero. destruct (Z.eqb_spec b WORD_ZERO) as [->|Hz]; [done|].
  rewrite (proj2 (Z.eqb_neq b 0)) by done.
  pose proof (to_signed_zero b Hb) as Z0. pose proof (to_signed_bound a Ha) as Ba.
  rewrite !word_abs_ok by done. cbn [mbind outcome_bind].
  set (x := to_signed 256 a) in *. set (y := to_signed 256 b) in *.
  assert (y ≠ 0) as Hy by tauto. pose proof modulus_half.
  rewrite word_div_ok by (unfold is_word; lia). cbn [mbind outcome_bind].
  rewrite (proj2 (Z.eqb_neq (Z.abs y) 0)) by lia.
  rewrite !sign_bit by done. cbn [mbind outcome_bind].
  rewrite !sign_negative by done. fold x y.
  assert (0 <= Z.abs x / Z.abs y <= Z.abs x) as Hq.
  { split; [apply Z.div_pos; lia|]. apply Z.div_le_upper_bound; nia. }
  rewrite signed_result by lia. do 2 f_equal. rewrite Z.quot_div by done.
  destruct (Z.ltb_spec x 0), (Z.ltb_spec y 0); cbn [xorb];
    rewrite ?(Z.sgn_neg x), ?(Z.sgn_neg y), ?(Z.sgn_pos y) by lia; try lia.
  all: destruct (decide (x = 0)) as [->|]; [by rewrite Z.div_0_l by lia|].
  all: rewrite (Z.sgn_pos x) by lia; lia.
Qed.

Lemma smod_ok a b :
  is_word a → is_word b →
  alu_smod a b = Ok (if b =? 0 then 0 else wrap (Z.rem (to_signed 256 a) (to_signed 256 b))).
Proof.
  intros Ha Hb. unfold alu_smod, word_is_zero. destruct (Z.eqb_spec b WORD_ZERO) as [->|Hz]; [done|].
  rewrite (proj2 (Z.eqb_neq b 0)) by done.
  pose proof (to_signed_zero b Hb) as Z0.
  pose proof (to_signed_bound a Ha) as Ba. pose proof (to_signed_bound b Hb) as Bb.
  rewrite !word_abs_ok by done. cbn [mbind outcome_bind].
  set (x := to_signed 256 a) in *. set (y := to_signed 256 b) in *.
  assert (y ≠ 0) as Hy by tauto. pose proof modulus_half.
  rewrite word_mod_ok by (unfold is_word; lia). cbn [mbind outcome_bind].
  rewrite (proj2 (Z.eqb_neq (Z.abs y) 0)) by lia.
  rewrite sign_bit by done. cbn [mbind outcome_bind]. rewrite sign_negative by done. fold x.
  pose proof (Z.mod_pos_bound (Z.abs x) (Z.abs y)).
  rewrite signed_result by lia. do 2 f_equal. rewrite Z.rem_mod by done.
  destruct (Z.ltb_spec x 0); [rewrite Z.sgn_neg by lia; lia|].
  destruct (decide (x = 0)) as [->|]; [by rewrite Z.mod_0_l by lia|].
  rewrite Z.sgn_pos by lia. lia.
Qed.

Lemma slt_ok a b :
  is_word a → is_word b → word_slt a b = Ok (to_signed 256 a <? to_signed 256 b).
Proof.
  intros Ha Hb. unfold word_slt. rewrite !sign_bit by done. cbn [mbind outcome_bind]. f_equal.
  unfold word_ult, to_signed. change (256 - 1) with 255. change (2 ^ 256) with WORD_MODULUS.
  unfold is_word in *.
  destruct (Z.ltb_spec a (2 ^ 255)), (Z.ltb_spec b (2 ^ 255)); cbn [negb]; symmetry;
    [done|apply Z.ltb_ge; lia|apply Z.ltb_lt; lia|].
  apply eq_true_iff_eq. rewrite !Z.ltb_lt. lia.
Qed.

(** [SDIV] and [SMOD] are truncated division and remainder of the
    two's-complement values (the overflowing quotient wraps to itself), and
    [SLT] and [SGT] compare those values. *)
Theorem alu_signed_spec (a b : Z) :
  is_word a → is_word b →
  alu_sdiv a b = Ok (if b =? 0 then 0 else wrap (Z.quot (to_signed 256 a) (to_signed 256 b))) ∧
  alu_smod a b = Ok (if b =? 0 then 0 else wrap (Z.rem (to_signed 256 a) (to_signed 256 b))) ∧
  alu_slt a b = Ok (Z.b2z (to_signed 256 a <? to_signed 256 b)) ∧
  alu_sgt a b = Ok (Z.b2z (to_signed 256 b <? to_signed 256 a)).
Proof.
  intros Ha Hb. split_and!; [by apply sdiv_ok|by apply smod_ok|..];
    unfold alu_slt, alu_sgt; rewrite slt_ok by done; cbn [mbind outcome_bind];
    by destruct (_ <? _).
Qed.

Lemma alu_signed_spec_witness :
  alu_sdiv (2 ^ 255) (2 ^ 256 - 1) = Ok (2 ^ 255) ∧ alu_smod (2 ^ 256 - 7) 3 = Ok (2 ^ 256 - 1).
Proof.
  assert (is_word (2 ^ 255) ∧ is_word (2 ^ 256 - 1) ∧ is_word (2 ^ 256 - 7) ∧ is_word 3)
    as (H1 & H2 & H3 & H4) by (vm_compute; intuition congruence).
  pose proof (alu_signed_spec (2 ^ 255) (2 ^ 256 - 1) H1 H2) as (H & _).
  pose proof (alu_signed_spec (2 ^ 256 - 7) 3 H3 H4) as (_ & H' & _).
  split; [rewrite H|rewrite H']; vm_compute; reflexivity.
Defined.
