(* ===== verification/WordBits.v ===== *)
(** * WordBits: exponentiation, shifts and byte conversions of words

    The instructions that work on the bits of a word, compared with powers,
    floor division and big-endian digits; and the conversions between words,
    hashes and addresses. *)
From Stdlib Require Import ZArith Lia Zpow_facts.
From stdpp Require Import base tactics option list.
From S2P Require Import Prelude PyBytes SailRuntime HostTypes Words WordTheorems.
Local Open Scope Z_scope.

(** ** Bit length *)

Lemma div_pow_lt v n k : 0 <= v < 2 ^ (n + k) → 0 <= n → 0 <= k → 0 <= v / 2 ^ k < 2 ^ n.
Proof.
  intros Hv Hn Hk. assert (0 < 2 ^ k) by (by apply Z.pow_pos_nonneg).
  split; [apply Z.div_pos; lia|]. apply Z.div_lt_upper_bound; [done|].
  rewrite <-Z.pow_add_r by done. rewrite (Z.add_comm k). lia.
Qed.

Lemma bit_length_div v k :
  0 <= k → 0 < v / 2 ^ k → bit_length v = k + bit_length (v / 2 ^ k).
Proof.
  intros Hk Hv. assert (0 < 2 ^ k) by (by apply Z.pow_pos_nonneg).
  assert (2 ^ k <= v) as Hle.
  { pose proof (Z.mul_div_le v (2 ^ k)). nia. }
  unfold bit_length. rewrite !(proj2 (Z.eqb_neq _ _)) by lia.
  rewrite <-Z.shiftr_div_pow2 by done. rewrite Z.log2_shiftr by lia.
  apply Z.log2_le_pow2 in Hle; lia.
Qed.

Lemma limb_spec v s : 0 <= s → limb v s = v / 2 ^ s mod 2 ^ 64.
Proof. intros Hs. unfold limb. rewrite bits_of_value, Z.shiftr_div_pow2 by lia. done. Qed.

Lemma limb_top v s : 0 <= s → 0 <= v < 2 ^ (64 + s) → limb v s = v / 2 ^ s.
Proof. intros Hs Hv. rewrite limb_spec by done. apply Z.mod_small, div_pow_lt; lia. Qed.

Lemma u64_bit_length_ok v : 0 <= v < 2 ^ 64 → u64_bit_length v = Ok (bit_length v).
Proof.
  intros Hv. unfold u64_bit_length. rewrite bits_of_small by lia.
  unfold count_leading_zeros. cbn [width SailRuntime.value].
  replace (64 - (64 - bit_length v)) with (bit_length v) by lia.
  apply BoundedUint_ok. split; [apply bit_length_nonneg|]. apply bit_length_le; lia.
Qed.

(** The step of [word_bit_length] at a limb, when the higher limbs are zero. *)
Lemma limb_step v s :
  0 <= s <= 192 → 0 <= v < 2 ^ (64 + s) → limb v s ≠ 0 →
  (n ← u64_bit_length (limb v s); word_bit_count (s + n)) = Ok (bit_length v).
Proof.
  intros Hs Hv Hne. rewrite limb_top in * by lia. pose proof (div_pow_lt v 64 s).
  rewrite u64_bit_length_ok by lia. cbn [mbind outcome_bind].
  rewrite (bit_length_div v s) by lia. apply BoundedUint_ok.
  assert (bit_length (v / 2 ^ s) <= 64) by (apply bit_length_le; lia).
  pose proof (bit_length_nonneg (v / 2 ^ s)). lia.
Qed.

Lemma limb_zero v s : 0 <= s → 0 <= v < 2 ^ (64 + s) → limb v s = 0 → 0 <= v < 2 ^ s.
Proof.
  intros Hs Hv. rewrite limb_top by done. intros Hz.
  assert (0 < 2 ^ s) by (by apply Z.pow_pos_nonneg).
  split; [lia|]. apply Z.div_small_iff in Hz; lia.
Qed.

Lemma word_bit_length_ok v : is_word v → word_bit_length v = Ok (bit_length v).
Proof.
  intros Hv. unfold word_bit_length.
  destruct (Z.eqb_spec (limb v 192) 0) as [E3|]; cbn [negb]; [|by apply limb_step].
  apply limb_zero in E3; [|done..].
  destruct (Z.eqb_spec (limb v 128) 0) as [E2|]; cbn [negb]; [|by apply limb_step].
  apply limb_zero in E2; [|done..].
  destruct (Z.eqb_spec (limb v 64) 0) as [E1|]; cbn [negb]; [|by apply limb_step].
  apply limb_zero in E1; [|done..].
  rewrite limb_top by done. change (2 ^ 0) with 1. rewrite Z.div_1_r.
  rewrite u64_bit_length_ok by done. cbn [mbind outcome_bind]. apply BoundedUint_ok.
  assert (bit_length v <= 64) by (apply bit_length_le; lia).
  pose proof (bit_length_nonneg v). lia.
Qed.

Lemma word_bit_length_bound v : is_word v → 0 <= bit_length v <= 256.
Proof.
  intros Hv. split; [apply bit_length_nonneg|]. apply bit_length_le; [apply Hv|done|apply Hv].
Qed.

(** ** Exponentiation *)

Lemma wrap_mul_l x y : wrap (wrap x * y) = wrap (x * y).
Proof. apply Z.mul_mod_idemp_l. done. Qed.
Lemma wrap_mul_r x y : wrap (x * wrap y) = wrap (x * y).
Proof. apply Z.mul_mod_idemp_r. done. Qed.
Lemma wrap_pow x n : wrap (wrap x ^ n) = wrap (x ^ n).
Proof. unfold wrap. by rewrite <-Zpower_mod. Qed.

Lemma word_shift_right_one_ok v : is_word v → word_shift_right_one v = Ok (v / 2).
Proof.
  unfold is_word. intros Hv. unfold word_shift_right_one.
  rewrite sail_tdiv_ok, Z.quot_div_nonneg by lia. cbn [mbind outcome_bind]. apply word_ok.
  pose proof (Z.div_pos v 2). pose proof (Z.div_le_upper_bound v 2 v). unfold is_word. lia.
Qed.

(** The loop multiplies the result by the base to the remaining exponent. *)
Lemma alu_exp_loop_ok n r b e :
  is_word r → is_word b → is_word e → e < 2 ^ Z.of_nat n →
  alu_exp_loop n r b e = Ok (wrap (r * b ^ e)).
Proof.
  revert r b e. induction n as [|n IH]; intros r b e Hr Hb He Hn.
  { change (2 ^ Z.of_nat 0) with 1 in Hn. unfold is_word in *.
    replace e with 0 by lia. cbn. rewrite Z.mul_1_r. by rewrite wrap_id. }
  cbn [alu_exp_loop]. rewrite bit_is_set_ok by (done || lia). cbn [mbind outcome_bind].
  assert (Z.testbit e 0 = Z.odd e) as -> by apply Z.bit0_odd.
  assert ((if Z.odd e then word_mul_word r b else Ok r) = Ok (wrap (r * b ^ (e mod 2)))) as ->.
  { rewrite Zmod_odd. destruct (Z.odd e).
    - rewrite Z.pow_1_r. by apply word_mul_ok.
    - change (b ^ 0) with 1. by rewrite Z.mul_1_r, wrap_id. }
  cbn [mbind outcome_bind].
  assert (e / 2 < 2 ^ Z.of_nat n ∧ is_word (e / 2)) as [Hn2 He2].
  { rewrite Nat2Z.inj_succ, Z.pow_succ_r in Hn by lia. unfold is_word in *.
    pose proof (Z.div_pos e 2). split; [apply Z.div_lt_upper_bound; lia|].
    pose proof (Z.div_le_upper_bound e 2 e). lia. }
  assert (b ^ e = b ^ (e mod 2) * (b * b) ^ (e / 2)) as Epow.
  { destruct He as [He _]. rewrite <-Z.pow_2_r, <-Z.pow_mul_r, <-Z.pow_add_r.
    - f_equal. pose proof (Z.div_mod e 2). lia.
    - apply Z.mod_pos_bound. lia.
    - pose proof (Z.div_pos e 2). lia.
    - lia.
    - by apply Z.div_pos. }
  destruct n as [|n].
  - cbn [mbind outcome_bind]. rewrite word_shift_right_one_ok by done. cbn [mbind outcome_bind].
    cbn [alu_exp_loop]. change (2 ^ Z.of_nat 0) with 1 in Hn2. unfold is_word in He2.
    replace (e / 2) with 0 in Epow by lia. rewrite Epow. change ((b * b) ^ 0) with 1.
    by rewrite Z.mul_1_r.
  - rewrite word_mul_ok by done. cbn [mbind outcome_bind].
    rewrite word_shift_right_one_ok by done. cbn [mbind outcome_bind].
    rewrite IH by (done || apply wrap_word). f_equal.
    rewrite wrap_mul_l, <-wrap_mul_r, wrap_pow, wrap_mul_r, Epow. f_equal. lia.
Qed.

(** [EXP] terminates and is the power modulo [2 ^ 256], including
    [0 ^ 0 = 1]. *)
Theorem alu_exp_spec (base exponent : Z) :
  is_word base → is_word exponent → alu_exp base exponent = Ok (wrap (base ^ exponent)).
Proof.
  intros Hb He. unfold alu_exp. rewrite word_bit_length_ok by done. cbn [mbind outcome_bind].
  pose proof (bit_length_nonneg exponent).
  rewrite alu_exp_loop_ok; [|done..|].
  - cbn [mbind outcome_bind]. rewrite word_wrap. by rewrite Z.mul_1_l.
  - rewrite Z2Nat.id by done. apply bit_length_le; [apply He|done|lia].
Qed.

Lemma alu_exp_spec_witness : alu_exp 3 200 = Ok (wrap (3 ^ 200)) ∧ alu_exp 0 0 = Ok 1.
Proof.
  assert (is_word 3 ∧ is_word 200 ∧ is_word 0) as (H3 & H200 & H0)
    by (vm_compute; intuition congruence).
  split; [exact (alu_exp_spec 3 200 H3 H200)|exact (alu_exp_spec 0 0 H0 H0)].
Defined.

(** ** Shifts and masks *)

Lemma word_shift_left_ok v n :
  is_word v → 0 <= n → word_shift_left v n = Ok (wrap (v * 2 ^ n)).
Proof.
  intros Hv Hn. unfold word_shift_left, bits_lshift, _shift_amount.
  rewrite (proj2 (Z.ltb_ge _ _)) by done. cbn [mbind outcome_bind].
  rewrite bits256_word by done. cbn [width SailRuntime.value]. rewrite bits_ok by lia.
  cbn [mbind outcome_bind]. rewrite bits_of_value, Z.shiftl_mul_pow2 by lia. apply word_wrap.
Qed.

Lemma word_shift_right_ok v n :
  is_word v → 0 <= n → word_shift_right v n = Ok (v / 2 ^ n) ∧ is_word (v / 2 ^ n).
Proof.
  intros Hv Hn. assert (is_word (v / 2 ^ n)) as Hw.
  { unfold is_word in *. assert (0 < 2 ^ n) by (by apply Z.pow_pos_nonneg).
    pose proof (Z.div_pos v (2 ^ n)). pose proof (Z.div_le_upper_bound v (2 ^ n) v). nia. }
  split; [|done]. unfold word_shift_right, bits_rshift, _shift_amount.
  rewrite (proj2 (Z.ltb_ge _ _)) by done. cbn [mbind outcome_bind].
  rewrite bits256_word by done. cbn [width SailRuntime.value]. rewrite bits_ok by lia.
  cbn [mbind outcome_bind]. rewrite Z.shiftr_div_pow2 by lia. rewrite bits_of_small by done.
  by apply word_ok.
Qed.

Lemma word_bitop_ok (f : Z → Z → Z) a b :
  is_word a → is_word b → is_word (f a b) →
  word_bitop (bits_binop f) a b = Ok (f a b).
Proof.
  intros Ha Hb Hf. unfold word_bitop. rewrite !bits256_word by done.
  unfold bits_binop, _same_width, _as_bits. cbn [width Z.eqb Pos.eqb mbind outcome_bind SailRuntime.value].
  rewrite bits_ok by lia. cbn [mbind outcome_bind]. rewrite bits_of_small by done. by apply word_ok.
Qed.

Lemma bits_bound (z : Z) n : 0 <= n → 0 <= z → (∀ i, n <= i → Z.testbit z i = false) → z < 2 ^ n.
Proof.
  intros Hn Hz H. destruct (decide (z = 0)) as [->|]; [by apply Z.pow_pos_nonneg|].
  apply Z.log2_lt_pow2; [lia|]. destruct (Z.lt_ge_cases (Z.log2 z) n) as [|Hl]; [done|].
  apply H in Hl. by rewrite Z.bit_log2 in Hl by lia.
Qed.

Lemma testbit_high v n i : 0 <= v < 2 ^ n → n <= i → Z.testbit v i = false.
Proof.
  intros Hv Hi. destruct (decide (v = 0)) as [->|]; [apply Z.bits_0|].
  apply Z.bits_above_log2; [lia|]. assert (Z.log2 v < n) by (apply Z.log2_lt_pow2; lia). lia.
Qed.

Lemma lor_bound a b n : 0 <= n → 0 <= a < 2 ^ n → 0 <= b < 2 ^ n → 0 <= Z.lor a b < 2 ^ n.
Proof.
  intros Hn Ha Hb. split; [apply Z.lor_nonneg; lia|].
  apply bits_bound; [done|apply Z.lor_nonneg; lia|].
  intros i Hi. by rewrite Z.lor_spec, !(testbit_high _ n).
Qed.

Lemma land_bound a b n : 0 <= n → 0 <= a < 2 ^ n → 0 <= b → 0 <= Z.land a b < 2 ^ n.
Proof.
  intros Hn Ha Hb. assert (0 <= Z.land a b) by (apply Z.land_nonneg; lia).
  split; [done|]. apply bits_bound; [done..|].
  intros i Hi. by rewrite Z.land_spec, (testbit_high a n).
Qed.

Lemma lxor_bound a b n : 0 <= n → 0 <= a < 2 ^ n → 0 <= b < 2 ^ n → 0 <= Z.lxor a b < 2 ^ n.
Proof.
  intros Hn Ha Hb. assert (0 <= Z.lxor a b) by (apply Z.lxor_nonneg; lia).
  split; [done|]. apply bits_bound; [done..|].
  intros i Hi. by rewrite Z.lxor_spec, !(testbit_high _ n).
Qed.

(** Joining a value of [k] bits with ones from bit [k] on. *)
Lemma lor_high_ones x k n :
  0 <= k <= n → 0 <= x < 2 ^ k → Z.lor x (2 ^ n - 2 ^ k) = x + (2 ^ n - 2 ^ k).
Proof.
  intros Hk Hx. replace (2 ^ n - 2 ^ k) with (Z.shiftl (Z.ones (n - k)) k).
  2: { rewrite Z.shiftl_mul_pow2, Z.ones_equiv by lia.
       replace n with (n - k + k) at 2 by lia. rewrite Z.pow_add_r by lia. lia. }
  rewrite Z.add_nocarry_lxor, Z.lxor_lor; [done|..];
    apply Z.bits_inj'; intros i Hi; rewrite Z.land_spec, Z.bits_0;
    (destruct (Z.lt_ge_cases i k);
      [by rewrite Z.shiftl_spec_low, andb_false_r|by rewrite (testbit_high x k)]).
Qed.

Lemma sar_ok s v :
  is_word v → 0 <= s → alu_sar s v = Ok (wrap (to_signed 256 v / 2 ^ s)).
Proof.
  intros Hv Hs. unfold alu_sar. assert (0 < 2 ^ s) by (by apply Z.pow_pos_nonneg).
  pose proof (to_signed_bound v Hv) as B. pose proof (sign_negative v Hv) as Hneg.
  destruct (Z.ltb_spec s 256).
  - unfold word_arithmetic_shift_right. destruct (word_shift_right_ok v s) as [-> Hsh]; [done..|].
    cbn [mbind outcome_bind]. rewrite sign_bit by done. cbn [mbind outcome_bind].
    unfold to_signed in *. change (256 - 1) with 255 in *. unfold is_word in Hv.
    destruct (Z.ltb_spec v (2 ^ 255)); cbn [negb].
    + rewrite wrap_id by done. by apply word_ok.
    + rewrite word_shift_left_ok by (done || lia). cbn [mbind outcome_bind].
      assert (0 < 2 ^ (256 - s)) as Hp by (apply Z.pow_pos_nonneg; lia).
      assert (2 ^ 256 = 2 ^ (256 - s) * 2 ^ s) as E.
      { rewrite <-Z.pow_add_r by lia. f_equal. lia. }
      assert (2 ^ (256 - s) <= 2 ^ 256) by (apply Z.pow_le_mono_r; lia).
      replace (wrap (WORD_ALL_ONES * 2 ^ (256 - s))) with (2 ^ 256 - 2 ^ (256 - s)).
      2: { unfold wrap, WORD_ALL_ONES, WORD_MODULUS.
           apply (Z.mod_unique_pos _ _ (2 ^ (256 - s) - 1)); lia. }
      assert (0 <= v / 2 ^ s < 2 ^ (256 - s)) as Hq.
      { apply div_pow_lt; [|lia..]. replace (256 - s + s) with 256 by lia. done. }
      assert (0 <= v / 2 ^ s < 2 ^ 256) as Hq256 by lia.
      assert (0 <= 2 ^ 256 - 2 ^ (256 - s) < 2 ^ 256) as Hf by lia.
      unfold word_or, bits_or.
      rewrite word_bitop_ok by (done || by apply (lor_bound _ _ 256)).
      rewrite lor_high_ones by lia. f_equal.
      replace (v - 2 ^ 256) with (v + (- 2 ^ (256 - s)) * 2 ^ s) by lia.
      rewrite Z.div_add by lia. rewrite wrap_once by (unfold WORD_MODULUS; lia).
      unfold WORD_MODULUS. lia.
  - rewrite sign_bit, Hneg by done. cbn [mbind outcome_bind].
    assert (2 ^ 256 <= 2 ^ s) by (apply Z.pow_le_mono_r; lia).
    change (2 ^ 256) with (2 * 2 ^ 255) in *.
    destruct (Z.ltb_spec (to_signed 256 v) 0).
    + replace (to_signed 256 v / 2 ^ s) with (-1); [done|].
      apply (Z.div_unique_pos _ _ _ (to_signed 256 v + 2 ^ s)); lia.
    + by rewrite Z.div_small by lia.
Qed.

(** [SHL], [SHR] and [SAR] multiply and divide by the power of two,
    [SAR] rounding the two's-complement value down, for shift amounts of any
    size; [CLZ] counts the zeros above the highest bit. *)
Theorem alu_shift_spec (s v : Z) :
  is_word s → is_word v →
  alu_shl s v = Ok (wrap (v * 2 ^ s)) ∧
  alu_shr s v = Ok (v / 2 ^ s) ∧
  alu_sar s v = Ok (wrap (to_signed 256 v / 2 ^ s)) ∧
  alu_clz v = Ok (256 - bit_length v).
Proof.
  intros [Hs _] Hv. assert (0 < 2 ^ s) by (by apply Z.pow_pos_nonneg). split_and!.
  - unfold alu_shl. destruct (Z.ltb_spec s 256); [by apply word_shift_left_ok|].
    replace s with (s - 256 + 256) by lia. rewrite Z.pow_add_r, Z.mul_assoc by lia.
    unfold wrap, WORD_MODULUS. by rewrite Z.mod_mul.
  - unfold alu_shr. destruct (Z.ltb_spec s 256); [by apply word_shift_right_ok|].
    assert (2 ^ 256 <= 2 ^ s) by (apply Z.pow_le_mono_r; lia).
    unfold is_word, WORD_MODULUS in Hv. by rewrite Z.div_small by lia.
  - by apply sar_ok.
  - unfold alu_clz. rewrite word_bit_length_ok by done. cbn [mbind outcome_bind].
    pose proof (word_bit_length_bound v Hv). apply word_ok. unfold is_word, WORD_MODULUS.
    change (2 ^ 256) with (2 * 2 ^ 255). assert (256 < 2 ^ 255) by done. lia.
Qed.

Lemma alu_shift_spec_witness :
  alu_sar 300 (2 ^ 255) = Ok (2 ^ 256 - 1) ∧ alu_clz 1 = Ok 255.
Proof.
  assert (is_word 300 ∧ is_word (2 ^ 255) ∧ is_word 1) as (H300 & H255 & H1)
    by (vm_compute; intuition congruence).
  pose proof (alu_shift_spec 300 (2 ^ 255) H300 H255) as (_ & _ & H & _).
  pose proof (alu_shift_spec 300 1 H300 H1) as (_ & _ & _ & H').
  split; [rewrite H|rewrite H']; vm_compute; reflexivity.
Defined.

(** * Sign extension, bytes and byte conversions of words *)

(** ** Bitwise instructions *)

Lemma word_and_ok a b : is_word a → is_word b → word_and a b = Ok (Z.land a b).
Proof.
  intros Ha Hb. apply word_bitop_ok; [done..|]. apply (land_bound a b 256); [done..|apply Hb].
Qed.
Lemma word_or_ok a b : is_word a → is_word b → word_or a b = Ok (Z.lor a b).
Proof. intros Ha Hb. apply word_bitop_ok; [done..|]. by apply (lor_bound a b 256). Qed.
Lemma word_xor_ok a b : is_word a → is_word b → word_xor a b = Ok (Z.lxor a b).
Proof. intros Ha Hb. apply word_bitop_ok; [done..|]. by apply (lxor_bound a b 256). Qed.

Lemma word_not_ok v : is_word v → word_not v = Ok (WORD_MODULUS - 1 - v).
Proof.
  intros Hv. unfold word_not, bits_invert. rewrite bits256_word by done.
  cbn [width SailRuntime.value]. rewrite bits_ok by lia. cbn [mbind outcome_bind].
  rewrite bits_of_value by lia. unfold is_word in Hv. change (2 ^ 256) with WORD_MODULUS.
  replace (Z.lnot v mod WORD_MODULUS) with (WORD_MODULUS - 1 - v).
  - apply word_ok. unfold is_word. lia.
  - unfold Z.lnot. apply (Z.mod_unique_pos _ _ (-1)); lia.
Qed.

(** ** Sign extension *)

Lemma land_ones_low v n : 0 <= n → Z.land v (2 ^ n - 1) = v mod 2 ^ n.
Proof.
  intros Hn. replace (2 ^ n - 1) with (Z.ones n) by (rewrite Z.ones_equiv; lia).
  by apply Z.land_ones.
Qed.

(** The bit of weight [2 ^ (w - 1)] says in which half the low [w] bits are. *)
Lemma testbit_mod v w :
  0 < w → Z.testbit v (w - 1) = negb (v mod 2 ^ w <? 2 ^ (w - 1)).
Proof.
  intros Hw. rewrite <-testbit_top by (lia || apply Z.mod_pos_bound, Z.pow_pos_nonneg; lia).
  by rewrite Z.mod_pow2_bits_low by lia.
Qed.

(** The mask of the low bytes, which is all ones for the top byte. *)
Lemma low_mask_ok k :
  0 <= k < 32 →
  (e ← word_shift_left WORD_ONE (k * 8 + 8); word_sub_word e WORD_ONE) = Ok (2 ^ (k * 8 + 8) - 1).
Proof.
  intros Hk. unfold WORD_ONE. rewrite word_shift_left_ok by (done || lia). cbn [mbind outcome_bind].
  rewrite word_sub_ok by (done || apply wrap_word). f_equal.
  assert (0 < 2 ^ (k * 8 + 8)) by (apply Z.pow_pos_nonneg; lia).
  unfold wrap. rewrite Zminus_mod_idemp_l, Z.mul_1_l. apply Z.mod_small.
  assert (2 ^ (k * 8 + 8) <= WORD_MODULUS) by (apply Z.pow_le_mono_r; lia). lia.
Qed.

(** [SIGNEXTEND] is the two's-complement value of the low [k + 1] bytes,
    and the word itself when [k] is 31 or more. *)
Theorem alu_signextend_spec (k v : Z) :
  is_word k → is_word v →
  alu_signextend k v =
  Ok (if k <? 32 then wrap (to_signed (8 * (k + 1)) (v mod 2 ^ (8 * (k + 1)))) else v).
Proof.
  intros [Hk _] Hv. unfold alu_signextend. destruct (Z.ltb_spec k 32); [|by apply word_ok].
  replace (8 * (k + 1)) with (k * 8 + 8) by lia. set (w := k * 8 + 8).
  replace (k * 8 + 7) with (w - 1) by lia.
  destruct (word_shift_right_ok v (w - 1)) as [-> Hs]; [done|lia|]. cbn [mbind outcome_bind].
  unfold WORD_ONE. rewrite word_and_ok by done. cbn [mbind outcome_bind].
  assert (2 ^ w <= WORD_MODULUS) as Hw by (apply Z.pow_le_mono_r; lia).
  assert (2 ^ w = 2 * 2 ^ (w - 1)) as E2 by (rewrite <-Z.pow_succ_r by lia; f_equal; lia).
  assert (0 < 2 ^ (w - 1)) by (apply Z.pow_pos_nonneg; lia).
  pose proof (Z.mod_pos_bound v (2 ^ w)) as Hm.
  assert (Z.land (v / 2 ^ (w - 1)) 1 = Z.b2z (Z.testbit v (w - 1))) as ->.
  { change 1 with (2 ^ 1 - 1) at 2. rewrite land_ones_low by lia.
    by rewrite Z.testbit_spec' by lia. }
  pose proof (low_mask_ok k) as Hmask. fold w in Hmask. unfold WORD_ONE in Hmask.
  destruct (word_shift_left 1 w) as [e|]; cbn [mbind outcome_bind] in *;
    [|discriminate Hmask; lia].
  rewrite Hmask by lia. cbn [mbind outcome_bind].
  assert (is_word (2 ^ w - 1)) as Hones by (unfold is_word; lia).
  assert (word_and v (2 ^ w - 1) = Ok (v mod 2 ^ w)) as Hlow.
  { rewrite word_and_ok by done. by rewrite land_ones_low by lia. }
  rewrite testbit_mod by lia. unfold to_signed.
  destruct (Z.ltb_spec (v mod 2 ^ w) (2 ^ (w - 1))); cbn [negb Z.b2z Z.eqb Pos.eqb].
  - rewrite Hlow. by rewrite wrap_id by (unfold is_word; lia).
  - rewrite Hlow, word_not_ok by done. cbn [mbind outcome_bind].
    replace (WORD_MODULUS - 1 - (2 ^ w - 1)) with (2 ^ 256 - 2 ^ w) by (unfold WORD_MODULUS; lia).
    rewrite word_or_ok by (unfold is_word, WORD_MODULUS in *; lia).
    rewrite lor_high_ones by lia. f_equal. rewrite wrap_once; unfold WORD_MODULUS in *; lia.
Qed.

Lemma alu_signextend_spec_witness :
  alu_signextend 1 0x18000 = Ok (2 ^ 256 - 0x8000) ∧ alu_signextend 40 5 = Ok 5.
Proof.
  assert (is_word 1 ∧ is_word 0x18000 ∧ is_word 40 ∧ is_word 5) as (H1 & H2 & H3 & H4)
    by (vm_compute; intuition congruence).
  pose proof (alu_signextend_spec 1 0x18000 H1 H2) as H.
  pose proof (alu_signextend_spec 40 5 H3 H4) as H'.
  split; [rewrite H|rewrite H']; vm_compute; reflexivity.
Defined.

Lemma alu_byte_ok i x :
  is_word i → is_word x →
  alu_byte i x = Ok (if i <? 32 then x / 2 ^ (8 * (31 - i)) mod 256 else 0).
Proof.
  intros [Hi _] Hx. unfold alu_byte. destruct (Z.ltb_spec i 32); [|done].
  replace ((31 - i) * 8) with (8 * (31 - i)) by lia.
  destruct (word_shift_right_ok x (8 * (31 - i))) as [-> _]; [done|lia|]. cbn [mbind outcome_bind].
  unfold word_low_byte. rewrite bits_of_value by lia. apply word_ok.
  change (2 ^ 8) with 256. pose proof (Z.mod_pos_bound (x / 2 ^ (8 * (31 - i))) 256).
  unfold is_word, WORD_MODULUS. change (2 ^ 256) with (256 * 2 ^ 248).
  assert (0 < 2 ^ 248) by done. nia.
Qed.

(** ** Hashes and addresses *)

Lemma fixed_bytes_ok n v : py_len v = n → fixed_bytes n v = Ok v.
Proof. intros H. unfold fixed_bytes. by rewrite H, Z.eqb_refl. Qed.

Lemma logical_index_down {A} (l : list A) k :
  0 <= k < py_len l → _logical_index l k false = Ok (Z.to_nat (py_len l - 1 - k)).
Proof.
  intros Hk. unfold _logical_index. by rewrite (proj2 (Z.leb_le _ _)), (proj2 (Z.ltb_lt _ _)) by lia.
Qed.

Lemma mapM_Forall2 {A B} (f : A → outcome B) xs ys :
  Forall2 (λ x y, f x = Ok y) xs ys → mapM f xs = Ok ys.
Proof.
  induction 1 as [|x y xs ys E _ IH]; [done|]. cbn [mapM]. rewrite E. cbn [mbind outcome_bind].
  by rewrite IH.
Qed.

(** Reading every Sail index in order reverses the bytes. *)
Lemma gather_bytes_ok n v : py_len v = n → gather_bytes n v = Ok (rev v).
Proof.
  intros Hn. unfold gather_bytes. apply mapM_Forall2, Forall2_same_length_lookup.
  unfold py_len in Hn. split; [rewrite length_seqZ, length_rev; lia|].
  intros i k b (-> & Hi)%lookup_seqZ. rewrite rev_alt. fold (reverse v).
  rewrite reverse_lookup by lia. intros Hb. unfold sail_vector_access.
  rewrite logical_index_down by (unfold py_len; lia). cbn [mbind outcome_bind].
  unfold py_len. replace (Z.to_nat (Z.of_nat (length v) - 1 - (0 + Z.of_nat i)))
    with (length v - S i)%nat by lia.
  by rewrite Hb.
Qed.

(** The byte of weight [256 ^ k]. *)
Definition digit (v k : Z) : byte := byte_wrap (Z.shiftr v (8 * k)).

(** The updates write the byte of weight [256 ^ j] at position [j]. *)
Lemma scatter_bytes_ok n v ks r :
  py_len r = n → Forall (λ k, 0 <= k < n) ks →
  ∃ r', scatter_bytes n v ks r = Ok r' ∧ py_len r' = n ∧
    ∀ j : nat, Z.of_nat j < n →
      r' !! j = if decide (n - 1 - Z.of_nat j ∈ ks) then Some (digit v (Z.of_nat j)) else r !! j.
Proof.
  intros Hr Hks. revert r Hr. induction Hks as [|k ks Hk _ IH]; intros r Hr.
  { exists r. split_and!; [done..|]. intros j _. by rewrite decide_False by apply not_elem_of_nil. }
  cbn [scatter_bytes]. unfold sail_vector_update. rewrite logical_index_down by lia.
  cbn [mbind outcome_bind]. rewrite Hr. set (i := Z.to_nat (n - 1 - k)).
  assert (py_len (<[i:=byte_wrap (Z.shiftr v (8 * (n - 1 - k)))]> r) = n) as Hl.
  { unfold py_len in *. by rewrite length_insert. }
  rewrite fixed_bytes_ok by done. cbn [mbind outcome_bind].
  destruct (IH _ Hl) as (r' & E & Hr' & H). exists r'. split_and!; [done..|].
  intros j Hj. rewrite H by done. unfold py_len in Hr.
  destruct (decide (n - 1 - Z.of_nat j ∈ ks)) as [Hin|Hin].
  { by rewrite decide_True by by apply list_elem_of_further. }
  destruct (decide (n - 1 - Z.of_nat j = k)) as [E'|E'].
  - rewrite decide_True by (rewrite E'; apply list_elem_of_here).
    replace i with j by lia. rewrite list_lookup_insert_eq by lia. unfold digit.
    by replace (n - 1 - k) with (Z.of_nat j) by lia.
  - rewrite decide_False by (rewrite elem_of_cons; tauto).
    by rewrite list_lookup_insert_ne by lia.
Qed.

Lemma be_bytes_lookup n v i :
  (i < n)%nat → be_bytes n v !! i = Some (digit v (Z.of_nat (n - 1 - i))).
Proof.
  revert v. induction n as [|n IH]; intros v Hi; [lia|].
  change (be_bytes (S n) v) with (be_bytes n (v / 256) ++ [byte_wrap v]).
  destruct (decide (i = n)) as [->|].
  - rewrite lookup_app_r by (rewrite be_bytes_length; lia). rewrite be_bytes_length.
    replace (n - n)%nat with 0%nat by lia. unfold digit. cbn [lookup list_lookup].
    replace (S n - 1 - n)%nat with 0%nat by lia. by rewrite Z.shiftr_0_r.
  - rewrite lookup_app_l by (rewrite be_bytes_length; lia). rewrite IH by lia.
    unfold digit. do 2 f_equal. change 256 with (2 ^ 8). rewrite <-Z.shiftr_div_pow2 by lia.
    rewrite Z.shiftr_shiftr by lia. f_equal. lia.
Qed.

(** Writing every Sail index in order gives the little-endian bytes. *)
Lemma scatter_all n v r :
  py_len r = n → scatter_bytes n v (seqZ 0 n) r = Ok (rev (be_bytes (Z.to_nat n) v)).
Proof.
  intros Hr. destruct (scatter_bytes_ok n v (seqZ 0 n) r) as (r' & -> & Hl & H); [done|..].
  { apply Forall_forall. intros k Hk%elem_of_seqZ. lia. }
  f_equal. apply list_eq_same_length with (n := length r').
  1: { rewrite length_rev, be_bytes_length. unfold py_len in Hl. lia. }
  1: done.
  intros i x y Hi. unfold py_len in Hl. rewrite H by lia.
  rewrite decide_True by (apply elem_of_seqZ; lia). intros [= <-].
  rewrite rev_alt. fold (reverse (be_bytes (Z.to_nat n) v)).
  rewrite reverse_lookup by (rewrite be_bytes_length; lia).
  rewrite be_bytes_length, be_bytes_lookup by lia. intros [= <-]. f_equal. lia.
Qed.

Lemma word_to_hash_ok v : word_to_hash v = Ok (rev (be_bytes 32 v)).
Proof. unfold word_to_hash. cbn [mbind outcome_bind sail_vector_init]. apply (scatter_all 32). done. Qed.
Lemma word_to_address_ok v : word_to_address v = Ok (rev (be_bytes 20 v)).
Proof. unfold word_to_address. cbn [mbind outcome_bind sail_vector_init]. apply (scatter_all 20). done. Qed.

Lemma from_be_word n l : (n <= 32)%nat → length l = n → is_word (from_be l).
Proof.
  intros Hn Hl. pose proof (from_be_bound l) as B. unfold py_len in B. rewrite Hl in B.
  assert (256 ^ Z.of_nat n <= 256 ^ 32) by (apply Z.pow_le_mono_r; lia).
  unfold is_word, WORD_MODULUS. change (2 ^ 256) with (256 ^ 32). lia.
Qed.

Lemma hash_to_word_ok h : py_len h = 32 → hash_to_word h = Ok (from_be (rev h)).
Proof.
  intros H. unfold hash_to_word. rewrite gather_bytes_ok by done. cbn [mbind outcome_bind].
  apply word_ok, (from_be_word 32); [lia|]. rewrite length_rev. unfold py_len in H. lia.
Qed.
Lemma address_to_word_ok a : py_len a = 20 → address_to_word a = Ok (from_be (rev a)).
Proof.
  intros H. unfold address_to_word. rewrite gather_bytes_ok by done. cbn [mbind outcome_bind].
  apply word_ok, (from_be_word 20); [lia|]. rewrite length_rev. unfold py_len in H. lia.
Qed.

(** words and hashes convert back and forth without loss, an address is
    the low 20 bytes of its word, and a word converted to an address keeps
    exactly its value modulo [2 ^ 160]. *)
Theorem word_hash_roundtrip (v : Z) (h : hash) (a : address) :
  is_word v → py_len h = 32 → py_len a = 20 →
  (word_to_hash v ≫= hash_to_word) = Ok v ∧
  (hash_to_word h ≫= word_to_hash) = Ok h ∧
  (address_to_word a ≫= word_to_address) = Ok a ∧
  (word_to_address v ≫= address_to_word) = Ok (v mod 2 ^ 160).
Proof.
  intros Hv Hh Ha.
  assert (∀ n l, py_len l = Z.of_nat n → rev (be_bytes n (from_be (rev l))) = l) as Hrev.
  { intros n l Hl. unfold py_len in Hl. apply Nat2Z.inj in Hl as <-.
    rewrite <-(length_rev l), be_bytes_from_be. apply rev_involutive. }
  assert (∀ n w, py_len (rev (be_bytes n w)) = Z.of_nat n) as Hlen.
  { intros n w. unfold py_len. by rewrite length_rev, be_bytes_length. }
  split_and!.
  - rewrite word_to_hash_ok. cbn [mbind outcome_bind].
    rewrite hash_to_word_ok by apply Hlen. rewrite rev_involutive, from_be_be_bytes.
    f_equal. by apply Z.mod_small.
  - rewrite hash_to_word_ok by done. cbn [mbind outcome_bind].
    rewrite word_to_hash_ok. by rewrite Hrev.
  - rewrite address_to_word_ok by done. cbn [mbind outcome_bind].
    rewrite word_to_address_ok. by rewrite Hrev.
  - rewrite word_to_address_ok. cbn [mbind outcome_bind].
    rewrite address_to_word_ok by apply Hlen. by rewrite rev_involutive, from_be_be_bytes.
Qed.

Lemma word_hash_roundtrip_witness :
  (word_to_hash 0x1234 ≫= hash_to_word) = Ok 0x1234 ∧
  (word_to_address (2 ^ 160 + 7) ≫= address_to_word) = Ok 7.
Proof.
  assert (is_word 0x1234 ∧ is_word (2 ^ 160 + 7)) as [H1 H2] by (vm_compute; intuition congruence).
  pose proof (word_hash_roundtrip 0x1234 (zeros 32) (zeros 20) H1 eq_refl eq_refl) as (H & _).
  pose proof (word_hash_roundtrip (2 ^ 160 + 7) (zeros 32) (zeros 20) H2 eq_refl eq_refl)
    as (_ & _ & _ & H').
  split; [exact H|]. rewrite H'. vm_compute. reflexivity.
Defined.
