(* ===== verification/ChainConfig.v ===== *)
(** * ChainConfig: forks, protocol profiles and gas limits

    [primitives/fork.py] and [primitives/chain_config.py]: the parameters of
    each fork and the gas limits derived from a block limit. A dataclass whose
    validator fails raises [ValueError]; the validity record of a dataclass
    holds the integers of its fields and is merged with them. *)

From Stdlib Require Import ZArith Lia.
From stdpp Require Import base tactics option list.
From S2P Require Import Prelude SailRuntime.
Local Open Scope Z_scope.

(** ** Forks *)

Definition Berlin : Z := 5.
Definition London : Z := 6.
Definition ArrowGlacier : Z := 7.
Definition GrayGlacier : Z := 8.
Definition Paris : Z := 9.
Definition Shanghai : Z := 10.
Definition Cancun : Z := 11.
Definition Prague : Z := 12.
Definition Osaka : Z := 13.
Definition BPO1 : Z := 14.
Definition BPO2 : Z := 15.
Definition Amsterdam : Z := 16.

Definition validated {A} (ok : bool) (v : A) : outcome A :=
  if ok then Ok v else Raise (ValueError "violates Sail constraint").

(** ** Blob schedules *)

Record BlobScheduleFields : Type := mkBlobSchedule {
  bs_target : Z;
  bs_max : Z;
  base_fee_update_fraction : Z;
}.

(** [blob_schedule_parameters] *)
Definition blob_schedule_parameters (target maximum denominator : Z) : bool :=
  existsb (Z.eqb denominator) [1; 3338477; 5007716; 8346193; 11684671] &&
  existsb (λ '(t, m, d), (target =? t) && (maximum =? m) && (denominator =? d))
    [(0, 0, 1); (3, 6, 3338477); (6, 9, 5007716); (10, 15, 8346193); (14, 21, 11684671)].

Definition blob_schedule (target maximum denominator : Z) : outcome BlobScheduleFields :=
  validated (blob_schedule_parameters target maximum denominator)
    (mkBlobSchedule target maximum denominator).

Definition compute_profile_excess_blob_gas_limit (fork target maximum denominator : Z) : Z :=
  if fork <? Cancun then 0
  else 256 * denominator + (maximum - target) * Z.shiftl 1 17.

(** ** Protocol profiles *)

Record ProtocolProfileFields : Type := mkProtocolProfile {
  fork : Z;
  pp_blob_schedule : BlobScheduleFields;
  excess_blob_gas_limit : Z;
  deployed_code_size_limit : Z;
  initcode_size_limit : Z;
  transaction_total_gas_limit : Z;
  transaction_regular_gas_limit : Z;
  transaction_blob_limit : Z;
  refund_divisor : Z;
}.

(** The arguments of a profile: fork, target, maximum, denominator, code
    limit, initcode limit, total and regular gas limits, blob limit and refund
    divisor. *)
Definition U64_MAX : Z := 2 ^ 64 - 1.

Definition profile_parameters : Type := list Z.

(** [protocol_profile_parameters]: one row for each fork, the forks 6 to 9
    sharing theirs. *)
Definition valid_parameters : list profile_parameters :=
  [5; 0; 0; 1; 24576; 0; U64_MAX; U64_MAX; 0; 2] ::
  ((λ f, [f; 0; 0; 1; 24576; 0; U64_MAX; U64_MAX; 0; 5]) <$> [6; 7; 8; 9]) ++
  [[10; 0; 0; 1; 24576; 49152; U64_MAX; U64_MAX; 0; 5];
   [11; 3; 6; 3338477; 24576; 49152; U64_MAX; U64_MAX; 6; 5];
   [12; 6; 9; 5007716; 24576; 49152; U64_MAX; U64_MAX; 9; 5];
   [13; 6; 9; 5007716; 24576; 49152; 2 ^ 24; 2 ^ 24; 6; 5];
   [14; 10; 15; 8346193; 24576; 49152; 2 ^ 24; 2 ^ 24; 6; 5];
   [15; 14; 21; 11684671; 24576; 49152; 2 ^ 24; 2 ^ 24; 6; 5];
   [16; 14; 21; 11684671; 65536; 131072; U64_MAX; 2 ^ 24; 6; 5]].

Definition protocol_profile_parameters (p : profile_parameters) : bool :=
  bool_decide (p ∈ valid_parameters).

(** The parameters a profile has. *)
Definition parameters (p : ProtocolProfileFields) : profile_parameters :=
  [p.(fork); p.(pp_blob_schedule).(bs_target); p.(pp_blob_schedule).(bs_max);
   p.(pp_blob_schedule).(base_fee_update_fraction); p.(deployed_code_size_limit);
   p.(initcode_size_limit); p.(transaction_total_gas_limit);
   p.(transaction_regular_gas_limit); p.(transaction_blob_limit); p.(refund_divisor)].

(** [ProtocolProfileFields(...)] as each case of [schema_protocol_profile]
    builds it. *)
Definition build_profile (fork target maximum denominator code_limit initcode_limit total regular
    blob_limit divisor : Z) : outcome ProtocolProfileFields :=
  schedule ← blob_schedule target maximum denominator;
  let profile := mkProtocolProfile fork schedule
    (compute_profile_excess_blob_gas_limit fork target maximum denominator)
    code_limit initcode_limit total regular blob_limit divisor in
  validated (protocol_profile_parameters (parameters profile)) profile.

Definition pack_protocol_profile (profile : ProtocolProfileFields) : ProtocolProfileFields := profile.

Definition schema_protocol_profile (schema_fork : Bits) : outcome ProtocolProfileFields :=
  let schema b := bool_decide (schema_fork = bits_of 8 b) in
  let gas := Z.shiftl 1 64 - 1 in
  let capped := Z.shiftl 1 24 in
  profile ←
    if schema 0x0a then build_profile Berlin 0 0 1 24576 0 gas gas 0 2
    else if schema 0x0b then build_profile London 0 0 1 24576 0 gas gas 0 5
    else if schema 0x0c then build_profile ArrowGlacier 0 0 1 24576 0 gas gas 0 5
    else if schema 0x0d then build_profile GrayGlacier 0 0 1 24576 0 gas gas 0 5
    else if schema 0x0e then build_profile Paris 0 0 1 24576 0 gas gas 0 5
    else if schema 0x0f then build_profile Shanghai 0 0 1 24576 49152 gas gas 0 5
    else if schema 0x10 then build_profile Cancun 3 6 3338477 24576 49152 gas gas 6 5
    else if schema 0x11 then build_profile Prague 6 9 5007716 24576 49152 gas gas 9 5
    else if schema 0x12 then build_profile Osaka 6 9 5007716 24576 49152 capped capped 6 5
    else if schema 0x13 then build_profile BPO1 10 15 8346193 24576 49152 capped capped 6 5
    else if schema 0x14 then build_profile BPO2 14 21 11684671 24576 49152 capped capped 6 5
    else build_profile Amsterdam 14 21 11684671 65536 131072 gas capped 6 5;
  Ok (pack_protocol_profile profile).

Definition schema_protocol_profile_forwards_matches (schema_fork : Bits) : bool :=
  existsb (λ b, bool_decide (schema_fork = bits_of 8 b))
    [0x0a; 0x0b; 0x0c; 0x0d; 0x0e; 0x0f; 0x10; 0x11; 0x12; 0x13; 0x14; 0x15].

(** ** Gas limits *)

Definition SYSTEM_CALL_GAS_LIMIT : Z := 30000000.

Record GasLimitsFields : Type := mkGasLimits {
  block_limit : Z;
  transaction_total_limit : Z;
  transaction_regular_limit : Z;
  system_regular_limit : Z;
  system_state_limit : Z;
}.

(** [gas_limits_parameters] *)
Definition gas_limits_parameters (block_limit profile_total profile_regular total regular : Z) :
    bool :=
  (0 <=? block_limit) && (block_limit <=? U64_MAX) &&
  ((profile_total =? 2 ^ 24) || (profile_total =? U64_MAX)) &&
  ((profile_regular =? 2 ^ 24) || (profile_regular =? U64_MAX)) &&
  (total =? if block_limit <? profile_total then block_limit else profile_total) &&
  (regular =? if total <? profile_regular then total else profile_regular).

Definition gas_limits_for (profile : ProtocolProfileFields) (block_limit : Z) :
    outcome GasLimitsFields :=
  let total := if block_limit <? profile.(transaction_total_gas_limit) then block_limit
               else profile.(transaction_total_gas_limit) in
  let regular := if total <? profile.(transaction_regular_gas_limit) then total
                 else profile.(transaction_regular_gas_limit) in
  validated
    (gas_limits_parameters block_limit profile.(transaction_total_gas_limit)
       profile.(transaction_regular_gas_limit) total regular)
    (mkGasLimits block_limit total regular SYSTEM_CALL_GAS_LIMIT 0).

Record ExecutionProfileFields : Type := mkExecutionProfile {
  protocol : ProtocolProfileFields;
  ep_gas : GasLimitsFields;
}.

Definition execution_profile_for (p : ProtocolProfileFields) (block_limit : Z) :
    outcome ExecutionProfileFields :=
  g ← gas_limits_for p block_limit;
  validated
    (protocol_profile_parameters (parameters p) &&
     gas_limits_parameters block_limit p.(transaction_total_gas_limit)
       p.(transaction_regular_gas_limit) g.(transaction_total_limit) g.(transaction_regular_limit))
    (mkExecutionProfile p g).

(** ** Properties *)

(** A profile the validators accept. *)
Definition profile_wf (p : ProtocolProfileFields) : Prop :=
  parameters p ∈ valid_parameters ∧
  blob_schedule_parameters p.(pp_blob_schedule).(bs_target) p.(pp_blob_schedule).(bs_max)
    p.(pp_blob_schedule).(base_fee_update_fraction) = true ∧
  p.(excess_blob_gas_limit) = compute_profile_excess_blob_gas_limit p.(fork)
    p.(pp_blob_schedule).(bs_target) p.(pp_blob_schedule).(bs_max)
    p.(pp_blob_schedule).(base_fee_update_fraction).

Lemma validated_Ok {A} ok (v w : A) : validated ok v = Ok w ↔ ok = true ∧ w = v.
Proof. destruct ok; cbn; naive_solver. Qed.

Lemma build_profile_wf f t m d c i tot reg b r p :
  build_profile f t m d c i tot reg b r = Ok p → profile_wf p ∧ p.(fork) = f.
Proof.
  unfold build_profile, blob_schedule. intros (s & (Hs & ->)%validated_Ok & H)%bind_Ok.
  apply validated_Ok in H as (H & ->). apply bool_decide_eq_true in H. by split; [split_and!|].
Qed.

(** C31: every schema byte names a valid profile: [schema_protocol_profile]
    raises for none, each recognised byte gives its own fork, an unknown byte
    gives Amsterdam, and the execution profile for any 64-bit block limit is
    built with transaction limits that never exceed the block's or each other. *)
Theorem profiles_total (b block : Z) :
  0 <= b < 256 → 0 <= block < 2 ^ 64 →
  ∃ p e, schema_protocol_profile (bits_of 8 b) = Ok p ∧ profile_wf p ∧
    p.(fork) = (if (0x0a <=? b) && (b <=? 0x14) then b - 5 else Amsterdam) ∧
    execution_profile_for p block = Ok e ∧ e.(protocol) = p ∧
    e.(ep_gas).(transaction_regular_limit) <= e.(ep_gas).(transaction_total_limit) <= block.
Proof.
  intros Hb Hblock.
  assert (∃ p, schema_protocol_profile (bits_of 8 b) = Ok p ∧
            p.(fork) = (if (0x0a <=? b) && (b <=? 0x14) then b - 5 else Amsterdam)) as (p & E & Hf).
  { assert (forallb (λ b, match schema_protocol_profile (bits_of 8 b) with
      | Ok p => p.(fork) =? (if (0x0a <=? b) && (b <=? 0x14) then b - 5 else Amsterdam)
      | Raise _ => false end) (seqZ 0 256) = true) as F by (vm_compute; reflexivity).
    rewrite forallb_forall in F. specialize (F b). rewrite <-list_elem_of_In, elem_of_seqZ in F.
    destruct (schema_protocol_profile _) as [p|]; [|exfalso; cut (false = true); [done|apply F; lia]].
    exists p. split; [done|]. apply Z.eqb_eq, F. lia. }
  assert (profile_wf p) as Hwf.
  { unfold schema_protocol_profile in E. apply bind_Ok in E as (q & E & [= <-]).
    repeat case_match; by apply build_profile_wf in E as [? _]. }
  assert (p.(transaction_total_gas_limit) ∈ [2 ^ 24; U64_MAX] ∧
          p.(transaction_regular_gas_limit) ∈ [2 ^ 24; U64_MAX]) as [Ht Hr].
  { destruct Hwf as (Hin & _ & _). destruct p as [f [t m d] x c i tot reg bl r]. cbn in *.
    repeat (apply elem_of_cons in Hin as [[= -> -> -> -> -> -> -> -> -> ->]|Hin];
      [by split; apply (bool_decide_unpack _); vm_compute|]).
    by apply not_elem_of_nil in Hin. }
  set (total := if block <? p.(transaction_total_gas_limit) then block
                else p.(transaction_total_gas_limit)).
  set (regular := if total <? p.(transaction_regular_gas_limit) then total
                  else p.(transaction_regular_gas_limit)).
  assert (gas_limits_parameters block p.(transaction_total_gas_limit)
            p.(transaction_regular_gas_limit) total regular = true) as G.
  { unfold gas_limits_parameters. fold total regular. rewrite !Z.eqb_refl, !andb_true_r.
    rewrite (proj2 (Z.leb_le 0 block)), (proj2 (Z.leb_le block U64_MAX)) by (unfold U64_MAX; lia).
    rewrite !elem_of_cons, elem_of_nil in Ht, Hr.
    destruct Ht as [->|[->|[]]], Hr as [->|[->|[]]]; reflexivity. }
  exists p, (mkExecutionProfile p (mkGasLimits block total regular SYSTEM_CALL_GAS_LIMIT 0)).
  split; [done|]. split; [done|]. split; [done|]. split; [|split; [done|split; cbn]].
  - unfold execution_profile_for, gas_limits_for. fold total regular. rewrite G.
    cbn [validated mbind outcome_bind transaction_total_limit transaction_regular_limit].
    rewrite G. unfold protocol_profile_parameters.
    rewrite bool_decide_eq_true_2 by apply Hwf. done.
  - unfold regular. destruct (Z.ltb_spec total p.(transaction_regular_gas_limit)); lia.
  - unfold total. destruct (Z.ltb_spec block p.(transaction_total_gas_limit)); lia.
Qed.

Lemma profiles_total_witness :
  ∃ p e, schema_protocol_profile (bits_of 8 0x12) = Ok p ∧ profile_wf p ∧ p.(fork) = Osaka ∧
    execution_profile_for p 36000000 = Ok e ∧ e.(protocol) = p ∧
    e.(ep_gas).(transaction_regular_limit) <= e.(ep_gas).(transaction_total_limit) <= 36000000.
Proof. apply (profiles_total 0x12 36000000); lia. Defined.
