(* ===== verification/Regions.v ===== *)
(** * Regions: the byte regions of the host

    [stateless_input_bytes], [memory_bytes], [code_bytes], [scratch_bytes],
    [output_bytes], [public_output] and the log-data region of
    [HostContract.py], with every function that reads, copies, grows or
    truncates one of them. [mem_at] is the abstraction the theorems use: a
    region read as an infinite, zero-extended sequence of bytes. *)

From Stdlib Require Import ZArith Lia.
From stdpp Require Import base tactics option list gmap.
From S2P Require Import Prelude PyBytes OrderedDict HostTypes.

#[local] Open Scope Z_scope.

(** ** Conversions *)

Definition _fixed_wire_bytes (value : bytes) : bytes := rev value.
Definition _address_key (value : address) : bytes := _fixed_wire_bytes value.
Definition _hash_key (value : hash) : bytes := _fixed_wire_bytes value.
Definition _storage_key (value : StorageKey) : bytes * Z :=
  (_address_key value.(sk_addr), value.(sk_slot)).
Definition _address_slot_key (address : address) (slot : Z) : bytes * Z :=
  (_address_key address, slot).
Definition _decreasing_vector_wire_bytes (value : bytes) : bytes := value.

Definition _word_bytes (value length : Z) : bytes :=
  py_slice_from (be_bytes 32 (Z.land value WORD_MASK)) (- length).

(** [Bits(8, value)], read back as an integer. *)
Definition _byte (value : Z) : Z := value mod 256.

Definition _bytes32_from_wire (value : bytes) : hash := rev value.
Definition _bytes20_from_wire (value : bytes) : address := rev value.
Definition _zero_hash : hash := _bytes32_from_wire (zeros 32).

(** ** Regions *)

Inductive RegionKind : Type :=
| RInput | RMemory | RCode | RScratch | RLog | ROutput.

Definition region_of (kind : RegionKind) (s : HostState) : bytes :=
  match kind with
  | RInput => s.(regions).(stateless_input_bytes)
  | RMemory => s.(regions).(memory_bytes)
  | RCode => s.(regions).(code_bytes)
  | RScratch => s.(regions).(scratch_bytes)
  | RLog => s.(world).(log_data)
  | ROutput => s.(regions).(output_bytes)
  end.

Definition _ensure_length (region : bytes) (required : Z) : bytes :=
  if py_len region <? required
  then region ++ zeros (required - py_len region) else region.

Definition _slice_bytes (region : bytes) (value : Slice) : bytes :=
  py_slice region value.(sl_bytes) (value.(sl_bytes) + value.(sl_len)).

Definition _region_bytes (kind : RegionKind) (value : Slice) : M HostState bytes :=
  gets (λ s, _slice_bytes (region_of kind s) value).

Definition _memory_slice_bytes (value : Slice) : M HostState bytes :=
  gets (λ s, _slice_bytes s.(regions).(memory_bytes) value).

Definition _region_byte (kind : RegionKind) (value : Slice) (offset : Z) : M HostState Z :=
  data ← _region_bytes kind value;
  if offset <? py_len data
  then b ← of_outcome (py_index data offset); mret (_byte (Z_of_byte b))
  else mret (_byte 0).

Definition _load_word (kind : RegionKind) (value : Slice) (offset length : Z) : M HostState Z :=
  data ← _region_bytes kind value;
  let payload := py_slice data offset (offset + length) in
  mret (from_be (py_ljust payload length)).

Definition modify_regions (f : Regions → Regions) : M HostState unit := zoom (modify f).

(** [region[start:start+len(p)] = p] after growing the region to hold it. *)
Definition splice (region : bytes) (start : Z) (p : bytes) : bytes :=
  py_slice_set region start (start + py_len p) p.

Definition _copy_to_memory (kind : RegionKind) (value : Slice)
    (destination source length : Z) : M HostState unit :=
  data ← _region_bytes kind value;
  let payload := py_ljust (py_slice data source (source + length)) length in
  modify_regions (λ r,
    let memory := _ensure_length r.(memory_bytes) (destination + length) in
    set_memory_bytes
      (py_slice_set memory destination (destination + length) payload) r).

Definition _strided_zero (kind : RegionKind) (value : Slice)
    (start stride width count : Z) : M HostState bool :=
  data ← _region_bytes kind value;
  mret (forallb (λ item,
    let offset := start + Z.of_nat item * stride in
    forallb (λ b, Z_of_byte b =? 0) (py_slice data offset (offset + width)))
    (seq 0 (Z.to_nat count))).

Definition _append_code (payload : bytes) : M HostState Slice :=
  offset ← gets (λ s, py_len s.(regions).(code_bytes));
  modify_regions (λ r, set_code_bytes (r.(code_bytes) ++ payload) r);;
  of_outcome (code_region_slice offset (py_len payload)).

Definition _scratch_store (offset : Z) (payload : bytes) : M HostState Slice :=
  let end_ := offset + py_len payload in
  modify_regions (λ r,
    set_scratch_bytes
      (py_slice_set (_ensure_length r.(scratch_bytes) end_) offset end_ payload) r);;
  of_outcome (scratch_slice 0 end_).

(** ** The region functions of the boundary *)

Definition stateless_input : M HostState Slice :=
  n ← gets (λ s, py_len s.(regions).(stateless_input_bytes));
  of_outcome (stateless_input_slice 0 n).

Definition stateless_input_byte_at := _region_byte RInput.
Definition memory_slice_byte_at := _region_byte RMemory.
Definition code_region_byte_at := _region_byte RCode.
Definition scratch_slice_byte_at := _region_byte RScratch.
Definition log_data_slice_byte_at := _region_byte RLog.
Definition output_slice_byte_at := _region_byte ROutput.

Definition stateless_input_count_nonzero (value : Slice) : M HostState Z :=
  data ← _region_bytes RInput value;
  mret (Z.of_nat (length (filter (λ b, Z_of_byte b ≠ 0) data))).

Definition stateless_input_strided_zero := _strided_zero RInput.
Definition memory_slice_strided_zero := _strided_zero RMemory.

Definition stateless_input_load_word (value : Slice) (offset : Z) := _load_word RInput value offset 32.
Definition memory_slice_load_word (value : Slice) (offset : Z) := _load_word RMemory value offset 32.
Definition code_region_load_word (value : Slice) (offset : Z) := _load_word RCode value offset 32.
Definition scratch_slice_load_word (value : Slice) (offset : Z) := _load_word RScratch value offset 32.
Definition log_data_slice_load_word (value : Slice) (offset : Z) := _load_word RLog value offset 32.
Definition output_slice_load_word (value : Slice) (offset : Z) := _load_word ROutput value offset 32.
Definition stateless_input_load_n_word := _load_word RInput.
Definition code_region_load_n_word := _load_word RCode.
Definition scratch_slice_load_n_word := _load_word RScratch.

Definition stateless_input_copy_to_memory := _copy_to_memory RInput.
Definition memory_slice_copy_to_memory := _copy_to_memory RMemory.
Definition code_region_copy_to_memory := _copy_to_memory RCode.
Definition output_slice_copy_to_memory := _copy_to_memory ROutput.

Definition slices_equal (kl kr : RegionKind) (left right : Slice) : M HostState bool :=
  l ← _region_bytes kl left;
  r ← _region_bytes kr right;
  mret (bool_decide (l = r)).

Definition scratch_input_slices_equal := slices_equal RScratch RInput.
Definition log_input_slices_equal := slices_equal RLog RInput.
Definition input_code_slices_equal := slices_equal RInput RCode.

(** ** Frame memory *)

Definition mem_write_byte (offset value : Z) : M HostState unit :=
  modify_regions (λ r, set_memory_bytes (_ensure_length r.(memory_bytes) (offset + 1)) r);;
  memory ← gets (λ s, s.(regions).(memory_bytes));
  b ← of_outcome (byte_of_Z value);
  memory' ← of_outcome (py_setitem memory offset b);
  modify_regions (set_memory_bytes memory').

Definition mem_expand (base established required : Z) : M HostState unit :=
  let start := base + established in
  let end_ := base + required in
  if (base <? 0) || (established <? 0) || (end_ <=? start)
  then raise (ValueError "invalid EVM memory expansion")
  else modify_regions (λ r,
    set_memory_bytes
      (py_slice_set (_ensure_length r.(memory_bytes) end_) start end_ (zeros (end_ - start))) r).

Definition mem_view (base established required : Z) : M HostState Slice :=
  n ← gets (λ s, py_len s.(regions).(memory_bytes));
  if (base <? 0) || (required <? 0) || (established <? required)
     || (n <? base + established)
  then raise (ValueError "invalid EVM memory view")
  else of_outcome (evm_memory_slice base required).

Definition mem_move (destination source length : Z) : M HostState unit :=
  modify_regions (λ r,
    let payload := py_ljust (py_slice r.(memory_bytes) source (source + length)) length in
    let memory := _ensure_length r.(memory_bytes) (destination + length) in
    set_memory_bytes (py_slice_set memory destination (destination + length) payload) r).

Definition mem_load_word (offset : Z) : M HostState Z :=
  memory ← gets (λ s, s.(regions).(memory_bytes));
  let payload := py_slice memory offset (offset + WORD_BYTES) in
  mret (from_be (py_ljust payload WORD_BYTES)).

Definition mem_store_word (offset value : Z) : M HostState unit :=
  modify_regions (λ r,
    let memory := _ensure_length r.(memory_bytes) (offset + WORD_BYTES) in
    set_memory_bytes
      (py_slice_set memory offset (offset + WORD_BYTES) (_word_bytes value WORD_BYTES)) r).

(** ** Scratch, output and code regions *)

Definition host_scratch_reserve (offset length : Z) : M HostState bool :=
  modify_regions (λ r, set_scratch_bytes (_ensure_length r.(scratch_bytes) (offset + length)) r);;
  mret true.

Definition host_scratch_store_byte (offset value : Z) : M HostState Slice :=
  b ← of_outcome (byte_of_Z value);
  _scratch_store offset [b].

Definition host_scratch_store_from (kind : RegionKind) (offset : Z) (value : Slice) :
    M HostState Slice :=
  payload ← _region_bytes kind value;
  _scratch_store offset payload.

Definition host_scratch_store_stateless_input := host_scratch_store_from RInput.
Definition host_scratch_store_scratch := host_scratch_store_from RScratch.
Definition host_scratch_store_log_data := host_scratch_store_from RLog.
Definition host_scratch_store_output := host_scratch_store_from ROutput.

Definition host_scratch_store_address (offset : Z) (value : address) : M HostState Slice :=
  _scratch_store offset (_fixed_wire_bytes value).

Definition host_scratch_store_b256 (offset : Z) (value : hash) (length : Z) : M HostState Slice :=
  _scratch_store offset (py_slice_to (_fixed_wire_bytes value) length).

Definition host_scratch_store_fixed_bytes_256 (offset : Z) (value : bytes) : M HostState Slice :=
  _scratch_store offset (_decreasing_vector_wire_bytes value).

Definition host_scratch_store_word (offset value length : Z) : M HostState Slice :=
  _scratch_store offset (_word_bytes value length).

Definition host_scratch_truncate (offset : Z) : M HostState unit :=
  modify_regions (λ r, set_scratch_bytes (py_del_from r.(scratch_bytes) offset) r).

(** [state.output_bytes[:] = payload] *)
Definition _store_output (payload : bytes) : M HostState unit :=
  modify_regions (set_output_bytes payload).

Definition output_buffer_store_memory (value : Slice) : M HostState bool :=
  payload ← _region_bytes RMemory value; _store_output payload;; mret true.

Definition output_buffer_store_input (value : Slice) : M HostState bool :=
  payload ← _region_bytes RInput value; _store_output payload;; mret true.

Definition output_buffer_store_word (value : Z) : M HostState bool :=
  _store_output (_word_bytes value WORD_BYTES);; mret true.

Definition output_buffer_store_words (first second : Z) : M HostState bool :=
  _store_output (_word_bytes first WORD_BYTES ++ _word_bytes second WORD_BYTES);; mret true.

Definition public_output_write (value : Slice) : M HostState bool :=
  payload ← _region_bytes RScratch value;
  modify_regions (λ r, set_public_output (r.(public_output) ++ payload) r);;
  mret true.

Definition DELEGATION_PREFIX : bytes := [Byte.xef; Byte.x01; Byte.x00].

Definition code_region_from_input (value : Slice) : M HostState Slice :=
  payload ← _region_bytes RInput value; _append_code payload.
Definition code_region_from_memory (value : Slice) : M HostState Slice :=
  payload ← _region_bytes RMemory value; _append_code payload.
Definition code_region_from_output (value : Slice) : M HostState Slice :=
  payload ← _region_bytes ROutput value; _append_code payload.
Definition code_region_from_delegation (address : address) : M HostState Slice :=
  _append_code (DELEGATION_PREFIX ++ _fixed_wire_bytes address).

(** ** The zero-extended reading of a region *)

(** The byte at position [k] of a region, zero past its end. *)
Definition mem_at (l : bytes) (k : Z) : byte := default Byte.x00 (l !! Z.to_nat k).

(** The [n] bytes from position [start] of the zero-extended region. *)
Definition mem_range (l : bytes) (start : Z) (n : nat) : bytes :=
  (λ i, mem_at l (start + Z.of_nat i)) <$> seq 0 n.

Arguments mem_at : simpl never.
Arguments mem_range : simpl never.
Arguments _fixed_wire_bytes : simpl never.
Arguments _address_key : simpl never.
Arguments _hash_key : simpl never.
