(* ===== verification/RegionAccess.v ===== *)
(** * RegionAccess: slices and guarded region reads

    [primitives/bytes.py] and [host/region_access.py]: sub-slices, whose
    constructor checks the range, and the accesses the specification makes to
    the host's regions, which answer zero past the end of a slice without
    calling the host. *)

From Stdlib Require Import ZArith Lia Strings.Byte.
From stdpp Require Import base tactics option list.
From S2P Require Import Prelude PyBytes HostTypes SailRuntime Words Regions.
Local Open Scope Z_scope.

(** [Uint(v)]: an unbounded unsigned integer. *)
Definition Uint (v : Z) : outcome Z := if 0 <=? v then Ok v else Raise OverflowError.
Definition code_length (v : Z) : outcome Z := Uint v.

Definition ADDRESS_BYTE_LENGTH : Z := 20.
Definition WORD_BYTE_LENGTH : Z := 32.
Definition EIGHT_BYTE_LENGTH : Z := 8.
Definition DOUBLE_WORD_BYTE_LENGTH : Z := 64.

Definition EMPTY_SCRATCH_SLICE : Slice := mkSlice 0 0.
Definition EMPTY_EVM_MEMORY_SLICE : Slice := mkSlice 0 0.
Definition EMPTY_CODE_REGION_SLICE : Slice := mkSlice 0 0.
Definition EMPTY_LOG_DATA_SLICE : Slice := mkSlice 0 0.
Definition EMPTY_OUTPUT_SLICE : Slice := mkSlice 0 0.
Definition EMPTY_CALLDATA : CalldataSlice := InputCalldata EMPTY_STATELESS_INPUT_SLICE.

(** ** Slices *)

Definition calldata_slice_length (s : CalldataSlice) : outcome Z :=
  match s with InputCalldata b | MemoryCalldata b => code_length b.(sl_len) end.
Definition stateless_input_slice_length (s : Slice) : outcome Z := code_length s.(sl_len).

(** The sub-slice at an offset; only the resulting range is checked. *)
Definition sub_slice (s : Slice) (off sail_len : Z) : outcome Slice :=
  checked_slice (s.(sl_bytes) + off) sail_len.
Definition stateless_input_sub_slice := sub_slice.
Definition scratch_sub_slice := sub_slice.
Definition memory_sub_slice := sub_slice.
Definition log_data_sub_slice := sub_slice.

Definition slice_suffix (s : Slice) (off : Z) : outcome Slice :=
  checked_slice (s.(sl_bytes) + off) (s.(sl_len) - off).
Definition stateless_input_slice_suffix := slice_suffix.
Definition scratch_slice_suffix := slice_suffix.

Definition calldata_sub_slice (s : CalldataSlice) (off sail_len : Z) : outcome CalldataSlice :=
  match s with
  | InputCalldata b =>
      if off + sail_len <=? b.(sl_len)
      then subslice ← stateless_input_sub_slice b off sail_len; Ok (InputCalldata subslice)
      else Raise (SailError "calldata sub-slice bounds")
  | MemoryCalldata b =>
      if off + sail_len <=? b.(sl_len)
      then subslice ← memory_sub_slice b off sail_len; Ok (MemoryCalldata subslice)
      else Raise (SailError "calldata sub-slice bounds")
  end.

(** ** Bytes *)

Definition slice_byte (host : Slice → Z → M HostState Z) (s : Slice) (off : Z) : M HostState Z :=
  if off <? s.(sl_len) then host s off else mret 0.

Definition stateless_input_slice_byte := slice_byte stateless_input_byte_at.
Definition memory_slice_byte := slice_byte memory_slice_byte_at.
Definition code_slice_byte := slice_byte code_region_byte_at.
Definition scratch_byte := slice_byte scratch_slice_byte_at.
Definition log_data_byte := slice_byte log_data_slice_byte_at.
Definition output_byte := slice_byte output_slice_byte_at.

Definition calldata_slice_byte (s : CalldataSlice) (off : Z) : M HostState Z :=
  match s with
  | InputCalldata b => stateless_input_slice_byte b off
  | MemoryCalldata b => memory_slice_byte b off
  end.

Definition slice_count_nonzero (s : Slice) : M HostState Z :=
  n ← stateless_input_count_nonzero s; of_outcome (code_length n).

Definition stateless_input_slice_strided_zero (s : Slice) (start stride width count : Z) :
    M HostState bool := stateless_input_strided_zero s start stride width count.
Definition memory_slice_strided_zero_value (s : Slice) (start stride width count : Z) :
    M HostState bool := memory_slice_strided_zero s start stride width count.
Definition slice_strided_zero (s : CalldataSlice) (start stride width count : Z) :
    M HostState bool :=
  match s with
  | InputCalldata b => stateless_input_slice_strided_zero b start stride width count
  | MemoryCalldata b => memory_slice_strided_zero_value b start stride width count
  end.

(** ** Words *)

Definition slice_load (host : Slice → Z → M HostState Z) (s : Slice) (off : Z) : M HostState Z :=
  v ← (if off <? s.(sl_len) then host s off else mret 0); of_outcome (word v).

Definition stateless_input_slice_load := slice_load stateless_input_load_word.
Definition memory_slice_load := slice_load memory_slice_load_word.
Definition code_slice_load := slice_load code_region_load_word.
Definition scratch_slice_load := slice_load scratch_slice_load_word.
Definition log_data_slice_load := slice_load log_data_slice_load_word.
Definition output_slice_load := slice_load output_slice_load_word.

Definition calldata_slice_load (s : CalldataSlice) (off : Z) : M HostState Z :=
  match s with
  | InputCalldata b => stateless_input_slice_load b off
  | MemoryCalldata b => memory_slice_load b off
  end.

(** The offset is a word here, with the same guard once more. *)
Definition stateless_input_slice_load_word_offset := slice_load stateless_input_slice_load.
Definition memory_slice_load_word_offset := slice_load memory_slice_load.
Definition code_slice_load_word_offset := slice_load code_slice_load.
Definition calldata_slice_load_word_offset (s : CalldataSlice) (off : Z) : M HostState Z :=
  match s with
  | InputCalldata b => stateless_input_slice_load_word_offset b off
  | MemoryCalldata b => memory_slice_load_word_offset b off
  end.

Definition slice_load_n (host : Slice → Z → Z → M HostState Z) (s : Slice) (off n : Z) :
    M HostState Z :=
  v ← (if off <? s.(sl_len) then host s off n else mret 0); of_outcome (word v).
Definition stateless_input_slice_load_n := slice_load_n stateless_input_load_n_word.
Definition code_slice_load_n := slice_load_n code_region_load_n_word.
Definition scratch_slice_load_n := slice_load_n scratch_slice_load_n_word.

(** ** Copies to memory *)

Definition stateless_input_slice_copy := stateless_input_copy_to_memory.
Definition memory_slice_copy := memory_slice_copy_to_memory.
Definition code_slice_copy := code_region_copy_to_memory.
Definition output_slice_copy := output_slice_copy_to_memory.

(** A copy from past the end copies zeros. *)
Definition copy_word_offset (copy : Slice → Z → Z → Z → M HostState unit)
    (s : Slice) (dst off sail_len : Z) : M HostState unit :=
  if off <? s.(sl_len) then copy s dst off sail_len
  else stateless_input_copy_to_memory EMPTY_STATELESS_INPUT_SLICE dst 0 sail_len.
Definition stateless_input_slice_copy_word_offset := copy_word_offset stateless_input_slice_copy.
Definition memory_slice_copy_word_offset := copy_word_offset memory_slice_copy.
Definition code_slice_copy_word_offset := copy_word_offset code_slice_copy.
Definition calldata_slice_copy_word_offset (s : CalldataSlice) (dst off sail_len : Z) :
    M HostState unit :=
  match s with
  | InputCalldata b => stateless_input_slice_copy_word_offset b dst off sail_len
  | MemoryCalldata b => memory_slice_copy_word_offset b dst off sail_len
  end.

(** ** The bytes a slice stands for *)

(** A slice inside its region. *)
Definition slice_in (kind : RegionKind) (s : Slice) (st : HostState) : Prop :=
  0 <= s.(sl_bytes) ∧ 0 <= s.(sl_len) ∧
  s.(sl_bytes) + s.(sl_len) <= py_len (region_of kind st) ∧ s.(sl_bytes) + s.(sl_len) <= 2 ^ 32 - 1.

Definition slice_data (kind : RegionKind) (s : Slice) (st : HostState) : bytes :=
  _slice_bytes (region_of kind st) s.

Lemma Uint_ok v : 0 <= v → Uint v = Ok v.
Proof. intros H. unfold Uint. by rewrite (proj2 (Z.leb_le _ _)). Qed.

Lemma slice_data_length kind s st :
  slice_in kind s st → py_len (slice_data kind s st) = s.(sl_len).
Proof.
  intros (H1 & H2 & H3 & _). unfold slice_data, _slice_bytes. rewrite py_slice_length; lia.
Qed.

(** The byte at an offset of some bytes, zero past their end. *)
Definition byte_or_zero (data : bytes) (off : Z) : Z := Z_of_byte (mem_at data off).

Lemma slice_byte_run kind s off st :
  slice_in kind s st → 0 <= off →
  slice_byte (_region_byte kind) s off st = (Ok (byte_or_zero (slice_data kind s st) off), st).
Proof.
  intros Hs Ho. pose proof (slice_data_length _ _ _ Hs) as Hl.
  unfold slice_byte, byte_or_zero, mem_at. destruct (Z.ltb_spec off s.(sl_len)) as [Hlt|Hge].
  - unfold _region_byte, _region_bytes. autorewrite with py_run. fold (slice_data kind s st).
    rewrite Hl, (proj2 (Z.ltb_lt _ _)) by done.
    destruct (lookup_lt_is_Some_2 (slice_data kind s st) (Z.to_nat off)) as [b Hb].
    { unfold py_len in Hl. lia. }
    unfold py_index. rewrite py_pos_in by lia. rewrite Hb. autorewrite with py_run. cbn.
    unfold _byte. pose proof (Z_of_byte_range b). by rewrite Z.mod_small.
  - rewrite lookup_ge_None_2; [done|]. unfold py_len in Hl. lia.
Qed.

(** The bytes of a sub-slice are those of the slice. *)
Lemma slice_data_take kind s st :
  slice_in kind s st →
  slice_data kind s st =
  take (Z.to_nat s.(sl_len)) (drop (Z.to_nat s.(sl_bytes)) (region_of kind st)).
Proof. intros (H1 & H2 & _). by apply py_slice_nonneg. Qed.

Lemma sub_slice_ok kind s off n st :
  slice_in kind s st → 0 <= off → 0 <= n → off + n <= s.(sl_len) →
  ∃ t, sub_slice s off n = Ok t ∧ slice_in kind t st ∧ t.(sl_len) = n ∧
    slice_data kind t st = take (Z.to_nat n) (drop (Z.to_nat off) (slice_data kind s st)).
Proof.
  intros Hs Ho Hn Hle. pose proof Hs as (H1 & H2 & H3 & H4).
  unfold sub_slice, checked_slice, region_valid_range.
  rewrite !(proj2 (Z.leb_le _ _)) by lia. cbn [andb].
  exists (mkSlice (s.(sl_bytes) + off) n).
  assert (slice_in kind (mkSlice (s.(sl_bytes) + off) n) st) as Ht by (split_and!; cbn; lia).
  split_and!; [done..|]. rewrite !slice_data_take by done. cbn [sl_bytes sl_len].
  rewrite skipn_firstn_comm, take_take, drop_drop. f_equal; [lia|]. f_equal. lia.
Qed.

Lemma slice_suffix_ok kind s off st :
  slice_in kind s st → 0 <= off <= s.(sl_len) →
  ∃ t, slice_suffix s off = Ok t ∧ slice_in kind t st ∧ t.(sl_len) = s.(sl_len) - off ∧
    slice_data kind t st = drop (Z.to_nat off) (slice_data kind s st).
Proof.
  intros Hs Ho. destruct (sub_slice_ok kind s off (s.(sl_len) - off) st) as (t & E & Ht & Hl & Hd);
    [done|lia..|]. exists t. split_and!; [exact E|done..|].
  rewrite Hd. apply take_ge. rewrite length_drop.
  pose proof (slice_data_length _ _ _ Hs) as Hlen. unfold py_len in Hlen. lia.
Qed.

(** Loading [n] bytes that a slice holds. *)
Lemma slice_load_n_run kind s off n st :
  slice_in kind s st → 0 <= off → 0 <= n <= 32 → off + n <= s.(sl_len) →
  slice_load_n (_load_word kind) s off n st =
  (Ok (from_be (take (Z.to_nat n) (drop (Z.to_nat off) (slice_data kind s st)))), st).
Proof.
  intros Hs Ho Hn Hle. pose proof (slice_data_length _ _ _ Hs) as Hl.
  set (d := take _ _).
  assert (py_len d = n) as Hd.
  { subst d. unfold py_len in *. rewrite length_take, length_drop. lia. }
  assert (word (from_be d) = Ok (from_be d)) as Hw.
  { pose proof (from_be_bound d) as B. rewrite Hd in B. apply BoundedUint_ok.
    assert (256 ^ n <= 256 ^ 32) by (apply Z.pow_le_mono_r; lia).
    unfold WORD_MODULUS. change (2 ^ 256) with (256 ^ 32). lia. }
  unfold slice_load_n. destruct (Z.ltb_spec off s.(sl_len)).
  - unfold _load_word, _region_bytes. autorewrite with py_run. fold (slice_data kind s st).
    rewrite py_slice_nonneg by lia. fold d. rewrite py_ljust_id by lia. by rewrite Hw.
  - assert (n = 0) as -> by lia. subst d. autorewrite with py_run. by rewrite take_0.
Qed.
