(* ===== verification/Gas.v ===== *)
(** * Gas: the gas schedule

    [evm/gas.py] with [primitives/gas.py] and the gas part of
    [evm/machine.py]: constants, charges that may be unaffordable, state gas,
    memory expansion, storage writes, precompiles and the blob fee. The
    protocol profile of the execution environment is a parameter; a fatal
    error is the exception [SailExit]. *)

From Stdlib Require Import ZArith Lia.
From stdpp Require Import base tactics option list.
From S2P Require Import Prelude PyBytes HostTypes SailRuntime Words ChainConfig Regions RegionAccess.
Local Open Scope Z_scope.

(** ** Types and constants *)

Definition fatal_error {A} : outcome A := Raise SailExit.

Definition gas (v : Z) : outcome Z := BoundedUint 0 U64_MAX v.
Definition gas_cost (v : Z) : outcome Z := BoundedUint 0 U64_MAX v.
Definition gas_constant (v : Z) : outcome Z := BoundedUint 0 45000 v.
Definition state_gas_spill (v : Z) : outcome Z := BoundedUint 0 16777216 v.
Definition excess_blob_gas (v : Z) : outcome Z := BoundedUint 0 2994028288 v.
Definition blake2_rounds (v : Z) : outcome Z := BoundedUint 0 (2 ^ 32 - 1) v.

Definition GAS_ZERO : Z := 0.
Definition GAS_COST_ZERO : Z := 0.
Definition STATE_GAS_ZERO : Z := 0.
Definition STATE_GAS_SPILL_ZERO : Z := 0.
Definition GAS_CONSTANT_ZERO : Z := 0.

Definition GAS_PER_BLOB : Z := Z.shiftl 1 17.
Definition G_zero : Z := 0.
Definition G_jumpdest : Z := 1.
Definition G_base : Z := 2.
Definition G_verylow : Z := 3.
Definition G_low : Z := 5.
Definition G_mid : Z := 8.
Definition G_high : Z := 10.
Definition G_warm_access : Z := 100.
Definition G_cold_sload : Z := 2100.
Definition G_cold_account : Z := 2600.
Definition G_keccak : Z := 30.
Definition G_keccak_word : Z := 6.
Definition G_copy_word : Z := 3.
Definition G_memory : Z := 3.
Definition G_log : Z := 375.
Definition G_logtopic : Z := 375.
Definition G_logdata : Z := 8.
Definition G_exp : Z := 10.
Definition G_expbyte : Z := 50.
Definition G_sset : Z := 20000.
Definition G_sreset : Z := 2900.
Definition R_sclear_pre_london : Z := 15000.
Definition R_sclear_london : Z := 4800.
Definition R_selfdestruct_pre_london : Z := 24000.
Definition G_create : Z := 32000.
Definition G_codedeposit : Z := 200.
Definition G_callvalue : Z := 9000.
Definition G_callstipend : Z := 2300.
Definition G_newaccount : Z := 25000.
Definition G_selfdestruct : Z := 5000.
Definition G_initcode_word : Z := 2.
Definition G_amsterdam_cold_account_access : Z := 3000.
Definition G_amsterdam_cold_storage_access : Z := 3000.
Definition G_amsterdam_storage_write : Z := 10000.
Definition G_amsterdam_account_write : Z := 8000.
Definition G_amsterdam_call_value : Z := 10300.
Definition G_amsterdam_create_access : Z := 11000.
Definition G_amsterdam_state_byte : Z := 1530.
Definition G_amsterdam_state_storage_set : Z := 97920.
Definition G_amsterdam_state_new_account : Z := 183600.
Definition G_amsterdam_state_auth_base : Z := 35190.
Definition R_amsterdam_storage_clear : Z := 12480.
Definition G_sstore_sentry : Z := 2301.
Definition BLS_G1_DISCOUNT : list Z :=
  [1000; 949; 848; 797; 764; 750; 738; 728; 719; 712; 705; 698; 692; 687; 682; 677; 673; 669;
   665; 661; 658; 654; 651; 648; 645; 642; 640; 637; 635; 632; 630; 627; 625; 623; 621; 619;
   617; 615; 613; 611; 609; 608; 606; 604; 603; 601; 599; 598; 596; 595; 593; 592; 591; 589;
   588; 586; 585; 584; 582; 581; 580; 579; 577; 576; 575; 574; 573; 572; 570; 569; 568; 567;
   566; 565; 564; 563; 562; 561; 560; 559; 558; 557; 556; 555; 554; 553; 552; 551; 550; 549;
   548; 547; 547; 546; 545; 544; 543; 542; 541; 540; 540; 539; 538; 537; 536; 536; 535; 534;
   533; 532; 532; 531; 530; 529; 528; 528; 527; 526; 525; 525; 524; 523; 522; 522; 521; 520;
   520; 519].
Definition BLS_G2_DISCOUNT : list Z :=
  [1000; 1000; 923; 884; 855; 832; 812; 796; 782; 770; 759; 749; 740; 732; 724; 717; 711; 704;
   699; 693; 688; 683; 679; 674; 670; 666; 663; 659; 655; 652; 649; 646; 643; 640; 637; 634;
   632; 629; 627; 624; 622; 620; 618; 615; 613; 611; 609; 607; 606; 604; 602; 600; 598; 597;
   595; 593; 592; 590; 589; 587; 586; 584; 583; 582; 580; 579; 578; 576; 575; 574; 573; 571;
   570; 569; 568; 567; 566; 565; 563; 562; 561; 560; 559; 558; 557; 556; 555; 554; 553; 552;
   552; 551; 550; 549; 548; 547; 546; 545; 545; 544; 543; 542; 541; 541; 540; 539; 538; 537;
   537; 536; 535; 535; 534; 533; 532; 532; 531; 530; 530; 529; 528; 528; 527; 526; 526; 525;
   524; 524].

Record GasCharge : Type := mkGasCharge { affordable : bool; cost : Z }.

Definition gas_charge (c : Z) : outcome GasCharge := c ← gas_cost c; Ok (mkGasCharge true c).
Definition GAS_CHARGE_UNAFFORDABLE : GasCharge := mkGasCharge false GAS_COST_ZERO.
Definition unaffordable : outcome GasCharge := Ok GAS_CHARGE_UNAFFORDABLE.

Definition protocol_word (value : Z) : outcome Z := w ← u256 value; word w.

(** ** Blob gas *)

(** The loop of [fake_exponential_word]; [None] when the fuel runs out. *)
Fixpoint fake_exponential_loop (fuel : nat) (denominator numerator scaled_limit : Z)
    (term_index output numerator_accum : Z) : option (outcome Z) :=
  match fuel with
  | O => None
  | S fuel' =>
      if negb (0 <? numerator_accum) then Some (Ok output)
      else if scaled_limit <=? numerator_accum then Some fatal_error
      else
        let next_output := output + numerator_accum in
        if scaled_limit <=? next_output then Some fatal_error
        else
          match sail_ediv_int (numerator_accum * numerator) (denominator * term_index) with
          | Raise e => Some (Raise e)
          | Ok accum =>
              if term_index <? scaled_limit then
                fake_exponential_loop fuel' denominator numerator scaled_limit
                  (term_index + 1) next_output accum
              else Some fatal_error
          end
  end.

(** Enough rounds for the terms to vanish: they shrink by half once the index
    passes twice the quotient, and start below the limit. *)
Definition fake_exponential_fuel (denominator numerator : Z) : nat :=
  Z.to_nat (2 * (numerator / denominator) + Z.log2 denominator + 270).

Definition fake_exponential_word (schedule : BlobScheduleFields) (numerator : Z) : outcome Z :=
  let denominator := schedule.(base_fee_update_fraction) in
  let scaled_limit := denominator * Z.shiftl 1 256 in
  output ← default (Raise (RuntimeError "out of fuel"))
    (fake_exponential_loop (fake_exponential_fuel denominator numerator) denominator numerator
       scaled_limit 1 0 denominator);
  price ← sail_ediv_int output denominator;
  if price <? Z.shiftl 1 256 then protocol_word price else fatal_error.

Definition blob_base_fee (fork : Z) (schedule : BlobScheduleFields) (limit excess : Z) :
    outcome Z :=
  if (Cancun <=? fork) && (excess <=? limit) then fake_exponential_word schedule excess
  else fatal_error.

Definition block_blob_gas_add (maximum_count accumulated transaction : Z) : outcome Z :=
  let maximum := Z.shiftl 1 17 * maximum_count in
  if (accumulated <=? maximum) && (transaction <=? maximum - accumulated)
  then Ok (accumulated + transaction) else fatal_error.

Definition next_excess_blob_gas (profile : ProtocolProfileFields)
    (parent_excess_blob_gas parent_blob_gas_used parent_base_fee_per_gas : Z) : outcome Z :=
  let schedule := profile.(pp_blob_schedule) in
  let limit := profile.(excess_blob_gas_limit) in
  let parent_blob_gas := parent_excess_blob_gas + parent_blob_gas_used in
  let target_blob_gas := Z.shiftl 1 17 * schedule.(bs_target) in
  if parent_blob_gas <? target_blob_gas then excess_blob_gas 0
  else
    parent_blob_base_fee ← blob_base_fee profile.(fork) schedule limit parent_excess_blob_gas;
    if (Osaka <=? profile.(fork)) && (16 * parent_blob_base_fee <? parent_base_fee_per_gas) then
      let maximum := schedule.(bs_max) in
      if maximum =? 0 then fatal_error
      else
        share ← sail_ediv_int (parent_blob_gas_used * (maximum - schedule.(bs_target))) maximum;
        let next := parent_excess_blob_gas + share in
        if next <=? limit then excess_blob_gas next else fatal_error
    else
      let next := parent_blob_gas - target_blob_gas in
      if next <=? limit then excess_blob_gas next else fatal_error.

(** ** State gas *)

Definition conserved_gas_add (available credit : Z) : outcome Z :=
  if credit <=? (Z.shiftl 1 64 - 1) - available then gas (available + credit) else fatal_error.

Definition state_gas_spill_room (left : Z) : Z := Z.shiftl 1 24 - left.

Definition state_gas_spill_add (left right : Z) : outcome Z :=
  if right <=? state_gas_spill_room left then Ok (left + right) else fatal_error.

(** Whether the charge failed, and the gas, state gas and spill left. *)
Definition charge_state_gas (g remaining spilled amount : Z) : outcome (bool * Z * Z * Z) :=
  if amount =? 0 then Ok (false, g, remaining, spilled)
  else if amount <=? remaining then Ok (false, g, remaining - amount, spilled)
  else
    let remainder := amount - remaining in
    if remainder <=? g then
      spilled' ← state_gas_spill_add spilled remainder;
      Ok (false, g - remainder, STATE_GAS_ZERO, spilled')
    else Ok (true, g, remaining, spilled).

Definition credit_state_gas_refund (g remaining spilled amount : Z) : outcome (Z * Z * Z) :=
  if amount <=? spilled then
    if negb (amount =? 0) then
      g' ← conserved_gas_add g amount; Ok (g', remaining, spilled - amount)
    else Ok (g, remaining, spilled)
  else
    credited ← (if negb (spilled =? 0) then conserved_gas_add g spilled else Ok g);
    let to_state := amount - spilled in
    remaining' ← conserved_gas_add remaining to_state;
    Ok (credited, remaining', STATE_GAS_SPILL_ZERO).

Definition return_child_state_gas (parent_remaining parent_spilled child_remaining child_spilled : Z) :
    outcome (Z * Z) :=
  let state_room := (Z.shiftl 1 64 - 1) - parent_remaining in
  if child_remaining <=? state_room then
    spilled ← state_gas_spill_add parent_spilled child_spilled;
    Ok (parent_remaining + child_remaining, spilled)
  else fatal_error.

Definition refund_gas (g amount : Z) : outcome Z := v ← conserved_gas_add g amount; gas v.

Definition gas_sub (left right : Z) : outcome Z :=
  if right <=? left then gas (left - right) else gas GAS_ZERO.

(** ** Memory *)

Definition memory_word_count (byte_len : Z) : outcome Z :=
  quotient ← sail_tdiv_int byte_len 32; remainder ← sail_tmod_int byte_len 32;
  Ok (if remainder =? 0 then quotient else quotient + 1).

Definition memory_word_count_word (byte_len : Z) : outcome Z :=
  word_bytes ← u256 32;
  quotient ← word_div_word byte_len word_bytes;
  remainder ← word_mod_word byte_len word_bytes;
  if remainder =? WORD_ZERO then word quotient
  else v ← word_add_word quotient WORD_ONE; word v.

Definition mem_cost (words : Z) : outcome Z :=
  quadratic ← sail_ediv_int (words * words) 512; Ok (G_memory * words + quadratic).

Definition memory_requested_height (start size : Z) : outcome Z :=
  if size =? 0 then Uint 0
  else if start <=? Z.shiftl 1 32 - 1 then
    if size <=? (Z.shiftl 1 32 - 1) - start then Uint (start + size)
    else Uint ((Z.shiftl 1 32 - 1) + 1)
  else Uint ((Z.shiftl 1 32 - 1) + 1).

Record MemoryAccess : Type := mkMemoryAccess {
  ma_off : Z;
  ma_len : Z;
  requested_height : Z;
}.
Definition EMPTY_MEMORY_ACCESS : MemoryAccess := mkMemoryAccess 0 0 0.

(** [memory_access_relation] *)
Definition memory_access_relation (off len required : Z) : bool :=
  region_valid_range off len && ((0 <=? required) &&
  (((len =? 0) && ((off =? 0) && (required =? 0))) || ((0 <? len) && (required =? off + len)))).

Definition memory_access (start size : Z) : outcome MemoryAccess :=
  if size =? 0 then Ok EMPTY_MEMORY_ACCESS
  else if start <=? Z.shiftl 1 32 - 1 then
    if size <=? (Z.shiftl 1 32 - 1) - start then
      range ← checked_slice start size;
      validated (memory_access_relation start size (start + size))
        (mkMemoryAccess range.(sl_bytes) range.(sl_len) (start + size))
    else fatal_error
  else fatal_error.

Definition memory_high_water (height : Z) : outcome Z := code_length height.

Definition memory_expansion_gas_cost (mem requested available : Z) : outcome GasCharge :=
  if requested <=? Z.shiftl 1 32 - 1 then
    new_words ← memory_word_count requested;
    old_size ← memory_high_water mem;
    old_words ← memory_word_count old_size;
    if new_words <=? old_words then gas_charge GAS_COST_ZERO
    else
      old_cost ← mem_cost old_words;
      new_cost ← mem_cost new_words;
      if old_cost <=? new_cost then
        let exact_cost := new_cost - old_cost in
        if exact_cost <=? available then gas_charge exact_cost else unaffordable
      else gas_charge GAS_COST_ZERO
  else unaffordable.
