(* ===== verification/GasSchedule.v ===== *)
(** * GasSchedule: costs that depend on the fork, and precompile gas

    The rest of [evm/gas.py]: access and creation costs, code deployment,
    storage writes with their refunds, scaled costs, and the gas of each
    precompile. [profile] is [environment.k_execution_profile.protocol]. *)

From Stdlib Require Import ZArith Lia Strings.Byte.
From stdpp Require Import base tactics option list.
From S2P Require Import Prelude PyBytes HostTypes SailRuntime Words ChainConfig Regions RegionAccess Gas.
Local Open Scope Z_scope.

(** ** Scaled costs *)

Definition word_scaled_gas_cost (per_unit units available : Z) : outcome GasCharge :=
  if (per_unit =? 0) || (units =? 0) then gas_charge GAS_COST_ZERO
  else if units <=? available then
    let exact_cost := per_unit * units in
    if exact_cost <=? available then gas_charge exact_cost else unaffordable
  else unaffordable.

(** A fixed part, then a part scaled by units that fits in what is left. *)
Definition fixed_and_scaled (fixed per_unit units available : Z) : outcome GasCharge :=
  let after_fixed := available - fixed in
  variable ← word_scaled_gas_cost per_unit units after_fixed;
  if (variable : GasCharge).(affordable) then
    let exact_cost := fixed + variable.(cost) in
    if exact_cost <=? available then gas_charge exact_cost else unaffordable
  else unaffordable.

Definition memory_word_gas_cost (base per_word size available : Z) : outcome GasCharge :=
  if available <? base then unaffordable
  else words ← memory_word_count_word size; fixed_and_scaled base per_word words available.

Definition keccak_gas_cost (size available : Z) : outcome GasCharge :=
  memory_word_gas_cost G_keccak G_keccak_word size available.
Definition copy_gas_cost (size available : Z) : outcome GasCharge :=
  memory_word_gas_cost GAS_CONSTANT_ZERO G_copy_word size available.

Definition log_gas_cost (num_topics size available : Z) : outcome GasCharge :=
  let fixed_cost := G_log + G_logtopic * num_topics in
  if available <? fixed_cost then unaffordable
  else fixed_and_scaled fixed_cost G_logdata size available.

Definition exp_gas (exponent : Z) : outcome Z :=
  exponent_bytes ← word_byte_length exponent; gas_cost (G_expbyte * exponent_bytes + G_exp).

Definition call_gas_cap_word (available requested : Z) : outcome Z :=
  retained ← sail_ediv_int available 64;
  all_but_64th ← gas_sub available retained;
  gas (if requested <? all_but_64th then requested else all_but_64th).

Definition linear_gas (base per_unit units available : Z) : outcome GasCharge :=
  let exact_cost := per_unit * units + base in
  if available <? exact_cost then unaffordable else gas_charge exact_cost.

Definition fixed_precompile_gas (c available : Z) : outcome GasCharge :=
  if c <=? available then gas_charge c else unaffordable.

Definition bls_discount (v : Z) : outcome Z := BoundedUint 0 (2 ^ 16 - 1) v.

Definition bls_msm_gas (table : list Z) (base maxd k available : Z) : outcome GasCharge :=
  if k =? 0 then gas_charge GAS_COST_ZERO
  else
    discount ← (if k <? 128
                then d ← sail_vector_access table (128 - k) false; bls_discount d
                else Ok maxd);
    let coefficient := base * discount in
    whole ← sail_ediv_int k 1000; remainder ← sail_tmod_int k 1000;
    let whole_product := coefficient * whole in
    if available <? whole_product then unaffordable
    else
      tail ← sail_ediv_int (coefficient * remainder) 1000;
      let total := whole_product + tail in
      if total <=? available then gas_charge total else unaffordable.

(** ** Reading precompile input *)

(** The loop body of [pc_word]: the value so far with the byte at an offset
    appended, within [count] bytes from [start]. *)
Definition pc_word_step (input : CalldataSlice) (start count input_length value offset : Z) :
    M HostState Z :=
  if offset <? count then
    next_byte ← (if start <? input_length then
                   if offset <? input_length - start
                   then calldata_slice_byte input (start + offset) else mret 0
                 else mret 0);
    shifted ← of_outcome (word_shift_left value 8);
    of_outcome (word_add_word shifted next_byte)
  else mret value.

Fixpoint pc_word_loop (input : CalldataSlice) (start count input_length value : Z)
    (offsets : list Z) : M HostState Z :=
  match offsets with
  | [] => mret value
  | offset :: offsets' =>
      value ← pc_word_step input start count input_length value offset;
      pc_word_loop input start count input_length value offsets'
  end.

Definition pc_word (input : CalldataSlice) (start byte_count : Z) : M HostState Z :=
  input_length ← of_outcome (calldata_slice_length input);
  offsets ← of_outcome (sail_range 0 31 1 true);
  value ← pc_word_loop input start byte_count input_length 0 offsets;
  of_outcome (word value).

Definition pc_word_after_declared_field (input : CalldataSlice)
    (prefix declared_length byte_count : Z) : M HostState Z :=
  input_length ← of_outcome (calldata_slice_length input);
  if prefix <? input_length then
    if declared_length <? input_length - prefix
    then pc_word input (prefix + declared_length) byte_count else mret 0
  else mret 0.

Definition pc_blake2_rounds (input : CalldataSlice) : M HostState Z :=
  rounds_word ← pc_word input 0 4;
  r ← of_outcome (sail_tmod_int rounds_word (Z.shiftl 1 32)); of_outcome (blake2_rounds r).

(** ** Modular exponentiation *)

Definition minimum_modexp_gas (osaka : bool) : Z := if osaka then 500 else 200.
(** The largest product whose cost is affordable. *)
Definition product_limit (osaka : bool) (available : Z) : Z :=
  if osaka then available else 3 * available + 2.

(** The number of 8-byte words of the longer operand. *)
Definition modexp_words (maxlen : Z) : outcome Z :=
  whole_words ← sail_ediv_int maxlen 8; partial_word_bytes ← sail_tmod_int maxlen 8;
  Ok (whole_words + (if partial_word_bytes =? 0 then 0 else 1)).

(** The multiplication complexity; [None] when it alone is unaffordable. *)
Definition modexp_mult (osaka : bool) (available maxlen : Z) : outcome (option Z) :=
  words ← modexp_words maxlen;
  let limit := product_limit osaka available in
  if limit <? words then Ok None
  else
    let words_squared := words * words in
    if limit <? words_squared then Ok None
    else
      mult ←
        (if osaka && (maxlen <=? 32) then Ok (Some 16)
         else if osaka then
           doubled_limit ← sail_ediv_int available 2;
           Ok (if doubled_limit <? words_squared then None else Some (2 * words_squared))
         else Ok (Some words_squared));
      Ok (m ← (mult : option Z); if limit <? m then None else Some m).

(** The iteration count for an exponent of [el] bytes whose head has
    [head_bits] bits; [None] when it alone is unaffordable. *)
Definition modexp_iterations (osaka : bool) (available el head_bits : Z) : outcome (option Z) :=
  if el <=? 32 then
    Ok (Some (if head_bits =? 0 then 1
              else let count := head_bits - 1 in if count =? 0 then 1 else count))
  else
    let high_bits := if negb (head_bits =? 0) then head_bits - 1 else 0 in
    let extra := el - 32 in
    count ←
      (if osaka then
         extra_limit ← sail_ediv_int available 16;
         maximum_extra ← u256 992;
         let osaka_extra := if word_greater_than_word extra maximum_extra then 992 else extra in
         Ok (if extra_limit <? osaka_extra then None else Some (16 * osaka_extra + high_bits))
       else
         extra_limit ← sail_ediv_int (3 * available + 2) 8;
         Ok (if extra_limit <? extra then None else Some (8 * extra + high_bits)));
    Ok ((λ c, if c =? 0 then 1 else c) <$> (count : option Z)).

(** The charge for a complexity and an iteration count. *)
Definition modexp_charge (osaka : bool) (available mult iterations : Z) : outcome GasCharge :=
  if iterations =? 0 then unaffordable
  else
    let product := mult * iterations in
    if product_limit osaka available <? product then unaffordable
    else
      calculated ← (if osaka then Ok product else sail_ediv_int product 3);
      let c := if calculated <? minimum_modexp_gas osaka then minimum_modexp_gas osaka
               else calculated in
      if c <=? available then gas_charge c else unaffordable.

Section profile.
Context (profile : ProtocolProfileFields).

Definition modexp_gas (input : CalldataSlice) (available : Z) : M HostState GasCharge :=
  bl ← pc_word input 0 32; el ← pc_word input 32 32; ml ← pc_word input 64 32;
  let osaka := Osaka <=? profile.(fork) in
  if osaka && ((1024 <? bl) || ((1024 <? el) || (1024 <? ml))) then of_outcome unaffordable
  else if available <? minimum_modexp_gas osaka then of_outcome unaffordable
  else if negb osaka && (word_is_zero bl && word_is_zero ml) then of_outcome (gas_charge 200)
  else
    let maxlen := if ml <? bl then bl else ml in
    mult ← of_outcome (modexp_mult osaka available maxlen);
    match (mult : option Z) with
    | None => of_outcome unaffordable
    | Some mult =>
        exponent_head ← pc_word_after_declared_field input 96 bl (if el <=? 32 then el else 32);
        head_bits ← of_outcome (word_bit_length exponent_head);
        iterations ← of_outcome (modexp_iterations osaka available el head_bits);
        match (iterations : option Z) with
        | None => of_outcome unaffordable
        | Some iterations => of_outcome (modexp_charge osaka available mult iterations)
        end
    end.

(** [PrecompileId] *)
Inductive PrecompileId : Type :=
| NotPrecompile | Ecrecover | Sha256 | Ripemd160 | Identity | Modexp | Bn254Add | Bn254Mul
| Bn254Pairing | Blake2f | KzgPointEvaluation | BlsG1Add | BlsG1Msm | BlsG2Add | BlsG2Msm
| BlsPairing | BlsMapFpToG1 | BlsMapFp2ToG2 | P256Verify.

Definition precompile_gas (num : PrecompileId) (input : CalldataSlice) (available : Z) :
    M HostState GasCharge :=
  input_length ← of_outcome (calldata_slice_length input);
  words ← of_outcome (memory_word_count input_length);
  let units n (f : Z → outcome GasCharge) := of_outcome (sail_ediv_int input_length n ≫= f) in
  match num with
  | NotPrecompile => of_outcome unaffordable
  | Ecrecover => of_outcome (fixed_precompile_gas 3000 available)
  | Sha256 => of_outcome (linear_gas 60 12 words available)
  | Ripemd160 => of_outcome (linear_gas 600 120 words available)
  | Identity => of_outcome (linear_gas 15 3 words available)
  | Modexp => modexp_gas input available
  | Bn254Add => of_outcome (fixed_precompile_gas 150 available)
  | Bn254Mul => of_outcome (fixed_precompile_gas 6000 available)
  | Bn254Pairing => units 192 (λ n, linear_gas 45000 34000 n available)
  | Blake2f => rounds ← pc_blake2_rounds input; of_outcome (fixed_precompile_gas rounds available)
  | KzgPointEvaluation => of_outcome (fixed_precompile_gas 50000 available)
  | BlsG1Add => of_outcome (fixed_precompile_gas 375 available)
  | BlsG1Msm => units 160 (λ n, bls_msm_gas BLS_G1_DISCOUNT 12000 519 n available)
  | BlsG2Add => of_outcome (fixed_precompile_gas 600 available)
  | BlsG2Msm => units 288 (λ n, bls_msm_gas BLS_G2_DISCOUNT 22500 524 n available)
  | BlsPairing => units 384 (λ n, linear_gas 37700 32600 n available)
  | BlsMapFpToG1 => of_outcome (fixed_precompile_gas 5500 available)
  | BlsMapFp2ToG2 => of_outcome (fixed_precompile_gas 23800 available)
  | P256Verify => of_outcome (fixed_precompile_gas 6900 available)
  end.

(** ** Access, creation and deployment *)

Definition amsterdam : bool := Amsterdam <=? profile.(fork).

Definition deployed_code_size_allowed (size : Z) : bool :=
  size <=? profile.(deployed_code_size_limit).

Definition initcode_size_allowed (size : Z) : bool :=
  let limit := profile.(initcode_size_limit) in (limit =? 0) || (size <=? limit).

Definition sstore_clear_refund : outcome Z :=
  gas_constant (if London <=? profile.(fork) then R_sclear_london else R_sclear_pre_london).

Definition account_cost (warm : bool) : outcome Z :=
  gas_constant (if warm then G_warm_access
                else if amsterdam then G_amsterdam_cold_account_access else G_cold_account).

Definition external_code_read_cost : outcome Z :=
  gas_constant (if amsterdam then G_warm_access else G_zero).

Definition sload_cost (warm : bool) : outcome Z :=
  gas_constant (if warm then G_warm_access
                else if amsterdam then G_amsterdam_cold_storage_access else G_cold_sload).

Definition call_value_cost : outcome Z :=
  gas_constant (if amsterdam then G_amsterdam_call_value else G_callvalue).

Definition create_access_cost : outcome Z :=
  gas_constant (if amsterdam then G_amsterdam_create_access else G_create).

Definition code_deployment_execution_cost (byte_len available : Z) : outcome GasCharge :=
  if amsterdam then
    if byte_len <=? profile.(deployed_code_size_limit) then
      words ← memory_word_count byte_len;
      limit ← sail_ediv_int available G_keccak_word;
      if words <=? limit then gas_charge (G_keccak_word * words) else unaffordable
    else unaffordable
  else
    limit ← sail_ediv_int available G_codedeposit;
    if byte_len <=? limit then gas_charge (G_codedeposit * byte_len) else unaffordable.

Definition code_deployment_state_cost (byte_len : Z) : outcome Z :=
  if amsterdam then
    if byte_len <=? profile.(deployed_code_size_limit)
    then gas_cost (G_amsterdam_state_byte * byte_len) else fatal_error
  else gas_cost GAS_COST_ZERO.

Definition transaction_initcode_gas (byte_len : Z) : outcome Z :=
  if Shanghai <=? profile.(fork) then
    words ← memory_word_count byte_len; Uint (words + words)
  else Uint 0.

(** ** Storage writes *)

Record SstoreCosts : Type := mkSstoreCosts {
  execution : Z;
  refund : Z;
  state_charge : Z;
  state_credit : Z;
}.

(** The validator of [SstoreCosts]. *)
Definition sstore_result (execution refund state_charge state_credit : Z) : outcome SstoreCosts :=
  e ← gas_cost execution; c ← gas_cost state_charge; d ← state_gas_spill state_credit;
  validated ((- (199 * (2 ^ 64 - 1)) <=? refund) && (refund <=? 199 * (2 ^ 64 - 1)))
    (mkSstoreCosts e refund c d).

Definition amsterdam_storage_access_cost (cold : bool) : outcome Z :=
  gas_constant (if cold then G_amsterdam_cold_storage_access else G_warm_access).

Definition sstore_sentry_cost (cold : bool) : outcome Z :=
  access_cost ← amsterdam_storage_access_cost cold;
  gas (if access_cost <? G_sstore_sentry then G_sstore_sentry else access_cost).

(** The refund of a write that changes the slot, before Amsterdam. *)
Definition legacy_refund (original current new_value clear_refund : Z) : Z :=
  if current =? new_value then 0
  else if original =? current then
    if negb (word_is_zero original) && word_is_zero new_value then clear_refund else 0
  else
    let clear_delta :=
      if word_is_zero original then 0
      else (if word_is_zero current then 0 - clear_refund else 0) +
           (if word_is_zero new_value then clear_refund else 0) in
    let reset_delta :=
      if original =? new_value then
        if word_is_zero original then G_sset - G_warm_access else G_sreset - G_warm_access
      else 0 in
    clear_delta + reset_delta.

Definition legacy_sstore_costs (original current new_value : Z) (cold : bool) :
    outcome SstoreCosts :=
  let cold_cost := if cold then G_cold_sload else GAS_CONSTANT_ZERO in
  clear_refund ← sstore_clear_refund;
  let clean_change := negb (current =? new_value) && (original =? current) in
  let base := if clean_change then if word_is_zero original then G_sset else G_sreset
              else G_warm_access in
  sstore_result (base + cold_cost) (legacy_refund original current new_value clear_refund) 0 0.

Definition amsterdam_sstore_costs (original current new_value : Z) (cold : bool) :
    outcome SstoreCosts :=
  let changed := negb (current =? new_value) in
  let clean_change := (original =? current) && changed in
  access ← amsterdam_storage_access_cost cold;
  let original_is_nonzero := negb (word_is_zero original) in
  let current_is_nonzero := negb (word_is_zero current) in
  let execution := if clean_change then access + G_amsterdam_storage_write else access in
  let clear_delta :=
    if changed && (original_is_nonzero && (current_is_nonzero && word_is_zero new_value))
    then R_amsterdam_storage_clear
    else if changed && (original_is_nonzero && word_is_zero current)
    then 0 - R_amsterdam_storage_clear else 0 in
  let restore_delta :=
    if changed && (original =? new_value) then G_amsterdam_storage_write else 0 in
  let state_charge := if clean_change && word_is_zero original
                      then G_amsterdam_state_storage_set else GAS_COST_ZERO in
  let state_credit := if changed && ((original =? new_value) && word_is_zero original)
                      then G_amsterdam_state_storage_set else 0 in
  sstore_result execution (clear_delta + restore_delta) state_charge state_credit.

Definition sstore_costs (original current new_value : Z) (cold : bool) : outcome SstoreCosts :=
  if amsterdam then amsterdam_sstore_costs original current new_value cold
  else legacy_sstore_costs original current new_value cold.
End profile.
