(* ===== verification/GasTheorems.v ===== *)
(** * GasTheorems: the gas schedule against its closed forms

    The functions of [Gas] and [GasSchedule] avoid large products by testing
    the parts of a cost against what is available. Here each of them is shown
    to charge exactly the cost of its closed form: memory expansion, scaled
    costs, the series of the blob base fee, and the conservation of state gas
    and of storage refunds over sequences of operations. *)
From Stdlib Require Import ZArith Lia.
From stdpp Require Import base tactics option list.
From S2P Require Import Prelude PyBytes SailRuntime HostTypes Words WordTheorems WordBits ChainConfig Regions RegionAccess Gas GasSchedule.
Local Open Scope Z_scope.

(** ** Charges *)

(** A value of the type [gas]. *)
Definition is_gas (v : Z) : Prop := 0 <= v <= U64_MAX.

(** The charge of an exact cost: made when it is affordable. *)
Definition charge_of (exact available : Z) : GasCharge :=
  if exact <=? available then mkGasCharge true exact else GAS_CHARGE_UNAFFORDABLE.

Lemma gas_charge_ok c : is_gas c → gas_charge c = Ok (mkGasCharge true c).
Proof. intros H. unfold gas_charge, gas_cost. by rewrite BoundedUint_ok. Qed.

Lemma charge_affordable c available :
  is_gas available → 0 <= c <= available → gas_charge c = Ok (charge_of c available).
Proof.
  intros Ha Hc. unfold is_gas in *. rewrite gas_charge_ok by (unfold is_gas; lia).
  unfold charge_of. by rewrite (proj2 (Z.leb_le _ _)) by lia.
Qed.

Lemma charge_unaffordable c available :
  available < c → unaffordable = Ok (charge_of c available).
Proof. intros H. unfold charge_of. by rewrite (proj2 (Z.leb_gt _ _)). Qed.

(** The test every charge ends with. *)
Lemma charge_tested c available :
  is_gas available → 0 <= c →
  (if c <=? available then gas_charge c else unaffordable) = Ok (charge_of c available).
Proof.
  intros Ha Hc. destruct (Z.leb_spec c available).
  - by apply charge_affordable.
  - by apply charge_unaffordable.
Qed.

Lemma charge_tested' c available :
  is_gas available → 0 <= c →
  (if available <? c then unaffordable else gas_charge c) = Ok (charge_of c available).
Proof.
  intros Ha Hc. destruct (Z.ltb_spec available c).
  - by apply charge_unaffordable.
  - apply charge_affordable; [done|lia].
Qed.

#[local] Hint Extern 1 (_ <= _) => unfold is_gas, U64_MAX in *; lia : core.

(** ** Words of memory *)

(** The number of 32-byte words that cover a number of bytes. *)
Definition words_of (n : Z) : Z := (n + 31) / 32.

Lemma words_of_rem n : 0 <= n → (if n mod 32 =? 0 then n / 32 else n / 32 + 1) = words_of n.
Proof.
  intros Hn. unfold words_of. pose proof (Z.div_mod n 32). pose proof (Z.mod_pos_bound n 32).
  destruct (Z.eqb_spec (n mod 32) 0).
  - apply (Z.div_unique _ _ _ 31); lia.
  - apply (Z.div_unique _ _ _ (n mod 32 - 1)); lia.
Qed.

Lemma memory_word_count_ok n : 0 <= n → memory_word_count n = Ok (words_of n).
Proof.
  intros Hn. unfold memory_word_count.
  rewrite sail_tdiv_ok, sail_tmod_ok by lia. cbn [mbind outcome_bind].
  rewrite Z.quot_div_nonneg, Z.rem_mod_nonneg by lia. f_equal.
  by rewrite <-words_of_rem by done.
Qed.

Lemma words_of_nonneg n : 0 <= n → 0 <= words_of n.
Proof. intros. unfold words_of. apply Z.div_pos; lia. Qed.

Lemma words_of_le n m : n <= m → words_of n <= words_of m.
Proof. intros. unfold words_of. apply Z.div_le_mono; lia. Qed.

(** The words function computes on 256-bit words: it is exact there too. *)
Lemma memory_word_count_word_ok n :
  is_word n → memory_word_count_word n = Ok (words_of n) ∧ is_word (words_of n).
Proof.
  intros Hn. assert (is_word (words_of n)) as Hw.
  { unfold is_word in *. split; [apply words_of_nonneg; lia|].
    unfold words_of. apply Z.div_lt_upper_bound; [done|].
    assert (32 <= WORD_MODULUS) by done. lia. }
  split; [|done]. unfold memory_word_count_word, u256, word_div_word, word_mod_word.
  rewrite (word_ok 32) by (vm_compute; intuition congruence). cbn [mbind outcome_bind Z.eqb].
  unfold is_word in *. rewrite sail_tdiv_ok, sail_tmod_ok by lia. cbn [mbind outcome_bind].
  rewrite Z.quot_div_nonneg, Z.rem_mod_nonneg by lia.
  pose proof (Z.mod_pos_bound n 32). pose proof (Z.div_pos n 32). pose proof (Z.div_mod n 32).
  unfold u256. rewrite !word_ok by (unfold is_word; lia). cbn [mbind outcome_bind].
  pose proof (words_of_rem n). unfold WORD_ZERO, WORD_ONE in *.
  destruct (Z.eqb_spec (n mod 32) 0); rewrite <-H2 in * by lia.
  - apply word_ok. unfold is_word. lia.
  - unfold word_add_word. rewrite sail_tmod_ok by done. cbn [mbind outcome_bind].
    rewrite Z.rem_small by lia. unfold u256.
    rewrite word_ok by (unfold is_word; lia). cbn [mbind outcome_bind]. by apply word_ok.
Qed.

(** ** Memory expansion *)

(** The cost of a memory of a number of words. *)
Definition mem_cost_exact (words : Z) : Z := 3 * words + words * words / 512.

Lemma mem_cost_ok w : mem_cost w = Ok (mem_cost_exact w).
Proof. unfold mem_cost. by rewrite sail_ediv_pos. Qed.

Lemma mem_cost_mono w w' : 0 <= w <= w' → mem_cost_exact w <= mem_cost_exact w'.
Proof.
  intros H. unfold mem_cost_exact. pose proof (Z.div_le_mono (w * w) (w' * w') 512). nia.
Qed.

(** The cost of growing a memory from one height to another. *)
Definition expansion_cost (height requested : Z) : Z :=
  mem_cost_exact (words_of (height `max` requested)) - mem_cost_exact (words_of height).

(** Two expansions cost what the larger one costs alone, in either order. *)
Lemma expansion_cost_trans h a b :
  expansion_cost h a + expansion_cost (h `max` a) b = expansion_cost h (a `max` b).
Proof. unfold expansion_cost. rewrite Z.max_assoc. lia. Qed.

(** C29: Expanding memory charges exactly the difference of the costs of the two
    sizes when it is affordable and nothing otherwise, an access past the last
    addressable byte is never affordable, and a sequence of accesses costs what
    its highest access costs. *)
Theorem memory_expansion_exact (mem requested available : Z) :
  0 <= mem → 0 <= requested → is_gas available →
  memory_expansion_gas_cost mem requested available =
    Ok (if requested <? 2 ^ 32 then charge_of (expansion_cost mem requested) available
        else GAS_CHARGE_UNAFFORDABLE) ∧
  0 <= expansion_cost mem requested ∧
  ∀ next, expansion_cost mem requested + expansion_cost (mem `max` requested) next =
          expansion_cost mem (requested `max` next).
Proof.
  intros Hm Hr Ha. assert (0 <= expansion_cost mem requested) as Hc.
  { unfold expansion_cost.
    pose proof (mem_cost_mono (words_of mem) (words_of (mem `max` requested))).
    pose proof (words_of_nonneg mem). pose proof (words_of_le mem (mem `max` requested)). lia. }
  split; [|split; [done|intros; apply expansion_cost_trans]].
  unfold memory_expansion_gas_cost.
  change (Z.shiftl 1 32 - 1) with (2 ^ 32 - 1).
  destruct (Z.ltb_spec requested (2 ^ 32)), (Z.leb_spec requested (2 ^ 32 - 1)); try lia; [|done].
  rewrite memory_word_count_ok by done. cbn [mbind outcome_bind].
  unfold memory_high_water, code_length. rewrite Uint_ok by lia. cbn [mbind outcome_bind].
  rewrite memory_word_count_ok by lia. cbn [mbind outcome_bind].
  destruct (Z.leb_spec (words_of requested) (words_of mem)) as [Hle|Hgt].
  - assert (expansion_cost mem requested = 0) as E.
    { unfold expansion_cost. pose proof (words_of_le mem requested).
      destruct (Z.max_spec mem requested) as [[? ->]|[? ->]]; [|lia].
      assert (words_of requested = words_of mem) as -> by lia. lia. }
    rewrite E. apply charge_affordable; [done|]. unfold is_gas in *. unfold GAS_COST_ZERO. lia.
  - rewrite !mem_cost_ok. cbn [mbind outcome_bind].
    assert (expansion_cost mem requested =
            mem_cost_exact (words_of requested) - mem_cost_exact (words_of mem)) as E.
    { unfold expansion_cost. rewrite Z.max_r; [done|].
      destruct (Z.le_gt_cases mem requested); [done|]. pose proof (words_of_le requested mem). lia. }
    rewrite (proj2 (Z.leb_le _ _)) by lia. rewrite <-E. by apply charge_tested.
Qed.

Lemma memory_expansion_exact_witness :
  memory_expansion_gas_cost 64 100 1000 = Ok (mkGasCharge true 6) ∧
  memory_expansion_gas_cost 0 (2 ^ 32) 1000 = Ok GAS_CHARGE_UNAFFORDABLE.
Proof.
  split.
  - refine (proj1 (memory_expansion_exact 64 100 1000 _ _ _)); vm_compute; intuition congruence.
  - refine (proj1 (memory_expansion_exact 0 (2 ^ 32) 1000 _ _ _)); vm_compute; intuition congruence.
Defined.

(** ** Scaled costs *)

Lemma word_scaled_ok per_unit units available :
  is_gas available → 0 <= per_unit → 0 <= units →
  word_scaled_gas_cost per_unit units available = Ok (charge_of (per_unit * units) available).
Proof.
  intros Ha Hp Hu. unfold word_scaled_gas_cost.
  destruct (Z.eqb_spec per_unit 0) as [->|]; cbn [orb].
  { apply charge_affordable; [done|]. unfold is_gas in Ha. unfold GAS_COST_ZERO. lia. }
  destruct (Z.eqb_spec units 0) as [->|].
  { rewrite Z.mul_0_r. apply charge_affordable; [done|]. unfold is_gas in Ha. unfold GAS_COST_ZERO. lia. }
  destruct (Z.leb_spec units available) as [|Hgt].
  - apply charge_tested; [done|nia].
  - apply charge_unaffordable. nia.
Qed.

Lemma fixed_and_scaled_ok fixed per_unit units available :
  is_gas available → 0 <= fixed <= available → 0 <= per_unit → 0 <= units →
  fixed_and_scaled fixed per_unit units available =
    Ok (charge_of (fixed + per_unit * units) available).
Proof.
  intros Ha Hf Hp Hu. unfold fixed_and_scaled.
  rewrite word_scaled_ok by (first [done|unfold is_gas in *; lia]). cbn [mbind outcome_bind].
  assert (charge_of (per_unit * units) (available - fixed) =
          if per_unit * units <=? available - fixed then mkGasCharge true (per_unit * units)
          else GAS_CHARGE_UNAFFORDABLE) as -> by done.
  destruct (Z.leb_spec (per_unit * units) (available - fixed)); cbn.
  - apply charge_tested; [done|nia].
  - apply charge_unaffordable. lia.
Qed.

Lemma memory_word_gas_cost_ok base per_word size available :
  is_gas available → 0 <= base → 0 <= per_word → is_word size →
  memory_word_gas_cost base per_word size available =
    Ok (charge_of (base + per_word * words_of size) available).
Proof.
  intros Ha Hb Hp Hs. unfold memory_word_gas_cost.
  pose proof (words_of_nonneg size). unfold is_word in Hs.
  destruct (Z.ltb_spec available base).
  - apply charge_unaffordable. nia.
  - rewrite (proj1 (memory_word_count_word_ok size Hs)). cbn [mbind outcome_bind].
    apply fixed_and_scaled_ok; [done|lia..].
Qed.

(** The costs that scale with a size are exact for every 256-bit size:
    hashing and copying charge by the word, a log by the topic and the byte,
    exponentiation by the bytes of its exponent, and a cost that is not
    affordable is refused without computing it. *)
Theorem scaled_costs_exact (size num_topics available : Z) :
  is_word size → 0 <= num_topics <= 4 → is_gas available →
  keccak_gas_cost size available = Ok (charge_of (30 + 6 * words_of size) available) ∧
  copy_gas_cost size available = Ok (charge_of (3 * words_of size) available) ∧
  log_gas_cost num_topics size available =
    Ok (charge_of (375 + 375 * num_topics + 8 * size) available) ∧
  exp_gas size = Ok (10 + 50 * ((bit_length size + 7) / 8)).
Proof.
  intros Hs Ht Ha. split_and!.
  - by apply memory_word_gas_cost_ok.
  - unfold copy_gas_cost. by rewrite memory_word_gas_cost_ok.
  - unfold log_gas_cost. unfold is_word in Hs. unfold G_log, G_logtopic, G_logdata.
    destruct (Z.ltb_spec available (375 + 375 * num_topics)).
    + apply charge_unaffordable. lia.
    + apply fixed_and_scaled_ok; [done|lia..].
  - unfold exp_gas, word_byte_length. rewrite word_bit_length_ok by done.
    cbn [mbind outcome_bind]. pose proof (word_bit_length_bound size Hs).
    destruct (Z.eqb_spec (bit_length size) 0) as [->|].
    + rewrite BoundedUint_ok by lia. done.
    + rewrite sail_tdiv_ok, Z.quot_div_nonneg by lia. cbn [mbind outcome_bind].
      assert (0 <= (bit_length size + 7) / 8 <= 32).
      { split; [apply Z.div_pos; lia|].
        apply Z.lt_succ_r. apply Z.div_lt_upper_bound; lia. }
      rewrite BoundedUint_ok by lia. cbn [mbind outcome_bind].
      unfold G_expbyte, G_exp, gas_cost. rewrite BoundedUint_ok by (unfold U64_MAX; lia).
      f_equal. lia.
Qed.

Lemma scaled_costs_exact_witness :
  keccak_gas_cost 100 1000 = Ok (mkGasCharge true 54) ∧
  copy_gas_cost (2 ^ 255) 1000 = Ok GAS_CHARGE_UNAFFORDABLE.
Proof.
  assert (is_word 100 ∧ is_word (2 ^ 255)) as [H1 H2] by (vm_compute; intuition congruence).
  assert (is_gas 1000) as H3 by (vm_compute; intuition congruence).
  assert (0 <= 2 <= 4) as H4 by lia.
  split.
  - exact (proj1 (scaled_costs_exact 100 2 1000 H1 H4 H3)).
  - exact (proj1 (proj2 (scaled_costs_exact (2 ^ 255) 2 1000 H2 H4 H3))).
Defined.

(** ** Calls *)

(** A call is given what it asks for, up to all but one 64th of the gas
    available: the caller keeps at least that 64th, and a larger request gets
    exactly the cap. *)
Theorem call_gas_cap_exact (available requested : Z) :
  is_gas available → 0 <= requested →
  ∃ given, call_gas_cap_word available requested = Ok given ∧
    given = requested `min` (available - available / 64) ∧
    0 <= given ∧ available / 64 <= available - given.
Proof.
  intros Ha Hr. assert (0 <= available / 64 <= available) as Hq.
  { unfold is_gas in Ha. split; [apply Z.div_pos; lia|]. apply Z.div_le_upper_bound; lia. }
  exists (requested `min` (available - available / 64)). split; [|lia].
  unfold call_gas_cap_word. rewrite sail_ediv_pos by done. cbn [mbind outcome_bind].
  unfold is_gas in Ha. unfold gas_sub. rewrite (proj2 (Z.leb_le _ _)) by lia.
  unfold gas. rewrite BoundedUint_ok by lia. cbn [mbind outcome_bind].
  rewrite BoundedUint_ok; [f_equal|]; destruct (Z.ltb_spec requested (available - available / 64)); lia.
Qed.

Lemma call_gas_cap_exact_witness :
  ∃ given, call_gas_cap_word 6400 (2 ^ 200) = Ok given ∧
    given = (2 ^ 200) `min` (6400 - 6400 / 64) ∧ 0 <= given ∧ 6400 / 64 <= 6400 - given.
Proof. apply (call_gas_cap_exact 6400 (2 ^ 200)); vm_compute; intuition congruence. Defined.

(** ** State gas *)

(** The gas of a frame: execution gas, the state gas it has left, and the
    execution gas it has spent on state. *)
Record FrameGas : Type := mkFrameGas { fg_gas : Z; fg_state : Z; fg_spill : Z }.

Inductive state_gas_op : Type :=
| ChargeState (amount : Z)
| CreditState (amount : Z).

(** One operation on the gas of a frame; the amount that took effect. *)
Definition state_gas_step (f : FrameGas) (op : state_gas_op) : outcome (FrameGas * Z) :=
  match op with
  | ChargeState amount =>
      '(failed, g, r, s) ← charge_state_gas f.(fg_gas) f.(fg_state) f.(fg_spill) amount;
      Ok (mkFrameGas g r s, if failed : bool then 0 else - amount)
  | CreditState amount =>
      '(g, r, s) ← credit_state_gas_refund f.(fg_gas) f.(fg_state) f.(fg_spill) amount;
      Ok (mkFrameGas g r s, amount)
  end.

Fixpoint state_gas_run (f : FrameGas) (ops : list state_gas_op) : outcome (FrameGas * Z) :=
  match ops with
  | [] => Ok (f, 0)
  | op :: ops' =>
      '(f, net) ← state_gas_step f op;
      '(f, net') ← state_gas_run f ops'; Ok (f, net + net')
  end.

Definition op_amount (op : state_gas_op) : Z :=
  match op with ChargeState a | CreditState a => a end.

Definition fg_wf (f : FrameGas) : Prop :=
  is_gas f.(fg_gas) ∧ is_gas f.(fg_state) ∧ 0 <= f.(fg_spill) <= 2 ^ 24.

Lemma conserved_gas_add_inv g c v :
  conserved_gas_add g c = Ok v → v = g + c ∧ 0 <= v <= U64_MAX.
Proof.
  unfold conserved_gas_add. destruct (Z.leb_spec c (Z.shiftl 1 64 - 1 - g)); [|done].
  intros Hv. by apply BoundedUint_inv in Hv as [-> ?].
Qed.

Lemma state_gas_step_conserves f op f' net :
  fg_wf f → 0 <= op_amount op → state_gas_step f op = Ok (f', net) →
  fg_wf f' ∧ f'.(fg_gas) + f'.(fg_state) = f.(fg_gas) + f.(fg_state) + net ∧
  f'.(fg_gas) + f'.(fg_spill) = f.(fg_gas) + f.(fg_spill).
Proof.
  destruct f as [g r s]. unfold fg_wf, is_gas. cbn. intros (Hg & Hr & Hs) Ha H.
  destruct op as [amount|amount]; cbn in Ha, H; apply bind_Ok in H as (x & Hx & H).
  - unfold charge_state_gas, state_gas_spill_add, state_gas_spill_room, STATE_GAS_ZERO in Hx.
    change (Z.shiftl 1 24) with (2 ^ 24) in Hx.
    destruct (Z.eqb_spec amount 0); [simplify_eq/=; lia|].
    destruct (Z.leb_spec amount r); [simplify_eq/=; lia|].
    destruct (Z.leb_spec (amount - r) g); [|simplify_eq/=; lia].
    destruct (Z.leb_spec (amount - r) (2 ^ 24 - s)); simplify_eq/=; lia.
  - unfold credit_state_gas_refund, STATE_GAS_SPILL_ZERO in Hx.
    destruct (Z.leb_spec amount s).
    + destruct (Z.eqb_spec amount 0); cbn [negb] in Hx; [simplify_eq/=; lia|].
      apply bind_Ok in Hx as (v & Hv & ?). apply conserved_gas_add_inv in Hv. simplify_eq/=. lia.
    + apply bind_Ok in Hx as (v & Hv & Hx). apply bind_Ok in Hx as (v' & Hv' & ?).
      apply conserved_gas_add_inv in Hv' as [-> ?].
      destruct (Z.eqb_spec s 0); cbn [negb] in Hv.
      * simplify_eq/=. lia.
      * apply conserved_gas_add_inv in Hv. simplify_eq/=. lia.
Qed.

(** C27: State gas is conserved: over any sequence of charges and credits of a
    frame that does not end the program, the execution and state gas together
    change by exactly the amounts that took effect, every unit of execution gas
    spent on state is recorded as spilled so that a credit can give it back,
    and all three stay in range. *)
Theorem state_gas_conserved (f : FrameGas) (ops : list state_gas_op) f' net :
  fg_wf f → Forall (λ op, 0 <= op_amount op) ops → state_gas_run f ops = Ok (f', net) →
  fg_wf f' ∧ f'.(fg_gas) + f'.(fg_state) = f.(fg_gas) + f.(fg_state) + net ∧
  f'.(fg_gas) + f'.(fg_spill) = f.(fg_gas) + f.(fg_spill).
Proof.
  intros Hf Hops. revert f net Hf. induction Hops as [|op ops Hop _ IH]; intros f net Hf H.
  - simplify_eq/=. split; [done|lia].
  - cbn in H. apply bind_Ok in H as ([f1 net1] & H1 & H).
    apply bind_Ok in H as ([f2 net2] & H2 & H). simplify_eq/=.
    apply state_gas_step_conserves in H1 as (Hf1 & ? & ?); [|done..].
    apply IH in H2 as (? & ? & ?); [|done]. split; [done|lia].
Qed.

Lemma state_gas_conserved_witness :
  state_gas_run (mkFrameGas 1000 100 0) [ChargeState 300; CreditState 250; ChargeState 9999]
    = Ok (mkFrameGas 1000 50 0, -50) ∧
  (1000 + 50 = 1000 + 100 + -50 ∧ 1000 + 0 = 1000 + 0).
Proof.
  split; [by vm_compute|].
  apply (state_gas_conserved (mkFrameGas 1000 100 0)
    [ChargeState 300; CreditState 250; ChargeState 9999] (mkFrameGas 1000 50 0) (-50)).
  - vm_compute; intuition congruence.
  - repeat constructor; vm_compute; congruence.
  - by vm_compute.
Defined.

(** * The cost of a sequence of storage writes

    Each write to a slot is charged by its original, current and new value.
    Over all the writes of a transaction to one slot the charges and refunds
    telescope: what is left depends on the original and the final value only,
    and on how each access was made. *)

(** The values written to a slot, each with whether the access was cold. *)
Definition slot_writes : Type := list (Z * bool).

(** The value of the slot after the writes. *)
Definition final_value (current : Z) (ws : slot_writes) : Z :=
  foldl (λ _ '(v, _), v) current ws.

Definition add_costs (a b : SstoreCosts) : SstoreCosts :=
  mkSstoreCosts (execution a + execution b) (refund a + refund b)
    (state_charge a + state_charge b) (state_credit a + state_credit b).

Section profile.
Context (profile : ProtocolProfileFields) (original : Z).

(** The costs of writing each value in turn, summed. *)
Fixpoint write_costs (current : Z) (ws : slot_writes) : outcome SstoreCosts :=
  match ws with
  | [] => Ok (mkSstoreCosts 0 0 0 0)
  | (v, cold) :: ws' =>
      c ← sstore_costs profile original current v cold;
      rest ← write_costs v ws'; Ok (add_costs c rest)
  end.

(** ** The closed forms *)

(** What an access costs whatever it writes. *)
Definition access_price (cold : bool) : Z :=
  if amsterdam profile then if cold then 3000 else 100 else if cold then 2200 else 100.

Definition access_prices (ws : slot_writes) : Z := foldr (λ '(_, cold) n, access_price cold + n) 0 ws.

(** What changing the slot from its original value costs on top. *)
Definition change_price : Z :=
  if amsterdam profile then 10000 else if original =? 0 then 19900 else 2800.

Definition clear_price : Z :=
  if amsterdam profile then 12480 else if London <=? fork profile then 4800 else 15000.

(** Paid while the slot differs from its original value. *)
Definition held_change (v : Z) : Z := if v =? original then 0 else change_price.
(** Refunded while a slot that had a value has none. *)
Definition held_clear (v : Z) : Z :=
  if negb (original =? 0) && (v =? 0) then clear_price else 0.
(** State gas held while a slot that had no value has one. *)
Definition held_state (v : Z) : Z :=
  if amsterdam profile && ((original =? 0) && negb (v =? 0)) then 97920 else 0.

(** How often the writes restore the original value. *)
Fixpoint restorations (current : Z) (ws : slot_writes) : Z :=
  match ws with
  | [] => 0
  | (v, _) :: ws' =>
      (if negb (current =? v) && (original =? v) then 1 else 0) + restorations v ws'
  end.

Definition restore_refund (current v : Z) : Z :=
  if negb (current =? v) && (original =? v) then change_price else 0.

(** One write: what it costs is the access and the differences of what is
    held, where a restoration is paid back as a refund. *)
Lemma sstore_costs_step current v cold :
  sstore_costs profile original current v cold =
  Ok (mkSstoreCosts
    (access_price cold + (held_change v - held_change current + restore_refund current v))
    (held_clear v - held_clear current + restore_refund current v)
    (if negb (current =? v) && ((original =? current) && (original =? 0))
     then held_state v - held_state current else 0)
    (if negb (current =? v) && ((original =? v) && (original =? 0))
     then held_state current - held_state v else 0)).
Proof.
  unfold sstore_costs, amsterdam_sstore_costs, legacy_sstore_costs, legacy_refund,
    amsterdam_storage_access_cost, sstore_clear_refund, sstore_result, gas_constant, gas_cost,
    state_gas_spill, validated, access_price, held_change, held_clear, held_state,
    restore_refund, change_price, clear_price, word_is_zero, WORD_ZERO.
  destruct (amsterdam profile), cold;
    destruct (Z.eqb_spec current v) as [->|]; cbn [negb andb];
    try (destruct (Z.eqb_spec original current) as [<-|]); try (destruct (Z.eqb_spec original v) as [<-|]);
    rewrite ?Z.eqb_refl;
    repeat match goal with
    | |- context [?a =? ?b] => destruct (Z.eqb_spec a b); subst; try congruence; try lia
    | |- context [London <=? ?f] => destruct (London <=? f)
    end; reflexivity.
Qed.

(** C17: Over the writes of a transaction to one slot, in every fork and with
    any mixture of cold and warm accesses: what the writes cost after refunds is
    what their accesses cost, plus the price of one change when the final value
    is not the original one, less the refund of one clear when it ends empty;
    state gas is held exactly when a slot is left newly filled; and refunds are
    never negative. *)
Theorem sstore_costs_telescope (ws : slot_writes) :
  ∃ total, write_costs original ws = Ok total ∧
    execution total - refund total =
      access_prices ws + held_change (final_value original ws) - held_clear (final_value original ws) ∧
    refund total =
      held_clear (final_value original ws) + change_price * restorations original ws ∧
    state_charge total - state_credit total = held_state (final_value original ws) ∧
    0 <= refund total.
Proof.
  assert (∀ current, ∃ total, write_costs current ws = Ok total ∧
    execution total - refund total = access_prices ws +
      (held_change (final_value current ws) - held_change current) -
      (held_clear (final_value current ws) - held_clear current) ∧
    refund total = (held_clear (final_value current ws) - held_clear current) +
      change_price * restorations current ws ∧
    state_charge total - state_credit total =
      held_state (final_value current ws) - held_state current ∧
    0 <= restorations current ws) as H.
  { induction ws as [|[v cold] ws' IH]; intros current.
    { exists (mkSstoreCosts 0 0 0 0). cbn. split; [done|]. lia. }
    destruct (IH v) as (t & Ht & He & Hr & Hs & Hn).
    cbn [write_costs]. rewrite sstore_costs_step. cbn [mbind outcome_bind]. rewrite Ht.
    eexists. split; [done|].
    change (final_value current ((v, cold) :: ws')) with (final_value v ws').
    cbn [add_costs execution refund state_charge state_credit access_prices foldr restorations].
    fold (access_prices ws').
    assert (restore_refund current v = change_price *
      if negb (current =? v) && (original =? v) then 1 else 0) as Er.
    { unfold restore_refund. destruct (negb (current =? v) && (original =? v)); lia. }
    split_and!; [lia|lia| |].
    - enough (∀ x y : Z, x - y = held_state v - held_state current →
        x + state_charge t - (y + state_credit t) =
        held_state (final_value v ws') - held_state current) as Hx; [|lia].
      apply Hx. unfold held_state.
      destruct (amsterdam profile); cbn [andb];
      repeat match goal with
      | |- context [?a =? ?b] => destruct (Z.eqb_spec a b); subst; cbn [negb andb]; try congruence; try lia
      end.
    - destruct (negb (current =? v) && (original =? v)); lia. }
  destruct (H original) as (t & Ht & He & Hr & Hs & Hn). exists t.
  assert (held_change original = 0) as E1 by (unfold held_change; by rewrite Z.eqb_refl).
  assert (held_clear original = 0) as E2.
  { unfold held_clear. by destruct (original =? 0). }
  assert (held_state original = 0) as E3.
  { unfold held_state. destruct (amsterdam profile), (original =? 0); done. }
  rewrite E1, E2, E3 in *. split_and!; [done|lia..|].
  assert (0 <= held_clear (final_value original ws)).
  { unfold held_clear, clear_price. repeat case_match; lia. }
  assert (0 <= change_price) by (unfold change_price; repeat case_match; lia). nia.
Qed.
End profile.

(** * The series of the blob base fee

    [fake_exponential_word] sums a series until a term vanishes, giving up as
    soon as the price cannot fit a word. The series itself is defined here
    without limits, and the loop is shown to stop and to compute it. *)

(** ** The series *)

Section series.
Context (d n : Z) (Hd : 0 < d) (Hn : 0 <= n).

(** The terms of the scaled Taylor series of [d * exp (n / d)]. *)
Fixpoint exp_term (i : nat) : Z :=
  match i with
  | O => d
  | S i' => exp_term i' * n / (d * Z.of_nat i)
  end.

Fixpoint exp_sum (k : nat) : Z :=
  match k with O => 0 | S k' => exp_sum k' + exp_term k' end.

Lemma exp_term_nonneg i : 0 <= exp_term i.
Proof.
  induction i as [|i IH]; [simpl; lia|]. cbn [exp_term].
  apply Z.div_pos; [by apply Z.mul_nonneg_nonneg|]. nia.
Qed.

Lemma exp_term_zero i j : exp_term i = 0 → (i <= j)%nat → exp_term j = 0.
Proof.
  intros Hz. induction 1 as [|j _ IH]; [done|]. cbn [exp_term]. rewrite IH.
  rewrite Z.mul_0_l. apply Z.div_0_l. nia.
Qed.

Lemma exp_sum_mono i j : (i <= j)%nat → exp_sum i <= exp_sum j.
Proof.
  induction 1 as [|j _ IH]; [done|]. cbn [exp_sum]. pose proof (exp_term_nonneg j). lia.
Qed.

Lemma exp_sum_stable i j : exp_term i = 0 → (i <= j)%nat → exp_sum j = exp_sum i.
Proof.
  intros Hz. induction 1 as [|j Hj IH]; [done|]. cbn [exp_sum].
  rewrite IH, (exp_term_zero i j) by done. lia.
Qed.

(** Past twice the quotient, each term is at most half of the one before. *)
Lemma exp_term_halves i : 2 * n <= d * Z.of_nat (S i) → 2 * exp_term (S i) <= exp_term i.
Proof.
  intros Hi. cbn [exp_term]. pose proof (exp_term_nonneg i). pose proof (Zle_lt_or_eq 0 (exp_term i)).
  assert (2 * (exp_term i * n / (d * Z.of_nat (S i))) <= exp_term i); [|lia].
  pose proof (Z.mul_div_le (exp_term i * n) (d * Z.of_nat (S i))). nia.
Qed.

Lemma exp_term_decay m i :
  2 * n <= d * Z.of_nat (S i) → exp_term i < 2 ^ Z.of_nat m → exp_term (i + m) = 0.
Proof.
  revert i. induction m as [|m IH]; intros i Hi Hm.
  - rewrite Nat.add_0_r. pose proof (exp_term_nonneg i). change (2 ^ Z.of_nat 0) with 1 in Hm. lia.
  - replace (i + S m)%nat with (S i + m)%nat by lia. apply IH; [nia|].
    pose proof (exp_term_halves i Hi). rewrite Nat2Z.inj_succ, Z.pow_succ_r in Hm by lia. lia.
Qed.

Lemma exp_halving_index : 2 * n <= d * Z.of_nat (S (Z.to_nat (2 * (n / d) + 1))).
Proof.
  pose proof (Z.div_pos n d). pose proof (Z.div_mod n d). pose proof (Z.mod_pos_bound n d). nia.
Qed.

(** The series is finite. *)
Lemma exp_term_vanishes : ∃ k, exp_term k = 0.
Proof.
  set (i := Z.to_nat (2 * (n / d) + 1)).
  exists (i + Z.to_nat (exp_term i))%nat. apply exp_term_decay; [apply exp_halving_index|].
  rewrite Z2Nat.id by apply exp_term_nonneg. apply Z.pow_gt_lin_r; [lia|apply exp_term_nonneg].
Qed.

(** ** The loop *)

Context (limit : Z).

(** What the loop returns: the whole sum, or the fatal error when a partial
    sum reaches the limit. *)
Definition series_result (r : outcome Z) : Prop :=
  (∃ k, exp_term k = 0 ∧ r = Ok (exp_sum k) ∧ (exp_sum k < limit ∨ k = 0%nat)) ∨
  (∃ k, limit <= exp_sum k ∧ r = fatal_error).

(** Enough fuel: until the halving index one round for each index, then one
    for each binary digit of the term. *)
Definition enough (fuel i : nat) : Prop :=
  (∃ m, 2 * n <= d * Z.of_nat (S i) ∧ exp_term i < 2 ^ Z.of_nat m ∧ (m < fuel)%nat) ∨
  (∃ h m, 2 * n <= d * Z.of_nat (S (i + h)) ∧ limit <= 2 ^ Z.of_nat m ∧ (h + m < fuel)%nat).

Lemma enough_pos i : ¬ enough 0 i.
Proof. intros [(m & _ & _ & ?)|(h & m & _ & _ & ?)]; lia. Qed.

Lemma enough_step fuel i :
  enough (S fuel) i → 0 < exp_term i → exp_term i < limit → enough fuel (S i).
Proof.
  intros [(m & Hi & Hm & Hf)|(h & m & Hi & Hm & Hf)] Hp Hl.
  - left. destruct m as [|m]; [change (2 ^ Z.of_nat 0) with 1 in Hm; lia|].
    exists m. pose proof (exp_term_halves i Hi).
    rewrite Nat2Z.inj_succ, Z.pow_succ_r in Hm by lia. split; [nia|]. split; lia.
  - destruct h as [|h].
    + left. rewrite Nat.add_0_r in Hi. destruct m as [|m]; [change (2 ^ Z.of_nat 0) with 1 in Hm; lia|].
      exists m. pose proof (exp_term_halves i Hi).
      rewrite Nat2Z.inj_succ, Z.pow_succ_r in Hm by lia. split; [nia|]. split; lia.
    + right. exists h, m. replace (S i + h)%nat with (i + S h)%nat by lia. split; [done|]. split; [done|lia].
Qed.

Lemma fake_exponential_loop_ok fuel i :
  enough fuel i → Z.of_nat i <= exp_sum i → (exp_sum i < limit ∨ i = 0%nat) →
  ∃ r, fake_exponential_loop fuel d n limit (Z.of_nat i + 1) (exp_sum i) (exp_term i) = Some r ∧
       series_result r.
Proof.
  revert i. induction fuel as [|fuel IH]; intros i He Hi Hs; [by destruct (enough_pos i)|].
  cbn [fake_exponential_loop].
  destruct (Z.ltb_spec 0 (exp_term i)) as [Hp|Hz]; cbn [negb].
  2:{ exists (Ok (exp_sum i)). split; [done|]. left. exists i.
      pose proof (exp_term_nonneg i). split; [lia|]. done. }
  assert (0 <= exp_sum i) as Hi0 by lia.
  assert (exp_sum (S i) = exp_sum i + exp_term i) as ES by done.
  destruct (Z.leb_spec limit (exp_term i)) as [Hl|Hl].
  { exists fatal_error. split; [done|]. right. exists (S i). split; [lia|done]. }
  rewrite <-ES. destruct (Z.leb_spec limit (exp_sum (S i))) as [Hl'|Hl'].
  { exists fatal_error. split; [done|]. right. by exists (S i). }
  rewrite sail_ediv_pos by nia. rewrite (proj2 (Z.ltb_lt _ _)) by lia.
  replace (Z.of_nat i + 1) with (Z.of_nat (S i)) by lia.
  change (exp_term i * n / (d * Z.of_nat (S i))) with (exp_term (S i)).
  apply IH; [by apply enough_step|lia|by left].
Qed.
End series.

(** ** The blob base fee *)

(** The price of the exact series: its sum scaled back by the denominator. *)
Definition is_blob_price (d n price : Z) : Prop :=
  ∃ k, (∀ j, (k <= j)%nat → exp_sum d n j = exp_sum d n k) ∧ price = exp_sum d n k / d.

Lemma fake_exponential_enough d n :
  0 < d → 0 <= n → enough d n (d * 2 ^ 256) (fake_exponential_fuel d n) 0.
Proof.
  intros Hd Hn. right. exists (Z.to_nat (2 * (n / d) + 1)), (Z.to_nat (Z.log2 d + 1 + 256)).
  pose proof (Z.div_pos n d). pose proof (Z.log2_nonneg d). split_and!.
  - by apply exp_halving_index.
  - rewrite Z2Nat.id, Z.pow_add_r by lia. pose proof (Z.log2_spec d Hd).
    replace (Z.log2 d + 1) with (Z.succ (Z.log2 d)) by lia.
    apply Z.mul_le_mono_nonneg_r; [|lia]. by apply Z.pow_nonneg.
  - unfold fake_exponential_fuel. lia.
Qed.

(** C28: The loop of the blob base fee always stops, and the price is exactly
    that of the infinite series, rounded term by term, whenever it fits a word;
    a larger price is the fatal error. *)
Theorem fake_exponential_exact (schedule : BlobScheduleFields) (numerator : Z) :
  let d := schedule.(base_fee_update_fraction) in
  0 < d → 0 <= numerator →
  ∃ price, is_blob_price d numerator price ∧ 0 <= price ∧
    fake_exponential_word schedule numerator =
      if price <? 2 ^ 256 then Ok price else Raise SailExit.
Proof.
  intros d Hd Hn. destruct (exp_term_vanishes d numerator Hd Hn) as [k Hk].
  set (price := exp_sum d numerator k / d).
  assert (0 <= exp_sum d numerator k) as Hk0 by (apply (exp_sum_mono _ _ Hd Hn 0 k); lia).
  assert (0 <= price) as Hp by (by apply Z.div_pos).
  exists price. split; [|split; [done|]].
  { exists k. split; [|done]. intros j Hj. by apply exp_sum_stable. }
  assert (∀ j, exp_sum d numerator j <= exp_sum d numerator k) as Hmax.
  { intros j. destruct (Nat.le_ge_cases j k); [by apply exp_sum_mono|].
    by rewrite (exp_sum_stable d numerator Hd k j). }
  unfold fake_exponential_word. fold d. change (Z.shiftl 1 256) with (2 ^ 256).
  destruct (fake_exponential_loop_ok d numerator Hd Hn (d * 2 ^ 256)
              (fake_exponential_fuel d numerator) 0) as (r & Hr & Hres);
    [by apply fake_exponential_enough|done|by right|].
  cbn [exp_sum exp_term] in Hr. change (Z.of_nat 0 + 1) with 1 in Hr. rewrite Hr. cbn [from_option id].
  destruct Hres as [(j & Hj & -> & _)|(j & Hj & ->)].
  - cbn [mbind outcome_bind]. rewrite sail_ediv_pos by done. cbn [mbind outcome_bind].
    assert (exp_sum d numerator j = exp_sum d numerator k) as ->.
    { destruct (Nat.le_ge_cases j k); [symmetry|]; by apply exp_sum_stable. }
    fold price. destruct (Z.ltb_spec price (2 ^ 256)); [|done].
    unfold protocol_word, u256. assert (is_word price) by (by split).
    rewrite word_ok by done. cbn [mbind outcome_bind]. by apply word_ok.
  - cbn [mbind outcome_bind fatal_error]. specialize (Hmax j).
    assert (2 ^ 256 <= price) by (apply Z.div_le_lower_bound; lia).
    by rewrite (proj2 (Z.ltb_ge _ _)).
Qed.

Lemma fake_exponential_exact_witness :
  ∃ price, is_blob_price 3338477 10000000 price ∧ 0 <= price ∧
    fake_exponential_word (mkBlobSchedule 3 6 3338477) 10000000 =
      if price <? 2 ^ 256 then Ok price else Raise SailExit.
Proof. apply (fake_exponential_exact (mkBlobSchedule 3 6 3338477) 10000000); vm_compute; congruence. Defined.

Example fake_exponential_values :
  fake_exponential_word (mkBlobSchedule 3 6 3338477) 10000000 = Ok 19 ∧
  fake_exponential_word (mkBlobSchedule 3 6 3338477) (3338477 * 200) = Raise SailExit.
Proof. by vm_compute. Qed.
