(* ===== verification/RegionFacts.v ===== *)
(** * RegionFacts: the byte regions refine an infinite zero-extended memory

    Every read of a region is a read of [mem_range], and every write is a
    pointwise update of [mem_at]: the growth and zero-fill steps of the code
    are invisible through that abstraction. *)

From Stdlib Require Import ZArith Lia.
From stdpp Require Import base tactics option list gmap.
From S2P Require Import Prelude PyBytes OrderedDict HostTypes Regions.

#[local] Open Scope Z_scope.

(** ** Generic lemmas *)

Definition write_at (l : bytes) (start : Z) (p : bytes) : bytes :=
  splice (_ensure_length l (start + py_len p)) start p.

Lemma ensure_length_len l n : py_len (_ensure_length l n) = Z.max (py_len l) n.
Proof.
  unfold _ensure_length. case (Z.ltb_spec (py_len l) n); intros; [|lia].
  rewrite py_len_app, zeros_length. lia.
Qed.

Lemma lookup_zeros n k : default Byte.x00 (zeros n !! k) = Byte.x00.
Proof.
  unfold zeros. destruct (replicate _ _ !! k) eqn:E; [|done].
  by apply lookup_replicate in E as [-> _].
Qed.

Lemma mem_at_ensure l n k : mem_at (_ensure_length l n) k = mem_at l k.
Proof.
  unfold _ensure_length, mem_at. case_match; [|done].
  destruct (decide (Z.to_nat k < length l)%nat).
  - by rewrite lookup_app_l by done.
  - rewrite lookup_app_r by lia. rewrite lookup_zeros.
    by rewrite lookup_ge_None_2 by lia.
Qed.

Lemma mem_at_past l k : py_len l <= k → mem_at l k = Byte.x00.
Proof. intros. unfold mem_at. rewrite lookup_ge_None_2; [done|]. unfold py_len in *. lia. Qed.

Lemma splice_length l s p :
  0 <= s → s + py_len p <= py_len l → py_len (splice l s p) = py_len l.
Proof. apply py_slice_set_length. Qed.

Lemma mem_at_splice l s p k :
  0 <= s → s + py_len p <= py_len l → 0 <= k →
  mem_at (splice l s p) k =
  if decide (s <= k < s + py_len p) then mem_at p (k - s) else mem_at l k.
Proof.
  intros Hs Hp Hk. unfold mem_at. case_decide as Hin.
  - pose proof (py_slice_set_same l s p Hs Hp) as E.
    apply (f_equal (lookup (Z.to_nat (k - s)))) in E.
    rewrite py_slice_lookup in E;
      [|lia|apply py_len_nonneg|rewrite py_slice_set_length by lia; lia|lia].
    rewrite <-E. unfold splice. do 2 f_equal. lia.
  - unfold splice. rewrite py_slice_set_lookup_ne by lia. done.
Qed.

Lemma write_at_length l s p :
  0 <= s → py_len (write_at l s p) = Z.max (py_len l) (s + py_len p).
Proof.
  intros. unfold write_at. rewrite splice_length; rewrite ?ensure_length_len; lia.
Qed.

Lemma mem_at_write l s p k :
  0 <= s → 0 <= k →
  mem_at (write_at l s p) k =
  if decide (s <= k < s + py_len p) then mem_at p (k - s) else mem_at l k.
Proof.
  intros. unfold write_at. rewrite mem_at_splice; rewrite ?ensure_length_len; try lia.
  by rewrite mem_at_ensure.
Qed.

Lemma mem_range_length l s n : length (mem_range l s n) = n.
Proof. unfold mem_range. by rewrite length_fmap, length_seq. Qed.

Lemma mem_range_lookup l s n i :
  (i < n)%nat → mem_range l s n !! i = Some (mem_at l (s + Z.of_nat i)).
Proof.
  intros. unfold mem_range. rewrite list_lookup_fmap, lookup_seq_lt by done. done.
Qed.

Lemma mem_at_range l s n k :
  0 <= k → mem_at (mem_range l s n) k =
  if decide (k < Z.of_nat n) then mem_at l (s + k) else Byte.x00.
Proof.
  intros. case_decide.
  - unfold mem_at at 1. rewrite mem_range_lookup by lia. cbn. f_equal. lia.
  - apply mem_at_past. unfold py_len. rewrite mem_range_length. lia.
Qed.

(** Slicing and zero-filling is reading the zero-extended region. *)
Lemma ljust_slice_range l s n :
  0 <= s → 0 <= n →
  py_ljust (py_slice l s (s + n)) n = mem_range l s (Z.to_nat n).
Proof.
  intros Hs Hn. rewrite py_slice_nonneg by done.
  set (q := take (Z.to_nat n) (drop (Z.to_nat s) l)).
  assert (Hq : length q = (Z.to_nat n `min` (length l - Z.to_nat s))%nat)
    by (unfold q; by rewrite length_take, length_drop).
  apply list_eq. intros i. destruct (decide (i < Z.to_nat n)%nat) as [Hi|Hi].
  - rewrite mem_range_lookup by done. unfold py_ljust, mem_at.
    replace (Z.to_nat (s + Z.of_nat i)) with (Z.to_nat s + i)%nat by lia.
    destruct (decide (i < length q)%nat) as [Hiq|Hiq].
    + rewrite lookup_app_l by done. unfold q.
      rewrite lookup_take_lt, lookup_drop by done.
      destruct (lookup_lt_is_Some_2 l (Z.to_nat s + i)) as [x Hx]; [lia|].
      by rewrite Hx.
    + rewrite lookup_app_r by lia. rewrite (lookup_ge_None_2 l) by lia.
      unfold zeros. rewrite lookup_replicate_2; [done|]. unfold py_len. lia.
  - rewrite !lookup_ge_None_2; [done|rewrite mem_range_length; lia|].
    pose proof (py_ljust_length q n) as E. unfold py_len in *. lia.
Qed.

Lemma mem_range_ext l l' s n :
  0 <= s → (∀ k, s <= k < s + Z.of_nat n → mem_at l k = mem_at l' k) →
  mem_range l s n = mem_range l' s n.
Proof.
  intros Hs H. apply list_eq. intros i. destruct (decide (i < n)%nat).
  - rewrite !mem_range_lookup by done. f_equal. apply H. lia.
  - rewrite !lookup_ge_None_2; rewrite ?mem_range_length; done || lia.
Qed.

Lemma mem_range_self l : mem_range l 0 (length l) = l.
Proof.
  apply list_eq. intros i. destruct (decide (i < length l)%nat) as [Hi|Hi].
  - rewrite mem_range_lookup by done. unfold mem_at.
    destruct (lookup_lt_is_Some_2 l i Hi) as [x Hx].
    replace (Z.to_nat (0 + Z.of_nat i)) with i by lia. by rewrite Hx.
  - rewrite !lookup_ge_None_2; rewrite ?mem_range_length; done || lia.
Qed.

(** Reading back a range just written. *)
Lemma mem_range_write_same l s p :
  0 <= s → mem_range (write_at l s p) s (length p) = p.
Proof.
  intros Hs. rewrite <-(mem_range_self p) at 3. apply list_eq. intros i.
  destruct (decide (i < length p)%nat).
  - rewrite !mem_range_lookup by done. f_equal.
    rewrite mem_at_write by lia. rewrite decide_True by (unfold py_len; lia).
    f_equal. lia.
  - rewrite !lookup_ge_None_2; rewrite ?mem_range_length; done || lia.
Qed.

(** Reading a range a write does not meet. *)
Lemma mem_range_write_other l s p s' n :
  0 <= s → 0 <= s' → (s' + Z.of_nat n <= s ∨ s + py_len p <= s') →
  mem_range (write_at l s p) s' n = mem_range l s' n.
Proof.
  intros. apply mem_range_ext; [done|]. intros k Hk.
  rewrite mem_at_write by lia. rewrite decide_False by lia. done.
Qed.

Lemma mem_range_len l s n : py_len (mem_range l s n) = Z.of_nat n.
Proof. unfold py_len. by rewrite mem_range_length. Qed.

(** Copying a zero-extended range, pointwise. *)
Lemma mem_at_copy l l' d sr n k :
  0 <= d → 0 <= sr → 0 <= n → 0 <= k →
  mem_at (write_at l d (mem_range l' sr (Z.to_nat n))) k =
  if decide (d <= k < d + n) then mem_at l' (sr + (k - d)) else mem_at l k.
Proof.
  intros. rewrite mem_at_write by done. pose proof (mem_range_len l' sr (Z.to_nat n)).
  case_decide; [rewrite decide_True by lia|by rewrite decide_False by lia].
  rewrite mem_at_range by lia. by rewrite decide_True by lia.
Qed.

Lemma word_mask_land v : Z.land v WORD_MASK = v mod 2 ^ 256.
Proof. apply (Z.land_ones v 256). lia. Qed.

Lemma word_bytes_drop v n :
  _word_bytes v n = drop (Z.to_nat (slice_bound (be_bytes 32 v) (- n))) (be_bytes 32 v).
Proof.
  unfold _word_bytes, py_slice_from. rewrite word_mask_land.
  change (2 ^ 256) with (256 ^ Z.of_nat 32). by rewrite be_bytes_mod.
Qed.

(** For lengths 1 to 32, the low bytes of the word, big-endian. *)
Lemma word_bytes_low v n :
  1 <= n <= 32 → _word_bytes v n = be_bytes (Z.to_nat n) v.
Proof.
  intros Hn. rewrite word_bytes_drop, slice_bound_neg, be_bytes_len by lia.
  rewrite <-(be_bytes_drop 32 (Z.to_nat n) v) by lia. f_equal. lia.
Qed.

Lemma word_bytes_full v : _word_bytes v WORD_BYTES = be_bytes 32 v.
Proof. by apply word_bytes_low. Qed.

Lemma word_bytes_length v : py_len (_word_bytes v WORD_BYTES) = 32.
Proof. rewrite word_bytes_full. apply be_bytes_len. Qed.

Create Rewrite HintDb region.
#[export] Hint Rewrite ensure_length_len mem_at_ensure word_bytes_full
  word_bytes_length mem_range_length : region.

(** The write pattern of the memory functions, as [write_at]. *)
Lemma splice_ensure_write l s n p :
  py_len p = n → py_slice_set (_ensure_length l (s + n)) s (s + n) p = write_at l s p.
Proof. by intros <-. Qed.

Definition memory (s : HostState) : bytes := s.(regions).(memory_bytes).

Lemma mem_store_word_run o v s :
  mem_store_word o v s =
  (Ok tt, put (set_memory_bytes (write_at (memory s) o (be_bytes 32 v)) s.(regions)) s).
Proof.
  unfold mem_store_word, modify_regions. rewrite zoom_run. cbn.
  rewrite <-(splice_ensure_write _ _ WORD_BYTES).
  - by rewrite word_bytes_full.
  - apply be_bytes_len.
Qed.

Lemma mem_load_word_run o s :
  0 <= o → mem_load_word o s = (Ok (from_be (mem_range (memory s) o 32)), s).
Proof.
  intros. unfold mem_load_word. py_step. rewrite ljust_slice_range by (done || lia). done.
Qed.

Lemma mem_move_run d sr n s :
  0 <= sr → 0 <= n →
  mem_move d sr n s =
  (Ok tt, put (set_memory_bytes
    (write_at (memory s) d (mem_range (memory s) sr (Z.to_nat n))) s.(regions)) s).
Proof.
  intros. unfold mem_move, modify_regions. rewrite zoom_run. cbn.
  rewrite ljust_slice_range by done. rewrite splice_ensure_write; [done|].
  rewrite mem_range_len. lia.
Qed.

Lemma copy_to_memory_run k v d sr n s :
  0 <= sr → 0 <= n →
  _copy_to_memory k v d sr n s =
  (Ok tt, put (set_memory_bytes
    (write_at (memory s) d (mem_range (_slice_bytes (region_of k s) v) sr (Z.to_nat n)))
    s.(regions)) s).
Proof.
  intros. unfold _copy_to_memory, modify_regions, _region_bytes. py_step.
  rewrite zoom_run. cbn. rewrite ljust_slice_range by done.
  rewrite splice_ensure_write; [done|]. rewrite mem_range_len. lia.
Qed.

Lemma load_word_run k v o n s :
  0 <= o → 0 <= n →
  _load_word k v o n s =
  (Ok (from_be (mem_range (_slice_bytes (region_of k s) v) o (Z.to_nat n))), s).
Proof.
  intros. unfold _load_word, _region_bytes. py_step.
  rewrite ljust_slice_range by done. done.
Qed.

Lemma mem_expand_run base est req s :
  0 <= base → 0 <= est → est < req →
  mem_expand base est req s =
  (Ok tt, put (set_memory_bytes (write_at (memory s) (base + est) (zeros (req - est)))
    s.(regions)) s).
Proof.
  intros. unfold mem_expand.
  rewrite (proj2 (Z.ltb_ge _ _)), (proj2 (Z.ltb_ge _ _)), (proj2 (Z.leb_gt _ _)) by lia.
  cbn [orb]. unfold modify_regions. rewrite zoom_run. cbn.
  do 3 f_equal.
  rewrite <-(splice_ensure_write _ _ (req - est)) by (rewrite zeros_length; lia).
  by replace (base + est + (req - est)) with (base + req) by lia;
    replace (base + req - (base + est)) with (req - est) by lia.
Qed.

Lemma append_code_run payload s :
  _append_code payload s =
  (code_region_slice (py_len (region_of RCode s)) (py_len payload),
   put (set_code_bytes (region_of RCode s ++ payload) s.(regions)) s).
Proof. reflexivity. Qed.

Lemma code_region_slice_ok o n :
  0 <= o → 0 <= n → o + n <= 2 ^ 32 - 1 → code_region_slice o n = Ok (mkSlice o n).
Proof.
  intros. unfold code_region_slice, checked_slice, region_valid_range.
  by rewrite !(proj2 (Z.leb_le _ _)) by done.
Qed.

Lemma code_region_slice_over o n :
  2 ^ 32 - 1 < o + n → is_ok (code_region_slice o n) = false.
Proof.
  intros. unfold code_region_slice, checked_slice, region_valid_range.
  rewrite (proj2 (Z.leb_gt (o + n) _)) by done. by rewrite !andb_false_r.
Qed.
