(* ===== verification/PrecompileGas.v ===== *)
(** * PrecompileGas: what each precompile charges

    The gas of every precompile as one closed formula over the bytes of its
    input, and the functions of [GasSchedule] shown to charge it. The formula
    of modular exponentiation is that of EIP-2565, and of EIP-7883 from Osaka;
    that of the BLS multi-scalar multiplications is that of EIP-2537. *)

From Stdlib Require Import ZArith Lia Strings.Byte.
From stdpp Require Import base tactics option list.
From S2P Require Import Prelude PyBytes HostTypes SailRuntime Words WordTheorems WordBits ChainConfig Regions RegionFacts RegionAccess Gas GasSchedule GasTheorems.
Local Open Scope Z_scope.

(** ** The input *)

Definition calldata_in (input : CalldataSlice) (st : HostState) : Prop :=
  match input with
  | InputCalldata s => slice_in RInput s st
  | MemoryCalldata s => slice_in RMemory s st
  end.

Definition calldata_data (input : CalldataSlice) (st : HostState) : bytes :=
  match input with
  | InputCalldata s => slice_data RInput s st
  | MemoryCalldata s => slice_data RMemory s st
  end.

(** The number at [n] bytes of some data, zero past its end. *)
Definition data_number (data : bytes) (start : Z) (n : nat) : Z := from_be (mem_range data start n).

Lemma calldata_length_ok input st :
  calldata_in input st →
  calldata_slice_length input = Ok (py_len (calldata_data input st)).
Proof.
  destruct input as [s|s]; cbn; intros H; unfold code_length;
    rewrite (slice_data_length _ _ _ H); apply Uint_ok, H.
Qed.

Lemma calldata_byte_run input st off :
  calldata_in input st → 0 <= off →
  calldata_slice_byte input off st = (Ok (byte_or_zero (calldata_data input st) off), st).
Proof. destruct input; apply slice_byte_run. Qed.

Lemma byte_or_zero_past data off : py_len data <= off → byte_or_zero data off = 0.
Proof.
  intros H. unfold byte_or_zero, mem_at. rewrite lookup_ge_None_2; [done|].
  unfold py_len in H. lia.
Qed.

Lemma data_number_S data start n :
  data_number data start (S n) =
  data_number data start n * 256 + byte_or_zero data (start + Z.of_nat n).
Proof.
  unfold data_number, mem_range. rewrite seq_S, fmap_app. apply from_be_snoc.
Qed.

Lemma data_number_bound data start n : 0 <= data_number data start n < 256 ^ Z.of_nat n.
Proof. unfold data_number. rewrite <-(mem_range_len data start n). apply from_be_bound. Qed.

Lemma data_number_word data start n : (n <= 32)%nat → is_word (data_number data start n).
Proof.
  intros Hn. pose proof (data_number_bound data start n). unfold is_word, WORD_MODULUS.
  assert (256 ^ Z.of_nat n <= 256 ^ 32) by (apply Z.pow_le_mono_r; lia).
  change (2 ^ 256) with (256 ^ 32). lia.
Qed.

Lemma data_number_past data start n : py_len data <= start → data_number data start n = 0.
Proof.
  intros H. induction n as [|n IH]; [done|]. rewrite data_number_S, IH, byte_or_zero_past; lia.
Qed.

Section input.
Context (input : CalldataSlice) (st : HostState) (Hin : calldata_in input st).
Let data := calldata_data input st.

Lemma pc_word_step_run start count n :
  0 <= start → (n < 32)%nat →
  pc_word_step input start (Z.of_nat count) (py_len data)
    (data_number data start (n `min` count)) (Z.of_nat n) st =
  (Ok (data_number data start (S n `min` count)), st).
Proof.
  intros Hs Hn. unfold pc_word_step. destruct (Z.ltb_spec (Z.of_nat n) (Z.of_nat count)) as [Hlt|].
  2:{ replace (S n `min` count)%nat with (n `min` count)%nat by lia. done. }
  replace (n `min` count)%nat with n by lia. replace (S n `min` count)%nat with (S n) by lia.
  assert ((if start <? py_len data
           then if Z.of_nat n <? py_len data - start
                then calldata_slice_byte input (start + Z.of_nat n) else mret 0
           else mret 0) st = (Ok (byte_or_zero data (start + Z.of_nat n)), st)) as Hb.
  { destruct (Z.ltb_spec start (py_len data)); [|by rewrite byte_or_zero_past by lia].
    destruct (Z.ltb_spec (Z.of_nat n) (py_len data - start)).
    - apply calldata_byte_run; [done|lia].
    - by rewrite byte_or_zero_past by lia. }
  rewrite bind_run, Hb. pose proof (data_number_word data start n ltac:(lia)) as Hv.
  pose proof (data_number_word data start (S n) ltac:(lia)) as Hv'.
  pose proof (data_number_S data start n) as E. unfold is_word in *.
  assert (0 <= byte_or_zero data (start + Z.of_nat n)) by apply Z_of_byte_range.
  rewrite bind_run, of_outcome_run, word_shift_left_ok by (unfold is_word; lia).
  change (2 ^ 8) with 256. unfold wrap. rewrite Z.mod_small by lia. rewrite of_outcome_run.
  unfold word_add_word. rewrite sail_tmod_ok by done. cbn [mbind outcome_bind].
  rewrite Z.rem_small by lia. unfold u256. rewrite word_ok by (unfold is_word; lia). by rewrite E.
Qed.

Lemma pc_word_loop_run start count n m :
  0 <= start → (n + m <= 32)%nat →
  pc_word_loop input start (Z.of_nat count) (py_len data)
    (data_number data start (n `min` count)) (Z.of_nat <$> seq n m) st =
  (Ok (data_number data start ((n + m) `min` count)), st).
Proof.
  intros Hs. revert n. induction m as [|m IH]; intros n Hn.
  - by rewrite Nat.add_0_r.
  - cbn [seq fmap list_fmap pc_word_loop]. rewrite bind_run, pc_word_step_run by lia.
    rewrite IH by lia. by replace (S n + m)%nat with (n + S m)%nat by lia.
Qed.

Lemma pc_word_run start n :
  0 <= start → 0 <= n <= 32 →
  pc_word input start n st = (Ok (data_number data start (Z.to_nat n)), st).
Proof.
  intros Hs Hn. unfold pc_word.
  rewrite bind_run, of_outcome_run, (calldata_length_ok _ _ Hin). fold data.
  rewrite bind_run, of_outcome_run.
  replace (sail_range 0 31 1 true) with (@Ok (list Z) (Z.of_nat <$> seq 0 32)) by by vm_compute.
  pose proof (pc_word_loop_run start (Z.to_nat n) 0 32 Hs) as H.
  rewrite Z2Nat.id in H by lia. rewrite bind_run. change (data_number data start _) with 0 in H at 1.
  rewrite H by lia. rewrite of_outcome_run. replace ((0 + 32) `min` Z.to_nat n)%nat with (Z.to_nat n) by lia.
  by rewrite word_ok by (apply data_number_word; lia).
Qed.

Lemma pc_word_after_run prefix declared n :
  0 <= prefix → 0 <= declared → 0 <= n <= 32 →
  pc_word_after_declared_field input prefix declared n st =
  (Ok (data_number data (prefix + declared) (Z.to_nat n)), st).
Proof.
  intros Hp Hd Hn. unfold pc_word_after_declared_field.
  rewrite bind_run, of_outcome_run, (calldata_length_ok _ _ Hin). fold data.
  destruct (Z.ltb_spec prefix (py_len data)); [|by rewrite data_number_past by lia].
  destruct (Z.ltb_spec declared (py_len data - prefix)); [|by rewrite data_number_past by lia].
  apply pc_word_run; lia.
Qed.
End input.

(** ** Modular exponentiation *)

Definition modexp_complexity (osaka : bool) (maxlen : Z) : Z :=
  let words := (maxlen + 7) / 8 in
  if osaka then if maxlen <=? 32 then 16 else 2 * (words * words) else words * words.

Definition modexp_count (osaka : bool) (el head : Z) : Z :=
  let high_bits := 0 `max` (bit_length head - 1) in
  1 `max` (if el <=? 32 then high_bits
           else (if osaka then 16 else 8) * (el - 32) + high_bits).

Definition modexp_price (osaka : bool) (maxlen el head : Z) : Z :=
  let product := modexp_complexity osaka maxlen * modexp_count osaka el head in
  minimum_modexp_gas osaka `max` (if osaka then product else product / 3).

(** The three lengths and the head of the exponent are read from the input. *)
Definition modexp_cost (osaka : bool) (data : bytes) : option Z :=
  let bl := data_number data 0 32 in
  let el := data_number data 32 32 in
  let ml := data_number data 64 32 in
  if osaka && ((1024 <? bl) || ((1024 <? el) || (1024 <? ml))) then None
  else Some (modexp_price osaka (bl `max` ml) el
               (data_number data (96 + bl) (Z.to_nat (el `min` 32)))).

(** The charge of a cost that may be refused whatever is available. *)
Definition charge_opt (exact : option Z) (available : Z) : GasCharge :=
  match exact with Some c => charge_of c available | None => GAS_CHARGE_UNAFFORDABLE end.

Lemma charge_opt_above c available : available < c → GAS_CHARGE_UNAFFORDABLE = charge_of c available.
Proof. intros H. unfold charge_of. by rewrite (proj2 (Z.leb_gt _ _)). Qed.

Section modexp.
Context (osaka : bool) (available : Z) (Ha : is_gas available).

Lemma modexp_words_ok maxlen : 0 <= maxlen → modexp_words maxlen = Ok ((maxlen + 7) / 8).
Proof.
  intros Hm. unfold modexp_words.
  rewrite sail_ediv_pos, sail_tmod_ok by done. cbn [mbind outcome_bind].
  rewrite Z.rem_mod_nonneg by done. f_equal.
  pose proof (Z.div_mod maxlen 8). pose proof (Z.mod_pos_bound maxlen 8).
  destruct (Z.eqb_spec (maxlen mod 8) 0).
  - apply (Z.div_unique _ _ _ 7); lia.
  - apply (Z.div_unique _ _ _ (maxlen mod 8 - 1)); lia.
Qed.

(** Above the limit, a product costs more than what is available. *)
Lemma product_limit_exceeded p :
  0 <= p → product_limit osaka available < p →
  available < if osaka then p else p / 3.
Proof.
  unfold product_limit. destruct osaka; intros; [done|].
  assert (available + 1 <= p / 3) by (apply Z.div_le_lower_bound; lia). lia.
Qed.

Lemma product_limit_within p : p <= product_limit osaka available →
  (if osaka then p else p / 3) <= available.
Proof.
  unfold product_limit. destruct osaka; intros; [done|].
  assert (p / 3 < available + 1) by (apply Z.div_lt_upper_bound; lia). lia.
Qed.

Lemma modexp_mult_ok maxlen :
  0 <= maxlen →
  modexp_mult osaka available maxlen =
    Ok (let m := modexp_complexity osaka maxlen in
        if (product_limit osaka available <? m) ||
           (osaka && (product_limit osaka available <? ((maxlen + 7) / 8) * ((maxlen + 7) / 8)))
        then None else Some m).
Proof.
  intros Hm. unfold modexp_mult. rewrite modexp_words_ok by done. cbn [mbind outcome_bind].
  unfold modexp_complexity. set (w := (maxlen + 7) / 8).
  assert (0 <= w) as Hw by (apply Z.div_pos; lia).
  assert (0 <= product_limit osaka available) as Hl.
  { clear -Ha. unfold product_limit. unfold is_gas in Ha. destruct osaka; lia. }
  destruct (Z.ltb_spec (product_limit osaka available) w).
  { destruct osaka; cbn [andb orb].
    - rewrite (proj2 (Z.ltb_lt _ (w * w))) by nia. by rewrite orb_true_r.
    - by rewrite (proj2 (Z.ltb_lt _ (w * w))) by nia. }
  destruct (Z.ltb_spec (product_limit osaka available) (w * w)).
  { destruct osaka; cbn [andb orb]; [by rewrite orb_true_r|].
    by rewrite (proj2 (Z.ltb_lt _ (w * w))) by lia. }
  destruct osaka; cbn [andb orb].
  2:{ unfold product_limit in *. cbn. by rewrite (proj2 (Z.ltb_ge _ (w * w))) by lia. }
  rewrite orb_false_r. unfold product_limit in *. destruct (Z.leb_spec maxlen 32).
  - by cbn.
  - rewrite sail_ediv_pos by done. cbn [mbind outcome_bind].
    pose proof (Z.div_mod available 2). pose proof (Z.mod_pos_bound available 2).
    destruct (Z.ltb_spec (available / 2) (w * w)).
    + cbn. by rewrite (proj2 (Z.ltb_lt _ _)) by lia.
    + by cbn.
Qed.

Lemma modexp_count_pos el head : 1 <= modexp_count osaka el head.
Proof. unfold modexp_count. lia. Qed.

Lemma modexp_iterations_ok el head :
  0 <= el → (osaka = true → el <= 1024) →
  ∃ r, modexp_iterations osaka available el (bit_length head) = Ok r ∧
    (r = Some (modexp_count osaka el head) ∨
     (r = None ∧ product_limit osaka available < modexp_count osaka el head)).
Proof.
  intros He Hcap. unfold modexp_iterations, modexp_count. pose proof (bit_length_nonneg head) as Hb.
  destruct (Z.leb_spec el 32).
  { eexists. split; [done|]. left. f_equal.
    destruct (Z.eqb_spec (bit_length head) 0) as [->|]; [lia|].
    destruct (Z.eqb_spec (bit_length head - 1) 0); lia. }
  assert ((if negb (bit_length head =? 0) then bit_length head - 1 else 0) =
          0 `max` (bit_length head - 1)) as ->
    by (destruct (Z.eqb_spec (bit_length head) 0); cbn [negb]; lia).
  set (hb := 0 `max` (bit_length head - 1)). assert (0 <= hb) by lia.
  unfold product_limit, is_gas in *. destruct osaka.
  - specialize (Hcap eq_refl). rewrite sail_ediv_pos by done. cbn [mbind outcome_bind].
    assert (is_word 992) as H992 by (vm_compute; intuition congruence).
    unfold u256. rewrite (word_ok 992) by done. cbn [mbind outcome_bind].
    unfold word_greater_than_word. rewrite (proj2 (Z.ltb_ge 992 (el - 32))) by lia.
    pose proof (Z.div_mod available 16). pose proof (Z.mod_pos_bound available 16).
    destruct (Z.ltb_spec (available / 16) (el - 32)).
    + exists None. split; [done|]. right. split; [done|lia].
    + eexists. split; [done|]. left. cbn [fmap option_fmap option_map]. f_equal.
      destruct (Z.eqb_spec (16 * (el - 32) + hb) 0); lia.
  - rewrite sail_ediv_pos by done. cbn [mbind outcome_bind].
    pose proof (Z.div_mod (3 * available + 2) 8). pose proof (Z.mod_pos_bound (3 * available + 2) 8).
    destruct (Z.ltb_spec ((3 * available + 2) / 8) (el - 32)).
    + exists None. split; [done|]. right. split; [done|lia].
    + eexists. split; [done|]. left. cbn [fmap option_fmap option_map]. f_equal.
      destruct (Z.eqb_spec (8 * (el - 32) + hb) 0); lia.
Qed.

Lemma modexp_charge_ok mult count :
  0 <= mult → 1 <= count → minimum_modexp_gas osaka <= available →
  modexp_charge osaka available mult count =
    Ok (charge_of (minimum_modexp_gas osaka `max`
                   (if osaka then mult * count else mult * count / 3)) available).
Proof.
  intros Hm Hc Hmin. unfold modexp_charge. rewrite (proj2 (Z.eqb_neq _ _)) by lia.
  assert (0 <= mult * count) as Hp by nia.
  destruct (Z.ltb_spec (product_limit osaka available) (mult * count)) as [Hl|Hl].
  - apply charge_unaffordable. apply product_limit_exceeded in Hl; [lia|done].
  - apply product_limit_within in Hl.
    assert ((if osaka then Ok (mult * count) else sail_ediv_int (mult * count) 3) =
            Ok (if osaka then mult * count else mult * count / 3)) as ->
      by (destruct osaka; [done|by rewrite sail_ediv_pos]).
    cbn [mbind outcome_bind]. set (c := if osaka then _ else _) in *.
    assert (0 <= minimum_modexp_gas osaka) by (unfold minimum_modexp_gas; destruct osaka; lia).
    replace (if c <? minimum_modexp_gas osaka then minimum_modexp_gas osaka else c)
      with (minimum_modexp_gas osaka `max` c)
      by (destruct (Z.ltb_spec c (minimum_modexp_gas osaka)); lia).
    apply charge_tested; [done|lia].
Qed.

Lemma modexp_complexity_pos maxlen : 0 <= maxlen → osaka = true ∨ 0 < maxlen →
  1 <= modexp_complexity osaka maxlen.
Proof.
  intros Hm Ho. unfold modexp_complexity.
  assert (osaka = true ∧ maxlen <= 32 ∨ 1 <= (maxlen + 7) / 8) as [[-> ?]|Hw].
  { destruct (Z.le_gt_cases maxlen 0); [left; destruct Ho; [split; [done|lia]|lia]|].
    right. apply Z.div_le_lower_bound; lia. }
  - by rewrite (proj2 (Z.leb_le _ _)).
  - destruct osaka, (maxlen <=? 32); nia.
Qed.

Lemma modexp_complexity_words maxlen : 0 <= maxlen →
  (maxlen + 7) / 8 * ((maxlen + 7) / 8) <= modexp_complexity osaka maxlen.
Proof.
  intros Hm. unfold modexp_complexity. destruct osaka; [|done].
  assert (0 <= (maxlen + 7) / 8) by (apply Z.div_pos; lia).
  destruct (Z.leb_spec maxlen 32); [|nia].
  assert ((maxlen + 7) / 8 < 5) by (apply Z.div_lt_upper_bound; lia). nia.
Qed.

(** A factor above the limit makes the price unaffordable. *)
Lemma modexp_price_exceeded maxlen el head :
  product_limit osaka available < modexp_complexity osaka maxlen * modexp_count osaka el head →
  available < modexp_price osaka maxlen el head.
Proof.
  intros Hl. unfold modexp_price. apply product_limit_exceeded in Hl; [lia|].
  assert (0 <= product_limit osaka available); [|lia].
  unfold product_limit, is_gas in *. destruct osaka; lia.
Qed.

(** The guarded computation, from the lengths and the head on. *)
Lemma modexp_parts_ok maxlen el head (st : HostState) :
  0 <= maxlen → osaka = true ∨ 0 < maxlen → 0 <= el → (osaka = true → el <= 1024) →
  minimum_modexp_gas osaka <= available → is_word head →
  (mult ← of_outcome (modexp_mult osaka available maxlen);
   match (mult : option Z) with
   | None => of_outcome unaffordable
   | Some mult =>
       exponent_head ← (λ s, (Ok head, s));
       head_bits ← of_outcome (word_bit_length exponent_head);
       iterations ← of_outcome (modexp_iterations osaka available el head_bits);
       match (iterations : option Z) with
       | None => of_outcome unaffordable
       | Some iterations => of_outcome (modexp_charge osaka available mult iterations)
       end
   end) st = (Ok (charge_of (modexp_price osaka maxlen el head) available), st).
Proof.
  intros Hm Hpos He Hcap Hmin Hh. rewrite bind_run, of_outcome_run, modexp_mult_ok by done.
  pose proof (modexp_complexity_pos maxlen Hm Hpos) as Hc1.
  pose proof (modexp_complexity_words maxlen Hm) as Hcw.
  pose proof (modexp_count_pos el head) as Hk. cbv zeta.
  destruct (Z.ltb_spec (product_limit osaka available) (modexp_complexity osaka maxlen)) as [Hl|Hl];
    cbn [orb].
  { rewrite of_outcome_run. f_equal. apply charge_unaffordable, modexp_price_exceeded. nia. }
  assert ((osaka && (product_limit osaka available <? (maxlen + 7) / 8 * ((maxlen + 7) / 8))) = false)
    as -> by (rewrite (proj2 (Z.ltb_ge _ _)) by lia; by destruct osaka).
  rewrite bind_run, bind_run, of_outcome_run, word_bit_length_ok by done.
  destruct (modexp_iterations_ok el head He Hcap) as (r & Hr & Hres).
  rewrite bind_run, of_outcome_run, Hr. destruct Hres as [->|[-> Hl']].
  - rewrite of_outcome_run. f_equal. apply modexp_charge_ok; [lia|done..].
  - rewrite of_outcome_run. f_equal. apply charge_unaffordable, modexp_price_exceeded. nia.
Qed.
End modexp.

(** ** The price list *)

Section prices.
Context (profile : ProtocolProfileFields).

(** [modexp_gas] once the three lengths are read. *)
Lemma modexp_lengths_ok input available st bl el ml head :
  let osaka := Osaka <=? fork profile in
  is_gas available → is_word bl → is_word el → is_word ml → is_word head →
  pc_word_after_declared_field input 96 bl (el `min` 32) st = (Ok head, st) →
  pc_word input 0 32 st = (Ok bl, st) →
  pc_word input 32 32 st = (Ok el, st) →
  pc_word input 64 32 st = (Ok ml, st) →
  modexp_gas profile input available st =
    (Ok (if osaka && ((1024 <? bl) || ((1024 <? el) || (1024 <? ml)))
         then GAS_CHARGE_UNAFFORDABLE
         else charge_of (modexp_price osaka (bl `max` ml) el head) available), st).
Proof.
  intros osaka Ha Hbl Hel Hml Hhead Rh R1 R2 R3. unfold modexp_gas.
  rewrite bind_run, R1, bind_run, R2, bind_run, R3. fold osaka. cbv zeta. unfold is_word in *.
  destruct (osaka && ((1024 <? bl) || ((1024 <? el) || (1024 <? ml)))) eqn:Hcap; [done|].
  replace (if ml <? bl then bl else ml) with (bl `max` ml)
    by (destruct (Z.ltb_spec ml bl); lia).
  destruct (Z.ltb_spec available (minimum_modexp_gas osaka)) as [Hmin|Hmin].
  { rewrite of_outcome_run. f_equal. apply charge_unaffordable. unfold modexp_price. lia. }
  destruct (negb osaka && (word_is_zero bl && word_is_zero ml)) eqn:Hz.
  { apply andb_true_iff in Hz as [Ho Hz]. apply andb_true_iff in Hz as [Hz1 Hz2].
    unfold word_is_zero, WORD_ZERO in *. apply Z.eqb_eq in Hz1, Hz2. apply negb_true_iff in Ho.
    rewrite of_outcome_run. f_equal. rewrite Ho in Hmin |- *. unfold modexp_price.
    replace (modexp_complexity false (bl `max` ml)) with 0 by (rewrite Hz1, Hz2; done).
    rewrite Z.mul_0_l. apply (charge_affordable 200); [done|].
    unfold minimum_modexp_gas in Hmin. lia. }
  assert (osaka = true ∨ 0 < bl `max` ml) as Hpos.
  { destruct osaka; [by left|right]. cbn in Hz. unfold word_is_zero, WORD_ZERO in Hz.
    destruct (Z.eqb_spec bl 0), (Z.eqb_spec ml 0); cbn in Hz; try done; lia. }
  assert (osaka = true → el <= 1024) as Hel'.
  { intros Ho. rewrite Ho in Hcap. cbn in Hcap. apply orb_false_iff in Hcap as [_ Hcap].
    apply orb_false_iff in Hcap as [Hcap _]. by apply Z.ltb_ge in Hcap. }
  replace (if el <=? 32 then el else 32) with (el `min` 32)
    by (destruct (Z.leb_spec el 32); lia).
  rewrite <-(modexp_parts_ok osaka available Ha (bl `max` ml) el head st) by (try done; lia).
  rewrite !bind_run. destruct (of_outcome _ st) as [[[m|]|e] st'] eqn:E; [|done..].
  rewrite of_outcome_run in E. simplify_eq. rewrite !bind_run. by rewrite Rh.
Qed.

Lemma modexp_gas_run input available st :
  calldata_in input st → is_gas available →
  modexp_gas profile input available st =
    (Ok (charge_opt (modexp_cost (Osaka <=? fork profile) (calldata_data input st)) available), st).
Proof.
  intros Hin Ha. unfold modexp_cost. set (data := calldata_data input st).
  pose proof (data_number_word data 0 32 ltac:(lia)) as Hbl.
  pose proof (data_number_word data 32 32 ltac:(lia)) as Hel.
  pose proof (data_number_word data 64 32 ltac:(lia)) as Hml.
  pose proof (pc_word_run input st Hin 0 32 ltac:(lia) ltac:(lia)) as R1.
  pose proof (pc_word_run input st Hin 32 32 ltac:(lia) ltac:(lia)) as R2.
  pose proof (pc_word_run input st Hin 64 32 ltac:(lia) ltac:(lia)) as R3.
  change (Z.to_nat 32) with 32%nat in *. fold data in R1, R2, R3.
  revert Hbl Hel Hml R1 R2 R3.
  generalize (data_number data 0 32), (data_number data 32 32), (data_number data 64 32).
  intros bl el ml Hbl Hel Hml R1 R2 R3. cbv zeta.
  rewrite (modexp_lengths_ok input available st bl el ml
             (data_number data (96 + bl) (Z.to_nat (el `min` 32)))); try done.
  - by destruct (_ && _).
  - apply data_number_word. lia.
  - unfold is_word in *. apply pc_word_after_run; [done|lia..].
Qed.

(** The discount of a multi-scalar multiplication of [k] pairs. *)
Definition msm_discount (table : list Z) (maxd k : Z) : Z :=
  default maxd (table !! Z.to_nat (k - 1)).

Definition msm_cost (table : list Z) (base maxd k : Z) : Z :=
  if k =? 0 then 0 else k * base * msm_discount table maxd k / 1000.

Lemma bls_msm_gas_ok table base maxd k available :
  length table = 128%nat → table !! 127%nat = Some maxd →
  Forall (λ d, 0 <= d < 2 ^ 16) table → 0 <= base → 0 <= k → is_gas available →
  bls_msm_gas table base maxd k available = Ok (charge_of (msm_cost table base maxd k) available).
Proof.
  intros Hl Hmax Ht Hb Hk Ha. unfold bls_msm_gas, msm_cost.
  destruct (Z.eqb_spec k 0) as [|Hk0].
  { apply charge_affordable; [done|]. unfold is_gas, GAS_COST_ZERO in *. lia. }
  assert ((if k <? 128 then d ← sail_vector_access table (128 - k) false; bls_discount d
           else Ok maxd) = Ok (msm_discount table maxd k) ∧ 0 <= msm_discount table maxd k)
    as [-> Hd].
  { unfold msm_discount. destruct (Z.ltb_spec k 128).
    - unfold sail_vector_access, _logical_index, py_len. rewrite Hl.
      rewrite (proj2 (Z.leb_le _ _)), (proj2 (Z.ltb_lt _ _)) by lia. cbn [andb mbind outcome_bind].
      replace (Z.of_nat 128 - 1 - (128 - k)) with (k - 1) by lia.
      destruct (lookup_lt_is_Some_2 table (Z.to_nat (k - 1))) as [d Hd]; [lia|].
      pose proof (Forall_lookup_1 _ _ _ _ Ht Hd). cbn in *. rewrite Hd. cbn.
      unfold bls_discount. rewrite BoundedUint_ok by lia. split; [done|lia].
    - split; [|].
      + destruct (decide (k = 128)) as [->|].
        * change (Z.to_nat (128 - 1)) with 127%nat. by rewrite Hmax.
        * rewrite lookup_ge_None_2 by lia. done.
      + pose proof (Forall_lookup_1 _ _ _ _ Ht Hmax). cbn in *.
        destruct (table !! Z.to_nat (k - 1)) eqn:E; cbn; [|lia].
        by pose proof (Forall_lookup_1 _ _ _ _ Ht E) as [? _]. }
  set (disc := msm_discount table maxd k) in *. cbn [mbind outcome_bind].
  rewrite sail_ediv_pos, sail_tmod_ok, Z.rem_mod_nonneg by lia. cbn [mbind outcome_bind].
  assert (k * base * disc / 1000 = base * disc * (k / 1000) + base * disc * (k mod 1000) / 1000) as ->.
  { pose proof (Z.div_mod k 1000). replace (k * base * disc)
      with (base * disc * (k mod 1000) + base * disc * (k / 1000) * 1000)
      by (rewrite (Z.div_mod k 1000) at 3 by done; ring).
    rewrite Z.div_add by lia. lia. }
  pose proof (Z.div_pos k 1000). pose proof (Z.mod_pos_bound k 1000).
  assert (0 <= base * disc * (k mod 1000) / 1000) by (apply Z.div_pos; nia).
  assert (0 <= base * disc * (k / 1000)) by nia.
  destruct (Z.ltb_spec available (base * disc * (k / 1000))).
  - apply charge_unaffordable. lia.
  - rewrite sail_ediv_pos by lia. cbn [mbind outcome_bind]. apply charge_tested; [done|lia].
Qed.

(** What each precompile costs on an input; [None] when it is refused. *)
Definition precompile_cost (num : PrecompileId) (data : bytes) : option Z :=
  let len := py_len data in
  match num with
  | NotPrecompile => None
  | Ecrecover => Some 3000
  | Sha256 => Some (60 + 12 * words_of len)
  | Ripemd160 => Some (600 + 120 * words_of len)
  | Identity => Some (15 + 3 * words_of len)
  | Modexp => modexp_cost (Osaka <=? fork profile) data
  | Bn254Add => Some 150
  | Bn254Mul => Some 6000
  | Bn254Pairing => Some (45000 + 34000 * (len / 192))
  | Blake2f => Some (data_number data 0 4)
  | KzgPointEvaluation => Some 50000
  | BlsG1Add => Some 375
  | BlsG1Msm => Some (msm_cost BLS_G1_DISCOUNT 12000 519 (len / 160))
  | BlsG2Add => Some 600
  | BlsG2Msm => Some (msm_cost BLS_G2_DISCOUNT 22500 524 (len / 288))
  | BlsPairing => Some (37700 + 32600 * (len / 384))
  | BlsMapFpToG1 => Some 5500
  | BlsMapFp2ToG2 => Some 23800
  | P256Verify => Some 6900
  end.

Lemma linear_gas_ok base per_unit units available :
  is_gas available → 0 <= base → 0 <= per_unit → 0 <= units →
  linear_gas base per_unit units available = Ok (charge_of (base + per_unit * units) available).
Proof.
  intros Ha Hb Hp Hu. unfold linear_gas. rewrite (Z.add_comm base). apply charge_tested'; [done|nia].
Qed.

Lemma discounts_wf :
  length BLS_G1_DISCOUNT = 128%nat ∧ BLS_G1_DISCOUNT !! 127%nat = Some 519 ∧
  Forall (λ d, 0 <= d < 2 ^ 16) BLS_G1_DISCOUNT ∧
  length BLS_G2_DISCOUNT = 128%nat ∧ BLS_G2_DISCOUNT !! 127%nat = Some 524 ∧
  Forall (λ d, 0 <= d < 2 ^ 16) BLS_G2_DISCOUNT.
Proof. split_and!; try done; apply (bool_decide_unpack _); by vm_compute. Qed.

(** C18: Every precompile charges exactly its published price for its input,
    for every input and every amount of gas available: when the price is not
    affordable, or an operand of modular exponentiation is over the size limit
    of Osaka, nothing is charged and the call is refused; reading the input
    never raises, whatever the lengths it declares. *)
Theorem precompile_gas_exact (num : PrecompileId) (input : CalldataSlice) (available : Z) (st : HostState) :
  calldata_in input st → is_gas available →
  precompile_gas profile num input available st =
    (Ok (charge_opt (precompile_cost num (calldata_data input st)) available), st).
Proof.
  intros Hin Ha. unfold precompile_gas.
  rewrite bind_run, of_outcome_run, (calldata_length_ok _ _ Hin).
  set (data := calldata_data input st). set (len := py_len data).
  assert (0 <= len) as Hlen by (unfold len, py_len; lia).
  rewrite bind_run, of_outcome_run, memory_word_count_ok by done.
  pose proof (words_of_nonneg len Hlen) as Hw.
  assert (∀ n, 0 < n → 0 <= len / n) as Hdiv by (intros; by apply Z.div_pos).
  destruct discounts_wf as (? & ? & ? & ? & ? & ?). pose proof (data_number_bound data 0 4) as Hr.
  destruct num; cbn [precompile_cost charge_opt]; fold len;
    rewrite ?of_outcome_run, ?sail_ediv_pos by done; cbn [mbind outcome_bind];
    try (f_equal; unfold fixed_precompile_gas;
         first [apply charge_tested; [done|lia]
               |apply linear_gas_ok; [done|lia..|first [done|by apply Hdiv]]
               |apply bls_msm_gas_ok; [done..|lia|by apply Hdiv|done]]).
  - by apply modexp_gas_run.
  - unfold pc_blake2_rounds. rewrite bind_run, bind_run, (pc_word_run input st Hin) by lia.
    change (Z.to_nat 4) with 4%nat. fold data. rewrite bind_run, of_outcome_run.
    change (Z.shiftl 1 32) with (2 ^ 32). change (256 ^ Z.of_nat 4) with (2 ^ 32) in Hr.
    rewrite sail_tmod_ok, Z.rem_small by lia. rewrite of_outcome_run.
    unfold blake2_rounds. rewrite BoundedUint_ok by lia. rewrite of_outcome_run.
    f_equal. apply charge_tested; [done|lia].
Qed.
End prices.

Lemma precompile_gas_exact_witness :
  precompile_gas (mkProtocolProfile Cancun (mkBlobSchedule 3 6 3338477) 0 0 0 0 0 0 5) Modexp
    EMPTY_CALLDATA 1000 initial_state =
    (Ok (mkGasCharge true 200), initial_state).
Proof.
  apply (precompile_gas_exact (mkProtocolProfile Cancun (mkBlobSchedule 3 6 3338477) 0 0 0 0 0 0 5)
    Modexp EMPTY_CALLDATA 1000 initial_state); vm_compute; intuition congruence.
Defined.
