(* ===== verification/MemoryTheorems.v ===== *)
(** * MemoryTheorems: what the region functions guarantee

    The frame-memory functions against a flat zero-extended memory, the
    append-only code region, the scratch arena and the bulk queries. *)

From Stdlib Require Import ZArith Lia.
From stdpp Require Import base tactics option list gmap.
From S2P Require Import Prelude PyBytes OrderedDict HostTypes Regions RegionFacts.

#[local] Open Scope Z_scope.

(** The memory an operation leaves behind. *)
Lemma memory_put m s : memory (put (set_memory_bytes m s.(regions)) s) = m.
Proof. reflexivity. Qed.

(** [mem_store_word] then [mem_load_word] behave as a flat, zero-extended
    memory of 256-bit big-endian words: loading the address just written
    returns the value modulo 2^256, loading any word that does not overlap it
    returns what was there before, and nothing outside the 32 bytes changes. *)
Theorem mem_store_load_word (o o' v : Z) (s s' : HostState) :
  0 <= o → 0 <= o' →
  mem_store_word o v s = (Ok tt, s') →
  mem_load_word o s' = (Ok (v mod 2 ^ 256), s') ∧
  (o' + 32 <= o ∨ o + 32 <= o' →
   mem_load_word o' s' = (fst (mem_load_word o' s), s')) ∧
  (∀ k, 0 <= k → ¬ (o <= k < o + 32) → mem_at (memory s') k = mem_at (memory s) k) ∧
  py_len (memory s') = Z.max (py_len (memory s)) (o + 32).
Proof.
  intros Ho Ho'. rewrite mem_store_word_run. intros [= <-].
  rewrite !mem_load_word_run by done. rewrite !memory_put. split_and!.
  - do 2 f_equal. change 32%nat with (length (be_bytes 32 v)) at 1.
    by rewrite mem_range_write_same, from_be_be_bytes.
  - intros Hd. cbn [fst]. do 3 f_equal. apply mem_range_write_other; [done..|].
    rewrite be_bytes_len. lia.
  - intros k Hk Hout. rewrite mem_at_write by done. rewrite be_bytes_len.
    by rewrite decide_False.
  - rewrite write_at_length by done. by rewrite be_bytes_len.
Qed.

Lemma mem_store_load_word_witness :
  0 <= 5 ∧ ∃ s', mem_store_word 5 (2 ^ 256 + 7) initial_state = (Ok tt, s') ∧
    mem_load_word 5 s' = (Ok 7, s').
Proof.
  split; [lia|]. run_call_as Hc.
  refine (eq_trans (proj1 (mem_store_load_word 5 40 _ _ _ _ _ Hc)) _);
    (lia || vm_compute; reflexivity).
Defined.

(** [mem_move] has [memmove] semantics even for overlapping ranges: each
    destination byte gets the old (zero-extended) source byte and every other
    byte keeps its value. *)
Theorem mem_move_spec (d sr n : Z) (s s' : HostState) :
  0 <= d → 0 <= sr → 0 <= n →
  mem_move d sr n s = (Ok tt, s') →
  ∀ k, 0 <= k →
    mem_at (memory s') k =
    if decide (d <= k < d + n) then mem_at (memory s) (sr + (k - d))
    else mem_at (memory s) k.
Proof.
  intros Hd Hs Hn. rewrite mem_move_run by done. intros [= <-] k Hk.
  rewrite memory_put. by apply mem_at_copy.
Qed.

Lemma mem_move_spec_witness :
  ∃ s', mem_move 1 0 3 (put (set_memory_bytes [Byte.x01; Byte.x02; Byte.x03]
          (regions initial_state)) initial_state) = (Ok tt, s') ∧
    mem_at (memory s') 3 = Byte.x03 ∧ memory s' = [Byte.x01; Byte.x01; Byte.x02; Byte.x03].
Proof.
  run_call_as Hc. split; [|reflexivity].
  refine (eq_trans (mem_move_spec 1 0 3 _ _ _ _ _ Hc 3 _) _); (lia || reflexivity).
Defined.

(** [mem_expand] accepts exactly the well-formed growing requests; then
    the newly established bytes read zero, whatever a previous frame left
    there, and no byte outside the request changes. A refused request leaves
    the state as it was. *)
Theorem mem_expand_spec (base established required : Z) (s : HostState) :
  if decide (0 <= base ∧ 0 <= established ∧ established < required) then
    ∃ s', mem_expand base established required s = (Ok tt, s') ∧
      (∀ k, 0 <= k → mem_at (memory s') k =
         if decide (base + established <= k < base + required) then Byte.x00
         else mem_at (memory s) k) ∧
      py_len (memory s') = Z.max (py_len (memory s)) (base + required)
  else
    mem_expand base established required s =
      (Raise (ValueError "invalid EVM memory expansion"), s).
Proof.
  case_decide as H.
  - eexists. split; [by apply mem_expand_run; lia|].
    assert (Hp : py_len (zeros (required - established)) = required - established)
      by (rewrite zeros_length; lia).
    split.
    + intros k Hk. rewrite memory_put, mem_at_write by lia.
      destruct (decide (base + established <= k < base + required)).
      * rewrite decide_True by lia. apply lookup_zeros.
      * by rewrite decide_False by lia.
    + rewrite memory_put, write_at_length; lia.
  - unfold mem_expand, raise. case_match eqn:E; [done|]. exfalso. apply H. lia.
Qed.

(** copying from any region into memory writes, byte for byte, the
    zero-extended source slice to the destination and leaves every other
    memory byte alone; the copied slice itself is only read. *)
Theorem copy_to_memory_spec (kind : RegionKind) (v : Slice) (d sr n : Z) (s s' : HostState) :
  0 <= d → 0 <= sr → 0 <= n →
  _copy_to_memory kind v d sr n s = (Ok tt, s') →
  (∀ k, 0 <= k → mem_at (memory s') k =
     if decide (d <= k < d + n)
     then mem_at (_slice_bytes (region_of kind s) v) (sr + (k - d))
     else mem_at (memory s) k) ∧
  (∀ kind', kind' ≠ RMemory → region_of kind' s' = region_of kind' s).
Proof.
  intros Hd Hs Hn. rewrite copy_to_memory_run by done. intros [= <-]. split.
  - intros k Hk. rewrite memory_put. by apply mem_at_copy.
  - by intros [].
Qed.

Lemma copy_to_memory_spec_witness :
  let s := put (set_code_bytes [Byte.x0a; Byte.x0b] (regions initial_state)) initial_state in
  ∃ s', code_region_copy_to_memory (mkSlice 1 1) 0 0 2 s = (Ok tt, s') ∧
    region_of RCode s' = [Byte.x0a; Byte.x0b] ∧ memory s' = [Byte.x0b; Byte.x00].
Proof.
  run_call_as Hc. split; [|reflexivity].
  refine (proj2 (copy_to_memory_spec RCode (mkSlice 1 1) 0 0 2 _ _ _ _ _ Hc) RCode _);
    (lia || discriminate).
Defined.

(** the code region only grows: appending code returns a slice that reads
    back exactly the appended bytes, and every slice of the code that existed
    before still reads the same bytes. The call fails only when the region
    would outgrow the 32-bit cursor space. *)
Theorem append_code_stable (payload : bytes) (s : HostState) :
  let n := py_len (region_of RCode s) in
  let '(r, s') := _append_code payload s in
  region_of RCode s' = region_of RCode s ++ payload ∧
  (∀ v, 0 <= v.(sl_bytes) → 0 <= v.(sl_len) → v.(sl_bytes) + v.(sl_len) <= n →
     _slice_bytes (region_of RCode s') v = _slice_bytes (region_of RCode s) v) ∧
  (n + py_len payload <= 2 ^ 32 - 1 →
     ∃ v, r = Ok v ∧ _slice_bytes (region_of RCode s') v = payload) ∧
  (2 ^ 32 - 1 < n + py_len payload → is_ok r = false).
Proof.
  cbv zeta. rewrite append_code_run. pose proof (py_len_nonneg payload).
  pose proof (py_len_nonneg (region_of RCode s)). split_and!.
  - done.
  - intros [o l]; cbn [sl_bytes sl_len]. intros. unfold _slice_bytes; cbn [sl_bytes sl_len].
    rewrite !py_slice_nonneg by lia. unfold py_len in *. cbn in *.
    rewrite drop_app_le by lia. rewrite take_app_le; [done|]. rewrite length_drop. lia.
  - intros. rewrite code_region_slice_ok by lia. eexists. split; [done|].
    unfold _slice_bytes; cbn [sl_bytes sl_len]. rewrite py_slice_nonneg by lia.
    unfold py_len. cbn. rewrite !Nat2Z.id, drop_app_length. by rewrite take_ge.
  - apply code_region_slice_over.
Qed.

(** storing into the scratch arena: on success the arena slice that is
    returned ends with the payload at the requested offset, and the arena
    below the offset is unchanged (zero-filled where it did not exist). *)
Theorem scratch_store_readback (o : Z) (payload : bytes) (s s' : HostState) (v : Slice) :
  0 <= o →
  _scratch_store o payload s = (Ok v, s') →
  v = mkSlice 0 (o + py_len payload) ∧
  mem_range (region_of RScratch s') o (length payload) = payload ∧
  (∀ k, 0 <= k < o → mem_at (region_of RScratch s') k = mem_at (region_of RScratch s) k) ∧
  py_len (_slice_bytes (region_of RScratch s') v) = o + py_len payload.
Proof.
  intros Ho. unfold _scratch_store, modify_regions. py_step. rewrite zoom_run. cbn.
  unfold scratch_slice, checked_slice. case_match eqn:E; [|done]. intros [= <- <-].
  pose proof (py_len_nonneg payload). cbn.
  rewrite (splice_ensure_write _ o (py_len payload) payload eq_refl).
  split_and!.
  - done.
  - by apply mem_range_write_same.
  - intros k Hk. rewrite mem_at_write by lia. by rewrite decide_False by lia.
  - unfold _slice_bytes; cbn. rewrite py_slice_in_length;
      rewrite ?write_at_length; lia.
Qed.

Lemma scratch_store_readback_witness :
  ∃ s' v, host_scratch_store_word 3 513 2 initial_state = (Ok v, s') ∧
    v = mkSlice 0 5 ∧ region_of RScratch s' = [Byte.x00; Byte.x00; Byte.x00; Byte.x02; Byte.x01].
Proof.
  run_call_as Hc. split; [|reflexivity].
  refine (proj1 (scratch_store_readback 3 [Byte.x02; Byte.x01] initial_state _ _ _ Hc)).
  lia.
Defined.

(** [_load_word] decodes the zero-extended slice as a big-endian integer of
    the requested width, so a load past the end of a slice reads zeros, and the
    result always fits the width. *)
Theorem load_word_bounds (kind : RegionKind) (v : Slice) (o n : Z) (s : HostState) :
  0 <= o → 0 <= n →
  ∃ w, _load_word kind v o n s = (Ok w, s) ∧ 0 <= w < 256 ^ n ∧
    be_bytes (Z.to_nat n) w = mem_range (_slice_bytes (region_of kind s) v) o (Z.to_nat n) ∧
    (py_len (_slice_bytes (region_of kind s) v) <= o → w = 0).
Proof.
  intros Ho Hn. eexists. split; [by apply load_word_run|].
  set (l := _slice_bytes _ _). split_and!.
  - apply from_be_bound.
  - pose proof (from_be_bound (mem_range l o (Z.to_nat n))) as H.
    unfold py_len in H. rewrite mem_range_length, Z2Nat.id in H by done. lia.
  - rewrite <-(mem_range_length l o (Z.to_nat n)) at 1. apply be_bytes_from_be.
  - intros Hl. rewrite (mem_range_ext l (zeros n)) by
      (try lia; intros; rewrite mem_at_past by lia; symmetry; apply lookup_zeros).
    rewrite <-(from_be_zeros n). f_equal. unfold zeros.
    apply list_eq. intros i. destruct (decide (i < Z.to_nat n)%nat).
    + rewrite mem_range_lookup, lookup_replicate_2 by done. f_equal. apply lookup_zeros.
    + rewrite !lookup_ge_None_2; rewrite ?mem_range_length, ?length_replicate; done || lia.
Qed.

Lemma load_word_bounds_witness :
  let s := put (set_code_bytes [Byte.x01; Byte.x02] (regions initial_state)) initial_state in
  ∃ w, code_region_load_n_word (mkSlice 0 2) 1 2 s = (Ok w, s) ∧ w = 512 ∧
    0 <= w < 256 ^ 2.
Proof.
  destruct (load_word_bounds RCode (mkSlice 0 2) 1 2
    (put (set_code_bytes [Byte.x01; Byte.x02] (regions initial_state)) initial_state)
    ltac:(lia) ltac:(lia)) as (w & H1 & H2 & _).
  exists w. split; [exact H1|]. split; [|exact H2].
  vm_compute in H1. congruence.
Defined.

(** the bulk zero test is exact: it reports [true] if and only if every
    byte of every [width]-byte item it strides over reads zero. *)
Theorem strided_zero_spec (kind : RegionKind) (v : Slice) (start stride width count : Z)
    (s : HostState) :
  0 <= start → 0 <= stride → 0 <= width →
  ∃ b, _strided_zero kind v start stride width count s = (Ok b, s) ∧
    (b = true ↔ ∀ i j, 0 <= i < count → 0 <= j < width →
       mem_at (_slice_bytes (region_of kind s) v) (start + i * stride + j) = Byte.x00).
Proof.
  intros Hs Ht Hw. eexists. split; [reflexivity|].
  set (l := _slice_bytes _ _).
  rewrite forallb_forall. setoid_rewrite forallb_forall. split.
  - intros H i j Hi Hj. specialize (H (Z.to_nat i)).
    rewrite Z2Nat.id in H by lia.
    unfold mem_at. destruct (l !! _) as [b|] eqn:E; [|done]. cbn.
    apply Z_of_byte_inj. change (Z_of_byte Byte.x00) with 0.
    apply Z.eqb_eq, H.
    + apply in_seq. lia.
    + apply list_elem_of_In. apply (list_elem_of_lookup_2 _ (Z.to_nat j)).
      rewrite py_slice_nonneg by nia. rewrite lookup_take_lt by lia.
      rewrite lookup_drop, <-E. f_equal. nia.
  - intros H i Hi%in_seq b Hb%list_elem_of_In.
    apply list_elem_of_lookup in Hb as [j Hj].
    rewrite py_slice_nonneg in Hj by nia.
    apply lookup_take_Some in Hj as [Hj Hjw]. rewrite lookup_drop in Hj.
    specialize (H (Z.of_nat i) (Z.of_nat j)). unfold mem_at in H.
    replace (Z.to_nat (start + Z.of_nat i * stride + Z.of_nat j))
      with (Z.to_nat (start + Z.of_nat i * stride) + j)%nat in H by nia.
    fold l in Hj. rewrite Hj in H. cbn in H. rewrite H by lia. done.
Qed.

Lemma strided_zero_spec_witness :
  let s := put (set_memory_bytes [Byte.x00; Byte.x07; Byte.x00] (regions initial_state)) initial_state in
  ∃ b, memory_slice_strided_zero (mkSlice 0 3) 0 2 1 2 s = (Ok b, s) ∧ b = true.
Proof.
  destruct (strided_zero_spec RMemory (mkSlice 0 3) 0 2 1 2
    (put (set_memory_bytes [Byte.x00; Byte.x07; Byte.x00] (regions initial_state)) initial_state)
    ltac:(lia) ltac:(lia) ltac:(lia)) as (b & H1 & H2).
  exists b. split; [exact H1|]. vm_compute in H1. congruence.
Defined.
