(* ===== verification/Sha256.v ===== *)
(** * Sha256: [hashlib.sha256]

    The digest of the Python standard library the host uses, following FIPS
    180-4, on 32-bit words held in [Z]. *)

From Stdlib Require Import ZArith Lia.
From stdpp Require Import base tactics option list.
From S2P Require Import Prelude PyBytes.

#[local] Open Scope Z_scope.

Definition mask32 : Z := 2 ^ 32 - 1.
Definition add32 (x y : Z) : Z := Z.land (x + y) mask32.
Definition rotr32 (x n : Z) : Z :=
  Z.lor (Z.shiftr x n) (Z.land (Z.shiftl x (32 - n)) mask32).

Definition sha_ch (x y z : Z) : Z := Z.lxor (Z.land x y) (Z.land (Z.lxor x mask32) z).
Definition sha_maj (x y z : Z) : Z :=
  Z.lxor (Z.lxor (Z.land x y) (Z.land x z)) (Z.land y z).
Definition big_sigma0 (x : Z) : Z :=
  Z.lxor (Z.lxor (rotr32 x 2) (rotr32 x 13)) (rotr32 x 22).
Definition big_sigma1 (x : Z) : Z :=
  Z.lxor (Z.lxor (rotr32 x 6) (rotr32 x 11)) (rotr32 x 25).
Definition small_sigma0 (x : Z) : Z :=
  Z.lxor (Z.lxor (rotr32 x 7) (rotr32 x 18)) (Z.shiftr x 3).
Definition small_sigma1 (x : Z) : Z :=
  Z.lxor (Z.lxor (rotr32 x 17) (rotr32 x 19)) (Z.shiftr x 10).

(** The constants are not written out but computed from their definition: the
    first 32 bits of the fractional parts of the cube roots (round constants)
    and square roots (initial state) of the first primes. *)
Definition is_prime (n : nat) : bool :=
  forallb (λ d, negb (n mod d =? 0)%nat) (seq 2 (n - 2)).
Definition primes (bound : nat) : list Z :=
  Z.of_nat <$> List.filter is_prime (seq 2 (bound - 2)).

(** The integer cube root, bit by bit from the top. *)
Fixpoint cube_root (bits : nat) (root n : Z) : Z :=
  match bits with
  | O => root
  | S bits =>
      let candidate := root + 2 ^ Z.of_nat bits in
      cube_root bits (if candidate * candidate * candidate <=? n then candidate else root) n
  end.

(** [⌊2^32 * frac(p^(1/3))⌋] for the 64 primes below 312. *)
Definition sha_k : list Z :=
  Eval vm_compute in (λ p, cube_root 40 0 (p * 2 ^ 96) mod 2 ^ 32) <$> primes 312.

(** [⌊2^32 * frac(p^(1/2))⌋] for the 8 primes below 20. *)
Definition sha_init : list Z :=
  Eval vm_compute in (λ p, Z.sqrt (p * 2 ^ 64) mod 2 ^ 32) <$> primes 20.

(** The message schedule, most recent word first. *)
Fixpoint sha_schedule (n : nat) (w : list Z) : list Z :=
  match n with
  | O => w
  | S n =>
      let at_ k := nth (k - 1) w 0 in
      sha_schedule n
        (add32 (add32 (small_sigma1 (at_ 2%nat)) (at_ 7%nat))
               (add32 (small_sigma0 (at_ 15%nat)) (at_ 16%nat)) :: w)
  end.

Definition sha_round (st : list Z) (kw : Z * Z) : list Z :=
  match st with
  | [a; b; c; d; e; f; g; h] =>
      let t1 := add32 (add32 (add32 h (big_sigma1 e)) (add32 (sha_ch e f g) kw.1)) kw.2 in
      let t2 := add32 (big_sigma0 a) (sha_maj a b c) in
      [add32 t1 t2; a; b; c; add32 d t1; e; f; g]
  | _ => st
  end.

(** Splits a list into consecutive chunks of [n] items. *)
Fixpoint chunks {A} (fuel n : nat) (l : list A) : list (list A) :=
  match fuel, l with
  | S fuel, _ :: _ => take n l :: chunks fuel n (drop n l)
  | _, _ => []
  end.

Definition sha_block (st : list Z) (block : bytes) : list Z :=
  let words := from_be <$> chunks 16 4 block in
  let schedule := rev (sha_schedule 48 (rev words)) in
  zip_with add32 st (foldl sha_round st (zip sha_k schedule)).

Definition sha_pad (data : bytes) : bytes :=
  let zeros_needed := (55 - py_len data) mod 64 in
  data ++ [Byte.x80] ++ zeros zeros_needed ++ be_bytes 8 (8 * py_len data).

(** [sha256(data).digest()] *)
Definition sha256 (data : bytes) : bytes :=
  let padded := sha_pad data in
  foldl sha_block sha_init (chunks (length padded) 64 padded) ≫= be_bytes 4.

(** ** Shape of the digest *)

Lemma sha_pad_length data : py_len (sha_pad data) mod 64 = 0.
Proof.
  unfold sha_pad. rewrite !py_len_app, be_bytes_len, zeros_length.
  change (py_len [Byte.x80]) with 1.
  pose proof (Z.mod_pos_bound (55 - py_len data) 64 ltac:(lia)).
  rewrite Z.max_r by lia. pose proof (Z.div_mod (55 - py_len data) 64 ltac:(lia)).
  apply Z.mod_divide; [done|]. exists (1 - (55 - py_len data) / 64). lia.
Qed.

Lemma sha_round_length st kw : length (sha_round st kw) = length st.
Proof. unfold sha_round. do 9 (destruct st as [|? st]; try reflexivity). Qed.

Lemma sha_rounds_length kws st : length (foldl sha_round st kws) = length st.
Proof.
  revert st. induction kws as [|kw kws IH]; intros st; cbn; [done|].
  by rewrite IH, sha_round_length.
Qed.

Lemma sha_blocks_length blocks st : length (foldl sha_block st blocks) = length st.
Proof.
  revert st. induction blocks as [|b bs IH]; intros st; cbn; [done|].
  rewrite IH. unfold sha_block. rewrite length_zip_with, sha_rounds_length. lia.
Qed.

Lemma sha256_length data : length (sha256 data) = 32%nat.
Proof.
  unfold sha256. set (st := foldl _ _ _).
  assert (length st = 8%nat) as H by apply sha_blocks_length. clearbody st.
  do 9 (destruct st as [|? st]; try discriminate). cbn [mbind list_bind].
  by rewrite !length_app, !be_bytes_length.
Qed.

(** The vectors of FIPS 180-4, for a short, an empty and a two-block message. *)
Definition of_hex (n : nat) (v : Z) : bytes := be_bytes n v.

Lemma sha256_abc : sha256 [Byte.x61; Byte.x62; Byte.x63] =
  of_hex 32 0xba7816bf8f01cfea414140de5dae2223b00361a396177a9cb410ff61f20015ad.
Proof. vm_compute. reflexivity. Qed.

Lemma sha256_empty : sha256 [] =
  of_hex 32 0xe3b0c44298fc1c149afbf4c8996fb92427ae41e4649b934ca495991b7852b855.
Proof. vm_compute. reflexivity. Qed.

Lemma sha256_two_blocks :
  sha256 (of_hex 56 0x6162636462636465636465666465666765666768666768696768696a68696a6b696a6b6c6a6b6c6d6b6c6d6e6c6d6e6f6d6e6f706e6f7071)
  = of_hex 32 0x248d6a61d20638b8e5c026930c3e6039a33ce45964ff2167f6ecedd419db06c1.
Proof. vm_compute. reflexivity. Qed.
