(* ===== verification/Crypto.v ===== *)
(** * Crypto: the digests of the host

    Keccak-256 comes from a third-party package ([ethereum.crypto.hash] or
    pycryptodome), so it is an interface; SHA-256 is the standard library's.
    The digest functions of [HostContract.py] are defined over both. *)

From Stdlib Require Import ZArith Lia.
From stdpp Require Import base tactics option list gmap.
From S2P Require Import Prelude PyBytes OrderedDict HostTypes Regions Sha256.

#[local] Open Scope Z_scope.

(** What the host relies on: a function to 32-byte digests. *)
Class Keccak := {
  _keccak : bytes → bytes;
  _keccak_length : ∀ data, length (_keccak data) = 32%nat;
}.

Section digests.
Context `{Keccak}.

Definition _keccak_region (kind : RegionKind) (value : Slice) : M HostState hash :=
  data ← _region_bytes kind value; mret (_bytes32_from_wire (_keccak data)).

Definition _sha256_region (kind : RegionKind) (value : Slice) : M HostState hash :=
  data ← _region_bytes kind value; mret (_bytes32_from_wire (sha256 data)).

Definition stateless_input_keccak256 := _keccak_region RInput.
Definition scratch_keccak256 := _keccak_region RScratch.
Definition memory_keccak256 := _keccak_region RMemory.
Definition code_keccak256 := _keccak_region RCode.
Definition output_keccak256 := _keccak_region ROutput.
Definition log_data_keccak256 := _keccak_region RLog.
Definition stateless_input_sha256 := _sha256_region RInput.
Definition scratch_sha256 := _sha256_region RScratch.
Definition memory_sha256 := _sha256_region RMemory.

Definition keccak256_word (value : Z) : hash :=
  _bytes32_from_wire (_keccak (_word_bytes value WORD_BYTES)).

Definition keccak256_address (value : address) : hash :=
  _bytes32_from_wire (_keccak (_fixed_wire_bytes value)).

Definition sha256_pair (left right : hash) : hash :=
  _bytes32_from_wire (sha256 (_fixed_wire_bytes left ++ _fixed_wire_bytes right)).
End digests.

(** A concrete instance, for evaluating the model: the input's length and
    contents folded into 32 bytes. *)
Definition toy_keccak (data : bytes) : bytes := be_bytes 32 (from_be data * 31 + py_len data).

Definition toy_Keccak : Keccak :=
  {| _keccak := toy_keccak; _keccak_length := λ data, be_bytes_length 32 _ |}.
