(* ===== verification/Storage.v ===== *)
(** * Storage: transient storage, the transaction storage table and the block cache

    The storage functions of [HostContract.py]. Transaction rows carry the
    generation of their account at the time they were written: clearing an
    account's storage gives it a fresh generation, which makes its older rows
    invisible without touching them. Every change of the transaction state
    appends the journal entry that undoes it. *)

From Stdlib Require Import ZArith Lia.
From stdpp Require Import base tactics option list gmap.
From S2P Require Import Prelude PyBytes OrderedDict HostTypes Regions Crypto.

#[local] Open Scope Z_scope.

(** [state.journal.append(entry)] *)
Definition journal_append (e : StateJournalEntry) : M World unit :=
  modify (λ w, set_journal (w.(journal) ++ [e]) w).

(** ** Transient storage *)

Definition transient_reset : M World unit := modify (set_transient ∅).

Definition transient_store (address : address) (slot value : Z) : M World unit :=
  let key := _address_slot_key address slot in
  prior ← gets (λ w, default 0 (w.(transient) !! key));
  journal_append (JournalTransientChanged address slot prior);;
  modify (λ w, set_transient (<[key := value]> w.(transient)) w).

Definition transient_load (address : address) (slot : Z) : M World Z :=
  gets (λ w, default 0 (w.(transient) !! _address_slot_key address slot)).

(** ** The transaction table *)

Definition _storage_generation (w : World) (key : bytes) : Z :=
  default STORAGE_INITIAL_GENERATION (w.(storage_generations) !! key).

Definition storage_tx_update (entry : StorageEntry) : M World unit :=
  let canonical := _storage_key entry.(se_key) in
  generation_ ← gets (λ w, _storage_generation w canonical.1);
  found ← gets (λ w, od_get canonical w.(storage_tx));
  match found with
  | None =>
      journal_append (JournalTransactionStorageListed entry.(se_key).(sk_addr));;
      modify (λ w, set_storage_tx
        (od_set canonical
          (mkStorageTxRow entry.(se_key)
            (mkStorageValue entry.(se_value).(sv_curr) entry.(se_value).(sv_orig))
            generation_) w.(storage_tx)) w)
  | Some row =>
      when (negb (row.(str_value).(sv_curr) =? entry.(se_value).(sv_curr)))
        (journal_append (JournalStorageValueChanged row.(str_key) row.(str_value).(sv_curr));;
         modify (λ w, set_storage_tx
           (od_alter (λ r, set_str_value (set_sv_curr entry.(se_value).(sv_curr) r.(str_value)) r)
              canonical w.(storage_tx)) w));;
      when (negb (row.(generation) =? generation_))
        (journal_append (JournalStorageRowGenerationChanged row.(str_key) row.(generation));;
         modify (λ w, set_storage_tx
           (od_alter (set_generation generation_) canonical w.(storage_tx)) w))
  end.

Definition storage_tx_get (key : StorageKey) : M World StorageTxLookup :=
  let canonical := _storage_key key in
  generation_ ← gets (λ w, _storage_generation w canonical.1);
  row ← gets (λ w, od_get canonical w.(storage_tx));
  mret match row with
       | Some row =>
           if row.(generation) =? generation_ then StorageTxHit row.(str_value)
           else if negb (generation_ =? STORAGE_INITIAL_GENERATION) then StorageTxCleared
           else StorageTxMiss
       | None =>
           if negb (generation_ =? STORAGE_INITIAL_GENERATION) then StorageTxCleared
           else StorageTxMiss
       end.

(** [while state.storage_tx: ...popitem()]: at most one turn per row. *)
Fixpoint storage_tx_pop_loop (fuel : nat) : M World StorageTxPopResult :=
  match fuel with
  | O => mret StorageTxPopExhausted
  | S fuel =>
      popped ← gets (λ w, od_popitem w.(storage_tx));
      match popped with
      | None => mret StorageTxPopExhausted
      | Some ((key, row), rest) =>
          modify (set_storage_tx rest);;
          generation_ ← gets (λ w, _storage_generation w key.1);
          if row.(generation) =? generation_
          then mret (StorageTxPopRow (mkStorageEntry row.(str_key) row.(str_value)))
          else storage_tx_pop_loop fuel
      end
  end.

Definition storage_tx_pop : M World StorageTxPopResult :=
  n ← gets (λ w, length w.(storage_tx));
  storage_tx_pop_loop (S n).

Definition storage_tx_clear (address : address) : M World unit :=
  let key := _address_key address in
  prior ← gets (λ w, _storage_generation w key);
  journal_append (JournalAccountStorageGenerationChanged address prior);;
  modify (λ w, set_storage_next_generation (w.(storage_next_generation) + 1) w);;
  modify (λ w, set_storage_generations
    (<[key := w.(storage_next_generation)]> w.(storage_generations)) w).

Definition storage_tx_reset : M World unit :=
  modify (set_storage_tx []);;
  modify (set_storage_generations ∅);;
  modify (set_storage_next_generation STORAGE_INITIAL_GENERATION).

Definition storage_has_writes (address : address) : M World bool :=
  let key := _address_key address in
  generation_ ← gets (λ w, _storage_generation w key);
  tx_writes ← gets (λ w, existsb (λ kv : (bytes * Z) * StorageTxRow,
    bool_decide (kv.1.1 = key) && ((kv.2.(generation) =? generation_)
      && negb (kv.2.(str_value).(sv_curr) =? 0))) w.(storage_tx));
  if (tx_writes : bool) then mret true
  else if negb (generation_ =? STORAGE_INITIAL_GENERATION) then mret false
  else gets (λ w, existsb (λ kv : (bytes * Z) * StorageBlockCacheRow,
    bool_decide (kv.1.1 = key) && negb (kv.2.(sb_value).(sv_curr) =? 0)) w.(storage_block)).

(** ** The block cache *)

Definition ZERO_WORD : Z := 0.

Definition storage_block_get (key : StorageKey) : M World StorageBlockRow :=
  gets (λ w, match od_get (_storage_key key) w.(storage_block) with
             | None => mkStorageBlockRow false (mkStorageValue ZERO_WORD ZERO_WORD)
             | Some row => mkStorageBlockRow true row.(sb_value)
             end).

Definition storage_block_clear (address : address) : M World unit :=
  let key := _address_key address in
  modify (λ w, set_storage_block
    (filter (λ kv : (bytes * Z) * StorageBlockCacheRow, kv.1.1 ≠ key) w.(storage_block)) w).

Section hashed.
Context `{Keccak}.

Definition _storage_row_hashes (key : StorageKey) : M World (hash * hash) :=
  gets (λ w,
    let account := od_get (_address_key key.(sk_addr)) w.(account_block) in
    (match account ≫= ab_address_hash with
     | Some h => h
     | None => keccak256_address key.(sk_addr)
     end, keccak256_word key.(sk_slot))).

Definition storage_block_put (entry : StorageEntry) : M World unit :=
  let canonical := _storage_key entry.(se_key) in
  prior ← gets (λ w, od_get canonical w.(storage_block));
  match prior with
  | None =>
      hashes ← _storage_row_hashes entry.(se_key);
      modify (λ w, set_storage_block
        (od_set canonical
          (mkStorageBlockCacheRow entry.(se_key)
            (mkStorageValue entry.(se_value).(sv_curr) entry.(se_value).(sv_orig))
            (Some hashes.1) (Some hashes.2)) w.(storage_block)) w)
  | Some prior =>
      modify (λ w, set_storage_block
        (od_set canonical
          (mkStorageBlockCacheRow entry.(se_key)
            (mkStorageValue entry.(se_value).(sv_curr) prior.(sb_value).(sv_orig))
            prior.(sb_address_hash) prior.(sb_slot_hash)) w.(storage_block)) w)
  end.

Definition storage_block_cache (key : StorageKey) (slot_hash : option hash) (value : Z) :
    M World unit :=
  let canonical := _storage_key key in
  prior ← gets (λ w, od_get canonical w.(storage_block));
  match prior with
  | Some _ => mret tt
  | None =>
      hashes ← _storage_row_hashes key;
      modify (λ w, set_storage_block
        (od_set canonical
          (mkStorageBlockCacheRow key (mkStorageValue value value)
            (Some hashes.1) slot_hash) w.(storage_block)) w)
  end.
End hashed.

(** [_hash_key] of a possibly missing hash: reversing [None] raises. *)
Definition hash_key_required (h : option hash) : outcome bytes :=
  match h with
  | Some h => Ok (_hash_key h)
  | None => Raise (TypeError "'NoneType' object is not reversible")
  end.

(** [sorted(rows, key=lambda row: _hash_key(row.hash))] *)
Definition sorted_by_hash {R} (hash_of : R → option hash) (rows : list R) : outcome (list R) :=
  keyed ← mapM (λ row, k ← hash_key_required (hash_of row); mret (k, row)) rows;
  mret (snd <$> py_sorted bytes_leb fst keyed).

Definition storage_block_iter_begin (address : address) : M World unit :=
  let key := _address_key address in
  rows ← gets (λ w, snd <$> filter (λ kv : (bytes * Z) * StorageBlockCacheRow, kv.1.1 = key)
    w.(storage_block));
  rows' ← of_outcome (sorted_by_hash sb_slot_hash rows);
  modify (set_storage_iterator rows').

Fixpoint storage_block_iter_loop (key : bytes) (rows : list StorageBlockCacheRow) :
    M World StorageBlockIterResult :=
  match rows with
  | [] => modify (set_storage_iterator []);; mret StorageBlockIterExhausted
  | row :: rest =>
      if decide (_address_key row.(sb_key).(sk_addr) = key)
      then modify (set_storage_iterator rest);;
           mret (StorageBlockIterRow
             (mkStorageTrieEntry (mkStorageEntry row.(sb_key) row.(sb_value))
                row.(sb_address_hash) row.(sb_slot_hash)))
      else storage_block_iter_loop key rest
  end.

Definition storage_block_iter_next (address : address) : M World StorageBlockIterResult :=
  rows ← gets storage_iterator;
  storage_block_iter_loop (_address_key address) rows.
