(* ===== verification/Accounts.v ===== *)
(** * Accounts: the transaction account table and the block account cache

    The account functions of [HostContract.py]. The first change of an account
    in a transaction lists a row with the cached account as its original;
    later changes journal the field they replace. *)

From Stdlib Require Import ZArith Lia.
From stdpp Require Import base tactics option list gmap.
From S2P Require Import Prelude PyBytes OrderedDict HostTypes Regions Crypto Storage.

#[local] Open Scope Z_scope.

(** [hash(KECCAK_EMPTY)] and [hash(EMPTY_TRIE_ROOT)] of [primitives/crypto.py]. *)
Definition KECCAK_EMPTY : hash := _bytes32_from_wire
  (be_bytes 32 0xc5d2460186f7233c927e7db2dcc703c0e500b653ca82273b7bfad8045d85a470).
Definition EMPTY_TRIE_ROOT : hash := _bytes32_from_wire
  (be_bytes 32 0x56e81f171bcc55a6ff8345e692c0f86e5b48e01b996cadc001622fb5e363b421).

Definition EMPTY_ACCOUNT_INFO : AccountInfo := mkAccountInfo 0 0 KECCAK_EMPTY EMPTY_TRIE_ROOT.
Definition EMPTY_ACCOUNT : Account := mkAccount EMPTY_ACCOUNT_INFO false true false false.

Definition missing_account {A} : M World A :=
  raise (RuntimeError "transaction account update requires a cached account").

(** ** The transaction table *)

Definition acct_tx_get (address : address) : M World AccountRow :=
  gets (λ w, match od_get (_address_key address) w.(account_tx) with
             | None => mkAccountRow false EMPTY_ACCOUNT
             | Some row => mkAccountRow true row.(current)
             end).

(** Lists the transaction row of an account that had none. *)
Definition list_account (key : bytes) (row : AccountTxRow) : M World unit :=
  journal_append JournalTransactionAccountListed;;
  modify (λ w, set_account_tx (od_set key row w.(account_tx)) w).

(** Mutation of the row held under [key]. *)
Definition alter_account (key : bytes) (f : Account → Account) : M World unit :=
  modify (λ w, set_account_tx (od_alter (λ r, set_current (f r.(current)) r) key w.(account_tx)) w).

Definition acct_tx_update (address : address) (value : Account) : M World unit :=
  let key := _address_key address in
  found ← gets (λ w, od_get key w.(account_tx));
  match found with
  | None =>
      block ← gets (λ w, od_get key w.(account_block));
      match block with
      | None => missing_account
      | Some block => list_account key (mkAccountTxRow value block.(ab_value).(av_curr))
      end
  | Some row =>
      let prior := row.(current) in
      when (negb (prior.(info).(balance) =? value.(info).(balance)))
        (journal_append (JournalAccountBalanceChanged address prior.(info).(balance)));;
      when (negb (prior.(info).(nonce) =? value.(info).(nonce)))
        (journal_append (JournalAccountNonceChanged address prior.(info).(nonce)));;
      when (bool_decide (prior.(info).(code_hash) ≠ value.(info).(code_hash)))
        (journal_append (JournalAccountCodeHashChanged address prior.(info).(code_hash)));;
      when (bool_decide (prior.(present) ≠ value.(present)))
        (journal_append (JournalAccountExistsChanged address prior.(present)));;
      when (bool_decide (prior.(created) ≠ value.(created)))
        (journal_append (JournalAccountCreatedChanged address prior.(created)));;
      when (bool_decide (prior.(selfdestructed) ≠ value.(selfdestructed)))
        (journal_append (JournalAccountSelfdestructedChanged address prior.(selfdestructed)));;
      alter_account key (λ _, value)
  end.

Definition _account_tx_required (address : address) : M World AccountTxRow :=
  let key := _address_key address in
  found ← gets (λ w, od_get key w.(account_tx));
  match found with
  | Some row => mret row
  | None =>
      block ← gets (λ w, od_get key w.(account_block));
      match block with
      | None => missing_account
      | Some block =>
          let row := mkAccountTxRow block.(ab_value).(av_curr) block.(ab_value).(av_curr) in
          list_account key row;;
          mret row
      end
  end.

Definition acct_tx_set_balance (address : address) (value : Z) : M World unit :=
  row ← _account_tx_required address;
  when (negb (row.(current).(info).(balance) =? value))
    (journal_append (JournalAccountBalanceChanged address row.(current).(info).(balance));;
     alter_account (_address_key address) (λ a, set_info (set_balance value a.(info)) a)).

Definition acct_tx_set_nonce (address : address) (value : Z) : M World unit :=
  row ← _account_tx_required address;
  when (negb (row.(current).(info).(nonce) =? value))
    (journal_append (JournalAccountNonceChanged address row.(current).(info).(nonce));;
     alter_account (_address_key address) (λ a, set_info (set_nonce value a.(info)) a)).

Definition acct_tx_set_code_hash (address : address) (value : hash) : M World unit :=
  row ← _account_tx_required address;
  when (bool_decide (row.(current).(info).(code_hash) ≠ value))
    (journal_append (JournalAccountCodeHashChanged address row.(current).(info).(code_hash));;
     alter_account (_address_key address) (λ a, set_info (set_code_hash value a.(info)) a)).

Definition acct_tx_pop : M World AcctTxPopResult :=
  popped ← gets (λ w, od_popitem w.(account_tx));
  match popped with
  | None => mret AcctTxPopExhausted
  | Some ((key, row), rest) =>
      modify (set_account_tx rest);;
      block ← gets (λ w, od_get key w.(account_block));
      let address := match block with
                     | Some block => block.(ab_address)
                     | None => _bytes20_from_wire key
                     end in
      mret (AcctTxPopRow (mkAcctEntry address (mkAcctValue row.(current) row.(original))))
  end.

Definition acct_tx_reset : M World unit := modify (set_account_tx []).

(** ** The block cache *)

Definition acct_block_get (address : address) : M World AccountRow :=
  gets (λ w, match od_get (_address_key address) w.(account_block) with
             | None => mkAccountRow false EMPTY_ACCOUNT
             | Some row => mkAccountRow true row.(ab_value).(av_curr)
             end).

Definition acct_block_write `{Keccak} (entry : AcctEntry) : M World unit :=
  let key := _address_key entry.(ae_addr) in
  prior ← gets (λ w, od_get key w.(account_block));
  let address_hash := match prior ≫= ab_address_hash with
                      | Some h => h
                      | None => keccak256_address entry.(ae_addr)
                      end in
  modify (λ w, set_account_block
    (od_set key (mkAccountBlockRow entry.(ae_addr) entry.(ae_value) (Some address_hash))
      w.(account_block)) w).

Definition acct_block_cache (address : address) (address_hash : option hash)
    (account : Account) : M World unit :=
  let key := _address_key address in
  prior ← gets (λ w, od_get key w.(account_block));
  match prior with
  | Some _ => mret tt
  | None =>
      modify (λ w, set_account_block
        (od_set key (mkAccountBlockRow address (mkAcctValue account account) address_hash)
          w.(account_block)) w)
  end.

Definition acct_block_iter_begin : M World unit :=
  orphan ← gets (λ w, existsb (λ k : bytes * Z,
    bool_decide (od_get k.1 w.(account_block) = None)) (od_keys w.(storage_block)));
  if (orphan : bool)
  then raise (RuntimeError "storage update candidate lacks a cached account")
  else
    rows ← gets (λ w, snd <$> w.(account_block));
    rows' ← of_outcome (sorted_by_hash ab_address_hash rows);
    modify (set_account_iterator rows').

Definition acct_block_iter_next : M World AcctBlockIterResult :=
  rows ← gets account_iterator;
  match rows with
  | [] => mret AcctBlockIterExhausted
  | row :: rest =>
      modify (set_account_iterator rest);;
      mret (AcctBlockIterRow
        (mkAcctTrieEntry (mkAcctEntry row.(ab_address) row.(ab_value)) row.(ab_address_hash)))
  end.
