(* ===== verification/WarmLogs.v ===== *)
(** * WarmLogs: warm sets, logs and the authorization tracker

    The EIP-2929 warm-set, log and EIP-7702 authorization functions of
    [HostContract.py], and [k_log] of [kernel/logs.py], the only caller of the
    log builders. Warmth is an epoch stamp compared with the transaction's
    epoch, so a reset is a single increment. *)

From Stdlib Require Import ZArith Lia.
From stdpp Require Import base tactics option list gmap.
From S2P Require Import Prelude PyBytes OrderedDict HostTypes Regions Crypto Storage.

#[local] Open Scope Z_scope.

(** ** Warm accounts and slots *)

Definition warm_reset (epoch : Z) : M World unit := modify (set_current_warm_epoch (epoch + 1)).

Definition account_is_warm (address : address) : M World bool :=
  gets (λ w, w.(current_warm_epoch) <=? default 0 (w.(warm_addresses) !! _address_key address)).

Definition account_mark_warm (address : address) : M World unit :=
  let key := _address_key address in
  stamp ← gets (λ w, default 0 (w.(warm_addresses) !! key));
  epoch ← gets current_warm_epoch;
  when (stamp <? epoch)
    (journal_append (JournalWarmAccountChanged address stamp);;
     modify (λ w, set_warm_addresses
       (<[key := w.(current_warm_epoch)]> w.(warm_addresses)) w)).

Definition storage_is_warm (address : address) (slot : Z) : M World bool :=
  gets (λ w, w.(current_warm_epoch) <=?
    default 0 (w.(warm_slots) !! _address_slot_key address slot)).

Definition storage_mark_warm (address : address) (slot : Z) : M World unit :=
  let key := _address_slot_key address slot in
  stamp ← gets (λ w, default 0 (w.(warm_slots) !! key));
  epoch ← gets current_warm_epoch;
  when (stamp <? epoch)
    (journal_append (JournalWarmStorageChanged (mkStorageKey address slot) stamp);;
     modify (λ w, set_warm_slots (<[key := w.(current_warm_epoch)]> w.(warm_slots)) w)).

(** ** Logs *)

Definition logs_tx_reset : M World unit :=
  modify (λ w, set_transaction_log_start (py_len w.(logs)) w);;
  modify (set_current_log None).

Definition log_begin (address : address) : M World unit :=
  journal_append JournalLogAppended;;
  modify (λ w, set_logs (w.(logs) ++ [mkLogRecord address [] (py_len w.(log_data)) 0]) w);;
  modify (λ w, set_current_log (Some (py_len w.(logs) - 1)) w).

(** The index and the record of the log under construction. *)
Definition _current_log_record : M World (Z * LogRecord) :=
  current ← gets current_log;
  match current with
  | None => raise (RuntimeError "log data was appended before log_begin")
  | Some i =>
      record ← reads (λ w, py_index w.(logs) i);
      mret (i, record)
  end.

(** Mutation of the record at index [i]. *)
Definition alter_log (i : Z) (f : LogRecord → LogRecord) : M World unit :=
  modify (λ w, match py_pos w.(logs) i with
               | Some k => set_logs (alter f k w.(logs)) w
               | None => w
               end).

Definition log_add_topic (value : Z) : M World unit :=
  cur ← _current_log_record;
  alter_log cur.1 (λ r, set_topics (r.(topics) ++ [value]) r).

Definition _append_log_data (payload : bytes) : M World unit :=
  cur ← _current_log_record;
  modify (λ w, set_log_data (w.(log_data) ++ payload) w);;
  alter_log cur.1 (λ r, set_data_length (r.(data_length) + py_len payload) r).

Definition log_add_data_memory (value : Slice) : M HostState unit :=
  payload ← _region_bytes RMemory value;
  zoom (_append_log_data payload).

Definition log_add_data_word (value : Z) : M World unit :=
  _append_log_data (_word_bytes value WORD_BYTES).

Definition logs_tx_start : M World Z := gets transaction_log_start.
Definition logs_tx_count : M World Z := gets (λ w, py_len w.(logs) - w.(transaction_log_start)).

Definition log_at (index : Z) : M World LogRecord := reads (λ w, py_index w.(logs) index).

Definition log_address (index : Z) : M World address :=
  r ← log_at index; mret r.(log_address_).
Definition log_topics_count (index : Z) : M World Z :=
  r ← log_at index; mret (py_len r.(topics)).
Definition log_topic (index topic : Z) : M World Z :=
  r ← log_at index; of_outcome (py_index r.(topics) topic).
Definition log_data_offset (index : Z) : M World Z :=
  r ← log_at index; mret r.(data_offset).
Definition log_data_length (index : Z) : M World Z :=
  r ← log_at index; mret r.(data_length).

(** ** The kernel's log operation *)

(** [LogTopics] of [primitives/tx.py]. *)
Inductive LogTopics : Type :=
| LogTopics0
| LogTopics1 (t0 : Z)
| LogTopics2 (t0 t1 : Z)
| LogTopics3 (t0 t1 t2 : Z)
| LogTopics4 (t0 t1 t2 t3 : Z).

Inductive LogData : Type :=
| LogDataMemory (value : Slice)
| LogDataWord (value : Z).

Definition k_log_topics (topics : LogTopics) : M World unit :=
  match topics with
  | LogTopics0 => mret tt
  | LogTopics1 t0 => log_add_topic t0
  | LogTopics2 t0 t1 => log_add_topic t0;; log_add_topic t1
  | LogTopics3 t0 t1 t2 => log_add_topic t0;; log_add_topic t1;; log_add_topic t2
  | LogTopics4 t0 t1 t2 t3 =>
      log_add_topic t0;; log_add_topic t1;; log_add_topic t2;; log_add_topic t3
  end.

Definition k_log_data (data : LogData) : M HostState unit :=
  match data with
  | LogDataMemory bytes => log_add_data_memory bytes
  | LogDataWord value => zoom (log_add_data_word value)
  end.

Definition k_log (a : address) (topics : LogTopics) (data : LogData) : M HostState unit :=
  zoom (log_begin a);;
  zoom (k_log_topics topics);;
  k_log_data data.

(** ** The authorization tracker *)

Abbreviation AuthTable := (gmap bytes AuthorizationRecord).

Definition authorization_tracker_reset (capacity : Z) : M AuthTable unit := modify (λ _, ∅).

Definition auth_flag (field : AuthorizationRecord → bool) (address : address) : M AuthTable bool :=
  gets (λ t : AuthTable, match t !! _address_key address with
                         | None => false
                         | Some record => field record
                         end).

Definition authorization_tracker_seen := auth_flag seen.
Definition authorization_tracker_originally_delegated := auth_flag originally_delegated.
Definition authorization_tracker_delegation_set := auth_flag delegation_set.

Definition authorization_tracker_commit (address : address)
    (originally_delegated_ delegation_set_ : bool) : M AuthTable unit :=
  let key := _address_key address in
  modify (λ t : AuthTable,
    match t !! key with
    | None => <[key := mkAuthorizationRecord true originally_delegated_ delegation_set_]> t
    | Some record =>
        <[key := mkAuthorizationRecord true record.(originally_delegated)
                   (record.(delegation_set) || delegation_set_)]> t
    end).
