(* ===== verification/Journal.v ===== *)
(** * Journal: checkpoints, commit and revert

    [state_journal_*] and [_journal_restore] of [HostContract.py]. The journal
    is one list; frames are marked by [JournalFrameCheckpointed] and
    [JournalFrameCommitted] entries, and the open checkpoint is found by
    scanning back over the committed frames. *)

From Stdlib Require Import ZArith Lia.
From stdpp Require Import base tactics option list gmap numbers.
From S2P Require Import Prelude PyBytes OrderedDict HostTypes Regions Crypto Storage Accounts.

#[local] Open Scope Z_scope.

Definition _journal_account_row (address : address) : M World AccountTxRow :=
  found ← gets (λ w, od_get (_address_key address) w.(account_tx));
  match found with
  | None => raise (RuntimeError "journal entry references a missing transaction account")
  | Some row => mret row
  end.

(** [row = _journal_account_row(...); row.current.<field> = prior] *)
Definition restore_account (address : address) (f : Account → Account) : M World unit :=
  _journal_account_row address;;
  alter_account (_address_key address) f.

(** [state.storage_tx[key].<field> = prior] *)
Definition restore_storage (key : bytes * Z) (f : StorageTxRow → StorageTxRow) : M World unit :=
  found ← gets (λ w, od_get key w.(storage_tx));
  match found with
  | None => raise KeyError
  | Some _ => modify (λ w, set_storage_tx (od_alter f key w.(storage_tx)) w)
  end.

(** The last listed storage key of an account. *)
Definition last_listed (key : bytes) (d : odict (bytes * Z) StorageTxRow) : option (bytes * Z) :=
  find (λ k : bytes * Z, bool_decide (k.1 = key)) (rev (od_keys d)).

(** [record = state.logs.pop(); del state.log_data[record.data_offset:]] *)
Definition restore_log : M World unit :=
  popped ← gets (λ w, last w.(logs));
  match popped with
  | None => raise IndexError
  | Some record =>
      modify (λ w, set_logs (removelast w.(logs)) w);;
      modify (λ w, set_log_data (py_del_from w.(log_data) record.(data_offset)) w);;
      modify (set_current_log None)
  end.

Definition _journal_restore (entry : StateJournalEntry) : M World unit :=
  match entry with
  | JournalTransientChanged address slot prior =>
      modify (λ w, set_transient (<[_address_slot_key address slot := prior]> w.(transient)) w)
  | JournalWarmAccountChanged address prior_epoch =>
      modify (λ w, set_warm_addresses (<[_address_key address := prior_epoch]> w.(warm_addresses)) w)
  | JournalWarmStorageChanged key prior_epoch =>
      modify (λ w, set_warm_slots (<[_storage_key key := prior_epoch]> w.(warm_slots)) w)
  | JournalAccountBalanceChanged address prior =>
      restore_account address (λ a, set_info (set_balance prior a.(info)) a)
  | JournalAccountNonceChanged address prior =>
      restore_account address (λ a, set_info (set_nonce prior a.(info)) a)
  | JournalAccountCodeHashChanged address prior =>
      restore_account address (λ a, set_info (set_code_hash prior a.(info)) a)
  | JournalAccountExistsChanged address prior => restore_account address (set_present prior)
  | JournalAccountCreatedChanged address prior => restore_account address (set_created prior)
  | JournalAccountSelfdestructedChanged address prior =>
      restore_account address (set_selfdestructed prior)
  | JournalTransactionAccountListed =>
      popped ← gets (λ w, od_popitem w.(account_tx));
      match popped with
      | None => raise (RuntimeError "journal account listing has no transaction row")
      | Some (_, rest) => modify (set_account_tx rest)
      end
  | JournalTransactionStorageListed address =>
      listed ← gets (λ w, last_listed (_address_key address) w.(storage_tx));
      match listed with
      | None => raise (RuntimeError "journal storage listing has no transaction row")
      | Some storage_key => modify (λ w, set_storage_tx (od_del storage_key w.(storage_tx)) w)
      end
  | JournalLogAppended => restore_log
  | JournalStorageValueChanged key prior =>
      restore_storage (_storage_key key) (λ r, set_str_value (set_sv_curr prior r.(str_value)) r)
  | JournalStorageRowGenerationChanged key prior =>
      restore_storage (_storage_key key) (set_generation prior)
  | JournalAccountStorageGenerationChanged address prior =>
      let key := _address_key address in
      modify (λ w, set_storage_generations (<[key := prior]> w.(storage_generations)) w);;
      modify (λ w, set_account_tx
        (od_alter (λ r, set_current
          (set_storage_cleared
            (r.(original).(storage_cleared) || negb (prior =? STORAGE_INITIAL_GENERATION))
            r.(current)) r) key w.(account_tx)) w)
  | JournalFrameCheckpointed | JournalFrameCommitted => mret tt
  end.

(** The scan of [_open_checkpoint_index], over the reversed journal: the index
    of an entry is the number of entries before it. *)
Fixpoint open_scan (entries : list StateJournalEntry) (closed : Z) : option Z :=
  match entries with
  | [] => None
  | entry :: before =>
      match entry with
      | JournalFrameCommitted => open_scan before (closed + 1)
      | JournalFrameCheckpointed =>
          if closed =? 0 then Some (py_len before) else open_scan before (closed - 1)
      | _ => open_scan before closed
      end
  end.

Definition _open_checkpoint_index : M World Z :=
  found ← gets (λ w, open_scan (rev w.(journal)) 0);
  match found with
  | Some index => mret index
  | None => raise (RuntimeError "state journal has no open checkpoint")
  end.

Definition state_journal_reset : M World unit := modify (set_journal []).

Definition state_journal_checkpoint : M World unit := journal_append JournalFrameCheckpointed.

(** [range(hi, lo, -1)] *)
Definition range_down (hi lo : Z) : list Z := rev (seqZ (lo + 1) (hi - lo)).

Definition state_journal_revert : M World unit :=
  marker ← _open_checkpoint_index;
  n ← gets (λ w, py_len w.(journal));
  for_each (λ index, entry ← reads (λ w, py_index w.(journal) index); _journal_restore entry)
    (range_down (n - 1) marker);;
  modify (λ w, set_journal (py_del_from w.(journal) marker) w).

Definition state_journal_commit : M World unit :=
  _open_checkpoint_index;;
  journal_append JournalFrameCommitted.

Arguments last_listed : simpl never.
Arguments _storage_generation : simpl never.
