(* ===== verification/JournalFacts.v ===== *)
(** * JournalFacts: undoing journalled changes

    [weq] is equality of the transaction state as the rest of the program can
    observe it: a missing stamp is a zero stamp, a missing generation is the
    initial one, and [storage_cleared], which is not journalled but recomputed
    from the generation, is compared separately. [undoes] says that restoring
    some entries, last first, brings a world back. *)
From Stdlib Require Import ZArith Lia RelationClasses.
From stdpp Require Import base tactics option list gmap numbers.
From S2P Require Import Prelude PyBytes OrderedDict HostTypes Regions RegionFacts Crypto Storage Accounts WarmLogs Journal.
Local Open Scope Z_scope.

(** ** Observational equality of worlds *)

Definition erase_row (r : AccountTxRow) : AccountTxRow :=
  set_current (set_storage_cleared false r.(current)) r.

(** The account table without the [storage_cleared] flags of its current accounts. *)
Definition uncleared (d : odict bytes AccountTxRow) : odict bytes AccountTxRow :=
  prod_map id erase_row <$> d.

Record weq (v w : World) : Prop := {
  weq_transient : ∀ k, default 0 (v.(transient) !! k) = default 0 (w.(transient) !! k);
  weq_warm_addresses : ∀ k,
    default 0 (v.(warm_addresses) !! k) = default 0 (w.(warm_addresses) !! k);
  weq_warm_slots : ∀ k, default 0 (v.(warm_slots) !! k) = default 0 (w.(warm_slots) !! k);
  weq_generations : ∀ k, _storage_generation v k = _storage_generation w k;
  weq_epoch : v.(current_warm_epoch) = w.(current_warm_epoch);
  weq_storage_tx : v.(storage_tx) = w.(storage_tx);
  weq_account_tx : uncleared v.(account_tx) = uncleared w.(account_tx);
  weq_logs : v.(logs) = w.(logs);
  weq_log_data : v.(log_data) = w.(log_data);
  weq_log_start : v.(transaction_log_start) = w.(transaction_log_start);
}.

Infix "≈" := weq (at level 70, no associativity).

#[export] Instance weq_equivalence : Equivalence weq.
Proof.
  split.
  - intros w. by constructor.
  - intros v w []. by constructor.
  - intros u v w [] []. constructor; intros; etrans; eauto.
Qed.

Lemma weq_set_journal j w : set_journal j w ≈ w.
Proof. by constructor. Qed.

(** ** [uncleared] and the table operations *)

Lemma od_get_uncleared k d : od_get k (uncleared d) = erase_row <$> od_get k d.
Proof.
  induction d as [|[k' r] d IH]; cbn; [done|]. by case_decide.
Qed.

Lemma od_keys_uncleared d : od_keys (uncleared d) = od_keys d.
Proof. unfold od_keys, uncleared. rewrite <-list_fmap_compose. by apply list_fmap_ext. Qed.

Lemma od_set_uncleared k r d : uncleared (od_set k r d) = od_set k (erase_row r) (uncleared d).
Proof.
  induction d as [|[k' r'] d IH]; cbn; [done|]. case_decide; cbn; [done|].
  unfold uncleared in *. by rewrite IH.
Qed.

(** [f] does not look at [storage_cleared], nor leaves a trace of it. *)
Definition blind (f : AccountTxRow → AccountTxRow) : Prop :=
  ∀ r, erase_row (f r) = erase_row (f (erase_row r)).

Lemma od_alter_uncleared f k d :
  blind f → uncleared (od_alter f k d) = od_alter (erase_row ∘ f) k (uncleared d).
Proof.
  intros Hf. unfold od_alter. rewrite od_get_uncleared.
  destruct (od_get k d) as [r|]; cbn; [|done]. by rewrite od_set_uncleared, Hf.
Qed.

Lemma uncleared_alter_cong f k d d' :
  blind f → uncleared d = uncleared d' → uncleared (od_alter f k d) = uncleared (od_alter f k d').
Proof. intros Hf E. rewrite !od_alter_uncleared by done. by rewrite E. Qed.

Lemma uncleared_get_cong k d d' :
  uncleared d = uncleared d' → erase_row <$> od_get k d = erase_row <$> od_get k d'.
Proof. rewrite <-!od_get_uncleared. by intros ->. Qed.

Lemma uncleared_get_Some k d d' r :
  uncleared d = uncleared d' → od_get k d = Some r →
  ∃ r', od_get k d' = Some r' ∧ erase_row r' = erase_row r.
Proof.
  intros E%(uncleared_get_cong k) Hr. rewrite Hr in E.
  destruct (od_get k d') as [r'|]; [|discriminate]. exists r'. split; [done|].
  apply (f_equal (default (erase_row r))) in E. by symmetry.
Qed.

Lemma uncleared_popitem d d' kv e :
  uncleared d = uncleared d' → od_popitem d = Some (kv, e) →
  ∃ kv' e', od_popitem d' = Some (kv', e') ∧ uncleared e = uncleared e'.
Proof.
  intros E. destruct kv as [k r]. rewrite od_popitem_Some. intros ->.
  destruct d' as [|[k' r'] d' _] using rev_ind.
  { apply (f_equal length) in E. unfold uncleared in E.
    rewrite !length_fmap, length_app in E. cbn in E. lia. }
  unfold uncleared in E. rewrite !fmap_app in E. apply app_inj_tail in E as [E _].
  eexists _, d'. by rewrite od_popitem_snoc.
Qed.

Lemma blind_current (f : Account → Account) :
  (∀ a, set_storage_cleared false (f a) =
        set_storage_cleared false (f (set_storage_cleared false a))) →
  blind (λ r, set_current (f r.(current)) r).
Proof. intros Hf r. unfold erase_row, set_current. cbn. by rewrite Hf. Qed.

Lemma blind_cleared (g : AccountTxRow → bool) :
  blind (λ r, set_current (set_storage_cleared (g r) r.(current)) r).
Proof. done. Qed.

(** ** Restoring respects [≈] *)

Ltac weq_solve :=
  constructor; cbn; intros;
  repeat match goal with H : _ ≈ _ |- _ => destruct H end;
  rewrite ?lookup_insert; repeat case_decide; eauto; try congruence.

Lemma insert_default_cong {K V} `{Countable K} (d : V) (m m' : gmap K V) k v :
  (∀ k, default d (m !! k) = default d (m' !! k)) →
  ∀ k', default d (<[k:=v]> m !! k') = default d (<[k:=v]> m' !! k').
Proof. intros E k'. rewrite !lookup_insert. by case_decide. Qed.

Definition restores_to (e : StateJournalEntry) (w w' : World) : Prop :=
  _journal_restore e w = (Ok tt, w').

Lemma account_row_weq v w a r :
  v ≈ w → od_get a w.(account_tx) = Some r → ∃ r', od_get a v.(account_tx) = Some r'.
Proof.
  intros [] Hr. destruct (uncleared_get_Some a (account_tx w) (account_tx v) r) as (r' & ? & _);
    eauto.
Qed.

Lemma restore_account_run a f w :
  restore_account a f w =
  match od_get (_address_key a) w.(account_tx) with
  | None => (Raise (RuntimeError "journal entry references a missing transaction account"), w)
  | Some _ => (Ok tt, set_account_tx (od_alter (λ r, set_current (f r.(current)) r)
                (_address_key a) w.(account_tx)) w)
  end.
Proof.
  unfold restore_account, _journal_account_row, alter_account. py_step. by destruct (od_get _ _).
Qed.

Lemma restore_account_cong a f v w w' :
  (∀ c, set_storage_cleared false (f c) =
        set_storage_cleared false (f (set_storage_cleared false c))) →
  v ≈ w → restore_account a f w = (Ok tt, w') →
  ∃ v', restore_account a f v = (Ok tt, v') ∧ v' ≈ w'.
Proof.
  intros Hf E. rewrite !restore_account_run.
  destruct (od_get _ (account_tx w)) as [r|] eqn:Hr; [|done]. intros [= <-].
  destruct (account_row_weq _ _ _ _ E Hr) as [r' ->]. eexists. split; [done|].
  destruct E. constructor; cbn; try done.
  apply uncleared_alter_cong; [|done]. by apply blind_current.
Qed.

Lemma restore_storage_run k f w :
  restore_storage k f w =
  match od_get k w.(storage_tx) with
  | None => (Raise KeyError, w)
  | Some _ => (Ok tt, set_storage_tx (od_alter f k w.(storage_tx)) w)
  end.
Proof. unfold restore_storage. py_step. by destruct (od_get _ _). Qed.

Lemma restore_storage_cong k f v w w' :
  v ≈ w → restore_storage k f w = (Ok tt, w') →
  ∃ v', restore_storage k f v = (Ok tt, v') ∧ v' ≈ w'.
Proof.
  intros E. rewrite !restore_storage_run. destruct E. rewrite weq_storage_tx0.
  destruct (od_get k _); [|done]. intros [= <-]. eexists. split; [done|].
  constructor; cbn; try done.
Qed.

Lemma restore_log_cong v w w' :
  v ≈ w → restore_log w = (Ok tt, w') → ∃ v', restore_log v = (Ok tt, v') ∧ v' ≈ w'.
Proof.
  intros E. unfold restore_log. py_step. destruct E.
  rewrite weq_logs0. destruct (last (logs w)) as [r|]; py_step; [|done].
  intros [= <-]. eexists. split; [done|]. constructor; cbn; try done; congruence.
Qed.

Lemma restore_cong e v w w' :
  v ≈ w → restores_to e w w' → ∃ v', restores_to e v v' ∧ v' ≈ w'.
Proof.
  unfold restores_to. intros E.
  destruct e; cbn [_journal_restore]; try (by apply restore_account_cong);
    try (by apply restore_storage_cong); try (by apply restore_log_cong); py_step.
  - intros [= <-]. eexists. split; [done|]. destruct E. constructor; cbn; try done.
    by apply insert_default_cong.
  - intros [= <-]. eexists. split; [done|]. destruct E. constructor; cbn; try done.
    by apply insert_default_cong.
  - intros [= <-]. eexists. split; [done|]. destruct E. constructor; cbn; try done.
    by apply insert_default_cong.
  - destruct (od_popitem (account_tx w)) as [[kv d]|] eqn:Hp; py_step; [|done].
    intros [= <-]. destruct E.
    destruct (uncleared_popitem _ (account_tx v) _ _ (eq_sym weq_account_tx0) Hp)
      as (kv' & d' & -> & Hd). py_step. eexists. split; [done|]. by constructor.
  - destruct E. rewrite weq_storage_tx0. destruct (last_listed _ _) as [k|]; py_step; [|done].
    intros [= <-]. eexists. split; [done|]. constructor; cbn; congruence || done.
  - intros [= <-]. eexists. split; [done|]. destruct E. constructor; cbn; try done.
    + unfold _storage_generation in *. cbn. by apply insert_default_cong.
    + by apply uncleared_alter_cong.
  - intros [= <-]. by eexists.
  - intros [= <-]. by eexists.
Qed.

(** ** Undoing a list of entries *)

(** Restoring [es], last entry first, takes [w'] back to [w]. *)
Definition undoes (es : list StateJournalEntry) (w' w : World) : Prop :=
  ∃ u, for_each _journal_restore (rev es) w' = (Ok tt, u) ∧ u ≈ w.

Lemma restore_all_cong es v w w' :
  v ≈ w → for_each _journal_restore es w = (Ok tt, w') →
  ∃ v', for_each _journal_restore es v = (Ok tt, v') ∧ v' ≈ w'.
Proof.
  revert v w. induction es as [|e es IH]; intros v w E; simpl.
  { rewrite !ret_run. intros [= <-]. by exists v. }
  rewrite !bind_run. destruct (_journal_restore e w) as [[[]|x] w1] eqn:H1; [|done].
  destruct (restore_cong e v w w1 E H1) as (v1 & Hv1 & E1). unfold restores_to in Hv1.
  rewrite Hv1. by apply IH.
Qed.

#[export] Instance undoes_proper :
  Proper ((=) ==> weq ==> weq ==> iff) undoes.
Proof.
  assert (∀ es v v' w w', v ≈ v' → w ≈ w' → undoes es v w → undoes es v' w') as H.
  { intros es v v' w w' Hv Hw (u & Hu & E).
    destruct (restore_all_cong (rev es) v' v u) as (u' & Hu' & E'); [by symmetry|done|].
    exists u'. split; [done|]. by rewrite E', E. }
  intros es ? <- v v' Hv w w' Hw. split; apply H; done || by symmetry.
Qed.

Lemma undoes_nil w' w : w' ≈ w → undoes [] w' w.
Proof. intros E. by exists w'. Qed.

Lemma undoes_app es1 es2 w w1 w2 :
  undoes es1 w1 w → undoes es2 w2 w1 → undoes (es1 ++ es2) w2 w.
Proof.
  intros (u1 & H1 & E1) (u2 & H2 & E2).
  destruct (restore_all_cong _ u2 _ _ E2 H1) as (u & Hu & E). exists u.
  rewrite rev_app_distr, for_each_app, bind_run, H2. split; [done|]. by rewrite E, E1.
Qed.

Lemma undoes_one e w' w u : restores_to e w' u → u ≈ w → undoes [e] w' w.
Proof. intros H E. exists u. split; [|done]. simpl. by rewrite bind_run, H, ret_run. Qed.

(** A marker undoes to nothing. *)
Lemma undoes_marker e w' w :
  e = JournalFrameCheckpointed ∨ e = JournalFrameCommitted → w' ≈ w → undoes [e] w' w.
Proof. intros [-> | ->] E; by eapply undoes_one. Qed.

(** ** Journal positions *)

Lemma restore_journal e w : journal (_journal_restore e w).2 = journal w.
Proof.
  destruct e; cbn [_journal_restore]; rewrite ?restore_account_run, ?restore_storage_run;
    unfold restore_log; py_step; repeat (case_match; py_step); try done.
Qed.

(** The loop over journal positions restores the entries after the marker,
    last first. *)
Lemma restore_range_run l es rest w :
  journal w = l ++ es ++ rest →
  for_each (λ index, entry ← reads (λ w, py_index w.(journal) index); _journal_restore entry)
    (range_down (py_len l + py_len es - 1) (py_len l - 1)) w =
  for_each _journal_restore (rev es) w.
Proof.
  revert rest w. induction es as [|e es IH] using rev_ind; intros rest w Hj.
  { unfold range_down. change (py_len []) with 0.
    by replace (py_len l + 0 - 1 - (py_len l - 1)) with 0 by lia. }
  rewrite py_len_app. change (py_len [e]) with 1.
  unfold range_down in *. pose proof (py_len_nonneg es). pose proof (py_len_nonneg l).
  replace (py_len l - 1 + 1) with (py_len l) in * by lia.
  replace (py_len l + (py_len es + 1) - 1 - (py_len l - 1)) with (py_len es + 1) by lia.
  replace (py_len l + py_len es - 1 - (py_len l - 1)) with (py_len es) in IH by lia.
  rewrite seqZ_app, (seqZ_cons _ 1), (seqZ_nil _ (Z.pred 1)) by lia.
  rewrite !rev_app_distr. simpl. rewrite !bind_run, reads_run.
  assert (py_index (journal w) (py_len l + py_len es) = Ok e) as ->.
  { rewrite Hj, <-app_assoc, app_assoc. cbn [app].
    rewrite py_index_middle; [done|]. rewrite py_len_app. lia. }
  pose proof (restore_journal e w) as Hrj.
  destruct (_journal_restore e w) as [[[]|x] w1] eqn:E; [|done]. cbn in Hrj.
  apply (IH (e :: rest)). rewrite Hrj, Hj. by rewrite <-(app_assoc es).
Qed.

(** * Every journalled operation can be undone

    [journals w w'] says that going from [w] to [w'] appended entries whose
    restoration, last first, takes [w'] back to [w]. It is a preorder that
    every operation of the transaction state satisfies. *)

(** ** Balanced journal segments *)

(** A segment with no open checkpoint: the scan passes over it. *)
Definition balanced (es : list StateJournalEntry) : Prop :=
  ∀ before c, 0 <= c → open_scan (rev es ++ before) c = open_scan before c.

Definition is_marker (e : StateJournalEntry) : bool :=
  match e with JournalFrameCheckpointed | JournalFrameCommitted => true | _ => false end.

Lemma balanced_nil : balanced [].
Proof. done. Qed.

Lemma balanced_app es1 es2 : balanced es1 → balanced es2 → balanced (es1 ++ es2).
Proof. intros H1 H2 before c Hc. rewrite rev_app_distr, <-app_assoc, H2, H1; done. Qed.

Lemma balanced_one e : is_marker e = false → balanced [e].
Proof. by destruct e. Qed.

Lemma balanced_frame es :
  balanced es → balanced (JournalFrameCheckpointed :: es ++ [JournalFrameCommitted]).
Proof.
  intros H before c Hc. simpl. rewrite rev_app_distr. simpl.
  rewrite <-app_assoc, H by lia. simpl.
  rewrite (proj2 (Z.eqb_neq _ _)) by lia. f_equal. lia.
Qed.

Lemma open_scan_checkpoint l es :
  balanced es → open_scan (rev (l ++ JournalFrameCheckpointed :: es)) 0 = Some (py_len l).
Proof.
  intros H. rewrite rev_app_distr. simpl. rewrite <-app_assoc, H by done. simpl.
  f_equal. unfold py_len. by rewrite length_rev.
Qed.

(** ** Journalled transitions *)

(** Rows are filed under their own key. *)
Definition world_ok (w : World) : Prop :=
  ∀ k r, od_get k w.(storage_tx) = Some r → _storage_key r.(str_key) = k.

Lemma world_ok_weq v w : v ≈ w → world_ok w → world_ok v.
Proof. intros E Hw k r. rewrite (weq_storage_tx _ _ E). apply Hw. Qed.

Definition journals (w w' : World) : Prop :=
  world_ok w → world_ok w' ∧
  ∃ es, journal w' = journal w ++ es ∧ balanced es ∧ undoes es w' w.

#[export] Instance journals_preorder : PreOrder journals.
Proof.
  split.
  - intros w Hw. split; [done|]. exists []. split_and!.
    + by rewrite app_nil_r.
    + apply balanced_nil.
    + by apply undoes_nil.
  - intros w w1 w2 H1 H2 Hw. destruct (H1 Hw) as (Hw1 & es1 & J1 & B1 & U1).
    destruct (H2 Hw1) as (Hw2 & es2 & J2 & B2 & U2). split; [done|].
    exists (es1 ++ es2). split_and!.
    + by rewrite J2, J1, app_assoc.
    + by apply balanced_app.
    + by eapply undoes_app.
Qed.

(** A change the transaction state cannot observe needs no entry. *)
Lemma journals_silent w w' : w' ≈ w → journal w' = journal w → journals w w'.
Proof.
  intros E J Hw. split; [by eapply world_ok_weq|]. exists []. split_and!.
  - by rewrite app_nil_r.
  - apply balanced_nil.
  - by apply undoes_nil.
Qed.

Lemma journals_entry e w w' u :
  is_marker e = false → journal w' = journal w ++ [e] → (world_ok w → world_ok w') →
  (world_ok w → restores_to e w' u) → u ≈ w → journals w w'.
Proof.
  intros He J Hok Hu E Hw. split; [by apply Hok|]. exists [e]. split_and!; [done| |].
  - by apply balanced_one.
  - eapply undoes_one; [by apply Hu|done].
Qed.

(** Names the entry from the journal and restores it by evaluation. *)
Ltac by_entry :=
  eapply journals_entry;
  [ | cbn; reflexivity | intros Hok; exact Hok | intros _; reflexivity | ]; [reflexivity | ].

Lemma journals_bind {A B} (m : M World A) (f : A → M World B) w b w' :
  (∀ a w1, m w = (Ok a, w1) → journals w w1) →
  (∀ a w1, m w = (Ok a, w1) → f a w1 = (Ok b, w') → journals w1 w') →
  (m ≫= f) w = (Ok b, w') → journals w w'.
Proof.
  intros Hm Hf. rewrite bind_run. destruct (m w) as [[a|e] w1] eqn:E; [|done].
  intros H. etrans; eauto.
Qed.

(** ** Stamped maps *)

(** Putting back the default-zero value a key had. *)
Lemma insert_back {K} `{Countable K} (d : Z) (m : gmap K Z) k v :
  ∀ k', default d (<[k:=default d (m !! k)]> (<[k:=v]> m) !! k') = default d (m !! k').
Proof.
  intros k'. rewrite insert_insert_eq. destruct (decide (k = k')) as [<-|Hk].
  - by rewrite lookup_insert_eq.
  - by rewrite lookup_insert_ne.
Qed.

Lemma transient_store_journals a s v w r w' :
  transient_store a s v w = (Ok r, w') → journals w w'.
Proof.
  unfold transient_store, journal_append. py_step. intros [= _ <-].
  by_entry.
  constructor; cbn; try done. intros k. apply insert_back.
Qed.

Lemma account_mark_warm_journals a w r w' :
  account_mark_warm a w = (Ok r, w') → journals w w'.
Proof.
  unfold account_mark_warm, journal_append. py_step. destruct (_ <? _); py_step; intros [= _ <-]; [|done].
  by_entry.
  constructor; cbn; try done. intros k. apply insert_back.
Qed.

Lemma storage_mark_warm_journals a s w r w' :
  storage_mark_warm a s w = (Ok r, w') → journals w w'.
Proof.
  unfold storage_mark_warm, journal_append. py_step. destruct (_ <? _); py_step; intros [= _ <-]; [|done].
  by_entry.
  constructor; cbn; try done. intros k. apply insert_back.
Qed.

Lemma storage_tx_clear_journals a w r w' :
  storage_tx_clear a w = (Ok r, w') → journals w w'.
Proof.
  unfold storage_tx_clear, journal_append. py_step. intros [= _ <-].
  by_entry.
  constructor; cbn; try done.
  - intros k. unfold _storage_generation. cbn. apply insert_back.
  - rewrite od_alter_uncleared by done. apply od_alter_id. intros q.
    rewrite od_get_uncleared. by intros ([] & _ & ->)%fmap_Some.
Qed.

(** ** The storage table *)

Lemma last_listed_snoc a s r d :
  last_listed a (d ++ [((a, s), r)]) = Some (a, s).
Proof.
  unfold last_listed, od_keys. rewrite fmap_app, rev_app_distr. simpl. by rewrite bool_decide_true.
Qed.

(** Listing a fresh row is undone by removing the account's last listed row. *)
Lemma list_storage_journals w k r :
  od_get (_storage_key k) w.(storage_tx) = None → r.(str_key) = k →
  journals w (set_storage_tx (od_set (_storage_key k) r w.(storage_tx))
    (set_journal (journal w ++ [JournalTransactionStorageListed k.(sk_addr)]) w)).
Proof.
  intros Hnone Hk. eapply journals_entry; [|reflexivity| | |]; [reflexivity| | |].
  - intros Hok q r'. cbn. rewrite od_get_set. case_decide; [|apply Hok]. congruence.
  - intros _. unfold restores_to. simpl. py_step. cbn.
    rewrite od_set_fresh by done. unfold _storage_key. rewrite last_listed_snoc.
    py_step. cbn. rewrite od_del_snoc_fresh by done. reflexivity.
  - by constructor.
Qed.

(** Changing a field of a row, journalled with the value [g] puts back. *)
Lemma alter_storage_journals w k r e f g :
  od_get k w.(storage_tx) = Some r →
  (∀ q, (f q).(str_key) = q.(str_key)) → g (f r) = r → is_marker e = false →
  (world_ok w → _journal_restore e = restore_storage k g) →
  journals w (set_storage_tx (od_alter f k w.(storage_tx)) (set_journal (journal w ++ [e]) w)).
Proof.
  intros Hr Hf Hg He Hres. eapply journals_entry; [done|reflexivity| | |].
  - intros Hok q r'. cbn. rewrite od_get_alter. case_decide; [|apply Hok].
    intros (r'' & Hr'' & ->)%fmap_Some. rewrite Hf. by apply Hok.
  - intros Hok. unfold restores_to. rewrite (Hres Hok), restore_storage_run. cbn.
    rewrite od_get_alter, decide_True by done. rewrite Hr. reflexivity.
  - cbn. rewrite od_alter_alter, od_alter_id by (intros; simplify_eq; exact Hg).
    by constructor.
Qed.

Lemma storage_tx_update_journals entry w r w' :
  storage_tx_update entry w = (Ok r, w') → journals w w'.
Proof.
  unfold storage_tx_update. py_step.
  set (k := _storage_key entry.(se_key)). set (gen := _storage_generation w k.1).
  destruct (od_get k (storage_tx w)) as [row|] eqn:Hrow; py_step.
  2:{ unfold journal_append. py_step. intros [= _ <-]. by apply list_storage_journals. }
  assert (∀ w0, world_ok w0 → od_get k (storage_tx w0) = Some row → _storage_key row.(str_key) = k)
    as Hkey by (intros w0 Hw0 Hk0; by apply Hw0).
  (* the state after the value has been brought up to date *)
  assert (∃ w1 row1,
    (when (negb (sv_curr (str_value row) =? sv_curr (se_value entry)))
       (journal_append (JournalStorageValueChanged (str_key row) (sv_curr (str_value row)));;
        modify (λ w, set_storage_tx
          (od_alter (λ r, set_str_value (set_sv_curr (sv_curr (se_value entry)) (str_value r)) r)
             k (storage_tx w)) w)) w = (Ok tt, w1))
    ∧ journals w w1 ∧ od_get k (storage_tx w1) = Some row1
    ∧ generation row1 = generation row ∧ str_key row1 = str_key row) as (w1 & row1 & -> & J1 & H1 & Hg & Hk).
  { destruct (_ =? _); cbn [negb]; py_step.
    - by exists w, row.
    - unfold journal_append. py_step. eexists _, _. split; [reflexivity|]. split_and!.
      + change (storage_tx (set_journal _ w)) with (storage_tx w).
        eapply alter_storage_journals with
          (g := λ r, set_str_value (set_sv_curr (sv_curr (str_value row)) (str_value r)) r);
          [done|done|by destruct row as [? [] ?]|done|].
        intros Hw. cbn [_journal_restore]. by rewrite (Hkey _ Hw Hrow).
      + cbn. rewrite od_get_alter, decide_True, Hrow by done. done.
      + done.
      + done. }
  unfold journal_append.
  destruct (_ =? gen); cbn [negb]; py_step; intros [= _ <-]; [done|]. etrans; [exact J1|].
  change (storage_tx (set_journal _ w1)) with (storage_tx w1).
  rewrite <-Hg, <-Hk. eapply alter_storage_journals with (g := set_generation (generation row1));
    [done|done|by destruct row1|done|].
  intros Hw. cbn [_journal_restore]. by rewrite (Hw _ _ H1).
Qed.

(** ** The account table *)

Lemma list_account_journals key row w :
  od_get key w.(account_tx) = None →
  journals w (set_account_tx (od_set key row w.(account_tx))
    (set_journal (journal w ++ [JournalTransactionAccountListed]) w)).
Proof.
  intros Hnone. eapply journals_entry; [|reflexivity|intros Hok; exact Hok| |]; [reflexivity| |].
  - intros _. unfold restores_to. simpl. py_step. cbn.
    rewrite od_popitem_set_fresh by done. reflexivity.
  - by constructor.
Qed.

Definition on_current (f : Account → Account) (r : AccountTxRow) : AccountTxRow :=
  set_current (f r.(current)) r.

Lemma alter_account_journals w a r e f g :
  od_get (_address_key a) w.(account_tx) = Some r → g (f r.(current)) = r.(current) →
  is_marker e = false → _journal_restore e = restore_account a g →
  journals w (set_account_tx (od_alter (on_current f) (_address_key a) w.(account_tx))
    (set_journal (journal w ++ [e]) w)).
Proof.
  intros Hr Hg He Hres. eapply journals_entry; [done|reflexivity|intros Hok; exact Hok| |].
  - intros _. unfold restores_to. rewrite Hres, restore_account_run. cbn.
    rewrite od_get_alter, decide_True by done. rewrite Hr. reflexivity.
  - cbn. rewrite od_alter_alter, od_alter_id; [by constructor|].
    intros q Hq. rewrite Hr in Hq. injection Hq as <-.
    cbn. unfold set_current. cbn. rewrite Hg. by destruct r.
Qed.

Lemma account_tx_required_journals a w row w' :
  _account_tx_required a w = (Ok row, w') →
  journals w w' ∧ od_get (_address_key a) w'.(account_tx) = Some row.
Proof.
  unfold _account_tx_required, list_account, journal_append, missing_account. py_step.
  destruct (od_get _ (account_tx w)) as [r|] eqn:Hr; py_step; [by intros [= -> ->]|].
  destruct (od_get _ (account_block w)) as [b|]; py_step; [|done].
  intros [= <- <-]. split; [by apply list_account_journals|]. cbn. by rewrite od_get_set_eq.
Qed.

Lemma set_field_journals a (c : AccountTxRow → bool) e f g w r w' :
  (row ← _account_tx_required a;
   when (c row) (journal_append (e row);; alter_account (_address_key a) f)) w = (Ok r, w') →
  (∀ row, g row (f row.(current)) = row.(current)) → (∀ row, is_marker (e row) = false) →
  (∀ row, _journal_restore (e row) = restore_account a (g row)) →
  journals w w'.
Proof.
  rewrite bind_run. destruct (_account_tx_required a w) as [[row|x] w1] eqn:E; [|done].
  apply account_tx_required_journals in E as [J1 H1]. intros Hrun Hg He Hres.
  etrans; [exact J1|]. revert Hrun. unfold alter_account, journal_append.
  destruct (c row); py_step; intros [= _ <-]; [|done].
  by eapply (alter_account_journals w1 a row (e row) f (g row)).
Qed.

Lemma acct_tx_set_balance_journals a v w r w' :
  acct_tx_set_balance a v w = (Ok r, w') → journals w w'.
Proof.
  intros H. eapply set_field_journals with
    (g := λ row c, set_info (set_balance (balance (info (current row))) (info c)) c);
    [exact H|by intros [[[] ? ? ? ?] ?]|done|done].
Qed.

Lemma acct_tx_set_nonce_journals a v w r w' :
  acct_tx_set_nonce a v w = (Ok r, w') → journals w w'.
Proof.
  intros H. eapply set_field_journals with
    (g := λ row c, set_info (set_nonce (nonce (info (current row))) (info c)) c);
    [exact H|by intros [[[] ? ? ? ?] ?]|done|done].
Qed.

Lemma acct_tx_set_code_hash_journals a v w r w' :
  acct_tx_set_code_hash a v w = (Ok r, w') → journals w w'.
Proof.
  intros H. eapply set_field_journals with
    (g := λ row c, set_info (set_code_hash (code_hash (info (current row))) (info c)) c);
    [exact H|by intros [[[] ? ? ? ?] ?]|done|done].
Qed.

(** [acct_tx_update] journals every field that differs and then replaces the
    whole account; that is the same as changing the fields one at a time. *)
Section update.
Context (a : address) (value : Account).
Let key := _address_key a.

Definition overwrite (w : World) : World :=
  set_account_tx (od_alter (on_current (λ _, value)) key w.(account_tx)) w.

Lemma update_field_step (c : bool) e f g v w r :
  overwrite w = overwrite v → od_get key w.(account_tx) = Some r →
  (c = false → f r.(current) = r.(current)) → g (f r.(current)) = r.(current) →
  is_marker e = false → _journal_restore e = restore_account a g →
  ∃ v' w', when c (journal_append e) v = (Ok tt, v') ∧ overwrite w' = overwrite v' ∧
    journals w w' ∧ od_get key w'.(account_tx) = Some (set_current (f r.(current)) r).
Proof.
  intros Ho Hr Hc Hg He Hres. destruct c.
  - eexists (set_journal (journal v ++ [e]) v),
      (set_account_tx (od_alter (on_current f) key w.(account_tx))
        (set_journal (journal w ++ [e]) w)). split_and!; [reflexivity| | |].
    + pose proof (f_equal journal Ho) as Hj. pose proof (f_equal account_tx Ho) as Ha.
      cbn in Hj, Ha. apply (f_equal (set_journal (journal w ++ [e]))) in Ho.
      unfold overwrite in *. cbn in *. rewrite od_alter_alter.
      rewrite <-Hj. exact Ho.
    + by eapply alter_account_journals.
    + cbn. by rewrite od_get_alter, decide_True, Hr by done.
  - exists v, w. split_and!; [reflexivity|done|done|].
    rewrite Hc by done. rewrite Hr. by destruct r.
Qed.

Lemma overwrite_silent w r :
  od_get key w.(account_tx) = Some r →
  set_storage_cleared false r.(current) = set_storage_cleared false value →
  journals w (overwrite w).
Proof.
  intros Hr E. apply journals_silent; [|done]. constructor; cbn; try done.
  rewrite od_alter_uncleared by done. apply od_alter_id. intros q.
  rewrite od_get_uncleared, Hr. intros [= <-]. cbn. unfold erase_row, set_current. cbn.
  by rewrite E.
Qed.
End update.

(** One journalled field of [acct_tx_update]: [f] sets it to the new account's
    value, [g] restores it. *)
Ltac update_step f g :=
  lazymatch goal with
  | Ho : overwrite ?a ?value ?w = overwrite ?a ?value ?v, Hr : od_get _ (account_tx ?w) = Some _,
    Hj : journals _ ?w |- context [when ?c (journal_append ?e) ?v] =>
      destruct (update_field_step a value c e f g v w _ Ho Hr)
        as (?v1 & ?w1 & ?Hw & ?Ho & ?J & ?Hr);
      [ cbn; intros HH; rewrite ?negb_false_iff, ?Z.eqb_eq, ?bool_decide_eq_false in HH;
        try (apply dec_stable in HH); unfold set_info, set_balance, set_nonce, set_code_hash,
          set_present, set_created, set_selfdestructed; cbn; congruence
      | reflexivity | reflexivity | reflexivity | ];
      clear Ho Hr;
      match goal with
      | J : journals w ?w1, Hw : when _ _ _ = _ |- _ =>
          rewrite Hw; clear Hw; pose proof (transitivity Hj J : journals _ w1); clear J Hj
      end; py_step
  end.

Lemma acct_tx_update_journals a value w r w' :
  (∀ row, od_get (_address_key a) w.(account_tx) = Some row →
    storage_root (info value) = storage_root (info (current row))) →
  acct_tx_update a value w = (Ok r, w') → journals w w'.
Proof.
  unfold acct_tx_update, list_account, missing_account. intros Hroot. py_step.
  destruct (od_get _ (account_tx w)) as [row|] eqn:Hr; py_step.
  2:{ unfold journal_append. destruct (od_get _ (account_block w)) as [b|]; py_step; [|done].
      intros [= _ <-]. by apply list_account_journals. }
  specialize (Hroot _ eq_refl).
  destruct row as [[[n b ch sr] p sc cr sd] orig]. cbn [current info] in *.
  pose proof (eq_refl (overwrite a value w)) as Ho.
  pose proof (reflexivity w : journals w w) as Hj.
  cbn [balance nonce code_hash present created selfdestructed].
  update_step (λ c, set_info (set_balance (balance (info value)) (info c)) c)
    (λ c, set_info (set_balance b (info c)) c).
  update_step (λ c, set_info (set_nonce (nonce (info value)) (info c)) c)
    (λ c, set_info (set_nonce n (info c)) c).
  update_step (λ c, set_info (set_code_hash (code_hash (info value)) (info c)) c)
    (λ c, set_info (set_code_hash ch (info c)) c).
  update_step (set_present (present value)) (set_present p).
  update_step (set_created (created value)) (set_created cr).
  update_step (set_selfdestructed (selfdestructed value)) (set_selfdestructed sd).
  unfold alter_account. py_step. intros [= _ <-].
  match goal with
  | Hj : journals w ?w6, Ho : overwrite a value ?w6 = overwrite a value ?v6, Hr : _ = Some _ |- _ =>
      etrans; [exact Hj|]; change (journals w6 (overwrite a value v6)); rewrite <-Ho;
      eapply overwrite_silent; [exact Hr|]
  end.
  destruct value as [[]]. cbn in *. by rewrite Hroot.
Qed.

(** ** Logs *)

Definition topic_list (topics : LogTopics) : list Z :=
  match topics with
  | LogTopics0 => []
  | LogTopics1 t0 => [t0]
  | LogTopics2 t0 t1 => [t0; t1]
  | LogTopics3 t0 t1 t2 => [t0; t1; t2]
  | LogTopics4 t0 t1 t2 t3 => [t0; t1; t2; t3]
  end.

(** [k_log] on the world, with the data it copies already read. *)
Definition emit_log (a : address) (topics : LogTopics) (payload : bytes) : M World unit :=
  log_begin a;; k_log_topics topics;; _append_log_data payload.

Definition log_payload (data : LogData) (s : HostState) : bytes :=
  match data with
  | LogDataMemory value => _slice_bytes (region_of RMemory s) value
  | LogDataWord value => be_bytes 32 value
  end.

(** The log under construction is the last one. *)
Definition building (l : list LogRecord) (r : LogRecord) (w : World) : World :=
  set_current_log (Some (py_len l)) (set_logs (l ++ [r]) w).

Lemma current_log_building l r w :
  _current_log_record (building l r w) = (Ok (py_len l, r), building l r w).
Proof.
  unfold _current_log_record. py_step. unfold building. cbn. py_step. cbn.
  by rewrite py_index_middle.
Qed.

Lemma alter_log_building f l r w :
  alter_log (py_len l) f (building l r w) = (Ok tt, building l (f r) w).
Proof.
  unfold alter_log, building. py_step. cbn. rewrite py_pos_in.
  - unfold set_logs. cbn. do 3 f_equal. unfold py_len. rewrite Nat2Z.id.
    rewrite alter_app_r_alt by lia. by rewrite Nat.sub_diag.
  - rewrite py_len_app. change (py_len [r]) with 1. pose proof (py_len_nonneg l). lia.
Qed.

Lemma log_add_topic_building t l r w :
  log_add_topic t (building l r w) = (Ok tt, building l (set_topics (r.(topics) ++ [t]) r) w).
Proof.
  unfold log_add_topic. rewrite bind_run, current_log_building. cbn [fst].
  by rewrite alter_log_building.
Qed.

Lemma k_log_topics_building ts l r w :
  k_log_topics ts (building l r w) =
  (Ok tt, building l (set_topics (r.(topics) ++ topic_list ts) r) w).
Proof.
  destruct r as [a tps o n].
  destruct ts; cbn [k_log_topics topic_list]; rewrite ?bind_run, ?ret_run;
    repeat (rewrite log_add_topic_building; rewrite ?bind_run);
    unfold set_topics; cbn; rewrite <-?app_assoc, ?app_nil_r; done.
Qed.

Lemma append_log_data_building payload l r w :
  _append_log_data payload (building l r w) =
  (Ok tt, building l (set_data_length (r.(data_length) + py_len payload) r)
            (set_log_data (w.(log_data) ++ payload) w)).
Proof.
  unfold _append_log_data. rewrite bind_run, current_log_building. cbn [fst]. py_step.
  change (set_log_data (log_data (building l r w) ++ payload) (building l r w))
    with (building l r (set_log_data (log_data w ++ payload) w)).
  by rewrite alter_log_building.
Qed.

(** What emitting a log does. *)
Lemma emit_log_run a ts payload w :
  emit_log a ts payload w =
  (Ok tt, building w.(logs) (mkLogRecord a (topic_list ts) (py_len w.(log_data)) (py_len payload))
    (set_log_data (w.(log_data) ++ payload)
      (set_journal (w.(journal) ++ [JournalLogAppended]) w))).
Proof.
  unfold emit_log. rewrite bind_run. unfold log_begin, journal_append. py_step. cbn.
  replace (py_len (logs w ++ _) - 1) with (py_len (logs w)) by (rewrite py_len_app; unfold py_len; cbn [length]; lia).
  match goal with |- context [set_current_log ?c (set_logs (?l ++ [?r]) ?w0)] =>
    change (set_current_log c (set_logs (l ++ [r]) w0)) with (building l r w0) end.
  rewrite k_log_topics_building, append_log_data_building. done.
Qed.

Lemma emit_log_journals a ts payload w r w' :
  emit_log a ts payload w = (Ok r, w') → journals w w'.
Proof.
  rewrite emit_log_run. intros [= _ <-].
  eapply journals_entry; [|reflexivity|intros Hok; exact Hok| |]; [reflexivity| |].
  - intros _. unfold restores_to, building. cbn. unfold restore_log. py_step. cbn.
    rewrite last_snoc. py_step. cbn. rewrite removelast_last. reflexivity.
  - constructor; cbn; try done. rewrite removelast_last || idtac.
    unfold py_del_from. rewrite slice_bound_in.
    + unfold py_len. by rewrite Nat2Z.id, take_app_length.
    + rewrite py_len_app. pose proof (py_len_nonneg (log_data w)).
      pose proof (py_len_nonneg payload). lia.
Qed.

(** The kernel's operation is this one on the host's world. *)
Lemma k_log_emit a ts data s :
  k_log a ts data s = zoom (emit_log a ts (log_payload data s)) s.
Proof.
  unfold emit_log. rewrite zoom_bind. unfold k_log. rewrite !bind_run.
  destruct (zoom (log_begin a) s) as [[[]|e] s1] eqn:E1; [|done].
  rewrite zoom_bind, !bind_run.
  destruct (zoom (k_log_topics ts) s1) as [[[]|e] s2] eqn:E2; [|done].
  assert (region_of RMemory s2 = region_of RMemory s) as Hm.
  { rewrite zoom_run in E1, E2. apply (f_equal snd) in E1, E2.
    cbn [snd] in E1, E2. rewrite <-E2, <-E1. done. }
  destruct data as [v|v]; cbn [k_log_data log_payload].
  - unfold log_add_data_memory, _region_bytes. py_step. by rewrite Hm.
  - unfold log_add_data_word. by rewrite <-word_bytes_full.
Qed.

(** ** The caches *)

Lemma acct_block_cache_journals a h acc w r w' :
  acct_block_cache a h acc w = (Ok r, w') → journals w w'.
Proof.
  unfold acct_block_cache. py_step. destruct (od_get _ _); py_step; intros [= _ <-]; [done|].
  by apply journals_silent.
Qed.

Lemma storage_block_cache_journals `{Keccak} k h v w r w' :
  storage_block_cache k h v w = (Ok r, w') → journals w w'.
Proof.
  unfold storage_block_cache, _storage_row_hashes. py_step.
  destruct (od_get _ _); py_step; intros [= _ <-]; [done|]. by apply journals_silent.
Qed.
