(* ===== verification/JournalTheorems.v ===== *)
(** * JournalTheorems: reverting a frame restores the transaction state

    [frame_run] is everything a frame can do to the transaction state between
    its checkpoint and its end: the journalled operations, and nested frames
    that commit or revert. *)

From Stdlib Require Import ZArith Lia RelationClasses.
From stdpp Require Import base tactics option list gmap numbers.
From S2P Require Import Prelude PyBytes OrderedDict HostTypes Regions Crypto Storage Accounts WarmLogs Journal JournalFacts.

#[local] Open Scope Z_scope.

(** ** Operations and frames *)

Inductive world_op : Type :=
| OpTransientStore (a : address) (slot value : Z)
| OpMarkAccount (a : address)
| OpMarkSlot (a : address) (slot : Z)
| OpStorageUpdate (entry : StorageEntry)
| OpStorageClear (a : address)
| OpAccountUpdate (a : address) (value : Account)
| OpSetBalance (a : address) (value : Z)
| OpSetNonce (a : address) (value : Z)
| OpSetCodeHash (a : address) (value : hash)
| OpLog (a : address) (topics : LogTopics) (payload : bytes)
| OpCacheAccount (a : address) (h : option hash) (value : Account)
| OpCacheStorage (key : StorageKey) (h : option hash) (value : Z).

Section frames.
Context `{Keccak}.

Definition run_op (op : world_op) : M World unit :=
  match op with
  | OpTransientStore a slot value => transient_store a slot value
  | OpMarkAccount a => account_mark_warm a
  | OpMarkSlot a slot => storage_mark_warm a slot
  | OpStorageUpdate entry => storage_tx_update entry
  | OpStorageClear a => storage_tx_clear a
  | OpAccountUpdate a value => acct_tx_update a value
  | OpSetBalance a value => acct_tx_set_balance a value
  | OpSetNonce a value => acct_tx_set_nonce a value
  | OpSetCodeHash a value => acct_tx_set_code_hash a value
  | OpLog a topics payload => emit_log a topics payload
  | OpCacheAccount a h value => acct_block_cache a h value
  | OpCacheStorage key h value => storage_block_cache key h value
  end.

(** The kernel never changes the storage root of a listed account: it is
    not journalled. *)
Definition admissible (op : world_op) (w : World) : Prop :=
  match op with
  | OpAccountUpdate a value =>
      ∀ row, od_get (_address_key a) w.(account_tx) = Some row →
        storage_root (info value) = storage_root (info (current row))
  | _ => True
  end.

Inductive frame_run : World → World → Prop :=
| run_done w : frame_run w w
| run_step op w w1 w2 :
    admissible op w → run_op op w = (Ok tt, w1) → frame_run w1 w2 → frame_run w w2
| run_commit w w1 w2 w3 w4 :
    state_journal_checkpoint w = (Ok tt, w1) → frame_run w1 w2 →
    state_journal_commit w2 = (Ok tt, w3) → frame_run w3 w4 → frame_run w w4
| run_revert w w1 w2 w3 w4 :
    state_journal_checkpoint w = (Ok tt, w1) → frame_run w1 w2 →
    state_journal_revert w2 = (Ok tt, w3) → frame_run w3 w4 → frame_run w w4.

Lemma op_journals op w w' :
  admissible op w → run_op op w = (Ok tt, w') → journals w w'.
Proof.
  destruct op; cbn [run_op admissible]; intros Ha.
  - apply transient_store_journals.
  - apply account_mark_warm_journals.
  - apply storage_mark_warm_journals.
  - apply storage_tx_update_journals.
  - apply storage_tx_clear_journals.
  - by apply acct_tx_update_journals.
  - apply acct_tx_set_balance_journals.
  - apply acct_tx_set_nonce_journals.
  - apply acct_tx_set_code_hash_journals.
  - apply emit_log_journals.
  - apply acct_block_cache_journals.
  - apply storage_block_cache_journals.
Qed.

(** ** Ending a frame *)

Section ending.
Context (w w0 w1 : World) (Hck : state_journal_checkpoint w = (Ok tt, w0))
  (Hrun : journals w0 w1) (Hok : world_ok w).

Lemma checkpoint_world : w0 = set_journal (journal w ++ [JournalFrameCheckpointed]) w.
Proof using Hck. by injection Hck. Qed.

Lemma frame_journal :
  world_ok w1 ∧ ∃ es, journal w1 = journal w ++ JournalFrameCheckpointed :: es ∧
    balanced es ∧ undoes es w1 w.
Proof using Hck Hrun Hok.
  rewrite checkpoint_world in Hrun.
  destruct (Hrun Hok) as (Hok1 & es & J & B & U). split; [done|]. exists es. split_and!.
  - rewrite J. cbn. by rewrite <-app_assoc.
  - done.
  - by rewrite weq_set_journal in U.
Qed.

Lemma checkpoint_found :
  _open_checkpoint_index w1 = (Ok (py_len (journal w)), w1).
Proof using Hck Hrun Hok.
  destruct frame_journal as (_ & es & J & B & _).
  unfold _open_checkpoint_index. py_step. by rewrite J, open_scan_checkpoint.
Qed.

Lemma revert_frame :
  ∃ w2, state_journal_revert w1 = (Ok tt, w2) ∧ w2 ≈ w ∧ journal w2 = journal w ∧
    ∃ es u, for_each _journal_restore (rev es) w1 = (Ok tt, u) ∧ w2 = set_journal (journal w) u.
Proof using Hck Hrun Hok.
  unfold state_journal_revert. rewrite bind_run, checkpoint_found. py_step.
  destruct frame_journal as (_ & es & J & _ & u & Hu & E).
  assert (journal w1 = (journal w ++ [JournalFrameCheckpointed]) ++ es ++ []) as J'
    by (by rewrite app_nil_r, <-app_assoc).
  pose proof (restore_range_run _ _ _ _ J') as Hr.
  rewrite !py_len_app in Hr. change (py_len [JournalFrameCheckpointed]) with 1 in Hr.
  replace (py_len (journal w) + 1 - 1) with (py_len (journal w)) in Hr by lia.
  replace (py_len (journal w1) - 1) with (py_len (journal w) + 1 + py_len es - 1)
    by (rewrite J; unfold py_len; rewrite length_app; cbn; lia).
  rewrite Hr, Hu. py_step.
  assert (journal u = journal w1) as Ju.
  { clear -Hu. revert Hu. generalize w1, (rev es). intros v es'. revert v.
    induction es' as [|e es' IH]; intros v; simpl; [by intros [= <-]|].
    rewrite bind_run. pose proof (restore_journal e v) as He.
    destruct (_journal_restore e v) as [[[]|x] v1]; [|done]. cbn in He.
    intros Hu. by rewrite (IH _ Hu). }
  assert (py_del_from (journal u) (py_len (journal w)) = journal w) as Jd.
  { rewrite Ju, J. unfold py_del_from. rewrite slice_bound_in.
    - unfold py_len. by rewrite Nat2Z.id, take_app_length.
    - rewrite py_len_app. pose proof (py_len_nonneg (journal w)).
      pose proof (py_len_nonneg (JournalFrameCheckpointed :: es)). lia. }
  rewrite Jd. eexists. split_and!; [reflexivity| |done|].
  - by rewrite weq_set_journal.
  - by exists es, u.
Qed.

Lemma commit_frame :
  ∃ w2, state_journal_commit w1 = (Ok tt, w2) ∧
    w2 = set_journal (journal w1 ++ [JournalFrameCommitted]) w1 ∧ journals w w2.
Proof using Hck Hrun Hok.
  unfold state_journal_commit, journal_append. rewrite bind_run, checkpoint_found. py_step.
  eexists. split; [done|]. split; [done|]. intros _.
  destruct frame_journal as (Hok1 & es & J & B & U). split; [exact Hok1|].
  exists (JournalFrameCheckpointed :: es ++ [JournalFrameCommitted]). split_and!.
  - cbn. by rewrite J, <-app_assoc.
  - by apply balanced_frame.
  - apply (undoes_app [_] _ _ w); [by apply undoes_marker; [left|]|].
    rewrite weq_set_journal.
    apply (undoes_app es [_] _ w1); [done|]. by apply undoes_marker; [right|].
Qed.
End ending.

Lemma frame_run_journals w w' : frame_run w w' → journals w w'.
Proof.
  induction 1 as [w|op w w1 w2 Ha Hop _ IH|w w1 w2 w3 w4 Hck _ IH1 Hcm _ IH2
    |w w1 w2 w3 w4 Hck _ IH1 Hrv _ IH2]; [done| | |].
  - etrans; [by eapply op_journals|done].
  - intros Hok. destruct (commit_frame w w1 w2 Hck IH1 Hok) as (w3' & Hcm' & _ & J).
    rewrite Hcm in Hcm'. injection Hcm' as <-. by apply (transitivity J IH2).
  - intros Hok. destruct (revert_frame w w1 w2 Hck IH1 Hok) as (w3' & Hrv' & E & J & _).
    rewrite Hrv in Hrv'. injection Hrv' as <-.
    by apply (transitivity (journals_silent w w3 E J) IH2).
Qed.
End frames.

(** ** The cleared flags *)

(** [storage_cleared] of a listed account says that its storage was empty at
    the start of the transaction or has been cleared since. *)
Definition cleared_ok (w : World) : Prop :=
  ∀ k r, od_get k w.(account_tx) = Some r →
    r.(current).(storage_cleared) =
    r.(original).(storage_cleared) || negb (_storage_generation w k =? STORAGE_INITIAL_GENERATION).

Lemma cleared_ok_alter f k w :
  (∀ c, storage_cleared (f c) = storage_cleared c) →
  cleared_ok w → cleared_ok (set_account_tx (od_alter (on_current f) k w.(account_tx)) w).
Proof.
  intros Hf Hw k' r. cbn. rewrite od_get_alter. case_decide; [|apply Hw].
  intros (r' & Hr' & ->)%fmap_Some. cbn. rewrite Hf. by apply Hw.
Qed.

Lemma restore_account_cleared_ok a f w w' :
  (∀ c, storage_cleared (f c) = storage_cleared c) →
  restore_account a f w = (Ok tt, w') → cleared_ok w → cleared_ok w'.
Proof.
  intros Hf. rewrite restore_account_run. destruct (od_get _ _); [|done]. intros [= <-].
  by apply cleared_ok_alter.
Qed.

Lemma restore_cleared_ok e w w' :
  restores_to e w w' → cleared_ok w → cleared_ok w'.
Proof.
  unfold restores_to. destruct e; cbn [_journal_restore];
    try (by apply restore_account_cleared_ok); rewrite ?restore_storage_run;
    unfold restore_log; py_step.
  - by intros [= <-] Hw.
  - by intros [= <-] Hw.
  - by intros [= <-] Hw.
  - destruct (od_popitem _) as [[[k r] d]|] eqn:E; py_step; [|done]. intros [= <-] Hw k' r' Hr.
    apply Hw. apply od_popitem_Some in E as ->. by apply od_get_app_Some.
  - destruct (last_listed _ _); py_step; [|done]. by intros [= <-] Hw.
  - destruct (last _); py_step; [|done]. by intros [= <-] Hw.
  - destruct (od_get _ _); [|done]. by intros [= <-] Hw.
  - destruct (od_get _ _); [|done]. by intros [= <-] Hw.
  - intros [= <-] Hw k r. cbn. rewrite od_get_alter. unfold _storage_generation. cbn.
    case_decide as D.
    + subst. rewrite lookup_insert_eq. intros (r' & Hr' & ->)%fmap_Some. done.
    + rewrite lookup_insert_ne by done. apply Hw.
  - by intros [= <-].
  - by intros [= <-].
Qed.

Lemma restore_all_cleared_ok es w w' :
  for_each _journal_restore es w = (Ok tt, w') → cleared_ok w → cleared_ok w'.
Proof.
  revert w. induction es as [|e es IH]; intros w; simpl; [by intros [= <-]|].
  rewrite bind_run. destruct (_journal_restore e w) as [[[]|x] w1] eqn:E; [|done].
  intros H Hw. eapply IH; [done|]. by eapply restore_cleared_ok.
Qed.

(** With the flags in order, [≈] leaves no difference between the tables. *)
Lemma cleared_ok_accounts v w :
  v ≈ w → cleared_ok v → cleared_ok w → ∀ k, od_get k v.(account_tx) = od_get k w.(account_tx).
Proof.
  intros E Hv Hw k. pose proof (uncleared_get_cong k _ _ (weq_account_tx _ _ E)) as Hk.
  destruct (od_get k (account_tx v)) as [rv|] eqn:Ev, (od_get k (account_tx w)) as [rw|] eqn:Ew;
    cbn in Hk; try discriminate; [|done].
  pose proof (Hv _ _ Ev) as Cv. pose proof (Hw _ _ Ew) as Cw.
  rewrite (weq_generations _ _ E) in Cv.
  apply (f_equal (default rv)) in Hk. cbn in Hk.
  pose proof (f_equal original Hk) as Ho. pose proof (f_equal current Hk) as Hc.
  destruct rv as [[] ?], rw as [[] ?]. unfold set_storage_cleared in *. cbn in *.
  rewrite Ho, <-Cw in Cv. injection Hc as -> -> -> ->. by subst.
Qed.

(** ** What the program can read *)

Section observe.
Context (v w : World) (E : v ≈ w).

Lemma transient_load_weq a s : fst (transient_load a s v) = fst (transient_load a s w).
Proof using E. unfold transient_load. py_step. by rewrite (weq_transient _ _ E). Qed.

Lemma storage_tx_get_weq k : fst (storage_tx_get k v) = fst (storage_tx_get k w).
Proof using E.
  unfold storage_tx_get. py_step.
  by rewrite (weq_generations _ _ E), (weq_storage_tx _ _ E).
Qed.

Lemma account_is_warm_weq a : fst (account_is_warm a v) = fst (account_is_warm a w).
Proof using E.
  unfold account_is_warm. py_step. by rewrite (weq_warm_addresses _ _ E), (weq_epoch _ _ E).
Qed.

Lemma storage_is_warm_weq a s : fst (storage_is_warm a s v) = fst (storage_is_warm a s w).
Proof using E.
  unfold storage_is_warm. py_step. by rewrite (weq_warm_slots _ _ E), (weq_epoch _ _ E).
Qed.

Lemma logs_tx_count_weq : fst (logs_tx_count v) = fst (logs_tx_count w).
Proof using E. unfold logs_tx_count. py_step. by rewrite (weq_logs _ _ E), (weq_log_start _ _ E). Qed.

Lemma log_at_weq i : fst (log_at i v) = fst (log_at i w).
Proof using E. unfold log_at. py_step. by rewrite (weq_logs _ _ E). Qed.
End observe.

Lemma acct_tx_get_weq v w a :
  v ≈ w → cleared_ok v → cleared_ok w → fst (acct_tx_get a v) = fst (acct_tx_get a w).
Proof.
  intros E Hv Hw. unfold acct_tx_get. py_step. by rewrite (cleared_ok_accounts _ _ E Hv Hw).
Qed.

(** ** The properties *)

(** C3: reverting undoes a frame exactly. Whatever journalled operations and
    nested committed or reverted frames ran since the checkpoint, [revert]
    succeeds, empties the journal down to the checkpoint, and leaves a world
    in which transient storage, transaction storage rows and generations,
    warm stamps, logs, log data and the account table are what they were at
    the checkpoint. When the [storage_cleared] flags are in order at the
    checkpoint and at the revert, accounts are restored with their flags too. *)
Theorem revert_restores `{Keccak} (w w0 w1 : World) :
  world_ok w →
  state_journal_checkpoint w = (Ok tt, w0) → frame_run w0 w1 →
  ∃ w2, state_journal_revert w1 = (Ok tt, w2) ∧ w2 ≈ w ∧ journal w2 = journal w ∧
    (cleared_ok w → cleared_ok w1 →
     ∀ a, fst (acct_tx_get a w2) = fst (acct_tx_get a w)) ∧
    (∀ k, fst (storage_tx_get k w2) = fst (storage_tx_get k w)) ∧
    (∀ a s, fst (transient_load a s w2) = fst (transient_load a s w)) ∧
    (∀ a, fst (account_is_warm a w2) = fst (account_is_warm a w)) ∧
    (∀ a s, fst (storage_is_warm a s w2) = fst (storage_is_warm a s w)).
Proof.
  intros Hok Hck Hrun%frame_run_journals.
  destruct (revert_frame w w0 w1 Hck Hrun Hok) as (w2 & Hrv & E & J & es & u & Hu & Hw2).
  exists w2. split_and!; [done..| | | | |]; intros.
  - apply acct_tx_get_weq; [done| |done]. rewrite Hw2.
    by apply (restore_all_cleared_ok _ _ _ Hu).
  - by apply storage_tx_get_weq.
  - by apply transient_load_weq.
  - by apply account_is_warm_weq.
  - by apply storage_is_warm_weq.
Qed.

(** A frame that stores, warms, logs and runs a nested committed frame. *)
Definition sample_address : address := zeros 20.
Definition sample_start : World := snd (state_journal_checkpoint initial_world).
Definition sample_stored : World := snd (transient_store sample_address 1 7 sample_start).
Definition sample_warm : World := snd (account_mark_warm sample_address sample_stored).
Definition sample_child : World := snd (state_journal_checkpoint sample_warm).
Definition sample_logged : World :=
  snd (emit_log sample_address (LogTopics1 5) [Byte.x01] sample_child).
Definition sample_end : World := snd (state_journal_commit sample_logged).

Ltac by_eval := vm_compute; reflexivity.

Lemma sample_frame `{Keccak} : frame_run sample_start sample_end.
Proof.
  apply (run_step (OpTransientStore sample_address 1 7) _ sample_stored); [exact I|by_eval|].
  apply (run_step (OpMarkAccount sample_address) _ sample_warm); [exact I|by_eval|].
  apply (run_commit _ sample_child sample_logged sample_end); [by_eval| |by_eval|apply run_done].
  apply (run_step (OpLog sample_address (LogTopics1 5) [Byte.x01]) _ sample_logged);
    [exact I|by_eval|apply run_done].
Qed.

Lemma initial_world_ok : world_ok initial_world.
Proof. by intros k r. Qed.

Lemma revert_restores_witness :
  fst (account_is_warm sample_address sample_end) = Ok true ∧
  ∃ w2, state_journal_revert sample_end = (Ok tt, w2) ∧
    fst (account_is_warm sample_address w2) = Ok false.
Proof.
  split; [vm_compute; reflexivity|].
  destruct (@revert_restores toy_Keccak initial_world sample_start sample_end initial_world_ok
    eq_refl sample_frame) as (w2 & Hrv & _ & _ & _ & _ & _ & Hwarm & _).
  exists w2. split; [exact Hrv|].
  refine (eq_trans (Hwarm sample_address) _). vm_compute. reflexivity.
Defined.

(** C25: committing keeps a frame's changes but folds it into its parent.
    [commit] succeeds, changes nothing but the journal, and leaves the
    enclosing checkpoint (if any) as the open one, so that a later revert of
    the parent undoes the child as well. *)
Theorem commit_folds `{Keccak} (w w0 w1 : World) :
  world_ok w →
  state_journal_checkpoint w = (Ok tt, w0) → frame_run w0 w1 →
  ∃ w2, state_journal_commit w1 = (Ok tt, w2) ∧
    w2 = set_journal (journal w1 ++ [JournalFrameCommitted]) w1 ∧
    fst (_open_checkpoint_index w2) = fst (_open_checkpoint_index w) ∧
    (∀ p p0, world_ok p → state_journal_checkpoint p = (Ok tt, p0) → frame_run p0 w →
       ∃ p', state_journal_revert w2 = (Ok tt, p') ∧ p' ≈ p ∧ journal p' = journal p).
Proof.
  intros Hok Hck Hrun.
  destruct (commit_frame w w0 w1 Hck (frame_run_journals _ _ Hrun) Hok) as (w2 & Hcm & Hw2 & J).
  exists w2. split_and!; [done..| |].
  - destruct (J Hok) as (_ & es & Jes & B & _). unfold _open_checkpoint_index. py_step.
    rewrite Jes, rev_app_distr, B by done. by destruct (open_scan _ _).
  - intros p p0 Hp Hckp Hrunp.
    pose proof (transitivity (frame_run_journals _ _ Hrunp) J) as Jp.
    destruct (revert_frame p p0 w2 Hckp Jp Hp) as (p' & Hrv & E & Jp' & _). eauto.
Qed.

Lemma commit_folds_witness :
  ∃ w2 p', state_journal_commit sample_end = (Ok tt, w2) ∧
    state_journal_revert w2 = (Raise (RuntimeError "state journal has no open checkpoint"), p') ∧
    fst (_open_checkpoint_index sample_end) = Ok 0.
Proof.
  destruct (@commit_folds toy_Keccak initial_world sample_start sample_end initial_world_ok
    eq_refl sample_frame) as (w2 & Hcm & Hw2 & Hopen & _).
  exists w2, w2. split; [exact Hcm|]. split; [|vm_compute; reflexivity].
  subst w2. vm_compute. reflexivity.
Defined.

(** commit and revert outside any frame are refused and change nothing. *)
Theorem no_open_checkpoint (w : World) :
  open_scan (rev (journal w)) 0 = None →
  state_journal_revert w = (Raise (RuntimeError "state journal has no open checkpoint"), w) ∧
  state_journal_commit w = (Raise (RuntimeError "state journal has no open checkpoint"), w).
Proof.
  intros Hn. unfold state_journal_revert, state_journal_commit, _open_checkpoint_index.
  py_step. by rewrite Hn.
Qed.

Lemma no_open_checkpoint_witness :
  fst (state_journal_revert
    (set_journal [JournalFrameCheckpointed; JournalLogAppended; JournalFrameCommitted] initial_world))
  = Raise (RuntimeError "state journal has no open checkpoint").
Proof.
  refine (f_equal fst (proj1 (no_open_checkpoint
    (set_journal [JournalFrameCheckpointed; JournalLogAppended; JournalFrameCommitted]
      initial_world) _))).
  reflexivity.
Defined.
