(* ===== verification/StorageTheorems.v ===== *)
(** * StorageTheorems: the generation scheme of the transaction storage

    Clearing an account's storage is an increment; the theorems here say that
    it hides exactly that account's rows, that an update is visible to the
    next read, and that the pop loop drains exactly the visible rows. *)

From Stdlib Require Import ZArith Lia.
From stdpp Require Import base tactics option list gmap.
From S2P Require Import Prelude PyBytes OrderedDict HostTypes Regions Crypto Storage.

#[local] Open Scope Z_scope.

(** Generations in use never exceed the counter. *)
Record gen_ok (w : World) : Prop := {
  gen_next : STORAGE_INITIAL_GENERATION <= w.(storage_next_generation);
  gen_accounts : ∀ k, _storage_generation w k <= w.(storage_next_generation);
  gen_rows : ∀ k r, od_get k w.(storage_tx) = Some r →
    r.(generation) <= w.(storage_next_generation);
}.

Lemma initial_gen_ok : gen_ok initial_world.
Proof. split; [done| |done]. intros k. unfold _storage_generation. cbn. by rewrite lookup_empty. Qed.

(** The read of a key as a function of the state. *)
Definition storage_lookup (w : World) (key : StorageKey) : StorageTxLookup :=
  let g := _storage_generation w (_storage_key key).1 in
  match od_get (_storage_key key) w.(storage_tx) with
  | Some row =>
      if row.(generation) =? g then StorageTxHit row.(str_value)
      else if negb (g =? STORAGE_INITIAL_GENERATION) then StorageTxCleared else StorageTxMiss
  | None => if negb (g =? STORAGE_INITIAL_GENERATION) then StorageTxCleared else StorageTxMiss
  end.

Lemma storage_tx_get_run key w : storage_tx_get key w = (Ok (storage_lookup w key), w).
Proof. unfold storage_tx_get, storage_lookup. by py_step. Qed.

Lemma storage_tx_clear_run a w :
  storage_tx_clear a w = (Ok tt,
    set_storage_generations
      (<[_address_key a := w.(storage_next_generation) + 1]> w.(storage_generations))
      (set_storage_next_generation (w.(storage_next_generation) + 1)
        (set_journal (w.(journal) ++
          [JournalAccountStorageGenerationChanged a (_storage_generation w (_address_key a))]) w))).
Proof. unfold storage_tx_clear, journal_append. by py_step. Qed.

(** clearing an account's storage takes effect at once and on nothing
    else: every slot of the account, written in this transaction or not, reads
    as cleared; slots of other accounts read as before; no row is touched, and
    the generation counter stays ahead of every generation in use. *)
Theorem storage_clear_hides (a : address) (w w' : World) :
  gen_ok w → storage_tx_clear a w = (Ok tt, w') →
  (∀ slot, fst (storage_tx_get (mkStorageKey a slot) w') = Ok StorageTxCleared) ∧
  (∀ key, _address_key key.(sk_addr) ≠ _address_key a →
     fst (storage_tx_get key w') = fst (storage_tx_get key w)) ∧
  storage_tx w' = storage_tx w ∧ gen_ok w'.
Proof.
  intros [Hn Ha Hr]. rewrite storage_tx_clear_run. intros [= <-]. split_and!.
  - intros slot. rewrite storage_tx_get_run. cbn [fst]. f_equal.
    unfold storage_lookup, _storage_generation. cbn. rewrite lookup_insert_eq. cbn.
    unfold STORAGE_INITIAL_GENERATION in *.
    rewrite (proj2 (Z.eqb_neq (_ + 1) 1)) by lia. cbn.
    destruct (od_get _ _) as [row|] eqn:E; [|done]. pose proof (Hr _ _ E).
    by rewrite (proj2 (Z.eqb_neq _ _)) by lia.
  - intros key Hk. rewrite !storage_tx_get_run. cbn [fst]. f_equal.
    unfold storage_lookup, _storage_generation. cbn. by rewrite lookup_insert_ne.
  - done.
  - split; cbn; [unfold STORAGE_INITIAL_GENERATION in *; lia| |].
    + intros k. unfold _storage_generation. cbn. rewrite lookup_insert.
      case_decide; cbn; [lia|]. specialize (Ha k). unfold _storage_generation in Ha. lia.
    + intros k r E. pose proof (Hr _ _ E). lia.
Qed.

Lemma storage_clear_hides_witness :
  ∃ w', storage_tx_clear [Byte.x01] initial_world = (Ok tt, w') ∧
    fst (storage_tx_get (mkStorageKey [Byte.x01] 4) w') = Ok StorageTxCleared.
Proof.
  run_call_as Hc. exact (proj1 (storage_clear_hides _ _ _ initial_gen_ok Hc) 4).
Defined.

Lemma storage_tx_update_run entry w :
  let k := _storage_key entry.(se_key) in
  let g := _storage_generation w k.1 in
  ∃ es, storage_tx_update entry w = (Ok tt,
    set_storage_tx
      (match od_get k w.(storage_tx) with
       | Some row => od_set k (mkStorageTxRow row.(str_key)
           (mkStorageValue entry.(se_value).(sv_curr) row.(str_value).(sv_orig)) g) w.(storage_tx)
       | None => od_set k (mkStorageTxRow entry.(se_key) entry.(se_value) g) w.(storage_tx)
       end) (set_journal (w.(journal) ++ es) w)).
Proof.
  intros k g. unfold storage_tx_update, journal_append. py_step. fold k. fold g.
  destruct (od_get k (storage_tx w)) as [row|] eqn:Hrow; py_step.
  2:{ exists [JournalTransactionStorageListed (sk_addr (se_key entry))].
      destruct entry as [key [c o]]. done. }
  destruct row as [rk [c o] rg]. cbn [str_value sv_curr str_key generation sv_orig].
  destruct (Z.eqb_spec c (sv_curr (se_value entry))) as [->|Hc]; cbn [negb];
    destruct (Z.eqb_spec rg g) as [->|Hg]; cbn [negb]; py_step.
  - exists []. rewrite app_nil_r, od_set_same by done. by destruct w.
  - eexists [_]. unfold od_alter. cbn. rewrite Hrow. reflexivity.
  - eexists [_]. unfold od_alter. cbn. rewrite Hrow. reflexivity.
  - eexists [_; _]. unfold od_alter. cbn. rewrite Hrow. cbn. rewrite od_get_set_eq, od_set_set.
    unfold set_storage_tx, set_journal. cbn. by rewrite <-app_assoc.
Qed.

(** an update is what the next read of its slot sees, and no other slot's
    read changes; the original value is that of the slot's first row in the
    transaction, and only a slot without a row takes it from the entry. *)
Theorem storage_update_visible (entry : StorageEntry) (w w' : World) :
  storage_tx_update entry w = (Ok tt, w') →
  fst (storage_tx_get entry.(se_key) w') = Ok (StorageTxHit
    (mkStorageValue entry.(se_value).(sv_curr)
      (match od_get (_storage_key entry.(se_key)) w.(storage_tx) with
       | Some row => row.(str_value).(sv_orig)
       | None => entry.(se_value).(sv_orig)
       end))) ∧
  (∀ key, _storage_key key ≠ _storage_key entry.(se_key) →
     fst (storage_tx_get key w') = fst (storage_tx_get key w)) ∧
  (gen_ok w → gen_ok w').
Proof.
  destruct (storage_tx_update_run entry w) as [es Hrun]. rewrite Hrun. intros [= <-].
  rewrite storage_tx_get_run. cbn [fst]. split_and!.
  - unfold storage_lookup, _storage_generation. cbn.
    destruct (od_get _ (storage_tx w)); rewrite od_get_set_eq; cbn; rewrite Z.eqb_refl; [done|].
    by destruct entry as [? []].
  - intros key Hk. rewrite !storage_tx_get_run. cbn [fst]. f_equal.
    unfold storage_lookup, _storage_generation. cbn.
    destruct (od_get _ (storage_tx w)); by rewrite od_get_set_ne by done.
  - intros [Hn Ha Hr]. split; cbn; [done..|]. intros k r.
    destruct (od_get _ (storage_tx w)); rewrite od_get_set; case_decide;
      [intros [= <-]; apply Ha|apply Hr|intros [= <-]; apply Ha|apply Hr].
Qed.

Lemma storage_update_visible_witness :
  let entry := mkStorageEntry (mkStorageKey [Byte.x01] 4) (mkStorageValue 9 2) in
  ∃ w', storage_tx_update entry initial_world = (Ok tt, w') ∧
    fst (storage_tx_get (mkStorageKey [Byte.x01] 4) w') = Ok (StorageTxHit (mkStorageValue 9 2)).
Proof.
  run_call_as Hc. exact (proj1 (storage_update_visible _ _ _ Hc)).
Defined.

(** C33: a slot written again after its account's storage was cleared keeps the
    original value of the row that the clear had hidden, not the original the
    caller read after the clear. *)
Theorem storage_update_after_clear (a : address) (slot : Z) (row : StorageTxRow)
    (v : StorageValue) (w w1 w2 : World) :
  od_get (_storage_key (mkStorageKey a slot)) w.(storage_tx) = Some row →
  storage_tx_clear a w = (Ok tt, w1) →
  storage_tx_update (mkStorageEntry (mkStorageKey a slot) v) w1 = (Ok tt, w2) →
  fst (storage_tx_get (mkStorageKey a slot) w2) =
    Ok (StorageTxHit (mkStorageValue v.(sv_curr) row.(str_value).(sv_orig))).
Proof.
  intros Hrow. rewrite storage_tx_clear_run. intros [= <-].
  set (w1' := set_storage_generations _ _).
  destruct (storage_tx_update_run (mkStorageEntry (mkStorageKey a slot) v) w1') as [es Hrun].
  rewrite Hrun. intros [= <-]. rewrite storage_tx_get_run. cbn [fst]. f_equal.
  unfold storage_lookup, _storage_generation. cbn [se_key storage_tx set_storage_tx].
  change (storage_tx w1') with (storage_tx w). rewrite Hrow, od_get_set_eq.
  unfold _storage_generation. cbn. by rewrite Z.eqb_refl.
Qed.

Definition stale_world : World :=
  snd (storage_tx_update
    (mkStorageEntry (mkStorageKey [Byte.x01] 4) (mkStorageValue 6 5)) initial_world).

Lemma storage_update_after_clear_witness :
  ∃ w1 w2, storage_tx_clear [Byte.x01] stale_world = (Ok tt, w1) ∧
    fst (storage_tx_get (mkStorageKey [Byte.x01] 4) w1) = Ok StorageTxCleared ∧
    storage_tx_update (mkStorageEntry (mkStorageKey [Byte.x01] 4) (mkStorageValue 5 0)) w1
      = (Ok tt, w2) ∧
    fst (storage_tx_get (mkStorageKey [Byte.x01] 4) w2) = Ok (StorageTxHit (mkStorageValue 5 5)).
Proof.
  eexists _, _. split; [apply storage_tx_clear_run|]. split; [vm_compute; reflexivity|].
  match goal with |- storage_tx_update ?e ?w1 = (Ok tt, ?w2) ∧ _ =>
    assert (H : storage_tx_update e w1 = (Ok tt, snd (storage_tx_update e w1)))
      by (vm_compute; reflexivity) end.
  split; [exact H|].
  refine (storage_update_after_clear [Byte.x01] 4
    (mkStorageTxRow (mkStorageKey [Byte.x01] 4) (mkStorageValue 6 5) 1)
    (mkStorageValue 5 0) stale_world _ _ _ (storage_tx_clear_run _ _) H).
  vm_compute. reflexivity.
Defined.

(** ** Draining *)

Definition row_visible (w : World) (kr : (bytes * Z) * StorageTxRow) : Prop :=
  kr.2.(generation) = _storage_generation w kr.1.1.
#[export] Instance row_visible_dec w kr : Decision (row_visible w kr).
Proof. unfold row_visible. apply _. Defined.

Definition visible (w : World) (l : list ((bytes * Z) * StorageTxRow)) :=
  filter (row_visible w) l.

Lemma visible_app w l k : visible w (l ++ k) = visible w l ++ visible w k.
Proof. apply filter_app. Qed.

Lemma visible_cons w kr l :
  visible w (kr :: l) = if decide (row_visible w kr) then kr :: visible w l else visible w l.
Proof. apply filter_cons. Qed.

Definition entry_of (kr : (bytes * Z) * StorageTxRow) : StorageEntry :=
  mkStorageEntry kr.2.(str_key) kr.2.(str_value).

(** Pops until exhaustion, as [k_tx_merge] does. *)
Fixpoint drain (fuel : nat) : M World (list StorageEntry) :=
  match fuel with
  | O => mret []
  | S fuel =>
      r ← storage_tx_pop;
      match r with
      | StorageTxPopRow e => es ← drain fuel; mret (e :: es)
      | StorageTxPopExhausted => mret []
      end
  end.

Lemma set_storage_tx_visible d w kr : row_visible (set_storage_tx d w) kr ↔ row_visible w kr.
Proof. done. Qed.

Lemma pop_loop_run fuel w :
  (length w.(storage_tx) < fuel)%nat →
  ∃ d, (visible w d = [] ∧ storage_tx w = d ∧
        storage_tx_pop_loop fuel w = (Ok StorageTxPopExhausted, set_storage_tx [] w)) ∨
       (∃ kr h, storage_tx w = d ++ kr :: h ∧ row_visible w kr ∧ visible w h = [] ∧
        storage_tx_pop_loop fuel w = (Ok (StorageTxPopRow (entry_of kr)), set_storage_tx d w)).
Proof.
  revert w. induction fuel as [|fuel IH]; intros w Hf; [lia|]. simpl. py_step.
  destruct (storage_tx w) as [|[k row] d _] eqn:Ed using rev_ind.
  { exists []. left. split_and!; [done|done|]. cbn. py_step. f_equal. destruct w; cbn in *. by subst. }
  rewrite od_popitem_snoc. py_step.
  destruct (Z.eqb_spec row.(generation) (_storage_generation (set_storage_tx d w) k.1)) as [Hv|Hv].
  - exists d. right. exists (k, row), []. split_and!; done.
  - destruct (IH (set_storage_tx d w)) as (d' & [(H1 & H2 & H3)|(kr & h & H1 & H2 & H3 & H4)]).
    { rewrite length_app in Hf. cbn in *. lia. }
    + exists (d ++ [(k, row)]). left. split_and!; [|done|exact H3].
      rewrite visible_app, visible_cons, decide_False by done. cbn in H2. subst d'.
      rewrite app_nil_r. exact H1.
    + exists d'. right. exists kr, (h ++ [(k, row)]). cbn in H1. split_and!; [|done| |exact H4].
      * by rewrite H1, <-app_assoc.
      * rewrite visible_app, visible_cons, decide_False by done. rewrite app_nil_r. exact H3.
Qed.

(** C32: popping until exhaustion terminates and yields exactly the rows that
    are visible in their account's current generation, newest first; rows
    hidden by a clear are dropped, and the table ends empty. *)
Theorem storage_drain_visible (w : World) :
  let fuel := S (length w.(storage_tx)) in
  drain fuel w = (Ok (entry_of <$> rev (visible w w.(storage_tx))),
                  set_storage_tx [] w).
Proof.
  cbn zeta. generalize (le_n (S (length (storage_tx w)))).
  generalize (S (length (storage_tx w))) at 2 3. intros fuel. revert w.
  induction fuel as [|fuel IH]; intros w Hf; [lia|]. cbn [drain].
  unfold storage_tx_pop. rewrite !bind_run, gets_run.
  destruct (pop_loop_run (S (length (storage_tx w))) w ltac:(lia))
    as (d & [(H1 & H2 & ->)|(kr & h & H1 & H2 & H3 & ->)]).
  - rewrite H2. by rewrite H1.
  - rewrite bind_run, (IH (set_storage_tx d w)).
    + cbn. py_step. f_equal. f_equal. rewrite H1, visible_app, visible_cons, H3, decide_True by done.
      rewrite rev_app_distr. done.
    + cbn. rewrite H1, length_app in Hf. cbn in Hf. lia.
Qed.
