(* ===== verification/AccountTheorems.v ===== *)
(** * AccountTheorems: accounts, warm sets, logs, authorizations and block iteration *)

From Stdlib Require Import ZArith Lia Sorting.Sorted.
From stdpp Require Import base tactics option list gmap.
From S2P Require Import Prelude PyBytes OrderedDict HostTypes Regions RegionFacts Crypto Storage Accounts WarmLogs Journal JournalFacts.

#[local] Open Scope Z_scope.

(** ** Account rows *)

(** The row an account write works on: the listed one, or a new one whose
    original is the cached account. *)
Definition account_row (w : World) (key : bytes) : option AccountTxRow :=
  match od_get key w.(account_tx) with
  | Some row => Some row
  | None => (λ b, mkAccountTxRow b.(ab_value).(av_curr) b.(ab_value).(av_curr)) <$>
              od_get key w.(account_block)
  end.

Lemma account_tx_required_run a w :
  match account_row w (_address_key a) with
  | None => _account_tx_required a w =
      (Raise (RuntimeError "transaction account update requires a cached account"), w)
  | Some row => ∃ w1, _account_tx_required a w = (Ok row, w1) ∧
      od_get (_address_key a) w1.(account_tx) = Some row ∧
      ∀ k, k ≠ _address_key a → od_get k w1.(account_tx) = od_get k w.(account_tx)
  end.
Proof.
  unfold account_row, _account_tx_required, list_account, journal_append, missing_account. py_step.
  destruct (od_get _ (account_tx w)) as [row|] eqn:E; py_step; [by exists w|].
  destruct (od_get _ (account_block w)) as [b|]; cbn; py_step; [|done].
  eexists. split_and!; [done| |]; cbn; [by rewrite od_get_set_eq|].
  intros. by rewrite od_get_set_ne by done.
Qed.

(** The account a write leaves under its key, by operation. *)
Definition write_account (op : address → M World unit) (f : Account → Account) : Prop :=
  ∀ a w,
  match account_row w (_address_key a) with
  | None => op a w = (Raise (RuntimeError "transaction account update requires a cached account"), w)
  | Some row => ∃ w', op a w = (Ok tt, w') ∧
      od_get (_address_key a) w'.(account_tx) = Some (mkAccountTxRow (f row.(current)) row.(original)) ∧
      ∀ k, k ≠ _address_key a → od_get k w'.(account_tx) = od_get k w.(account_tx)
  end.

Lemma set_field_write (c : AccountTxRow → bool) e f :
  (∀ row, c row = false → f row.(current) = row.(current)) →
  write_account (λ a,
    row ← _account_tx_required a;
    when (c row) (journal_append (e a row);; alter_account (_address_key a) f)) f.
Proof.
  intros Hc a w. pose proof (account_tx_required_run a w) as Hreq.
  destruct (account_row w _) as [row|]; rewrite bind_run; [|by rewrite Hreq].
  destruct Hreq as (w1 & -> & H1 & H2).
  unfold alter_account, journal_append. destruct (c row) eqn:E; py_step.
  - eexists. split; [done|]. cbn. split.
    + by rewrite od_get_alter, decide_True, H1 by done.
    + intros k Hk. rewrite od_get_alter, decide_False by done. by apply H2.
  - exists w1. split; [done|]. split; [|done]. rewrite H1, Hc by done. by destruct row.
Qed.

Lemma acct_tx_update_write value :
  ∀ a w,
  match account_row w (_address_key a) with
  | None => acct_tx_update a value w =
      (Raise (RuntimeError "transaction account update requires a cached account"), w)
  | Some row => ∃ w', acct_tx_update a value w = (Ok tt, w') ∧
      od_get (_address_key a) w'.(account_tx) = Some (mkAccountTxRow value row.(original)) ∧
      ∀ k, k ≠ _address_key a → od_get k w'.(account_tx) = od_get k w.(account_tx)
  end.
Proof.
  intros a w. unfold account_row, acct_tx_update, list_account, missing_account. py_step.
  destruct (od_get _ (account_tx w)) as [row|] eqn:E; py_step.
  - assert (Hw : ∀ (b : bool) e v, account_tx v = account_tx w →
      ∃ v', when b (journal_append e) v = (Ok tt, v') ∧ account_tx v' = account_tx w).
    { intros [] e v Hv; eexists; (split; [reflexivity|done]). }
    repeat match goal with
    | |- context [when ?b (journal_append ?e) ?v] =>
        let v' := fresh "v" in let Hv := fresh in
        destruct (Hw b e v ltac:(done)) as (v' & -> & Hv); py_step
    end.
    unfold alter_account. py_step. eexists. split; [done|]. cbn.
    match goal with H : account_tx ?v = account_tx w |- context [account_tx ?v] => rewrite H end.
    split; [by rewrite od_get_alter, decide_True, E by done|].
    intros. by rewrite od_get_alter, decide_False by done.
  - unfold journal_append. destruct (od_get _ (account_block w)) as [b|]; cbn; py_step; [|done].
    eexists. split_and!; [done| |]; cbn; [by rewrite od_get_set_eq|].
    intros. by rewrite od_get_set_ne by done.
Qed.

Lemma set_balance_write v :
  write_account (λ a, acct_tx_set_balance a v) (λ c, set_info (set_balance v c.(info)) c).
Proof.
  apply (set_field_write (λ row, negb (row.(current).(info).(balance) =? v))
    (λ a row, JournalAccountBalanceChanged a row.(current).(info).(balance))).
  intros [[[] ? ? ? ?] ?]; cbn. by intros ->%negb_false_iff%Z.eqb_eq.
Qed.
Lemma set_nonce_write v :
  write_account (λ a, acct_tx_set_nonce a v) (λ c, set_info (set_nonce v c.(info)) c).
Proof.
  apply (set_field_write (λ row, negb (row.(current).(info).(nonce) =? v))
    (λ a row, JournalAccountNonceChanged a row.(current).(info).(nonce))).
  intros [[[] ? ? ? ?] ?]; cbn. by intros ->%negb_false_iff%Z.eqb_eq.
Qed.
Lemma set_code_hash_write h :
  write_account (λ a, acct_tx_set_code_hash a h) (λ c, set_info (set_code_hash h c.(info)) c).
Proof.
  apply (set_field_write (λ row, bool_decide (row.(current).(info).(code_hash) ≠ h))
    (λ a row, JournalAccountCodeHashChanged a row.(current).(info).(code_hash))).
  intros [[[] ? ? ? ?] ?]; cbn. by intros ->%bool_decide_eq_false%dec_stable.
Qed.
Lemma update_write value : write_account (λ a, acct_tx_update a value) (λ _, value).
Proof. intros a w. apply (acct_tx_update_write value a w). Qed.

(** account writes are visible, isolated and keep the original. Setting a
    balance, nonce or code hash, or updating the whole account, needs a listed
    row or a cached account (otherwise it raises and changes nothing); then
    the account reads back with the new value, its transaction original is
    unchanged (or the cached account, for a first write), and every other
    account's row is untouched. *)
Theorem account_writes (v : Z) (h : hash) (value : Account) :
  write_account (λ a, acct_tx_set_balance a v) (λ c, set_info (set_balance v c.(info)) c) ∧
  write_account (λ a, acct_tx_set_nonce a v) (λ c, set_info (set_nonce v c.(info)) c) ∧
  write_account (λ a, acct_tx_set_code_hash a h) (λ c, set_info (set_code_hash h c.(info)) c) ∧
  write_account (λ a, acct_tx_update a value) (λ _, value).
Proof. auto using set_balance_write, set_nonce_write, set_code_hash_write, update_write. Qed.

(** ** Warm sets *)

(** warmth is per transaction. Marking makes an account (or slot) warm
    and no other one warmer or colder; a reset to an epoch at least every
    recorded stamp makes everything cold, without touching a stamp. *)
Theorem warm_marks (a : address) (slot : Z) (w : World) :
  (∃ w', account_mark_warm a w = (Ok tt, w') ∧ fst (account_is_warm a w') = Ok true ∧
     ∀ b, _address_key b ≠ _address_key a →
       fst (account_is_warm b w') = fst (account_is_warm b w)) ∧
  (∃ w', storage_mark_warm a slot w = (Ok tt, w') ∧ fst (storage_is_warm a slot w') = Ok true ∧
     ∀ b t, _address_slot_key b t ≠ _address_slot_key a slot →
       fst (storage_is_warm b t w') = fst (storage_is_warm b t w)) ∧
  (∀ epoch w', warm_reset epoch w = (Ok tt, w') →
     (∀ k, default 0 (w.(warm_addresses) !! k) <= epoch) →
     (∀ k, default 0 (w.(warm_slots) !! k) <= epoch) →
     (∀ b, fst (account_is_warm b w') = Ok false) ∧
     ∀ b t, fst (storage_is_warm b t w') = Ok false).
Proof.
  unfold account_mark_warm, storage_mark_warm, account_is_warm, storage_is_warm, warm_reset,
    journal_append.
  split_and!; py_step.
  - case (Z.ltb_spec (default 0 (warm_addresses w !! _address_key a)) (current_warm_epoch w));
      intros Hs; py_step; eexists; (split_and!; [done| |]); cbn.
    + f_equal. rewrite lookup_insert_eq. apply Z.leb_refl.
    + intros. by rewrite lookup_insert_ne.
    + f_equal. by apply Z.leb_le.
    + done.
  - case (Z.ltb_spec (default 0 (warm_slots w !! _address_slot_key a slot)) (current_warm_epoch w));
      intros Hs; py_step; eexists; (split_and!; [done| |]); cbn.
    + f_equal. rewrite lookup_insert_eq. apply Z.leb_refl.
    + intros. by rewrite lookup_insert_ne.
    + f_equal. by apply Z.leb_le.
    + done.
  - intros epoch w'. intros [= <-] Ha Hs. split; intros; cbn; f_equal; apply Z.leb_gt;
      [pose proof (Ha (_address_key b))|pose proof (Hs (_address_slot_key b t))]; lia.
Qed.

Lemma warm_marks_witness :
  fst (account_is_warm [Byte.x01] (snd (warm_reset 3 initial_world))) = Ok false.
Proof.
  refine (proj1 (proj2 (proj2 (warm_marks [Byte.x01] 0 initial_world)) 3 _ eq_refl _ _) _);
    intros k; cbn; rewrite lookup_empty; cbn; lia.
Defined.

(** ** Logs *)

(** the kernel's log operation appends one record and its data, and both
    read back: the record has the topics in order and a data range that
    covers exactly the copied bytes; earlier logs and data are untouched. *)
Theorem k_log_appends (a : address) (ts : LogTopics) (data : LogData) (s : HostState) :
  let payload := log_payload data s in
  ∃ s', k_log a ts data s = (Ok tt, s') ∧
    logs (world s') = logs (world s) ++
      [mkLogRecord a (topic_list ts) (py_len (region_of RLog s)) (py_len payload)] ∧
    region_of RLog s' = region_of RLog s ++ payload ∧
    fst (log_topics_count (py_len (logs (world s))) (world s')) = Ok (py_len (topic_list ts)) ∧
    _slice_bytes (region_of RLog s') (mkSlice (py_len (region_of RLog s)) (py_len payload)) = payload ∧
    fst (logs_tx_count (world s')) = (n ← fst (logs_tx_count (world s)); mret (n + 1)).
Proof.
  cbn zeta. rewrite k_log_emit, zoom_run. change (view s) with (world s).
  rewrite emit_log_run. eexists. split; [reflexivity|]. split_and!; try done.
  - unfold log_topics_count, log_at, building. py_step. cbn. by rewrite py_index_middle.
  - unfold _slice_bytes. cbn. rewrite py_slice_nonneg by apply py_len_nonneg.
    unfold py_len. rewrite !Nat2Z.id, drop_app_length. by rewrite take_ge.
  - unfold logs_tx_count, building. py_step. cbn. rewrite py_len_app. unfold py_len. cbn.
    do 2 f_equal. lia.
Qed.

(** ** Authorizations *)

(** The records a list of commits leaves. *)
Fixpoint commit_all (cs : list (address * bool * bool)) : M AuthTable unit :=
  match cs with
  | [] => mret tt
  | (a, od, ds) :: cs => authorization_tracker_commit a od ds;; commit_all cs
  end.

Definition commits_of (a : address) (cs : list (address * bool * bool)) :=
  filter (λ c : address * bool * bool, _address_key c.1.1 = _address_key a) cs.

(** the authorization tracker remembers, for each authority, whether it
    was committed, the original delegation flag of its first commit, and
    whether any commit set a delegation. *)
Theorem authorization_tracker_spec (a : address) (cs : list (address * bool * bool)) :
  let t := snd (commit_all cs ∅) in
  fst (authorization_tracker_seen a t) = Ok (bool_decide (commits_of a cs ≠ [])) ∧
  fst (authorization_tracker_originally_delegated a t) =
    Ok (match head (commits_of a cs) with Some c => c.1.2 | None => false end) ∧
  fst (authorization_tracker_delegation_set a t) =
    Ok (existsb snd (commits_of a cs)).
Proof.
  cbn zeta.
  assert (H : ∀ cs t, snd (commit_all cs t) !! _address_key a =
    match t !! _address_key a, commits_of a cs with
    | Some r, [] => Some r
    | Some r, l => Some (mkAuthorizationRecord true r.(originally_delegated)
                           (r.(delegation_set) || existsb snd l))
    | None, [] => None
    | None, c :: l => Some (mkAuthorizationRecord true c.1.2 (existsb snd (c :: l)))
    end).
  { clear. induction cs as [|[[b od] ds] cs IH]; intros t; cbn [commit_all].
    - cbn. by destruct (t !! _).
    - unfold authorization_tracker_commit. py_step. rewrite IH. unfold commits_of.
      rewrite filter_cons. cbn. case_decide as D.
      + rewrite D. destruct (t !! _address_key a) as [r|]; rewrite lookup_insert_eq;
          destruct (filter _ cs); cbn; rewrite ?orb_false_r, ?orb_assoc; done.
      + destruct (t !! _address_key b); by rewrite lookup_insert_ne. }
  specialize (H cs ∅). rewrite lookup_empty in H.
  unfold authorization_tracker_seen, authorization_tracker_originally_delegated,
    authorization_tracker_delegation_set, auth_flag. py_step.
  setoid_rewrite H. by destruct (commits_of a cs).
Qed.
