(* ===== verification/BlockIteration.v ===== *)
(** * BlockIteration: walking the block caches in trie order

    The commit phase rebuilds the storage and account tries from the block
    caches. It walks them through [storage_block_iter_begin/next] and
    [acct_block_iter_begin/next], which must yield every cached row once, in
    the order of its hashed key, and must refuse a storage row whose account
    was never cached. *)

From Stdlib Require Import ZArith Lia Sorting.Sorted.
From stdpp Require Import base tactics option list gmap.
From S2P Require Import Prelude PyBytes OrderedDict HostTypes Regions Crypto Storage Accounts.
Local Open Scope Z_scope.

(** ** Sorting by a hash that is present *)

(** The sort key of a row; the empty string stands for a missing hash. *)
Definition hash_order_key (h : option hash) : bytes := from_option _hash_key [] h.

(** Ascending order of the hashed key. *)
Definition hash_le {R} (hash_of : R → option hash) (x y : R) : Prop :=
  bytes_leb (hash_order_key (hash_of x)) (hash_order_key (hash_of y)) = true.

Section sorted_by_hash.
Context {R : Type} (hash_of : R → option hash).

Lemma keyed_rows (rows : list R) :
  Forall (λ r, is_Some (hash_of r)) rows →
  mapM (λ row, k ← hash_key_required (hash_of row); mret (k, row)) rows =
  Ok ((λ r, (hash_order_key (hash_of r), r)) <$> rows).
Proof.
  induction 1 as [|r rows [h Hh] _ IH]; [done|].
  rewrite fmap_cons. cbn [mapM]. rewrite IH. unfold hash_key_required. rewrite Hh. done.
Qed.

Lemma sorted_by_hash_ok (rows : list R) :
  Forall (λ r, is_Some (hash_of r)) rows →
  ∃ rows', sorted_by_hash hash_of rows = Ok rows' ∧ rows' ≡ₚ rows ∧
           StronglySorted (hash_le hash_of) rows'.
Proof.
  intros Hh. unfold sorted_by_hash. rewrite keyed_rows by done.
  eexists. split; [reflexivity|]. split.
  - rewrite py_sorted_perm, <-list_fmap_compose. by rewrite list_fmap_id.
  - assert (Forall (λ p : bytes * R, p.1 = hash_order_key (hash_of p.2))
      (py_sorted bytes_leb fst ((λ r, (hash_order_key (hash_of r), r)) <$> rows))) as Hk.
    { rewrite py_sorted_perm. apply Forall_fmap, Forall_true. done. }
    pose proof (py_sorted_sorted bytes_leb fst
      ((λ r, (hash_order_key (hash_of r), r)) <$> rows)) as Hs.
    induction Hs as [|p l Hl IH Hp]; [constructor|].
    apply Forall_cons in Hk as [Hk1 Hk]. rewrite fmap_cons. constructor; [by apply IH|].
    apply Forall_fmap. eapply Forall_impl; [apply Forall_and; split; [exact Hk|exact Hp]|].
    intros q [Hq Hle]. unfold key_le in Hle. unfold hash_le. cbn. by rewrite <-Hk1, <-Hq.
Qed.

(** A row without a hash makes the sort raise. *)
Lemma sorted_by_hash_missing (rows : list R) r :
  r ∈ rows → hash_of r = None →
  sorted_by_hash hash_of rows = Raise (TypeError "'NoneType' object is not reversible").
Proof.
  intros Hr Hn. unfold sorted_by_hash. cut (mapM (λ row,
    k ← hash_key_required (hash_of row); mret (k, row)) rows =
    Raise (TypeError "'NoneType' object is not reversible")); [by intros ->|].
  induction Hr as [r rows|r r' rows Hr IH]; cbn [mapM].
  - by rewrite Hn.
  - rewrite IH by done. unfold hash_key_required at 1. by destruct (hash_of r').
Qed.
End sorted_by_hash.

(** ** Storage rows of one account *)

Definition storage_trie_entry (row : StorageBlockCacheRow) : StorageTrieEntry :=
  mkStorageTrieEntry (mkStorageEntry row.(sb_key) row.(sb_value))
    row.(sb_address_hash) row.(sb_slot_hash).

(** The cached rows of one account. *)
Definition storage_rows (address : address) (w : World) : list StorageBlockCacheRow :=
  snd <$> filter (λ kv : (bytes * Z) * StorageBlockCacheRow, kv.1.1 = _address_key address)
    w.(storage_block).

(** Rows are filed under their own key and carry the hash of their slot. *)
Definition storage_block_ok (w : World) : Prop :=
  Forall (λ kv : (bytes * Z) * StorageBlockCacheRow,
    kv.1 = _storage_key kv.2.(sb_key) ∧ is_Some kv.2.(sb_slot_hash)) w.(storage_block).

(** Calls [storage_block_iter_next] until it reports exhaustion. *)
Fixpoint storage_walk (fuel : nat) (address : address) : M World (list StorageTrieEntry) :=
  match fuel with
  | O => mret []
  | S fuel =>
      r ← storage_block_iter_next address;
      match r with
      | StorageBlockIterRow e => es ← storage_walk fuel address; mret (e :: es)
      | StorageBlockIterExhausted => mret []
      end
  end.

Lemma od_set_Forall {K V} `{EqDecision K} (P : K * V → Prop) k v (d : odict K V) :
  Forall P d → P (k, v) → Forall P (od_set k v d).
Proof.
  induction 1 as [|[k' v'] d Hp Hd IH]; cbn; intros Hkv; [by constructor|].
  case_decide; subst; constructor; auto.
Qed.

Lemma storage_block_put_ok `{Keccak} e w :
  storage_block_ok w → storage_block_ok (storage_block_put e w).2.
Proof.
  intros Hw. unfold storage_block_put. py_step.
  destruct (od_get _ _) as [prior|] eqn:Hp; unfold _storage_row_hashes; py_step;
    apply od_set_Forall; try exact Hw; cbn; split; eauto.
  apply od_get_In in Hp. unfold storage_block_ok in Hw. rewrite Forall_forall in Hw.
  by destruct (Hw _ Hp).
Qed.

Lemma storage_block_cache_ok `{Keccak} k h v w :
  is_Some h → storage_block_ok w → storage_block_ok (storage_block_cache k h v w).2.
Proof.
  intros Hh Hw. unfold storage_block_cache. py_step.
  destruct (od_get _ _) as [prior|] eqn:Hp; [exact Hw|]. unfold _storage_row_hashes; py_step.
  apply od_set_Forall; [exact Hw|]. by cbn.
Qed.

Lemma storage_block_clear_ok a w :
  storage_block_ok w → storage_block_ok (storage_block_clear a w).2.
Proof. intros Hw. unfold storage_block_clear. py_step.
  unfold storage_block_ok in *. cbn. apply Forall_forall. intros kv [_ Hin]%list_elem_of_filter.
  rewrite Forall_forall in Hw. by apply Hw.
Qed.

Lemma storage_rows_ok address w :
  storage_block_ok w →
  Forall (λ r, _address_key r.(sb_key).(sk_addr) = _address_key address ∧
               is_Some r.(sb_slot_hash)) (storage_rows address w).
Proof.
  intros Hw. apply Forall_forall. intros r. unfold storage_rows.
  intros ([k r'] & -> & [Hk Hin]%list_elem_of_filter)%list_elem_of_fmap.
  unfold storage_block_ok in Hw. rewrite Forall_forall in Hw.
  destruct (Hw _ Hin) as [Hkey Hs]. cbn in *. split; [|done]. rewrite <-Hk, Hkey. done.
Qed.

Lemma storage_walk_run address rows fuel w :
  Forall (λ r, _address_key r.(sb_key).(sk_addr) = _address_key address) rows →
  w.(storage_iterator) = rows → (length rows < fuel)%nat →
  storage_walk fuel address w = (Ok (storage_trie_entry <$> rows), set_storage_iterator [] w).
Proof.
  intros Hr. revert fuel w. induction Hr as [|r rows Hk Hr IH]; intros fuel w Hi Hf;
    (destruct fuel as [|fuel]; [simpl in Hf; lia|]); cbn [storage_walk];
    unfold storage_block_iter_next; py_step; rewrite Hi; cbn [storage_block_iter_loop].
  - by py_step.
  - rewrite decide_True by done. py_step. rewrite (IH fuel (set_storage_iterator rows w)).
    + rewrite fmap_cons. by py_step.
    + done.
    + cbn in Hf. lia.
Qed.

(** C34: beginning a storage iteration and drawing from it until exhaustion
    terminates and yields every cached row of that account exactly once, none
    of another account, in ascending order of the hashed slot (the order the
    trie builder needs), leaving the caches untouched and the iterator
    empty. *)
Theorem storage_iteration_sorted (address : address) (w : World) :
  storage_block_ok w →
  ∃ entries,
    (storage_block_iter_begin address;;
     storage_walk (S (length w.(storage_block))) address) w =
      (Ok entries, set_storage_iterator [] w) ∧
    entries ≡ₚ storage_trie_entry <$> storage_rows address w ∧
    StronglySorted (hash_le ste_slot_hash) entries.
Proof.
  intros Hw. pose proof (storage_rows_ok address w Hw) as Hr.
  destruct (sorted_by_hash_ok sb_slot_hash (storage_rows address w)) as (rows & Hs & Hp & Ho).
  { eapply Forall_impl; [exact Hr|]. by intros ? [_ ?]. }
  exists (storage_trie_entry <$> rows). split_and!.
  - unfold storage_block_iter_begin. py_step. unfold storage_rows in Hs. rewrite Hs. py_step.
    rewrite (storage_walk_run address rows _ (set_storage_iterator rows w)); [done| |done|].
    + rewrite Hp. eapply Forall_impl; [exact Hr|]. by intros ? [? _].
    + rewrite Hp. unfold storage_rows. rewrite length_fmap.
      apply Nat.lt_succ_r, length_filter.
  - by rewrite Hp.
  - eapply ss_map; [|exact Ho]. done.
Qed.

Definition walk_address (b : Z) : address := be_bytes 20 b.
Definition walk_hash (b : Z) : hash := be_bytes 32 b.

(** Two accounts and three slots, inserted out of hash order. *)
Definition walk_world : World :=
  let row a s h := (_storage_key (mkStorageKey (walk_address a) s),
    mkStorageBlockCacheRow (mkStorageKey (walk_address a) s) (mkStorageValue 7 7)
      (Some (walk_hash a)) (Some (walk_hash h))) in
  let acct a h := (_address_key (walk_address a),
    mkAccountBlockRow (walk_address a) (mkAcctValue EMPTY_ACCOUNT EMPTY_ACCOUNT)
      (Some (walk_hash h))) in
  set_account_block [acct 1 9; acct 2 3]
    (set_storage_block [row 1 10 5; row 2 10 8; row 1 11 4] initial_world).

Lemma storage_iteration_sorted_witness :
  storage_block_ok walk_world ∧
  ∃ entries,
    (storage_block_iter_begin (walk_address 1);; storage_walk 4 (walk_address 1)) walk_world =
      (Ok entries, set_storage_iterator [] walk_world) ∧
    entries ≡ₚ storage_trie_entry <$> storage_rows (walk_address 1) walk_world ∧
    StronglySorted (hash_le ste_slot_hash) entries.
Proof.
  assert (storage_block_ok walk_world) as Hok.
  { repeat constructor; eauto. }
  split; [exact Hok|]. exact (storage_iteration_sorted (walk_address 1) walk_world Hok).
Defined.

Example walk_slots :
  match (storage_block_iter_begin (walk_address 1);;
         storage_walk 4 (walk_address 1)) walk_world with
  | (Ok es, _) => map (λ e, e.(ste_entry).(se_key).(sk_slot)) es = [11; 10]
  | (Raise _, _) => False
  end.
Proof. vm_compute. reflexivity. Qed.

(** ** Accounts *)

Definition account_trie_entry (row : AccountBlockRow) : AcctTrieEntry :=
  mkAcctTrieEntry (mkAcctEntry row.(ab_address) row.(ab_value)) row.(ab_address_hash).

(** Calls [acct_block_iter_next] until it reports exhaustion. *)
Fixpoint account_walk (fuel : nat) : M World (list AcctTrieEntry) :=
  match fuel with
  | O => mret []
  | S fuel =>
      r ← acct_block_iter_next;
      match r with
      | AcctBlockIterRow e => es ← account_walk fuel; mret (e :: es)
      | AcctBlockIterExhausted => mret []
      end
  end.

(** A storage row whose account has no cached row. *)
Definition orphan_storage (w : World) : Prop :=
  ∃ kv, kv ∈ w.(storage_block) ∧ od_get kv.1.1 w.(account_block) = None.

Lemma account_walk_run rows fuel w :
  w.(account_iterator) = rows → (length rows < fuel)%nat →
  account_walk fuel w = (Ok (account_trie_entry <$> rows), set_account_iterator [] w).
Proof.
  revert fuel w. induction rows as [|r rows IH]; intros fuel w Hi Hf;
    (destruct fuel as [|fuel]; [simpl in Hf; lia|]); cbn [account_walk];
    unfold acct_block_iter_next; py_step; rewrite Hi; py_step.
  - f_equal. destruct w; cbn in *. by subst.
  - rewrite (IH fuel (set_account_iterator rows w)); [|done|cbn in Hf; lia].
    rewrite fmap_cons. by py_step.
Qed.

Lemma orphan_test w :
  existsb (λ k : bytes * Z, bool_decide (od_get k.1 w.(account_block) = None))
    (od_keys w.(storage_block)) = true ↔ orphan_storage w.
Proof.
  rewrite existsb_exists. unfold orphan_storage, od_keys. split.
  - intros (k & Hk & Hn%bool_decide_eq_true). apply list_elem_of_In in Hk.
    apply list_elem_of_fmap in Hk as (kv & -> & Hkv). eauto.
  - intros (kv & Hkv & Hn). exists kv.1. split; [|by apply bool_decide_eq_true].
    apply list_elem_of_In. by apply list_elem_of_fmap_2.
Qed.

(** C35: the account iteration refuses to start, without touching the state,
    when a storage row has no cached account; otherwise, when the cached
    accounts carry their address hashes, it yields every cached account
    exactly once in ascending order of the hashed address and then reports
    exhaustion, leaving the caches untouched. *)
Theorem account_iteration_sorted (w : World) :
  Forall (λ kv, is_Some kv.2.(ab_address_hash)) w.(account_block) →
  let run := (acct_block_iter_begin;; account_walk (S (length w.(account_block)))) w in
  (orphan_storage w →
     run = (Raise (RuntimeError "storage update candidate lacks a cached account"), w)) ∧
  (¬ orphan_storage w →
     ∃ entries,
       run = (Ok entries, set_account_iterator [] w) ∧
       entries ≡ₚ account_trie_entry <$> w.(account_block).*2 ∧
       StronglySorted (hash_le ate_address_hash) entries).
Proof.
  intros Hh. cbn zeta. unfold acct_block_iter_begin. py_step. split.
  - intros Ho. apply orphan_test in Ho. rewrite Ho. by py_step.
  - intros Hn. destruct (existsb _ _) eqn:E; [by apply orphan_test in E|]. py_step.
    destruct (sorted_by_hash_ok ab_address_hash w.(account_block).*2) as (rows & Hs & Hp & Ho).
    { by apply Forall_fmap. }
    rewrite Hs. py_step. exists (account_trie_entry <$> rows). split_and!.
    + rewrite (account_walk_run rows _ (set_account_iterator rows w)); [done|done|].
      rewrite Hp, length_fmap. apply Nat.lt_succ_diag_r.
    + by rewrite Hp.
    + eapply ss_map; [|exact Ho]. done.
Qed.

Lemma account_iteration_sorted_witness :
  Forall (λ kv, is_Some kv.2.(ab_address_hash)) walk_world.(account_block) ∧
  ¬ orphan_storage walk_world ∧
  ∃ entries,
    (acct_block_iter_begin;; account_walk 3) walk_world =
      (Ok entries, set_account_iterator [] walk_world) ∧
    entries ≡ₚ account_trie_entry <$> walk_world.(account_block).*2 ∧
    StronglySorted (hash_le ate_address_hash) entries.
Proof.
  assert (Forall (λ kv, is_Some kv.2.(ab_address_hash)) walk_world.(account_block)) as Hh.
  { repeat constructor; eauto. }
  assert (¬ orphan_storage walk_world) as Hn.
  { rewrite <-orphan_test. vm_compute. discriminate. }
  split_and!; [exact Hh|exact Hn|].
  destruct (account_iteration_sorted walk_world Hh) as [_ Hok]. exact (Hok Hn).
Defined.
