(* ===== verification/CodeDb.v ===== *)
(** * CodeDb: contract code, jump-destination tables, trie nodes and ancestor hashes

    The content-addressed tables of [HostContract.py]. Code is stored under
    the Keccak-256 digest of its bytes in the append-only code region; trie
    nodes are slices of the stateless input; a jump table belongs to one code
    length and is addressed by a number handed out once. *)

From Stdlib Require Import ZArith Lia.
From stdpp Require Import base tactics option list gmap.
From S2P Require Import Prelude PyBytes OrderedDict HostTypes Regions RegionFacts Crypto.

#[local] Open Scope Z_scope.

(** ** Jump destinations *)

Definition jumpdest_table_alloc (code : Code) : M CodeState Z :=
  index ← gets next_jumpdest_table;
  modify (λ c, set_next_jumpdest_table (c.(next_jumpdest_table) + 1) c);;
  modify (λ c, set_jumpdest_tables
    (<[index := mkJumpdestTable code.(code_len) ∅]> c.(jumpdest_tables)) c);;
  mret index.

Definition jumpdest_table_mark (table code_length position : Z) : M CodeState bool :=
  entry ← gets (λ c, c.(jumpdest_tables) !! table);
  match entry with
  | None => mret false
  | Some entry =>
      if negb (entry.(jt_code_length) =? code_length) then mret false
      else if (position <? 0) || (entry.(jt_code_length) <=? position) then mret false
      else
        modify (λ c, set_jumpdest_tables
          (<[table := mkJumpdestTable entry.(jt_code_length) ({[position]} ∪ entry.(jt_positions))]>
            c.(jumpdest_tables)) c);;
        mret true
  end.

Definition jumpdest_ref_contains (table code_length destination : Z) : M CodeState bool :=
  entry ← gets (λ c, c.(jumpdest_tables) !! table);
  mret match entry with
       | None => false
       | Some entry =>
           if negb (entry.(jt_code_length) =? code_length) then false
           else if (destination <? 0) || (entry.(jt_code_length) <=? destination) then false
           else bool_decide (destination ∈ entry.(jt_positions))
       end.

(** ** Code *)

Section code.
Context `{Keccak}.

Definition code_db_store (code : Code) : M HostState hash :=
  slice ← of_outcome (code_bytes_slice code);
  payload ← _region_bytes RCode slice;
  let digest := _keccak payload in
  zoom (modify (λ c, set_code_db (<[digest := code]> c.(code_db)) c));;
  mret (_bytes32_from_wire digest).
End code.

Definition _code_db_get (value : hash) : M HostState (option Code) :=
  gets (λ s, s.(codes).(code_db) !! _hash_key value).

Definition code_db_lookup (value : hash) : M HostState Code :=
  code ← _code_db_get value;
  mret (default EMPTY_CODE code).

(** [payload.startswith(prefix)] *)
Definition starts_with (payload prefix : bytes) : bool :=
  bool_decide (take (length prefix) payload = prefix).

Definition code_db_read_delegation (value : hash) : M HostState AddressResult :=
  found ← _code_db_get value;
  match found with
  | None => mret (mkAddressResult false (_bytes20_from_wire (zeros 20)))
  | Some code =>
      slice ← of_outcome (code_bytes_slice code);
      payload ← _region_bytes RCode slice;
      let valid := (py_len payload =? 23) && starts_with payload DELEGATION_PREFIX in
      let address := if valid then py_slice_from payload 3 else zeros 20 in
      mret (mkAddressResult valid (_bytes20_from_wire address))
  end.

(** ** Trie nodes and ancestors *)

Definition nodedb_reset : M CodeState unit := modify (set_node_db ∅).

Definition nodedb_insert (value : hash) (offset length : Z) : M CodeState unit :=
  slice ← of_outcome (stateless_input_slice offset length);
  modify (λ c, set_node_db (<[_hash_key value := slice]> c.(node_db)) c).

Definition nodedb_lookup (value : hash) : M CodeState Slice :=
  gets (λ c, default EMPTY_STATELESS_INPUT_SLICE (c.(node_db) !! _hash_key value)).

Definition ancestor_hash_write (index : Z) (value : hash) : M CodeState unit :=
  modify (λ c, set_ancestor_hashes (<[index := value]> c.(ancestor_hashes)) c).

Definition ancestor_hash_read (index : Z) : M CodeState hash :=
  gets (λ c, default _zero_hash (c.(ancestor_hashes) !! index)).

(** ** Properties *)

(** Table numbers in use were handed out. *)
Definition tables_ok (c : CodeState) : Prop :=
  ∀ t e, c.(jumpdest_tables) !! t = Some e → t < c.(next_jumpdest_table).

(** jump tables answer exactly what was marked. A fresh table is empty,
    distinct from every earlier one and leaves them alone; marking succeeds
    exactly for positions inside the code and tables of that length, and then
    the table contains the position and what it contained before, nothing
    else; the bounds check makes every position outside the code a miss. *)
Theorem jumpdest_tables_spec (code : Code) (table n position : Z) (c : CodeState) :
  tables_ok c →
  (let '(r, c') := jumpdest_table_alloc code c in
   r = Ok c.(next_jumpdest_table) ∧ tables_ok c' ∧
   c.(jumpdest_tables) !! c.(next_jumpdest_table) = None ∧
   (∀ d, fst (jumpdest_ref_contains c.(next_jumpdest_table) code.(code_len) d c') = Ok false) ∧
   (∀ t m d, t ≠ c.(next_jumpdest_table) →
      fst (jumpdest_ref_contains t m d c') = fst (jumpdest_ref_contains t m d c))) ∧
  (let '(r, c') := jumpdest_table_mark table n position c in
   (r = Ok true ↔ (jt_code_length <$> c.(jumpdest_tables) !! table) = Some n ∧ 0 <= position < n) ∧
   (r ≠ Ok true → c' = c) ∧
   (r = Ok true → ∀ t m d, fst (jumpdest_ref_contains t m d c') =
      if decide (t = table ∧ m = n ∧ d = position) then Ok true
      else fst (jumpdest_ref_contains t m d c))).
Proof.
  intros Hok. split.
  - unfold jumpdest_table_alloc. py_step.
    assert (Hfresh : jumpdest_tables c !! next_jumpdest_table c = None).
    { destruct (_ !! _) eqn:E; [|done]. pose proof (Hok _ _ E). lia. }
    split_and!; [done| |done| |].
    + intros t e. cbn. rewrite lookup_insert. case_decide; [lia|]. intros E.
      pose proof (Hok _ _ E). lia.
    + intros d. unfold jumpdest_ref_contains. py_step. cbn. rewrite lookup_insert_eq. cbn.
      rewrite Z.eqb_refl. cbn. case_match; [done|]. by rewrite bool_decide_false by set_solver.
    + intros t m d Ht. unfold jumpdest_ref_contains. py_step. cbn. by rewrite lookup_insert_ne.
  - unfold jumpdest_table_mark. py_step.
    destruct (jumpdest_tables c !! table) as [[len ps]|] eqn:E; cbn.
    2:{ split_and!; [split; [done|intros [? _]; done]|done|done]. }
    destruct (Z.eqb_spec len n) as [->|Hn]; cbn.
    2:{ split_and!; [split; [done|intros [[= ->] _]; done]|done|done]. }
    destruct (Z.ltb_spec position 0) as [Hp|Hp]; cbn.
    { split_and!; [split; [done|lia]|done|done]. }
    destruct (Z.leb_spec n position) as [Hq|Hq]; cbn.
    { split_and!; [split; [done|lia]|done|done]. }
    split_and!; [split; [intros _; split; [done|lia]|done]|done|].
    intros _ t m d. unfold jumpdest_ref_contains. py_step. cbn.
    destruct (decide (t = table)) as [->|Ht].
    + rewrite lookup_insert_eq, E. cbn. case_decide as D.
      * destruct D as (_ & -> & ->). rewrite Z.eqb_refl. cbn.
        rewrite (proj2 (Z.ltb_ge _ _)), (proj2 (Z.leb_gt _ _)) by lia. cbn.
        by rewrite bool_decide_true by set_solver.
      * destruct (Z.eqb_spec n m) as [->|]; cbn; [|done].
        destruct ((d <? 0) || (_ <=? d)); [done|]. f_equal. apply bool_decide_ext. set_solver.
    + rewrite lookup_insert_ne by done. rewrite decide_False by tauto. done.
Qed.

Lemma jumpdest_tables_spec_witness :
  fst (jumpdest_ref_contains 1 10 3 (snd (jumpdest_table_alloc (mkCode 0 10 0)
    (codes initial_state)))) = Ok false.
Proof.
  assert (H : tables_ok (codes initial_state)).
  { intros t e. cbn. rewrite lookup_empty. discriminate. }
  pose proof (jumpdest_tables_spec (mkCode 0 10 0) 0 0 0 (codes initial_state) H) as [Halloc _].
  exact (proj1 (proj2 (proj2 (proj2 Halloc))) 3).
Defined.

(** A code value whose range its slice constructor accepts. *)
Definition code_in_range (code : Code) : Prop :=
  0 <= code.(code_off) ∧ 0 <= code.(code_len) ∧ code.(code_off) + code.(code_len) <= 2 ^ 32 - 1.

Definition code_payload (code : Code) (s : HostState) : bytes :=
  _slice_bytes (region_of RCode s) (mkSlice code.(code_off) code.(code_len)).

Lemma code_bytes_slice_ok code :
  code_in_range code → code_bytes_slice code = Ok (mkSlice code.(code_off) code.(code_len)).
Proof. intros (? & ? & ?). by apply code_region_slice_ok. Qed.

Lemma hash_key_inj (h h' : hash) : _hash_key h = _hash_key h' → h = h'.
Proof. unfold _hash_key, _fixed_wire_bytes. apply rev_inj. Qed.

Lemma hash_key_wire (d : bytes) : _hash_key (_bytes32_from_wire d) = d.
Proof. apply rev_involutive. Qed.

Lemma code_db_store_run `{Keccak} code s :
  code_in_range code →
  code_db_store code s =
  (Ok (_bytes32_from_wire (_keccak (code_payload code s))),
   put (set_code_db (<[_keccak (code_payload code s) := code]> s.(codes).(code_db)) s.(codes)) s).
Proof.
  intros Hc. unfold code_db_store, _region_bytes. py_step. rewrite code_bytes_slice_ok by done.
  py_step. by rewrite zoom_run.
Qed.

(** code is content-addressed: storing a code value returns the digest of
    its bytes, looking that digest up returns the value, lookups of other
    digests are unchanged, and a digest never stored looks up the empty code. *)
Theorem code_db_roundtrip `{Keccak} (code : Code) (s : HostState) :
  code_in_range code →
  let h := _bytes32_from_wire (_keccak (code_payload code s)) in
  ∃ s', code_db_store code s = (Ok h, s') ∧
    code_db_lookup h s' = (Ok code, s') ∧
    (∀ h', h' ≠ h → fst (code_db_lookup h' s') = fst (code_db_lookup h' s)) ∧
    (∀ h', s.(codes).(code_db) !! _hash_key h' = None →
       code_db_lookup h' s = (Ok EMPTY_CODE, s)).
Proof.
  intros Hc h. eexists. split; [by apply code_db_store_run|].
  unfold code_db_lookup, _code_db_get. py_step. split_and!.
  - do 2 f_equal. cbn. unfold h. rewrite hash_key_wire. by rewrite lookup_insert_eq.
  - intros h' Hh. py_step. cbn. rewrite lookup_insert_ne; [done|].
    intros E. apply Hh. unfold h. rewrite E. unfold _bytes32_from_wire, _hash_key,
      _fixed_wire_bytes. by rewrite rev_involutive.
  - intros h' Hn. py_step. by rewrite Hn.
Qed.

Lemma code_db_roundtrip_witness :
  let s := put (set_code_bytes [Byte.x60; Byte.x01] (regions initial_state)) initial_state in
  ∃ h s', @code_db_store toy_Keccak (mkCode 0 2 0) s = (Ok h, s') ∧
    code_db_lookup h s' = (Ok (mkCode 0 2 0), s').
Proof.
  cbv zeta.
  destruct (@code_db_roundtrip toy_Keccak (mkCode 0 2 0)
    (put (set_code_bytes [Byte.x60; Byte.x01] (regions initial_state)) initial_state))
    as (s' & H1 & H2 & _).
  { split_and!; cbn; lia. }
  eexists _, s'. split; [exact H1|exact H2].
Defined.

Lemma starts_with_app p x : starts_with (p ++ x) p = true.
Proof. unfold starts_with. rewrite take_app_length. by apply bool_decide_true. Qed.

(** delegation designators are recognised exactly. Under a stored digest,
    the read succeeds if and only if the code is the three-byte prefix
    followed by twenty bytes, and then returns those bytes as the address;
    anything else, and an unknown digest, is reported as no delegation. *)
Theorem read_delegation_exact (h : hash) (s : HostState) :
  (∀ code, s.(codes).(code_db) !! _hash_key h = Some code → code_in_range code) →
  ∃ r, code_db_read_delegation h s = (Ok r, s) ∧
    (r.(adr_success) = true ↔ ∃ code a,
       s.(codes).(code_db) !! _hash_key h = Some code ∧ length a = 20%nat ∧
       code_payload code s = DELEGATION_PREFIX ++ _fixed_wire_bytes a ∧ r.(adr_address) = a) ∧
    (r.(adr_success) = false → r.(adr_address) = zeros 20).
Proof.
  intros Hok. unfold code_db_read_delegation, _code_db_get. py_step.
  destruct (code_db (codes s) !! _hash_key h) as [code|] eqn:E.
  2:{ py_step. eexists. split; [done|]. cbn. split; [|done].
      split; [done|]. by intros (? & ? & [=] & _). }
  py_step. rewrite code_bytes_slice_ok by (by apply Hok). py_step. unfold _region_bytes. py_step.
  change (_slice_bytes (region_of RCode s) _) with (code_payload code s).
  set (p := code_payload code s). eexists. split; [reflexivity|]. cbn [adr_success adr_address].
  destruct (Z.eqb_spec (py_len p) 23) as [Hl|Hl]; cbn [andb].
  2:{ split; [|done]. split; [done|]. intros (code' & a & [= <-] & Ha & Hp & _).
      exfalso. apply Hl. fold p in Hp. rewrite Hp. unfold py_len. rewrite length_app.
      unfold _fixed_wire_bytes. rewrite length_rev, Ha. done. }
  destruct (starts_with p DELEGATION_PREFIX) eqn:Hs.
  - split; [|done]. split; [intros _|done].
    apply bool_decide_eq_true in Hs. change (length DELEGATION_PREFIX) with 3%nat in Hs.
    assert (Hd : py_slice_from p 3 = drop 3 p).
    { unfold py_slice_from. by rewrite slice_bound_in by lia. }
    rewrite Hd. exists code, (_bytes20_from_wire (drop 3 p)). split_and!; [done| |..].
    + unfold _bytes20_from_wire. rewrite length_rev, length_drop. unfold py_len in Hl. lia.
    + unfold _fixed_wire_bytes, _bytes20_from_wire. rewrite rev_involutive, <-Hs.
      symmetry. apply take_drop.
    + done.
  - split; [|done]. split; [done|]. intros (code' & a & [= <-] & Ha & Hp & _).
    fold p in Hp. rewrite Hp, starts_with_app in Hs. done.
Qed.

Lemma read_delegation_exact_witness :
  ∃ r, code_db_read_delegation _zero_hash initial_state = (Ok r, initial_state) ∧
    r.(adr_success) = false.
Proof.
  destruct (read_delegation_exact _zero_hash initial_state) as (r & H & Hs & _).
  { intros code. cbn. rewrite lookup_empty. discriminate. }
  exists r. split; [exact H|]. vm_compute in H. by injection H as <-.
Defined.

(** a designator written for an address reads back as that address: the
    bytes appended for the delegation, stored as code, are recognised and
    give the address again. *)
Theorem delegation_roundtrip `{Keccak} (a : address) (j : Z) (s : HostState) :
  length a = 20%nat → py_len (region_of RCode s) + 23 <= 2 ^ 32 - 1 →
  ∃ s', (v ← code_region_from_delegation a;
         h ← code_db_store (mkCode v.(sl_bytes) v.(sl_len) j);
         code_db_read_delegation h) s = (Ok (mkAddressResult true a), s').
Proof.
  intros Ha Hfit. pose proof (py_len_nonneg (region_of RCode s)).
  set (p := DELEGATION_PREFIX ++ _fixed_wire_bytes a).
  assert (Hp : py_len p = 23).
  { unfold p, py_len, _fixed_wire_bytes. by rewrite length_app, length_rev, Ha. }
  assert (Hsw : starts_with p DELEGATION_PREFIX = true) by apply starts_with_app.
  assert (Hdrop : py_slice_from p 3 = _fixed_wire_bytes a).
  { unfold py_slice_from. by rewrite slice_bound_in by lia. }
  rewrite bind_run. unfold code_region_from_delegation. rewrite append_code_run. fold p.
  clearbody p. set (s1 := put _ s). set (o := py_len (region_of RCode s)) in *.
  rewrite code_region_slice_ok by lia. cbn [sl_bytes sl_len]. rewrite bind_run.
  assert (Hpay : code_payload (mkCode o (py_len p) j) s1 = p).
  { unfold o, code_payload, _slice_bytes, s1. cbn. rewrite py_slice_nonneg by apply py_len_nonneg.
    unfold py_len. rewrite !Nat2Z.id, drop_app_length. by rewrite take_ge. }
  assert (Hrange : code_in_range (mkCode o (py_len p) j)) by (split_and!; cbn; lia).
  rewrite code_db_store_run, Hpay by done.
  eexists. unfold code_db_read_delegation, _code_db_get. py_step.
  rewrite hash_key_wire. cbn. rewrite lookup_insert_eq. py_step.
  rewrite code_bytes_slice_ok by done. py_step. unfold _region_bytes. py_step.
  change (_slice_bytes _ _) with (code_payload (mkCode o (py_len p) j) s1).
  rewrite Hpay, Hp, Z.eqb_refl, Hsw, Hdrop. cbn [andb]. do 3 f_equal.
  unfold _bytes20_from_wire, _fixed_wire_bytes. by rewrite rev_involutive.
Qed.

Lemma delegation_roundtrip_witness :
  length (zeros 20) = 20%nat ∧ ∃ s', (v ← code_region_from_delegation (zeros 20);
     h ← @code_db_store toy_Keccak (mkCode v.(sl_bytes) v.(sl_len) 0);
     code_db_read_delegation h) initial_state = (Ok (mkAddressResult true (zeros 20)), s').
Proof.
  split; [reflexivity|].
  apply (@delegation_roundtrip toy_Keccak (zeros 20) 0 initial_state); [reflexivity|by vm_compute].
Defined.

(** trie-node slices and ancestor hashes read back what was recorded
    last under their key; a missing node is the empty slice, a missing
    ancestor the zero hash, and an out-of-range slice is refused before the
    table changes. *)
Theorem lookup_tables_spec (h : hash) (off len i : Z) (v : hash) (c : CodeState) :
  (region_valid_range off len = true →
    ∃ c', nodedb_insert h off len c = (Ok tt, c') ∧
      (∀ h', fst (nodedb_lookup h' c') =
         if decide (h' = h) then Ok (mkSlice off len) else fst (nodedb_lookup h' c))) ∧
  (region_valid_range off len = false →
    ∃ e, nodedb_insert h off len c = (Raise e, c)) ∧
  (∀ h', fst (nodedb_lookup h' (snd (nodedb_reset c))) = Ok EMPTY_STATELESS_INPUT_SLICE) ∧
  (∀ j, fst (ancestor_hash_read j (snd (ancestor_hash_write i v c))) =
     if decide (j = i) then Ok v else fst (ancestor_hash_read j c)).
Proof.
  unfold nodedb_insert, nodedb_lookup, nodedb_reset, ancestor_hash_read, ancestor_hash_write,
    stateless_input_slice, checked_slice. split_and!.
  - intros ->. py_step. eexists. split; [done|]. intros h'. cbn. case_decide as D.
    + subst. by rewrite lookup_insert_eq.
    + rewrite lookup_insert_ne; [done|]. intros E. apply D. symmetry. by apply hash_key_inj.
  - intros ->. py_step. by eexists.
  - intros h'. py_step. cbn. by rewrite lookup_empty.
  - intros j. py_step. cbn. case_decide; subst; [by rewrite lookup_insert_eq|].
    by rewrite lookup_insert_ne.
Qed.

Lemma lookup_tables_spec_witness :
  ∃ c', nodedb_insert _zero_hash 3 4 (codes initial_state) = (Ok tt, c') ∧
    fst (nodedb_lookup _zero_hash c') = Ok (mkSlice 3 4).
Proof.
  destruct (proj1 (lookup_tables_spec _zero_hash 3 4 0 _zero_hash (codes initial_state)) eq_refl)
    as (c' & H1 & H2).
  exists c'. split; [exact H1|]. refine (eq_trans (H2 _zero_hash) _). reflexivity.
Defined.
