(* ===== verification/Bal.v ===== *)
(** * Bal: building and iterating the block access list

    The [bal_*] functions of [HostContract.py]: changes and reads recorded
    under the account's wire key, and the event list [bal_prepare_iter] builds
    from them in canonical order. *)

From Stdlib Require Import ZArith Lia Sorting.Sorted.
From stdpp Require Import base tactics option list gmap.
From S2P Require Import Prelude PyBytes OrderedDict HostTypes Regions.

#[local] Open Scope Z_scope.

Definition bal_reset : M BalState unit :=
  modify (λ _, mkBalState ∅ ∅ ∅ ∅ ∅ ∅ ∅ []).

Definition _bal_touch (address : address) : M BalState bytes :=
  let key := _address_key address in
  modify (λ b, set_bal_accounts ({[key]} ∪ b.(bal_accounts)) b);;
  modify (λ b, set_bal_addresses (<[key := address]> b.(bal_addresses)) b);;
  mret key.

Definition bal_account_touch (address : address) : M BalState unit :=
  _bal_touch address;; mret tt.

(** [d.setdefault(k, {})[i] = v] *)
Definition record_at {K V} `{Countable K} (k : K) (i : Z) (v : V) (d : gmap K (gmap Z V)) :
    gmap K (gmap Z V) :=
  <[k := <[i := v]> (default ∅ (d !! k))]> d.

Definition bal_storage_change (index : Z) (address : address) (slot value : Z) : M BalState unit :=
  key ← _bal_touch address;
  modify (λ b, set_bal_storage_changes
    (record_at (key, slot) index value b.(bal_storage_changes)) b).

Definition bal_storage_read (address : address) (slot : Z) : M BalState unit :=
  key ← _bal_touch address;
  modify (λ b, set_bal_storage_reads ({[(key, slot)]} ∪ b.(bal_storage_reads)) b).

Definition bal_balance_change (index : Z) (address : address) (value : Z) : M BalState unit :=
  key ← _bal_touch address;
  modify (λ b, set_bal_balance_changes (record_at key index value b.(bal_balance_changes)) b).

Definition bal_nonce_change (index : Z) (address : address) (value : Z) : M BalState unit :=
  key ← _bal_touch address;
  modify (λ b, set_bal_nonce_changes (record_at key index value b.(bal_nonce_changes)) b).

Definition bal_code_change (index : Z) (address : address) (value : hash) : M BalState unit :=
  key ← _bal_touch address;
  modify (λ b, set_bal_code_changes (record_at key index value b.(bal_code_changes)) b).

(** [(i, d[i]) for i in sorted(d)] *)
Definition sorted_items {V} (d : gmap Z V) : list (Z * V) :=
  py_sorted Z.leb fst (map_to_list d).

(** The [slot_changes] of an account, with their slots. *)
Definition slot_changes (key : bytes) (b : BalState) : list (Z * gmap Z Z) :=
  (λ kv : (bytes * Z) * gmap Z Z, (kv.1.2, kv.2)) <$>
    filter (λ kv : (bytes * Z) * gmap Z Z, kv.1.1 = key) (map_to_list b.(bal_storage_changes)).

Definition storage_change_events (key : bytes) (b : BalState) : list (Z * (Z * Z)) :=
  py_sorted Z.leb fst (slot_changes key b) ≫= λ sc, pair sc.1 <$> sorted_items sc.2.

(** The read slots listed for an account: those it did not also change. *)
Definition storage_read_events (key : bytes) (b : BalState) : list Z :=
  snd <$> filter (λ k : bytes * Z, k.1 = key ∧ k.2 ∉ (slot_changes key b).*1)
    (py_sorted (pair_leb bytes_leb Z.leb) id (elements b.(bal_storage_reads))).

Definition account_events (key : bytes) (b : BalState) : outcome (list BalIterEntry) :=
  match b.(bal_addresses) !! key with
  | None => Raise KeyError
  | Some address => Ok (
      [BalAccount address]
      ++ ((λ e, BalStorageChange e.1 e.2.1 e.2.2) <$> storage_change_events key b)
      ++ (BalStorageRead <$> storage_read_events key b)
      ++ ((λ e, BalBalanceChange e.1 e.2) <$> sorted_items (default ∅ (b.(bal_balance_changes) !! key)))
      ++ ((λ e, BalNonceChange e.1 e.2) <$> sorted_items (default ∅ (b.(bal_nonce_changes) !! key)))
      ++ ((λ e, BalCodeChange e.1 e.2) <$> sorted_items (default ∅ (b.(bal_code_changes) !! key)))
      ++ [BalAccountEnd])
  end.

Definition sorted_accounts (b : BalState) : list bytes :=
  py_sorted bytes_leb id (elements b.(bal_accounts)).

Definition bal_prepare_iter : M BalState unit :=
  events ← reads (λ b, mapM (λ key, account_events key b) (sorted_accounts b));
  modify (set_bal_iterator (concat events)).

Definition bal_iter_next : M BalState BalIterEntry :=
  entries ← gets bal_iterator;
  match entries with
  | [] => mret BalEmpty
  | entry :: rest => modify (set_bal_iterator rest);; mret entry
  end.

(** ** Well-formedness *)

(** Every recorded account has its address. *)
Definition bal_ok (b : BalState) : Prop :=
  ∀ key, key ∈ b.(bal_accounts) → ∃ a, b.(bal_addresses) !! key = Some a ∧ _address_key a = key.

Lemma bal_touch_ok a b r b' : _bal_touch a b = (Ok r, b') → bal_ok b → bal_ok b' ∧ r = _address_key a.
Proof.
  unfold _bal_touch. py_step. intros [= <- <-] Hb. split; [|done]. intros key. cbn.
  rewrite elem_of_union, elem_of_singleton. destruct (decide (key = _address_key a)) as [->|Hk].
  - intros _. exists a. by rewrite lookup_insert_eq.
  - intros [?|Hin]; [done|]. rewrite lookup_insert_ne by done. by apply Hb.
Qed.

(** ** Sorted listings *)

Lemma sorted_items_sorted {A} (d : gmap Z A) :
  StronglySorted (λ x y, x.1 < y.1) (sorted_items d).
Proof.
  eapply ss_mono; [|apply (py_sorted_strict Z.leb fst)].
  - intros x y [H1%Z.leb_le H2]. lia.
  - apply NoDup_fst_map_to_list.
Qed.

Lemma sorted_items_elem {A} (d : gmap Z A) i v : (i, v) ∈ sorted_items d ↔ d !! i = Some v.
Proof. unfold sorted_items. rewrite py_sorted_elem. apply elem_of_map_to_list. Qed.

Lemma slot_changes_elem key b slot ch :
  (slot, ch) ∈ slot_changes key b ↔ b.(bal_storage_changes) !! (key, slot) = Some ch.
Proof.
  unfold slot_changes. rewrite list_elem_of_fmap. split.
  - intros ([[k s] c] & [= -> ->] & [Hk Hin]%list_elem_of_filter). cbn in *. subst.
    by apply elem_of_map_to_list in Hin.
  - intros H. exists ((key, slot), ch). split; [done|]. apply list_elem_of_filter.
    split; [done|]. by apply elem_of_map_to_list.
Qed.

Lemma slot_changes_nodup key b : NoDup (slot_changes key b).*1.
Proof.
  unfold slot_changes. rewrite <-list_fmap_compose.
  pose proof (NoDup_fst_map_to_list (bal_storage_changes b)) as Hd. revert Hd.
  induction (map_to_list (bal_storage_changes b)) as [|[[k s] c] l IH]; [constructor|].
  rewrite fmap_cons. intros [Hn Hd]%NoDup_cons. rewrite filter_cons. case_decide; [|by apply IH].
  rewrite fmap_cons. apply NoDup_cons. split; [|by apply IH].
  cbn in *. subst k. intros Hin. apply Hn.
  apply list_elem_of_fmap in Hin as ([[k' s'] c'] & -> & [Hk Hin]%list_elem_of_filter).
  cbn in *. subst. by apply (list_elem_of_fmap_2 fst _ ((key, s'), c')).
Qed.

Definition lex_lt (x y : Z * (Z * Z)) : Prop :=
  x.1 < y.1 ∨ (x.1 = y.1 ∧ x.2.1 < y.2.1).

Lemma storage_change_events_sorted key b : StronglySorted lex_lt (storage_change_events key b).
Proof.
  unfold storage_change_events.
  apply (ss_bind (λ x y : Z * gmap Z Z, x.1 < y.1)).
  - intros sc _. eapply ss_map; [|apply sorted_items_sorted].
    intros x y H. right. by split.
  - intros x y u v Hxy (e & -> & _)%list_elem_of_fmap (e' & -> & _)%list_elem_of_fmap.
    by left.
  - eapply ss_mono; [|apply (py_sorted_strict Z.leb fst)].
    + intros x y [H1%Z.leb_le H2]. lia.
    + apply slot_changes_nodup.
Qed.

Lemma storage_change_events_elem key b slot i v :
  (slot, (i, v)) ∈ storage_change_events key b ↔
  ∃ ch, b.(bal_storage_changes) !! (key, slot) = Some ch ∧ ch !! i = Some v.
Proof.
  unfold storage_change_events. rewrite list_elem_of_bind. split.
  - intros ([s ch] & (e & [= -> <-] & He)%list_elem_of_fmap & Hsc).
    apply sorted_items_elem in He. apply py_sorted_elem, slot_changes_elem in Hsc. eauto.
  - intros (ch & Hch & Hi). exists (slot, ch). split.
    + apply (list_elem_of_fmap_2 (pair slot) _ (i, v)). by apply sorted_items_elem.
    + by apply py_sorted_elem, slot_changes_elem.
Qed.

Lemma storage_read_events_sorted key b : StronglySorted Z.lt (storage_read_events key b).
Proof.
  unfold storage_read_events.
  assert (Hs : StronglySorted (key_lt (pair_leb bytes_leb Z.leb) id)
    (py_sorted (pair_leb bytes_leb Z.leb) id (elements (bal_storage_reads b)))).
  { apply (py_sorted_strict (pair_leb bytes_leb Z.leb) id). rewrite list_fmap_id.
    apply NoDup_elements. }
  apply (ss_filter _ (λ k : bytes * Z, k.1 = key ∧ k.2 ∉ (slot_changes key b).*1)) in Hs.
  revert Hs. generalize (py_sorted (pair_leb bytes_leb Z.leb) id (elements (bal_storage_reads b))).
  intros l. induction l as [|[k s] l IH]; [constructor|]. rewrite filter_cons.
  case_decide as D; [|done]. cbn. intros [Hl Hx]%StronglySorted_inv. constructor; [by apply IH|].
  apply Forall_fmap, Forall_forall. intros [k' s'] Hin. rewrite Forall_forall in Hx.
  destruct (Hx _ Hin) as [Hle Hne]. apply list_elem_of_filter in Hin as [[Hk' _] _].
  destruct D as [Hk _]. cbn in *. subst. unfold key_le, pair_leb in Hle. cbn in Hle.
  rewrite decide_True in Hle by done. apply Z.leb_le in Hle. unfold id in Hne.
  destruct (decide (s = s')); [congruence|lia].
Qed.

Lemma storage_read_events_elem key b slot :
  slot ∈ storage_read_events key b ↔
  (key, slot) ∈ b.(bal_storage_reads) ∧ b.(bal_storage_changes) !! (key, slot) = None.
Proof.
  unfold storage_read_events. rewrite list_elem_of_fmap.
  assert (Hnone : slot ∉ (slot_changes key b).*1 ↔ bal_storage_changes b !! (key, slot) = None).
  { rewrite list_elem_of_fmap. destruct (bal_storage_changes b !! (key, slot)) as [ch|] eqn:E.
    - split; [|done]. intros Hn. exfalso. apply Hn. exists (slot, ch).
      split; [done|]. by apply slot_changes_elem.
    - split; [done|]. intros _ ([s ch] & -> & Hin%slot_changes_elem). cbn in *. congruence. }
  split.
  - intros ([k s] & -> & [[Hk Hs] Hin]%list_elem_of_filter). cbn in *. subst k.
    apply py_sorted_elem, elem_of_elements in Hin. split; [done|]. by apply Hnone.
  - intros [Hin Hn]. exists (key, slot). split; [done|]. apply list_elem_of_filter.
    split; [split; [done|by apply Hnone]|]. by apply py_sorted_elem, elem_of_elements.
Qed.

(** ** Preparing the iterator *)

Lemma prepare_events b :
  bal_ok b →
  ∃ evs, mapM (λ key, account_events key b) (sorted_accounts b) = Ok evs ∧
    Forall2 (λ key ev, account_events key b = Ok ev) (sorted_accounts b) evs.
Proof.
  intros Hb. assert (Hin : ∀ key, key ∈ sorted_accounts b → key ∈ b.(bal_accounts)).
  { intros key. unfold sorted_accounts. by rewrite py_sorted_elem, elem_of_elements. }
  induction (sorted_accounts b) as [|key l IH]; [by exists []|].
  destruct IH as (evs & H1 & H2); [intros; apply Hin; by apply list_elem_of_further|].
  destruct (Hb key) as (a & Ha & _); [apply Hin, list_elem_of_here|].
  assert (∃ ev, account_events key b = Ok ev) as [ev Hev]
    by (unfold account_events; rewrite Ha; eauto).
  exists (ev :: evs). split; [|by constructor].
  change (mapM (λ key, account_events key b) (key :: l)) with
    (y ← account_events key b; k ← mapM (λ key, account_events key b) l; mret (y :: k)).
  by rewrite Hev, H1.
Qed.

(** the block access list is emitted in canonical form whatever the order
    in which it was recorded. Preparing never fails once every recorded
    account has its address (which the recording functions guarantee); the
    iterator holds one group per account, in strictly increasing wire-address
    order; in a group, storage changes are strictly increasing by (slot,
    index) and are exactly those recorded, reads are strictly increasing and
    are exactly the slots read but not changed, and balance, nonce and code
    changes are strictly increasing by index. *)
Theorem bal_canonical (b : BalState) :
  bal_ok b →
  ∃ groups, bal_prepare_iter b = (Ok tt, set_bal_iterator (concat groups) b) ∧
    Forall2 (λ key g, account_events key b = Ok g) (sorted_accounts b) groups ∧
    StronglySorted (key_lt bytes_leb id) (sorted_accounts b) ∧
    (∀ key, key ∈ sorted_accounts b ↔ key ∈ b.(bal_accounts)) ∧
    ∀ key,
      StronglySorted lex_lt (storage_change_events key b) ∧
      (∀ slot i v, (slot, (i, v)) ∈ storage_change_events key b ↔
         ∃ ch, b.(bal_storage_changes) !! (key, slot) = Some ch ∧ ch !! i = Some v) ∧
      StronglySorted Z.lt (storage_read_events key b) ∧
      (∀ slot, slot ∈ storage_read_events key b ↔
         (key, slot) ∈ b.(bal_storage_reads) ∧ b.(bal_storage_changes) !! (key, slot) = None) ∧
      (∀ d : gmap Z Z, StronglySorted (λ x y, x.1 < y.1) (sorted_items d) ∧
         ∀ i v, (i, v) ∈ sorted_items d ↔ d !! i = Some v).
Proof.
  intros Hb. destruct (prepare_events b Hb) as (groups & Hm & Hall). exists groups. split_and!.
  - unfold bal_prepare_iter. py_step. by rewrite Hm.
  - done.
  - apply (py_sorted_strict bytes_leb id). rewrite list_fmap_id. apply NoDup_elements.
  - intros key. unfold sorted_accounts. by rewrite py_sorted_elem, elem_of_elements.
  - intros key. split_and!.
    + apply storage_change_events_sorted.
    + apply storage_change_events_elem.
    + apply storage_read_events_sorted.
    + apply storage_read_events_elem.
    + intros d. split; [apply sorted_items_sorted|apply sorted_items_elem].
Qed.

Definition sample_bal : BalState :=
  snd ((bal_storage_change 2 [Byte.x02] 7 9;; bal_storage_read [Byte.x02] 7;;
        bal_storage_change 1 [Byte.x02] 7 8;; bal_account_touch [Byte.x01]) (bal initial_state)).

Lemma sample_bal_ok : bal_ok sample_bal.
Proof.
  intros key. change (bal_accounts sample_bal) with
    ({[ [Byte.x01] ]} ∪ ({[ [Byte.x02] ]} ∪ ({[ [Byte.x02] ]} ∪ ({[ [Byte.x02] ]} ∪ ∅))) : gset bytes).
  intros Hin. assert (key = [Byte.x01] ∨ key = [Byte.x02]) as [-> | ->] by set_solver.
  - exists [Byte.x01]. by vm_compute.
  - exists [Byte.x02]. by vm_compute.
Qed.

Lemma bal_canonical_witness :
  ∃ b', bal_prepare_iter sample_bal = (Ok tt, b') ∧
    b'.(bal_iterator) = [BalAccount [Byte.x01]; BalAccountEnd; BalAccount [Byte.x02];
      BalStorageChange 7 1 8; BalStorageChange 7 2 9; BalAccountEnd].
Proof.
  destruct (bal_canonical sample_bal sample_bal_ok) as (groups & H & _).
  eexists. split; [exact H|].
  assert (E : bal_iterator (snd (bal_prepare_iter sample_bal)) =
    [BalAccount [Byte.x01]; BalAccountEnd; BalAccount [Byte.x02];
     BalStorageChange 7 1 8; BalStorageChange 7 2 9; BalAccountEnd]) by (vm_compute; reflexivity).
  rewrite H in E. exact E.
Defined.

(** the recording functions keep the list well formed, and iterating
    returns the prepared events in order, then [BalEmpty] for ever. *)
Theorem bal_record_and_iterate (a : address) (i slot v : Z) (h : hash) (b : BalState) :
  (bal_ok b →
    bal_ok (snd (bal_account_touch a b)) ∧ bal_ok (snd (bal_storage_change i a slot v b)) ∧
    bal_ok (snd (bal_storage_read a slot b)) ∧ bal_ok (snd (bal_balance_change i a v b)) ∧
    bal_ok (snd (bal_nonce_change i a v b)) ∧ bal_ok (snd (bal_code_change i a h b))) ∧
  bal_ok (snd (bal_reset b)) ∧
  (∀ n, fst (Nat.iter n (λ m, m ≫= λ _, bal_iter_next) bal_iter_next b) =
     Ok (default BalEmpty (b.(bal_iterator) !! n))).
Proof.
  split_and!.
  - intros Hb. destruct (_bal_touch a b) as [r b1] eqn:E.
    assert (r = Ok (_address_key a)) as -> by (by injection E).
    destruct (bal_touch_ok a b _ b1 E Hb) as [H1 _].
    unfold bal_account_touch, bal_storage_change, bal_storage_read, bal_balance_change,
      bal_nonce_change, bal_code_change. rewrite !bind_run, !E. py_step. split_and!; exact H1.
  - intros key. cbn. set_solver.
  - intros n.
    assert (H : Nat.iter n (λ m, m ≫= λ _, bal_iter_next) bal_iter_next b =
      (Ok (default BalEmpty (bal_iterator b !! n)), set_bal_iterator (drop (S n) (bal_iterator b)) b)).
    { induction n as [|n IH].
      - unfold bal_iter_next. cbn. py_step. destruct b as [? ? ? ? ? ? ? [|e l]]; cbn; by rewrite ?drop_0.
      - cbn [Nat.iter nat_rect]. rewrite bind_run. unfold Nat.iter in IH. rewrite IH.
        unfold bal_iter_next. py_step. cbn [bal_iterator set_bal_iterator].
        destruct (bal_iterator b !! S n) as [e|] eqn:E.
        + rewrite (drop_S _ _ _ E). py_step. done.
        + rewrite drop_ge by (by apply lookup_ge_None). py_step. cbn.
          rewrite drop_ge; [done|]. apply lookup_ge_None in E. lia. }
    by rewrite H.
Qed.

Lemma bal_record_and_iterate_witness :
  bal_ok (snd (bal_nonce_change 4 [Byte.x02] 5 sample_bal)).
Proof.
  exact (proj1 (proj2 (proj2 (proj2 (proj2 (proj1
    (bal_record_and_iterate [Byte.x02] 4 0 5 _zero_hash sample_bal) sample_bal_ok)))))).
Defined.
