(* ===== verification/Accelerators.v ===== *)
(** * Accelerators: wire adaptation around the cryptographic accelerators

    [AcceleratorContract] of [HostContract.py]. The operations themselves are
    a native library the host only calls, so they are an interface; what is
    modelled is everything around the calls: the zero-filled reads, the length
    checks, the narrowing of 64-byte field words to 48 bytes and back, the
    pairing status codes and the output buffer. *)

From Stdlib Require Import ZArith Lia.
From stdpp Require Import base tactics option list gmap.
From S2P Require Import Prelude PyBytes OrderedDict HostTypes Regions RegionFacts.

#[local] Open Scope Z_scope.

(** The native entries: [None] is a status other than [ZKVM_EOK]; otherwise
    the contents of the output buffer the host allocated, or the flag. The
    laws are the sizes of those buffers. *)
Class AccelLib := {
  zkvm_ripemd160 : bytes → Z → option bytes;
  zkvm_modexp : bytes → Z → bytes → Z → bytes → Z → option bytes;
  zkvm_bn254_g1_add : bytes → bytes → option bytes;
  zkvm_bn254_g1_mul : bytes → bytes → option bytes;
  zkvm_bn254_pairing : bytes → Z → option bool;
  zkvm_blake2f : Z → bytes → bytes → bytes → Z → option bytes;
  zkvm_kzg_point_eval : bytes → bytes → bytes → bytes → option bool;
  zkvm_bls12_g1_add : bytes → bytes → option bytes;
  zkvm_bls12_g2_add : bytes → bytes → option bytes;
  zkvm_bls12_g1_msm : bytes → Z → option bytes;
  zkvm_bls12_g2_msm : bytes → Z → option bytes;
  zkvm_bls12_pairing : bytes → Z → option bool;
  zkvm_bls12_map_fp_to_g1 : bytes → option bytes;
  zkvm_bls12_map_fp2_to_g2 : bytes → option bytes;
  zkvm_secp256r1_verify : bytes → bytes → bytes → option bool;
  ripemd160_size : ∀ d n r, zkvm_ripemd160 d n = Some r → length r = 32%nat;
  modexp_size : ∀ b bl e el m ml r, zkvm_modexp b bl e el m ml = Some r → py_len r = Z.max 0 ml;
  bn254_add_size : ∀ x y r, zkvm_bn254_g1_add x y = Some r → length r = 64%nat;
  bn254_mul_size : ∀ x y r, zkvm_bn254_g1_mul x y = Some r → length r = 64%nat;
  blake2f_size : ∀ n h m o f r, zkvm_blake2f n h m o f = Some r → length r = 64%nat;
  g1_add_size : ∀ x y r, zkvm_bls12_g1_add x y = Some r → length r = 96%nat;
  g2_add_size : ∀ x y r, zkvm_bls12_g2_add x y = Some r → length r = 192%nat;
  g1_msm_size : ∀ x n r, zkvm_bls12_g1_msm x n = Some r → length r = 96%nat;
  g2_msm_size : ∀ x n r, zkvm_bls12_g2_msm x n = Some r → length r = 192%nat;
  map_fp_size : ∀ x r, zkvm_bls12_map_fp_to_g1 x = Some r → length r = 96%nat;
  map_fp2_size : ∀ x r, zkvm_bls12_map_fp2_to_g2 x = Some r → length r = 192%nat;
}.

Definition PAIRING_MALFORMED : Z := 0.
Definition PAIRING_VALID_FALSE : Z := 2.
Definition PAIRING_VALID_TRUE : Z := 3.
Definition FP_WIRE : Z := 64.
Definition FP_COMPACT : Z := 48.
Definition FP_PAD : Z := FP_WIRE - FP_COMPACT.

(** ** Helpers *)

Definition _calldata_bytes (value : CalldataSlice) : M HostState bytes :=
  match value with
  | InputCalldata inner => _region_bytes RInput inner
  | MemoryCalldata inner => _region_bytes RMemory inner
  end.

Definition _buffer_read (data : bytes) (start length : Z) : outcome bytes :=
  let chunk := py_slice data start (start + length) in
  pad ← py_bytes_zero (length - py_len chunk);
  mret (chunk ++ pad).

Definition _out_buffer (length : Z) (initial : bytes) : bytes :=
  match initial with
  | [] => zeros length
  | _ => py_ljust initial length
  end.

Definition _compact_fp (raw : bytes) (offset : Z) : outcome bytes :=
  _buffer_read raw (offset + FP_PAD) FP_COMPACT.

Definition _pad_fp (compact : bytes) : bytes := zeros FP_PAD ++ compact.

Definition _compact_g1 (raw : bytes) (offset : Z) : outcome bytes :=
  x ← _compact_fp raw offset;
  y ← _compact_fp raw (offset + FP_WIRE);
  mret (x ++ y).

Definition _pad_g1 (compact : bytes) : bytes :=
  _pad_fp (py_slice_to compact FP_COMPACT) ++ _pad_fp (py_slice_from compact FP_COMPACT).

Definition _compact_g2 (raw : bytes) (offset : Z) : outcome bytes :=
  parts ← mapM (λ index, _compact_fp raw (offset + index * FP_WIRE)) [0; 1; 2; 3];
  mret (concat parts).

Definition _pad_g2 (compact : bytes) : bytes :=
  concat ((λ index, _pad_fp (py_slice compact (index * FP_COMPACT) ((index + 1) * FP_COMPACT)))
    <$> [0; 1; 2; 3]).

(** A call into the library that fills an output buffer: a failed call leaves
    the output alone and reports [False]. *)
Definition store_result (result : option bytes) : M HostState bool :=
  match result with
  | None => mret false
  | Some payload => _store_output payload;; mret true
  end.

Definition _pairing_status (result : option bool) : Z :=
  match result with
  | None => PAIRING_MALFORMED
  | Some verified => if verified then PAIRING_VALID_TRUE else PAIRING_VALID_FALSE
  end.

(** The flag of a verification: the call succeeded and verified. *)
Definition verified (result : option bool) : bool := default false result.

(** [pairs += ...] for [index] in [range(count)] *)
Definition gather (count : Z) (f : Z → outcome bytes) : outcome bytes :=
  parts ← mapM (λ i, f (Z.of_nat i)) (seq 0 (Z.to_nat count));
  mret (concat parts).

Definition _bls_msm (data : CalldataSlice) (wire_stride point_wire : Z)
    (compact : bytes → Z → outcome bytes) (pad : bytes → bytes)
    (entry : bytes → Z → option bytes) : M HostState bool :=
  raw ← _calldata_bytes data;
  if (py_len raw =? 0) || negb (py_len raw mod wire_stride =? 0) then mret false
  else
    let count := py_len raw / wire_stride in
    pairs ← of_outcome (gather count (λ index,
      let base := index * wire_stride in
      point ← compact raw base;
      scalar ← _buffer_read raw (base + point_wire) WORD_BYTES;
      mret (point ++ scalar)));
    store_result (pad <$> entry pairs count).

(** ** The operations *)

Section accelerators.
Context `{AccelLib}.

Definition ripemd160 (data : CalldataSlice) : M HostState bool :=
  raw ← _calldata_bytes data;
  store_result (zkvm_ripemd160 raw (py_len raw)).

Definition modexp (data : CalldataSlice) (base_length exponent_length modulus_length : Z) :
    M HostState bool :=
  all ← _calldata_bytes data;
  raw ← of_outcome (_buffer_read all 0 (96 + base_length + exponent_length + modulus_length));
  let base := 96 in
  let exponent := base + base_length in
  let modulus := exponent + exponent_length in
  store_result (zkvm_modexp (py_slice raw base exponent) base_length
    (py_slice raw exponent modulus) exponent_length
    (py_slice_from raw modulus) modulus_length).

Definition bn254_add (data : CalldataSlice) : M HostState bool :=
  all ← _calldata_bytes data;
  raw ← of_outcome (_buffer_read all 0 128);
  store_result (zkvm_bn254_g1_add (py_slice_to raw 64) (py_slice_from raw 64)).

Definition bn254_mul (data : CalldataSlice) : M HostState bool :=
  all ← _calldata_bytes data;
  raw ← of_outcome (_buffer_read all 0 96);
  store_result (zkvm_bn254_g1_mul (py_slice_to raw 64) (py_slice_from raw 64)).

Definition bn254_pairing (data : CalldataSlice) : M HostState Z :=
  raw ← _calldata_bytes data;
  if negb (py_len raw mod 192 =? 0) then mret PAIRING_MALFORMED
  else mret (_pairing_status (zkvm_bn254_pairing raw (py_len raw / 192))).

Definition blake2f (data : CalldataSlice) (rounds final : Z) : M HostState bool :=
  raw ← _calldata_bytes data;
  if negb (py_len raw =? 213) || (0xFFFFFFFF <? rounds) || (1 <? final) then mret false
  else
    h ← of_outcome (_buffer_read raw 4 64);
    message ← of_outcome (_buffer_read raw 68 128);
    offset ← of_outcome (_buffer_read raw 196 16);
    store_result (zkvm_blake2f rounds (_out_buffer 64 h) message offset final).

Definition kzg_point_evaluation (data : CalldataSlice) : M HostState bool :=
  raw ← _calldata_bytes data;
  if negb (py_len raw =? 192) then mret false
  else
    commitment ← of_outcome (_buffer_read raw 96 48);
    z ← of_outcome (_buffer_read raw 32 32);
    y ← of_outcome (_buffer_read raw 64 32);
    proof ← of_outcome (_buffer_read raw 144 48);
    mret (verified (zkvm_kzg_point_eval commitment z y proof)).

Definition bls_g1_add (data : CalldataSlice) : M HostState bool :=
  raw ← _calldata_bytes data;
  if negb (py_len raw =? 256) then mret false
  else
    left ← of_outcome (_compact_g1 raw 0);
    right ← of_outcome (_compact_g1 raw 128);
    store_result (_pad_g1 <$> zkvm_bls12_g1_add left right).

Definition bls_g2_add (data : CalldataSlice) : M HostState bool :=
  raw ← _calldata_bytes data;
  if negb (py_len raw =? 512) then mret false
  else
    left ← of_outcome (_compact_g2 raw 0);
    right ← of_outcome (_compact_g2 raw 256);
    store_result (_pad_g2 <$> zkvm_bls12_g2_add left right).

Definition bls_g1_msm (data : CalldataSlice) : M HostState bool :=
  _bls_msm data 160 128 _compact_g1 _pad_g1 zkvm_bls12_g1_msm.

Definition bls_g2_msm (data : CalldataSlice) : M HostState bool :=
  _bls_msm data 288 256 _compact_g2 _pad_g2 zkvm_bls12_g2_msm.

Definition bls_pairing (data : CalldataSlice) : M HostState Z :=
  raw ← _calldata_bytes data;
  if (py_len raw =? 0) || negb (py_len raw mod 384 =? 0) then mret PAIRING_MALFORMED
  else
    let count := py_len raw / 384 in
    pairs ← of_outcome (gather count (λ index,
      let base := index * 384 in
      g1 ← _compact_g1 raw base;
      g2 ← _compact_g2 raw (base + 128);
      mret (g1 ++ g2)));
    mret (_pairing_status (zkvm_bls12_pairing pairs count)).

Definition bls_map_fp_to_g1 (data : CalldataSlice) : M HostState bool :=
  raw ← _calldata_bytes data;
  if negb (py_len raw =? 64) then mret false
  else
    fp ← of_outcome (_compact_fp raw 0);
    store_result (_pad_g1 <$> zkvm_bls12_map_fp_to_g1 fp).

Definition bls_map_fp2_to_g2 (data : CalldataSlice) : M HostState bool :=
  raw ← _calldata_bytes data;
  if negb (py_len raw =? 128) then mret false
  else
    c0 ← of_outcome (_compact_fp raw 0);
    c1 ← of_outcome (_compact_fp raw 64);
    store_result (_pad_g2 <$> zkvm_bls12_map_fp2_to_g2 (c0 ++ c1)).

Definition p256_verify (data : CalldataSlice) : M HostState bool :=
  raw ← _calldata_bytes data;
  if negb (py_len raw =? 160) then mret false
  else mret (verified (zkvm_secp256r1_verify (py_slice raw 0 32) (py_slice raw 32 96)
               (py_slice raw 96 160))).
End accelerators.
