(* ===== verification/AccelTheorems.v ===== *)
(** * AccelTheorems: what the wire adaptation guarantees *)

From Stdlib Require Import ZArith Lia.
From stdpp Require Import base tactics option list gmap.
From S2P Require Import Prelude PyBytes OrderedDict HostTypes Regions RegionFacts Accelerators.

#[local] Open Scope Z_scope.

(** ** Reading ranges of concatenations *)

Lemma mem_at_app_r l k i : 0 <= i → mem_at (l ++ k) (py_len l + i) = mem_at k i.
Proof.
  intros. unfold mem_at, py_len. rewrite lookup_app_r by lia. do 2 f_equal. lia.
Qed.

Lemma mem_range_app_r l k o s n :
  0 <= o → s = py_len l + o → mem_range (l ++ k) s n = mem_range k o n.
Proof.
  intros Ho ->. apply list_eq. intros i. destruct (decide (i < n)%nat).
  - rewrite !mem_range_lookup by done. rewrite <-Z.add_assoc, mem_at_app_r by lia. done.
  - rewrite !lookup_ge_None_2; rewrite ?mem_range_length; done || lia.
Qed.

Lemma mem_range_app_l l k : mem_range (l ++ k) 0 (length l) = l.
Proof.
  rewrite <-(mem_range_self l) at 3. apply list_eq. intros i.
  destruct (decide (i < length l)%nat) as [Hi|Hi].
  - rewrite !mem_range_lookup by done. unfold mem_at. rewrite lookup_app_l by lia. done.
  - rewrite !lookup_ge_None_2; rewrite ?mem_range_length; done || lia.
Qed.

Lemma mem_range_split l s n m :
  mem_range l s (n + m) = mem_range l s n ++ mem_range l (s + Z.of_nat n) m.
Proof.
  apply list_eq. intros i. destruct (decide (i < n + m)%nat).
  - rewrite mem_range_lookup by done. destruct (decide (i < n)%nat).
    + by rewrite lookup_app_l, mem_range_lookup by (rewrite ?mem_range_length; done).
    + rewrite lookup_app_r, mem_range_length by (rewrite mem_range_length; lia).
      rewrite mem_range_lookup by lia. do 2 f_equal. lia.
  - rewrite !lookup_ge_None_2; rewrite ?length_app, ?mem_range_length; done || lia.
Qed.

Lemma buffer_read_run data start n :
  0 <= start → 0 <= n → _buffer_read data start n = Ok (mem_range data start (Z.to_nat n)).
Proof.
  intros Hs Hn. unfold _buffer_read, py_bytes_zero. pose proof (py_slice_length data start (start + n)).
  rewrite (proj2 (Z.ltb_ge _ _)) by lia. cbn. f_equal. by apply ljust_slice_range.
Qed.

(** ** Field words *)

(** Field elements in wire form: each preceded by its sixteen zero bytes. *)
Definition wire_fields (cs : list bytes) : bytes := concat (_pad_fp <$> cs).

Definition field_sized (cs : list bytes) : Prop := Forall (λ c : bytes, length c = 48%nat) cs.

Lemma pad_fp_length c : length c = 48%nat → py_len (_pad_fp c) = 64.
Proof.
  intros Hc. unfold _pad_fp. rewrite py_len_app, zeros_length. unfold py_len. by rewrite Hc.
Qed.

Lemma wire_fields_length cs :
  field_sized cs → py_len (wire_fields cs) = 64 * Z.of_nat (length cs).
Proof.
  induction 1 as [|c cs Hc Hcs IH]; [done|]. unfold wire_fields in *. cbn.
  rewrite py_len_app, IH, pad_fp_length by done. lia.
Qed.

(** Narrowing the [i]-th word of a padded sequence gives the [i]-th element,
    whatever follows. *)
Lemma compact_fp_wire cs tail i c base pre :
  field_sized cs → cs !! i = Some c → base = py_len pre →
  _compact_fp (pre ++ wire_fields cs ++ tail) (base + Z.of_nat i * FP_WIRE) = Ok c.
Proof.
  intros Hcs Hi ->. pose proof (py_len_nonneg pre).
  unfold _compact_fp, FP_PAD, FP_COMPACT, FP_WIRE. rewrite buffer_read_run by lia. f_equal.
  rewrite (mem_range_app_r _ _ (Z.of_nat i * 64 + 16)) by lia.
  revert i Hi. induction Hcs as [|d cs Hd Hcs IH]; intros i Hi; [done|].
  unfold wire_fields. cbn. fold (wire_fields cs). rewrite <-app_assoc.
  destruct i as [|i]; cbn in Hi.
  - injection Hi as ->. unfold _pad_fp. rewrite <-app_assoc.
    rewrite (mem_range_app_r _ _ 0) by (try lia; rewrite zeros_length; done).
    change (Z.to_nat 48) with 48%nat. rewrite <-Hd. apply mem_range_app_l.
  - rewrite (mem_range_app_r _ _ (Z.of_nat i * 64 + 16)).
    + by apply IH.
    + lia.
    + rewrite pad_fp_length by done. lia.
Qed.

Definition g1_fields (p : bytes) : list bytes := [take 48 p; drop 48 p].
Definition g2_fields (p : bytes) : list bytes :=
  [take 48 p; take 48 (drop 48 p); take 48 (drop 96 p); drop 144 p].

Lemma g1_fields_sized p : length p = 96%nat → field_sized (g1_fields p).
Proof.
  intros Hp. unfold g1_fields, field_sized.
  repeat (apply Forall_cons; split); rewrite ?length_take, ?length_drop, ?Hp; done.
Qed.

Lemma g2_fields_sized p : length p = 192%nat → field_sized (g2_fields p).
Proof.
  intros Hp. unfold g2_fields, field_sized.
  repeat (apply Forall_cons; split); rewrite ?length_take, ?length_drop, ?Hp; done.
Qed.

Lemma g1_fields_concat p : concat (g1_fields p) = p.
Proof. cbn. by rewrite app_nil_r, take_drop. Qed.

Lemma g2_fields_concat p : concat (g2_fields p) = p.
Proof.
  assert (H : ∀ n m, (m = n + 48)%nat → take 48 (drop n p) ++ drop m p = drop n p).
  { intros n m ->. by rewrite <-drop_drop, take_drop. }
  unfold g2_fields. cbn [concat]. rewrite app_nil_r.
  by rewrite (H 96%nat), (H 48%nat), take_drop.
Qed.

Lemma pad_g1_wire p : length p = 96%nat → _pad_g1 p = wire_fields (g1_fields p).
Proof.
  intros Hp. unfold _pad_g1, wire_fields, g1_fields, py_slice_to, py_slice_from.
  rewrite slice_bound_in by (unfold py_len; rewrite Hp; done).
  cbn [fmap list_fmap concat]. by rewrite app_nil_r.
Qed.

Lemma pad_g2_wire p : length p = 192%nat → _pad_g2 p = wire_fields (g2_fields p).
Proof.
  intros Hp. unfold _pad_g2, wire_fields, g2_fields.
  cbn [fmap list_fmap concat]. unfold FP_COMPACT. rewrite app_nil_r.
  assert (Hs : ∀ i, 0 <= i → (i + 1) * 48 <= 192 →
    py_slice p (i * 48) ((i + 1) * 48) = take 48 (drop (Z.to_nat (i * 48)) p)).
  { intros i Hi Hj. replace ((i + 1) * 48) with (i * 48 + 48) by lia.
    by rewrite py_slice_nonneg by lia. }
  rewrite !Hs by lia. change (Z.to_nat (0 * 48)) with 0%nat. rewrite drop_0.
  change (Z.to_nat (1 * 48)) with 48%nat. change (Z.to_nat (2 * 48)) with 96%nat.
  change (Z.to_nat (3 * 48)) with 144%nat.
  rewrite (take_ge (drop 144 p)) by (rewrite length_drop; lia). by rewrite app_nil_r.
Qed.

Lemma compact_g1_pad pre p tail base :
  length p = 96%nat → base = py_len pre → _compact_g1 (pre ++ _pad_g1 p ++ tail) base = Ok p.
Proof.
  intros Hp ->. pose proof (g1_fields_sized p Hp) as Hs. rewrite pad_g1_wire by done.
  pose proof (compact_fp_wire _ tail 0 _ _ pre Hs eq_refl eq_refl) as H0.
  pose proof (compact_fp_wire _ tail 1 _ _ pre Hs eq_refl eq_refl) as H1.
  rewrite Z.add_0_r in H0. change (Z.of_nat 1 * FP_WIRE) with FP_WIRE in H1.
  unfold _compact_g1. rewrite H0, H1. cbn. by rewrite take_drop.
Qed.

Lemma compact_g2_pad pre p tail base :
  length p = 192%nat → base = py_len pre → _compact_g2 (pre ++ _pad_g2 p ++ tail) base = Ok p.
Proof.
  intros Hp ->. pose proof (g2_fields_sized p Hp) as Hs. rewrite pad_g2_wire by done.
  assert (H : ∀ i c, g2_fields p !! i = Some c →
    _compact_fp (pre ++ wire_fields (g2_fields p) ++ tail) (py_len pre + Z.of_nat i * FP_WIRE) = Ok c).
  { intros. by apply compact_fp_wire. }
  pose proof (H 0%nat _ eq_refl) as H0. pose proof (H 1%nat _ eq_refl) as H1.
  pose proof (H 2%nat _ eq_refl) as H2. pose proof (H 3%nat _ eq_refl) as H3.
  unfold _compact_g2. cbn [mapM].
  change (Z.of_nat 0) with 0 in H0. change (Z.of_nat 1) with 1 in H1.
  change (Z.of_nat 2) with 2 in H2. change (Z.of_nat 3) with 3 in H3.
  rewrite H0, H1, H2, H3. transitivity (Ok (concat (g2_fields p))); [done|].
  by rewrite g2_fields_concat.
Qed.

(** ** Calls *)

Definition calldata (d : CalldataSlice) (s : HostState) : bytes :=
  match d with
  | InputCalldata v => _slice_bytes (region_of RInput s) v
  | MemoryCalldata v => _slice_bytes (region_of RMemory s) v
  end.

Lemma calldata_run d s : _calldata_bytes d s = (Ok (calldata d s), s).
Proof. by destruct d. Qed.

Definition with_output (payload : bytes) (s : HostState) : HostState :=
  put (set_output_bytes payload s.(regions)) s.

Lemma store_result_run r s :
  store_result r s = match r with
                     | None => (Ok false, s)
                     | Some payload => (Ok true, with_output payload s)
                     end.
Proof. destruct r; cbn; py_step; [|done]. unfold _store_output, modify_regions. by rewrite zoom_run. Qed.

(** [fills m n]: the call never raises; it reports [False] and changes
    nothing, or reports [True] having stored exactly [n] output bytes. *)
Definition fills (m : M HostState bool) (n : Z) : Prop := ∀ s,
  m s = (Ok false, s) ∨ ∃ payload, py_len payload = n ∧ m s = (Ok true, with_output payload s).

Lemma fills_store (r : option bytes) n :
  (∀ p, r = Some p → py_len p = n) → fills (store_result r) n.
Proof. intros H s. rewrite store_result_run. destruct r as [p|]; [right; eauto|by left]. Qed.

Lemma fills_calldata d f n :
  (∀ raw, fills (f raw) n) → fills (raw ← _calldata_bytes d; f raw) n.
Proof. intros H s. rewrite bind_run, calldata_run. apply H. Qed.

Lemma fills_ok {A} (o : outcome A) f n :
  (∃ a, o = Ok a) → (∀ a, fills (f a) n) → fills (a ← of_outcome o; f a) n.
Proof. intros [a ->] H s. rewrite bind_run, of_outcome_run. apply H. Qed.

Lemma fills_if (b : bool) m n :
  (b = false → fills m n) → fills (if b then mret false else m) n.
Proof. intros H. destruct b; [intros s; by left|auto]. Qed.

Lemma buffer_read_ok data start n : 0 <= start → 0 <= n → ∃ b, _buffer_read data start n = Ok b.
Proof. intros. eexists. by apply buffer_read_run. Qed.

Lemma compact_fp_ok raw o : 0 <= o → ∃ b, _compact_fp raw o = Ok b.
Proof. intros. apply buffer_read_ok; unfold FP_PAD, FP_COMPACT, FP_WIRE; lia. Qed.

Lemma compact_g1_ok raw o : 0 <= o → ∃ b, _compact_g1 raw o = Ok b.
Proof.
  intros. unfold _compact_g1. destruct (compact_fp_ok raw o) as [x ->]; [done|].
  destruct (compact_fp_ok raw (o + FP_WIRE)) as [y Hy]; [unfold FP_WIRE; lia|].
  cbn. rewrite Hy. by eexists.
Qed.

Lemma mapM_ok {A B} (f : A → outcome B) l :
  (∀ x, x ∈ l → ∃ y, f x = Ok y) → ∃ ys, mapM f l = Ok ys ∧ Forall2 (λ x y, f x = Ok y) l ys.
Proof.
  induction l as [|x l IH]; intros H; [by exists []|].
  destruct (H x) as [y Hy]; [apply list_elem_of_here|].
  destruct IH as (ys & Hys & Hall); [intros; apply H; by apply list_elem_of_further|].
  exists (y :: ys). split; [|by constructor].
  change (mapM f (x :: l)) with (y ← f x; k ← mapM f l; mret (y :: k)). by rewrite Hy, Hys.
Qed.

Lemma compact_g2_ok raw o : 0 <= o → ∃ b, _compact_g2 raw o = Ok b.
Proof.
  intros. unfold _compact_g2.
  destruct (mapM_ok (λ index, _compact_fp raw (o + index * FP_WIRE)) [0; 1; 2; 3]) as (ys & -> & _).
  - intros x Hx. apply compact_fp_ok. unfold FP_WIRE.
    repeat (apply elem_of_cons in Hx as [-> | Hx]; [lia|]). by apply not_elem_of_nil in Hx.
  - by eexists.
Qed.

Lemma gather_ok count f :
  (∀ i, 0 <= i < count → ∃ b, f i = Ok b) → ∃ b, gather count f = Ok b.
Proof.
  intros H. unfold gather.
  destruct (mapM_ok (λ i, f (Z.of_nat i)) (seq 0 (Z.to_nat count))) as (ys & -> & _).
  - intros i Hi%elem_of_seq. apply H. lia.
  - by eexists.
Qed.

Lemma pad_g1_size p : length p = 96%nat → py_len (_pad_g1 p) = 128.
Proof. intros. rewrite pad_g1_wire, wire_fields_length by (done || by apply g1_fields_sized). done. Qed.

Lemma pad_g2_size p : length p = 192%nat → py_len (_pad_g2 p) = 256.
Proof. intros. rewrite pad_g2_wire, wire_fields_length by (done || by apply g2_fields_sized). done. Qed.

(** ** Gathering pairs *)

(** Successive items of a given stride. *)
Lemma gather_items (items : list bytes) stride (f : bytes → Z → outcome bytes) (out : bytes → bytes) :
  0 < stride →
  Forall (λ x : bytes, py_len x = stride) items →
  (∀ pre x tail, x ∈ items → f (pre ++ x ++ tail) (py_len pre) = Ok (out x)) →
  gather (Z.of_nat (length items)) (λ i, f (concat items) (i * stride)) = Ok (concat (out <$> items)).
Proof.
  intros Hst Hsz Hf. unfold gather. rewrite Nat2Z.id.
  assert (H : ∀ done_ rest, items = done_ ++ rest →
    mapM (λ i, f (concat items) (Z.of_nat i * stride)) (seq (length done_) (length rest)) =
    Ok (out <$> rest)).
  { intros done_ rest. revert done_. induction rest as [|x rest IH]; intros done_ E; [done|].
    cbn [length seq].
    change (mapM ?g (?a :: ?l)) with (y ← g a; k ← mapM g l; mret (y :: k)).
    assert (Hd : Z.of_nat (length done_) * stride = py_len (concat done_)).
    { rewrite E in Hsz. apply Forall_app in Hsz as [Hd _].
      clear -Hd. induction Hd as [|y l Hy Hl IH]; [done|]. cbn. rewrite py_len_app, Hy. lia. }
    cbv beta. rewrite Hd.
    assert (Ex : f (concat items) (py_len (concat done_)) = Ok (out x)).
    { assert (concat items = concat done_ ++ x ++ concat rest) as -> by
        (rewrite E, concat_app; reflexivity).
      apply Hf. rewrite E. apply elem_of_app. right. apply list_elem_of_here. }
    rewrite Ex. specialize (IH (done_ ++ [x])). rewrite length_app in IH. cbn [length] in IH.
    replace (length done_ + 1)%nat with (S (length done_)) in IH by lia.
    rewrite IH by (by rewrite E, <-app_assoc). done. }
  pose proof (H [] items eq_refl) as H0. cbn [length] in H0. rewrite H0. done.
Qed.

Lemma concat_length (items : list bytes) stride :
  Forall (λ x : bytes, py_len x = stride) items →
  py_len (concat items) = Z.of_nat (length items) * stride.
Proof. induction 1 as [|x l Hx Hl IH]; [done|]. cbn [concat length]. rewrite py_len_app, IH, Hx. lia. Qed.

(** ** Properties *)

(** narrowing undoes widening: the compact form read back from a padded
    G1 or G2 point is the point, wherever it stands in the input, and a padded
    point has the EIP-2537 size. *)
Theorem compact_pad_roundtrip (pre tail p : bytes) :
  (length p = 96%nat → _compact_g1 (pre ++ _pad_g1 p ++ tail) (py_len pre) = Ok p ∧
     py_len (_pad_g1 p) = 128) ∧
  (length p = 192%nat → _compact_g2 (pre ++ _pad_g2 p ++ tail) (py_len pre) = Ok p ∧
     py_len (_pad_g2 p) = 256).
Proof.
  split; intros Hp; split.
  - by apply compact_g1_pad.
  - by apply pad_g1_size.
  - by apply compact_g2_pad.
  - by apply pad_g2_size.
Qed.

Lemma compact_pad_roundtrip_witness : _compact_g1 (_pad_g1 (zeros 96)) 0 = Ok (zeros 96).
Proof.
  pose proof (proj1 (proj1 (compact_pad_roundtrip [] [] (zeros 96)) eq_refl)) as H.
  rewrite app_nil_r in H. exact H.
Defined.


(** A concrete library: a few calls succeed with constant outputs, the others
    fail. *)
Definition toy_lib : AccelLib.
Proof.
  refine {|
    zkvm_ripemd160 := λ _ _, Some (zeros 32);
    zkvm_modexp := λ _ _ _ _ _ _, None;
    zkvm_bn254_g1_add := λ _ _, None;
    zkvm_bn254_g1_mul := λ _ _, None;
    zkvm_bn254_pairing := λ _ _, Some true;
    zkvm_blake2f := λ _ _ _ _ _, None;
    zkvm_kzg_point_eval := λ _ _ _ _, None;
    zkvm_bls12_g1_add := λ x y, Some (zeros 96);
    zkvm_bls12_g2_add := λ _ _, None;
    zkvm_bls12_g1_msm := λ x _, Some (zeros 96);
    zkvm_bls12_g2_msm := λ _ _, None;
    zkvm_bls12_pairing := λ _ _, Some false;
    zkvm_bls12_map_fp_to_g1 := λ _, None;
    zkvm_bls12_map_fp2_to_g2 := λ _, None;
    zkvm_secp256r1_verify := λ _ _ _, Some true;
  |}; intros; simplify_eq; reflexivity.
Defined.


(** malformed calldata is rejected before the library is consulted: the
    fixed-size operations report failure on any other length, the
    multi-scalar multiplications on an empty or ragged list, the pairings
    answer the malformed code, and BLAKE2F also refuses a final flag above
    one or a round count above 32 bits; nothing is written. *)
Theorem accelerator_length_checks `{AccelLib} (d : CalldataSlice) (rounds final : Z)
    (s : HostState) :
  let n := py_len (calldata d s) in
  (n ≠ 256 → bls_g1_add d s = (Ok false, s)) ∧
  (n ≠ 512 → bls_g2_add d s = (Ok false, s)) ∧
  (n = 0 ∨ n mod 160 ≠ 0 → bls_g1_msm d s = (Ok false, s)) ∧
  (n = 0 ∨ n mod 288 ≠ 0 → bls_g2_msm d s = (Ok false, s)) ∧
  (n ≠ 64 → bls_map_fp_to_g1 d s = (Ok false, s)) ∧
  (n ≠ 128 → bls_map_fp2_to_g2 d s = (Ok false, s)) ∧
  (n ≠ 192 → kzg_point_evaluation d s = (Ok false, s)) ∧
  (n ≠ 160 → p256_verify d s = (Ok false, s)) ∧
  (n ≠ 213 ∨ 2 ^ 32 <= rounds ∨ 1 < final → blake2f d rounds final s = (Ok false, s)) ∧
  (n mod 192 ≠ 0 → bn254_pairing d s = (Ok PAIRING_MALFORMED, s)) ∧
  (n = 0 ∨ n mod 384 ≠ 0 → bls_pairing d s = (Ok PAIRING_MALFORMED, s)).
Proof.
  intros n. unfold n.
  split_and!; intros Hn; unfold bls_g1_add, bls_g2_add, bls_g1_msm, bls_g2_msm, _bls_msm,
    bls_map_fp_to_g1, bls_map_fp2_to_g2, kzg_point_evaluation, p256_verify, blake2f,
    bn254_pairing, bls_pairing; rewrite bind_run, calldata_run;
    match goal with |- (if ?b then _ else _) _ = _ => replace b with true; [done|] end;
    symmetry; lia.
Qed.

Lemma accelerator_length_checks_witness :
  @bls_g1_add toy_lib (InputCalldata (mkSlice 0 0)) initial_state = (Ok false, initial_state).
Proof.
  refine (proj1 (@accelerator_length_checks toy_lib (InputCalldata (mkSlice 0 0)) 0 0
    initial_state) _). vm_compute. discriminate.
Defined.

(** the multi-scalar multiplications hand the library exactly the points
    and scalars on the wire: for calldata that lists [k > 0] padded points
    each followed by its 32-byte scalar, the library receives the [k] compact
    points with their scalars, in order and with that count, and its result
    is widened into the output buffer. *)
Theorem msm_wire `{AccelLib} (pairs : list (bytes * bytes)) (d : CalldataSlice) (s : HostState) :
  pairs ≠ [] →
  Forall (λ ps : bytes * bytes, length ps.1 = 96%nat ∧ length ps.2 = 32%nat) pairs →
  calldata d s = concat ((λ ps, _pad_g1 ps.1 ++ ps.2) <$> pairs) →
  bls_g1_msm d s =
    match zkvm_bls12_g1_msm (concat ((λ ps, ps.1 ++ ps.2) <$> pairs)) (Z.of_nat (length pairs)) with
    | None => (Ok false, s)
    | Some r => (Ok true, with_output (_pad_g1 r) s)
    end.
Proof.
  intros Hne Hsz Hcd. unfold bls_g1_msm, _bls_msm. rewrite bind_run, calldata_run, Hcd.
  set (items := (λ ps : bytes * bytes, _pad_g1 ps.1 ++ ps.2) <$> pairs).
  assert (Hitems : Forall (λ x : bytes, py_len x = 160) items).
  { apply Forall_fmap. eapply Forall_impl; [exact Hsz|]. intros [p k] [Hp Hk]. cbn in *.
    rewrite py_len_app, pad_g1_size by done. unfold py_len. by rewrite Hk. }
  assert (Hlen : py_len (concat items) = Z.of_nat (length pairs) * 160).
  { rewrite (concat_length _ 160) by done. unfold items. by rewrite length_fmap. }
  assert (0 < Z.of_nat (length pairs)) by (destruct pairs; [done|cbn; lia]).
  rewrite Hlen, Z_mod_mult, Z_div_mult by lia.
  rewrite (proj2 (Z.eqb_neq _ _)) by lia. cbn [orb negb Z.eqb].
  set (f := λ raw base, point ← _compact_g1 raw base;
                        scalar ← _buffer_read raw (base + 128) WORD_BYTES; mret (point ++ scalar)).
  assert (Hg : gather (Z.of_nat (length items)) (λ i, f (concat items) (i * 160)) =
    Ok (concat ((λ x : bytes, default [] (match _compact_g1 x 0 with Ok p => Some p | _ => None end)
                   ++ drop 128 x) <$> items))).
  { apply gather_items; [lia|done|]. intros pre x tail Hx.
    apply list_elem_of_fmap in Hx as ([p k] & -> & Hin). rewrite Forall_forall in Hsz.
    destruct (Hsz _ Hin) as [Hp Hk]. cbn [fst snd] in *. unfold f.
    rewrite <-!app_assoc, compact_g1_pad by done.
    pose proof (compact_g1_pad [] p k 0 Hp eq_refl) as Hz. cbn [app] in Hz. rewrite Hz.
    cbn [mbind outcome_bind]. pose proof (py_len_nonneg pre).
    rewrite buffer_read_run by (lia || done). cbn [mbind outcome_bind default from_option id].
    unfold mret, outcome_ret. f_equal. f_equal.
    - pose proof (pad_g1_size p Hp) as Hl. unfold py_len in Hl.
      rewrite drop_app_ge by lia. replace (128 - length (_pad_g1 p))%nat with 0%nat by lia.
      rewrite drop_0, app_assoc.
      rewrite (mem_range_app_r _ _ 0) by (try lia; rewrite py_len_app, pad_g1_size by done; lia).
      change (Z.to_nat WORD_BYTES) with 32%nat. rewrite <-Hk. apply mem_range_app_l. }
  unfold items in Hg at 1. rewrite length_fmap in Hg. unfold f in Hg.
  rewrite bind_run, of_outcome_run, Hg, store_result_run.
  assert (Hc : (λ x : bytes, default [] (match _compact_g1 x 0 with Ok p => Some p | _ => None end)
                   ++ drop 128 x) <$> items = (λ ps : bytes * bytes, ps.1 ++ ps.2) <$> pairs).
  { unfold items. rewrite <-list_fmap_compose. apply list_fmap_ext. intros i [p k] Hin.
    apply list_elem_of_lookup_2 in Hin. rewrite Forall_forall in Hsz.
    destruct (Hsz _ Hin) as [Hp Hk]. cbn [fst snd compose] in *.
    pose proof (compact_g1_pad [] p k 0 Hp eq_refl) as Hz. cbn [app] in Hz. rewrite Hz.
    cbn. f_equal. pose proof (pad_g1_size p Hp) as Hl. unfold py_len in Hl.
    rewrite drop_app_ge by lia. by replace (128 - length (_pad_g1 p))%nat with 0%nat by lia. }
  rewrite Hc. by destruct (zkvm_bls12_g1_msm _ _).
Qed.

Lemma msm_wire_witness :
  let s := put (set_memory_bytes (_pad_g1 (zeros 96) ++ zeros 32) (regions initial_state))
    initial_state in
  @bls_g1_msm toy_lib (MemoryCalldata (mkSlice 0 160)) s =
    (Ok true, with_output (_pad_g1 (zeros 96)) s).
Proof.
  cbv zeta.
  refine (@msm_wire toy_lib [(zeros 96, zeros 32)] (MemoryCalldata (mkSlice 0 160))
    (put (set_memory_bytes (_pad_g1 (zeros 96) ++ zeros 32) (regions initial_state)) initial_state)
    _ _ _).
  - discriminate.
  - repeat constructor.
  - vm_compute. reflexivity.
Defined.
