(* ===== verification/Secp256k1.v ===== *)
(** * Secp256k1: public-key recovery

    The curve arithmetic and [ecrecover] of [HostContract.py], over Python
    integers. Modular inversion raises when the base is not invertible, as
    [pow(a, -1, m)] does, so every curve operation is fallible. *)

From Stdlib Require Import ZArith Lia Znumtheory Zpow_facts.
From stdpp Require Import base tactics option list.
From S2P Require Import Prelude PyBytes OrderedDict HostTypes Regions Crypto.

#[local] Open Scope Z_scope.

(** ** Modular arithmetic of the language *)

(** The extended Euclidean algorithm, keeping the first coefficient. *)
Fixpoint egcd (fuel : nat) (r0 s0 r1 s1 : Z) : Z * Z :=
  match fuel with
  | O => (r0, s0)
  | S fuel =>
      if r1 =? 0 then (r0, s0)
      else egcd fuel r1 s1 (r0 - r0 / r1 * r1) (s0 - r0 / r1 * s1)
  end.

(** Twice the bit length of the modulus bounds the number of divisions. *)
Definition egcd_fuel (m : Z) : nat := Z.to_nat (2 * Z.log2 m + 3).

(** [pow(a, -1, m)] *)
Definition py_inverse (a m : Z) : outcome Z :=
  let '(g, s) := egcd (egcd_fuel m) m 0 (a mod m) 1 in
  if g =? 1 then Ok (s mod m)
  else Raise (ValueError "base is not invertible for the given modulus").

(** [pow(a, e, m)] for a nonnegative exponent, by repeated squaring. *)
Definition py_powmod (a e m : Z) : Z := Zpow_mod a e m.

Section egcd.
Context (a m : Z) (Hm : 1 < m).

(** Remainders are combinations of [a] modulo [m], and keep the gcd. *)
Definition egcd_inv (r0 s0 r1 s1 : Z) : Prop :=
  0 <= r1 ∧ 0 < r0 ∧ (m | r0 - s0 * a) ∧ (m | r1 - s1 * a) ∧ Z.gcd r0 r1 = Z.gcd m a.

Lemma egcd_inv_step r0 s0 r1 s1 :
  egcd_inv r0 s0 r1 s1 → r1 ≠ 0 →
  egcd_inv r1 s1 (r0 - r0 / r1 * r1) (s0 - r0 / r1 * s1).
Proof.
  intros (H1 & H0 & [k0 E0] & [k1 E1] & Hg) Hne.
  replace (r0 - r0 / r1 * r1) with (r0 mod r1) by (rewrite Z.mod_eq by done; lia).
  pose proof (Z.mod_pos_bound r0 r1 ltac:(lia)).
  split_and!; [lia|lia|by exists k1| |].
  - exists (k0 - r0 / r1 * k1). rewrite Z.mod_eq by done.
    replace (r0 - r1 * (r0 / r1) - (s0 - r0 / r1 * s1) * a)
      with ((r0 - s0 * a) - r0 / r1 * (r1 - s1 * a)) by ring.
    rewrite E0, E1. ring.
  - by rewrite (Z.gcd_comm r1), Z.gcd_mod, (Z.gcd_comm r1) by done.
Qed.

(** Two steps halve the larger remainder, so the fuel suffices. *)
Lemma egcd_spec fuel r0 s0 r1 s1 :
  egcd_inv r0 s0 r1 s1 → r1 < r0 → 2 * Z.log2 r0 + 2 <= Z.of_nat fuel →
  ∃ s, egcd fuel r0 s0 r1 s1 = (Z.gcd m a, s) ∧ (m | Z.gcd m a - s * a).
Proof.
  revert r0 s0 r1 s1. induction fuel as [fuel IH] using lt_wf_ind. intros r0 s0 r1 s1 Hi Hlt Hf.
  destruct fuel as [|fuel]; [pose proof (Z.log2_nonneg r0); lia|]. cbn [egcd].
  destruct (Z.eqb_spec r1 0) as [->|Hne].
  - destruct Hi as (_ & H0 & Hd & _ & Hg). rewrite Z.gcd_0_r, Z.abs_eq in Hg by lia.
    exists s0. subst r0. done.
  - pose proof (egcd_inv_step _ _ _ _ Hi Hne) as Hi'.
    assert (Hr1 : 0 < r1) by (destruct Hi; lia).
    set (r2 := r0 - r0 / r1 * r1) in *. set (s2 := s0 - r0 / r1 * s1) in *.
    assert (Hr2 : 0 <= r2 < r1).
    { unfold r2. replace (r0 - r0 / r1 * r1) with (r0 mod r1) by (rewrite Z.mod_eq by done; lia).
      apply Z.mod_pos_bound. lia. }
    destruct fuel as [|fuel].
    { assert (Z.log2 r0 = 0) as Hl by (pose proof (Z.log2_nonneg r0); lia).
      apply Z.log2_null in Hl. lia. }
    cbn [egcd]. destruct (Z.eqb_spec r2 0) as [E2|Hne2].
    + destruct Hi' as (_ & H0 & Hd & _ & Hg). rewrite E2, Z.gcd_0_r, Z.abs_eq in Hg by lia.
      exists s1. rewrite Hg in *. done.
    + pose proof (egcd_inv_step _ _ _ _ Hi' Hne2) as Hi''.
      assert (Hhalf : 2 * r2 < r0).
      { unfold r2. assert (1 <= r0 / r1) by (apply Z.div_le_lower_bound; lia).
        pose proof (Z.mul_div_le r0 r1 Hr1). nia. }
      assert (Hlog : Z.log2 r2 + 1 <= Z.log2 r0).
      { pose proof (Z.log2_double r2 ltac:(lia)). pose proof (Z.log2_le_mono (2 * r2) r0). lia. }
      assert (Hr3 : r1 - r1 / r2 * r2 < r2).
      { replace (r1 - r1 / r2 * r2) with (r1 mod r2) by (rewrite Z.mod_eq by done; lia).
        apply Z.mod_pos_bound. lia. }
      apply IH; [lia|done|done|lia].
Qed.
End egcd.

(** [pow(a, -1, m)]: an inverse in range exactly when one exists. *)
Lemma py_inverse_spec a m :
  1 < m →
  match py_inverse a m with
  | Ok i => Z.gcd m a = 1 ∧ 0 <= i < m ∧ (m | i * a - 1)
  | Raise e => Z.gcd m a ≠ 1 ∧ e = ValueError "base is not invertible for the given modulus"
  end.
Proof.
  intros Hm. unfold py_inverse. pose proof (Z.mod_pos_bound a m ltac:(lia)) as Ha.
  assert (Hg : Z.gcd m (a mod m) = Z.gcd m a) by (by rewrite Z.gcd_comm, Z.gcd_mod by lia).
  destruct (egcd_spec (a mod m) m (egcd_fuel m) m 0 (a mod m) 1) as (s & E & k & Hk).
  - split_and!; [lia|lia|exists 1; ring|exists 0; ring|done].
  - lia.
  - unfold egcd_fuel. pose proof (Z.log2_nonneg m). lia.
  - rewrite E, Hg. rewrite Hg in Hk. destruct (Z.eqb_spec (Z.gcd m a) 1) as [H1|H1]; [|done].
    rewrite H1 in Hk. split_and!; [done|apply Z.mod_pos_bound; lia..|].
    exists (- k + s * (a / m) - s / m * a).
    rewrite (Z.mod_eq a m) in Hk by lia. rewrite (Z.mod_eq s m) by lia. lia.
Qed.

(** ** The curve *)

Definition _SECP256K1_FIELD : Z :=
  0xFFFFFFFFFFFFFFFFFFFFFFFFFFFFFFFFFFFFFFFFFFFFFFFFFFFFFFFEFFFFFC2F.
Definition _SECP256K1_ORDER : Z :=
  0xFFFFFFFFFFFFFFFFFFFFFFFFFFFFFFFEBAAEDCE6AF48A03BBFD25E8CD0364141.
Definition _SECP256K1_GENERATOR : Z * Z :=
  (0x79BE667EF9DCBBAC55A06295CE870B07029BFCDB2DCE28D959F2815B16F81798,
   0x483ADA7726A3C4655DA4FBFC0E1108A8FD17B448A68554199C47D08FFB10D4B8).

Definition _SecpPoint : Type := option (Z * Z).

Definition _secp256k1_add (left right : _SecpPoint) : outcome _SecpPoint :=
  match left, right with
  | None, _ => Ok right
  | _, None => Ok left
  | Some (left_x, left_y), Some (right_x, right_y) =>
      let finish slope :=
        let result_x := (slope * slope - left_x - right_x) mod _SECP256K1_FIELD in
        let result_y := (slope * (left_x - result_x) - left_y) mod _SECP256K1_FIELD in
        Ok (Some (result_x, result_y)) in
      if left_x =? right_x then
        if (left_y + right_y) mod _SECP256K1_FIELD =? 0 then Ok None
        else
          inverse ← py_inverse (2 * left_y) _SECP256K1_FIELD;
          finish ((3 * left_x * left_x * inverse) mod _SECP256K1_FIELD)
      else
        inverse ← py_inverse (right_x - left_x) _SECP256K1_FIELD;
        finish (((right_y - left_y) * inverse) mod _SECP256K1_FIELD)
  end.

(** [while scalar: ...; scalar >>= 1], on the bits of a positive scalar. *)
Fixpoint mul_loop (scalar : positive) (result addend : _SecpPoint) : outcome _SecpPoint :=
  match scalar with
  | xI scalar' =>
      result' ← _secp256k1_add result addend;
      addend' ← _secp256k1_add addend addend;
      mul_loop scalar' result' addend'
  | xO scalar' =>
      addend' ← _secp256k1_add addend addend;
      mul_loop scalar' result addend'
  | xH =>
      result' ← _secp256k1_add result addend;
      _secp256k1_add addend addend;;
      mret result'
  end.

(** Defined on the nonnegative scalars the callers pass. *)
Definition _secp256k1_mul (scalar : Z) (point : _SecpPoint) : outcome _SecpPoint :=
  match scalar with
  | Zpos scalar => mul_loop scalar None point
  | _ => Ok None
  end.

Section recover.
Context `{Keccak}.

(** The candidate point of a signature: the curve point with abscissa [r]
    and the requested parity, if there is one. *)
Definition recover_point (r y_parity : Z) : option (Z * Z) :=
  let alpha := (py_powmod r 3 _SECP256K1_FIELD + 7) mod _SECP256K1_FIELD in
  let y := py_powmod alpha ((_SECP256K1_FIELD + 1) / 4) _SECP256K1_FIELD in
  if negb (py_powmod y 2 _SECP256K1_FIELD =? alpha) then None
  else Some (r, if negb (Z.land y 1 =? y_parity) then _SECP256K1_FIELD - y else y).

Definition _secp256k1_recover_address (digest : bytes) (y_parity r s : Z) :
    outcome (option bytes) :=
  if negb (py_len digest =? 32)
     || negb ((y_parity =? 0) || (y_parity =? 1))
     || negb ((1 <=? r) && (r <? _SECP256K1_ORDER))
     || negb ((1 <=? s) && (s <? _SECP256K1_ORDER))
     || (_SECP256K1_FIELD <=? r)
  then Ok None
  else
    match recover_point r y_parity with
    | None => Ok None
    | Some recovered_r =>
        check ← _secp256k1_mul _SECP256K1_ORDER (Some recovered_r);
        match check with
        | Some _ => Ok None
        | None =>
            let message := from_be digest mod _SECP256K1_ORDER in
            inverse_r ← py_inverse r _SECP256K1_ORDER;
            left ← _secp256k1_mul s (Some recovered_r);
            right ← _secp256k1_mul ((- message) mod _SECP256K1_ORDER) (Some _SECP256K1_GENERATOR);
            sum ← _secp256k1_add left right;
            public_key ← _secp256k1_mul inverse_r sum;
            match public_key with
            | None => Ok None
            | Some (public_x, public_y) =>
                x ← to_bytes_big public_x 32;
                y ← to_bytes_big public_y 32;
                Ok (Some (py_slice_from (_keccak (x ++ y)) 12))
            end
        end
    end.

Definition ecrecover (digest : hash) (y_parity r s : Z) : outcome AddressResult :=
  recovered ← _secp256k1_recover_address (_fixed_wire_bytes digest) y_parity r s;
  mret match recovered with
       | None => mkAddressResult false (_bytes20_from_wire (zeros 20))
       | Some a => mkAddressResult true (_bytes20_from_wire a)
       end.
End recover.

(** ** Closure *)

Definition on_curve (x y : Z) : Prop := (_SECP256K1_FIELD | y * y - x * x * x - 7).

Definition valid_point (p : _SecpPoint) : Prop :=
  match p with
  | None => True
  | Some (x, y) => 0 <= x < _SECP256K1_FIELD ∧ 0 <= y < _SECP256K1_FIELD ∧ on_curve x y
  end.

Lemma field_pos : 1 < _SECP256K1_FIELD.
Proof. done. Qed.

Lemma field_nonzero : _SECP256K1_FIELD ≠ 0.
Proof. done. Qed.

Lemma field_mod_range z : 0 <= z mod _SECP256K1_FIELD < _SECP256K1_FIELD.
Proof. apply Z.mod_pos_bound. pose proof field_pos. lia. Qed.

Lemma generator_on_curve :
  (_SECP256K1_GENERATOR.2 * _SECP256K1_GENERATOR.2
   - _SECP256K1_GENERATOR.1 * _SECP256K1_GENERATOR.1 * _SECP256K1_GENERATOR.1 - 7)
    mod _SECP256K1_FIELD = 0.
Proof. vm_compute. reflexivity. Qed.

Lemma generator_valid : valid_point (Some _SECP256K1_GENERATOR).
Proof.
  split_and!; [done..|]. apply Z.mod_divide; [apply field_nonzero|]. apply generator_on_curve.
Qed.

#[local] Opaque _SECP256K1_FIELD.

Lemma divide_lin2 p a b u v e : (p | a) → (p | b) → e = u * a + v * b → (p | e).
Proof. intros Ha Hb ->. apply Z.divide_add_r; by apply Z.divide_mul_r. Qed.

Lemma divide_lin3 p a b c u v w e :
  (p | a) → (p | b) → (p | c) → e = u * a + v * b + w * c → (p | e).
Proof.
  intros Ha Hb Hc ->. repeat apply Z.divide_add_r; by apply Z.divide_mul_r.
Qed.

Definition curve_eq (x y : Z) : Z := y * y - x * x * x - 7.

(** The curve equation does not see a change of representatives. *)
Lemma curve_transfer p s x1 y1 X3 x3 y3 :
  (p | x3 - X3) → (p | y3 - (s * (x1 - x3) - y1)) →
  (p | curve_eq X3 (s * (x1 - X3) - y1)) → (p | curve_eq x3 y3).
Proof.
  intros Hx Hy H. set (Y3 := s * (x1 - X3) - y1) in *.
  assert (HY : (p | y3 - Y3)).
  { apply (divide_lin2 _ _ _ 1 (- s) _ Hy Hx). unfold Y3. ring. }
  apply (divide_lin3 _ _ _ _ 1 (y3 + Y3) (- (x3 * x3 + x3 * X3 + X3 * X3)) _ H HY Hx).
  unfold curve_eq. ring.
Qed.

(** The third point of a line through two curve points, chord case: the line
    meets the cubic in the roots [x1], [x2] and [s^2 - x1 - x2]. *)
Lemma chord_on_curve p x1 y1 x2 y2 i s :
  (p | curve_eq x1 y1) → (p | curve_eq x2 y2) →
  (p | i * (x2 - x1) - 1) → (p | s - (y2 - y1) * i) →
  let X3 := s * s - x1 - x2 in (p | curve_eq X3 (s * (x1 - X3) - y1)).
Proof.
  intros H1 H2 Hi Hs X3.
  set (d := x2 - x1) in *. set (delta := s * d - (y2 - y1)).
  assert (Hd : (p | delta)).
  { apply (divide_lin2 _ _ _ d (y2 - y1) _ Hs Hi). unfold delta. ring. }
  set (f2 := x2 * x2 * x2 + 7 - (s * d + y1) * (s * d + y1)).
  assert (Hf2 : (p | f2)).
  { apply (divide_lin2 _ _ _ (-1) (- (2 * y2 + delta)) _ H2 Hd).
    unfold f2, curve_eq, delta. ring. }
  set (A := 2 * s * s * x1 - 2 * s * y1 - (x1 * x2 + X3 * (x1 + x2))).
  apply (divide_lin3 _ _ _ _ (1 - i * (X3 - x1)) (- i * (X3 - x1)) (A * (X3 - x1)) _ H1 Hf2 Hi).
  unfold A, f2, curve_eq, X3, d. ring.
Qed.

(** The tangent case: [x1] is a double root. *)
Lemma tangent_on_curve p x1 y1 i s :
  (p | curve_eq x1 y1) → (p | i * (2 * y1) - 1) → (p | s - 3 * x1 * x1 * i) →
  let X3 := s * s - x1 - x1 in (p | curve_eq X3 (s * (x1 - X3) - y1)).
Proof.
  intros H1 Hi Hs X3.
  apply (divide_lin3 _ _ _ _ 1 (3 * x1 * x1 * (X3 - x1)) (2 * y1 * (X3 - x1)) _ H1 Hi Hs).
  unfold curve_eq, X3. ring.
Qed.

Lemma mod_divide_sub a p : p ≠ 0 → (p | a mod p - a).
Proof. intros. exists (- (a / p)). rewrite Z.mod_eq by done. lia. Qed.

(** The failures of a curve operation are those of modular inversion. *)
Definition inverse_error (e : py_exn) : Prop :=
  e = ValueError "base is not invertible for the given modulus".

Lemma finish_valid x1 y1 x2 s :
  (_SECP256K1_FIELD | curve_eq (s * s - x1 - x2) (s * (x1 - (s * s - x1 - x2)) - y1)) →
  let x3 := (s * s - x1 - x2) mod _SECP256K1_FIELD in
  valid_point (Some (x3, (s * (x1 - x3) - y1) mod _SECP256K1_FIELD)).
Proof.
  intros H x3. split_and!; try apply field_mod_range.
  unfold on_curve. change (_SECP256K1_FIELD | curve_eq x3 ((s * (x1 - x3) - y1) mod _SECP256K1_FIELD)).
  eapply (curve_transfer _ s x1 y1 (s * s - x1 - x2));
    [by apply mod_divide_sub, field_nonzero..|done].
Qed.

(** Points on the curve whose coordinates fit in 32 bytes. *)
Definition word_point (p : _SecpPoint) : Prop :=
  match p with
  | None => True
  | Some (x, y) => 0 <= x < 2 ^ 256 ∧ 0 <= y < 2 ^ 256 ∧ on_curve x y
  end.

Lemma field_lt_word : _SECP256K1_FIELD < 2 ^ 256.
Proof. done. Qed.

Lemma valid_word_point p : valid_point p → word_point p.
Proof.
  destruct p as [[x y]|]; [|done]. intros (? & ? & ?). pose proof field_lt_word.
  split_and!; lia || done.
Qed.

(** A sum is one of its operands, a reduced curve point, or an inversion error. *)
Lemma add_cases l r :
  word_point l → word_point r →
  match _secp256k1_add l r with
  | Ok p => p = l ∨ p = r ∨ valid_point p
  | Raise e => inverse_error e ∧ ∃ x1 y1 x2 y2, l = Some (x1, y1) ∧ r = Some (x2, y2) ∧
      Z.gcd _SECP256K1_FIELD (if x1 =? x2 then 2 * y1 else x2 - x1) ≠ 1
  end.
Proof.
  intros Hl Hr. destruct l as [[x1 y1]|], r as [[x2 y2]|]; cbn [_secp256k1_add]; auto.
  destruct Hl as (Hx1 & Hy1 & Hc1), Hr as (Hx2 & Hy2 & Hc2).
  destruct (Z.eqb_spec x1 x2) as [<-|Hne].
  - destruct ((y1 + y2) mod _SECP256K1_FIELD =? 0); [by right; right|].
    pose proof (py_inverse_spec (2 * y1) _SECP256K1_FIELD field_pos) as Hi.
    destruct (py_inverse _ _) as [i|e]; cbn [mbind outcome_bind].
    + destruct Hi as (_ & _ & Hi). right. right.
      apply finish_valid, (tangent_on_curve _ x1 y1 i); [exact Hc1|exact Hi|].
      apply mod_divide_sub, field_nonzero.
    + destruct Hi as [Hg He]. split; [done|]. exists x1, y1, x1, y2. by rewrite Z.eqb_refl.
  - pose proof (py_inverse_spec (x2 - x1) _SECP256K1_FIELD field_pos) as Hi.
    destruct (py_inverse _ _) as [i|e]; cbn [mbind outcome_bind].
    + destruct Hi as (_ & _ & Hi). right. right.
      apply finish_valid, (chord_on_curve _ x1 y1 x2 y2 i); [exact Hc1|exact Hc2|exact Hi|].
      apply mod_divide_sub, field_nonzero.
    + destruct Hi as [Hg He]. split; [done|]. exists x1, y1, x2, y2.
      by rewrite (proj2 (Z.eqb_neq _ _)).
Qed.

(** The fallible results a curve computation can have. *)
Definition good_point (o : outcome _SecpPoint) : Prop :=
  match o with Ok p => word_point p | Raise e => inverse_error e end.

Lemma add_good l r : word_point l → word_point r → good_point (_secp256k1_add l r).
Proof.
  intros Hl Hr. pose proof (add_cases l r Hl Hr) as H.
  destruct (_secp256k1_add l r) as [p|e]; [|apply H].
  destruct H as [-> |[-> |H]]; [done..|by apply valid_word_point].
Qed.

Lemma good_bind o f :
  good_point o → (∀ p, word_point p → good_point (f p)) → good_point (o ≫= f).
Proof. destruct o; cbn; auto. Qed.

Lemma mul_good n p : word_point p → good_point (_secp256k1_mul n p).
Proof.
  intros Hp. destruct n as [|n|n]; [done| |done]. cbn.
  assert (H : ∀ r a, word_point r → word_point a → good_point (mul_loop n r a)); [|by apply H].
  clear p Hp. induction n as [n IH|n IH|]; intros r a Hr Ha; cbn [mul_loop].
  - apply good_bind; [by apply add_good|]. intros r' Hr'.
    apply good_bind; [by apply add_good|]. intros a' Ha'. by apply IH.
  - apply good_bind; [by apply add_good|]. intros a' Ha'. by apply IH.
  - apply good_bind; [by apply add_good|]. intros r' Hr'.
    by apply good_bind; [by apply add_good|].
Qed.

(** point addition is closed and fails only on inversion: adding two
    valid points gives a valid point (reduced coordinates that satisfy the
    curve equation, or infinity), or raises the one error of modular
    inversion, and that only when the slope's denominator shares a factor with
    the field modulus; infinity is neutral, and a point plus its negation is
    infinity. *)
Theorem secp256k1_add_closed (l r : _SecpPoint) :
  valid_point l → valid_point r →
  (match _secp256k1_add l r with
   | Ok p => valid_point p
   | Raise e => inverse_error e ∧ ∃ x1 y1 x2 y2, l = Some (x1, y1) ∧ r = Some (x2, y2) ∧
       Z.gcd _SECP256K1_FIELD (if x1 =? x2 then 2 * y1 else x2 - x1) ≠ 1
   end) ∧
  _secp256k1_add None r = Ok r ∧ _secp256k1_add l None = Ok l ∧
  (∀ x y, r = Some (x, y) → _secp256k1_add (Some (x, (- y) mod _SECP256K1_FIELD)) r = Ok None).
Proof.
  intros Hl Hr. split_and!.
  - pose proof (add_cases l r (valid_word_point _ Hl) (valid_word_point _ Hr)) as H.
    destruct (_secp256k1_add l r) as [p|e]; [|done]. by destruct H as [-> |[-> |H]].
  - done.
  - by destruct l as [[]|].
  - intros x y ->. unfold _secp256k1_add. rewrite Z.eqb_refl.
    rewrite Z.add_mod_idemp_l by apply field_nonzero.
    by rewrite Z.add_opp_diag_l, Z.mod_0_l by apply field_nonzero.
Qed.

Lemma double_generator_ok :
  is_ok (_secp256k1_add (Some _SECP256K1_GENERATOR) (Some _SECP256K1_GENERATOR)) = true.
Proof. vm_compute. reflexivity. Qed.

Lemma secp256k1_add_closed_witness :
  ∃ p, _secp256k1_add (Some _SECP256K1_GENERATOR) (Some _SECP256K1_GENERATOR) = Ok p ∧
    valid_point p.
Proof.
  destruct (secp256k1_add_closed _ _ generator_valid generator_valid) as [H _].
  pose proof double_generator_ok as Hok.
  destruct (_secp256k1_add _ _) as [p|e]; [|discriminate].
  exists p. split; [reflexivity|exact H].
Defined.

(** ** Recovery *)

Lemma field_odd : _SECP256K1_FIELD mod 2 = 1.
Proof. vm_compute. reflexivity. Qed.

Lemma order_lt_field : _SECP256K1_ORDER < _SECP256K1_FIELD.
Proof. vm_compute. reflexivity. Qed.

Lemma powmod_range a e : 0 <= e → 0 <= py_powmod a e _SECP256K1_FIELD < _SECP256K1_FIELD.
Proof.
  intros. unfold py_powmod. rewrite Zpow_mod_correct by apply field_nonzero. apply field_mod_range.
Qed.

(** The candidate point lies on the curve and has the requested parity. *)
Lemma recover_point_spec r y_parity p :
  (y_parity = 0 ∨ y_parity = 1) → recover_point r y_parity = Some p →
  p.1 = r ∧ 0 <= p.2 <= _SECP256K1_FIELD ∧ p.2 mod 2 = y_parity ∧ on_curve p.1 p.2.
Proof.
  intros Hpar. unfold recover_point.
  set (alpha := (py_powmod r 3 _SECP256K1_FIELD + 7) mod _SECP256K1_FIELD).
  set (e := (_SECP256K1_FIELD + 1) / 4).
  assert (He : 0 <= e) by (apply Z.div_pos; [pose proof field_pos|]; lia).
  pose proof (powmod_range alpha e He) as Hy. set (y := py_powmod alpha e _SECP256K1_FIELD) in *.
  destruct (Z.eqb_spec (py_powmod y 2 _SECP256K1_FIELD) alpha) as [Ha|Ha]; cbn [negb]; [|done].
  assert (Hc : (_SECP256K1_FIELD | curve_eq r y)).
  { unfold py_powmod in Ha. rewrite Zpow_mod_correct in Ha by apply field_nonzero.
    unfold alpha, py_powmod in Ha. rewrite Zpow_mod_correct in Ha by apply field_nonzero.
    rewrite Z.add_mod_idemp_l in Ha by apply field_nonzero.
    apply Z.mod_divide; [apply field_nonzero|].
    replace (curve_eq r y) with (y ^ 2 - (r ^ 3 + 7)) by (unfold curve_eq; ring).
    rewrite Zminus_mod, Ha, Z.sub_diag. apply Z.mod_0_l, field_nonzero. }
  intros [= <-]. cbn [fst snd].
  replace (Z.land y 1) with (y mod 2) by (symmetry; apply (Z.land_ones y 1); lia).
  pose proof (Z.mod_pos_bound y 2 ltac:(lia)). pose proof field_odd as Hodd.
  clear He Ha. clearbody y alpha e.
  destruct (Z.eqb_spec (y mod 2) y_parity) as [Hp|Hp]; cbn [negb]; split_and!;
    [reflexivity|lia|lia|exact Hp|exact Hc|reflexivity|lia|lia| |].
  - rewrite Zminus_mod, Hodd. destruct Hpar as [-> | ->].
    + replace (y mod 2) with 1 by lia. done.
    + replace (y mod 2) with 0 by lia. done.
  - unfold on_curve. destruct Hc as [k Hk]. unfold curve_eq in Hk.
    exists (k + _SECP256K1_FIELD - 2 * y).
    replace ((_SECP256K1_FIELD - y) * (_SECP256K1_FIELD - y) - r * r * r - 7)
      with (_SECP256K1_FIELD * _SECP256K1_FIELD - 2 * y * _SECP256K1_FIELD + (y * y - r * r * r - 7))
      by ring. rewrite Hk. ring.
Qed.

Lemma to_bytes_word v : 0 <= v < 2 ^ 256 → to_bytes_big v 32 = Ok (be_bytes 32 v).
Proof.
  intros. unfold to_bytes_big. change (256 ^ Z.of_nat 32) with (2 ^ 256).
  by rewrite (proj2 (Z.leb_le _ _)), (proj2 (Z.ltb_lt _ _)) by lia.
Qed.

Lemma keccak_tail `{Keccak} d : length (py_slice_from (_keccak d) 12) = 20%nat.
Proof.
  unfold py_slice_from. rewrite length_drop, _keccak_length, slice_bound_in; [done|].
  unfold py_len. rewrite _keccak_length. done.
Qed.

Definition signature_ok (digest : bytes) (y_parity r s : Z) : Prop :=
  py_len digest = 32 ∧ (y_parity = 0 ∨ y_parity = 1) ∧
  1 <= r < _SECP256K1_ORDER ∧ 1 <= s < _SECP256K1_ORDER.

#[export] Instance signature_ok_dec digest y_parity r s : Decision (signature_ok digest y_parity r s).
Proof. unfold signature_ok. apply _. Defined.

Lemma order_gt_1 : 1 < _SECP256K1_ORDER.
Proof. done. Qed.

Lemma neg_mod_idemp a n : (- (a mod n)) mod n = (- a) mod n.
Proof.
  rewrite <-(Z.sub_0_l (a mod n)), <-(Z.sub_0_l a). apply Zminus_mod_idemp_r.
Qed.

#[local] Opaque _SECP256K1_ORDER _SECP256K1_GENERATOR.

Lemma signature_guard digest y_parity r s :
  negb (py_len digest =? 32) || negb ((y_parity =? 0) || (y_parity =? 1))
  || negb ((1 <=? r) && (r <? _SECP256K1_ORDER)) || negb ((1 <=? s) && (s <? _SECP256K1_ORDER))
  || (_SECP256K1_FIELD <=? r) = negb (bool_decide (signature_ok digest y_parity r s)).
Proof.
  pose proof order_lt_field. unfold signature_ok.
  destruct (bool_decide_reflect (py_len digest = 32 ∧ (y_parity = 0 ∨ y_parity = 1) ∧
    1 <= r < _SECP256K1_ORDER ∧ 1 <= s < _SECP256K1_ORDER)) as [Hs|Hs]; cbn [negb]; lia.
Qed.


