(* ===== verification/HostContext.v ===== *)
(** * HostContext: the ambient host state

    Every boundary function starts with [get_state()], which reads the
    context variable [_CURRENT_STATE] and creates a state on first use. This
    file models the context variable over a heap of [HostState] objects, and
    shows that running calls through it is running them on the current
    object, which is how the other files model them. It also holds the
    accelerator entry points, whose only work is that indirection. *)

From Stdlib Require Import ZArith Lia.
From stdpp Require Import base tactics option list gmap.
From S2P Require Import Prelude PyBytes HostTypes Regions Crypto Accelerators Secp256k1.
Local Open Scope Z_scope.

(** References to [HostState] objects. *)
Abbreviation ref := positive.

(** The objects allocated so far, the value of [_CURRENT_STATE] ([None] is
    its default) and the next unused reference. *)
Record Runtime : Type := mkRuntime {
  objects : gmap ref HostState;
  _CURRENT_STATE : option ref;
  next_ref : ref;
}.

Definition set_objects (v : gmap ref HostState) (r : Runtime) : Runtime :=
  mkRuntime v r.(_CURRENT_STATE) r.(next_ref).
Definition set_current_state (v : option ref) (r : Runtime) : Runtime :=
  mkRuntime r.(objects) v r.(next_ref).

(** The object behind a reference. *)
Definition deref (r : ref) (rt : Runtime) : HostState :=
  default initial_state (rt.(objects) !! r).

(** [HostState()] *)
Definition new_state : M Runtime ref := λ rt,
  (Ok rt.(next_ref),
   mkRuntime (<[rt.(next_ref) := initial_state]> rt.(objects)) rt.(_CURRENT_STATE)
     (Pos.succ rt.(next_ref))).

Definition set_state (state : ref) : M Runtime unit := modify (set_current_state (Some state)).

Definition get_state : M Runtime ref :=
  state ← gets _CURRENT_STATE;
  match state with
  | None => state ← new_state; set_state state;; mret state
  | Some state => mret state
  end.

(** [with use_state(state): body]: the [finally] clause runs whether the body
    returns or raises. *)
Definition use_state {A} (state : ref) (body : M Runtime A) : M Runtime A := λ rt,
  let token := rt.(_CURRENT_STATE) in
  let '(o, rt') := (set_state state;; body) rt in
  (o, set_current_state token rt').

Definition reset (state : option ref) : M Runtime unit :=
  match state with
  | None => state ← new_state; set_state state
  | Some state => set_state state
  end.

Definition finish : M Runtime unit := mret tt.

(** A computation on the object behind a reference. *)
Definition on_object {A} (state : ref) (m : M HostState A) : M Runtime A := λ rt,
  let '(o, s) := m (deref state rt) in
  (o, set_objects (<[state := s]> rt.(objects)) rt).

(** A boundary function: it works on the object [get_state()] returns. *)
Definition host_call {A} (m : M HostState A) : M Runtime A :=
  state ← get_state; on_object state m.

(** ** The accelerator entry points *)

Section entry_points.
Context `{AccelLib} `{Keccak}.

Definition accelerator_ripemd160 (value : CalldataSlice) : M Runtime bool :=
  host_call (ripemd160 value).
Definition accelerator_modexp (value : CalldataSlice)
    (base_length exponent_length modulus_length : Z) : M Runtime bool :=
  host_call (modexp value base_length exponent_length modulus_length).
Definition accelerator_bn254_add (value : CalldataSlice) : M Runtime bool :=
  host_call (bn254_add value).
Definition accelerator_bn254_mul (value : CalldataSlice) : M Runtime bool :=
  host_call (bn254_mul value).
Definition accelerator_bn254_pairing (value : CalldataSlice) : M Runtime Z :=
  host_call (bn254_pairing value).
Definition accelerator_blake2f (value : CalldataSlice) (rounds final : Z) : M Runtime bool :=
  host_call (blake2f value rounds final).
Definition accelerator_kzg_point_evaluation (value : CalldataSlice) : M Runtime bool :=
  host_call (kzg_point_evaluation value).
Definition accelerator_bls_g1_add (value : CalldataSlice) : M Runtime bool :=
  host_call (bls_g1_add value).
Definition accelerator_bls_g1_msm (value : CalldataSlice) : M Runtime bool :=
  host_call (bls_g1_msm value).
Definition accelerator_bls_g2_add (value : CalldataSlice) : M Runtime bool :=
  host_call (bls_g2_add value).
Definition accelerator_bls_g2_msm (value : CalldataSlice) : M Runtime bool :=
  host_call (bls_g2_msm value).
Definition accelerator_bls_pairing (value : CalldataSlice) : M Runtime Z :=
  host_call (bls_pairing value).
Definition accelerator_bls_map_fp_to_g1 (value : CalldataSlice) : M Runtime bool :=
  host_call (bls_map_fp_to_g1 value).
Definition accelerator_bls_map_fp2_to_g2 (value : CalldataSlice) : M Runtime bool :=
  host_call (bls_map_fp2_to_g2 value).
Definition accelerator_p256_verify (value : CalldataSlice) : M Runtime bool :=
  host_call (p256_verify value).
Definition host_ecrecover (digest : hash) (y_parity r s : Z) : M Runtime AddressResult :=
  host_call (of_outcome (ecrecover digest y_parity r s)).
End entry_points.

(** ** Allocation *)

(** References are allocated in order, and the current one is allocated. *)
Record runtime_ok (rt : Runtime) : Prop := {
  ok_current : ∀ r, rt.(_CURRENT_STATE) = Some r → is_Some (rt.(objects) !! r);
  ok_fresh : ∀ r, is_Some (rt.(objects) !! r) → (r < rt.(next_ref))%positive;
}.

Lemma fresh_none rt : runtime_ok rt → rt.(objects) !! rt.(next_ref) = None.
Proof.
  intros Hok. apply eq_None_not_Some. intros Hs.
  pose proof (ok_fresh rt Hok _ Hs). lia.
Qed.

Lemma new_state_ok rt o rt' : runtime_ok rt → new_state rt = (o, rt') → runtime_ok rt'.
Proof.
  intros Hok [= <- <-]. split; cbn.
  - intros r Hr. apply lookup_insert_is_Some'. right. by apply (ok_current rt Hok).
  - intros r [->|Hr]%lookup_insert_is_Some'; [lia|].
    pose proof (ok_fresh rt Hok _ Hr). lia.
Qed.

Lemma set_state_ok r rt :
  runtime_ok rt → is_Some (rt.(objects) !! r) → runtime_ok (set_current_state (Some r) rt).
Proof.
  intros Hok Hr. split; cbn; [by intros ? [= <-]|]. apply (ok_fresh rt Hok).
Qed.

(** The current object: the one [get_state()] returns, creating it on the
    first use. *)
Lemma get_state_run rt :
  runtime_ok rt →
  ∃ r rt', get_state rt = (Ok r, rt') ∧ runtime_ok rt' ∧
    rt'.(_CURRENT_STATE) = Some r ∧ is_Some (rt'.(objects) !! r) ∧
    deref r rt' = match rt.(_CURRENT_STATE) with
                  | Some r => deref r rt | None => initial_state end ∧
    (∀ r', is_Some (rt.(objects) !! r') → rt'.(objects) !! r' = rt.(objects) !! r').
Proof.
  intros Hok. unfold get_state. py_step. destruct (_CURRENT_STATE rt) as [r|] eqn:Hc.
  - py_step. exists r, rt. split_and!; auto. by apply (ok_current rt Hok).
  - destruct (new_state rt) as [o rt'] eqn:Hn. pose proof (new_state_ok _ _ _ Hok Hn) as Hok'.
    rewrite bind_run, Hn. injection Hn as <- <-. unfold set_state. py_step.
    assert (is_Some (<[next_ref rt := initial_state]> (objects rt) !! next_ref rt)) as Hs
      by (rewrite lookup_insert_eq; eauto).
    eexists _, _. split; [reflexivity|]. split_and!; cbn; [|done|done| |].
    + by apply (set_state_ok _ _ Hok').
    + unfold deref. cbn. by rewrite lookup_insert_eq.
    + intros r' Hr'. apply lookup_insert_ne. intros <-. rewrite fresh_none in Hr' by done.
      by destruct Hr'.
Qed.

(** ** Calls through the context variable *)

Lemma on_object_run {A} r (m : M HostState A) rt :
  on_object r m rt =
  (fst (m (deref r rt)), set_objects (<[r := snd (m (deref r rt))]> rt.(objects)) rt).
Proof. unfold on_object. by destruct (m (deref r rt)). Qed.

Section host_call.
Context {A : Type}.
Implicit Types (m : M HostState A) (rt : Runtime).

Lemma host_call_current r m rt :
  rt.(_CURRENT_STATE) = Some r → host_call m rt = on_object r m rt.
Proof. intros Hc. unfold host_call, get_state. py_step. rewrite Hc. by py_step. Qed.

Lemma deref_insert r s rt : deref r (set_objects (<[r := s]> rt.(objects)) rt) = s.
Proof. unfold deref. cbn. by rewrite lookup_insert_eq. Qed.

Lemma on_object_bind {B} r m (f : A → M HostState B) rt :
  on_object r (m ≫= f) rt = (on_object r m ≫= λ a, on_object r (f a)) rt.
Proof.
  rewrite on_object_run, !bind_run, on_object_run.
  destruct (m (deref r rt)) as [[a|e] s]; cbn [fst snd]; [|done].
  rewrite on_object_run, deref_insert. unfold set_objects. cbn. by rewrite insert_insert_eq.
Qed.

(** Calls leave the context variable set to the object they ran on. *)
Lemma host_call_leaves m rt :
  runtime_ok rt →
  ∃ r, (snd (host_call m rt)).(_CURRENT_STATE) = Some r.
Proof.
  intros Hok. destruct (get_state_run rt Hok) as (r & rt' & Hg & Hok' & Hc & _).
  exists r. unfold host_call. rewrite bind_run, Hg, on_object_run. exact Hc.
Qed.
End host_call.

(** composing two boundary calls through the context variable is calling
    their composition: every call of a sequence reads and writes the same
    object, whether the context started empty or not, and an exception of the
    first keeps the state it left. *)
Theorem host_call_bind {A B} (m : M HostState A) (f : A → M HostState B) (rt : Runtime) :
  runtime_ok rt →
  host_call (m ≫= f) rt = (host_call m ≫= λ a, host_call (f a)) rt.
Proof.
  intros Hok. destruct (get_state_run rt Hok) as (r & rt' & Hg & Hok' & Hc & _).
  rewrite bind_run. unfold host_call at 1 2. rewrite !bind_run, Hg, on_object_bind, bind_run.
  rewrite on_object_run. destruct (m (deref r rt')) as [[a|e] s]; cbn [fst snd]; [|done].
  symmetry. by apply host_call_current.
Qed.

(** Two calls from an empty context: the first creates the state. *)
Definition empty_runtime : Runtime := mkRuntime ∅ None 1.

Lemma empty_runtime_ok : runtime_ok empty_runtime.
Proof. split; cbn; [done|]. intros r [x Hx]. by rewrite lookup_empty in Hx. Qed.

Definition sample_write : M HostState unit :=
  mem_expand 0 0 32;; mem_store_word 0 7.

Lemma host_call_bind_witness :
  runtime_ok empty_runtime ∧
  host_call (sample_write ≫= λ _, mem_load_word 0) empty_runtime =
    (host_call sample_write ≫= λ _, host_call (mem_load_word 0)) empty_runtime ∧
  fst (host_call (sample_write ≫= λ _, mem_load_word 0) empty_runtime) = Ok 7.
Proof.
  split_and!; [exact empty_runtime_ok| |vm_compute; reflexivity].
  exact (host_call_bind sample_write (λ _, mem_load_word 0) empty_runtime empty_runtime_ok).
Defined.

(** [use_state] runs its body on the given object and, whether the body
    returns or raises, restores the context that was current before: for
    boundary calls the result and the new contents are exactly those of the
    call on that object, and every other object is untouched, so two
    executions under different states cannot observe each other. *)
Theorem use_state_isolates {A} (r : ref) (m : M HostState A) (rt : Runtime) :
  (∀ (body : M Runtime A),
     (snd (use_state r body rt)).(_CURRENT_STATE) = rt.(_CURRENT_STATE)) ∧
  use_state r (host_call m) rt =
    (fst (m (deref r rt)), set_objects (<[r := snd (m (deref r rt))]> rt.(objects)) rt) ∧
  (∀ r', r' ≠ r → deref r' (snd (use_state r (host_call m) rt)) = deref r' rt).
Proof.
  assert (use_state r (host_call m) rt =
    (fst (m (deref r rt)), set_objects (<[r := snd (m (deref r rt))]> rt.(objects)) rt)) as E.
  { unfold use_state, set_state. py_step.
    rewrite (host_call_current r) by done. rewrite on_object_run. by destruct rt. }
  split_and!; [|exact E|].
  - intros body. unfold use_state. by destruct ((set_state r;; body) rt).
  - intros r' Hr. rewrite E. unfold deref. cbn. by rewrite lookup_insert_ne.
Qed.
