(* ===== verification/OperandStack.v ===== *)
(** * OperandStack: the operand and continuation stacks

    The operand-stack and frame-stack functions of [HostContract.py]. The
    interpreter threads a 64-bit cursor (the frame height) by value; the host
    owns one flat list of words and the list of frame bases. *)

From Stdlib Require Import ZArith Lia.
From stdpp Require Import base tactics option list gmap.
From S2P Require Import Prelude PyBytes OrderedDict HostTypes.

#[local] Open Scope Z_scope.

Definition _STACK_TOP_WIDTH : Z := 64.
Definition _STACK_TOP_MASK : Z := Z.shiftl 1 _STACK_TOP_WIDTH - 1.

(** [Bits(64, value & mask)], read back as an integer. *)
Definition _stack_top (value : Z) : Z := Z.land value _STACK_TOP_MASK.

Definition stack_reset_host : M Stacks Z :=
  modify (λ r, set_operand_stack_frames [] (set_operand_stack [] r));;
  mret (_stack_top 0).

Definition operand_stack_push_empty_frame_host : M Stacks Z :=
  modify (λ r, set_operand_stack_frames
    (r.(operand_stack_frames) ++ [py_len r.(operand_stack)]) r);;
  mret (_stack_top 0).

Definition operand_stack_pop_frame : M Stacks unit :=
  frames ← gets operand_stack_frames;
  match last frames with
  | None => raise (RuntimeError "cannot pop the root operand-stack frame")
  | Some base =>
      modify (set_operand_stack_frames (removelast frames));;
      modify (λ r, set_operand_stack (py_del_from r.(operand_stack) base) r)
  end.

Definition _stack_base (r : Stacks) : Z := default 0 (last r.(operand_stack_frames)).

Definition _stack_slot_position (r : Stacks) (top index : Z) : Z :=
  _stack_base r + top - 1 - index.

Definition stack_top_height_host (top : Z) : Z := top.

Definition stack_slot_read_host (top index : Z) : M Stacks Z :=
  r ← gets id;
  let position := _stack_slot_position r top index in
  if (position <? _stack_base r) || (py_len r.(operand_stack) <=? position)
  then raise (RuntimeError "operand stack slot out of range")
  else of_outcome (py_index r.(operand_stack) position).

(** [while len(stack) <= position: stack.append(0)] *)
Fixpoint append_zeros (fuel : nat) (position : Z) (stack : list Z) : list Z :=
  match fuel with
  | O => stack
  | S fuel =>
      if py_len stack <=? position then append_zeros fuel position (stack ++ [0])
      else stack
  end.

(** The loop runs once for every missing position. *)
Definition extend_stack (position : Z) (stack : list Z) : list Z :=
  append_zeros (Z.to_nat (position + 1 - py_len stack)) position stack.

Definition stack_assign (position value : Z) : M Stacks unit :=
  modify (λ r, set_operand_stack (extend_stack position r.(operand_stack)) r);;
  stack ← gets operand_stack;
  stack' ← of_outcome (py_setitem stack position value);
  modify (set_operand_stack stack').

Definition stack_slot_write_host (top index value : Z) : M Stacks unit :=
  r ← gets id;
  let position := _stack_slot_position r top index in
  if position <? _stack_base r
  then raise (RuntimeError "operand stack slot out of range")
  else stack_assign position value.

Definition stack_slot_write_next_host (top value : Z) : M Stacks unit :=
  r ← gets id;
  stack_assign (_stack_base r + top) value.

Definition stack_top_advance_host (top count : Z) : Z := _stack_top (top + count).
Definition stack_top_retreat_host (top count : Z) : Z := _stack_top (top - count).

Definition frame_stack_reset : M Stacks unit := modify (set_continuation_frames []).

Definition frame_stack_push (value : FrameContinuation) : M Stacks unit :=
  modify (λ r, set_continuation_frames (r.(continuation_frames) ++ [value]) r).

Definition frame_stack_pop : M Stacks FrameContinuation :=
  frames ← gets continuation_frames;
  match last frames with
  | None => mret Empty
  | Some value => modify (set_continuation_frames (removelast frames));; mret value
  end.
