(* ===== verification/StackTheorems.v ===== *)
(** * StackTheorems: the operand stack refines a list of words

    A cursor and the flat word storage represent the list of words of the
    active frame ([stack_repr]); the host functions implement the list
    operations on it, and whatever a child frame does leaves its parent's
    words alone. *)

From Stdlib Require Import ZArith Lia.
From stdpp Require Import base tactics option list gmap.
From S2P Require Import Prelude PyBytes OrderedDict HostTypes OperandStack.

#[local] Open Scope Z_scope.

(** ** Growing and assigning *)

Lemma append_zeros_closed fuel position stack :
  append_zeros fuel position stack =
  stack ++ replicate (fuel `min` Z.to_nat (position + 1 - py_len stack)) 0.
Proof.
  revert stack. induction fuel as [|fuel IH]; intros stack; simpl; [by rewrite app_nil_r|].
  case (Z.leb_spec (py_len stack) position); intros.
  - rewrite IH, <-app_assoc, py_len_app. cbn [app]. change (py_len [0]) with 1. f_equal.
    replace (Z.to_nat (position + 1 - py_len stack))
      with (S (Z.to_nat (position + 1 - (py_len stack + 1)))) by lia. done.
  - replace (Z.to_nat (position + 1 - py_len stack)) with 0%nat by lia. by rewrite app_nil_r.
Qed.

Lemma extend_stack_closed position stack :
  extend_stack position stack =
  stack ++ replicate (Z.to_nat (position + 1 - py_len stack)) 0.
Proof. unfold extend_stack. rewrite append_zeros_closed. f_equal. f_equal. lia. Qed.

Lemma extend_stack_len position stack :
  py_len (extend_stack position stack) = Z.max (py_len stack) (position + 1).
Proof.
  rewrite extend_stack_closed, py_len_app. unfold py_len at 2. rewrite length_replicate. lia.
Qed.

(** The storage after an assignment. *)
Definition assigned (position value : Z) (stack : list Z) : list Z :=
  <[Z.to_nat position := value]> (extend_stack position stack).

Lemma stack_assign_run position value r :
  0 <= position →
  stack_assign position value r =
  (Ok tt, set_operand_stack (assigned position value r.(operand_stack)) r).
Proof.
  intros. unfold stack_assign. py_step. cbn [operand_stack set_operand_stack].
  unfold py_setitem. rewrite py_pos_in; [done|]. rewrite extend_stack_len. lia.
Qed.

Lemma assigned_length position value stack :
  0 <= position → py_len (assigned position value stack) = Z.max (py_len stack) (position + 1).
Proof.
  intros. rewrite <-extend_stack_len. unfold py_len, assigned. by rewrite length_insert.
Qed.

Lemma take_assigned position value stack n :
  (n <= length stack)%nat → Z.of_nat n <= position →
  take n (assigned position value stack) = take n stack.
Proof.
  intros. unfold assigned. rewrite take_insert_ge by lia.
  rewrite extend_stack_closed. by rewrite take_app_le.
Qed.

Lemma lookup_assigned position value stack k :
  0 <= position → (k < length stack ∨ k = Z.to_nat position)%nat →
  assigned position value stack !! k =
  if decide (k = Z.to_nat position) then Some value else stack !! k.
Proof.
  intros Hp Hk. unfold assigned. pose proof (extend_stack_len position stack) as E.
  unfold py_len in E. case_decide as D.
  - subst. apply list_lookup_insert_eq. lia.
  - rewrite list_lookup_insert_ne by done. rewrite extend_stack_closed.
    by rewrite lookup_app_l by (destruct Hk; done).
Qed.

(** ** The list a cursor represents *)

(** [stack_repr l top r]: the words of the active frame, topmost first. *)
Definition stack_repr (l : list Z) (top : Z) (r : Stacks) : Prop :=
  top = py_len l ∧ 0 <= _stack_base r ∧
  _stack_base r + top <= py_len r.(operand_stack) ∧
  ∀ i, (i < length l)%nat →
    r.(operand_stack) !! Z.to_nat (_stack_slot_position r top (Z.of_nat i)) = l !! i.

Lemma stack_top_small z : 0 <= z < 2 ^ 64 → _stack_top z = z.
Proof.
  intros. unfold _stack_top, _STACK_TOP_MASK, _STACK_TOP_WIDTH.
  change (Z.shiftl 1 64 - 1) with (Z.ones 64).
  rewrite Z.land_ones by lia. apply Z.mod_small. lia.
Qed.

Section repr.
Context (l : list Z) (top : Z) (r : Stacks) (Hr : stack_repr l top r).

Lemma stack_repr_read i w :
  l !! i = Some w → stack_slot_read_host top (Z.of_nat i) r = (Ok w, r).
Proof using Hr.
  destruct Hr as (-> & Hb & Hl & Hi). intros Hw.
  pose proof (lookup_lt_Some _ _ _ Hw). specialize (Hi i ltac:(done)).
  unfold stack_slot_read_host. py_step. unfold id, _stack_slot_position in *.
  unfold py_len in *.
  rewrite (proj2 (Z.ltb_ge _ _)), (proj2 (Z.leb_gt _ _)) by lia.
  cbn [orb]. py_step. unfold py_index. rewrite py_pos_in by (unfold py_len; lia).
  by rewrite Hi, Hw.
Qed.

(** An index at or below the frame's bottom is refused. *)
Lemma stack_repr_read_past i :
  top <= i → stack_slot_read_host top i r =
    (Raise (RuntimeError "operand stack slot out of range"), r).
Proof using.
  intros. unfold stack_slot_read_host, _stack_slot_position. py_step. unfold id.
  by rewrite (proj2 (Z.ltb_lt _ _)) by lia.
Qed.

Lemma stack_repr_write i v :
  (i < length l)%nat →
  ∃ r', stack_slot_write_host top (Z.of_nat i) v r = (Ok tt, r') ∧
    stack_repr (<[i := v]> l) top r'.
Proof using Hr.
  destruct Hr as (-> & Hb & Hl & Hi). intros Hil. unfold stack_slot_write_host.
  py_step. unfold id. unfold py_len in *.
  rewrite (proj2 (Z.ltb_ge _ _)) by (unfold _stack_slot_position; lia).
  rewrite stack_assign_run by (unfold _stack_slot_position; lia).
  eexists. split; [done|].
  unfold stack_repr, _stack_slot_position, py_len, _stack_base in *. cbn in *.
  rewrite length_insert. split_and!; [done|done| |].
  - pose proof (assigned_length (default 0 (last (operand_stack_frames r)) +
      Z.of_nat (length l) - 1 - Z.of_nat i) v (operand_stack r) ltac:(lia)) as E.
    unfold py_len in E. lia.
  - intros j Hj. rewrite lookup_assigned by lia. case_decide as D.
    + assert (j = i) as -> by lia. by rewrite list_lookup_insert_eq.
    + rewrite list_lookup_insert_ne by (intros ->; done). by apply Hi.
Qed.

Lemma stack_repr_push v :
  py_len l + 1 < 2 ^ 64 →
  ∃ r', stack_slot_write_next_host top v r = (Ok tt, r') ∧
    stack_repr (v :: l) (stack_top_advance_host top 1) r'.
Proof using Hr.
  destruct Hr as (-> & Hb & Hl & Hi). intros Hlen. unfold stack_slot_write_next_host.
  py_step. unfold id. pose proof (py_len_nonneg l).
  rewrite stack_assign_run by lia. eexists. split; [done|].
  unfold stack_top_advance_host. rewrite stack_top_small by lia.
  unfold stack_repr, _stack_slot_position, _stack_base in *. cbn in *.
  split_and!; [unfold py_len; cbn; lia|done|rewrite assigned_length; lia|].
  intros j Hj. cbn in Hj. unfold py_len in *. rewrite lookup_assigned by lia. case_decide as D.
  - by assert (j = 0%nat) as -> by lia.
  - destruct j as [|j]; [exfalso; lia|]. cbn. rewrite <-Hi by lia. f_equal. lia.
Qed.

Lemma stack_repr_drop n :
  (n <= length l)%nat → py_len l < 2 ^ 64 →
  stack_repr (drop n l) (stack_top_retreat_host top (Z.of_nat n)) r.
Proof using Hr.
  destruct Hr as (-> & Hb & Hl & Hi). intros Hn Hlen.
  unfold stack_top_retreat_host. unfold py_len in *.
  rewrite stack_top_small by lia.
  unfold stack_repr, _stack_slot_position, _stack_base, py_len in *. rewrite length_drop.
  split_and!; [lia|done|lia|]. intros j Hj. rewrite lookup_drop, <-Hi by lia.
  f_equal. lia.
Qed.
End repr.

(** the operand stack implements a stack of words. While a cursor
    represents a list of fewer than 2^64 - 1 words: a read at depth [i] gives
    the [i]-th word and a read past the frame's words raises; a write at depth [i] replaces that word; write-next followed
    by advance pushes; retreat drops. None of the calls fails inside the
    frame. *)
Theorem stack_refines_list (l : list Z) (top : Z) (r : Stacks) :
  stack_repr l top r → py_len l + 1 < 2 ^ 64 →
  (∀ i w, l !! i = Some w → stack_slot_read_host top (Z.of_nat i) r = (Ok w, r)) ∧
  (∀ i, py_len l <= i → stack_slot_read_host top i r =
     (Raise (RuntimeError "operand stack slot out of range"), r)) ∧
  (∀ i v, (i < length l)%nat → ∃ r',
     stack_slot_write_host top (Z.of_nat i) v r = (Ok tt, r') ∧ stack_repr (<[i:=v]> l) top r') ∧
  (∀ v, ∃ r', stack_slot_write_next_host top v r = (Ok tt, r') ∧
     stack_repr (v :: l) (stack_top_advance_host top 1) r') ∧
  (∀ n, (n <= length l)%nat →
     stack_repr (drop n l) (stack_top_retreat_host top (Z.of_nat n)) r).
Proof.
  intros Hr Hlen. split_and!.
  - by apply stack_repr_read.
  - intros. apply stack_repr_read_past. destruct Hr as [-> _]. lia.
  - by apply stack_repr_write.
  - intros. by apply stack_repr_push.
  - intros. apply stack_repr_drop; [done..|lia].
Qed.

Lemma stack_refines_list_witness :
  let r := mkStacks [9; 1; 2] [1] [] in
  stack_repr [2; 1] 2 r ∧ stack_slot_read_host 2 1 r = (Ok 1, r).
Proof.
  cbv zeta. assert (H : stack_repr [2; 1] 2 (mkStacks [9; 1; 2] [1] [])).
  { split_and!; [reflexivity|unfold _stack_base, py_len; cbn; lia..|]. intros [|[|i]]; cbn; (reflexivity || lia). }
  split; [exact H|].
  destruct (stack_refines_list _ _ _ H ltac:(reflexivity)) as [Hread _].
  exact (Hread 1%nat 1 eq_refl).
Defined.

(** ** Frames *)

(** What a frame can do between being entered and being left: writes through
    any cursor, and nested frames that are entered and left. *)
Inductive frame_body : Stacks → Stacks → Prop :=
| body_done r : frame_body r r
| body_write top index v r r1 r2 :
    stack_slot_write_host top index v r = (Ok tt, r1) →
    frame_body r1 r2 → frame_body r r2
| body_write_next top v r r1 r2 :
    0 <= top → stack_slot_write_next_host top v r = (Ok tt, r1) →
    frame_body r1 r2 → frame_body r r2
| body_call r r1 r2 r3 r4 top :
    operand_stack_push_empty_frame_host r = (Ok top, r1) →
    frame_body r1 r2 → operand_stack_pop_frame r2 = (Ok tt, r3) →
    frame_body r3 r4 → frame_body r r4.

(** The active frame lies inside the storage. *)
Definition frame_ok (r : Stacks) : Prop :=
  0 <= _stack_base r <= py_len r.(operand_stack).

(** What a frame's body preserves: the frames, the words below its base, and
    that the storage still covers them. *)
Definition keeps_parent (r r' : Stacks) : Prop :=
  r'.(operand_stack_frames) = r.(operand_stack_frames) ∧
  r'.(continuation_frames) = r.(continuation_frames) ∧
  py_len r.(operand_stack) <= py_len r'.(operand_stack) ∧
  take (Z.to_nat (_stack_base r)) r'.(operand_stack) =
  take (Z.to_nat (_stack_base r)) r.(operand_stack).

#[local] Instance keeps_parent_refl : Reflexive keeps_parent.
Proof. intros r. by split_and!. Qed.

#[local] Instance keeps_parent_trans : Transitive keeps_parent.
Proof.
  intros r1 r2 r3 (H1 & H2 & H3 & H4) (K1 & K2 & K3 & K4).
  unfold keeps_parent, _stack_base in *. rewrite H1 in *. split_and!; (congruence || lia).
Qed.

Lemma keeps_parent_ok r r' : keeps_parent r r' → frame_ok r → frame_ok r'.
Proof. intros (H1 & _ & H3 & _). unfold frame_ok, _stack_base. rewrite H1. lia. Qed.

Lemma assign_keeps_parent position v r :
  frame_ok r → _stack_base r <= position →
  keeps_parent r (set_operand_stack (assigned position v r.(operand_stack)) r).
Proof.
  unfold frame_ok, keeps_parent. cbn. intros Hr Hp. split_and!; [done..| |].
  - rewrite assigned_length; lia.
  - apply take_assigned; unfold py_len in *; lia.
Qed.

Lemma push_frame_run r :
  operand_stack_push_empty_frame_host r =
  (Ok 0, mkStacks r.(operand_stack) (r.(operand_stack_frames) ++ [py_len r.(operand_stack)])
    r.(continuation_frames)).
Proof. reflexivity. Qed.

(** Leaving a frame whose body kept its parent restores the parent. *)
Lemma pop_frame_restores r r1 r2 r3 top :
  operand_stack_push_empty_frame_host r = (Ok top, r1) →
  keeps_parent r1 r2 → operand_stack_pop_frame r2 = (Ok tt, r3) → r3 = r.
Proof.
  rewrite push_frame_run. intros [= _ <-] (H1 & H2 & H3 & H4).
  destruct r as [stk frames conts], r2 as [stk2 frames2 conts2].
  unfold _stack_base in H4. cbn in *. subst.
  rewrite last_snoc in H4. cbn in H4. unfold operand_stack_pop_frame. py_step. cbn.
  rewrite last_snoc, removelast_last. py_step. unfold set_operand_stack. cbn.
  intros [= <-]. f_equal. unfold py_del_from.
  rewrite slice_bound_in by (unfold py_len in *; lia).
  rewrite H4. unfold py_len. by rewrite Nat2Z.id, take_ge.
Qed.

Lemma frame_body_keeps_parent r r' : frame_body r r' → frame_ok r → keeps_parent r r'.
Proof.
  induction 1 as [r|top index v r r1 r2 Hw Hb IH|top v r r1 r2 Ht Hw Hb IH
    |r r1 r2 r3 r4 top Hpush Hb IHb Hpop Hb' IHb']; intros Hok; [done| | |].
  - unfold stack_slot_write_host in Hw. revert Hw. py_step. unfold id.
    case (Z.ltb_spec (_stack_slot_position r top index) (_stack_base r)); [done|intros Hp].
    destruct Hok as [Hb0 Hb1]. rewrite stack_assign_run by lia. intros [= <-].
    pose proof (assign_keeps_parent _ v _ (conj Hb0 Hb1) Hp) as Hk.
    etrans; [exact Hk|]. eapply IH, keeps_parent_ok; done.
  - unfold stack_slot_write_next_host in Hw. revert Hw. py_step. unfold id.
    pose proof Hok as [Hb0 Hb1]. rewrite stack_assign_run by lia. intros [= <-].
    assert (Hp : _stack_base r <= _stack_base r + top) by lia.
    pose proof (assign_keeps_parent _ v _ Hok Hp) as Hk.
    etrans; [exact Hk|]. eapply IH, keeps_parent_ok; done.
  - assert (Hk : keeps_parent r1 r2).
    { apply IHb. rewrite push_frame_run in Hpush. injection Hpush as _ <-.
      unfold frame_ok, _stack_base. cbn. rewrite last_snoc. cbn.
      pose proof (py_len_nonneg (operand_stack r)). lia. }
    pose proof (pop_frame_restores _ _ _ _ _ Hpush Hk Hpop) as ->. by apply IHb'.
Qed.

(** C36: frames isolate their operands. Whatever a child frame writes, at any
    cursor and through any depth of nested frames, leaving it succeeds and
    restores exactly the parent's words and frames; only leaving the root
    frame is refused. *)
Theorem frame_isolation (r r1 r2 : Stacks) (top : Z) :
  operand_stack_push_empty_frame_host r = (Ok top, r1) →
  frame_body r1 r2 →
  operand_stack_pop_frame r2 = (Ok tt, r) ∧
  (operand_stack_frames r = [] → operand_stack_pop_frame r =
    (Raise (RuntimeError "cannot pop the root operand-stack frame"), r)).
Proof.
  intros Hpush Hb. split.
  - assert (Hok : frame_ok r1).
    { rewrite push_frame_run in Hpush. injection Hpush as _ <-.
      unfold frame_ok, _stack_base. cbn. rewrite last_snoc. cbn.
      pose proof (py_len_nonneg (operand_stack r)). lia. }
    pose proof (frame_body_keeps_parent _ _ Hb Hok) as Hk.
    destruct (operand_stack_pop_frame r2) as [o r3] eqn:E.
    assert (o = Ok tt) as ->.
    { revert E. unfold operand_stack_pop_frame. py_step.
      destruct Hk as (-> & _). rewrite push_frame_run in Hpush.
      injection Hpush as _ <-. cbn. rewrite last_snoc. py_step. congruence. }
    by rewrite (pop_frame_restores _ _ _ _ _ Hpush Hk E).
  - intros Hf. unfold operand_stack_pop_frame. py_step. by rewrite Hf.
Qed.

Lemma frame_isolation_witness :
  let r := mkStacks [4; 5] [] [] in
  ∃ r2, frame_body (mkStacks [4; 5] [2] []) r2 ∧ r2.(operand_stack) = [4; 5; 0; 7] ∧
    operand_stack_pop_frame r2 = (Ok tt, r).
Proof.
  cbv zeta. exists (mkStacks [4; 5; 0; 7] [2] []).
  assert (Hb : frame_body (mkStacks [4; 5] [2] []) (mkStacks [4; 5; 0; 7] [2] [])).
  { eapply (body_write_next 1 7); [lia|reflexivity|]. apply body_done. }
  split; [exact Hb|]. split; [reflexivity|].
  exact (proj1 (frame_isolation (mkStacks [4; 5] [] []) _ _ 0 eq_refl Hb)).
Defined.

(** the continuation stack is last-in first-out and total: a pop returns
    the continuation pushed last and restores the stack, and popping the
    empty stack returns [Empty] without failing. *)
Theorem frame_stack_lifo (c : FrameContinuation) (r : Stacks) :
  (let '(_, r1) := frame_stack_push c r in frame_stack_pop r1 = (Ok c, r)) ∧
  (continuation_frames r = [] → frame_stack_pop r = (Ok Empty, r)).
Proof.
  split.
  - destruct r as [stk frames conts]. unfold frame_stack_push, frame_stack_pop. py_step. cbn.
    rewrite last_snoc. cbn. unfold set_continuation_frames. cbn. by rewrite removelast_last.
  - intros H. unfold frame_stack_pop. py_step. by rewrite H.
Qed.

Lemma frame_stack_lifo_witness :
  frame_stack_pop (mkStacks [] [] []) = (Ok Empty, mkStacks [] [] []).
Proof. exact (proj2 (frame_stack_lifo Empty (mkStacks [] [] [])) eq_refl). Defined.
