(* ===== verification/Environment.v ===== *)
(** * Environment: the registers of the specification

    [kernel/environment.py] with the header of [primitives/block.py] and the
    transaction environment of [primitives/evm.py]. The specification keeps
    its registers in module globals beside the host; [SpecState] is all of
    them. *)

From Stdlib Require Import ZArith Lia.
From stdpp Require Import base tactics option list.
From S2P Require Import Prelude PyBytes HostTypes SailRuntime Words ChainConfig Regions RegionAccess Gas CodeDb Storage.
Local Open Scope Z_scope.

(** ** Blocks and transactions *)

Record BlockHeader : Type := mkBlockHeader {
  bh_number : Z;
  bh_timestamp : Z;
  bh_gas_limit : Z;
  bh_gas_used : Z;
  bh_prev_randao : Z;
  bh_base_fee : Z;
  bh_blob_gas_used : Z;
  bh_excess_blob_gas : Z;
  bh_state_root : hash;
  bh_receipts_root : hash;
  bh_logs_bloom : Slice;
  bh_fee_recipient : address;
  bh_parent_hash : hash;
  bh_parent_beacon_block_root : hash;
  bh_slot_number : Z;
  bh_extra_data : Slice;
}.

(** [BlobHashesFields]: the encoded hashes and how many they are. *)
Record BlobHashesFields : Type := mkBlobHashes { blob_bytes : Slice; blob_count : Z }.
Definition EMPTY_BLOB_HASHES : BlobHashesFields := mkBlobHashes EMPTY_STATELESS_INPUT_SLICE 0.

Record TxEnvFields : Type := mkTxEnv {
  tx_origin : address;
  tx_gas_price : Z;
  blob_hashes : BlobHashesFields;
}.

(** ** The registers *)

Definition ZERO_HASH : hash := zeros 32.
Definition ZERO_ADDRESS : address := zeros 20.

(** The profile of the newest fork, as [schema_protocol_profile] gives it. *)
Definition DEFAULT_PROTOCOL_PROFILE : ProtocolProfileFields :=
  mkProtocolProfile Amsterdam (mkBlobSchedule 14 21 11684671)
    (compute_profile_excess_blob_gas_limit Amsterdam 14 21 11684671)
    65536 131072 U64_MAX (2 ^ 24) 6 5.
Definition DEFAULT_EXECUTION_PROFILE : ExecutionProfileFields :=
  mkExecutionProfile DEFAULT_PROTOCOL_PROFILE (mkGasLimits 0 0 0 SYSTEM_CALL_GAS_LIMIT 0).

Record Environment : Type := mkEnvironment {
  k_parent_state_root : hash;
  k_n_headers : Z;
  k_chain_id : Z;
  k_execution_profile : ExecutionProfileFields;
  k_header : BlockHeader;
  k_tx : TxEnvFields;
  k_current_transaction_epoch : Z;
}.

Definition initial_environment : Environment := mkEnvironment
  ZERO_HASH 0 1 DEFAULT_EXECUTION_PROFILE
  (mkBlockHeader 0 0 0 0 0 0 0 0 ZERO_HASH ZERO_HASH (mkSlice 0 256) ZERO_ADDRESS ZERO_HASH
     ZERO_HASH 0 EMPTY_STATELESS_INPUT_SLICE)
  (mkTxEnv ZERO_ADDRESS 0 EMPTY_BLOB_HASHES) 0.

(** Everything the specification runs on. *)
Record SpecState : Type := mkSpec {
  sp_host : HostState;
  sp_env : Environment;
  scratch_arena : Slice;
}.

#[export, program] Instance spec_host : Component SpecState HostState := {|
  view := sp_host;
  put h s := mkSpec h s.(sp_env) s.(scratch_arena);
|}.
Next Obligation. done. Qed.
Next Obligation. by intros []. Qed.
Next Obligation. done. Qed.

Definition set_env (e : Environment) (s : SpecState) : SpecState :=
  mkSpec s.(sp_host) e s.(scratch_arena).

(** A call of a component of the host. *)
Definition on_host {C A} `{Component HostState C} (m : M C A) : M SpecState A := zoom (zoom m).

(** The active protocol profile. *)
Definition profile_of (s : SpecState) : ProtocolProfileFields :=
  s.(sp_env).(k_execution_profile).(protocol).
Definition get_profile : M SpecState ProtocolProfileFields := gets profile_of.

(** A failed assertion. *)
Definition sail_assert {S} (ok : bool) (msg : string) : M S unit :=
  if ok then mret tt else raise (SailError msg).

(** A byte count as a word; a larger one fails the assertion. *)
Definition word_of_nat_byte_count (value : Z) : outcome Z :=
  if value <? Z.shiftl 1 256 then w ← u256 value; word w
  else Raise (SailError "sail/primitives/quantities.sail:615.20-615.21").

(** ** Reading the environment *)

Inductive EnvField : Type :=
| F_Number | F_Timestamp | F_Coinbase | F_BaseFee | F_ChainId | F_GasLimit | F_PrevRandao
| F_Origin | F_GasPrice | F_SlotNumber.

(** An unbounded unsigned register as a word. *)
Definition word_of_uint (v : Z) : outcome Z := n ← Uint v; w ← u256 n; word w.

Definition k_env (f : EnvField) : M SpecState Z :=
  e ← gets sp_env;
  let header := e.(k_header) in
  of_outcome
    match f with
    | F_Number => word_of_uint header.(bh_number)
    | F_Timestamp => word_of_uint header.(bh_timestamp)
    | F_Coinbase => w ← address_to_word header.(bh_fee_recipient); word w
    | F_BaseFee => word header.(bh_base_fee)
    | F_ChainId => word_of_uint e.(k_chain_id)
    | F_GasLimit => w ← u256 header.(bh_gas_limit); word w
    | F_PrevRandao => word header.(bh_prev_randao)
    | F_Origin => w ← address_to_word e.(k_tx).(tx_origin); word w
    | F_GasPrice => word e.(k_tx).(tx_gas_price)
    | F_SlotNumber => word_of_uint header.(bh_slot_number)
    end.

Definition k_coinbase : M SpecState address :=
  reads (λ s, Bytes20 s.(sp_env).(k_header).(bh_fee_recipient)).

Definition blockhash_word_distance (current number : Z) : outcome Z :=
  BoundedUint 1 (2 ^ 256 - 1) (current - number).

Definition k_blockhash (number_word : Z) : M SpecState hash :=
  e ← gets sp_env;
  current_number ← of_outcome (Uint e.(k_header).(bh_number));
  current_word ← of_outcome (u256 current_number);
  if number_word <? current_word then
    distance_word ← of_outcome (blockhash_word_distance current_word number_word);
    if distance_word <=? 256 then
      if e.(k_n_headers) <? distance_word then of_outcome fatal_error
      else h ← on_host (ancestor_hash_read (distance_word - 1)); of_outcome (Bytes32 h)
    else of_outcome (Bytes32 ZERO_HASH)
  else of_outcome (Bytes32 ZERO_HASH).

Definition k_blobhash (index_word : Z) : M SpecState Z :=
  e ← gets sp_env;
  let hashes := e.(k_tx).(blob_hashes) in
  if index_word <? hashes.(blob_count) then
    v ← zoom (stateless_input_slice_load_n hashes.(blob_bytes) (33 * index_word + 1) WORD_BYTE_LENGTH);
    of_outcome (word v)
  else of_outcome (word ZERO_WORD).

(** [k_set_header] and [k_set_tx] of [kernel/lifecycle.py] *)
Definition k_set_header (h : BlockHeader) : M SpecState unit :=
  modify (λ s, let e := s.(sp_env) in set_env (mkEnvironment e.(k_parent_state_root)
    e.(k_n_headers) e.(k_chain_id) e.(k_execution_profile) h e.(k_tx)
    e.(k_current_transaction_epoch)) s).
Definition k_set_tx (t : TxEnvFields) : M SpecState unit :=
  modify (λ s, let e := s.(sp_env) in set_env (mkEnvironment e.(k_parent_state_root)
    e.(k_n_headers) e.(k_chain_id) e.(k_execution_profile) e.(k_header) t
    e.(k_current_transaction_epoch)) s).

Example default_profile : schema_protocol_profile (bits_of 8 0x15) = Ok DEFAULT_PROTOCOL_PROFILE.
Proof. by vm_compute. Qed.
Example default_execution_profile :
  execution_profile_for DEFAULT_PROTOCOL_PROFILE 0 = Ok DEFAULT_EXECUTION_PROFILE.
Proof. by vm_compute. Qed.
