(* ===== verification/Scratch.v ===== *)
(** * Scratch: the registers of the specification and the scratch arena

    [kernel/scratch.py] with the conversions of [primitives/quantities.py] it
    needs. The register [scratch_arena] is the slice of the host's scratch
    region written so far. Every push stores at its end, so the arena is an append-only buffer
    that can be rewound to an earlier mark. *)

From Stdlib Require Import ZArith Lia Strings.Byte.
From stdpp Require Import base tactics option list.
From S2P Require Import Prelude PyBytes SailRuntime HostTypes Words WordTheorems WordBits ChainConfig Regions RegionAccess Gas RegionFacts Environment.
Local Open Scope Z_scope.

(** ** The register *)

Definition set_arena (a : Slice) : M SpecState unit := modify (λ s, mkSpec s.(sp_host) s.(sp_env) a).
Definition get_arena : M SpecState Slice := gets scratch_arena.

(** ** The arena *)

Definition scratch_length_add (left right : Z) : outcome Z :=
  if right <=? (Z.shiftl 1 32 - 1) - left then code_length (left + right)
  else Raise (SailError "scratch length overflow").

Definition scratch_begin : M SpecState Z :=
  arena ← get_arena; of_outcome (code_length arena.(sl_len)).

Definition scratch_reserve (sail_len : Z) : M SpecState Z :=
  arena ← get_arena;
  reserved ← zoom (host_scratch_reserve arena.(sl_len) sail_len);
  sail_assert reserved "scratch reserve";;
  of_outcome (code_length arena.(sl_len)).

(** A store at the end of the arena, whose result is the new arena. *)
Definition push (store : Z → M HostState Slice) : M SpecState unit :=
  arena ← get_arena; arena' ← zoom (store arena.(sl_len)); set_arena arena'.

Definition scratch_push_byte (data : Z) : M SpecState unit :=
  push (λ off, host_scratch_store_byte off data).

Definition push_slice (kind : RegionKind) (data : Slice) : M SpecState unit :=
  if negb (data.(sl_len) =? 0) then push (λ off, host_scratch_store_from kind off data)
  else mret tt.
Definition stateless_input_scratch_push_slice := push_slice RInput.
Definition scratch_scratch_push_slice := push_slice RScratch.
Definition log_data_scratch_push_slice := push_slice RLog.
Definition output_scratch_push_slice := push_slice ROutput.

Definition scratch_push_address (data : address) : M SpecState unit :=
  push (λ off, host_scratch_store_address off data).

Definition scratch_push_b256 (data : hash) (sail_len : Z) : M SpecState unit :=
  if negb (sail_len =? 0) then push (λ off, host_scratch_store_b256 off data sail_len)
  else mret tt.

Definition scratch_push_fixed_bytes_256 (data : bytes) : M SpecState unit :=
  push (λ off, host_scratch_store_fixed_bytes_256 off data).

Definition scratch_push_word_be (data sail_len : Z) : M SpecState unit :=
  if negb (sail_len =? 0) then push (λ off, host_scratch_store_word off data sail_len)
  else mret tt.

Definition scratch_finish (start : Z) : M SpecState Slice :=
  arena ← get_arena;
  if start <=? arena.(sl_len)
  then of_outcome (scratch_sub_slice arena start (arena.(sl_len) - start))
  else raise (SailError "scratch finish mark").

Definition scratch_rewind (mark : Z) : M SpecState unit :=
  arena ← get_arena;
  if mark <=? arena.(sl_len) then
    arena' ← of_outcome (scratch_sub_slice arena 0 mark);
    set_arena arena';; zoom (host_scratch_truncate mark)
  else raise (SailError "scratch rewind mark").

Definition scratch_reset : M SpecState unit :=
  set_arena EMPTY_SCRATCH_SLICE;; zoom (host_scratch_truncate 0).

Definition initial_spec : SpecState := mkSpec initial_state initial_environment EMPTY_SCRATCH_SLICE.

(** ** The arena as a buffer *)

Definition SCRATCH_LIMIT : Z := 2 ^ 32 - 1.

(** The bytes written so far. *)
Definition arena (st : SpecState) : bytes := slice_data RScratch st.(scratch_arena) st.(sp_host).

Definition arena_wf (st : SpecState) : Prop :=
  st.(scratch_arena).(sl_bytes) = 0 ∧ slice_in RScratch st.(scratch_arena) st.(sp_host).

(** [appends p st st']: the arena has grown by [p] and nothing else of the
    host has changed. *)
Definition appends (p : bytes) (st st' : SpecState) : Prop :=
  arena_wf st' ∧ arena st' = arena st ++ p ∧
  ∃ b, st'.(sp_host) =
       set_regions (set_scratch_bytes b st.(sp_host).(regions)) st.(sp_host).

(** A call that returns [a] after growing the arena by [p]. *)
Definition writes {A} (m : M SpecState A) (st : SpecState) (p : bytes) (a : A) : Prop :=
  ∃ st', m st = (Ok a, st') ∧ appends p st st'.

(** The arena has room for [p]. *)
Definition room (st : SpecState) (n : Z) : Prop := py_len (arena st) + n <= SCRATCH_LIMIT.

Lemma arena_len st : arena_wf st → py_len (arena st) = st.(scratch_arena).(sl_len).
Proof. intros [_ H]. by apply slice_data_length. Qed.

Lemma arena_take st :
  arena_wf st →
  arena st = take (Z.to_nat st.(scratch_arena).(sl_len)) (region_of RScratch st.(sp_host)).
Proof.
  intros [H0 H]. unfold arena. rewrite slice_data_take by done. by rewrite H0, drop_0.
Qed.

Lemma appends_refl st : arena_wf st → appends [] st st.
Proof.
  intros H. split; [done|]. rewrite app_nil_r. split; [done|].
  exists st.(sp_host).(regions).(scratch_bytes). by destruct st as [[[]]].
Qed.

Lemma appends_trans p q st st' st'' :
  appends p st st' → appends q st' st'' → appends (p ++ q) st st''.
Proof.
  intros (Hw & Ha & b & Hb) (Hw' & Ha' & b' & Hb'). split; [done|]. split.
  - by rewrite Ha', Ha, app_assoc.
  - exists b'. by rewrite Hb', Hb.
Qed.

Lemma appends_room p q st st' : appends p st st' → room st (py_len p + q) ↔ room st' q.
Proof. intros (_ & E & _). unfold room. rewrite E, py_len_app. lia. Qed.

(** Regions other than the scratch region are as before. *)
Lemma appends_region kind p st st' :
  kind ≠ RScratch → appends p st st' →
  region_of kind st'.(sp_host) = region_of kind st.(sp_host).
Proof. intros Hk (_ & _ & b & ->). by destruct kind. Qed.

Lemma writes_bind {A B} (m : M SpecState A) (f : A → M SpecState B) st p q a b :
  writes m st p a → (∀ st', appends p st st' → writes (f a) st' q b) →
  writes (m ≫= f) st (p ++ q) b.
Proof.
  intros (st' & Hm & Ha) Hf. destruct (Hf st' Ha) as (st'' & Hf' & Ha').
  exists st''. rewrite bind_run, Hm. split; [done|]. by eapply appends_trans.
Qed.

Lemma writes_ret {A} (a : A) st : arena_wf st → writes (mret a) st [] a.
Proof. intros H. exists st. split; [done|by apply appends_refl]. Qed.

(** What is stored at the end of the arena is appended to it. *)
Lemma push_store (store : Z → M HostState Slice) st p :
  arena_wf st → room st (py_len p) →
  (∀ off, store off st.(sp_host) = _scratch_store off p st.(sp_host)) →
  writes (push store) st p tt.
Proof.
  intros Hw Hr Hs. pose proof (arena_len _ Hw) as Hl. pose proof Hw as [H0 Hin].
  destruct st as [h env [o n]]. cbn [sp_host scratch_arena sl_bytes sl_len] in *. subst o.
  unfold room in Hr. rewrite Hl in Hr. unfold SCRATCH_LIMIT in Hr.
  pose proof (py_len_nonneg p). destruct Hin as (_ & Hn & Hin & _). cbn in Hn, Hin.
  exists (mkSpec (set_regions (set_scratch_bytes
    (write_at (scratch_bytes (regions h)) n p) (regions h)) h) env (mkSlice 0 (n + py_len p))).
  split.
  { unfold push, get_arena, set_arena. py_step. rewrite zoom_run. cbn [view spec_host sp_host].
    rewrite Hs. unfold _scratch_store, modify_regions. py_step. rewrite zoom_run. cbn.
    unfold scratch_slice, checked_slice, region_valid_range.
    rewrite !(proj2 (Z.leb_le _ _)) by lia. cbn.
    by rewrite (splice_ensure_write _ n (py_len p) p eq_refl). }
  assert (arena_wf (mkSpec (set_regions (set_scratch_bytes
    (write_at (scratch_bytes (regions h)) n p) (regions h)) h) env (mkSlice 0 (n + py_len p)))) as Hw'.
  { split; [done|]. split_and!; cbn; try lia. rewrite write_at_length; lia. }
  split; [done|]. split; [|by eexists].
  rewrite !arena_take by done. cbn [scratch_arena sl_len sp_host region_of]. cbn.
  apply list_eq_same_length with (length (take (Z.to_nat n) (scratch_bytes (regions h)) ++ p)).
  - done.
  - rewrite length_app, !length_take. pose proof (write_at_length (scratch_bytes (regions h)) n p Hn).
    unfold py_len in *. lia.
  - intros i x y Hi Hx Hy.
    rewrite lookup_take_Some in Hx. destruct Hx as [Hx Hxi].
    assert (mem_at (write_at (scratch_bytes (regions h)) n p) (Z.of_nat i) = x) as <-.
    { unfold mem_at. by rewrite Nat2Z.id, Hx. }
    rewrite mem_at_write by lia. unfold py_len in *. case_decide as Hd.
    + rewrite lookup_app_r in Hy; rewrite ?length_take in *; [|lia].
      unfold mem_at. replace (Z.to_nat (Z.of_nat i - n)) with
        (i - Z.to_nat n `min` length (scratch_bytes (regions h)))%nat by lia. by rewrite Hy.
    + rewrite lookup_app_l in Hy by (rewrite length_take; lia).
      apply lookup_take_Some in Hy as [Hy _]. unfold mem_at. by rewrite Nat2Z.id, Hy.
Qed.
