(* ===== verification/Rlp.v ===== *)
(** * Rlp: the encoding of byte strings and lists

    [lib/rlp/encoding.py] and [lib/rlp/decoding.py] with the field references
    of [primitives/rlp.py]. An encoder writes its prefix and its payload at the
    end of the scratch arena; a decoder reads a header from a slice of the
    input or of the arena and gives back references into it. The two copies of
    each decoder, one for each region, are one definition here. A byte is an
    integer. *)

From Stdlib Require Import ZArith Lia Strings.Byte.
From stdpp Require Import base tactics option list.
From S2P Require Import Prelude PyBytes HostTypes SailRuntime Words ChainConfig Regions RegionAccess Gas Environment Scratch.
Local Open Scope Z_scope.

Definition RLP_SHORT_LENGTH_LIMIT : Z := 55.
Definition RLP_WORD_LENGTH_LIMIT : Z := WORD_BYTE_LENGTH.
Definition RLP_UINT64_LENGTH_LIMIT : Z := EIGHT_BYTE_LENGTH.
Definition RLP_ENCODED_WORD_LENGTH : Z := 33.
Definition RLP_ENCODED_ADDRESS_LENGTH : Z := 21.

(** [Bits(8, value >> 0)] *)
Definition low_byte (value : Z) : Z := (bits_of 8 value).(SailRuntime.value).
(** [Bits(8, marker) + length_byte] *)
Definition marked (marker length_byte : Z) : Z := low_byte (marker + length_byte).
(** [sail_vector_access(first, 7, False) == Bits(1, 0b0)] *)
Definition high_bit_clear (first : Z) : bool := negb (Z.testbit first 7).

(** ** Sizes *)

Definition rlp_scratch_length (v : Z) : outcome Z := Uint v.
Definition rlp_scratch_small_length (value : Z) : outcome Z := rlp_scratch_length value.

Definition rlp_scratch_length_add (left right : Z) : outcome Z :=
  if right <=? (Z.shiftl 1 32 - 1) - left then rlp_scratch_length (left + right) else fatal_error.

Definition rlp_nat_length_byte (value : Z) : Z := low_byte value.
Definition rlp_byte_length_byte (value : Z) : outcome Z :=
  if value <=? 255 then Ok (low_byte value)
  else Raise (SailError "sail/lib/rlp/encoding.sail:75.23-75.24").

Definition rlp_length_word (value : Z) : outcome Z := w ← word_of_nat_byte_count value; word w.
Definition rlp_minimal_word_len (w : Z) : outcome Z := n ← word_byte_length w; BoundedUint 0 32 n.
Definition rlp_natural_increment (value : Z) : Z := value + 1.

(** The recursion of [rlp_minimal_uint_len], with fuel for each byte. *)
Fixpoint minimal_uint_len (fuel : nat) (n : Z) : outcome Z :=
  match fuel with
  | O => Raise (RuntimeError "maximum recursion depth exceeded")
  | S fuel' =>
      if n =? 0 then Uint 0
      else
        quotient ← sail_ediv_int n 256;
        remaining_length ← minimal_uint_len fuel' quotient;
        Uint (rlp_natural_increment remaining_length)
  end.
Definition rlp_minimal_uint_len (n : Z) : outcome Z :=
  minimal_uint_len (S (Z.to_nat (bit_length n))) n.

Definition rlp_length_prefix_len (sail_len : Z) : outcome Z :=
  if sail_len <=? RLP_SHORT_LENGTH_LIMIT then BoundedUint 1 33 1
  else
    length_word ← rlp_length_word sail_len;
    n ← rlp_minimal_word_len length_word; BoundedUint 1 33 (1 + n).

Definition rlp_string_size (sail_len first : Z) : outcome Z :=
  if (sail_len =? 1) && high_bit_clear first then Uint 1
  else p ← rlp_length_prefix_len sail_len; Uint (p + sail_len).

(** The first byte of a slice, zero when it is empty. *)
Definition first_byte (kind : RegionKind) (data : Slice) : M HostState Z :=
  if data.(sl_len) =? 0 then mret 0 else slice_byte (_region_byte kind) data 0.

Definition rlp_input_slice_size (data : Slice) : M HostState Z :=
  first ← first_byte RInput data; of_outcome (n ← rlp_string_size data.(sl_len) first; Uint n).

Definition rlp_materialized_slice_size (length first : Z) : outcome Z :=
  if (length =? 1) && high_bit_clear first then rlp_scratch_length 1
  else
    prefix_size ← rlp_length_prefix_len length;
    prefix_length ← rlp_scratch_small_length prefix_size;
    n ← rlp_scratch_length_add length prefix_length; rlp_scratch_length n.

Definition materialized_size (kind : RegionKind) (data : Slice) : M HostState Z :=
  first ← first_byte kind data;
  of_outcome (n ← rlp_materialized_slice_size data.(sl_len) first; rlp_scratch_length n).
Definition rlp_scratch_region_size := materialized_size RScratch.
Definition rlp_log_data_size := materialized_size RLog.
Definition rlp_input_scratch_slice_size := materialized_size RInput.
Definition rlp_scratch_scratch_slice_size (data : Slice) : M HostState Z :=
  n ← rlp_scratch_region_size data; of_outcome (rlp_scratch_length n).
Definition rlp_log_scratch_slice_size (data : Slice) : M HostState Z :=
  n ← rlp_log_data_size data; of_outcome (rlp_scratch_length n).

Definition rlp_uint_word_size (w : Z) : outcome Z :=
  sail_len ← rlp_minimal_word_len w;
  let first := if sail_len =? 1 then low_byte w else 0 in
  if (sail_len =? 1) && high_bit_clear first then BoundedUint 1 33 1
  else BoundedUint 1 33 (1 + sail_len).

Definition rlp_uint_nat_size (n : Z) : outcome Z :=
  if n <? Z.shiftl 1 256 then w ← u256 n; size ← rlp_uint_word_size w; Uint size
  else
    sail_len ← rlp_minimal_uint_len n;
    if sail_len <=? RLP_SHORT_LENGTH_LIMIT then Uint (1 + sail_len)
    else length_len ← rlp_minimal_uint_len sail_len; Uint ((1 + length_len) + sail_len).

Definition rlp_uint_u64_size (n : Z) : outcome Z :=
  if n <? Z.shiftl 1 7 then BoundedUint 1 9 1
  else if n <? Z.shiftl 1 8 then BoundedUint 1 9 2
  else if n <? Z.shiftl 1 16 then BoundedUint 1 9 3
  else if n <? Z.shiftl 1 24 then BoundedUint 1 9 4
  else if n <? Z.shiftl 1 32 then BoundedUint 1 9 5
  else if n <? Z.shiftl 1 40 then BoundedUint 1 9 6
  else if n <? Z.shiftl 1 48 then BoundedUint 1 9 7
  else if n <? Z.shiftl 1 56 then BoundedUint 1 9 8
  else BoundedUint 1 9 9.

Definition rlp_word_size : Z := RLP_ENCODED_WORD_LENGTH.
Definition rlp_addr_size : Z := RLP_ENCODED_ADDRESS_LENGTH.
Definition rlp_list_size (content_len : Z) : outcome Z :=
  p ← rlp_length_prefix_len content_len; Uint (p + content_len).
Definition rlp_scratch_list_size (content_len : Z) : outcome Z :=
  prefix_size ← rlp_length_prefix_len content_len;
  prefix_length ← rlp_scratch_small_length prefix_size;
  n ← rlp_scratch_length_add content_len prefix_length; rlp_scratch_length n.

(** ** Writing *)

(** A length prefix: a short length in the marker byte, a long one after it. *)
Definition write_prefix (short_marker long_marker sail_len : Z) : M SpecState unit :=
  if sail_len <=? RLP_SHORT_LENGTH_LIMIT then
    scratch_push_byte (marked short_marker (rlp_nat_length_byte sail_len))
  else
    length_word ← of_outcome (rlp_length_word sail_len);
    length_len ← of_outcome (rlp_minimal_word_len length_word);
    scratch_push_byte (marked long_marker (rlp_nat_length_byte length_len));;
    scratch_push_word_be length_word length_len.

Definition rlp_write_string_prefix (sail_len first : Z) : M SpecState unit :=
  if (sail_len =? 1) && high_bit_clear first then mret tt
  else write_prefix 0x80 0xb7 sail_len.

Definition rlp_write_list_prefix (content_len : Z) : M SpecState unit :=
  write_prefix 0xc0 0xf7 content_len.

Definition rlp_write_slice (kind : RegionKind) (data : Slice) : M SpecState unit :=
  first ← zoom (first_byte kind data);
  rlp_write_string_prefix data.(sl_len) first;; push_slice kind data.
Definition rlp_write_input_slice := rlp_write_slice RInput.
Definition rlp_write_scratch_slice := rlp_write_slice RScratch.
Definition rlp_write_log_data_slice := rlp_write_slice RLog.

Definition rlp_write_uint_word (w : Z) : M SpecState unit :=
  sail_len ← of_outcome (rlp_minimal_word_len w);
  let first := if sail_len =? 1 then low_byte w else 0 in
  rlp_write_string_prefix sail_len first;;
  word_ ← of_outcome (u256 w); scratch_push_word_be word_ sail_len.

Definition rlp_write_uint_nat (n : Z) : M SpecState unit :=
  if n <? Z.shiftl 1 256 then word_ ← of_outcome (u256 n); rlp_write_uint_word word_
  else of_outcome fatal_error.

Definition rlp_write_uint_u64 (n : Z) : M SpecState unit :=
  word_ ← of_outcome (u256 n); rlp_write_uint_word word_.

Definition rlp_write_word (w : Z) : M SpecState unit :=
  rlp_write_string_prefix WORD_BYTE_LENGTH 0;; scratch_push_word_be w WORD_BYTE_LENGTH.

Definition rlp_write_addr (a : address) : M SpecState unit :=
  first ← of_outcome (sail_vector_access a 0 false);
  rlp_write_string_prefix ADDRESS_BYTE_LENGTH (Z_of_byte first);; scratch_push_address a.

(** An encoder remembers where it started and how much it is to write. *)
Record RlpEncoder : Type := mkRlpEncoder { enc_start : Z; expected_len : Z }.

Definition rlp_encoder_begin (expected : Z) : M SpecState RlpEncoder :=
  start ← scratch_reserve expected;
  s ← of_outcome (Uint start); e ← of_outcome (Uint expected); mret (mkRlpEncoder s e).

Definition rlp_encoder_finish (encoder : RlpEncoder) : M SpecState Slice :=
  encoded ← scratch_finish encoder.(enc_start);
  sail_assert (encoded.(sl_len) =? encoder.(expected_len)) "RLP encoder length";; mret encoded.

Definition rlp_encoder_rewind (encoder : RlpEncoder) : M SpecState unit :=
  scratch_rewind encoder.(enc_start).

(** ** Reading *)

(** [RlpFieldRef]: the slice of an item, and the length of its content, which
    is at its end. *)
Record RlpFieldRef : Type := mkRlpFieldRef {
  source : Slice;
  is_list : bool;
  content_len : Z;
}.

(** The validator of [RlpFieldRefValidity]. *)
Definition rlp_field_ref_valid (source_off source_len content_len : Z) : bool :=
  ((0 <=? source_off) && ((0 <=? source_len) && (source_off + source_len <=? 2 ^ 32 - 1))) &&
  ((0 <=? content_len) && (content_len <=? source_len)).

Definition rlp_field_ref (source_off source_len : Z) (source : Slice) (is_list : bool)
    (content_len : Z) : outcome RlpFieldRef :=
  validated (rlp_field_ref_valid source_off source_len content_len)
    (mkRlpFieldRef source is_list content_len).

Inductive RlpResult (A : Type) : Type :=
| RlpOk (value : A)
| RlpInvalidValue.
Arguments RlpOk {A} _.
Arguments RlpInvalidValue {A}.

Definition rlp_uint64_append (prefix next : Z) : outcome Z := Uint (prefix * 256 + next).

Section decoding.
Context (kind : RegionKind).

Fixpoint uint64_width (content : Slice) (width : nat) : M HostState Z :=
  match width with
  | O => of_outcome (Uint 0)
  | S width' =>
      prefix ← uint64_width content width';
      next ← slice_byte (_region_byte kind) content (Z.of_nat width');
      of_outcome (v ← rlp_uint64_append prefix next; Uint v)
  end.

(** A header whose length follows the marker. *)
Definition long_header (b : Slice) (list : bool) (length_width : Z) : M HostState (bool * Z * Z) :=
  if length_width <=? b.(sl_len) - 1 then
    length_bytes ← of_outcome (sub_slice b 1 length_width);
    n ← uint64_width length_bytes (Z.to_nat length_width);
    mret (list, 1 + length_width, n)
  else of_outcome fatal_error.

(** Whether an item is a list, the offset of its content and its length. *)
Definition ref_hdr (b : Slice) : M HostState (bool * Z * Z) :=
  if b.(sl_len) =? 0 then of_outcome fatal_error
  else
    h ← slice_byte (_region_byte kind) b 0;
    if h <? 128 then mret (false, 0, 1)
    else if h <? 184 then mret (false, 1, h - 128)
    else if h <? 192 then long_header b false (h - 183)
    else if h <? 248 then mret (true, 1, h - 192)
    else long_header b true (h - 247).

Definition decode_list (f : RlpFieldRef) : outcome Slice :=
  if f.(is_list)
  then sub_slice f.(source) (f.(source).(sl_len) - f.(content_len)) f.(content_len)
  else fatal_error.

Definition decode_item (cursor : Slice) : M HostState RlpFieldRef :=
  if cursor.(sl_len) =? 0 then of_outcome fatal_error
  else
    '(list, content_off, content_len) ← ref_hdr cursor;
    if cursor.(sl_len) <? content_off then of_outcome fatal_error
    else if cursor.(sl_len) - content_off <? content_len then of_outcome fatal_error
    else
      let full_len := content_off + content_len in
      if (0 <? full_len) && (full_len <=? cursor.(sl_len)) then
        of_outcome (field_source ← sub_slice cursor 0 full_len;
                    rlp_field_ref cursor.(sl_bytes) full_len field_source list content_len)
      else of_outcome fatal_error.

Definition cursor_expect_end (cursor : Slice) : outcome unit :=
  if cursor.(sl_len) =? 0 then Ok tt else fatal_error.

Definition single_ref (item : Slice) : M HostState RlpFieldRef :=
  if item.(sl_len) =? 0 then of_outcome fatal_error
  else
    '(list, content_off, content_len) ← ref_hdr item;
    if (content_off <=? item.(sl_len)) && (content_len =? item.(sl_len) - content_off)
    then of_outcome (rlp_field_ref item.(sl_bytes) item.(sl_len) item list content_len)
    else of_outcome fatal_error.

Definition item_content (f : RlpFieldRef) : outcome Slice :=
  sub_slice f.(source) (f.(source).(sl_len) - f.(content_len)) f.(content_len).

Definition decode_word (f : RlpFieldRef) : M HostState Z :=
  let n := f.(content_len) in
  if f.(is_list) || (RLP_WORD_LENGTH_LIMIT <? n) then of_outcome fatal_error
  else
    v ← slice_load_n (_load_word kind) f.(source) (f.(source).(sl_len) - n) n;
    of_outcome (word v).
End decoding.

Definition rlp_uint64_width := uint64_width RInput.
Definition rlp_ref_hdr := ref_hdr RInput.
Definition rlp_decode_list := decode_list.
Definition rlp_decode_item := decode_item RInput.
Definition rlp_cursor_advance (cursor : Slice) (consumed : Z) : outcome Slice :=
  stateless_input_slice_suffix cursor consumed.
Definition rlp_cursor_expect_end := cursor_expect_end.
Definition rlp_single_ref := single_ref RInput.
Definition rlp_node_cursor (node : Slice) : M HostState Slice :=
  if node.(sl_len) =? 0 then of_outcome fatal_error
  else item ← rlp_single_ref node; of_outcome (rlp_decode_list item).
Definition rlp_item_content := item_content.
Definition rlp_decode_word := decode_word RInput.

Definition scratch_rlp_uint64_width := uint64_width RScratch.
Definition scratch_rlp_ref_hdr := ref_hdr RScratch.
Definition scratch_rlp_decode_list := decode_list.
Definition scratch_rlp_decode_item := decode_item RScratch.
Definition scratch_rlp_cursor_advance (cursor : Slice) (consumed : Z) : outcome Slice :=
  scratch_slice_suffix cursor consumed.
Definition scratch_rlp_cursor_expect_end := cursor_expect_end.
Definition scratch_rlp_single_ref := single_ref RScratch.
Definition scratch_rlp_node_cursor (node : Slice) : M HostState Slice :=
  item ← scratch_rlp_single_ref node; of_outcome (scratch_rlp_decode_list item).
Definition scratch_rlp_item_content := item_content.
Definition scratch_rlp_decode_word := decode_word RScratch.

(** ** Canonical items *)

(** The marker and the length of a prefix are those the encoder writes: the
    tests of [rlp_ref_framing_canonical] for one kind of item. The operands of
    [&] are all evaluated. *)
Definition framed_short (f : RlpFieldRef) (marker : Z) : M HostState bool :=
  b ← stateless_input_slice_byte f.(source) 0;
  mret ((f.(source).(sl_len) =? f.(content_len) + 1) &&
        (b =? marked marker (rlp_nat_length_byte f.(content_len)))).

Definition framed_long (f : RlpFieldRef) (marker : Z) : M HostState bool :=
  length_word ← of_outcome (rlp_length_word f.(content_len));
  length_width ← of_outcome (rlp_minimal_word_len length_word);
  b ← stateless_input_slice_byte f.(source) 0;
  same ← (if 0 <? f.(source).(sl_len)
          then v ← stateless_input_slice_load_n f.(source) (0 + 1) length_width;
               mret (v =? length_word)
          else mret false);
  mret ((f.(source).(sl_len) =? (1 + length_width) + f.(content_len)) &&
        ((b =? marked marker (rlp_nat_length_byte length_width)) && same)).

Definition rlp_ref_framing_canonical (f : RlpFieldRef) : M HostState bool :=
  let n := f.(content_len) in
  let full_length := f.(source).(sl_len) in
  if full_length =? 0 then mret false
  else if f.(is_list) then
    if n <=? RLP_SHORT_LENGTH_LIMIT then framed_short f 0xc0 else framed_long f 0xf7
  else if n =? 0 then
    b ← stateless_input_slice_byte f.(source) 0; mret ((full_length =? 1) && (b =? 0x80))
  else
    first ← stateless_input_slice_byte f.(source) (full_length - n);
    if (n =? 1) && high_bit_clear first then
      b ← stateless_input_slice_byte f.(source) 0; mret ((full_length =? 1) && (b =? first))
    else if n <=? RLP_SHORT_LENGTH_LIMIT then framed_short f 0x80 else framed_long f 0xb7.

Definition rlp_ref_bytes_canonical (f : RlpFieldRef) : M HostState bool :=
  framing ← rlp_ref_framing_canonical f; mret (negb f.(is_list) && framing).

Definition rlp_item_uint_canonical (f : RlpFieldRef) : M HostState bool :=
  bytes_canonical ← rlp_ref_bytes_canonical f;
  if negb bytes_canonical then mret false
  else
    b ← stateless_input_slice_byte f.(source) (f.(source).(sl_len) - f.(content_len));
    mret ((f.(content_len) =? 0) || negb (b =? 0)).

Definition rlp_word_valid (f : RlpFieldRef) : bool :=
  negb f.(is_list) && (f.(content_len) <=? RLP_WORD_LENGTH_LIMIT).
Definition rlp_u256_valid (f : RlpFieldRef) : M HostState bool :=
  canonical ← rlp_item_uint_canonical f;
  mret (canonical && (f.(content_len) <=? RLP_WORD_LENGTH_LIMIT)).
Definition rlp_uint64_valid (f : RlpFieldRef) : M HostState bool :=
  canonical ← rlp_item_uint_canonical f;
  mret (canonical && (f.(content_len) <=? RLP_UINT64_LENGTH_LIMIT)).

Definition rlp_decode_u256 (f : RlpFieldRef) : M HostState Z :=
  canonical ← rlp_item_uint_canonical f;
  if (canonical : bool) then v ← rlp_decode_word f; of_outcome (word v)
  else of_outcome fatal_error.

Definition rlp_decode_uint64 (f : RlpFieldRef) : M HostState Z :=
  canonical ← rlp_item_uint_canonical f;
  if negb canonical || (RLP_UINT64_LENGTH_LIMIT <? f.(content_len)) then of_outcome fatal_error
  else
    content ← of_outcome (rlp_item_content f);
    width ← of_outcome (sail_tmod_int f.(content_len) 9);
    v ← rlp_uint64_width content (Z.to_nat width); of_outcome (Uint v).

Definition rlp_decode_bool (field : RlpFieldRef) : M HostState (RlpResult bool) :=
  value ← rlp_decode_uint64 field;
  mret (if value =? 0 then RlpOk false else if value =? 1 then RlpOk true else RlpInvalidValue).
