(* ===== verification/RlpTheorems.v ===== *)
(** * RlpTheorems: the encoders and decoders against the reference encoding

    The reference encoding of a byte string and of a list payload is defined
    on bytes. The writers append exactly it to the arena, the decoders read it
    back, and the canonicity test accepts exactly it. *)

From Stdlib Require Import ZArith Lia Strings.Byte.
From stdpp Require Import base tactics option list.
From S2P Require Import Prelude PyBytes SailRuntime HostTypes Words WordTheorems WordBits ChainConfig Regions RegionAccess Gas RegionFacts Environment Scratch Rlp.
Local Open Scope Z_scope.

(** ** The reference encoding *)

(** The number of bytes of a number, and its bytes without leading zeros. *)
Definition byte_len (n : Z) : Z := (bit_length n + 7) / 8.
Definition minimal_be (n : Z) : bytes := be_bytes (Z.to_nat (byte_len n)) n.

Definition rlp_prefix (short long n : Z) : bytes :=
  if n <=? 55 then [byte_wrap (short + n)] else byte_wrap (long + byte_len n) :: minimal_be n.

(** A byte below 128 is its own encoding. *)
Definition self_encoding (p : bytes) : bool :=
  match p with [b] => Z_of_byte b <? 128 | _ => false end.

Definition rlp_string (p : bytes) : bytes :=
  if self_encoding p then p else rlp_prefix 0x80 0xb7 (py_len p) ++ p.
Definition rlp_list (p : bytes) : bytes := rlp_prefix 0xc0 0xf7 (py_len p) ++ p.
Definition rlp_encode (list : bool) (p : bytes) : bytes :=
  if list then rlp_list p else rlp_string p.

(** ** Bytes of numbers *)

Lemma byte_len_nonneg n : 0 <= byte_len n.
Proof. unfold byte_len. apply Z.div_pos; [|done]. pose proof (bit_length_nonneg n). lia. Qed.

Lemma byte_len_le n k : 0 <= n → 0 <= k → byte_len n <= k ↔ n < 256 ^ k.
Proof.
  intros Hn Hk. change 256 with (2 ^ 8). rewrite <-Z.pow_mul_r by lia.
  rewrite <-bit_length_le by lia. unfold byte_len.
  pose proof (Z.div_mod (bit_length n + 7) 8). pose proof (Z.mod_pos_bound (bit_length n + 7) 8). lia.
Qed.

Lemma byte_len_bound n : 0 <= n → n < 256 ^ byte_len n.
Proof. intros Hn. apply byte_len_le; [done|apply byte_len_nonneg|done]. Qed.

Lemma byte_len_pos n : 0 < n → 0 < byte_len n.
Proof.
  intros Hn. assert (¬ byte_len n <= 0); [|lia]. rewrite byte_len_le by lia.
  change (256 ^ 0) with 1. lia.
Qed.

Lemma word_byte_length_ok w : is_word w → word_byte_length w = Ok (byte_len w).
Proof.
  intros Hw. unfold word_byte_length. rewrite word_bit_length_ok by done. cbn [mbind outcome_bind].
  pose proof (word_bit_length_bound w Hw) as Hb.
  assert (0 <= byte_len w <= 32) as Hl.
  { split; [apply byte_len_nonneg|]. apply byte_len_le; [apply Hw|done|apply Hw]. }
  destruct (Z.eqb_spec (bit_length w) 0) as [E|].
  - unfold byte_len in *. rewrite E in *. by rewrite BoundedUint_ok.
  - rewrite sail_tdiv_ok, Z.quot_div_nonneg by lia. cbn [mbind outcome_bind].
    fold (byte_len w). by apply BoundedUint_ok.
Qed.

Lemma minimal_len_ok w : is_word w → rlp_minimal_word_len w = Ok (byte_len w) ∧ 0 <= byte_len w <= 32.
Proof.
  intros Hw. assert (0 <= byte_len w <= 32) as Hl.
  { split; [apply byte_len_nonneg|]. apply byte_len_le; [apply Hw|done|apply Hw]. }
  split; [|done]. unfold rlp_minimal_word_len. rewrite word_byte_length_ok by done.
  cbn [mbind outcome_bind]. by apply BoundedUint_ok.
Qed.

Lemma length_word_ok n : is_word n → rlp_length_word n = Ok n.
Proof.
  intros Hn. unfold rlp_length_word, word_of_nat_byte_count, u256.
  change (Z.shiftl 1 256) with WORD_MODULUS. rewrite (proj2 (Z.ltb_lt _ _)) by apply Hn.
  by rewrite !word_ok by done; cbn [mbind outcome_bind]; rewrite !word_ok by done;
    cbn [mbind outcome_bind]; rewrite !word_ok by done.
Qed.

Lemma minimal_be_len n : py_len (minimal_be n) = byte_len n.
Proof. unfold minimal_be. rewrite be_bytes_len. pose proof (byte_len_nonneg n). lia. Qed.

Lemma from_be_minimal n : 0 <= n → from_be (minimal_be n) = n.
Proof.
  intros Hn. unfold minimal_be. pose proof (byte_len_nonneg n).
  rewrite from_be_be_bytes, Z2Nat.id by done. apply Z.mod_small. split; [done|by apply byte_len_bound].
Qed.

Lemma from_be_cons b q : from_be (b :: q) = Z_of_byte b * 256 ^ py_len q + from_be q.
Proof. exact (from_be_app [b] q). Qed.

(** Bytes without a leading zero are those of their number. *)
Lemma minimal_be_from_be p :
  (∀ b q, p = b :: q → Z_of_byte b ≠ 0) → minimal_be (from_be p) = p.
Proof.
  intros Hp. pose proof (from_be_bound p) as Hb. unfold minimal_be.
  assert (byte_len (from_be p) = py_len p) as ->.
  { pose proof (py_len_nonneg p). assert (byte_len (from_be p) <= py_len p) by (apply byte_len_le; lia).
    destruct p as [|b q]; [by vm_compute|].
    assert (¬ byte_len (from_be (b :: q)) <= py_len q); [|unfold py_len in *; cbn in *; lia].
    rewrite byte_len_le by (unfold py_len in *; lia). rewrite from_be_cons.
    specialize (Hp b q eq_refl). pose proof (Z_of_byte_range b).
    pose proof (from_be_bound q).
    assert (0 < 256 ^ py_len q) by (apply Z.pow_pos_nonneg; unfold py_len; lia). nia. }
  unfold py_len. rewrite Nat2Z.id. apply be_bytes_from_be.
Qed.

Lemma be_bytes_head n v :
  0 <= v < 256 ^ Z.of_nat (S n) → 256 ^ Z.of_nat n <= v →
  ∃ b q, be_bytes (S n) v = b :: q ∧ Z_of_byte b ≠ 0.
Proof.
  intros Hv Hl. destruct (be_bytes (S n) v) as [|b q] eqn:E.
  { by pose proof (be_bytes_length (S n) v) as Hlen; rewrite E in Hlen. }
  exists b, q. split; [done|]. intros Hb.
  assert (from_be (b :: q) = v) as Hf by (rewrite <-E, from_be_be_bytes; by apply Z.mod_small).
  rewrite from_be_cons in Hf.
  rewrite Hb in Hf. pose proof (from_be_bound q) as Hq.
  assert (py_len q = Z.of_nat n) as Hn.
  { pose proof (be_bytes_length (S n) v) as Hlen. rewrite E in Hlen. unfold py_len. cbn in Hlen. lia. }
  rewrite Hn in *. lia.
Qed.

Lemma minimal_be_head n b q : 0 <= n → minimal_be n = b :: q → Z_of_byte b ≠ 0.
Proof.
  intros Hn E. pose proof (byte_len_nonneg n). unfold minimal_be in E.
  destruct (Z.to_nat (byte_len n)) as [|k] eqn:Ek; [done|].
  assert (¬ byte_len n <= Z.of_nat k) as Hk by lia. rewrite byte_len_le in Hk by lia.
  pose proof (byte_len_bound n Hn). replace (byte_len n) with (Z.of_nat (S k)) in * by lia.
  destruct (be_bytes_head k n) as (b' & q' & E' & ?); [lia..|]. rewrite E' in E. by simplify_eq.
Qed.

(** ** Writing *)

Lemma low_byte_small v : 0 <= v < 256 → low_byte v = v.
Proof. intros Hv. unfold low_byte. by rewrite bits_of_small by (change (2 ^ 8) with 256; lia). Qed.

Lemma byte_of_Z_small v : 0 <= v < 256 → byte_of_Z v = Ok (byte_wrap v).
Proof.
  intros Hv. unfold byte_of_Z. by rewrite (proj2 (Z.leb_le _ _)), (proj2 (Z.ltb_lt _ _)) by lia.
Qed.

Lemma word_bytes_ok w n :
  is_word w → 1 <= n <= 32 → _word_bytes w n = be_bytes (Z.to_nat n) w.
Proof.
  intros Hw Hn. unfold _word_bytes, WORD_MASK. change (2 ^ 256 - 1) with (Z.ones 256).
  rewrite Z.land_ones by lia. rewrite Z.mod_small by apply Hw.
  unfold py_slice_from. pose proof (be_bytes_len 32 w) as Hl.
  rewrite slice_bound_neg by lia. rewrite Hl.
  rewrite <-(be_bytes_drop 32 (Z.to_nat n) w) by lia. f_equal. lia.
Qed.

Section writing.
Context (st : SpecState) (Hwf : arena_wf st).

Lemma push_byte_ok v :
  0 <= v < 256 → room st 1 → writes (scratch_push_byte v) st [byte_wrap v] tt.
Proof.
  intros Hv Hr. apply push_store; [done|exact Hr|]. intros off.
  unfold host_scratch_store_byte. rewrite byte_of_Z_small by done. by py_step.
Qed.

Lemma push_slice_ok kind s :
  slice_in kind s st.(sp_host) → room st s.(sl_len) →
  writes (push_slice kind s) st (slice_data kind s st.(sp_host)) tt.
Proof.
  intros Hs Hr. pose proof (slice_data_length _ _ _ Hs) as Hl. unfold push_slice.
  destruct (Z.eqb_spec s.(sl_len) 0) as [E|]; cbn [negb].
  - assert (slice_data kind s st.(sp_host) = []) as ->.
    { rewrite E in Hl. unfold py_len in Hl. apply length_zero_iff_nil. lia. }
    by apply writes_ret.
  - apply push_store; [done|by rewrite Hl|]. intros off.
    unfold host_scratch_store_from, _region_bytes. by py_step.
Qed.

Lemma push_address_ok a :
  py_len a = 20 → room st 20 → writes (scratch_push_address a) st (rev a) tt.
Proof.
  intros Ha Hr. apply push_store; [done|by unfold py_len in *; rewrite length_rev, Ha|done].
Qed.

Lemma push_word_be_ok w n :
  is_word w → 0 <= n <= 32 → room st n →
  writes (scratch_push_word_be w n) st (be_bytes (Z.to_nat n) w) tt.
Proof.
  intros Hw Hn Hr. unfold scratch_push_word_be.
  destruct (Z.eqb_spec n 0) as [->|]; cbn [negb]; [by apply writes_ret|].
  apply push_store; [done|rewrite be_bytes_len, Z2Nat.id by lia; done|]. intros off.
  unfold host_scratch_store_word. by rewrite word_bytes_ok by (done || lia).
Qed.

End writing.

Lemma write_prefix_ok st short long n :
  arena_wf st → 0 <= short <= 200 → 0 <= long <= 248 → 0 <= n < 2 ^ 32 →
  room st (py_len (rlp_prefix short long n)) →
  writes (write_prefix short long n) st (rlp_prefix short long n) tt.
Proof.
  intros Hwf Hs Hlg Hn Hr. unfold write_prefix, rlp_prefix, marked, rlp_nat_length_byte,
    RLP_SHORT_LENGTH_LIMIT in *.
  destruct (Z.leb_spec n 55).
  - rewrite (low_byte_small n), low_byte_small by lia. apply push_byte_ok; [done|lia|exact Hr].
  - assert (is_word n) as Hw.
    { unfold is_word, WORD_MODULUS. assert (2 ^ 32 < 2 ^ 256) by done. lia. }
    destruct (minimal_len_ok n Hw) as [Hml Hbl].
    assert (byte_len n <= 4) by (apply byte_len_le; [lia|done|change (256 ^ 4) with (2 ^ 32); lia]).
    rewrite (length_word_ok n Hw).
    assert (py_len (byte_wrap (long + byte_len n) :: minimal_be n) = 1 + byte_len n) as Elen.
    { rewrite <-(minimal_be_len n). unfold py_len. cbn. lia. }
    rewrite Elen in Hr.
    unfold writes. rewrite bind_run, of_outcome_run, Hml, bind_run, of_outcome_run.
    rewrite (low_byte_small (byte_len n)), low_byte_small by lia.
    apply (writes_bind _ _ st [byte_wrap (long + byte_len n)] _ tt tt).
    { apply push_byte_ok; [done|lia|]. unfold room in *. lia. }
    intros st' Ha. assert (arena_wf st') as Hwf' by apply Ha.
    pose proof (proj1 (appends_room _ (byte_len n) _ _ Ha)) as Hr'. change (py_len [_]) with 1 in Hr'.
    specialize (Hr' Hr). by apply push_word_be_ok; [apply Ha|..|lia|].
Qed.

(** ** The encoders *)

Definition string_prefix (p : bytes) : bytes :=
  if self_encoding p then [] else rlp_prefix 0x80 0xb7 (py_len p).

Lemma rlp_string_split p : rlp_string p = string_prefix p ++ p.
Proof. unfold rlp_string, string_prefix. by destruct (self_encoding p). Qed.

Lemma high_bit_clear_byte v : 0 <= v < 256 → high_bit_clear v = (v <? 128).
Proof.
  intros Hv. unfold high_bit_clear. rewrite Z.testbit_eqb by done. change (2 ^ 7) with 128.
  destruct (Z.ltb_spec v 128).
  - by rewrite Z.div_small by lia.
  - replace (v / 128) with 1; [done|]. apply (Z.div_unique_pos _ _ _ (v - 128)); lia.
Qed.

(** The byte a prefix writer is given is the first of the payload. *)
Definition first_of (p : bytes) : Z := byte_or_zero p 0.

Lemma self_encoding_test p first :
  (py_len p = 1 → first = first_of p) →
  (py_len p =? 1) && high_bit_clear first = self_encoding p.
Proof.
  intros Hf. destruct p as [|b [|c q]]; [done| |].
  - rewrite Hf by done. change (first_of [b]) with (Z_of_byte b).
    by rewrite high_bit_clear_byte by apply Z_of_byte_range.
  - rewrite (proj2 (Z.eqb_neq _ _)); [done|]. unfold py_len. cbn. lia.
Qed.

Lemma write_string_prefix_ok st p first :
  arena_wf st → (py_len p = 1 → first = first_of p) → py_len p < 2 ^ 32 →
  room st (py_len (string_prefix p)) →
  writes (rlp_write_string_prefix (py_len p) first) st (string_prefix p) tt.
Proof.
  intros Hwf Hf Hp Hr. unfold rlp_write_string_prefix, string_prefix in *.
  rewrite self_encoding_test by done. destruct (self_encoding p); [by apply writes_ret|].
  apply write_prefix_ok; [done|lia..| |done]. split; [apply py_len_nonneg|done].
Qed.

(** A prefix, then the payload. *)
Lemma write_string_ok st p first (payload : M SpecState unit) :
  arena_wf st → (py_len p = 1 → first = first_of p) → py_len p < 2 ^ 32 →
  room st (py_len (rlp_string p)) →
  (∀ st', appends (string_prefix p) st st' → room st' (py_len p) → writes payload st' p tt) →
  writes (rlp_write_string_prefix (py_len p) first;; payload) st (rlp_string p) tt.
Proof.
  intros Hwf Hf Hp Hr Hpay. rewrite rlp_string_split, py_len_app in Hr. rewrite rlp_string_split.
  pose proof (py_len_nonneg p).
  apply (writes_bind _ _ st _ _ tt tt).
  { apply write_string_prefix_ok; [done..|]. unfold room in *. lia. }
  intros st' Ha. apply Hpay; [done|]. apply (appends_room _ _ _ _ Ha). unfold room in *. lia.
Qed.

Lemma first_byte_run kind s h :
  slice_in kind s h → first_byte kind s h = (Ok (first_of (slice_data kind s h)), h).
Proof.
  intros Hs. unfold first_byte, first_of. pose proof (slice_data_length _ _ _ Hs) as Hl.
  destruct (Z.eqb_spec s.(sl_len) 0) as [E|]; [|by apply slice_byte_run].
  unfold byte_or_zero. rewrite mem_at_past by lia. done.
Qed.

(** A slice of the scratch region inside the arena is not affected by what is
    appended. *)
Definition stable_slice (kind : RegionKind) (s : Slice) (st : SpecState) : Prop :=
  slice_in kind s st.(sp_host) ∧
  (kind = RScratch → s.(sl_bytes) + s.(sl_len) <= st.(scratch_arena).(sl_len)).

Lemma stable_slice_appends kind s p st st' :
  arena_wf st → stable_slice kind s st → appends p st st' →
  stable_slice kind s st' ∧ slice_data kind s st'.(sp_host) = slice_data kind s st.(sp_host).
Proof.
  intros Hwf [Hs Hk] Ha. assert (kind = RScratch ∨ kind ≠ RScratch) as [->|Hne]
    by (destruct kind; first [by left|by right]).
  2:{ pose proof (appends_region _ _ _ _ Hne Ha) as E. unfold stable_slice, slice_in, slice_data.
      rewrite E. split_and!; try done; apply Hs. }
  specialize (Hk eq_refl). destruct Ha as (Hwf' & Ha & _).
  pose proof (arena_len _ Hwf) as L. pose proof (arena_len _ Hwf') as L'.
  rewrite Ha, py_len_app in L'. pose proof (py_len_nonneg p).
  destruct Hs as (H1 & H2 & H3 & H4). pose proof Hwf' as [_ (_ & _ & H3' & _)].
  rewrite (proj1 Hwf') in H3'.
  assert (slice_in RScratch s st'.(sp_host)) as Hs' by (split_and!; lia).
  split; [split; [done|intros _; lia]|].
  assert (∀ t, arena_wf t → s.(sl_bytes) + s.(sl_len) <= t.(scratch_arena).(sl_len) →
    slice_in RScratch s t.(sp_host) →
    slice_data RScratch s t.(sp_host) =
    take (Z.to_nat s.(sl_len)) (drop (Z.to_nat s.(sl_bytes)) (arena t))) as Hd.
  { intros t Ht Hle Hin. rewrite slice_data_take, arena_take by done.
    rewrite skipn_firstn_comm, take_take. f_equal. lia. }
  rewrite !Hd by (done || lia || by split_and!). rewrite Ha.
  rewrite drop_app_le by (unfold py_len in L; lia).
  rewrite take_app_le; [done|]. rewrite length_drop. unfold py_len in L. lia.
Qed.

Lemma write_slice_ok st kind s :
  arena_wf st → stable_slice kind s st →
  room st (py_len (rlp_string (slice_data kind s st.(sp_host)))) →
  writes (rlp_write_slice kind s) st (rlp_string (slice_data kind s st.(sp_host))) tt.
Proof.
  intros Hwf Hs Hr. pose proof Hs as [Hin _]. set (p := slice_data kind s st.(sp_host)) in *.
  pose proof (slice_data_length _ _ _ Hin) as Hl. fold p in Hl.
  assert (py_len p < 2 ^ 32) as Hlt by (destruct Hin; lia).
  destruct (write_string_ok st p (first_of p) (push_slice kind s)) as (st' & R & A); [done..| |].
  { intros st' Ha Hr'. destruct (stable_slice_appends _ _ _ _ _ Hwf Hs Ha) as [Hs' Ed].
    fold p in Ed. rewrite <-Ed. apply push_slice_ok; [apply Ha|apply Hs'|by rewrite <-Hl]. }
  exists st'. split; [|done].
  unfold rlp_write_slice. rewrite bind_run, zoom_run.
  change (view st) with (sp_host st). rewrite first_byte_run by done. cbn [fst snd].
  replace (put (sp_host st) st) with st by (by destruct st). fold p. by rewrite <-Hl.
Qed.

Lemma first_of_minimal w : 0 <= w → byte_len w = 1 → low_byte w = first_of (minimal_be w).
Proof.
  intros Hw E. assert (w < 256) by (apply (byte_len_le w 1); lia).
  rewrite low_byte_small by lia. unfold minimal_be. rewrite E.
  change (w = Z_of_byte (byte_wrap w)). by rewrite Z_of_byte_wrap, Z.mod_small.
Qed.

Lemma write_uint_word_ok st w :
  arena_wf st → is_word w → room st (py_len (rlp_string (minimal_be w))) →
  writes (rlp_write_uint_word w) st (rlp_string (minimal_be w)) tt.
Proof.
  intros Hwf Hw Hr. destruct (minimal_len_ok w Hw) as [Hm Hb].
  unfold rlp_write_uint_word, writes. rewrite bind_run, of_outcome_run, Hm.
  rewrite <-(minimal_be_len w). apply write_string_ok; [done| | |done|].
  - intros E. rewrite E. apply first_of_minimal; [apply Hw|]. by rewrite <-minimal_be_len.
  - rewrite minimal_be_len. lia.
  - intros st' Ha Hr'. unfold writes. rewrite bind_run, of_outcome_run. unfold u256.
    rewrite word_ok by done. rewrite minimal_be_len in *. unfold minimal_be.
    apply push_word_be_ok; [apply Ha|done..].
Qed.

Lemma write_word_ok st w :
  arena_wf st → is_word w → room st 33 →
  writes (rlp_write_word w) st (rlp_string (be_bytes 32 w)) tt.
Proof.
  intros Hwf Hw Hr. unfold rlp_write_word, WORD_BYTE_LENGTH.
  pose proof (be_bytes_len 32 w) as Hl. change (Z.of_nat 32) with 32 in Hl.
  rewrite <-Hl at 1. apply write_string_ok; [done|by rewrite Hl|by rewrite Hl| |].
  - rewrite rlp_string_split, py_len_app, Hl. unfold string_prefix, rlp_prefix. rewrite Hl.
    assert (self_encoding (be_bytes 32 w) = false) as ->; [|done].
    destruct (be_bytes 32 w) as [|? [|? ?]]; done.
  - intros st' Ha Hr'. apply (push_word_be_ok st' (proj1 Ha) w 32); [done|lia|]. by rewrite <-Hl.
Qed.

Lemma write_addr_ok st a :
  arena_wf st → py_len a = 20 → room st 21 →
  writes (rlp_write_addr a) st (rlp_string (rev a)) tt.
Proof.
  intros Hwf Ha Hr. unfold rlp_write_addr, ADDRESS_BYTE_LENGTH.
  assert (py_len (rev a) = 20) as Hl by (unfold py_len in *; by rewrite length_rev).
  destruct (lookup_lt_is_Some_2 a 19) as [b Hb]; [unfold py_len in Ha; lia|].
  assert (sail_vector_access a 0 false = Ok b) as Hacc.
  { unfold sail_vector_access, _logical_index. rewrite Ha. cbn.
    exact (f_equal (from_option Ok (Raise IndexError)) Hb). }
  unfold writes. rewrite bind_run, of_outcome_run, Hacc.
  pose proof (write_string_ok st (rev a) (Z_of_byte b) (scratch_push_address a)) as W.
  rewrite Hl in W. apply W; [done..| |].
  - rewrite rlp_string_split, py_len_app, Hl. unfold string_prefix, rlp_prefix. rewrite Hl.
    assert (self_encoding (rev a) = false) as ->; [|done].
    destruct (rev a) as [|? [|? ?]]; done.
  - intros st' Ha' Hr'. apply push_address_ok; [apply Ha'|done|done].
Qed.

(** ** Reading headers *)

Section reading.
Context (kind : RegionKind) (h : HostState).

Lemma uint64_width_run s w :
  slice_in kind s h → Z.of_nat w <= s.(sl_len) →
  uint64_width kind s w h = (Ok (from_be (take w (slice_data kind s h))), h).
Proof.
  intros Hs. pose proof (slice_data_length _ _ _ Hs) as Hl. induction w as [|w IH]; intros Hw.
  - by rewrite take_0.
  - cbn [uint64_width]. rewrite bind_run, IH by lia. rewrite bind_run, slice_byte_run by (done || lia).
    unfold byte_or_zero, mem_at. rewrite Nat2Z.id.
    destruct (lookup_lt_is_Some_2 (slice_data kind s h) w) as [b Hb]; [unfold py_len in Hl; lia|].
    rewrite Hb. cbn [from_option id default]. rewrite (take_S_r _ _ _ Hb), from_be_snoc.
    pose proof (from_be_bound (take w (slice_data kind s h))). pose proof (Z_of_byte_range b).
    unfold rlp_uint64_append. rewrite of_outcome_run, Uint_ok by lia. cbn [mbind outcome_bind].
    by rewrite Uint_ok by lia.
Qed.

Lemma slice_head_run s b l :
  slice_in kind s h → slice_data kind s h = b :: l →
  slice_byte (_region_byte kind) s 0 h = (Ok (Z_of_byte b), h).
Proof.
  intros Hs E. rewrite slice_byte_run by done. by rewrite E.
Qed.

Lemma slice_cons_len s b l : slice_in kind s h → slice_data kind s h = b :: l → s.(sl_len) = 1 + py_len l.
Proof.
  intros Hs E. rewrite <-(slice_data_length _ _ _ Hs), E. unfold py_len. cbn. lia.
Qed.

Lemma long_header_run s list w b l :
  slice_in kind s h → slice_data kind s h = b :: l → 0 <= w <= py_len l →
  long_header kind s list w h = (Ok (list, 1 + w, from_be (take (Z.to_nat w) l)), h).
Proof.
  intros Hs E Hw. unfold long_header. pose proof (slice_cons_len _ _ _ Hs E) as Hl.
  rewrite (proj2 (Z.leb_le _ _)) by lia.
  destruct (sub_slice_ok kind s 1 w h) as (t & Et & Ht & Htl & Htd); [done|lia..|].
  rewrite bind_run, of_outcome_run, Et, bind_run, uint64_width_run by (done || lia).
  rewrite Htd, E. cbn [Z.to_nat Pos.to_nat Pos.iter_op drop].
  change (drop (Z.to_nat 1) (b :: l)) with l. by rewrite take_take, Nat.min_id.
Qed.

(** Reading back a prefix: a short length is in the marker byte, a long one
    follows it. *)
Lemma prefix_run s short long n q :
  slice_in kind s h → slice_data kind s h = rlp_prefix short long n ++ q →
  0 <= short <= 200 → 0 <= long <= 248 → 0 <= n < 2 ^ 32 →
  (n <= 55 ∧ py_len (rlp_prefix short long n) = 1 ∧
     slice_byte (_region_byte kind) s 0 h = (Ok (short + n), h)) ∨
  (55 < n ∧ 1 <= byte_len n <= 4 ∧ py_len (rlp_prefix short long n) = 1 + byte_len n ∧
     slice_byte (_region_byte kind) s 0 h = (Ok (long + byte_len n), h) ∧
     ∀ list, long_header kind s list (byte_len n) h = (Ok (list, 1 + byte_len n, n), h)).
Proof.
  intros Hs Eq Hsh Hlo Hn. unfold rlp_prefix in *. destruct (Z.leb_spec n 55).
  - left. split; [done|]. split; [done|].
    rewrite (slice_head_run s _ _ Hs Eq). by rewrite Z_of_byte_wrap, Z.mod_small by lia.
  - right. assert (1 <= byte_len n <= 4) as Hbl.
    { pose proof (byte_len_pos n). split; [lia|].
      apply byte_len_le; [lia|done|change (256 ^ 4) with (2 ^ 32); lia]. }
    pose proof (minimal_be_len n) as Hml.
    split; [done|]. split; [done|]. split; [unfold py_len in *; cbn; lia|].
    cbn [app] in Eq. split.
    + rewrite (slice_head_run s _ _ Hs Eq). by rewrite Z_of_byte_wrap, Z.mod_small by lia.
    + intros lst. rewrite (long_header_run s lst (byte_len n) _ _ Hs Eq);
        [|rewrite py_len_app, Hml; pose proof (py_len_nonneg q); lia].
      rewrite take_app_length'; [by rewrite from_be_minimal by lia|].
      unfold py_len in Hml. lia.
Qed.

Lemma rlp_encode_len_le list p : py_len p <= py_len (rlp_encode list p).
Proof.
  destruct list; unfold rlp_encode, rlp_list; rewrite ?rlp_string_split, py_len_app;
    pose proof (py_len_nonneg (rlp_prefix 0xc0 0xf7 (py_len p)));
    pose proof (py_len_nonneg (string_prefix p)); lia.
Qed.

Lemma rlp_prefix_len_pos short long n : 1 <= py_len (rlp_prefix short long n).
Proof.
  unfold rlp_prefix. destruct (n <=? 55); unfold py_len; cbn; lia.
Qed.

Lemma rlp_encode_len_pos list p : 1 <= py_len (rlp_encode list p).
Proof.
  destruct list; unfold rlp_encode, rlp_list, rlp_string.
  - rewrite py_len_app. pose proof (rlp_prefix_len_pos 0xc0 0xf7 (py_len p)).
    pose proof (py_len_nonneg p). lia.
  - destruct (self_encoding p) eqn:Es; [by destruct p as [|? [|? ?]]|].
    rewrite py_len_app. pose proof (rlp_prefix_len_pos 0x80 0xb7 (py_len p)).
    pose proof (py_len_nonneg p). lia.
Qed.

(** The header of an encoded item. *)
Lemma ref_hdr_run s (list : bool) p rest :
  slice_in kind s h → slice_data kind s h = rlp_encode list p ++ rest →
  ref_hdr kind s h = (Ok (list, py_len (rlp_encode list p) - py_len p, py_len p), h).
Proof.
  intros Hs E. pose proof (slice_data_length _ _ _ Hs) as Hl. rewrite E, py_len_app in Hl.
  pose proof (py_len_nonneg rest). pose proof (py_len_nonneg p).
  pose proof (rlp_encode_len_le list p). pose proof (rlp_encode_len_pos list p).
  assert (py_len p < 2 ^ 32) as Hp by (destruct Hs; lia).
  unfold ref_hdr. rewrite (proj2 (Z.eqb_neq _ _)) by lia. rewrite bind_run.
  destruct list; unfold rlp_encode in *.
  - unfold rlp_list in *. rewrite <-app_assoc in E.
    destruct (prefix_run s _ _ _ _ Hs E) as [(? & Elen & Eb)|(? & ? & Elen & Eb & Eh)]; [lia..| |];
      rewrite py_len_app, Elen, Eb.
    + rewrite (proj2 (Z.ltb_ge _ 128)), (proj2 (Z.ltb_ge _ 184)), (proj2 (Z.ltb_ge _ 192)),
        (proj2 (Z.ltb_lt _ 248)) by lia. rewrite ret_run. do 3 f_equal; [f_equal|]; lia.
    + rewrite (proj2 (Z.ltb_ge _ 128)), (proj2 (Z.ltb_ge _ 184)), (proj2 (Z.ltb_ge _ 192)),
        (proj2 (Z.ltb_ge _ 248)) by lia.
      replace (0xf7 + byte_len (py_len p) - 247) with (byte_len (py_len p)) by lia.
      rewrite Eh. do 3 f_equal. f_equal. lia.
  - unfold rlp_string in *. destruct (self_encoding p) eqn:Es.
    + destruct p as [|b [|? ?]]; [done| |done]. cbn in Es.
      rewrite (slice_head_run s b rest) by done. by rewrite Es.
    + rewrite <-app_assoc in E.
      destruct (prefix_run s _ _ _ _ Hs E) as [(? & Elen & Eb)|(? & ? & Elen & Eb & Eh)]; [lia..| |];
        rewrite py_len_app, Elen, Eb.
      * rewrite (proj2 (Z.ltb_ge _ 128)), (proj2 (Z.ltb_lt _ 184)) by lia.
        rewrite ret_run. do 3 f_equal; [f_equal|]; lia.
      * rewrite (proj2 (Z.ltb_ge _ 128)), (proj2 (Z.ltb_ge _ 184)), (proj2 (Z.ltb_lt _ 192)) by lia.
        replace (0xb7 + byte_len (py_len p) - 183) with (byte_len (py_len p)) by lia.
        rewrite Eh. do 3 f_equal. f_equal. lia.
Qed.
End reading.

(** ** Decoding items *)

(** A reference inside its region: what the decoders hand out. *)
Definition field_in (kind : RegionKind) (f : RlpFieldRef) (h : HostState) : Prop :=
  slice_in kind f.(source) h ∧ 0 <= f.(content_len) <= f.(source).(sl_len).

(** The bytes of the item, and of its content. *)
Definition field_data (kind : RegionKind) (f : RlpFieldRef) (h : HostState) : bytes :=
  slice_data kind f.(source) h.
Definition field_content (kind : RegionKind) (f : RlpFieldRef) (h : HostState) : bytes :=
  drop (Z.to_nat (f.(source).(sl_len) - f.(content_len))) (field_data kind f h).

Lemma field_content_len kind f h :
  field_in kind f h → py_len (field_content kind f h) = f.(content_len).
Proof.
  intros [Hs Hc]. pose proof (slice_data_length _ _ _ Hs) as Hl.
  unfold field_content, field_data, py_len in *. rewrite length_drop. lia.
Qed.

Lemma item_content_ok kind f h :
  field_in kind f h →
  ∃ t, item_content f = Ok t ∧ slice_in kind t h ∧ t.(sl_len) = f.(content_len) ∧
    slice_data kind t h = field_content kind f h.
Proof.
  intros [Hs Hc].
  destruct (sub_slice_ok kind f.(source) (f.(source).(sl_len) - f.(content_len)) f.(content_len) h)
    as (t & Et & Ht & Hl & Hd); [done|lia..|].
  exists t. split_and!; [done..|]. rewrite Hd. unfold field_content, field_data.
  apply take_ge. pose proof (slice_data_length _ _ _ Hs) as Hlen. unfold py_len in Hlen.
  rewrite length_drop. lia.
Qed.

(** A decoded item, given its header. *)
Lemma decode_item_header kind cursor list off n h :
  slice_in kind cursor h → cursor.(sl_len) ≠ 0 → 0 <= off → 0 <= n → 0 < off + n ->
  ref_hdr kind cursor h = (Ok (list, off, n), h) →
  off + n <= cursor.(sl_len) →
  ∃ f, decode_item kind cursor h = (Ok f, h) ∧ field_in kind f h ∧ f.(is_list) = list ∧
    f.(content_len) = n ∧ f.(source).(sl_len) = off + n ∧
    field_data kind f h = take (Z.to_nat (off + n)) (slice_data kind cursor h).
Proof.
  intros Hs Hne Hoff Hn Hpos Hh Hle. unfold decode_item.
  rewrite (proj2 (Z.eqb_neq _ _)) by done. rewrite bind_run, Hh.
  rewrite !(proj2 (Z.ltb_ge _ _)) by lia.
  rewrite (proj2 (Z.ltb_lt _ _)), (proj2 (Z.leb_le _ _)) by lia. cbn [andb].
  destruct (sub_slice_ok kind cursor 0 (off + n) h) as (t & Et & Ht & Htl & Htd); [done|lia..|].
  rewrite of_outcome_run, Et. cbn [mbind outcome_bind].
  unfold rlp_field_ref, validated, rlp_field_ref_valid. destruct Hs as (H1 & H2 & H3 & H4).
  rewrite !(proj2 (Z.leb_le _ _)) by lia. cbn [andb].
  eexists. split; [done|]. cbn. split; [split; [done|cbn; lia]|].
  split_and!; [done..|]. unfold field_data. cbn [source]. by rewrite Htd, drop_0.
Qed.

Lemma decode_item_run kind cursor (list : bool) p rest h :
  slice_in kind cursor h → slice_data kind cursor h = rlp_encode list p ++ rest →
  ∃ f, decode_item kind cursor h = (Ok f, h) ∧ field_in kind f h ∧ f.(is_list) = list ∧
    f.(source).(sl_len) = py_len (rlp_encode list p) ∧
    field_data kind f h = rlp_encode list p ∧ field_content kind f h = p.
Proof.
  intros Hs E. pose proof (slice_data_length _ _ _ Hs) as Hl. rewrite E, py_len_app in Hl.
  pose proof (py_len_nonneg rest). pose proof (py_len_nonneg p).
  pose proof (rlp_encode_len_le list p). pose proof (rlp_encode_len_pos list p).
  destruct (decode_item_header kind cursor list
    (py_len (rlp_encode list p) - py_len p) (py_len p) h Hs ltac:(lia) ltac:(lia) ltac:(lia) ltac:(lia)
    (ref_hdr_run kind h cursor list p rest Hs E) ltac:(lia))
    as (f & Ef & Hf & Hlst & Hcl & Hsl & Hd).
  exists f. split_and!; [done|done|done|lia| |].
  - rewrite Hd, E. apply take_app_length'. unfold py_len. lia.
  - unfold field_content. rewrite Hd, E, Hsl, Hcl.
    replace (Z.to_nat (py_len (rlp_encode list p) - py_len p + py_len p)) with (length (rlp_encode list p))
      by (unfold py_len; lia).
    rewrite take_app_length. destruct list; unfold rlp_encode, rlp_list in *;
      rewrite ?rlp_string_split, ?py_len_app in *; apply drop_app_length'; unfold py_len; lia.
Qed.

(** Any bytes at all are either refused or give a reference into the cursor. *)
Lemma ref_hdr_total kind s h :
  slice_in kind s h → s.(sl_len) ≠ 0 →
  ref_hdr kind s h = (Raise SailExit, h) ∨
  ∃ list off n, ref_hdr kind s h = (Ok (list, off, n), h) ∧ 0 <= off ∧ 0 <= n ∧ 0 < off + n.
Proof.
  intros Hs Hne. pose proof (slice_data_length _ _ _ Hs) as Hl. pose proof Hs as (_ & Hpos & _).
  destruct (slice_data kind s h) as [|b l] eqn:E; [by rewrite <-Hl in Hne|].
  pose proof (slice_cons_len kind h _ _ _ Hs E) as Hcl. pose proof (Z_of_byte_range b) as Hb.
  assert (∀ lst w, 0 <= w → long_header kind s lst w h = (Raise SailExit, h) ∨
    ∃ list off n, long_header kind s lst w h = (Ok (list, off, n), h) ∧ 0 <= off ∧ 0 <= n ∧ 0 < off + n)
    as Hlong.
  { intros lst w Hw. destruct (Z.le_gt_cases w (py_len l)).
    - right. rewrite (long_header_run kind h s lst w b l) by done. eexists _, _, _. split; [done|].
      pose proof (from_be_bound (take (Z.to_nat w) l)). lia.
    - left. unfold long_header. by rewrite (proj2 (Z.leb_gt _ _)) by lia. }
  unfold ref_hdr. rewrite (proj2 (Z.eqb_neq _ _)) by done.
  rewrite bind_run, (slice_head_run kind h s b l Hs E).
  destruct (Z.ltb_spec (Z_of_byte b) 128); [right; eexists _, _, _; split; [done|lia]|].
  destruct (Z.ltb_spec (Z_of_byte b) 184); [right; eexists _, _, _; split; [done|lia]|].
  destruct (Z.ltb_spec (Z_of_byte b) 192); [apply Hlong; lia|].
  destruct (Z.ltb_spec (Z_of_byte b) 248); [right; eexists _, _, _; split; [done|lia]|].
  apply Hlong; lia.
Qed.

Lemma decode_item_total kind cursor h :
  slice_in kind cursor h →
  decode_item kind cursor h = (Raise SailExit, h) ∨
  ∃ f, decode_item kind cursor h = (Ok f, h) ∧ field_in kind f h ∧
    0 < f.(source).(sl_len) <= cursor.(sl_len) ∧
    field_data kind f h = take (Z.to_nat f.(source).(sl_len)) (slice_data kind cursor h).
Proof.
  intros Hs. destruct (decide (cursor.(sl_len) = 0)) as [E|Hne].
  { left. unfold decode_item. by rewrite (proj2 (Z.eqb_eq _ _)). }
  destruct (ref_hdr_total kind cursor h Hs Hne) as [Hr|(list & off & n & Hr & Ho & Hn & Hp)].
  { left. unfold decode_item. rewrite (proj2 (Z.eqb_neq _ _)) by done. by rewrite bind_run, Hr. }
  destruct (Z.le_gt_cases (off + n) cursor.(sl_len)) as [Hle|Hgt].
  - right. destruct (decode_item_header kind cursor list off n h Hs Hne Ho Hn Hp Hr Hle)
      as (f & Ef & Hf & _ & _ & Hsl & Hd).
    exists f. rewrite Hsl. split; [done|]. split; [done|]. split; [lia|done].
  - left. unfold decode_item. rewrite (proj2 (Z.eqb_neq _ _)) by done. rewrite bind_run, Hr.
    destruct (Z.ltb_spec cursor.(sl_len) off); [done|].
    by destruct (Z.ltb_spec (cursor.(sl_len) - off) n); [|lia].
Qed.

(** A field of up to 32 bytes, as a number. *)
Lemma decode_word_run kind f h :
  field_in kind f h → f.(is_list) = false → f.(content_len) <= 32 →
  decode_word kind f h = (Ok (from_be (field_content kind f h)), h).
Proof.
  intros Hf Hl Hle. pose proof (field_content_len _ _ _ Hf) as Hc. pose proof Hf as [Hs [Hc0 Hcs]].
  unfold decode_word, RLP_WORD_LENGTH_LIMIT, WORD_BYTE_LENGTH. rewrite Hl. cbn [orb].
  rewrite (proj2 (Z.ltb_ge _ _)) by lia. rewrite bind_run, (slice_load_n_run kind) by (done || lia).
  fold (field_data kind f h). fold (field_content kind f h).
  rewrite take_ge by (unfold py_len in Hc; lia).
  pose proof (from_be_bound (field_content kind f h)) as B. rewrite Hc in B.
  assert (256 ^ f.(content_len) <= 256 ^ 32) by (apply Z.pow_le_mono_r; lia).
  rewrite of_outcome_run, word_ok; [done|].
  unfold is_word, WORD_MODULUS. change (2 ^ 256) with (256 ^ 32). lia.
Qed.

(** ** Canonical items *)

Section canonical.
Context (f : RlpFieldRef) (h : HostState) (Hf : field_in RInput f h).
Let d := field_data RInput f h.
Let p := field_content RInput f h.

Lemma field_data_split :
  d = take (Z.to_nat (f.(source).(sl_len) - f.(content_len))) d ++ p.
Proof. unfold p, field_content. fold d. by rewrite take_drop. Qed.

Lemma field_data_len : py_len d = f.(source).(sl_len).
Proof. apply slice_data_length, Hf. Qed.

Lemma field_content_le : f.(content_len) < 2 ^ 32.
Proof. destruct Hf as [(? & ? & ? & ?) ?]. lia. Qed.

(** An item is its content after some prefix exactly when the prefix is what
    comes before the content. *)
Lemma prefixed_iff (q : bytes) :
  d = q ++ p ↔ py_len q = f.(source).(sl_len) - f.(content_len) ∧
               take (length q) d = q.
Proof.
  pose proof field_data_len as Hl. pose proof (field_content_len _ _ _ Hf) as Hc. fold p in Hc.
  pose proof field_data_split as Hd.
  split.
  - intros E. split.
    + apply (f_equal py_len) in E. rewrite py_len_app in E. lia.
    + rewrite E. apply take_app_length.
  - intros [Hq Ht]. rewrite Hd at 1. f_equal.
    transitivity (take (length q) d); [|done]. f_equal. unfold py_len in Hq. lia.
Qed.

(** The first byte of the item. *)
Lemma source_byte_run :
  stateless_input_slice_byte f.(source) 0 h = (Ok (first_of d), h).
Proof. by apply slice_byte_run; [apply Hf|]. Qed.

Lemma head_iff v : 0 <= v < 256 → 0 < f.(source).(sl_len) →
  first_of d = v ↔ take 1 d = [byte_wrap v].
Proof.
  intros Hv Hp. pose proof field_data_len as Hl. destruct d as [|b l]; [unfold py_len in Hl; cbn in Hl; lia|].
  change (first_of (b :: l)) with (Z_of_byte b). cbn [take]. split.
  - intros <-. by rewrite byte_wrap_Z_of_byte.
  - intros [= ->]. by rewrite Z_of_byte_wrap, Z.mod_small.
Qed.

Lemma framed_short_run marker :
  0 <= marker <= 200 → f.(content_len) <= 55 → 0 < f.(source).(sl_len) →
  framed_short f marker h =
    (Ok (bool_decide (d = rlp_prefix marker 0 f.(content_len) ++ p)), h).
Proof.
  intros Hm Hn Hp. unfold framed_short. rewrite bind_run, source_byte_run, ret_run. f_equal. f_equal.
  assert (0 <= f.(content_len)) by apply Hf.
  unfold rlp_prefix, marked, rlp_nat_length_byte. rewrite (proj2 (Z.leb_le _ _)) by done.
  rewrite (low_byte_small f.(content_len)), low_byte_small by lia.
  apply eq_true_iff_eq. rewrite andb_true_iff, !Z.eqb_eq, bool_decide_eq_true, prefixed_iff.
  rewrite head_iff by lia. change (py_len [_]) with 1. change (length [_]) with 1%nat.
  intuition lia.
Qed.

Lemma framed_long_run short marker :
  0 <= marker <= 248 → 55 < f.(content_len) →
  framed_long f marker h =
    (Ok (bool_decide (d = rlp_prefix short marker f.(content_len) ++ p)), h).
Proof.
  intros Hm Hn. pose proof field_content_le as Hle. pose proof field_data_len as Hl.
  pose proof Hf as [Hs [_ Hcs]]. set (n := f.(content_len)) in *.
  assert (is_word n) as Hw.
  { unfold is_word, WORD_MODULUS. assert (2 ^ 32 < 2 ^ 256) by done. lia. }
  assert (1 <= byte_len n <= 4) as Hbl.
  { pose proof (byte_len_pos n). split; [lia|].
    apply byte_len_le; [lia|done|change (256 ^ 4) with (2 ^ 32); lia]. }
  unfold framed_long. fold n. rewrite bind_run, of_outcome_run, (length_word_ok n Hw).
  rewrite bind_run, of_outcome_run, (proj1 (minimal_len_ok n Hw)), bind_run, source_byte_run.
  rewrite (proj2 (Z.ltb_lt _ _)) by lia. rewrite bind_run, bind_run.
  unfold stateless_input_slice_load_n, stateless_input_load_n_word.
  rewrite (slice_load_n_run RInput) by (done || lia). fold (field_data RInput f h). fold d.
  rewrite ret_run, ret_run. f_equal. f_equal.
  unfold rlp_prefix, marked, rlp_nat_length_byte. rewrite (proj2 (Z.leb_gt _ _)) by lia.
  rewrite (low_byte_small (byte_len n)), low_byte_small by lia.
  apply eq_true_iff_eq. rewrite !andb_true_iff, !Z.eqb_eq, bool_decide_eq_true, prefixed_iff.
  rewrite head_iff by lia. fold n.
  pose proof (minimal_be_len n) as Hml.
  assert (py_len (byte_wrap (marker + byte_len n) :: minimal_be n) = 1 + byte_len n) as ->
    by (rewrite <-Hml; unfold py_len; cbn; lia).
  destruct d as [|b l] eqn:Ed; [unfold py_len in Hl; cbn in Hl; lia|].
  change (Z.to_nat (0 + 1)) with 1%nat. cbn [drop length take app].
  assert (from_be (take (Z.to_nat (byte_len n)) l) = n ↔
          take (length (minimal_be n)) l = minimal_be n) as ->.
  { assert (length (minimal_be n) = Z.to_nat (byte_len n)) as El by (unfold py_len in Hml; lia).
    rewrite El. split; [|intros ->; by apply from_be_minimal; lia].
    intros E. apply from_be_inj; [|by rewrite E, from_be_minimal by lia].
    rewrite El, length_take. unfold py_len in Hl. cbn in Hl. lia. }
  split.
  - intros (? & [= ->] & ->). split; [lia|done].
  - intros (? & [= -> E]). split; [lia|done].
Qed.

(** The test of [rlp_ref_framing_canonical] is equality with the reference
    encoding. *)
Lemma framing_canonical_run :
  rlp_ref_framing_canonical f h = (Ok (bool_decide (d = rlp_encode f.(is_list) p)), h).
Proof.
  pose proof field_data_len as Hl. pose proof (field_content_len _ _ _ Hf) as Hc. fold p in Hc.
  pose proof Hf as [Hs [Hc0 Hcs]]. unfold rlp_ref_framing_canonical, RLP_SHORT_LENGTH_LIMIT.
  destruct (Z.eqb_spec f.(source).(sl_len) 0) as [E0|Hne].
  { rewrite bool_decide_false; [done|]. intros E. apply (f_equal py_len) in E.
    pose proof (rlp_encode_len_pos f.(is_list) p). lia. }
  destruct f.(is_list) eqn:El.
  { unfold rlp_encode, rlp_list. rewrite Hc. destruct (Z.leb_spec f.(content_len) 55) as [Hle|Hgt].
    - rewrite framed_short_run by lia. unfold rlp_prefix. by rewrite (proj2 (Z.leb_le _ _)).
    - rewrite (framed_long_run 0xc0) by lia. done. }
  unfold rlp_encode, rlp_string.
  destruct (Z.eqb_spec f.(content_len) 0) as [En|Hn0].
  { assert (p = []) as Hp by (unfold py_len in Hc; apply length_zero_iff_nil; lia).
    rewrite bind_run, source_byte_run, ret_run. f_equal. f_equal.
    apply eq_true_iff_eq. rewrite andb_true_iff, !Z.eqb_eq, bool_decide_eq_true.
    rewrite Hp. change ([] ++ []) with (@nil byte). change (rlp_prefix 0x80 0xb7 (py_len [])) with [Byte.x80].
    rewrite app_nil_r. destruct d as [|b l] eqn:Ed; [unfold py_len in Hl; cbn in Hl; lia|].
    change (first_of (b :: l)) with (Z_of_byte b). split.
    - intros [E1 Eb]. rewrite E1 in Hl. destruct l; [|unfold py_len in Hl; cbn in Hl; lia].
      f_equal. by apply Z_of_byte_inj.
    - intros [= -> ->]. by rewrite <-Hl. }
  rewrite bind_run. unfold stateless_input_slice_byte at 1. 
  change stateless_input_byte_at with (_region_byte RInput).
  rewrite slice_byte_run by (done || lia). fold (field_data RInput f h). fold d.
  assert (byte_or_zero d (f.(source).(sl_len) - f.(content_len)) = first_of p) as ->.
  { unfold first_of, byte_or_zero, mem_at, p, field_content. fold d. rewrite lookup_drop. do 3 f_equal. lia. }
  rewrite <-Hc, (self_encoding_test p (first_of p)) by done.
  destruct (self_encoding p) eqn:Es.
  - destruct p as [|b [|? ?]] eqn:Ep; [done| |done].
    rewrite bind_run, source_byte_run, ret_run. f_equal. f_equal.
    apply eq_true_iff_eq. rewrite andb_true_iff, !Z.eqb_eq, bool_decide_eq_true.
    change (first_of [b]) with (Z_of_byte b).
    destruct d as [|c l] eqn:Ed; [unfold py_len in Hl; cbn in Hl; lia|].
    change (first_of (c :: l)) with (Z_of_byte c). split.
    + intros [E1 Eb]. rewrite E1 in Hl. destruct l; [|unfold py_len in Hl; cbn in Hl; lia].
      f_equal. by apply Z_of_byte_inj.
    + intros [= -> ->]. by rewrite <-Hl.
  - rewrite Hc. destruct (Z.leb_spec f.(content_len) 55) as [Hle|Hgt].
    + rewrite framed_short_run by lia. unfold rlp_prefix. by rewrite (proj2 (Z.leb_le _ _)).
    + rewrite (framed_long_run 0x80) by lia. done.
Qed.

(** The content is a number without leading zeros, encoded as such. *)
Definition canonical_number : bool :=
  negb f.(is_list) && bool_decide (d = rlp_string p ∧ p = minimal_be (from_be p)).

Lemma content_first_run :
  stateless_input_slice_byte f.(source) (f.(source).(sl_len) - f.(content_len)) h =
    (Ok (first_of p), h).
Proof.
  pose proof Hf as [Hs [Hc0 Hcs]]. unfold stateless_input_slice_byte.
  change stateless_input_byte_at with (_region_byte RInput).
  rewrite slice_byte_run by (done || lia). fold (field_data RInput f h). fold d. do 2 f_equal.
  unfold first_of, byte_or_zero, mem_at, p, field_content. fold d. rewrite lookup_drop. do 3 f_equal. lia.
Qed.

Lemma leading_zero_iff (q : bytes) : (q = [] ∨ first_of q ≠ 0) ↔ q = minimal_be (from_be q).
Proof.
  split.
  - intros Hq. symmetry. apply minimal_be_from_be. intros b l ->. destruct Hq as [Hq|Hq]; [done|exact Hq].
  - intros E. destruct q as [|b l]; [by left|right]. change (first_of (b :: l)) with (Z_of_byte b).
    pose proof (from_be_bound (b :: l)).
    apply (minimal_be_head (from_be (b :: l)) b l); [lia|by symmetry].
Qed.

Lemma uint_canonical_run : rlp_item_uint_canonical f h = (Ok canonical_number, h).
Proof.
  pose proof (field_content_len _ _ _ Hf) as Hc. fold p in Hc.
  unfold rlp_item_uint_canonical, rlp_ref_bytes_canonical, canonical_number.
  rewrite !bind_run, framing_canonical_run, ret_run.
  destruct f.(is_list); [done|]. unfold rlp_encode. cbn [negb andb].
  destruct (decide (d = rlp_string p)) as [Ed|Ed].
  2:{ rewrite bool_decide_false by done. rewrite bool_decide_false; [done|]. by intros []. }
  rewrite bool_decide_true by done. cbn [negb]. rewrite bind_run, content_first_run, ret_run.
  f_equal. f_equal. apply eq_true_iff_eq.
  rewrite orb_true_iff, negb_true_iff, Z.eqb_eq, Z.eqb_neq, bool_decide_eq_true.
  rewrite <-leading_zero_iff. assert (f.(content_len) = 0 ↔ p = []) as ->; [|intuition].
  rewrite <-Hc. unfold py_len. rewrite <-length_zero_iff_nil. lia.
Qed.

Lemma decode_u256_run :
  rlp_decode_u256 f h =
    (if canonical_number && (f.(content_len) <=? 32) then Ok (from_be p) else Raise SailExit, h).
Proof.
  unfold rlp_decode_u256. rewrite bind_run, uint_canonical_run.
  destruct canonical_number eqn:Ec; [|done]. cbn [andb].
  apply andb_true_iff in Ec as [Hl _]. apply negb_true_iff in Hl.
  unfold rlp_decode_word. rewrite bind_run. destruct (Z.leb_spec f.(content_len) 32).
  - rewrite (decode_word_run RInput) by done. fold p. rewrite of_outcome_run, word_ok; [done|].
    pose proof (from_be_bound p) as B. unfold p in B. rewrite (field_content_len _ _ _ Hf) in B. fold p in B.
    assert (256 ^ f.(content_len) <= 256 ^ 32) by (apply Z.pow_le_mono_r; lia).
    unfold is_word, WORD_MODULUS. change (2 ^ 256) with (256 ^ 32). lia.
  - unfold decode_word. by rewrite Hl, (proj2 (Z.ltb_lt RLP_WORD_LENGTH_LIMIT _)).
Qed.

Lemma decode_uint64_run :
  rlp_decode_uint64 f h =
    (if canonical_number && (f.(content_len) <=? 8) then Ok (from_be p) else Raise SailExit, h).
Proof.
  pose proof Hf as [Hs [Hc0 Hcs]]. unfold rlp_decode_uint64. rewrite bind_run, uint_canonical_run.
  destruct canonical_number; [|done]. cbn [andb negb orb].
  unfold RLP_UINT64_LENGTH_LIMIT, EIGHT_BYTE_LENGTH.
  destruct (Z.leb_spec f.(content_len) 8), (Z.ltb_spec 8 f.(content_len)); try lia; [|done].
  destruct (item_content_ok _ _ _ Hf) as (t & Et & Ht & Htl & Htd). fold p in Htd.
  unfold rlp_item_content. rewrite bind_run, of_outcome_run, Et, bind_run, of_outcome_run.
  rewrite sail_tmod_ok, Z.rem_small by lia.
  unfold rlp_uint64_width. rewrite bind_run, uint64_width_run by (done || lia). rewrite Htd.
  rewrite take_ge.
  - rewrite of_outcome_run, Uint_ok; [done|]. pose proof (from_be_bound p). lia.
  - pose proof (slice_data_length _ _ _ Ht) as Hl. rewrite Htd in Hl. unfold py_len in Hl. lia.
Qed.
End canonical.

(** ** Sizes *)

Lemma rlp_prefix_len short long n :
  py_len (rlp_prefix short long n) = if n <=? 55 then 1 else 1 + byte_len n.
Proof.
  unfold rlp_prefix. destruct (n <=? 55); [done|]. rewrite <-(minimal_be_len n).
  unfold py_len. cbn. lia.
Qed.

Lemma length_prefix_ok short long n :
  0 <= n < 2 ^ 32 → rlp_length_prefix_len n = Ok (py_len (rlp_prefix short long n)).
Proof.
  intros Hn. rewrite rlp_prefix_len. unfold rlp_length_prefix_len, RLP_SHORT_LENGTH_LIMIT.
  destruct (Z.leb_spec n 55); [by apply BoundedUint_ok|].
  assert (is_word n) as Hw.
  { unfold is_word, WORD_MODULUS. assert (2 ^ 32 < 2 ^ 256) by done. lia. }
  rewrite length_word_ok by done. cbn [mbind outcome_bind].
  destruct (minimal_len_ok n Hw) as [-> ?]. cbn [mbind outcome_bind]. apply BoundedUint_ok. lia.
Qed.

Lemma materialized_size_ok p first :
  (py_len p = 1 → first = first_of p) → py_len (rlp_string p) <= SCRATCH_LIMIT →
  rlp_materialized_slice_size (py_len p) first = Ok (py_len (rlp_string p)).
Proof.
  intros Hf Hr. unfold rlp_materialized_slice_size. rewrite self_encoding_test by done.
  unfold rlp_string in *. destruct (self_encoding p) eqn:Es.
  { by destruct p as [|? [|? ?]]. }
  rewrite py_len_app in *. pose proof (py_len_nonneg p).
  pose proof (rlp_prefix_len_pos 0x80 0xb7 (py_len p)). unfold SCRATCH_LIMIT in Hr.
  rewrite (length_prefix_ok 0x80 0xb7) by lia. cbn [mbind outcome_bind].
  unfold rlp_scratch_small_length, rlp_scratch_length. rewrite Uint_ok by lia. cbn [mbind outcome_bind].
  unfold rlp_scratch_length_add, rlp_scratch_length. change (Z.shiftl 1 32 - 1) with (2 ^ 32 - 1).
  rewrite (proj2 (Z.leb_le _ _)) by lia. rewrite Uint_ok by lia. cbn [mbind outcome_bind].
  rewrite Uint_ok by lia. f_equal. lia.
Qed.

Lemma uint_word_size_ok w :
  is_word w → rlp_uint_word_size w = Ok (py_len (rlp_string (minimal_be w))).
Proof.
  intros Hw. unfold rlp_uint_word_size. destruct (minimal_len_ok w Hw) as [-> Hb].
  cbn [mbind outcome_bind]. cbv zeta.
  replace (byte_len w =? 1) with (py_len (minimal_be w) =? 1) by (by rewrite minimal_be_len).
  rewrite self_encoding_test.
  2:{ intros E. rewrite E. rewrite minimal_be_len in E. apply first_of_minimal; [apply Hw|done]. }
  unfold rlp_string. destruct (self_encoding (minimal_be w)) eqn:Es.
  { destruct (minimal_be w) as [|? [|? ?]]; [done| |done]. by rewrite BoundedUint_ok. }
  rewrite py_len_app, rlp_prefix_len, minimal_be_len, (proj2 (Z.leb_le _ _)) by lia.
  apply BoundedUint_ok. lia.
Qed.

Lemma short_string_len p : 1 < py_len p <= 55 → py_len (rlp_string p) = 1 + py_len p.
Proof.
  intros Hp. unfold rlp_string. destruct (self_encoding p) eqn:Es.
  { destruct p as [|? [|? ?]]; try done. unfold py_len in Hp. cbn in Hp. lia. }
  rewrite py_len_app, rlp_prefix_len. by rewrite (proj2 (Z.leb_le _ _)) by lia.
Qed.

Lemma minimal_string_len w : is_word w → py_len (rlp_string (minimal_be w)) <= 33.
Proof.
  intros Hw. pose proof (minimal_len_ok w Hw) as [_ Hb]. unfold rlp_string.
  destruct (self_encoding (minimal_be w)); [rewrite minimal_be_len; lia|].
  rewrite py_len_app, rlp_prefix_len, minimal_be_len, (proj2 (Z.leb_le _ _)); lia.
Qed.

(** ** The claims *)

(** C24: Encoding a slice of the input into the scratch arena and decoding what
    was written gives the slice back: the arena holds exactly the reference
    encoding, the decoder takes all of it for one string, and its content has
    the bytes of the slice. Nothing of the host but the arena changes. *)
Theorem rlp_roundtrip (st : SpecState) (s : Slice) :
  arena_wf st → slice_in RInput s st.(sp_host) →
  room st (py_len (rlp_string (slice_data RInput s st.(sp_host)))) →
  ∃ st' f content,
    (start ← scratch_begin; rlp_write_input_slice s;; encoded ← scratch_finish start;
     f ← zoom (scratch_rlp_decode_item encoded);
     content ← of_outcome (scratch_rlp_item_content f); mret (f, content)) st
      = (Ok (f, content), st') ∧
    appends (rlp_string (slice_data RInput s st.(sp_host))) st st' ∧ f.(is_list) = false ∧
    field_data RScratch f st'.(sp_host) = rlp_string (slice_data RInput s st.(sp_host)) ∧
    slice_data RScratch content st'.(sp_host) = slice_data RInput s st.(sp_host).
Proof.
  intros Hwf Hs Hr. set (p := slice_data RInput s st.(sp_host)) in *.
  destruct (write_slice_ok st RInput s Hwf) as (st' & R & A); [by split|done|].
  fold p in A. pose proof (arena_len _ Hwf) as L. pose proof (proj1 A) as Hwf'.
  pose proof (arena_len _ Hwf') as L'. pose proof (proj1 (proj2 A)) as Ea.
  rewrite Ea, py_len_app in L'. pose proof (py_len_nonneg (arena st)).
  pose proof (py_len_nonneg (rlp_string p)).
  destruct (sub_slice_ok RScratch st'.(scratch_arena) st.(scratch_arena).(sl_len)
              (py_len (rlp_string p)) st'.(sp_host)) as (enc & Ee & He & Hel & Hed);
    [apply Hwf'|lia..|].
  fold (arena st') in Hed. rewrite Ea, drop_app_length' in Hed by (unfold py_len in L; lia).
  rewrite take_ge in Hed by (unfold py_len; lia).
  destruct (decode_item_run RScratch enc false p [] st'.(sp_host) He)
    as (f & Ef & Hf & Hlst & Hsl & Hfd & Hfc); [by rewrite app_nil_r|].
  destruct (item_content_ok _ _ _ Hf) as (content & Ec & _ & _ & Hcd).
  exists st', f, content. split; [|split_and!; [done..|by rewrite Hcd]].
  unfold scratch_begin, get_arena, code_length. rewrite bind_run, bind_run, gets_run.
  rewrite of_outcome_run, Uint_ok by lia. rewrite bind_run. unfold rlp_write_input_slice. rewrite R.
  unfold scratch_finish, get_arena. rewrite bind_run, bind_run, gets_run.
  rewrite (proj2 (Z.leb_le _ _)) by lia. rewrite of_outcome_run.
  replace (sl_len (scratch_arena st') - sl_len (scratch_arena st)) with (py_len (rlp_string p)) by lia.
  unfold scratch_sub_slice. rewrite Ee. rewrite bind_run, zoom_run. change (view st') with (sp_host st').
  unfold scratch_rlp_decode_item. rewrite Ef. cbn [fst snd].
  replace (put (sp_host st') st') with st' by (by destruct st').
  rewrite bind_run, of_outcome_run. unfold scratch_rlp_item_content. rewrite Ec. done.
Qed.

(** A state whose input is some bytes. *)
Definition with_input (l : bytes) : HostState :=
  set_regions (set_stateless_input_bytes l initial_state.(regions)) initial_state.

Lemma rlp_roundtrip_witness :
  ∃ st' f content,
    (start ← scratch_begin; rlp_write_input_slice (mkSlice 1 2);; encoded ← scratch_finish start;
     f ← zoom (scratch_rlp_decode_item encoded);
     content ← of_outcome (scratch_rlp_item_content f); mret (f, content))
      (mkSpec (with_input [Byte.x01; Byte.x02; Byte.x03]) initial_environment EMPTY_SCRATCH_SLICE) = (Ok (f, content), st') ∧
    appends [Byte.x82; Byte.x02; Byte.x03]
      (mkSpec (with_input [Byte.x01; Byte.x02; Byte.x03]) initial_environment EMPTY_SCRATCH_SLICE) st' ∧
    f.(is_list) = false ∧
    field_data RScratch f st'.(sp_host) = [Byte.x82; Byte.x02; Byte.x03] ∧
    slice_data RScratch content st'.(sp_host) = [Byte.x02; Byte.x03].
Proof.
  apply (rlp_roundtrip (mkSpec (with_input [Byte.x01; Byte.x02; Byte.x03]) initial_environment EMPTY_SCRATCH_SLICE)
    (mkSlice 1 2)); vm_compute; intuition congruence.
Defined.

(** Each writer appends exactly the reference encoding: byte strings of any
    region, list prefixes, numbers without their leading zeros, full words and
    addresses; the sizes computed beforehand are the lengths of what is
    written. *)
Theorem rlp_writers_exact (st : SpecState) (kind : RegionKind) (s : Slice) (n w : Z) (a : address) :
  arena_wf st → stable_slice kind s st → 0 <= n < 2 ^ 32 → is_word w → py_len a = 20 →
  room st (py_len (rlp_string (slice_data kind s st.(sp_host)))) →
  room st (33 `max` py_len (rlp_prefix 0xc0 0xf7 n)) →
  let p := slice_data kind s st.(sp_host) in
  writes (rlp_write_slice kind s) st (rlp_string p) tt ∧
  writes (rlp_write_list_prefix n) st (rlp_prefix 0xc0 0xf7 n) tt ∧
  writes (rlp_write_uint_word w) st (rlp_string (minimal_be w)) tt ∧
  writes (rlp_write_word w) st (rlp_string (be_bytes 32 w)) tt ∧
  writes (rlp_write_addr a) st (rlp_string (rev a)) tt ∧
  materialized_size kind s st.(sp_host) = (Ok (py_len (rlp_string p)), st.(sp_host)) ∧
  rlp_uint_word_size w = Ok (py_len (rlp_string (minimal_be w))) ∧
  py_len (rlp_string (be_bytes 32 w)) = rlp_word_size ∧
  py_len (rlp_string (rev a)) = rlp_addr_size ∧
  rlp_list_size n = Ok (py_len (rlp_prefix 0xc0 0xf7 n) + n).
Proof.
  intros Hwf Hs Hn Hw Ha Hr Hr' p. pose proof Hs as [Hin _].
  pose proof (be_bytes_len 32 w) as Hwl. change (Z.of_nat 32) with 32 in Hwl.
  assert (py_len (rev a) = 20) as Hal by (unfold py_len in *; by rewrite length_rev).
  pose proof (minimal_string_len w Hw). unfold room in Hr'.
  split_and!.
  - by apply write_slice_ok.
  - apply write_prefix_ok; [done|lia..|]. unfold room. lia.
  - apply write_uint_word_ok; [done..|]. unfold room. lia.
  - apply write_word_ok; [done..|]. unfold room. lia.
  - apply write_addr_ok; [done..|]. unfold room. lia.
  - unfold materialized_size. rewrite bind_run, first_byte_run by done. fold p.
    rewrite <-(slice_data_length _ _ _ Hin). fold p. rewrite of_outcome_run.
    rewrite materialized_size_ok; [|done|].
    + cbn [mbind outcome_bind]. unfold rlp_scratch_length. rewrite Uint_ok; [done|].
      apply py_len_nonneg.
    + unfold room in Hr. fold p in Hr. pose proof (py_len_nonneg (arena st)). lia.
  - by apply uint_word_size_ok.
  - rewrite short_string_len by lia. by rewrite Hwl.
  - rewrite short_string_len by lia. by rewrite Hal.
  - unfold rlp_list_size. rewrite (length_prefix_ok 0xc0 0xf7) by done. cbn [mbind outcome_bind].
    apply Uint_ok. pose proof (rlp_prefix_len_pos 0xc0 0xf7 n). lia.
Qed.

Lemma rlp_writers_exact_witness :
  writes (rlp_write_uint_word 1024) initial_spec [Byte.x82; Byte.x04; Byte.x00] tt.
Proof.
  refine (proj1 (proj2 (proj2 (rlp_writers_exact initial_spec RInput (mkSlice 0 0) 60 1024
    (zeros 20) _ _ _ _ _ _ _)))); vm_compute; intuition congruence.
Defined.

(** Every encoding is read back, in both regions and whatever follows it:
    the decoder tells strings from lists, takes exactly the bytes of the item,
    finds its content and leaves a cursor on the rest; and bytes that are not a
    complete item are refused with the fatal error, never with a reference
    outside the cursor. *)
Theorem rlp_decode_item_exact (kind : RegionKind) (cursor : Slice) (h : HostState) :
  slice_in kind cursor h →
  (decode_item kind cursor h = (Raise SailExit, h) ∨
   ∃ f, decode_item kind cursor h = (Ok f, h) ∧ field_in kind f h ∧
     0 < f.(source).(sl_len) <= cursor.(sl_len) ∧
     field_data kind f h = take (Z.to_nat f.(source).(sl_len)) (slice_data kind cursor h)) ∧
  ∀ (list : bool) p rest, slice_data kind cursor h = rlp_encode list p ++ rest →
    ∃ f content next,
      decode_item kind cursor h = (Ok f, h) ∧ f.(is_list) = list ∧
      field_data kind f h = rlp_encode list p ∧
      item_content f = Ok content ∧ slice_data kind content h = p ∧
      slice_suffix cursor f.(source).(sl_len) = Ok next ∧ slice_data kind next h = rest ∧
      (cursor_expect_end next = Ok tt ↔ rest = []).
Proof.
  intros Hs. split; [by apply decode_item_total|]. intros list p rest E.
  destruct (decode_item_run kind cursor list p rest h Hs E) as (f & Ef & Hf & Hl & Hsl & Hfd & Hfc).
  destruct (item_content_ok _ _ _ Hf) as (content & Ec & _ & _ & Hcd).
  pose proof (slice_data_length _ _ _ Hs) as Hlen. rewrite E, py_len_app in Hlen.
  pose proof (py_len_nonneg rest). pose proof (py_len_nonneg (rlp_encode list p)).
  destruct (slice_suffix_ok kind cursor f.(source).(sl_len) h) as (next & En & Hn & Hnl & Hnd);
    [done|lia|].
  rewrite E, drop_app_length' in Hnd by (rewrite Hsl; unfold py_len; lia).
  exists f, content, next. split_and!; [done..|by rewrite Hcd|done|done|].
  pose proof (slice_data_length _ _ _ Hn) as Hnlen. rewrite Hnd in Hnlen.
  unfold cursor_expect_end, py_len in *. destruct (Z.eqb_spec next.(sl_len) 0).
  - split; [|done]. intros _. apply length_zero_iff_nil. lia.
  - split; [done|]. intros ->. cbn in Hnlen. lia.
Qed.

Lemma rlp_decode_item_exact_witness :
  ∃ f content next,
    decode_item RInput (mkSlice 0 3) (with_input [Byte.xc1; Byte.x05; Byte.x07])
      = (Ok f, with_input [Byte.xc1; Byte.x05; Byte.x07]) ∧ f.(is_list) = true ∧
    field_data RInput f (with_input [Byte.xc1; Byte.x05; Byte.x07]) = [Byte.xc1; Byte.x05] ∧
    item_content f = Ok content ∧
    slice_data RInput content (with_input [Byte.xc1; Byte.x05; Byte.x07]) = [Byte.x05] ∧
    slice_suffix (mkSlice 0 3) f.(source).(sl_len) = Ok next ∧
    slice_data RInput next (with_input [Byte.xc1; Byte.x05; Byte.x07]) = [Byte.x07] ∧
    (cursor_expect_end next = Ok tt ↔ [Byte.x07] = []).
Proof.
  refine (proj2 (rlp_decode_item_exact RInput (mkSlice 0 3)
    (with_input [Byte.xc1; Byte.x05; Byte.x07]) _) true [Byte.x05] [Byte.x07] _);
    [vm_compute; intuition congruence|reflexivity].
Defined.

(** C26: The canonicity test is equality with the reference encoding: a field is
    accepted exactly when its bytes are what encoding its content gives, so a
    long form of a short length, a padded length or a marked single byte are
    all refused; and testing never raises. *)
Theorem rlp_canonical_exact (f : RlpFieldRef) (h : HostState) :
  field_in RInput f h →
  rlp_ref_framing_canonical f h =
    (Ok (bool_decide (field_data RInput f h = rlp_encode f.(is_list) (field_content RInput f h))), h).
Proof. apply framing_canonical_run. Qed.

Lemma rlp_canonical_exact_witness :
  rlp_ref_framing_canonical (mkRlpFieldRef (mkSlice 0 2) false 1) (with_input [Byte.x81; Byte.x05])
    = (Ok false, with_input [Byte.x81; Byte.x05]).
Proof.
  exact (rlp_canonical_exact (mkRlpFieldRef (mkSlice 0 2) false 1)
    (with_input [Byte.x81; Byte.x05]) ltac:(vm_compute; intuition congruence)).
Defined.

(** A number is decoded exactly from its canonical encoding: the decoders of
    256-bit and 64-bit numbers return a number precisely when the field is a
    string whose content is its bytes without leading zeros and whose bytes are
    the reference encoding of that content; everything else is the fatal
    error. *)
Theorem rlp_numbers_exact (f : RlpFieldRef) (h : HostState) (w : Z) :
  field_in RInput f h →
  let encodes_number := f.(is_list) = false ∧ 0 <= w ∧
    field_content RInput f h = minimal_be w ∧ field_data RInput f h = rlp_string (minimal_be w) in
  (rlp_decode_u256 f h = (Ok w, h) ↔ encodes_number ∧ w < 2 ^ 256) ∧
  (rlp_decode_uint64 f h = (Ok w, h) ↔ encodes_number ∧ w < 2 ^ 64) ∧
  (∀ e, fst (rlp_decode_u256 f h) = Raise e → e = SailExit) ∧
  (∀ e, fst (rlp_decode_uint64 f h) = Raise e → e = SailExit).
Proof.
  intros Hf encodes_number. rewrite decode_u256_run, decode_uint64_run by done.
  pose proof (field_content_len _ _ _ Hf) as Hc.
  assert (∀ k, 0 <= k →
    ((if canonical_number f h && (f.(content_len) <=? k)
      then Ok (from_be (field_content RInput f h)) else Raise SailExit, h) = (Ok w, h) ↔
     encodes_number ∧ w < 256 ^ k)) as H.
  { intros k Hk. rewrite <-Hc. unfold canonical_number, encodes_number.
    set (p := field_content RInput f h) in *. split.
    - destruct (negb _ && _) eqn:E; [|done]. cbn [andb].
      destruct (Z.leb_spec (py_len p) k); [|done]. intros [= <-].
      apply andb_true_iff in E as [El Ep]. apply negb_true_iff in El.
      apply bool_decide_eq_true in Ep as [Ed Ep]. pose proof (from_be_bound p).
      split; [|assert (256 ^ py_len p <= 256 ^ k) by (apply Z.pow_le_mono_r; lia); lia].
      split_and!; [done|lia|done|by rewrite <-Ep].
    - intros [(El & Hw & Ep & Ed) Hlt].
      assert (from_be p = w) as Hfp by (rewrite Ep; by apply from_be_minimal).
      rewrite El, bool_decide_true by (rewrite Hfp; split; [by rewrite Ep|done]).
      cbn [negb andb]. rewrite (proj2 (Z.leb_le _ _)); [by rewrite Hfp|].
      rewrite Ep, minimal_be_len. by apply byte_len_le. }
  split_and!.
  - rewrite (H 32) by done. done.
  - rewrite (H 8) by done. done.
  - cbn. destruct (_ && _); naive_solver.
  - cbn. destruct (_ && _); naive_solver.
Qed.

Lemma rlp_numbers_exact_witness :
  rlp_decode_u256 (mkRlpFieldRef (mkSlice 0 3) false 2) (with_input [Byte.x82; Byte.x04; Byte.x00])
    = (Ok 1024, with_input [Byte.x82; Byte.x04; Byte.x00]).
Proof.
  assert (field_in RInput (mkRlpFieldRef (mkSlice 0 3) false 2)
            (with_input [Byte.x82; Byte.x04; Byte.x00])) as Hf
    by (vm_compute; intuition congruence).
  apply (proj1 (rlp_numbers_exact _ _ 1024 Hf)). vm_compute. intuition congruence.
Defined.
