(* ===== verification/RlpEncoders.v ===== *)
(** * RlpEncoders: whole encodings in the arena

    An encoder reserves the length computed beforehand, writes its parts one
    after another and finishes with the slice of what was written, whose
    length must be the one reserved. The rules here follow the parts of an
    encoder; what is written so far is the first argument. *)

From Stdlib Require Import ZArith Lia Strings.Byte.
From stdpp Require Import base tactics option list.
From S2P Require Import Prelude PyBytes SailRuntime HostTypes Words WordTheorems WordBits ChainConfig Regions RegionAccess Gas RegionFacts Environment Scratch Rlp RlpTheorems.
Local Open Scope Z_scope.

(** Reserving room leaves what was written. *)
Lemma reserve_ok st n :
  arena_wf st → 0 <= n → writes (scratch_reserve n) st [] st.(scratch_arena).(sl_len).
Proof.
  intros Hw Hn. pose proof (arena_len _ Hw) as Hl. pose proof Hw as [H0 Hin].
  destruct st as [h env [o k]]. cbn [sp_host scratch_arena sl_bytes sl_len] in *. subst o.
  destruct Hin as (_ & Hk & Hin & Hmax). cbn in Hk, Hin, Hmax.
  set (b := _ensure_length (scratch_bytes (regions h)) (k + n)).
  exists (mkSpec (set_regions (set_scratch_bytes b (regions h)) h) env (mkSlice 0 k)). split.
  { unfold scratch_reserve, get_arena, host_scratch_reserve, modify_regions. py_step. rewrite zoom_run.
    cbn [view spec_host sp_host]. py_step. rewrite zoom_run. cbn. py_step. unfold code_length.
    by rewrite Uint_ok. }
  assert (Hb : ∃ z, b = scratch_bytes (regions h) ++ z) 
    by (unfold b, _ensure_length; case_match; [by eexists|exists []; by rewrite app_nil_r]).
  destruct Hb as [z Hb]. rewrite Hb.
  assert (Hw' : arena_wf (mkSpec (set_regions (set_scratch_bytes (scratch_bytes (regions h) ++ z) (regions h)) h)
    env (mkSlice 0 k))).
  { split; [done|]. split_and!; cbn; try lia. rewrite py_len_app. pose proof (py_len_nonneg z). lia. }
  split; [done|]. split; [|by eexists].
  rewrite app_nil_r, !arena_take by done. cbn [scratch_arena sl_len sp_host region_of]. cbn.
  apply take_app_le. unfold py_len in *. lia.
Qed.

(** A call that returns the slice of what it has appended. *)
Definition encodes (m : M SpecState Slice) (st : SpecState) (p : bytes) : Prop :=
  ∃ s st', m st = (Ok s, st') ∧ appends p st st' ∧ slice_in RScratch s st'.(sp_host) ∧
    slice_data RScratch s st'.(sp_host) = p.

Lemma encodes_value {A} (o : outcome A) a (f : A → M SpecState Slice) st p :
  o = Ok a → encodes (f a) st p → encodes (of_outcome o ≫= f) st p.
Proof. intros -> (s & st' & E & Hs). exists s, st'. by rewrite bind_run, of_outcome_run. Qed.

Section encoder.
Context (st0 : SpecState).

(** The rest of an encoder that has written [q] writes [p] and finishes. *)
Definition completes (q : bytes) (m : M SpecState Slice) (p : bytes) : Prop :=
  ∀ st, appends q st0 st → room st0 (py_len (q ++ p)) →
  ∃ s st', m st = (Ok s, st') ∧ appends (q ++ p) st0 st' ∧ slice_in RScratch s st'.(sp_host) ∧
    slice_data RScratch s st'.(sp_host) = q ++ p.

Lemma completes_write {A} (w : M SpecState A) (f : A → M SpecState Slice) a q p p' :
  (∀ st, arena_wf st → room st (py_len p) → writes w st p a) →
  completes (q ++ p) (f a) p' → completes q (w ≫= f) (p ++ p').
Proof.
  intros Hw Hf st Ha Hr. rewrite app_assoc in *.
  assert (room st (py_len p)) as Hr'.
  { apply (appends_room _ _ _ _ Ha). unfold room in *. rewrite !py_len_app in *.
    pose proof (py_len_nonneg p'). lia. }
  destruct (Hw st (proj1 Ha) Hr') as (st1 & E1 & A1).
  destruct (Hf st1 (appends_trans _ _ _ _ _ Ha A1) Hr) as (s & st2 & E2 & Hs).
  exists s, st2. rewrite bind_run, E1. split; [exact E2|exact Hs].
Qed.

Lemma completes_value {A} (o : outcome A) a (f : A → M SpecState Slice) q p :
  o = Ok a → completes q (f a) p → completes q (of_outcome o ≫= f) p.
Proof. intros -> Hf st Ha Hr. rewrite bind_run, of_outcome_run. by apply Hf. Qed.

Lemma completes_finish e q :
  arena_wf st0 → e.(enc_start) = st0.(scratch_arena).(sl_len) → e.(expected_len) = py_len q →
  completes q (rlp_encoder_finish e) [].
Proof.
  intros Hw Hs He st Ha Hr. rewrite app_nil_r. pose proof (arena_len _ Hw) as L.
  pose proof Ha as (Hw' & Ea & _). pose proof (arena_len _ Hw') as L'. rewrite Ea, py_len_app in L'.
  pose proof (py_len_nonneg (arena st0)). pose proof (py_len_nonneg q).
  destruct (sub_slice_ok RScratch st.(scratch_arena) st0.(scratch_arena).(sl_len) (py_len q) st.(sp_host))
    as (s & Es & Hin & Hl & Hd); [apply Hw'|lia..|].
  exists s, st. split; [|split; [done|split; [done|]]].
  - unfold rlp_encoder_finish, scratch_finish, get_arena. rewrite bind_run, bind_run, gets_run, Hs.
    rewrite (proj2 (Z.leb_le _ _)) by lia. rewrite of_outcome_run. unfold scratch_sub_slice.
    replace (sl_len (scratch_arena st) - sl_len (scratch_arena st0)) with (py_len q) by lia. rewrite Es.
    rewrite He, Hl, Z.eqb_refl. done.
  - fold (arena st) in Hd. rewrite Hd, Ea, drop_app_length' by (unfold py_len in *; lia).
    apply take_ge. unfold py_len. lia.
Qed.
End encoder.

(** An encoder that has reserved the length of what it writes. *)
Lemma encoder_ok st n p (body : RlpEncoder → M SpecState Slice) :
  arena_wf st → room st (py_len p) → n = py_len p →
  completes st [] (body (mkRlpEncoder st.(scratch_arena).(sl_len) n)) p →
  encodes (rlp_encoder_begin n ≫= body) st p.
Proof.
  intros Hw Hr -> Hb. pose proof (py_len_nonneg p). pose proof (arena_len _ Hw) as L.
  pose proof (py_len_nonneg (arena st)).
  destruct (reserve_ok st (py_len p) Hw) as (st1 & E1 & A1); [lia|].
  destruct (Hb st1 A1 Hr) as (s & st2 & E2 & Hs). exists s, st2. split; [|exact Hs].
  unfold rlp_encoder_begin. rewrite bind_run, bind_run, E1, bind_run, of_outcome_run, Uint_ok by lia.
  rewrite bind_run, of_outcome_run, Uint_ok by lia. by rewrite ret_run.
Qed.
