(* ===== verification/Kernel.v ===== *)
(** * Kernel: accounts, storage, code and the transaction lifecycle

    [kernel/accounts.py], [kernel/storage.py], [kernel/code.py],
    [kernel/selfdestruct.py], [kernel/lifecycle.py], the emitted logs of
    [kernel/logs.py], [host/code.py] and the parts of [primitives/code.py] and
    [evm/precompiles.py] they use. The transaction caches of the host are read
    first, then the block caches, then the state trie, which is an interface
    here. *)

From Stdlib Require Import ZArith Lia Strings.Byte.
From stdpp Require Import base tactics option list gmap.
From S2P Require Import Prelude PyBytes OrderedDict HostTypes SailRuntime Words ChainConfig Regions RegionAccess Gas GasSchedule Crypto Storage Accounts WarmLogs Journal CodeDb Bal Environment.
Local Open Scope Z_scope.

(** What the state trie of [lib/state_trie.py] promises the kernel: the
    account and the storage value under a hashed key of a trie. *)
Class StateTrie := {
  stateless_account_by_key : hash → hash → M SpecState Account;
  stateless_storage_by_key : hash → hash → M SpecState Z;
}.

(** ** Precompiles *)

Definition Byzantium : Z := 2.
Definition Istanbul : Z := 4.

Definition precompile_active_at_fork (profile : ProtocolProfileFields) (n : PrecompileId) : bool :=
  match n with
  | NotPrecompile => false
  | Ecrecover | Sha256 | Ripemd160 | Identity => true
  | Modexp | Bn254Add | Bn254Mul | Bn254Pairing => Byzantium <=? fork profile
  | Blake2f => Istanbul <=? fork profile
  | KzgPointEvaluation => Cancun <=? fork profile
  | BlsG1Add | BlsG1Msm | BlsG2Add | BlsG2Msm | BlsPairing | BlsMapFpToG1 | BlsMapFp2ToG2 =>
      Prague <=? fork profile
  | P256Verify => Osaka <=? fork profile
  end.

Definition precompile_id_if_active (profile : ProtocolProfileFields) (candidate : PrecompileId) :
    PrecompileId :=
  if precompile_active_at_fork profile candidate then candidate else NotPrecompile.

(** The address of a small number: [address_from_nat]. *)
Definition small_address (n : Z) : address := rev (be_bytes 20 n).

Definition precompile_addresses : list (Z * PrecompileId) :=
  [(1, Ecrecover); (2, Sha256); (3, Ripemd160); (4, Identity); (5, Modexp); (6, Bn254Add);
   (7, Bn254Mul); (8, Bn254Pairing); (9, Blake2f); (10, KzgPointEvaluation); (11, BlsG1Add);
   (12, BlsG1Msm); (13, BlsG2Add); (14, BlsG2Msm); (15, BlsPairing); (16, BlsMapFpToG1);
   (17, BlsMapFp2ToG2); (256, P256Verify)].

(** The cases of [precompile_id_for_address], in order. *)
Fixpoint precompile_lookup (profile : ProtocolProfileFields) (a : address)
    (l : list (Z * PrecompileId)) : PrecompileId :=
  match l with
  | [] => NotPrecompile
  | (n, candidate) :: l' =>
      if bool_decide (a = small_address n) then precompile_id_if_active profile candidate
      else precompile_lookup profile a l'
  end.
Definition precompile_id_for_address (profile : ProtocolProfileFields) (a : address) :
    PrecompileId := precompile_lookup profile a precompile_addresses.

#[export] Instance PrecompileId_eq_dec : EqDecision PrecompileId.
Proof. solve_decision. Defined.

(** ** Code *)

Definition validated_code_slice (s : Slice) : outcome Slice :=
  if s.(sl_len) <=? (Z.shiftl 1 32 - 1) - 32 then Ok s
  else Raise (SailError "executable code cursor headroom").

(** The validator of [CodeFieldsValidity]. *)
Definition analyzed_code (s : Slice) (table : Z) : outcome Code :=
  validated (region_valid_range s.(sl_bytes) s.(sl_len) && (s.(sl_len) + 32 <=? 2 ^ 32 - 1))
    (mkCode s.(sl_bytes) s.(sl_len) table).

Inductive DeepStackOperation : Type :=
| DeepStackDuplicate | DeepStackSwap | DeepStackExchange | NotDeepStackOperation.

Definition deep_stack_operation (opcode : Z) : DeepStackOperation :=
  if opcode =? 230 then DeepStackDuplicate
  else if opcode =? 231 then DeepStackSwap
  else if opcode =? 232 then DeepStackExchange
  else NotDeepStackOperation.

Definition deep_stack_immediate_valid (immediate : Z) : bool :=
  (immediate <=? 90) || (128 <=? immediate).
Definition exchange_immediate_valid (immediate : Z) : bool :=
  (immediate <=? 81) || (128 <=? immediate).

Definition deep_stack_operation_immediate_valid (operation : DeepStackOperation) (immediate : Z) :
    bool :=
  match operation with
  | DeepStackDuplicate | DeepStackSwap => deep_stack_immediate_valid immediate
  | DeepStackExchange => exchange_immediate_valid immediate
  | NotDeepStackOperation => false
  end.

(** How far the scan moves past an opcode: over the data of a push, and over
    the immediate of a deep stack operation from Amsterdam. *)
Definition code_step (fork opcode immediate : Z) : Z :=
  if (96 <=? opcode) && (opcode <=? 127) then opcode - 94
  else if Amsterdam <=? fork then
    if deep_stack_operation_immediate_valid (deep_stack_operation opcode) immediate then 2 else 1
  else 1.

(** The loop of [analyze_code_from]: every step moves forward. *)
Fixpoint analyze_loop (fuel : nat) (code : Slice) (fork table position : Z) : M HostState unit :=
  match fuel with
  | O => raise (RuntimeError "out of fuel")
  | S fuel' =>
      if position <? code.(sl_len) then
        opcode ← code_slice_byte code position;
        when (opcode =? 0x5b)
          (marked ← zoom (jumpdest_table_mark table code.(sl_len) position);
           sail_assert marked "JUMPDEST mark");;
        immediate ← (if negb ((96 <=? opcode) && (opcode <=? 127)) && (Amsterdam <=? fork)
                     then code_slice_byte code (position + 1) else mret 0);
        let step := code_step fork opcode immediate in
        if step <? code.(sl_len) - position
        then analyze_loop fuel' code fork table (position + step) else mret tt
      else mret tt
  end.

Definition analyze_code_from (code : Slice) (fork table pc : Z) : M HostState unit :=
  analyze_loop (S (Z.to_nat (code.(sl_len) - pc))) code fork table pc.

Definition EMPTY_JUMP_TABLE : Z := 0.

Definition analyze_code (code : Slice) (fork : Z) : M HostState Z :=
  if code.(sl_len) =? 0 then mret EMPTY_JUMP_TABLE
  else
    table ← zoom (jumpdest_table_alloc (mkCode code.(sl_bytes) code.(sl_len) EMPTY_JUMP_TABLE));
    sail_assert (negb (table =? EMPTY_JUMP_TABLE)) "JUMPDEST table allocation";;
    analyze_code_from code fork table 0;; mret table.

Section kernel.
Context `{Keccak}.

Definition code_db_insert (code : Slice) (fork : Z) : M HostState hash :=
  jumpdest_table ← analyze_code code fork;
  analyzed ← of_outcome (analyzed_code code jumpdest_table);
  h ← code_db_store analyzed; of_outcome (Bytes32 h).

Definition code_db_intern_input (s : Slice) : M HostState Slice :=
  region ← code_region_from_input s; of_outcome (validated_code_slice region).
Definition code_db_intern_memory (s : Slice) : M HostState Slice :=
  region ← code_region_from_memory s; of_outcome (validated_code_slice region).
Definition code_db_intern_output (s : Slice) : M HostState Slice :=
  region ← code_region_from_output s; of_outcome (validated_code_slice region).

Definition code_db_resolve (h : hash) : M HostState Code :=
  if bool_decide (h = KECCAK_EMPTY) then mret EMPTY_CODE
  else
    code ← code_db_lookup h;
    if code.(code_len) =? 0 then of_outcome fatal_error else mret code.

(** ** Accounts *)

Definition account_info_changed (c o : AccountInfo) : bool :=
  negb (c.(nonce) =? o.(nonce)) || (negb (c.(balance) =? o.(balance)) ||
  (negb (bool_decide (c.(code_hash) = o.(code_hash))) ||
   negb (bool_decide (c.(storage_root) = o.(storage_root))))).

Definition account_info_empty (i : AccountInfo) : bool :=
  bool_decide (i.(code_hash) = KECCAK_EMPTY) && ((i.(nonce) =? 0) && word_is_zero i.(balance)).

Definition account_changed (c o : Account) : bool :=
  account_info_changed c.(info) o.(info) ||
  (negb (Bool.eqb c.(present) o.(present)) ||
   negb (Bool.eqb c.(storage_cleared) o.(storage_cleared))).

Definition account_delete (acc : Account) : Account :=
  set_storage_cleared true (set_present false
    (set_info (set_storage_root acc.(info).(storage_root) EMPTY_ACCOUNT_INFO) acc)).

Definition account_set_info (acc : Account) (i : AccountInfo) : Account :=
  if account_info_empty i then account_delete acc else set_present true (set_info i acc).

Definition account_clear_storage (acc : Account) : Account := set_storage_cleared true acc.

Definition account_clear_preserving_balance (acc : Account) : Account :=
  account_set_info (account_clear_storage acc)
    (set_nonce 0 (set_code_hash KECCAK_EMPTY acc.(info))).

Definition store_account (a : address) (v : Account) : M SpecState unit :=
  on_host (acct_tx_update a v).

Definition store_account_info (a : address) (acc : Account) (i : AccountInfo) : M SpecState unit :=
  when (account_info_empty i) (on_host (storage_tx_clear a));;
  let next := account_set_info acc i in
  if negb (bool_decide (next.(info).(storage_root) = acc.(info).(storage_root))) ||
     (negb (Bool.eqb next.(present) acc.(present)) ||
      negb (Bool.eqb next.(storage_cleared) acc.(storage_cleared)))
  then store_account a next
  else
    when (negb (next.(info).(balance) =? acc.(info).(balance)))
      (on_host (acct_tx_set_balance a next.(info).(balance)));;
    when (negb (next.(info).(nonce) =? acc.(info).(nonce)))
      (on_host (acct_tx_set_nonce a next.(info).(nonce)));;
    when (negb (bool_decide (next.(info).(code_hash) = acc.(info).(code_hash))))
      (on_host (acct_tx_set_code_hash a next.(info).(code_hash))).

Context `{StateTrie}.

Definition k_aload (a : address) : M SpecState Account :=
  tx_account ← on_host (acct_tx_get a);
  if tx_account.(ar_found) then mret tx_account.(ar_account)
  else
    on_host (bal_account_touch a);;
    block_account ← on_host (acct_block_get a);
    if block_account.(ar_found) then mret block_account.(ar_account)
    else
      let address_hash := keccak256_address a in
      e ← gets sp_env;
      account ← stateless_account_by_key e.(k_parent_state_root) address_hash;
      on_host (acct_block_cache a (Some address_hash) account);; mret account.

Definition k_get_balance (a : address) : M SpecState Z :=
  acc ← k_aload a; of_outcome (word acc.(info).(balance)).
Definition k_get_nonce (a : address) : M SpecState Z :=
  acc ← k_aload a; of_outcome (Uint acc.(info).(nonce)).
Definition k_account_exists (a : address) : M SpecState bool :=
  acc ← k_aload a; mret acc.(present).
Definition k_account_is_empty (a : address) : M SpecState bool :=
  acc ← k_aload a; mret (account_info_empty acc.(info)).

Definition k_account_occupied (a : address) : M SpecState bool :=
  acc ← k_aload a;
  let i := acc.(info) in
  let anchored_storage := negb acc.(storage_cleared) &&
    negb (bool_decide (i.(storage_root) = EMPTY_TRIE_ROOT)) in
  let has_code := negb (bool_decide (i.(code_hash) = KECCAK_EMPTY)) in
  let has_nonce := negb (i.(nonce) =? 0) in
  if has_code || (has_nonce || anchored_storage) then mret true
  else on_host (storage_has_writes a).

(** ** Logs of transfers *)

Definition EIP7708_SYSTEM_ADDRESS : address := rev (be_bytes 20 (2 ^ 160 - 2)).
Definition EIP7708_TRANSFER_TOPIC : Z :=
  0xddf252ad1be2c89b69c2b068fc378daa952ba7f163c4a11628f55a4df523b3ef.
Definition EIP7708_BURN_TOPIC : Z :=
  0xcc16f5dbb4873280815c1ee09dbd06736cffcc184412cf7a71a0fdb75d397ca5.

Definition k_emit_transfer_log (src dst : address) (v : Z) : M SpecState unit :=
  profile ← get_profile;
  if (fork profile <? Amsterdam) || (word_is_zero v || bool_decide (src = dst)) then mret tt
  else
    source ← of_outcome (address_to_word src);
    destination ← of_outcome (address_to_word dst);
    zoom (k_log EIP7708_SYSTEM_ADDRESS (LogTopics3 EIP7708_TRANSFER_TOPIC source destination)
            (LogDataWord v)).

Definition k_emit_burn_log (a : address) (v : Z) : M SpecState unit :=
  profile ← get_profile;
  if (fork profile <? Amsterdam) || word_is_zero v then mret tt
  else
    address_ ← of_outcome (address_to_word a);
    zoom (k_log EIP7708_SYSTEM_ADDRESS (LogTopics2 EIP7708_BURN_TOPIC address_) (LogDataWord v)).

(** ** Balances and nonces *)

Definition k_transfer (src dst : address) (v : Z) : M SpecState unit :=
  src_acc ← k_aload src;
  dst_acc ← k_aload dst;
  if word_is_zero v || bool_decide (src = dst) then mret tt
  else
    source_balance ← of_outcome (alu_sub src_acc.(info).(balance) v);
    store_account_info src src_acc (set_balance source_balance src_acc.(info));;
    destination_balance ← of_outcome (alu_add dst_acc.(info).(balance) v);
    store_account_info dst dst_acc (set_balance destination_balance dst_acc.(info));;
    k_emit_transfer_log src dst v.

Definition k_bump_nonce (a : address) : M SpecState unit :=
  cur ← k_aload a;
  let n := cur.(info).(nonce) in
  if n <? Z.shiftl 1 64 - 1 then store_account_info a cur (set_nonce (n + 1) cur.(info))
  else of_outcome fatal_error.

Definition k_add_balance (a : address) (v : Z) : M SpecState unit :=
  cur ← k_aload a;
  if negb (word_is_zero v) then
    balance ← of_outcome (alu_add cur.(info).(balance) v);
    store_account_info a cur (set_balance balance cur.(info))
  else mret tt.

Definition k_sub_balance (a : address) (v : Z) : M SpecState unit :=
  cur ← k_aload a;
  if negb (word_is_zero v) then
    balance ← of_outcome (alu_sub cur.(info).(balance) v);
    store_account_info a cur (set_balance balance cur.(info))
  else mret tt.

Definition k_clear_storage (a : address) : M SpecState unit :=
  cur ← k_aload a;
  on_host (storage_tx_clear a);; store_account a (account_clear_storage cur).

(** ** Access lists and storage *)

Definition storage_key (a : address) (s : Z) : outcome StorageKey :=
  slot ← word s; Ok (mkStorageKey a slot).

(** The precompiles are always warm. *)
Definition k_account_is_warm (a : address) : M SpecState bool :=
  profile ← get_profile;
  if negb (bool_decide (precompile_id_for_address profile a = NotPrecompile)) then mret true
  else on_host (account_is_warm a).

Definition k_account_mark_warm (a : address) : M SpecState unit :=
  profile ← get_profile;
  if negb (bool_decide (precompile_id_for_address profile a = NotPrecompile)) then mret tt
  else on_host (account_mark_warm a).

Definition k_slot_is_warm (a : address) (s : Z) : M SpecState bool := on_host (storage_is_warm a s).
Definition k_slot_mark_warm (a : address) (s : Z) : M SpecState unit :=
  on_host (storage_mark_warm a s).
Definition k_prewarm_slot (a : address) (s : Z) : M SpecState unit :=
  on_host (storage_mark_warm a s).

Definition value_as_original (v : Z) : outcome StorageValue :=
  v ← word v; Ok (mkStorageValue v v).

Definition k_sload (a : address) (s : Z) : M SpecState StorageValue :=
  key ← of_outcome (storage_key a s);
  tx_value ← on_host (storage_tx_get key);
  match tx_value with
  | StorageTxHit v => mret v
  | StorageTxCleared => on_host (bal_storage_read a s);; of_outcome (value_as_original ZERO_WORD)
  | StorageTxMiss =>
      on_host (bal_storage_read a s);;
      block_value ← on_host (storage_block_get key);
      if block_value.(sbr_found)
      then of_outcome (value_as_original block_value.(sbr_value).(sv_curr))
      else
        acc ← k_aload a;
        let slot_hash := keccak256_word s in
        v ← (if acc.(storage_cleared) then mret ZERO_WORD
             else stateless_storage_by_key acc.(info).(storage_root) slot_hash);
        on_host (storage_block_cache key (Some slot_hash) v);;
        of_outcome (value_as_original v)
  end.

Definition k_sstore (a : address) (s : Z) (v : StorageValue) : M SpecState unit :=
  key ← of_outcome (storage_key a s); on_host (storage_tx_update (mkStorageEntry key v)).

Definition k_tload (a : address) (s : Z) : M SpecState Z :=
  v ← on_host (transient_load a s); of_outcome (word v).
Definition k_tstore (a : address) (s v : Z) : M SpecState unit := on_host (transient_store a s v).

(** ** The code of an account *)

Definition k_code_key (a : address) : M SpecState hash :=
  acc ← k_aload a; of_outcome (Bytes32 acc.(info).(code_hash)).

Definition k_get_codehash (a : address) : M SpecState hash :=
  acc ← k_aload a;
  of_outcome (Bytes32 (if negb acc.(present) then ZERO_HASH else acc.(info).(code_hash))).

Definition k_deploy_code (a : address) (code : Slice) : M SpecState unit :=
  profile ← get_profile;
  cur ← k_aload a;
  h ← zoom (code_db_insert code (fork profile));
  store_account_info a cur (set_code_hash h cur.(info)).

Definition k_set_delegation (a target : address) : M SpecState unit :=
  cur ← k_aload a;
  profile ← get_profile;
  region ← zoom (code_region_from_delegation target);
  code ← of_outcome (validated_code_slice region);
  h ← zoom (code_db_insert code (fork profile));
  store_account_info a cur (set_code_hash h cur.(info)).

Definition k_clear_code (a : address) : M SpecState unit :=
  cur ← k_aload a; store_account_info a cur (set_code_hash KECCAK_EMPTY cur.(info)).

Definition k_deleg_target (a : address) : M SpecState (bool * address) :=
  h ← k_code_key a;
  r ← zoom (code_db_read_delegation h); mret (r.(adr_success), r.(adr_address)).

Definition k_get_code_size (a : address) : M SpecState Z :=
  code_key ← k_code_key a;
  code ← zoom (code_db_resolve code_key); of_outcome (code_length code.(code_len)).

Definition code_bytes (code : Code) : outcome Slice :=
  validated (region_valid_range code.(code_off) code.(code_len)) (mkSlice code.(code_off) code.(code_len)).

Definition k_code_copy (a : address) (dst off sail_len : Z) : M SpecState unit :=
  code_key ← k_code_key a;
  code ← zoom (code_db_resolve code_key);
  bytes ← of_outcome (code_bytes code);
  zoom (code_slice_copy_word_offset bytes dst off sail_len).

(** ** Creation and destruction *)

Definition k_selfdestruct (a : address) : M SpecState unit :=
  cur ← k_aload a;
  if negb cur.(selfdestructed) then store_account a (set_selfdestructed true cur) else mret tt.

Definition k_is_selfdestructed (a : address) : M SpecState bool :=
  acc ← k_aload a; mret acc.(selfdestructed).

Definition k_mark_created (a : address) : M SpecState unit :=
  cur ← k_aload a; store_account a (set_created true cur).

Definition k_was_created (a : address) : M SpecState bool :=
  acc ← k_aload a; mret acc.(created).

Definition k_zero_balance (a : address) : M SpecState unit :=
  cur ← k_aload a;
  if word_is_zero cur.(info).(balance) then mret tt
  else store_account_info a cur (set_balance ZERO_WORD cur.(info)).

(** ** The transaction lifecycle *)

Definition k_journal_checkpoint : M SpecState unit := on_host state_journal_checkpoint.
Definition k_journal_revert : M SpecState unit := on_host state_journal_revert.
Definition k_journal_commit : M SpecState unit := on_host state_journal_commit.

Definition k_tx_reset : M SpecState unit :=
  on_host storage_tx_reset;;
  on_host acct_tx_reset;;
  e ← gets sp_env;
  on_host (warm_reset e.(k_current_transaction_epoch));;
  on_host transient_reset;;
  on_host logs_tx_reset;;
  on_host state_journal_reset.

Record TransactionMergeSemantics : Type := mkMergeSemantics {
  delete_only_created : bool;
  preserve_selfdestruct_balance : bool;
}.

Definition transaction_merge_semantics (fork : Z) : TransactionMergeSemantics :=
  if Amsterdam <=? fork then mkMergeSemantics true true
  else if Cancun <=? fork then mkMergeSemantics true false
  else mkMergeSemantics false false.

Definition account_deleted_at_tx_end (semantics : TransactionMergeSemantics) (acc : Account) : bool :=
  acc.(selfdestructed) && (negb semantics.(delete_only_created) || acc.(created)).

(** The account a row leaves: a deleted one is cleared, and the marks of the
    transaction go. *)
Definition deleted_account (semantics : TransactionMergeSemantics) (curr : Account) : Account :=
  if semantics.(preserve_selfdestruct_balance) then account_clear_preserving_balance curr
  else account_delete curr.

Definition merge_account (semantics : TransactionMergeSemantics) (epoch : Z) (e : AcctEntry) :
    M SpecState unit :=
  let a := e.(ae_addr) in
  let orig := e.(ae_value).(av_orig) in
  let deleted := account_deleted_at_tx_end semantics e.(ae_value).(av_curr) in
  let curr := if deleted then deleted_account semantics e.(ae_value).(av_curr)
              else e.(ae_value).(av_curr) in
  when deleted (on_host (storage_tx_clear a));;
  when (deleted || (curr.(storage_cleared) && negb orig.(storage_cleared)))
    (on_host (storage_block_clear a));;
  when (negb (curr.(info).(nonce) =? orig.(info).(nonce)))
    (on_host (bal_nonce_change epoch a curr.(info).(nonce)));;
  when (negb (curr.(info).(balance) =? orig.(info).(balance)))
    (on_host (bal_balance_change epoch a curr.(info).(balance)));;
  when (negb (bool_decide (curr.(info).(code_hash) = orig.(info).(code_hash))))
    (on_host (bal_code_change epoch a curr.(info).(code_hash)));;
  let curr := set_created false (set_selfdestructed false curr) in
  when (account_changed curr orig)
    (on_host (acct_block_write (mkAcctEntry a (mkAcctValue curr orig)))).

Definition merge_storage (epoch : Z) (e : StorageEntry) : M SpecState unit :=
  let a := e.(se_key).(sk_addr) in
  account ← on_host (acct_block_get a);
  when (account.(ar_found) && (account.(ar_account).(present) &&
        negb (e.(se_value).(sv_curr) =? e.(se_value).(sv_orig))))
    (on_host (bal_storage_change epoch a e.(se_key).(sk_slot) e.(se_value).(sv_curr));;
     on_host (storage_block_put e)).

(** Both loops pop a row of the transaction cache at every turn. *)
Fixpoint merge_accounts (fuel : nat) (semantics : TransactionMergeSemantics) (epoch : Z) :
    M SpecState unit :=
  match fuel with
  | O => raise (RuntimeError "out of fuel")
  | S fuel' =>
      popped ← on_host acct_tx_pop;
      match popped with
      | AcctTxPopRow e => merge_account semantics epoch e;; merge_accounts fuel' semantics epoch
      | AcctTxPopExhausted => mret tt
      end
  end.

Fixpoint merge_storages (fuel : nat) (epoch : Z) : M SpecState unit :=
  match fuel with
  | O => raise (RuntimeError "out of fuel")
  | S fuel' =>
      popped ← on_host storage_tx_pop;
      match popped with
      | StorageTxPopRow e => merge_storage epoch e;; merge_storages fuel' epoch
      | StorageTxPopExhausted => mret tt
      end
  end.

Definition k_tx_merge : M SpecState unit :=
  profile ← get_profile;
  e ← gets sp_env;
  n ← gets (λ s, length s.(sp_host).(world).(account_tx));
  merge_accounts (S n) (transaction_merge_semantics (fork profile)) e.(k_current_transaction_epoch);;
  m ← gets (λ s, length s.(sp_host).(world).(storage_tx));
  merge_storages (S m) e.(k_current_transaction_epoch);;
  on_host storage_tx_reset;;
  on_host acct_tx_reset.

End kernel.
