(* ===== verification/Machine.v ===== *)
(** * Machine: stack pointers, frame memory and frame gas

    [host/stack.py], [host/output.py] and [evm/machine.py]: the operand stack
    behind a pointer that carries its height, the memory window of a frame,
    the return data, the refund counter and the checkpoint a frame leaves when
    it calls another. *)

From Stdlib Require Import ZArith Lia Strings.Byte.
From stdpp Require Import base tactics option list gmap.
From S2P Require Import Prelude PyBytes HostTypes SailRuntime Words ChainConfig Regions RegionAccess Gas GasSchedule Crypto WarmLogs CodeDb OperandStack Environment Kernel.
Local Open Scope Z_scope.

(** ** Bounded quantities *)

Definition operand_stack_height (v : Z) : outcome Z := BoundedUint 0 1024 v.
Definition stack_index (v : Z) : outcome Z := BoundedUint 0 1023 v.
Definition stack_slot_count (v : Z) : outcome Z := BoundedUint 0 1024 v.
Definition stack_operation_index (v : Z) : outcome Z := BoundedUint 1 16 v.
Definition deep_stack_index (v : Z) : outcome Z := BoundedUint 17 235 v.
Definition frame_depth (v : Z) : outcome Z := BoundedUint 0 1024 v.
Definition STACK_LIMIT : Z := 1024.
Definition MEMORY_HEIGHT_ZERO : Z := 0.
Definition MEMORY_BASE_ZERO : Z := 0.

Definition word_of_source_byte_count (v : Z) : outcome Z :=
  w ← word_of_nat_byte_count v; word w.

(** ** The operand stack behind its pointer *)

Definition stack_pointer (storage : Z) : outcome StackPointer :=
  height ← operand_stack_height (stack_top_height_host storage); Ok (mkStackPointer storage height).

Definition stack_reset : M SpecState StackPointer :=
  storage ← on_host stack_reset_host; mret (mkStackPointer storage 0).
Definition operand_stack_push_empty_frame : M SpecState StackPointer :=
  storage ← on_host operand_stack_push_empty_frame_host; mret (mkStackPointer storage 0).
Definition stack_top_height (top : StackPointer) : outcome Z := stack_slot_count top.(sp_height).

Definition stack_slot_read (top : StackPointer) (index : Z) : M SpecState Z :=
  v ← on_host (stack_slot_read_host top.(sp_storage) index); of_outcome (word v).
Definition stack_slot_write (top : StackPointer) (index v : Z) : M SpecState unit :=
  on_host (stack_slot_write_host top.(sp_storage) index v).
Definition stack_slot_write_next (top : StackPointer) (v : Z) : M SpecState unit :=
  on_host (stack_slot_write_next_host top.(sp_storage) v).
Definition stack_top_advance (top : StackPointer) (count : Z) : outcome StackPointer :=
  stack_pointer (stack_top_advance_host top.(sp_storage) count).
Definition stack_top_retreat (top : StackPointer) (count : Z) : outcome StackPointer :=
  stack_pointer (stack_top_retreat_host top.(sp_storage) count).

Definition stack_height (top : StackPointer) : outcome Z :=
  h ← stack_top_height top; stack_slot_count h.

Inductive StackValidation : Type := StackValid | StackUnderflowFailure | StackOverflowFailure.

Definition validate_stack (top : StackPointer) (inputs outputs : Z) : outcome StackValidation :=
  height ← stack_height top;
  Ok (if height <? inputs then StackUnderflowFailure
      else if STACK_LIMIT <? (height - inputs) + outputs then StackOverflowFailure
      else StackValid).

Definition read_stack_word (sp : StackPointer) : M SpecState Z :=
  v ← stack_slot_read sp 0; of_outcome (word v).
Definition write_stack_word (sp : StackPointer) (v : Z) : M SpecState unit := stack_slot_write sp 0 v.
Definition stack_set (top : StackPointer) (n w : Z) : M SpecState unit := stack_slot_write top n w.

(** ** Output buffers *)

Definition output_buffer_slice (sail_len : Z) : outcome Slice :=
  if sail_len =? 0 then Ok EMPTY_OUTPUT_SLICE else output_slice 0 sail_len.

Definition frozen (stored : M HostState bool) (sail_len : Z) : M SpecState Slice :=
  ok ← zoom stored;
  if ok : bool then of_outcome (output_buffer_slice sail_len) else mret EMPTY_OUTPUT_SLICE.

Definition freeze_memory_output (data : Slice) : M SpecState Slice :=
  if data.(sl_len) =? 0 then mret EMPTY_OUTPUT_SLICE
  else frozen (output_buffer_store_memory data) data.(sl_len).
Definition freeze_input_output (data : Slice) : M SpecState Slice :=
  if data.(sl_len) =? 0 then mret EMPTY_OUTPUT_SLICE
  else frozen (output_buffer_store_input data) data.(sl_len).
Definition freeze_calldata_output (data : CalldataSlice) : M SpecState Slice :=
  match data with
  | InputCalldata bytes => freeze_input_output bytes
  | MemoryCalldata bytes => freeze_memory_output bytes
  end.
Definition output_buffer_word (v : Z) : M SpecState Slice :=
  frozen (output_buffer_store_word v) WORD_BYTE_LENGTH.
Definition output_buffer_words (first second : Z) : M SpecState Slice :=
  frozen (output_buffer_store_words first second) DOUBLE_WORD_BYTE_LENGTH.

(** ** Gas of a frame *)

Definition REFUND_BOUND : Z := 199 * (Z.shiftl 1 64 - 1).

Definition validated_refund_add (left right : Z) : outcome Z :=
  let total := left + right in
  if (- REFUND_BOUND <=? total) && (total <=? REFUND_BOUND) then Ok total else fatal_error.
Definition record_refund (refund delta : Z) : outcome Z := validated_refund_add refund delta.

Definition frame_state_gas_used (reservoir remaining spilled : Z) : Z := (reservoir - remaining) + spilled.

(** [ExceptionKind] *)
Definition StackUnderflow : Z := 0.
Definition StackOverflow : Z := 1.
Definition OutOfGas : Z := 2.
Definition InvalidOpcode : Z := 3.
Definition InvalidJump : Z := 4.
Definition StaticViolation : Z := 5.
Definition CallDepthExceeded : Z := 6.
Definition InsufficientBalance : Z := 7.
Definition WriteProtection : Z := 8.
Definition InitCodeTooLarge : Z := 9.
Definition NonceOverflow : Z := 10.
Definition AddressCollision : Z := 11.

Record ExceptionalStateTransition : Type := mkExceptionalTransition {
  ex_state_gas_remaining : Z;
  ex_state_gas_spilled : Z;
  ex_status : FrameStatus;
}.

Definition exceptional_state (remaining spilled reservoir kind : Z) :
    M SpecState ExceptionalStateTransition :=
  profile ← get_profile;
  if Amsterdam <=? fork profile
  then mret (mkExceptionalTransition reservoir STATE_GAS_SPILL_ZERO (Exceptional kind))
  else mret (mkExceptionalTransition remaining spilled (Exceptional kind)).

Definition is_running (status : FrameStatus) : bool :=
  match status with Running => true | _ => false end.

(** ** Code and return data of a frame *)

Definition frame_code_len (code : Code) : outcome Z := code_length code.(code_len).

Definition frame_jumpdest_valid (code : Code) (dest : Z) : M SpecState bool :=
  on_host (jumpdest_ref_contains code.(jumpdests) code.(code_len) dest).

Definition calldata_install (data : CalldataSlice) : CalldataSlice := data.
Definition returndata_clear : Slice := EMPTY_OUTPUT_SLICE.
Definition returndata_size (returndata : Slice) : outcome Z := code_length returndata.(sl_len).
Definition returndata_copy (returndata : Slice) (dst off sail_len : Z) : M SpecState unit :=
  zoom (output_slice_copy returndata dst off sail_len).

Definition returndata_copy_prefix (returndata : Slice) (dst want : Z) : M SpecState unit :=
  available ← of_outcome (returndata_size returndata);
  zoom (output_slice_copy returndata dst 0 (if want <? available then want else available)).

Definition returndata_remaining (available offset : Z) : outcome Z := Uint (available - offset).

(** ** The memory of a frame: a window of the host's memory at its base *)

Definition memory_absolute (base relative : Z) : outcome Z :=
  if relative <=? (Z.shiftl 1 32 - 1) - base then code_length (base + relative) else fatal_error.

Definition memory_parent_base (child_base parent_height : Z) : outcome Z :=
  if parent_height <=? child_base then code_length (child_base - parent_height) else fatal_error.

Definition expand_memory (base height requested : Z) : M SpecState Z :=
  if requested <=? (Z.shiftl 1 32 - 1) - base then
    if height <? requested then
      zoom (mem_expand base height requested);; of_outcome (code_length requested)
    else of_outcome (code_length height)
  else of_outcome fatal_error.

Definition active_window (base mem off sail_len : Z) : M SpecState Slice :=
  if (mem <=? (Z.shiftl 1 32 - 1) - base) && (off + sail_len <=? mem) then
    window ← zoom (mem_view base mem (off + sail_len));
    of_outcome (memory_sub_slice window off sail_len)
  else of_outcome fatal_error.

Definition active_memory_slice (base mem off sail_len : Z) : M SpecState Slice :=
  if sail_len =? 0 then mret EMPTY_EVM_MEMORY_SLICE else active_window base mem off sail_len.

Definition EMPTY_CODE_SLICE : Slice := EMPTY_CODE_REGION_SLICE.

Definition memory_code_slice (base mem off sail_len : Z) : M SpecState Slice :=
  if sail_len =? 0 then mret EMPTY_CODE_SLICE
  else initcode ← active_window base mem off sail_len; zoom (code_db_intern_memory initcode).

Definition mem_set_byte (base off v : Z) : M SpecState unit :=
  absolute_offset ← of_outcome (memory_absolute base off); zoom (mem_write_byte absolute_offset v).

Definition mem_load (base off : Z) : M SpecState Z :=
  absolute_offset ← of_outcome (memory_absolute base off);
  v ← zoom (mem_load_word absolute_offset); of_outcome (word v).

Definition mem_store (base off w : Z) : M SpecState unit :=
  absolute_offset ← of_outcome (memory_absolute base off);
  zoom (mem_store_word absolute_offset w).

Definition mem_store_byte (base off w : Z) : M SpecState unit :=
  mem_set_byte base off (word_low_byte w).(value).

Definition mem_mcopy (base dst src sail_len : Z) : M SpecState unit :=
  if negb (sail_len =? 0) then
    absolute_dst ← of_outcome (memory_absolute base dst);
    absolute_src ← of_outcome (memory_absolute base src);
    zoom (mem_move absolute_dst absolute_src sail_len)
  else mret tt.

Definition mem_keccak `{Keccak} (base mem : Z) (access : MemoryAccess) : M SpecState Z :=
  bytes ← active_memory_slice base mem access.(ma_off) access.(ma_len);
  digest ← zoom (memory_keccak256 bytes);
  of_outcome (w ← hash_to_word digest; word w).

(** ** Suspending a frame *)

(** The child's memory starts where the parent's ends. *)
Definition suspend_frame (pc gas_remaining : Z) (stack_top : StackPointer)
    (memory_base memory_height state_gas_remaining state_gas_spilled frame_refund : Z)
    (frame_status : FrameStatus) (message : Message) (frame_code : Code)
    (calldata : CalldataSlice) : M SpecState (FrameCheckpoint * StackPointer * Z * Z) :=
  k_journal_checkpoint;;
  child_stack ← operand_stack_push_empty_frame;
  child_memory_base ← of_outcome (memory_absolute memory_base memory_height);
  checkpoint ← of_outcome
    (pc ← Uint pc; g ← gas gas_remaining; s ← gas state_gas_remaining;
     p ← state_gas_spill state_gas_spilled; h ← Uint memory_height;
     validated ((- REFUND_BOUND <=? frame_refund) && (frame_refund <=? REFUND_BOUND))
       (mkFrameCheckpoint pc g stack_top s p frame_refund frame_status message frame_code
          calldata h));
  mret (checkpoint, child_stack, child_memory_base, MEMORY_HEIGHT_ZERO).
