(* ===== verification/Instructions.v ===== *)
(** * Instructions: the decoded instructions

    [evm/instructions.py]: the abstract syntax of the instructions and the
    immediates of the deep stack operations of EIP-8024. *)

From Stdlib Require Import ZArith Lia.
From stdpp Require Import base tactics option list.
From S2P Require Import Prelude PyBytes HostTypes SailRuntime Words ChainConfig CodeDb Environment Kernel Machine.
Local Open Scope Z_scope.

Inductive ast : Type :=
| STOP | ADD | MUL | SUB | DIV | SDIV | MOD | SMOD | ADDMOD | MULMOD | EXP | SIGNEXTEND
| LT | GT | SLT | SGT | EQ | ISZERO | AND | OR | XOR | NOT | BYTE | SHL | SHR | SAR | CLZ
| KECCAK256 | ADDRESS | BALANCE | ORIGIN | CALLER | CALLVALUE | CALLDATALOAD | CALLDATASIZE
| CALLDATACOPY | CODESIZE | CODECOPY | GASPRICE | EXTCODESIZE | EXTCODECOPY | RETURNDATASIZE
| RETURNDATACOPY | EXTCODEHASH | BLOCKHASH | COINBASE | TIMESTAMP | NUMBER | PREVRANDAO
| GASLIMIT | CHAINID | SELFBALANCE | BASEFEE | BLOBHASH | BLOBBASEFEE | SLOTNUM
| POP | MLOAD | MSTORE | MSTORE8 | SLOAD | SSTORE | JUMP | JUMPI | PC | MSIZE | GAS | JUMPDEST
| TLOAD | TSTORE | MCOPY
| PUSH (width value : Z) | DUP (n : Z) | SWAP (n : Z) | LOG (n : Z)
| DUPN (immediate : Z) | SWAPN (immediate : Z) | EXCHANGE (immediate : Z)
| opcode_CREATE | CALL | CALLCODE | RETURN | DELEGATECALL | CREATE2 | STATICCALL | REVERT
| INVALID | SELFDESTRUCT.

#[export] Instance ast_eq_dec : EqDecision ast.
Proof. solve_decision. Defined.

Definition sail_fails {A} (msg : string) : outcome A := Raise (SailError msg).

Definition decode_single_stack_index (immediate : Z) : outcome Z :=
  if negb (deep_stack_immediate_valid immediate) then sail_fails "sail/evm/instructions.sail:73.16-73.17"
  else if immediate <=? 90 then deep_stack_index (immediate + 145)
  else if negb (128 <=? immediate) then sail_fails "sail/evm/instructions.sail:78.27-78.28"
  else deep_stack_index (immediate - 111).

Definition decode_exchange_stack_indices (immediate : Z) : outcome (Z * Z) :=
  if negb (exchange_immediate_valid immediate) then
    sail_fails "sail/evm/instructions.sail:87.16-87.17"
  else
    shifted ← bits_xor (bits_of 8 immediate) (OfBits (bits_of 8 143));
    high ← slice shifted 4 4;
    low ← slice shifted 0 4;
    let quotient := high.(value) in
    let remainder := low.(value) in
    Ok (if quotient <? remainder then (quotient + 1, remainder + 1)
        else (remainder + 1, 29 - quotient)).

(** The valid immediates, in order, and what they decode to. *)
Definition all_immediates : list Z := seqZ 0 256.
Definition valid_single : list Z := filter (λ i, deep_stack_immediate_valid i = true) all_immediates.
Definition valid_exchange : list Z := filter (λ i, exchange_immediate_valid i = true) all_immediates.

(** The pairs of stack positions an exchange can name. *)
Definition exchange_pairs : list (Z * Z) :=
  n ← seqZ 1 14; m ← seqZ (n + 1) (30 - 2 * n); [(n, m)].

(** C30: The immediates of the deep stack operations of EIP-8024 are a perfect
    encoding: the valid immediates of a duplicate or a swap decode to the
    depths 17 to 235 and those of an exchange to the pairs n < m with n + m at
    most 30, each exactly once; every other immediate fails. *)
Theorem deep_immediates_exact :
  (∃ depths, mapM decode_single_stack_index valid_single = Ok depths ∧ depths ≡ₚ seqZ 17 219) ∧
  (∃ pairs, mapM decode_exchange_stack_indices valid_exchange = Ok pairs ∧
     pairs ≡ₚ exchange_pairs) ∧
  (∀ n m, (n, m) ∈ exchange_pairs ↔ 1 <= n < m ∧ n + m <= 30) ∧
  (∀ i, deep_stack_immediate_valid i = false → ¬ is_ok (decode_single_stack_index i)) ∧
  (∀ i, exchange_immediate_valid i = false → ¬ is_ok (decode_exchange_stack_indices i)).
Proof.
  split_and!.
  - eexists. split; [vm_compute; reflexivity|].
    by apply (bool_decide_unpack _); vm_compute.
  - eexists. split; [vm_compute; reflexivity|].
    by apply (bool_decide_unpack _); vm_compute.
  - intros n m. unfold exchange_pairs. rewrite list_elem_of_bind. setoid_rewrite list_elem_of_bind.
    setoid_rewrite list_elem_of_singleton. setoid_rewrite elem_of_seqZ. split.
    + intros (a & (b & [= -> ->] & Hb) & Ha). lia.
    + intros. exists n. split; [exists m; split; [done|lia]|lia].
  - intros i Hi. unfold decode_single_stack_index. rewrite Hi. by intros [].
  - intros i Hi. unfold decode_exchange_stack_indices. rewrite Hi. by intros [].
Qed.

Lemma deep_immediates_exact_witness :
  ¬ is_ok (decode_single_stack_index 91) ∧ ¬ is_ok (decode_exchange_stack_indices 82).
Proof.
  destruct deep_immediates_exact as (_ & _ & _ & H1 & H2).
  split; [by apply H1; vm_compute|by apply H2; vm_compute].
Defined.
