(* ===== verification/Execute.v ===== *)
(** * Execute: the instructions

    [evm/execute.py]: what every instruction other than the calls and creates
    does to the gas, the operand stack, the memory and the world. Most start
    with the same steps - the stack guard, the charge, the memory expansion -
    which are combinators here: each takes the result the instruction returns
    early and the rest of the instruction. *)

From Stdlib Require Import ZArith Lia.
From stdpp Require Import base tactics option list gmap.
From S2P Require Import Prelude PyBytes HostTypes SailRuntime Words ChainConfig Regions RegionAccess Gas GasSchedule Crypto Storage Accounts WarmLogs Journal CodeDb OperandStack Environment Kernel Machine Instructions.
Local Open Scope Z_scope.

(** ** Outcomes *)

Inductive OpcodeOutcome : Type :=
| Continue
| Failed (exception_kind : Z).

Definition opcode_frame_status (result : OpcodeOutcome) : FrameStatus :=
  match result with Continue => Running | Failed kind => Exceptional kind end.

(** What most instructions return: the gas, the stack pointer and the outcome;
    those that touch the memory also return its height. *)
Definition OpResult : Type := Z * StackPointer * OpcodeOutcome.
Definition MemResult : Type := Z * StackPointer * Z * OpcodeOutcome.

(** ** The guards *)

Definition self_addr (message : Message) : outcome address := Bytes20 message.(msg_address).

Definition guard_static (g : Z) (is_static : bool) : Z * OpcodeOutcome :=
  if is_static then (GAS_ZERO, Failed WriteProtection) else (g, Continue).

Definition guard_stack (sp : StackPointer) (inputs outputs : Z) : outcome OpcodeOutcome :=
  stack_validation ← validate_stack sp inputs outputs;
  Ok match stack_validation with
     | StackValid => Continue
     | StackUnderflowFailure => Failed StackUnderflow
     | StackOverflowFailure => Failed StackOverflow
     end.

(** A guard that returns early. *)
Definition guarded {R} (status : OpcodeOutcome) (early : OpcodeOutcome → R) (k : M SpecState R) :
    M SpecState R :=
  match status with Failed _ => mret (early status) | Continue => k end.

Definition with_stack {R} (sp : StackPointer) (inputs outputs : Z) (early : OpcodeOutcome → R)
    (k : M SpecState R) : M SpecState R :=
  stack_status ← of_outcome (guard_stack sp inputs outputs); guarded stack_status early k.

(** A charge the frame cannot pay returns early. *)
Definition charge {R} (g c : Z) (early : R) (k : Z → M SpecState R) : M SpecState R :=
  if g <? c then mret early else k (g - c).
Definition charge_or {R} (g c : Z) (early : M SpecState R) (k : Z → M SpecState R) :
    M SpecState R :=
  if g <? c then early
  else gas_ ← of_outcome (v ← gas_sub g c; gas v); k gas_.
Definition afford_or {R} (g : Z) (c : outcome GasCharge) (early : M SpecState R)
    (k : Z → M SpecState R) : M SpecState R :=
  c ← of_outcome c;
  if negb c.(affordable) then early
  else gas_ ← of_outcome (v ← gas_sub g c.(cost); gas v); k gas_.
Definition charge_sub {R} (g c : Z) (early : R) (k : Z → M SpecState R) : M SpecState R :=
  charge_or g c (mret early) k.
Definition afford {R} (g : Z) (c : outcome GasCharge) (early : R) (k : Z → M SpecState R) :
    M SpecState R :=
  afford_or g c (mret early) k.

(** [read_stack_word] and [stack_top_retreat] *)
Definition pop (sp : StackPointer) : M SpecState (Z * StackPointer) :=
  v ← read_stack_word sp; sp ← of_outcome (stack_top_retreat sp 1); mret (v, sp).
(** [stack_top_advance] and [write_stack_word] *)
Definition push (sp : StackPointer) (v : Z) : M SpecState StackPointer :=
  sp ← of_outcome (stack_top_advance sp 1); write_stack_word sp v;; mret sp.

(** The charge for the memory an access needs, the access and the expansion. *)
Definition with_memory {R} (base memory g start size : Z) (early : R)
    (k : Z → MemoryAccess → Z → M SpecState R) : M SpecState R :=
  requested ← of_outcome (memory_requested_height start size);
  afford g (memory_expansion_gas_cost memory requested g) early (λ gas_,
    access ← of_outcome (memory_access start size);
    memory ← expand_memory base memory access.(requested_height);
    memory ← of_outcome (code_length memory);
    k gas_ access memory).

Definition failed_at (sp : StackPointer) (st : OpcodeOutcome) : OpResult := (GAS_ZERO, sp, st).
Definition out_of_gas (sp : StackPointer) : OpResult := failed_at sp (Failed OutOfGas).
Definition mem_failed_at (sp : StackPointer) (memory : Z) (st : OpcodeOutcome) : MemResult :=
  (GAS_ZERO, sp, memory, st).
Definition mem_out_of_gas (sp : StackPointer) (memory : Z) : MemResult :=
  mem_failed_at sp memory (Failed OutOfGas).

(** ** Arithmetic and comparison *)

Definition unary_op (c : Z) (alu : Z → outcome Z) (g : Z) (sp : StackPointer) :
    M SpecState OpResult :=
  with_stack sp 1 1 (failed_at sp)
    (charge g c (out_of_gas sp) (λ gas_,
       a ← read_stack_word sp;
       result ← of_outcome (alu a);
       write_stack_word sp result;; mret (gas_, sp, Continue))).

Definition binary_op (c : Z) (alu : Z → Z → outcome Z) (g : Z) (sp : StackPointer) :
    M SpecState OpResult :=
  with_stack sp 2 1 (failed_at sp)
    (charge g c (out_of_gas sp) (λ gas_,
       '(a, sp) ← pop sp;
       b ← read_stack_word sp;
       result ← of_outcome (alu a b);
       write_stack_word sp result;; mret (gas_, sp, Continue))).

Definition ternary_op (c : Z) (alu : Z → Z → Z → outcome Z) (g : Z) (sp : StackPointer) :
    M SpecState OpResult :=
  with_stack sp 3 1 (failed_at sp)
    (charge g c (out_of_gas sp) (λ gas_,
       '(a, sp) ← pop sp;
       '(b, sp) ← pop sp;
       n ← read_stack_word sp;
       result ← of_outcome (alu a b n);
       write_stack_word sp result;; mret (gas_, sp, Continue))).

Definition execute_add := binary_op G_verylow alu_add.
Definition execute_mul := binary_op G_low alu_mul.
Definition execute_sub := binary_op G_verylow alu_sub.
Definition execute_div := binary_op G_low alu_div.
Definition execute_sdiv := binary_op G_low alu_sdiv.
Definition execute_mod := binary_op G_low alu_mod.
Definition execute_smod := binary_op G_low alu_smod.
Definition execute_addmod := ternary_op G_mid alu_addmod.
Definition execute_mulmod := ternary_op G_mid alu_mulmod.

Definition execute_exp (g : Z) (sp : StackPointer) : M SpecState OpResult :=
  with_stack sp 2 1 (failed_at sp)
    ('(a, sp) ← pop sp;
     e ← read_stack_word sp;
     gas_cost_ ← of_outcome (exp_gas e);
     charge g gas_cost_ (out_of_gas sp) (λ gas_,
       result ← of_outcome (alu_exp a e);
       write_stack_word sp result;; mret (gas_, sp, Continue))).

Definition execute_signextend := binary_op G_low alu_signextend.
Definition execute_lt := binary_op G_verylow alu_lt.
Definition execute_gt := binary_op G_verylow alu_gt.
Definition execute_slt := binary_op G_verylow alu_slt.
Definition execute_sgt := binary_op G_verylow alu_sgt.
Definition execute_eq := binary_op G_verylow alu_eq.
Definition execute_iszero := unary_op G_verylow alu_iszero.
Definition execute_and := binary_op G_verylow alu_and.
Definition execute_or := binary_op G_verylow alu_or.
Definition execute_xor := binary_op G_verylow alu_xor.
Definition execute_not := unary_op G_verylow alu_not.
Definition execute_byte := binary_op G_verylow alu_byte.
Definition execute_shl := binary_op G_verylow alu_shl.
Definition execute_shr := binary_op G_verylow alu_shr.
Definition execute_sar := binary_op G_verylow alu_sar.
Definition execute_clz := unary_op G_low alu_clz.

(** ** Reading the environment *)

(** Instructions that push a value that costs a fixed price. *)
Definition constant_op (c : Z) (read : M SpecState Z) (g : Z) (sp : StackPointer) :
    M SpecState OpResult :=
  with_stack sp 0 1 (failed_at sp)
    (charge g c (out_of_gas sp) (λ gas_,
       v ← read; sp ← push sp v; mret (gas_, sp, Continue))).

(** Instructions that replace the top by a value read with it. *)
Definition lookup_op (c : Z) (read : Z → M SpecState Z) (g : Z) (sp : StackPointer) :
    M SpecState OpResult :=
  with_stack sp 1 1 (failed_at sp)
    (charge g c (out_of_gas sp) (λ gas_,
       '(key, sp) ← pop sp;
       v ← read key; sp ← push sp v; mret (gas_, sp, Continue))).

Definition execute_address (a : address) := constant_op G_base (of_outcome (address_to_word a)).
Definition execute_origin := constant_op G_base (k_env F_Origin).
Definition execute_caller (caller : address) :=
  constant_op G_base (of_outcome (address_to_word caller)).
Definition execute_callvalue (v : Z) := constant_op G_base (mret v).
Definition execute_gasprice := constant_op G_base (k_env F_GasPrice).
Definition execute_calldatasize (calldata : CalldataSlice) := constant_op G_base
  (of_outcome (n ← calldata_slice_length calldata; word_of_source_byte_count n)).
Definition execute_calldataload (calldata : CalldataSlice) :=
  lookup_op G_verylow (λ off, zoom (calldata_slice_load_word_offset calldata off)).
Definition execute_codesize (code : Code) := constant_op G_base
  (of_outcome (n ← frame_code_len code; word_of_source_byte_count n)).
Definition execute_returndatasize (returndata : Slice) := constant_op G_base
  (of_outcome (n ← returndata_size returndata; word_of_source_byte_count n)).
Definition execute_coinbase := constant_op G_base (k_env F_Coinbase).
Definition execute_timestamp := constant_op G_base (k_env F_Timestamp).
Definition execute_number := constant_op G_base (k_env F_Number).
Definition execute_slotnum := constant_op G_base (k_env F_SlotNumber).
Definition execute_prevrandao := constant_op G_base (k_env F_PrevRandao).
Definition execute_gaslimit := constant_op G_base (k_env F_GasLimit).
Definition execute_chainid := constant_op G_base (k_env F_ChainId).
Definition execute_basefee := constant_op G_base (k_env F_BaseFee).
Definition execute_blobbasefee (blob_fee : Z) := constant_op G_base (mret blob_fee).
Definition execute_blockhash :=
  lookup_op 20 (λ n, h ← k_blockhash n; of_outcome (hash_to_word h)).
Definition execute_blobhash := lookup_op G_verylow k_blobhash.

Definition execute_msize (g : Z) (sp : StackPointer) (memory : Z) : M SpecState MemResult :=
  with_stack sp 0 1 (mem_failed_at sp memory)
    (charge g G_base (mem_out_of_gas sp memory) (λ gas_,
       size ← of_outcome
         (high_water ← memory_high_water memory;
          words ← memory_word_count high_water; word_of_nat_byte_count (words * 32));
       sp ← push sp size; mret (gas_, sp, memory, Continue))).

Definition execute_gas (g : Z) (sp : StackPointer) : M SpecState OpResult :=
  with_stack sp 0 1 (failed_at sp)
    (charge g G_base (out_of_gas sp) (λ gas_,
       gas_word ← of_outcome (word_of_nat_byte_count gas_);
       sp ← push sp gas_word; mret (gas_, sp, Continue))).

(** ** The stack *)

Definition execute_pop (g : Z) (sp : StackPointer) : M SpecState OpResult :=
  with_stack sp 1 0 (failed_at sp)
    (charge g G_base (out_of_gas sp) (λ gas_, '(_, sp) ← pop sp; mret (gas_, sp, Continue))).

Definition execute_push (g : Z) (sp : StackPointer) (n v : Z) : M SpecState OpResult :=
  with_stack sp 0 1 (failed_at sp)
    (charge g (if n =? 0 then G_base else G_verylow) (out_of_gas sp) (λ gas_,
       sp ← push sp v; mret (gas_, sp, Continue))).

Definition dup_at (g : Z) (sp : StackPointer) (n : Z) : M SpecState OpResult :=
  with_stack sp n (n + 1) (failed_at sp)
    (charge g G_verylow (out_of_gas sp) (λ gas_,
       v ← stack_slot_read sp (n - 1);
       sp ← push sp v; mret (gas_, sp, Continue))).

Definition exchange_at (g : Z) (sp : StackPointer) (n m : Z) : M SpecState OpResult :=
  with_stack sp (m + 1) (m + 1) (failed_at sp)
    (charge g G_verylow (out_of_gas sp) (λ gas_,
       first ← stack_slot_read sp n;
       second ← stack_slot_read sp m;
       stack_set sp n second;;
       stack_set sp m first;; mret (gas_, sp, Continue))).

Definition execute_dup := dup_at.
Definition execute_swap (g : Z) (sp : StackPointer) (n : Z) := exchange_at g sp 0 n.

Definition invalid_immediate (g : Z) (sp : StackPointer) : M SpecState OpResult :=
  mret (g, sp, Failed InvalidOpcode).

Definition execute_dupn (g : Z) (sp : StackPointer) (immediate : Z) : M SpecState OpResult :=
  if negb (deep_stack_immediate_valid immediate) then invalid_immediate g sp
  else n ← of_outcome (decode_single_stack_index immediate); dup_at g sp n.

Definition execute_swapn (g : Z) (sp : StackPointer) (immediate : Z) : M SpecState OpResult :=
  if negb (deep_stack_immediate_valid immediate) then invalid_immediate g sp
  else n ← of_outcome (decode_single_stack_index immediate); exchange_at g sp 0 n.

Definition execute_exchange (g : Z) (sp : StackPointer) (immediate : Z) : M SpecState OpResult :=
  if negb (exchange_immediate_valid immediate) then invalid_immediate g sp
  else '(n, m) ← of_outcome (decode_exchange_stack_indices immediate); exchange_at g sp n m.

(** ** Control flow *)

Definition JumpResult : Type := Z * Z * StackPointer * OpcodeOutcome.

Definition do_jump (pc g : Z) (code : Code) (destination : Z) :
    M SpecState (Z * Z * OpcodeOutcome) :=
  code_length_ ← of_outcome (frame_code_len code);
  if destination <? code_length_ then
    valid_destination ← frame_jumpdest_valid code destination;
    if valid_destination : bool then mret (destination, g, Continue)
    else mret (pc, GAS_ZERO, Failed InvalidJump)
  else mret (pc, GAS_ZERO, Failed InvalidJump).

Definition jump_failed (pc : Z) (sp : StackPointer) (st : OpcodeOutcome) : JumpResult :=
  (pc, GAS_ZERO, sp, st).

Definition execute_jump (code : Code) (pc g : Z) (sp : StackPointer) : M SpecState JumpResult :=
  with_stack sp 1 0 (jump_failed pc sp)
    (charge_sub g G_mid (jump_failed pc sp (Failed OutOfGas)) (λ gas_,
       '(dest, sp) ← pop sp;
       '(pc, gas_, status) ← do_jump pc gas_ code dest;
       mret (pc, gas_, sp, status))).

Definition execute_jumpi (code : Code) (pc g : Z) (sp : StackPointer) : M SpecState JumpResult :=
  with_stack sp 2 0 (jump_failed pc sp)
    (charge_sub g G_high (jump_failed pc sp (Failed OutOfGas)) (λ gas_,
       '(dest, sp) ← pop sp;
       '(cond, sp) ← pop sp;
       if word_is_zero cond then mret (pc, gas_, sp, Continue)
       else
         '(pc, gas_, status) ← do_jump pc gas_ code dest;
         mret (pc, gas_, sp, status))).

Definition execute_pc (pc g : Z) (sp : StackPointer) : M SpecState JumpResult :=
  with_stack sp 0 1 (jump_failed pc sp)
    (charge g G_base (jump_failed pc sp (Failed OutOfGas)) (λ gas_,
       opcode_pc ← of_outcome (next_pc ← word_of_source_byte_count pc; alu_sub next_pc WORD_ONE);
       sp ← push sp opcode_pc; mret (pc, gas_, sp, Continue))).

Definition execute_jumpdest (g : Z) : Z * OpcodeOutcome :=
  if g <? G_jumpdest then (GAS_ZERO, Failed OutOfGas) else (g - G_jumpdest, Continue).

Definition execute_stop : FrameStatus := Halted HaltStop.
Definition execute_invalid (g : Z) : Z * OpcodeOutcome := (g, Failed InvalidOpcode).

Section execute.
Context `{Keccak} `{StateTrie}.

(** ** Memory *)

Definition execute_keccak256 (base g : Z) (sp : StackPointer) (memory : Z) :
    M SpecState MemResult :=
  with_stack sp 2 1 (mem_failed_at sp memory)
    ('(offset, sp) ← pop sp;
     '(size, sp) ← pop sp;
     afford g (keccak_gas_cost size g) (mem_out_of_gas sp memory) (λ gas_,
     with_memory base memory gas_ offset size (mem_out_of_gas sp memory) (λ gas_ access memory,
       digest ← mem_keccak base memory access;
       sp ← push sp digest; mret (gas_, sp, memory, Continue)))).

(** The three words of a copy, its price and the memory it writes. *)
Definition copy_op {X} (prepare : outcome X) (copy : X → Z → Z → Z → M SpecState unit)
    (base g : Z) (sp : StackPointer) (memory : Z) : M SpecState MemResult :=
  with_stack sp 3 0 (mem_failed_at sp memory)
    (charge_sub g G_verylow (mem_out_of_gas sp memory) (λ gas_,
     '(destination, sp) ← pop sp;
     '(source, sp) ← pop sp;
     '(size, sp) ← pop sp;
     afford gas_ (copy_gas_cost size gas_) (mem_out_of_gas sp memory) (λ gas_,
     with_memory base memory gas_ destination size (mem_out_of_gas sp memory)
       (λ gas_ access memory,
       x ← of_outcome prepare;
       dst ← of_outcome (memory_absolute base access.(ma_off));
       copy x dst source access.(ma_len);; mret (gas_, sp, memory, Continue))))).

Definition execute_calldatacopy (calldata : CalldataSlice) :=
  copy_op (Ok calldata) (λ calldata dst source size,
    zoom (calldata_slice_copy_word_offset calldata dst source size)).

Definition execute_codecopy (code : Code) :=
  copy_op (code_bytes code) (λ bytes dst source size,
    zoom (code_slice_copy_word_offset bytes dst source size)).

(** Reading past the return data fails, unlike the other copies. *)
Definition execute_returndatacopy (returndata : Slice) (base g : Z) (sp : StackPointer)
    (memory : Z) : M SpecState MemResult :=
  with_stack sp 3 0 (mem_failed_at sp memory)
    (charge_sub g G_verylow (mem_out_of_gas sp memory) (λ gas_,
     '(destination, sp) ← pop sp;
     '(source, sp) ← pop sp;
     '(size, sp) ← pop sp;
     available ← of_outcome (returndata_size returndata);
     if source <=? available then
       remaining ← of_outcome (returndata_remaining available source);
       if size <=? remaining then
         afford gas_ (copy_gas_cost size gas_) (mem_out_of_gas sp memory) (λ gas_,
         with_memory base memory gas_ destination size (mem_out_of_gas sp memory)
           (λ gas_ access memory,
           dst ← of_outcome (memory_absolute base access.(ma_off));
           returndata_copy returndata dst source size;; mret (gas_, sp, memory, Continue)))
       else mret (mem_failed_at sp memory (Failed InvalidOpcode))
     else mret (mem_failed_at sp memory (Failed InvalidOpcode)))).

Definition execute_mload (base g : Z) (sp : StackPointer) (memory : Z) : M SpecState MemResult :=
  with_stack sp 1 1 (mem_failed_at sp memory)
    (charge_sub g G_verylow (mem_out_of_gas sp memory) (λ gas_,
     '(offset, sp) ← pop sp;
     word_size ← of_outcome (u256 32);
     with_memory base memory gas_ offset word_size (mem_out_of_gas sp memory)
       (λ gas_ access memory,
       v ← mem_load base access.(ma_off);
       sp ← push sp v; mret (gas_, sp, memory, Continue)))).

(** [execute_mstore] and [execute_mstore8]: a word, or its last byte. *)
Definition store_op (size : Z) (store : Z → Z → Z → M SpecState unit) (base g : Z)
    (sp : StackPointer) (memory : Z) : M SpecState MemResult :=
  with_stack sp 2 0 (mem_failed_at sp memory)
    (charge_sub g G_verylow (mem_out_of_gas sp memory) (λ gas_,
     '(offset, sp) ← pop sp;
     '(v, sp) ← pop sp;
     word_size ← of_outcome (u256 size);
     with_memory base memory gas_ offset word_size (mem_out_of_gas sp memory)
       (λ gas_ access memory,
       store base access.(ma_off) v;; mret (gas_, sp, memory, Continue)))).

Definition execute_mstore := store_op 32 mem_store.
Definition execute_mstore8 := store_op WORD_ONE mem_store_byte.

Definition execute_mcopy (base g : Z) (sp : StackPointer) (memory : Z) : M SpecState MemResult :=
  with_stack sp 3 0 (mem_failed_at sp memory)
    (charge_sub g G_verylow (mem_out_of_gas sp memory) (λ gas_,
     '(destination_word, sp) ← pop sp;
     '(source_word, sp) ← pop sp;
     '(size, sp) ← pop sp;
     afford gas_ (copy_gas_cost size gas_) (mem_out_of_gas sp memory) (λ gas_,
     destination_requested ← of_outcome (memory_requested_height destination_word size);
     source_requested ← of_outcome (memory_requested_height source_word size);
     let requested := if destination_requested <? source_requested then source_requested
                      else destination_requested in
     afford gas_ (memory_expansion_gas_cost memory requested gas_) (mem_out_of_gas sp memory)
       (λ gas_,
       destination ← of_outcome (memory_access destination_word size);
       source ← of_outcome (memory_access source_word size);
       let materialized :=
         if destination.(requested_height) <? source.(requested_height)
         then source.(requested_height) else destination.(requested_height) in
       memory ← expand_memory base memory materialized;
       memory ← of_outcome (code_length memory);
       mem_mcopy base destination.(ma_off) source.(ma_off) destination.(ma_len);;
       mret (gas_, sp, memory, Continue))))).

(** ** Other accounts *)

(** An instruction that reads an account named by the top: the access is
    charged, the account marked warm, the top replaced. *)
Definition account_op (price : ProtocolProfileFields → bool → outcome Z)
    (take : Z → Z → OpResult → (Z → M SpecState OpResult) → M SpecState OpResult)
    (read : address → M SpecState Z) (g : Z) (sp : StackPointer) : M SpecState OpResult :=
  with_stack sp 1 1 (failed_at sp)
    ('(address_word, sp) ← pop sp;
     a ← of_outcome (word_to_address address_word);
     warm ← k_account_is_warm a;
     profile ← get_profile;
     gas_cost_ ← of_outcome (price profile warm);
     take g gas_cost_ (out_of_gas sp) (λ gas_,
       k_account_mark_warm a;;
       v ← read a; sp ← push sp v; mret (gas_, sp, Continue))).

(** Reading the code of an account costs extra from Amsterdam. *)
Definition code_access_cost (profile : ProtocolProfileFields) (warm : bool) : outcome Z :=
  access_cost ← account_cost profile warm;
  read_cost ← external_code_read_cost profile; Ok (access_cost + read_cost).

Definition execute_balance := account_op account_cost charge k_get_balance.
Definition execute_extcodesize := account_op code_access_cost charge_sub
  (λ a, code_size ← k_get_code_size a; of_outcome (word_of_source_byte_count code_size)).
Definition execute_extcodehash := account_op account_cost charge
  (λ a, h ← k_get_codehash a; of_outcome (hash_to_word h)).
Definition execute_selfbalance (a : address) := constant_op G_low (k_get_balance a).

Definition execute_extcodecopy (base g : Z) (sp : StackPointer) (memory : Z) :
    M SpecState MemResult :=
  with_stack sp 4 0 (mem_failed_at sp memory)
    ('(address_word, sp) ← pop sp;
     a ← of_outcome (word_to_address address_word);
     '(destination, sp) ← pop sp;
     '(source, sp) ← pop sp;
     '(size, sp) ← pop sp;
     warm ← k_account_is_warm a;
     profile ← get_profile;
     gas_cost_ ← of_outcome (code_access_cost profile warm);
     charge_sub g gas_cost_ (mem_out_of_gas sp memory) (λ gas_,
     afford gas_ (copy_gas_cost size gas_) (mem_out_of_gas sp memory) (λ gas_,
     with_memory base memory gas_ destination size (mem_out_of_gas sp memory)
       (λ gas_ access memory,
       k_account_mark_warm a;;
       dst ← of_outcome (memory_absolute base access.(ma_off));
       k_code_copy a dst source access.(ma_len);; mret (gas_, sp, memory, Continue))))).

(** ** Storage *)

Definition execute_sload (a : address) (g : Z) (sp : StackPointer) : M SpecState OpResult :=
  with_stack sp 1 1 (failed_at sp)
    ('(s, sp) ← pop sp;
     warm ← k_slot_is_warm a s;
     profile ← get_profile;
     gas_cost_ ← of_outcome (sload_cost profile warm);
     charge g gas_cost_ (out_of_gas sp) (λ gas_,
       k_slot_mark_warm a s;;
       entry ← k_sload a s;
       sp ← push sp entry.(sv_curr); mret (gas_, sp, Continue))).

(** The gas of a write: gas, state gas, state gas spill, refund. *)
Definition SstoreResult : Type := Z * Z * Z * Z * StackPointer * OpcodeOutcome.

Definition execute_sstore (a : address) (fork : Z) (is_static : bool)
    (g state_gas_ state_spill refund : Z) (sp : StackPointer) : M SpecState SstoreResult :=
  with_stack sp 2 0 (λ st, (GAS_ZERO, state_gas_, state_spill, refund, sp, st))
    (let '(gas_, status) := guard_static g is_static in
     guarded status (λ st, (gas_, state_gas_, state_spill, refund, sp, st))
    (if (fork <? Amsterdam) && (gas_ <=? G_callstipend) then
       mret (gas_, state_gas_, state_spill, refund, sp, Failed OutOfGas)
     else
       '(s, sp) ← pop sp;
       '(v, sp) ← pop sp;
       warm ← k_slot_is_warm a s;
       let cold := negb warm in
       sentry ← (if Amsterdam <=? fork then of_outcome (sstore_sentry_cost cold) else mret 0);
       if (Amsterdam <=? fork) && (gas_ <? sentry) then
         mret (GAS_ZERO, state_gas_, state_spill, refund, sp, Failed OutOfGas)
       else
         k_slot_mark_warm a s;;
         entry ← k_sload a s;
         profile ← get_profile;
         costs ← of_outcome (sstore_costs profile entry.(sv_orig) entry.(sv_curr) v cold);
         '(gas_, state_gas_, state_spill) ←
           (if negb (costs.(state_credit) =? 0)
            then of_outcome (credit_state_gas_refund gas_ state_gas_ state_spill costs.(state_credit))
            else mret (gas_, state_gas_, state_spill));
         charge_sub gas_ costs.(execution)
           (GAS_ZERO, state_gas_, state_spill, refund, sp, Failed OutOfGas) (λ gas_,
         '(halt, gas_, state_gas_, state_spill) ←
           of_outcome (charge_state_gas gas_ state_gas_ state_spill costs.(state_charge));
         if halt : bool then mret (gas_, state_gas_, state_spill, refund, sp, Failed OutOfGas)
         else
           refund ← (if negb (costs.(GasSchedule.refund) =? 0)
                     then of_outcome (record_refund refund costs.(GasSchedule.refund))
                     else mret refund);
           when (negb (entry.(sv_curr) =? v)) (k_sstore a s (mkStorageValue v entry.(sv_orig)));;
           mret (gas_, state_gas_, state_spill, refund, sp, Continue)))).

Definition execute_tload (a : address) := lookup_op G_warm_access (k_tload a).

Definition execute_tstore (a : address) (is_static : bool) (g : Z) (sp : StackPointer) :
    M SpecState OpResult :=
  with_stack sp 2 0 (failed_at sp)
    (let '(gas_, status) := guard_static g is_static in
     guarded status (λ st, (gas_, sp, st))
    (charge_sub gas_ G_warm_access (out_of_gas sp) (λ gas_,
       '(s, sp) ← pop sp;
       '(v, sp) ← pop sp;
       k_tstore a s v;; mret (gas_, sp, Continue)))).

(** ** Logs *)

(** The topics of a log, popped in order. *)
Definition pop_log_topics (count : Z) (sp : StackPointer) : M SpecState (LogTopics * StackPointer) :=
  if count =? 1 then '(t0, sp) ← pop sp; mret (LogTopics1 t0, sp)
  else if count =? 2 then '(t0, sp) ← pop sp; '(t1, sp) ← pop sp; mret (LogTopics2 t0 t1, sp)
  else if count =? 3 then
    '(t0, sp) ← pop sp; '(t1, sp) ← pop sp; '(t2, sp) ← pop sp; mret (LogTopics3 t0 t1 t2, sp)
  else if count =? 4 then
    '(t0, sp) ← pop sp; '(t1, sp) ← pop sp; '(t2, sp) ← pop sp; '(t3, sp) ← pop sp;
    mret (LogTopics4 t0 t1 t2 t3, sp)
  else mret (LogTopics0, sp).

Definition execute_log (a : address) (is_static : bool) (base n g : Z) (sp : StackPointer)
    (memory : Z) : M SpecState MemResult :=
  with_stack sp (n + 2) 0 (mem_failed_at sp memory)
    (let '(gas_, status) := guard_static g is_static in
     guarded status (λ st, (gas_, sp, memory, st))
    ('(offset, sp) ← pop sp;
     '(size, sp) ← pop sp;
     '(topics, sp) ← pop_log_topics n sp;
     afford gas_ (log_gas_cost n size gas_) (mem_out_of_gas sp memory) (λ gas_,
     with_memory base memory gas_ offset size (mem_out_of_gas sp memory) (λ gas_ access memory,
       data ← active_memory_slice base memory access.(ma_off) access.(ma_len);
       memory_slice ← of_outcome (evm_memory_slice data.(sl_bytes) data.(sl_len));
       zoom (k_log a topics (LogDataMemory memory_slice));;
       mret (gas_, sp, memory, Continue))))).

(** ** Ending a frame *)

(** The output a frame returns or reverts with. *)
Definition frozen_output (base memory : Z) (access : MemoryAccess) : M SpecState Slice :=
  data ← active_memory_slice base memory access.(ma_off) access.(ma_len);
  freeze_memory_output data.

Definition ReturnResult : Type := Z * StackPointer * Z * FrameStatus.

Definition execute_return (base g : Z) (sp : StackPointer) (memory : Z) : M SpecState ReturnResult :=
  with_stack sp 2 0 (λ st, (GAS_ZERO, sp, memory, opcode_frame_status st))
    ('(offset, sp) ← pop sp;
     '(size, sp) ← pop sp;
     with_memory base memory g offset size (GAS_ZERO, sp, memory, Exceptional OutOfGas)
       (λ gas_ access memory,
       output ← frozen_output base memory access;
       mret (gas_, sp, memory, Halted (HaltReturn output)))).

Definition RevertResult : Type := Z * Z * Z * StackPointer * Z * FrameStatus.

(** From Amsterdam a revert gives the state gas back. *)
Definition execute_revert (reservoir base g state_gas_ state_spill : Z) (sp : StackPointer)
    (memory : Z) : M SpecState RevertResult :=
  with_stack sp 2 0
    (λ st, (GAS_ZERO, state_gas_, state_spill, sp, memory, opcode_frame_status st))
    ('(offset, sp) ← pop sp;
     '(size, sp) ← pop sp;
     with_memory base memory g offset size
       (GAS_ZERO, state_gas_, state_spill, sp, memory, Exceptional OutOfGas)
       (λ gas_ access memory,
       profile ← get_profile;
       '(gas_, state_gas_, state_spill) ←
         (if Amsterdam <=? fork profile then
            gas_ ← of_outcome (v ← conserved_gas_add gas_ state_spill; gas v);
            mret (gas_, reservoir, STATE_GAS_SPILL_ZERO)
          else mret (gas_, state_gas_, state_spill));
       output ← frozen_output base memory access;
       mret (gas_, state_gas_, state_spill, sp, memory, Halted (HaltRevert output)))).

Definition DestructResult : Type := Z * Z * Z * Z * StackPointer * FrameStatus.

(** The sweep from Amsterdam: one charge, state gas for a new beneficiary. *)
Definition selfdestruct_amsterdam (a beneficiary : address) (g state_gas_ state_spill refund : Z)
    (sp : StackPointer) : M SpecState DestructResult :=
  warm ← k_account_is_warm beneficiary;
  let access_cost := G_selfdestruct +
    (if warm : bool then G_zero else G_amsterdam_cold_account_access) in
  let failed := (GAS_ZERO, state_gas_, state_spill, refund, sp, Exceptional OutOfGas) in
  if g <? access_cost then mret failed
  else
    k_account_mark_warm beneficiary;;
    bal ← k_get_balance a;
    beneficiary_empty ← k_account_is_empty beneficiary;
    let creates_account := word_nonzero bal && beneficiary_empty in
    let execution_cost :=
      if creates_account then access_cost + G_amsterdam_account_write else access_cost in
    charge_sub g execution_cost failed (λ gas_,
    '(halt, gas_, state_gas_, state_spill) ←
      (if creates_account
       then of_outcome (charge_state_gas gas_ state_gas_ state_spill G_amsterdam_state_new_account)
       else mret (false, gas_, state_gas_, state_spill));
    if halt : bool then mret (gas_, state_gas_, state_spill, refund, sp, Exceptional OutOfGas)
    else
      k_transfer a beneficiary bal;;
      created_ ← k_was_created a;
      when created_ (k_selfdestruct a);;
      mret (gas_, state_gas_, state_spill, refund, sp, Halted HaltSelfDestruct)).

(** The sweep before Amsterdam. *)
Definition selfdestruct_legacy (a beneficiary : address) (fork g state_gas_ state_spill refund : Z)
    (sp : StackPointer) : M SpecState DestructResult :=
  let failed := (GAS_ZERO, state_gas_, state_spill, refund, sp, Exceptional OutOfGas) in
  bal ← k_get_balance a;
  warm ← k_account_is_warm beneficiary;
  charge_sub g G_selfdestruct failed (λ gas_,
  let finish gas_ :=
    is_destroyed ← k_is_selfdestructed a;
    refund ← (if (fork <? London) && negb is_destroyed
              then of_outcome (record_refund refund R_selfdestruct_pre_london) else mret refund);
    k_transfer a beneficiary bal;;
    destroy ← (if fork <? Cancun then mret true else k_was_created a);
    when destroy (k_zero_balance a;; k_selfdestruct a);;
    mret (gas_, state_gas_, state_spill, refund, sp, Halted HaltSelfDestruct) in
  let touch gas_ :=
    k_account_mark_warm beneficiary;;
    beneficiary_empty ← k_account_is_empty beneficiary;
    if word_nonzero bal && beneficiary_empty
    then charge_sub gas_ G_newaccount failed finish else finish gas_ in
  if negb warm then charge_sub gas_ G_cold_account failed touch else touch gas_).

Definition execute_selfdestruct (a : address) (fork : Z) (is_static : bool)
    (g state_gas_ state_spill refund : Z) (sp : StackPointer) : M SpecState DestructResult :=
  with_stack sp 1 0
    (λ st, (GAS_ZERO, state_gas_, state_spill, refund, sp, opcode_frame_status st))
    (let '(gas_, status) := guard_static g is_static in
     guarded status (λ st, (gas_, state_gas_, state_spill, refund, sp, opcode_frame_status st))
    ('(beneficiary_word, sp) ← pop sp;
     beneficiary ← of_outcome (word_to_address beneficiary_word);
     if Amsterdam <=? fork
     then selfdestruct_amsterdam a beneficiary gas_ state_gas_ state_spill refund sp
     else selfdestruct_legacy a beneficiary fork gas_ state_gas_ state_spill refund sp)).
End execute.
