(* ===== verification/Precompiles.v ===== *)
(** * Precompiles: contract addresses and the precompiled contracts

    [lib/address.py], [lib/rlp/codecs/address.py], [primitives/crypto.py] and
    the second half of [evm/precompiles.py]: what a precompiled contract checks
    before it calls the accelerator of the host, and the result it makes of
    the answer. Their prices are in GasSchedule.v. *)

From Stdlib Require Import ZArith Lia Strings.Byte.
From stdpp Require Import base tactics option list gmap.
From S2P Require Import Prelude PyBytes HostTypes SailRuntime Words ChainConfig Regions RegionAccess Gas GasSchedule Sha256 Crypto Accelerators Secp256k1 Environment Scratch Rlp Kernel Machine.
Local Open Scope Z_scope.

(** ** The addresses of created contracts *)

Section addresses.
Context `{Keccak}.

Definition hash_address (digest : hash) : outcome address :=
  digest_word ← hash_to_word digest; a ← word_to_address digest_word; Bytes20 a.

Definition create_address (sender : address) (nonce : Z) : M SpecState address :=
  nonce_length ← of_outcome (rlp_uint_word_size nonce);
  let content_len := rlp_addr_size + nonce_length in
  encoded_len ← of_outcome (rlp_list_size content_len);
  encoder ← rlp_encoder_begin encoded_len;
  rlp_write_list_prefix content_len;;
  rlp_write_addr sender;;
  rlp_write_uint_word nonce;;
  encoded ← rlp_encoder_finish encoder;
  digest ← zoom (scratch_keccak256 encoded);
  digest_word ← of_outcome (hash_to_word digest);
  address_ ← of_outcome (word_to_address digest_word);
  rlp_encoder_rewind encoder;;
  of_outcome (Bytes20 address_).

Definition create2_address (sender : address) (salt : Z) (init_hash : hash) : M SpecState address :=
  mark ← scratch_reserve 85;
  scratch_push_byte 255;;
  scratch_push_address sender;;
  salt_hash ← of_outcome (word_to_hash salt);
  scratch_push_b256 salt_hash WORD_BYTE_LENGTH;;
  scratch_push_b256 init_hash WORD_BYTE_LENGTH;;
  preimage ← scratch_finish mark;
  digest ← zoom (scratch_keccak256 preimage);
  scratch_rewind mark;;
  of_outcome (hash_address digest).

Definition k_create_addr (a : address) (nonce : Z) : M SpecState address :=
  r ← create_address a nonce; of_outcome (Bytes20 r).
Definition k_create2_addr (a : address) (salt : Z) (inithash : hash) : M SpecState address :=
  r ← create2_address a salt inithash; of_outcome (Bytes20 r).

(** ** Digests of call data *)

Definition calldata_keccak256 (input : CalldataSlice) : M HostState hash :=
  h ← match input with
      | InputCalldata bytes => stateless_input_keccak256 bytes
      | MemoryCalldata bytes => memory_keccak256 bytes
      end;
  of_outcome (Bytes32 h).
End addresses.

Definition calldata_sha256 (input : CalldataSlice) : M HostState hash :=
  h ← match input with
      | InputCalldata bytes => stateless_input_sha256 bytes
      | MemoryCalldata bytes => memory_sha256 bytes
      end;
  of_outcome (Bytes32 h).

Definition ecrecover_addr `{Keccak} (h : hash) (yparity r s : Z) : outcome AddressResult :=
  ecrecover h yparity r s.

(** ** Results *)

Record PrecompileResult : Type := mkPrecompileResult { pr_success : bool; pr_output : Slice }.

Definition precompile_success (output : Slice) : PrecompileResult := mkPrecompileResult true output.
Definition precompile_failure : PrecompileResult := mkPrecompileResult false EMPTY_OUTPUT_SLICE.

Definition accelerator_result (success : bool) (output_len : Z) : outcome PrecompileResult :=
  if success then output ← output_buffer_slice output_len; Ok (precompile_success output)
  else Ok precompile_failure.

(** An accelerator that stores its output and tells whether it succeeded. *)
Definition accelerated (m : M HostState bool) (output_len : Z) : M SpecState PrecompileResult :=
  success ← zoom m; of_outcome (accelerator_result success output_len).

Definition copied_result (data : CalldataSlice) : M SpecState PrecompileResult :=
  output ← freeze_calldata_output data;
  input_length ← of_outcome (calldata_slice_length data);
  mret (if output.(sl_len) =? input_length then precompile_success output else precompile_failure).

Definition boolean_result (v : bool) : M SpecState PrecompileResult :=
  output ← output_buffer_word (if v then WORD_ONE else WORD_ZERO); mret (precompile_success output).

Definition pairing_result (result : Z) : M SpecState PrecompileResult :=
  if result <? 2 then mret precompile_failure
  else parity ← of_outcome (sail_tmod_int result 2); boolean_result (parity =? 1).

(** ** Constants *)

Definition ACCELERATOR_INPUT_MAX : Z := 2097152.
Definition FIELD_ELEMENTS_PER_BLOB : Z := 4096.
Definition BLS_MODULUS : Z := 0x73eda753299d7d483339d80809a1d80553bda402fffe5bfeffffffff00000001.
Definition BLAKE2F_INPUT_LENGTH : Z := 213.
Definition BLAKE2F_FINAL_BLOCK_OFFSET : Z := 212.
Definition BLAKE2F_OUTPUT_LENGTH : Z := DOUBLE_WORD_BYTE_LENGTH.
Definition KZG_INPUT_LENGTH : Z := 192.
Definition KZG_COMMITMENT_OFFSET : Z := 96.
Definition KZG_COMMITMENT_LENGTH : Z := 48.
Definition BLS_FIELD_PADDING_LENGTH : Z := 16.
Definition BLS_PADDED_FIELD_LENGTH : Z := DOUBLE_WORD_BYTE_LENGTH.
Definition BLS_G1_POINT_LENGTH : Z := 128.
Definition BLS_G2_POINT_LENGTH : Z := 256.
Definition BLS_G2_FINAL_FIELD_OFFSET : Z := 192.
Definition BLS_G1_ADD_INPUT_LENGTH : Z := 256.
Definition BLS_G1_MSM_ITEM_LENGTH : Z := 160.
Definition BLS_G2_ADD_INPUT_LENGTH : Z := 512.
Definition BLS_G2_MSM_ITEM_LENGTH : Z := 288.
Definition BLS_PAIRING_ITEM_LENGTH : Z := 384.
Definition P256_INPUT_LENGTH : Z := 160.
Definition BN254_PAIRING_ITEM_LENGTH : Z := 192.
Definition TWO_COMPONENTS : Z := 2.
Definition BLS_G2_POINT_OFFSET : Z := 128.

(** ** The padding of the BLS12-381 field elements *)

(** [&] evaluates both sides. *)
Definition both {S} (p q : M S bool) : M S bool := a ← p; b ← q; mret (a && b).

Definition field_padding (input : CalldataSlice) (base stride count : Z) : M HostState bool :=
  slice_strided_zero input base stride BLS_FIELD_PADDING_LENGTH count.

Definition bls_g1_padding (input : CalldataSlice) (base stride count : Z) : M HostState bool :=
  both (field_padding input base stride count)
    (field_padding input (base + BLS_PADDED_FIELD_LENGTH) stride count).

Definition bls_g2_padding (input : CalldataSlice) (base stride count : Z) : M HostState bool :=
  both (field_padding input base stride count)
    (both (field_padding input (base + BLS_PADDED_FIELD_LENGTH) stride count)
      (both (field_padding input (base + BLS_G1_POINT_LENGTH) stride count)
        (field_padding input (base + BLS_G2_FINAL_FIELD_OFFSET) stride count))).

(** An input of the expected length that passes its check. *)
Definition when_length (input : CalldataSlice) (expected : Z) (k : M SpecState PrecompileResult) :
    M SpecState PrecompileResult :=
  input_length ← of_outcome (calldata_slice_length input);
  if negb (input_length =? expected) then mret precompile_failure else k.
Definition when_valid (check : M HostState bool) (k : M SpecState PrecompileResult) :
    M SpecState PrecompileResult :=
  valid_padding ← zoom check;
  if negb valid_padding then mret precompile_failure else k.

(** A non-empty input of whole items, with their count. *)
Definition when_items (input : CalldataSlice) (item_length : Z)
    (k : Z → M SpecState PrecompileResult) : M SpecState PrecompileResult :=
  length ← of_outcome (calldata_slice_length input);
  pairs ← of_outcome (sail_ediv_int length item_length);
  if (length =? 0) || negb (length =? pairs * item_length) then mret precompile_failure
  else k pairs.

(** ** The precompiled contracts *)

Section precompiles.
Context `{Keccak} `{AccelLib}.

Definition run_ecrecover (input : CalldataSlice) : M SpecState PrecompileResult :=
  v ← zoom (calldata_slice_load input 32);
  v_27 ← of_outcome (u256 27);
  v_28 ← of_outcome (u256 28);
  if (v =? v_27) || (v =? v_28) then
    let parity := if v =? v_27 then 0 else 1 in
    message_word ← zoom (calldata_slice_load input 0);
    message_hash ← of_outcome (word_to_hash message_word);
    r ← zoom (calldata_slice_load input 64);
    s ← zoom (calldata_slice_load input 96);
    recovered ← of_outcome (ecrecover_addr message_hash parity r s);
    if recovered.(adr_success) then
      address_word ← of_outcome (address_to_word recovered.(adr_address));
      output ← output_buffer_word address_word; mret (precompile_success output)
    else mret (precompile_success EMPTY_OUTPUT_SLICE)
  else mret (precompile_success EMPTY_OUTPUT_SLICE).

Definition run_sha256 (input : CalldataSlice) : M SpecState PrecompileResult :=
  digest ← zoom (calldata_sha256 input);
  digest_word ← of_outcome (hash_to_word digest);
  output ← output_buffer_word digest_word; mret (precompile_success output).

Definition run_ripemd160 (input : CalldataSlice) : M SpecState PrecompileResult :=
  accelerated (ripemd160 input) WORD_BYTE_LENGTH.

Definition run_modexp (input : CalldataSlice) : M SpecState PrecompileResult :=
  base_len ← zoom (pc_word input 0 32);
  exponent_len ← zoom (pc_word input 32 32);
  modulus_len ← zoom (pc_word input 64 32);
  if modulus_len =? 0 then mret (precompile_success EMPTY_OUTPUT_SLICE)
  else if (ACCELERATOR_INPUT_MAX <? base_len) ||
          ((ACCELERATOR_INPUT_MAX <? exponent_len) || (ACCELERATOR_INPUT_MAX <? modulus_len))
  then mret precompile_failure
  else
    let exponent_end := (96 + base_len) + exponent_len in
    let input_end := exponent_end + modulus_len in
    if ACCELERATOR_INPUT_MAX <? input_end then mret precompile_failure
    else accelerated (modexp input base_len exponent_len modulus_len) modulus_len.

Definition run_blake2f (input : CalldataSlice) : M SpecState PrecompileResult :=
  final_byte ← zoom (calldata_slice_byte input BLAKE2F_FINAL_BLOCK_OFFSET);
  input_length ← of_outcome (calldata_slice_length input);
  if negb (input_length =? BLAKE2F_INPUT_LENGTH) ||
     (negb (final_byte =? 0) && negb (final_byte =? 1))
  then mret precompile_failure
  else
    let final_block := if final_byte =? 0 then 0 else 1 in
    rounds ← zoom (pc_blake2_rounds input);
    accelerated (blake2f input rounds final_block) BLAKE2F_OUTPUT_LENGTH.

Definition kzg_versioned_hash_matches (input : CalldataSlice) : M HostState bool :=
  commitment ← of_outcome (calldata_sub_slice input KZG_COMMITMENT_OFFSET KZG_COMMITMENT_LENGTH);
  commitment_hash ← calldata_sha256 commitment;
  expected ← of_outcome (v ← sail_vector_update commitment_hash 0 Byte.x01 false; Bytes32 v);
  claimed_word ← calldata_slice_load input 0;
  claimed_hash ← of_outcome (word_to_hash claimed_word);
  mret (bool_decide (claimed_hash = expected)).

Definition run_kzg_point_evaluation (input : CalldataSlice) : M SpecState PrecompileResult :=
  when_length input KZG_INPUT_LENGTH (when_valid (kzg_versioned_hash_matches input)
    (valid_proof ← zoom (kzg_point_evaluation input);
     if valid_proof : bool then
       output ← output_buffer_words FIELD_ELEMENTS_PER_BLOB BLS_MODULUS;
       mret (precompile_success output)
     else mret precompile_failure)).

Definition run_bls_g1_add (input : CalldataSlice) : M SpecState PrecompileResult :=
  when_length input BLS_G1_ADD_INPUT_LENGTH
    (when_valid (bls_g1_padding input 0 BLS_G1_POINT_LENGTH TWO_COMPONENTS)
      (accelerated (bls_g1_add input) BLS_G1_POINT_LENGTH)).

Definition run_bls_g1_msm (input : CalldataSlice) : M SpecState PrecompileResult :=
  when_items input BLS_G1_MSM_ITEM_LENGTH (λ pairs,
    when_valid (bls_g1_padding input 0 BLS_G1_MSM_ITEM_LENGTH pairs)
      (accelerated (bls_g1_msm input) BLS_G1_POINT_LENGTH)).

Definition run_bls_g2_add (input : CalldataSlice) : M SpecState PrecompileResult :=
  when_length input BLS_G2_ADD_INPUT_LENGTH
    (when_valid (bls_g2_padding input 0 BLS_G2_POINT_LENGTH TWO_COMPONENTS)
      (accelerated (bls_g2_add input) BLS_G2_POINT_LENGTH)).

Definition run_bls_g2_msm (input : CalldataSlice) : M SpecState PrecompileResult :=
  when_items input BLS_G2_MSM_ITEM_LENGTH (λ pairs,
    when_valid (bls_g2_padding input 0 BLS_G2_MSM_ITEM_LENGTH pairs)
      (accelerated (bls_g2_msm input) BLS_G2_POINT_LENGTH)).

Definition run_bls_pairing (input : CalldataSlice) : M SpecState PrecompileResult :=
  when_items input BLS_PAIRING_ITEM_LENGTH (λ pairs,
    when_valid (both (bls_g1_padding input 0 BLS_PAIRING_ITEM_LENGTH pairs)
                  (bls_g2_padding input BLS_G2_POINT_OFFSET BLS_PAIRING_ITEM_LENGTH pairs))
      (result ← zoom (bls_pairing input); pairing_result result)).

Definition run_bls_map_fp_to_g1 (input : CalldataSlice) : M SpecState PrecompileResult :=
  when_length input BLS_PADDED_FIELD_LENGTH
    (when_valid (field_padding input 0 BLS_PADDED_FIELD_LENGTH 1)
      (accelerated (bls_map_fp_to_g1 input) BLS_G1_POINT_LENGTH)).

Definition run_bls_map_fp2_to_g2 (input : CalldataSlice) : M SpecState PrecompileResult :=
  when_length input BLS_G1_POINT_LENGTH
    (when_valid (field_padding input 0 BLS_PADDED_FIELD_LENGTH TWO_COMPONENTS)
      (accelerated (bls_map_fp2_to_g2 input) BLS_G2_POINT_LENGTH)).

Definition run_p256_verify (input : CalldataSlice) : M SpecState PrecompileResult :=
  input_length ← of_outcome (calldata_slice_length input);
  verified ← (if input_length =? P256_INPUT_LENGTH then zoom (p256_verify input) else mret false);
  if verified : bool then
    output ← output_buffer_word WORD_ONE; mret (precompile_success output)
  else mret (precompile_success EMPTY_OUTPUT_SLICE).

Definition run_bn254_pairing (input : CalldataSlice) : M SpecState PrecompileResult :=
  input_length ← of_outcome (calldata_slice_length input);
  items ← of_outcome (sail_ediv_int input_length BN254_PAIRING_ITEM_LENGTH);
  if input_length =? items * BN254_PAIRING_ITEM_LENGTH then
    result ← zoom (bn254_pairing input); pairing_result result
  else mret precompile_failure.

Definition run_precompile_slice (num : PrecompileId) (input : CalldataSlice) :
    M SpecState PrecompileResult :=
  match num with
  | NotPrecompile => mret precompile_failure
  | Ecrecover => run_ecrecover input
  | GasSchedule.Sha256 => run_sha256 input
  | Ripemd160 => run_ripemd160 input
  | Identity => copied_result input
  | Modexp => run_modexp input
  | Bn254Add => accelerated (bn254_add input) DOUBLE_WORD_BYTE_LENGTH
  | Bn254Mul => accelerated (bn254_mul input) DOUBLE_WORD_BYTE_LENGTH
  | Bn254Pairing => run_bn254_pairing input
  | Blake2f => run_blake2f input
  | KzgPointEvaluation => run_kzg_point_evaluation input
  | BlsG1Add => run_bls_g1_add input
  | BlsG1Msm => run_bls_g1_msm input
  | BlsG2Add => run_bls_g2_add input
  | BlsG2Msm => run_bls_g2_msm input
  | BlsPairing => run_bls_pairing input
  | BlsMapFpToG1 => run_bls_map_fp_to_g1 input
  | BlsMapFp2ToG2 => run_bls_map_fp2_to_g2 input
  | P256Verify => run_p256_verify input
  end.
End precompiles.
