(* ===== verification/TxCodec.v ===== *)
(** * TxCodec: transactions and their wire format

    The types of [primitives/tx.py], the signature rules of [lib/tx.py], the
    signing hashes of [lib/rlp/codecs/transaction_signing.py] and the decoders
    of [lib/rlp/codecs/transactions.py]. A cursor is a slice of the input; the
    recursive decoders consume at least one byte of it at every call, so the
    bytes left are fuel enough. Python's recursion limit, which the runtime
    raises to 65536, is not modelled. *)

From Stdlib Require Import ZArith Lia.
From stdpp Require Import base tactics option list.
From S2P Require Import Prelude PyBytes HostTypes SailRuntime Words ChainConfig Regions RegionAccess Gas GasSchedule Crypto Storage CodeDb Secp256k1 Environment Scratch Rlp Precompiles.
Local Open Scope Z_scope.

(** ** Types *)

Inductive TxType : Type := LegacyTx | AccessListTx | FeeMarketTx | BlobTx | SetCodeTx.
#[export] Instance TxType_eq_dec : EqDecision TxType.
Proof. solve_decision. Defined.

Definition tx_envelope_type (t : TxType) : Z :=
  match t with
  | LegacyTx => 0 | AccessListTx => 1 | FeeMarketTx => 2 | BlobTx => 3 | SetCodeTx => 4
  end.

Inductive TxSignatureScheme : Type := LegacySignature | TypedSignature.
#[export] Instance TxSignatureScheme_eq_dec : EqDecision TxSignatureScheme.
Proof. solve_decision. Defined.

Record TxTypeSemantics : Type := mkTxTypeSemantics {
  minimum_fork : Z;
  signature : TxSignatureScheme;
  ts_blob : bool;
  set_code : bool;
}.

Definition Frontier : Z := 0.

Definition tx_type_semantics (t : TxType) : TxTypeSemantics :=
  match t with
  | LegacyTx => mkTxTypeSemantics Frontier LegacySignature false false
  | AccessListTx => mkTxTypeSemantics Berlin TypedSignature false false
  | FeeMarketTx => mkTxTypeSemantics London TypedSignature false false
  | BlobTx => mkTxTypeSemantics Cancun TypedSignature true false
  | SetCodeTx => mkTxTypeSemantics Prague TypedSignature false true
  end.

Record Authorization : Type := mkAuthorization {
  valid_sig : bool;
  authority : address;
  au_address : address;
  au_nonce : Z;
  au_chain_id : Z;
}.

Definition transaction_item_count (v : Z) : outcome Z := BoundedUint 0 1073741824 v.
Definition transaction_byte_length (v : Z) : outcome Z := BoundedUint 0 1073741824 v.
Definition transaction_calldata_cost (v : Z) : outcome Z := BoundedUint 0 17179869184 v.
Definition transaction_calldata_floor_cost (v : Z) : outcome Z := BoundedUint 0 42949693960 v.
Definition TRANSACTION_LENGTH_BOUND : Z := Z.shiftl 1 30.

(** [BlobHashesFields] with its validators. *)
Definition transaction_blob_limit_value (limit : Z) : bool :=
  (limit =? 0) || ((limit =? 6) || (limit =? 9)).
Definition blob_hashes_fields (limit : Z) (bytes : Slice) (count : Z) : outcome BlobHashesFields :=
  validated (transaction_blob_limit_value limit) tt;;
  n ← Uint count;
  validated (n <=? limit) (mkBlobHashes bytes n).

(** The most authorizations a transaction can pay for. *)
Definition AUTHORIZATION_BOUND : Z := 2 ^ 24 / 7816.
Record PreparedAuthorizationList : Type := mkPreparedAuthorizations {
  pa_entries : list Authorization;
  pa_count : Z;
}.
Definition prepared_authorization_list (entries : list Authorization) (count : Z) :
    outcome PreparedAuthorizationList :=
  n ← Uint count; validated (n <=? AUTHORIZATION_BOUND) (mkPreparedAuthorizations entries n).

Record AccessListRef : Type := mkAccessListRef {
  al_encoded : Slice;
  address_count : Z;
  slot_count : Z;
}.
Definition EMPTY_ACCESS_LIST_REF : AccessListRef := mkAccessListRef EMPTY_STATELESS_INPUT_SLICE 0 0.

Record AuthorizationListRef : Type := mkAuthorizationListRef { ar_encoded : Slice; ar_count : Z }.
Definition authorization_list_ref (encoded : Slice) (count : Z) : outcome AuthorizationListRef :=
  validated ((0 <=? count) && (count <=? TRANSACTION_LENGTH_BOUND))
    (mkAuthorizationListRef encoded count).
Definition EMPTY_AUTHORIZATION_LIST_REF : AuthorizationListRef :=
  mkAuthorizationListRef EMPTY_STATELESS_INPUT_SLICE 0.

(** [TransactionFields]; the blob limit of its validity is that of the blob
    hashes or zero. *)
Record Transaction : Type := mkTransaction {
  tx_type : TxType;
  tx_sender : address;
  tx_nonce : Z;
  tx_chain_id : Z;
  tx_gas_limit : Z;
  is_create : bool;
  recipient : address;
  tx_value : Z;
  tx_raw : Slice;
  input_src : Slice;
  access_list : AccessListRef;
  max_fee : Z;
  max_blob_fee : Z;
  max_priority_fee : Z;
  authorizations : AuthorizationListRef;
  tx_blob_hashes : BlobHashesFields;
  pubkey : Slice;
  signing_hash : hash;
  sig_v : Z;
  sig_r : Z;
  sig_s : Z;
}.

(** ** Signatures *)

Definition legacy_sig_chain_id (v : Z) : outcome Z :=
  adjusted_v ← word_sub_word v 35; q ← word_div_word adjusted_v 2; word q.

Definition SECP_N_FULL : Z := 0xfffffffffffffffffffffffffffffffebaaedce6af48a03bbfd25e8cd0364141.
Definition SECP_N_HALF : Z := 0x7fffffffffffffffffffffffffffffff5d576e7357a4501ddfe92f46681b20a0.

Definition y_parity (v : Z) : outcome Z := BoundedUint 0 1 v.

(** A legacy signature commits to no chain (27, 28) or to this one. *)
Definition tx_signature_parity (chain_id : Z) (scheme : TxSignatureScheme) (v : Z) : outcome Z :=
  match scheme with
  | LegacySignature =>
      signature_chain_id ← legacy_sig_chain_id v;
      expected_chain_id ← Uint chain_id;
      if (v =? 27) || ((v =? 28) || (word_ule 35 v && (signature_chain_id =? expected_chain_id)))
      then
        parity_bit ← word_and v WORD_ONE;
        if parity_bit =? WORD_ONE then y_parity 0 else y_parity 1
      else fatal_error
  | TypedSignature =>
      if v =? WORD_ZERO then y_parity 0 else if v =? WORD_ONE then y_parity 1 else fatal_error
  end.

Section codec.
Context `{Keccak}.

Definition tx_auth_valid (sender : address) (h : hash) (parity r s : Z) : outcome bool :=
  if word_ult SECP_N_HALF s then Ok false
  else
    recovered ← ecrecover_addr h parity r s;
    Ok (recovered.(adr_success) && bool_decide (recovered.(adr_address) = sender)).

Definition LEGACY_SIGNATURE_SUFFIX_LENGTH : Z := 2.
Definition PUBLIC_KEY_BODY_LENGTH : Z := DOUBLE_WORD_BYTE_LENGTH.

(** The preimage is written to the scratch arena, hashed and dropped. *)
Definition tx_signing_hash (t : TxType) (content_src : Slice) (v : Z) : M SpecState hash :=
  let tb := tx_envelope_type t in
  let eip155 := (tb =? 0) && word_ule 35 v in
  chain_id ← of_outcome (if eip155 then legacy_sig_chain_id v else Ok ZERO_WORD);
  suffix_length ← of_outcome
    (if eip155 then n ← rlp_uint_word_size chain_id; Ok (n + LEGACY_SIGNATURE_SUFFIX_LENGTH) else Ok 0);
  content_length ← of_outcome
    (if content_src.(sl_len) <=? TRANSACTION_LENGTH_BOUND then Ok content_src.(sl_len) else fatal_error);
  let content_len := content_length + suffix_length in
  prefix_len ← of_outcome (rlp_length_prefix_len content_len);
  let type_len := if tb =? 0 then 0 else 1 in
  encoder ← rlp_encoder_begin ((type_len + prefix_len) + content_len);
  when (negb (tb =? 0)) (scratch_push_byte tb);;
  rlp_write_list_prefix content_len;;
  stateless_input_scratch_push_slice content_src;;
  when eip155
    (rlp_write_uint_word chain_id;; scratch_push_byte 0x80;; scratch_push_byte 0x80);;
  preimage ← rlp_encoder_finish encoder;
  h ← zoom (scratch_keccak256 preimage);
  rlp_encoder_rewind encoder;;
  of_outcome (Bytes32 h).

Definition auth_signing_hash (chain_id : Z) (addr : address) (nonce : Z) : M SpecState hash :=
  chain_id_length ← of_outcome (rlp_uint_word_size chain_id);
  nonce_length ← of_outcome (rlp_uint_word_size nonce);
  let content_len := (chain_id_length + rlp_addr_size) + nonce_length in
  list_size ← of_outcome (rlp_list_size content_len);
  encoder ← rlp_encoder_begin (1 + list_size);
  scratch_push_byte 5;;
  rlp_write_list_prefix content_len;;
  rlp_write_uint_word chain_id;;
  rlp_write_addr addr;;
  rlp_write_uint_word nonce;;
  encoded ← rlp_encoder_finish encoder;
  h ← zoom (scratch_keccak256 encoded);
  rlp_encoder_rewind encoder;;
  of_outcome (Bytes32 h).
End codec.

(** ** Fields *)

(** A call of [fatal_error] when a test says so. *)
Definition fatal_when {S} (bad : bool) : M S unit := if bad then of_outcome fatal_error else mret tt.

(** The next field of a list, and the fields after it. *)
Definition next_field (fields : Slice) : M HostState (RlpFieldRef * Slice) :=
  f ← rlp_decode_item fields;
  rest ← of_outcome (rlp_cursor_advance fields f.(source).(sl_len)); mret (f, rest).

Definition transaction_rlp_content (f : RlpFieldRef) : outcome Slice :=
  content ← rlp_item_content f; checked_slice content.(sl_bytes) content.(sl_len).

Definition tx_input_span (data : RlpFieldRef) : outcome Slice :=
  content ← transaction_rlp_content data;
  if content.(sl_len) <=? TRANSACTION_LENGTH_BOUND then Ok content else fatal_error.

(** The bytes from one field up to another. *)
Definition tx_sig_span (first sig : RlpFieldRef) : outcome Slice :=
  let start_offset := first.(source).(sl_bytes) in
  let stop_offset := sig.(source).(sl_bytes) in
  if stop_offset <? start_offset then fatal_error
  else checked_slice start_offset (stop_offset - start_offset).

Definition rlp_decode_gas (f : RlpFieldRef) : M HostState Z :=
  v ← rlp_decode_uint64 f; of_outcome (Uint v).

Definition rlp_decode_address (f : RlpFieldRef) : M HostState address :=
  address_word ← rlp_decode_word f; of_outcome (word_to_address address_word).

(** ** Access lists *)

Record AccessListDecode : Type := mkAccessListDecode {
  address_bound : Z;
  slot_bound : Z;
  ad_address_count : Z;
  ad_slot_count : Z;
}.
Definition EMPTY_ACCESS_LIST_DECODE : AccessListDecode := mkAccessListDecode 0 0 0 0.

Definition source_valid_length (n : Z) : bool := (0 <=? n) && (n <=? 2 ^ 32 - 1).
Definition access_list_decode (address_bound slot_bound addresses slots : Z) :
    outcome AccessListDecode :=
  validated (source_valid_length address_bound && source_valid_length slot_bound) tt;;
  a ← Uint addresses;
  s ← Uint slots;
  validated ((a <=? address_bound) && (s <=? slot_bound))
    (mkAccessListDecode address_bound slot_bound a s).

(** A decoder that recurses over the items of a list, with an argument of its
    own: [finish] at the end of the list, and otherwise what [step] makes of
    the cursor, its first item and the rest. *)
Section items.
Context {S X A : Type} `{Component S HostState}.
Context (finish : X → Slice → M S A).
Context (step : X → Slice → RlpFieldRef → Slice → (X → Slice → M S A) → M S A).
Fixpoint decode_items (fuel : nat) (x : X) (cursor : Slice) : M S A :=
  match fuel with
  | O => raise (RuntimeError "out of fuel")
  | Datatypes.S fuel' =>
      if cursor.(sl_len) =? 0 then finish x cursor
      else
        '(item, next) ← zoom (next_field cursor);
        step x cursor item next (decode_items fuel')
  end.
(** Every item takes at least one byte. *)
Definition decode_all (x : X) (cursor : Slice) : M S A :=
  decode_items (Datatypes.S (Z.to_nat cursor.(sl_len))) x cursor.
End items.

#[export] Instance host_itself : Component HostState HostState.
Proof. by refine {| view h := h; put h _ := h |}. Defined.

Definition decode_access_list_keys (cursor : Slice) (addr : address) (tail : AccessListDecode) :
    M HostState AccessListDecode :=
  let result (cursor : Slice) (addresses slots : Z) :=
    of_outcome (access_list_decode tail.(address_bound) (tail.(slot_bound) + cursor.(sl_len))
                  addresses slots) in
  decode_all
    (λ _ cursor, result cursor tail.(ad_address_count) tail.(ad_slot_count))
    (λ x cursor key next rec,
       slot ← rlp_decode_word key;
       of_outcome (_ ← Bytes20 addr; word slot);;
       r ← rec x next; result cursor r.(ad_address_count) (r.(ad_slot_count) + 1)) tt cursor.

(** The address, the keys and the end of an entry. *)
Definition access_list_entry (entry : RlpFieldRef) : M HostState (RlpFieldRef * RlpFieldRef) :=
  fields ← of_outcome (rlp_decode_list entry);
  '(addr_f, fields) ← next_field fields;
  '(keys_f, fields) ← next_field fields;
  of_outcome (rlp_cursor_expect_end fields);; mret (addr_f, keys_f).

Definition decode_access_list_entries : Slice → M HostState AccessListDecode :=
  decode_all
    (λ _ _, mret EMPTY_ACCESS_LIST_DECODE)
    (λ x cursor entry next rec,
       '(addr_f, keys_f) ← access_list_entry entry;
       addr ← rlp_decode_address addr_f;
       tail ← rec x next;
       keys ← of_outcome (rlp_decode_list keys_f);
       result ← decode_access_list_keys keys addr tail;
       of_outcome (access_list_decode cursor.(sl_len) cursor.(sl_len)
                     (result.(ad_address_count) + 1) result.(ad_slot_count))) tt.

Definition decode_access_list (f : RlpFieldRef) : M HostState AccessListRef :=
  if f.(source).(sl_len) <=? TRANSACTION_LENGTH_BOUND then
    entries ← of_outcome (rlp_decode_list f);
    decoded ← decode_access_list_entries entries;
    of_outcome (
      content ← transaction_rlp_content f;
      addresses ← transaction_item_count decoded.(ad_address_count);
      slots ← transaction_item_count decoded.(ad_slot_count);
      Ok (mkAccessListRef content addresses slots))
  else of_outcome fatal_error.

(** ** Blob hashes *)

Definition BLOB_HASH_RLP_LENGTH : Z := 33.
Definition BLOB_HASH_LENGTH : Z := WORD_BYTE_LENGTH.

Definition decode_blob_hash_items (cursor : Slice) (limit count : Z) : M HostState Z :=
  decode_all
    (λ count _, of_outcome (Uint count))
    (λ count cursor item next rec,
       item_prefix ← stateless_input_slice_byte item.(source) 0;
       fatal_when (item.(is_list) || (negb (item.(source).(sl_len) =? BLOB_HASH_RLP_LENGTH) ||
         (negb (item.(content_len) =? BLOB_HASH_LENGTH) || negb (item_prefix =? 0xa0))));;
       version ← stateless_input_slice_byte item.(source) 1;
       fatal_when (negb (version =? 1));;
       if count <? limit then n ← rec (count + 1) next; of_outcome (Uint n)
       else of_outcome fatal_error) count cursor.

Definition decode_blob_hashes (f : RlpFieldRef) (limit : Z) : M HostState BlobHashesFields :=
  bytes ← of_outcome (transaction_rlp_content f);
  items ← of_outcome (rlp_decode_list f);
  count ← decode_blob_hash_items items limit 0;
  of_outcome (blob_hashes_fields limit bytes count).

(** ** Authorizations *)

Definition validate_auth_tuples (cursor : Slice) (count : Z) : M HostState Z :=
  decode_all
    (λ count _, of_outcome (transaction_byte_length count))
    (λ count cursor tuple next rec,
       of_outcome (rlp_decode_list tuple);;
       if count <? TRANSACTION_LENGTH_BOUND
       then n ← rec (count + 1) next; of_outcome (transaction_byte_length n)
       else of_outcome fatal_error) count cursor.

Definition decode_auth_list (f : RlpFieldRef) : M HostState AuthorizationListRef :=
  if f.(source).(sl_len) <=? TRANSACTION_LENGTH_BOUND then
    content ← of_outcome (transaction_rlp_content f);
    tuples ← of_outcome (rlp_decode_list f);
    count ← validate_auth_tuples tuples 0;
    of_outcome (authorization_list_ref content count)
  else of_outcome fatal_error.

Section authorizations.
Context `{Keccak}.

Definition decode_authorization (tuple : RlpFieldRef) : M SpecState Authorization :=
  fields ← of_outcome (rlp_decode_list tuple);
  '(chain_f, fields) ← zoom (next_field fields);
  '(addr_f, fields) ← zoom (next_field fields);
  '(nonce_f, fields) ← zoom (next_field fields);
  '(y_f, fields) ← zoom (next_field fields);
  y ← zoom (rlp_decode_bool y_f);
  '(r_f, fields) ← zoom (next_field fields);
  '(s_f, fields) ← zoom (next_field fields);
  of_outcome (rlp_cursor_expect_end fields);;
  chain_id ← zoom (rlp_decode_u256 chain_f);
  auth_nonce ← zoom (rlp_decode_uint64 nonce_f);
  r ← zoom (rlp_decode_u256 r_f);
  s ← zoom (rlp_decode_u256 s_f);
  auth_addr ← zoom (rlp_decode_address addr_f);
  signing_hash ← auth_signing_hash chain_id auth_addr auth_nonce;
  recovered ← of_outcome
    match y with
    | RlpOk false => ecrecover_addr signing_hash 0 r s
    | RlpOk true => ecrecover_addr signing_hash 1 r s
    | RlpInvalidValue => Ok (mkAddressResult false ZERO_ADDRESS)
    end;
  of_outcome (
    authority ← Bytes20 recovered.(adr_address);
    target ← Bytes20 auth_addr;
    nonce ← Uint auth_nonce;
    chain ← word chain_id;
    Ok (mkAuthorization
      (recovered.(adr_success) && (word_ult ZERO_WORD r && (word_ult r SECP_N_FULL &&
        (word_ult ZERO_WORD s && (word_ule s SECP_N_HALF && negb (auth_nonce =? Z.shiftl 1 64 - 1))))))
      authority target nonce chain)).

(** As many authorizations as were counted, and nothing after them. *)
Fixpoint prepare_authorization_entries (cursor : Slice) (count : nat) :
    M SpecState (list Authorization) :=
  match count with
  | O => fatal_when (negb (cursor.(sl_len) =? 0));; mret []
  | S count' =>
      fatal_when (cursor.(sl_len) =? 0);;
      '(tuple, next) ← zoom (next_field cursor);
      authorization ← decode_authorization tuple;
      rest ← prepare_authorization_entries next count'; mret (authorization :: rest)
  end.

Definition prepare_authorizations (l : AuthorizationListRef) : M SpecState PreparedAuthorizationList :=
  if l.(ar_count) <=? AUTHORIZATION_BOUND then
    entries ← prepare_authorization_entries l.(ar_encoded) (Z.to_nat l.(ar_count));
    of_outcome (prepared_authorization_list entries l.(ar_count))
  else of_outcome fatal_error.
End authorizations.

Definition prepared_authorization_head (l : PreparedAuthorizationList) : outcome Authorization :=
  match l.(pa_entries) with a :: _ => Ok a | [] => fatal_error end.
Definition prepared_authorization_tail (l : PreparedAuthorizationList) (count : Z) :
    outcome PreparedAuthorizationList :=
  match l.(pa_entries) with
  | _ :: entries => prepared_authorization_list entries (count - 1)
  | [] => fatal_error
  end.

(** ** Transactions *)

Section transactions.
Context `{Keccak}.

(** The construction of [TransactionFields]: its arguments are evaluated from
    left to right. *)
Definition transaction_fields (t : TxType) (tx pubkey : Slice) (sender : address)
    (nonce chain_id : M HostState Z) (gas_f to_f value_f data_f : RlpFieldRef) (recipient : address)
    (access_list : AccessListRef) (max_fee max_blob_fee max_priority_fee : M HostState Z)
    (authorizations : AuthorizationListRef) (blob_hashes : BlobHashesFields) (signing_hash : hash)
    (v : Z) (r_f s_f : RlpFieldRef) : M HostState Transaction :=
  sender ← of_outcome (Bytes20 sender);
  nonce ← nonce; nonce ← of_outcome (word nonce);
  chain_id ← chain_id; chain_id ← of_outcome (Uint chain_id);
  gas_limit ← rlp_decode_gas gas_f; gas_limit ← of_outcome (Uint gas_limit);
  recipient ← of_outcome (Bytes20 recipient);
  v0 ← rlp_decode_u256 value_f; value ← of_outcome (word v0);
  input_src ← of_outcome (tx_input_span data_f);
  max_fee ← max_fee; max_fee ← of_outcome (word max_fee);
  max_blob_fee ← max_blob_fee; max_blob_fee ← of_outcome (word max_blob_fee);
  max_priority_fee ← max_priority_fee; max_priority_fee ← of_outcome (word max_priority_fee);
  signing_hash ← of_outcome (Bytes32 signing_hash);
  sig_v ← of_outcome (word v);
  r ← rlp_decode_u256 r_f; sig_r ← of_outcome (word r);
  s ← rlp_decode_u256 s_f; sig_s ← of_outcome (word s);
  mret (mkTransaction t sender nonce chain_id gas_limit (to_f.(content_len) =? 0) recipient value tx
          input_src access_list max_fee max_blob_fee max_priority_fee authorizations blob_hashes
          pubkey signing_hash sig_v sig_r sig_s).

(** The hash that was signed, over the fields from one to another. *)
Definition signed_hash (t : TxType) (first v_f : RlpFieldRef) (v : Z) : M SpecState hash :=
  signing_span ← of_outcome (tx_sig_span first v_f); tx_signing_hash t signing_span v.

(** The signature at the end of the fields. *)
Definition signature_fields (fields : Slice) :
    M HostState (RlpFieldRef * RlpFieldRef * RlpFieldRef) :=
  '(v_f, fields) ← next_field fields;
  '(r_f, fields) ← next_field fields;
  '(s_f, fields) ← next_field fields;
  of_outcome (rlp_cursor_expect_end fields);; mret (v_f, r_f, s_f).

(** The gas limit, the recipient, the value and the data. *)
Definition call_fields (fields : Slice) :
    M HostState (RlpFieldRef * RlpFieldRef * RlpFieldRef * RlpFieldRef * Slice) :=
  '(gas_f, fields) ← next_field fields;
  '(to_f, fields) ← next_field fields;
  '(value_f, fields) ← next_field fields;
  '(data_f, fields) ← next_field fields; mret (gas_f, to_f, value_f, data_f, fields).

Definition zero_fee : M HostState Z := mret ZERO_WORD.

Definition decode_legacy_tx (tx pubkey : Slice) (sender : address) (fields : Slice) :
    M SpecState Transaction :=
  '(nonce_f, fields) ← zoom (next_field fields);
  '(gp_f, fields) ← zoom (next_field fields);
  '(gas_f, to_f, value_f, data_f, fields) ← zoom (call_fields fields);
  '(v_f, r_f, s_f) ← zoom (signature_fields fields);
  v ← zoom (rlp_decode_word v_f);
  gp ← zoom (rlp_decode_u256 gp_f);
  recipient ← zoom (rlp_decode_address to_f);
  signing_hash ← signed_hash LegacyTx nonce_f v_f v;
  zoom (transaction_fields LegacyTx tx pubkey sender (rlp_decode_u256 nonce_f) (mret 0) gas_f to_f
          value_f data_f recipient EMPTY_ACCESS_LIST_REF (mret gp) zero_fee (mret gp)
          EMPTY_AUTHORIZATION_LIST_REF EMPTY_BLOB_HASHES signing_hash v r_f s_f).

Definition decode_access_list_tx (tx pubkey : Slice) (sender : address) (fields : Slice) :
    M SpecState Transaction :=
  '(chain_f, fields) ← zoom (next_field fields);
  '(nonce_f, fields) ← zoom (next_field fields);
  '(gp_f, fields) ← zoom (next_field fields);
  '(gas_f, to_f, value_f, data_f, fields) ← zoom (call_fields fields);
  '(al_f, fields) ← zoom (next_field fields);
  '(v_f, r_f, s_f) ← zoom (signature_fields fields);
  v ← zoom (rlp_decode_word v_f);
  gp ← zoom (rlp_decode_u256 gp_f);
  access_list ← zoom (decode_access_list al_f);
  recipient ← zoom (rlp_decode_address to_f);
  signing_hash ← signed_hash AccessListTx chain_f v_f v;
  zoom (transaction_fields AccessListTx tx pubkey sender (rlp_decode_u256 nonce_f)
          (rlp_decode_uint64 chain_f) gas_f to_f value_f data_f recipient access_list (mret gp)
          zero_fee (mret gp) EMPTY_AUTHORIZATION_LIST_REF EMPTY_BLOB_HASHES signing_hash v r_f s_f).

Definition decode_fee_market_tx (tx pubkey : Slice) (sender : address) (fields : Slice) :
    M SpecState Transaction :=
  '(chain_f, fields) ← zoom (next_field fields);
  '(nonce_f, fields) ← zoom (next_field fields);
  '(mp_f, fields) ← zoom (next_field fields);
  '(mf_f, fields) ← zoom (next_field fields);
  '(gas_f, to_f, value_f, data_f, fields) ← zoom (call_fields fields);
  '(al_f, fields) ← zoom (next_field fields);
  '(v_f, r_f, s_f) ← zoom (signature_fields fields);
  v ← zoom (rlp_decode_word v_f);
  access_list ← zoom (decode_access_list al_f);
  recipient ← zoom (rlp_decode_address to_f);
  signing_hash ← signed_hash FeeMarketTx chain_f v_f v;
  zoom (transaction_fields FeeMarketTx tx pubkey sender (rlp_decode_u256 nonce_f)
          (rlp_decode_uint64 chain_f) gas_f to_f value_f data_f recipient access_list
          (rlp_decode_u256 mf_f) zero_fee (rlp_decode_u256 mp_f) EMPTY_AUTHORIZATION_LIST_REF
          EMPTY_BLOB_HASHES signing_hash v r_f s_f).

Definition decode_blob_tx (tx pubkey : Slice) (blob_limit : Z) (sender : address) (fields : Slice) :
    M SpecState Transaction :=
  '(chain_f, fields) ← zoom (next_field fields);
  '(nonce_f, fields) ← zoom (next_field fields);
  '(mp_f, fields) ← zoom (next_field fields);
  '(mf_f, fields) ← zoom (next_field fields);
  '(gas_f, to_f, value_f, data_f, fields) ← zoom (call_fields fields);
  '(al_f, fields) ← zoom (next_field fields);
  '(mbf_f, fields) ← zoom (next_field fields);
  '(bh_f, fields) ← zoom (next_field fields);
  '(v_f, r_f, s_f) ← zoom (signature_fields fields);
  v ← zoom (rlp_decode_word v_f);
  access_list ← zoom (decode_access_list al_f);
  blob_hashes ← zoom (decode_blob_hashes bh_f blob_limit);
  recipient ← zoom (rlp_decode_address to_f);
  signing_hash ← signed_hash BlobTx chain_f v_f v;
  of_outcome (validated (transaction_blob_limit_value blob_limit) tt);;
  zoom (transaction_fields BlobTx tx pubkey sender (rlp_decode_u256 nonce_f)
          (rlp_decode_uint64 chain_f) gas_f to_f value_f data_f recipient access_list
          (rlp_decode_u256 mf_f) (rlp_decode_u256 mbf_f) (rlp_decode_u256 mp_f)
          EMPTY_AUTHORIZATION_LIST_REF blob_hashes signing_hash v r_f s_f).

Definition decode_set_code_tx (tx pubkey : Slice) (sender : address) (fields : Slice) :
    M SpecState Transaction :=
  '(chain_f, fields) ← zoom (next_field fields);
  '(nonce_f, fields) ← zoom (next_field fields);
  '(mp_f, fields) ← zoom (next_field fields);
  '(mf_f, fields) ← zoom (next_field fields);
  '(gas_f, to_f, value_f, data_f, fields) ← zoom (call_fields fields);
  '(al_f, fields) ← zoom (next_field fields);
  '(auth_f, fields) ← zoom (next_field fields);
  '(v_f, r_f, s_f) ← zoom (signature_fields fields);
  v ← zoom (rlp_decode_word v_f);
  access_list ← zoom (decode_access_list al_f);
  authorizations ← zoom (decode_auth_list auth_f);
  decoded_nonce ← zoom (rlp_decode_uint64 nonce_f);
  nonce ← of_outcome (Uint decoded_nonce);
  recipient ← zoom (rlp_decode_address to_f);
  signing_hash ← signed_hash SetCodeTx chain_f v_f v;
  zoom (transaction_fields SetCodeTx tx pubkey sender (mret nonce) (rlp_decode_uint64 chain_f)
          gas_f to_f value_f data_f recipient access_list (rlp_decode_u256 mf_f) zero_fee
          (rlp_decode_u256 mp_f) authorizations EMPTY_BLOB_HASHES signing_hash v r_f s_f).

(** The sender is the address of the public key given beside the transaction;
    a first byte of 0xc0 or more starts a legacy transaction. *)
Definition rlp_decode_tx (tx pubkey : Slice) (blob_limit : Z) : M SpecState Transaction :=
  public_key_body ← of_outcome (stateless_input_sub_slice pubkey 1 PUBLIC_KEY_BODY_LENGTH);
  public_key_hash ← zoom (stateless_input_keccak256 public_key_body);
  public_key_word ← of_outcome (hash_to_word public_key_hash);
  sender ← of_outcome (word_to_address public_key_word);
  b0 ← (if tx.(sl_len) =? 0 then of_outcome fatal_error else zoom (stateless_input_slice_byte tx 0));
  let ttype := if Z.shiftr b0 6 =? 3 then 0 else b0 in
  payload ← of_outcome
    (if negb (ttype =? 0) then
       if 1 <=? tx.(sl_len) then stateless_input_sub_slice tx 1 (tx.(sl_len) - 1) else fatal_error
     else Ok tx);
  fields ← zoom (rlp_node_cursor payload);
  if ttype =? 0 then decode_legacy_tx tx pubkey sender fields
  else if ttype =? 1 then decode_access_list_tx tx pubkey sender fields
  else if ttype =? 2 then decode_fee_market_tx tx pubkey sender fields
  else if ttype =? 3 then decode_blob_tx tx pubkey blob_limit sender fields
  else if ttype =? 4 then decode_set_code_tx tx pubkey sender fields
  else of_outcome fatal_error.
End transactions.
