(* ===== verification/Interpreter.v ===== *)
(** * Interpreter: decoding, calls, creations and the frame loop

    [evm/interpreter.py]. The interpreter carries the fields of the running
    frame in local variables, and [run_call], [run_create] and [resume_frame]
    return them as a [FrameTransition]; here the frame is that record
    throughout. A suspended frame waits in the frame stack of the host. *)

From Stdlib Require Import ZArith Lia Strings.Byte.
From stdpp Require Import base tactics option list gmap.
From S2P Require Import Prelude PyBytes HostTypes SailRuntime Words ChainConfig Regions RegionAccess Gas GasSchedule Crypto Storage Accounts WarmLogs Journal CodeDb Accelerators Secp256k1 OperandStack Environment Scratch Rlp Kernel Machine Instructions Execute Precompiles.
Local Open Scope Z_scope.

(** ** Decoding *)

Definition read_push (code : Slice) (offset n : Z) : M SpecState Z :=
  v ← zoom (code_slice_load_n code offset n); of_outcome (word v).

Definition opcode_available (opcode fork : Z) : bool :=
  if opcode =? 30 then Osaka <=? fork
  else if opcode =? 72 then London <=? fork
  else if (opcode =? 73) || (opcode =? 74) then Cancun <=? fork
  else if opcode =? 75 then Amsterdam <=? fork
  else if (opcode =? 92) || (opcode =? 93) || (opcode =? 94) then Cancun <=? fork
  else if opcode =? 95 then Shanghai <=? fork
  else if (opcode =? 230) || (opcode =? 231) || (opcode =? 232) then Amsterdam <=? fork
  else true.

Definition decode_push_immediate (code : Code) (immediate_offset width : Z) :
    M SpecState (Z * Z) :=
  bytes ← of_outcome (code_bytes code);
  v ← read_push bytes immediate_offset width; mret (immediate_offset + width, v).

Definition decode_deep_immediate (code : Code) (immediate_offset : Z)
    (operation : DeepStackOperation) : M SpecState (Z * Z) :=
  bytes ← of_outcome (code_bytes code);
  immediate ← zoom (code_slice_byte bytes immediate_offset);
  mret (if deep_stack_operation_immediate_valid operation immediate
        then (immediate_offset + 1, immediate) else (immediate_offset, immediate)).

(** The opcodes that are one byte, in the order of their codes. *)
Definition simple_opcodes : list (Z * ast) :=
  [(0, STOP); (1, ADD); (2, MUL); (3, SUB); (4, DIV); (5, SDIV); (6, MOD); (7, SMOD);
   (8, ADDMOD); (9, MULMOD); (10, EXP); (11, SIGNEXTEND);
   (16, LT); (17, GT); (18, SLT); (19, SGT); (20, EQ); (21, ISZERO); (22, AND); (23, OR);
   (24, XOR); (25, NOT); (26, BYTE); (27, SHL); (28, SHR); (29, SAR); (30, CLZ);
   (32, KECCAK256);
   (48, ADDRESS); (49, BALANCE); (50, ORIGIN); (51, CALLER); (52, CALLVALUE);
   (53, CALLDATALOAD); (54, CALLDATASIZE); (55, CALLDATACOPY); (56, CODESIZE); (57, CODECOPY);
   (58, GASPRICE); (59, EXTCODESIZE); (60, EXTCODECOPY); (61, RETURNDATASIZE);
   (62, RETURNDATACOPY); (63, EXTCODEHASH);
   (64, BLOCKHASH); (65, COINBASE); (66, TIMESTAMP); (67, NUMBER); (68, PREVRANDAO);
   (69, GASLIMIT); (70, CHAINID); (71, SELFBALANCE); (72, BASEFEE); (73, BLOBHASH);
   (74, BLOBBASEFEE); (75, SLOTNUM);
   (80, POP); (81, MLOAD); (82, MSTORE); (83, MSTORE8); (84, SLOAD); (85, SSTORE); (86, JUMP);
   (87, JUMPI); (88, PC); (89, MSIZE); (90, GAS); (91, JUMPDEST); (92, TLOAD); (93, TSTORE);
   (94, MCOPY);
   (240, opcode_CREATE); (241, CALL); (242, CALLCODE); (243, RETURN); (244, DELEGATECALL);
   (245, CREATE2); (250, STATICCALL); (253, REVERT); (255, SELFDESTRUCT)].

Fixpoint opcode_lookup (opcode : Z) (l : list (Z * ast)) : ast :=
  match l with
  | [] => INVALID
  | (n, i) :: l' => if opcode =? n then i else opcode_lookup opcode l'
  end.

Definition decode_simple (opcode fork : Z) : ast :=
  if negb (opcode_available opcode fork) then INVALID
  else if (128 <=? opcode) && (opcode <=? 143) then DUP (opcode - 127)
  else if (144 <=? opcode) && (opcode <=? 159) then SWAP (opcode - 143)
  else if (160 <=? opcode) && (opcode <=? 164) then LOG (opcode - 160)
  else opcode_lookup opcode simple_opcodes.

(** Running past the end of the code stops. *)
Definition fetch (frame_code : Code) (current fork : Z) : M SpecState (Z * ast) :=
  code ← of_outcome (code_bytes frame_code);
  if negb (current <? code.(sl_len)) then mret (current, STOP)
  else
    opcode ← zoom (code_slice_byte code current);
    let immediate_offset := current + 1 in
    if negb (opcode_available opcode fork) then mret (immediate_offset, INVALID)
    else if (95 <=? opcode) && (opcode <=? 127) then
      let size := opcode - 95 in
      '(after_immediate, v) ← decode_push_immediate frame_code immediate_offset size;
      mret (after_immediate, PUSH size v)
    else
      match deep_stack_operation opcode with
      | NotDeepStackOperation => mret (immediate_offset, decode_simple opcode fork)
      | operation =>
          '(after_instruction, immediate) ←
            decode_deep_immediate frame_code immediate_offset operation;
          mret (after_instruction,
                match operation with
                | DeepStackDuplicate => DUPN immediate
                | DeepStackSwap => SWAPN immediate
                | DeepStackExchange => EXCHANGE immediate
                | NotDeepStackOperation => decode_simple opcode fork
                end)
      end.

(** ** Instructions that carry their opcode *)

Definition PushResult : Type := Z * Z * StackPointer * OpcodeOutcome.

Definition execute_push_encoded (code : Code) (opcode immediate_offset g : Z) (sp : StackPointer) :
    M SpecState PushResult :=
  if (95 <=? opcode) && (opcode <=? 127) then
    let width := opcode - 95 in
    '(next_pc, v) ← decode_push_immediate code immediate_offset width;
    '(g', sp', st) ← execute_push g sp width v; mret (next_pc, g', sp', st)
  else let '(g', st) := execute_invalid g in mret (immediate_offset, g', sp, st).

Definition execute_dup_encoded (opcode g : Z) (sp : StackPointer) : M SpecState OpResult :=
  if (128 <=? opcode) && (opcode <=? 143) then execute_dup g sp (opcode - 127)
  else let '(g', st) := execute_invalid g in mret (g', sp, st).

Definition execute_swap_encoded (opcode g : Z) (sp : StackPointer) : M SpecState OpResult :=
  if (144 <=? opcode) && (opcode <=? 159) then execute_swap g sp (opcode - 143)
  else let '(g', st) := execute_invalid g in mret (g', sp, st).

Definition execute_log_encoded (a : address) (is_static : bool) (base opcode g : Z)
    (sp : StackPointer) (memory : Z) : M SpecState MemResult :=
  if (160 <=? opcode) && (opcode <=? 164)
  then execute_log a is_static base (opcode - 160) g sp memory
  else let '(g', st) := execute_invalid g in mret (g', sp, memory, st).

Definition execute_deep_stack_encoded (code : Code) (opcode immediate_offset g : Z)
    (sp : StackPointer) : M SpecState PushResult :=
  let operation := deep_stack_operation opcode in
  '(next_pc, immediate) ← decode_deep_immediate code immediate_offset operation;
  '(g', sp', st) ←
    match operation with
    | DeepStackDuplicate => execute_dupn g sp immediate
    | DeepStackSwap => execute_swapn g sp immediate
    | DeepStackExchange => execute_exchange g sp immediate
    | NotDeepStackOperation => let '(g', st) := execute_invalid g in mret (g', sp, st)
    end;
  mret (next_pc, g', sp', st).

(** ** Frames *)

Record FrameTransition : Type := mkFrame {
  ft_pc : Z;
  ft_gas : Z;
  ft_state_gas : Z;
  ft_state_spill : Z;
  ft_refund : Z;
  ft_status : FrameStatus;
  ft_sp : StackPointer;
  ft_base : Z;
  ft_memory : Z;
  ft_message : Message;
  ft_code : Code;
  ft_calldata : CalldataSlice;
  ft_returndata : Slice;
}.

(** The types of the fields of a message. *)
Definition checked_message (m : Message) : outcome Message :=
  caller ← Bytes20 m.(msg_caller);
  code_address ← Bytes20 m.(msg_code_address);
  a ← Bytes20 m.(msg_address);
  v ← word m.(msg_value);
  reservoir ← gas m.(msg_state_gas_reservoir);
  depth ← frame_depth m.(msg_depth);
  Ok (mkMessage caller code_address a v reservoir m.(msg_is_static) depth).

(** The types of the fields of a frame and its validator. *)
Definition frame_transition (f : FrameTransition) : outcome FrameTransition :=
  pc ← Uint f.(ft_pc);
  g ← gas f.(ft_gas);
  s ← gas f.(ft_state_gas);
  p ← state_gas_spill f.(ft_state_spill);
  base ← Uint f.(ft_base);
  height ← Uint f.(ft_memory);
  validated ((- REFUND_BOUND <=? f.(ft_refund)) && (f.(ft_refund) <=? REFUND_BOUND))
    (mkFrame pc g s p f.(ft_refund) f.(ft_status) f.(ft_sp) base height f.(ft_message)
       f.(ft_code) f.(ft_calldata) f.(ft_returndata)).

(** The frame a call or a creation goes on in: the running one, with what it
    has left. *)
Definition leave (f : FrameTransition) (g state_gas_ state_spill : Z) (status : FrameStatus)
    (sp : StackPointer) (memory : Z) (message : Message) (returndata : Slice) :
    M SpecState FrameTransition :=
  of_outcome (frame_transition (mkFrame f.(ft_pc) g state_gas_ state_spill f.(ft_refund) status sp
    f.(ft_base) memory message f.(ft_code) f.(ft_calldata) returndata)).

Definition failing (f : FrameTransition) (state_gas_ state_spill : Z) (sp : StackPointer)
    (memory : Z) (message : Message) (returndata : Slice) (kind : Z) :
    M SpecState FrameTransition :=
  exceptional ← exceptional_state state_gas_ state_spill message.(msg_state_gas_reservoir) kind;
  leave f GAS_ZERO exceptional.(ex_state_gas_remaining) exceptional.(ex_state_gas_spilled)
    exceptional.(ex_status) sp memory message returndata.

Definition frame_output (status : FrameStatus) : Slice :=
  match status with
  | Halted (HaltReturn output) | Halted (HaltRevert output) => output
  | _ => EMPTY_OUTPUT_SLICE
  end.

Definition frame_succeeded (status : FrameStatus) : bool :=
  match status with
  | Halted (HaltRevert _) => false
  | Halted _ | Running => true
  | Exceptional _ => false
  end.

Section interpreter.
Context `{Keccak} `{StateTrie} `{AccelLib}.

Definition executable_code (target : address) (dele : bool) (dtgt : address) : M SpecState Code :=
  if dele then
    delegate_key ← k_code_key dtgt;
    delegate_code ← zoom (code_db_resolve delegate_key);
    profile ← get_profile;
    mret (if negb (bool_decide (precompile_id_for_address profile dtgt = NotPrecompile))
          then EMPTY_CODE else delegate_code)
  else
    target_key ← k_code_key target; zoom (code_db_resolve target_key).

(** ** Calls *)

Inductive CallKind : Type := Call | CallCode | DelegateCall | StaticCall.

Record CallSemantics : Type := mkCallSemantics {
  takes_value : bool;
  transfers_value : bool;
  uses_target_address : bool;
  inherits_caller_and_value : bool;
  enters_static_context : bool;
}.

Definition call_semantics (kind : CallKind) : CallSemantics :=
  match kind with
  | Call => mkCallSemantics true true true false false
  | CallCode => mkCallSemantics true false false false false
  | DelegateCall => mkCallSemantics false false false true false
  | StaticCall => mkCallSemantics false false true false true
  end.

Definition call_stack_inputs (kind : CallKind) : Z :=
  match kind with Call | CallCode => 7 | DelegateCall | StaticCall => 6 end.

(** What a call reads from the stack. *)
Record CallOperands : Type := mkCallOperands {
  gas_request : Z;
  target : address;
  call_value : Z;
  args_off_word : Z;
  args_len_word : Z;
  ret_off_word : Z;
  ret_len_word : Z;
}.

Definition call_operands (semantics : CallSemantics) (sp : StackPointer) :
    M SpecState (CallOperands * StackPointer) :=
  '(request, sp) ← pop sp;
  '(target_word, sp) ← pop sp;
  target ← of_outcome (word_to_address target_word);
  '(v, sp) ← (if semantics.(takes_value) then pop sp else mret (WORD_ZERO, sp));
  '(args_off, sp) ← pop sp;
  '(args_len, sp) ← pop sp;
  '(ret_off, sp) ← pop sp;
  '(ret_len, sp) ← pop sp;
  mret (mkCallOperands request target v args_off args_len ret_off ret_len, sp).

Definition max_height (a b : Z) : Z := if a <? b then b else a.

(** The end of a call that did not enter: nothing is returned, the state gas
    of an account that was not made comes back, and zero is pushed. *)
Definition call_not_entered (f : FrameTransition) (g state_gas_ state_spill : Z) (charged : bool)
    (sp : StackPointer) (memory : Z) (message : Message) : M SpecState FrameTransition :=
  let returndata := returndata_clear in
  '(g, state_gas_, state_spill) ←
    (if charged
     then of_outcome (credit_state_gas_refund g state_gas_ state_spill G_amsterdam_state_new_account)
     else mret (g, state_gas_, state_spill));
  sp ← push sp WORD_ZERO;
  leave f g state_gas_ state_spill Running sp memory message returndata.

Definition call_precompile (f : FrameTransition) (semantics : CallSemantics) (ops : CallOperands)
    (selected : PrecompileId) (args ret : MemoryAccess) (mem1 g state_gas_ state_spill child_gas : Z)
    (charged : bool) (sp : StackPointer) (message : Message) : M SpecState FrameTransition :=
  input_memory ← active_memory_slice f.(ft_base) mem1 args.(ma_off) args.(ma_len);
  let input := MemoryCalldata input_memory in
  profile ← get_profile;
  precompile_charge ← zoom (precompile_gas profile selected input child_gas);
  if precompile_charge.(affordable) then
    result ← run_precompile_slice selected input;
    if result.(pr_success) then
      let returndata := result.(pr_output) in
      when (semantics.(transfers_value) && word_nonzero ops.(call_value))
        (k_transfer message.(msg_address) ops.(target) ops.(call_value));;
      return_destination ← of_outcome (memory_absolute f.(ft_base) ret.(ma_off));
      returndata_copy_prefix returndata return_destination ret.(ma_len);;
      g ← of_outcome (unused ← gas_sub child_gas precompile_charge.(cost); refund_gas g unused);
      sp ← push sp WORD_ONE;
      leave f g state_gas_ state_spill Running sp mem1 message returndata
    else call_not_entered f g state_gas_ state_spill charged sp mem1 message
  else call_not_entered f g state_gas_ state_spill charged sp mem1 message.

(** The caller is suspended and the callee starts. *)
Definition call_enter (f : FrameTransition) (semantics : CallSemantics) (ops : CallOperands)
    (delegation : bool * address) (args ret : MemoryAccess)
    (mem1 g state_gas_ state_spill child_gas : Z) (charged : bool) (sp : StackPointer)
    (message : Message) : M SpecState FrameTransition :=
  let caller := message.(msg_address) in
  let child_depth := message.(msg_depth) + 1 in
  child_code ← executable_code ops.(target) delegation.1 delegation.2;
  let child_addr := if semantics.(uses_target_address) then ops.(target) else caller in
  let child_caller := if semantics.(inherits_caller_and_value) then message.(msg_caller)
                      else caller in
  let child_value := if semantics.(inherits_caller_and_value) then message.(msg_value)
                     else ops.(call_value) in
  let child_static := if semantics.(enters_static_context) then true else message.(msg_is_static) in
  bytes ← active_memory_slice f.(ft_base) mem1 args.(ma_off) args.(ma_len);
  child_memory ← of_outcome (evm_memory_slice bytes.(sl_bytes) bytes.(sl_len));
  '(checkpoint, child_stack, child_base, child_height) ←
    suspend_frame f.(ft_pc) g sp f.(ft_base) mem1 STATE_GAS_ZERO state_spill f.(ft_refund) Running
      message f.(ft_code) f.(ft_calldata);
  continuation ← of_outcome
    (off ← Uint ret.(ma_off); len ← Uint ret.(ma_len);
     Ok (ResumeCall (mkCallContinuation checkpoint off len charged)));
  on_host (frame_stack_push continuation);;
  when (semantics.(transfers_value) && word_nonzero ops.(call_value))
    (k_transfer caller ops.(target) ops.(call_value));;
  child_message ← of_outcome (checked_message
    (mkMessage child_caller ops.(target) child_addr child_value state_gas_ child_static child_depth));
  of_outcome (frame_transition (mkFrame 0 child_gas state_gas_ STATE_GAS_SPILL_ZERO 0 Running
    child_stack child_base child_height child_message child_code (MemoryCalldata child_memory)
    returndata_clear)).

(** The call is paid: the memory grows, the balance and the depth are checked
    and the callee is a precompile or a frame. *)
Definition call_paid (f : FrameTransition) (semantics : CallSemantics) (ops : CallOperands)
    (delegation : bool * address) (g state_gas_ state_spill base_child : Z) (charged : bool)
    (sp : StackPointer) (message : Message) : M SpecState FrameTransition :=
  let caller := message.(msg_address) in
  let stipend := if word_nonzero ops.(call_value) then G_callstipend else GAS_ZERO in
  when delegation.1 (k_account_mark_warm delegation.2);;
  when delegation.1
    (delegate_key ← k_code_key delegation.2;
     _ ← zoom (code_db_resolve delegate_key);
     _ ← k_aload delegation.2; mret tt);;
  args ← of_outcome (memory_access ops.(args_off_word) ops.(args_len_word));
  ret ← of_outcome (memory_access ops.(ret_off_word) ops.(ret_len_word));
  mem1 ← expand_memory f.(ft_base) f.(ft_memory)
    (max_height args.(requested_height) ret.(requested_height));
  child_gas ← of_outcome (conserved_gas_add base_child stipend);
  _ ← k_aload ops.(target);
  insufficient_balance ←
    (if semantics.(takes_value) && word_nonzero ops.(call_value) then
       caller_balance ← k_get_balance caller;
       mret (negb (word_ule ops.(call_value) caller_balance))
     else mret false);
  if insufficient_balance || (message.(msg_depth) =? 1024) then
    g ← of_outcome (refund_gas g child_gas);
    call_not_entered f g state_gas_ state_spill charged sp mem1 message
  else
    profile ← get_profile;
    let selected := precompile_id_for_address profile ops.(target) in
    if negb (bool_decide (selected = NotPrecompile))
    then call_precompile f semantics ops selected args ret mem1 g state_gas_ state_spill child_gas
           charged sp message
    else call_enter f semantics ops delegation args ret mem1 g state_gas_ state_spill child_gas
           charged sp message.

(** The price of a call: access, transfer, memory, delegation, new account,
    and the gas the callee gets. *)
Definition call_charges (f : FrameTransition) (semantics : CallSemantics) (ops : CallOperands)
    (sp : StackPointer) (message : Message) : M SpecState FrameTransition :=
  let value_nonzero := word_nonzero ops.(call_value) in
  let fail s p kind := failing f s p sp f.(ft_memory) message f.(ft_returndata) kind in
  let s0 := f.(ft_state_gas) in
  let p0 := f.(ft_state_spill) in
  profile ← get_profile;
  warm ← k_account_is_warm ops.(target);
  target_cost ← of_outcome (account_cost profile warm);
  transfer_cost ← (if value_nonzero then of_outcome (call_value_cost profile)
                   else mret GAS_CONSTANT_ZERO);
  args_requested ← of_outcome (memory_requested_height ops.(args_off_word) ops.(args_len_word));
  ret_requested ← of_outcome (memory_requested_height ops.(ret_off_word) ops.(ret_len_word));
  afford_or f.(ft_gas)
    (memory_expansion_gas_cost f.(ft_memory) (max_height args_requested ret_requested) f.(ft_gas))
    (fail s0 p0 OutOfGas) (λ g,
  charge_or g (target_cost + transfer_cost) (fail s0 p0 OutOfGas) (λ g,
    k_account_mark_warm ops.(target);;
    delegation ← k_deleg_target ops.(target);
    delegation_cost ←
      (if delegation.1 : bool
       then dw ← k_account_is_warm delegation.2; of_outcome (account_cost profile dw)
       else mret GAS_CONSTANT_ZERO);
    target_empty ← k_account_is_empty ops.(target);
    let makes_account := value_nonzero && (semantics.(transfers_value) && target_empty) in
    let new_account_charged := (Amsterdam <=? fork profile) && makes_account in
    let create_cost := if (fork profile <? Amsterdam) && makes_account then G_newaccount
                       else GAS_CONSTANT_ZERO in
  charge_or g (delegation_cost + create_cost) (fail s0 p0 OutOfGas) (λ g,
    '(state_gas_halt, g, s, p) ←
      (if (Amsterdam <=? fork profile) && new_account_charged
       then of_outcome (charge_state_gas g s0 p0 G_amsterdam_state_new_account)
       else mret (false, g, s0, p0));
    if state_gas_halt : bool then fail s p OutOfGas
    else
      base_child ← of_outcome (v ← call_gas_cap_word g ops.(gas_request); gas v);
  charge_or g base_child (fail s p OutOfGas) (λ g,
    call_paid f semantics ops delegation g s p base_child new_account_charged sp message)))).

Definition run_call (f : FrameTransition) (kind : CallKind) : M SpecState FrameTransition :=
  stack_status ← of_outcome (guard_stack f.(ft_sp) (call_stack_inputs kind) 1);
  message ← of_outcome (checked_message f.(ft_message));
  match stack_status with
  | Failed halt_kind =>
      failing f f.(ft_state_gas) f.(ft_state_spill) f.(ft_sp) f.(ft_memory) message
        f.(ft_returndata) halt_kind
  | Continue =>
      let semantics := call_semantics kind in
      '(ops, sp) ← call_operands semantics f.(ft_sp);
      if semantics.(transfers_value) && (word_nonzero ops.(call_value) && message.(msg_is_static))
      then failing f f.(ft_state_gas) f.(ft_state_spill) sp f.(ft_memory) message
             f.(ft_returndata) WriteProtection
      else call_charges f semantics ops sp message
  end.

(** ** Creations *)

Inductive CreateKind : Type := CreateByNonce | CreateBySalt.

Definition uses_salt (kind : CreateKind) : bool :=
  match kind with CreateByNonce => false | CreateBySalt => true end.
Definition create_stack_inputs (kind : CreateKind) : Z :=
  match kind with CreateByNonce => 3 | CreateBySalt => 4 end.

(** All but a 64th of the gas goes to the new frame. *)
Definition split_gas (avail : Z) : outcome (Z * Z) :=
  retained ← sail_ediv_int avail 64;
  child ← (v ← gas_sub avail retained; gas v); Ok (child, retained).

Definition pushes_zero (f : FrameTransition) (g state_gas_ state_spill : Z) (sp : StackPointer)
    (memory : Z) (message : Message) : M SpecState FrameTransition :=
  sp ← push sp WORD_ZERO;
  leave f g state_gas_ state_spill Running sp memory message returndata_clear.

(** The creator is suspended and the initialisation code starts. *)
Definition create_enter (f : FrameTransition) (v : Z) (new_addr : address) (initcode : MemoryAccess)
    (mem1 g state_gas_ state_spill child_gas : Z) (charged : bool) (sp : StackPointer)
    (message : Message) : M SpecState FrameTransition :=
  let creator := message.(msg_address) in
  profile ← get_profile;
  initcode_bytes ← memory_code_slice f.(ft_base) mem1 initcode.(ma_off) initcode.(ma_len);
  child_code_id ← zoom (code_db_insert initcode_bytes (fork profile));
  child_code ← zoom (code_db_resolve child_code_id);
  '(checkpoint, child_stack, child_base, child_height) ←
    suspend_frame f.(ft_pc) g sp f.(ft_base) mem1 STATE_GAS_ZERO state_spill f.(ft_refund) Running
      message f.(ft_code) f.(ft_calldata);
  on_host (frame_stack_push (ResumeCreate (mkCreateContinuation checkpoint new_addr charged)));;
  k_mark_created new_addr;;
  k_clear_storage new_addr;;
  k_bump_nonce new_addr;;
  k_transfer creator new_addr v;;
  child_message ← of_outcome (checked_message
    (mkMessage creator new_addr new_addr v state_gas_ message.(msg_is_static)
       (message.(msg_depth) + 1)));
  of_outcome (frame_transition (mkFrame 0 child_gas state_gas_ STATE_GAS_SPILL_ZERO 0 Running
    child_stack child_base child_height child_message child_code EMPTY_CALLDATA
    returndata_clear)).

(** The creation is paid: the balance, the nonce and the depth are checked,
    the account is charged for and must not be taken. *)
Definition create_paid (f : FrameTransition) (kind : CreateKind) (v salt : Z)
    (initcode : MemoryAccess) (mem1 g : Z) (sp : StackPointer) (message : Message) :
    M SpecState FrameTransition :=
  let creator := message.(msg_address) in
  let s0 := f.(ft_state_gas) in
  let p0 := f.(ft_state_spill) in
  profile ← get_profile;
  let legacy := fork profile <? Amsterdam in
  nonce ← k_get_nonce creator;
  new_addr ←
    (if uses_salt kind then
       digest_word ← mem_keccak f.(ft_base) mem1 initcode;
       initcode_digest ← of_outcome (word_to_hash digest_word);
       k_create2_addr creator salt initcode_digest
     else k_create_addr creator nonce);
  '(child_gas, g) ← (if legacy then of_outcome (split_gas g) else mret (GAS_ZERO, g));
  creator_balance ← k_get_balance creator;
  if negb (word_ule v creator_balance) ||
     ((nonce =? Z.shiftl 1 64 - 1) || (message.(msg_depth) =? 1024))
  then
    g ← of_outcome (r ← (if legacy then refund_gas g child_gas else Ok g); gas r);
    pushes_zero f g s0 p0 sp mem1 message
  else
    k_account_mark_warm new_addr;;
    charged ← (if Amsterdam <=? fork profile then k_account_is_empty new_addr else mret false);
    '(state_gas_halt, g, s, p) ←
      (if charged : bool then of_outcome (charge_state_gas g s0 p0 G_amsterdam_state_new_account)
       else mret (false, g, s0, p0));
    if state_gas_halt : bool
    then failing f s p sp mem1 message f.(ft_returndata) OutOfGas
    else
      '(child_gas, g) ← (if Amsterdam <=? fork profile then of_outcome (split_gas g)
                         else mret (child_gas, g));
      occupied ← k_account_occupied new_addr;
      k_bump_nonce creator;;
      if occupied : bool then
        '(g, s, p) ←
          (if charged : bool
           then of_outcome (credit_state_gas_refund g s p G_amsterdam_state_new_account)
           else mret (g, s, p));
        pushes_zero f g s p sp mem1 message
      else create_enter f v new_addr initcode mem1 g s p child_gas charged sp message.

(** A charge made under a condition. *)
Definition afford_when {R} (b : bool) (g : Z) (c : outcome GasCharge) (early : M SpecState R)
    (k : Z → M SpecState R) : M SpecState R :=
  if b then afford_or g c early k else k g.

Definition create_charges (f : FrameTransition) (kind : CreateKind) (v off_word len_word salt : Z)
    (sp : StackPointer) (message : Message) : M SpecState FrameTransition :=
  let fail memory k := failing f f.(ft_state_gas) f.(ft_state_spill) sp memory message
                         f.(ft_returndata) k in
  profile ← get_profile;
  requested ← of_outcome (memory_requested_height off_word len_word);
  afford_or f.(ft_gas) (memory_expansion_gas_cost f.(ft_memory) requested f.(ft_gas))
    (fail f.(ft_memory) OutOfGas) (λ g,
  initcode ← of_outcome (memory_access off_word len_word);
  mem1 ← expand_memory f.(ft_base) f.(ft_memory) initcode.(requested_height);
  access_cost ← of_outcome (create_access_cost profile);
  charge_or g access_cost (fail mem1 OutOfGas) (λ g,
  initcode_words ← of_outcome (memory_word_count_word len_word);
  afford_when (Shanghai <=? fork profile) g
    (word_scaled_gas_cost G_initcode_word initcode_words g) (fail mem1 OutOfGas) (λ g,
  afford_when (uses_salt kind) g
    (word_scaled_gas_cost G_keccak_word initcode_words g) (fail mem1 OutOfGas) (λ g,
  if negb (initcode_size_allowed profile initcode.(ma_len)) then fail mem1 InitCodeTooLarge
  else create_paid f kind v salt initcode mem1 g sp message)))).

Definition run_create (f : FrameTransition) (kind : CreateKind) : M SpecState FrameTransition :=
  stack_status ← of_outcome (guard_stack f.(ft_sp) (create_stack_inputs kind) 1);
  message ← of_outcome (checked_message f.(ft_message));
  match stack_status with
  | Failed halt_kind =>
      failing f f.(ft_state_gas) f.(ft_state_spill) f.(ft_sp) f.(ft_memory) message
        f.(ft_returndata) halt_kind
  | Continue =>
      '(v, sp) ← pop f.(ft_sp);
      '(off_word, sp) ← pop sp;
      '(len_word, sp) ← pop sp;
      '(salt, sp) ← (if uses_salt kind then pop sp else mret (WORD_ZERO, sp));
      if message.(msg_is_static)
      then failing f f.(ft_state_gas) f.(ft_state_spill) sp f.(ft_memory) message
             f.(ft_returndata) WriteProtection
      else create_charges f kind v off_word len_word salt sp message
  end.

(** ** Returning to a suspended frame *)

(** The parent's gas takes back what the child has left. *)
Definition settle_parent (c : FrameCheckpoint) (child_base child_gas child_state_gas child_spill : Z) :
    M SpecState (Z * Z * Z * Z) :=
  on_host operand_stack_pop_frame;;
  of_outcome
    (parent_base ← memory_parent_base child_base c.(fc_memory_height);
     g ← refund_gas c.(fc_gas_remaining) child_gas;
     '(s, p) ← return_child_state_gas c.(fc_state_gas_remaining) c.(fc_state_gas_spilled)
                 child_state_gas child_spill;
     Ok (parent_base, g, s, p)).

(** A child that failed: its changes are undone and zero is pushed. *)
Definition child_failed (charged : bool) (g s p : Z) (sp : StackPointer) :
    M SpecState (Z * Z * Z * StackPointer) :=
  k_journal_revert;;
  '(g, s, p) ←
    (if charged
     then of_outcome (credit_state_gas_refund g s p G_amsterdam_state_new_account)
     else mret (g, s, p));
  sp ← push sp WORD_ZERO; mret (g, s, p, sp).

Definition parent_frame (c : FrameCheckpoint) (parent_base g s p refund : Z) (sp : StackPointer)
    (returndata : Slice) : M SpecState FrameTransition :=
  of_outcome (frame_transition (mkFrame c.(fc_pc) g s p refund c.(fc_status) sp parent_base
    c.(fc_memory_height) c.(fc_message) c.(fc_code) c.(fc_calldata) returndata)).

Definition resume_call (continuation : CallContinuation) (output : Slice)
    (child_base child_gas child_state_gas child_spill child_refund : Z) (child_status : FrameStatus) :
    M SpecState FrameTransition :=
  let c := continuation.(cc_checkpoint) in
  '(parent_base, g, s, p) ← settle_parent c child_base child_gas child_state_gas child_spill;
  return_destination ← of_outcome (memory_absolute parent_base continuation.(cc_return_offset));
  returndata_copy_prefix output return_destination continuation.(cc_return_length);;
  if frame_succeeded child_status then
    refund ← of_outcome (record_refund c.(fc_refund) child_refund);
    k_journal_commit;;
    sp ← push c.(fc_stack_top) WORD_ONE;
    parent_frame c parent_base g s p refund sp output
  else
    '(g, s, p, sp) ← child_failed continuation.(cc_new_account_charged) g s p c.(fc_stack_top);
    parent_frame c parent_base g s p c.(fc_refund) sp output.

(** What the end of the initialisation code leaves of the child: its gas, its
    status and whether an unpaid deposit leaves empty code (before Homestead). *)
Record Settled : Type := mkSettled {
  se_gas : Z;
  se_state_gas : Z;
  se_spill : Z;
  se_status : FrameStatus;
  se_empty_deposit : bool;
}.

Definition settle_failed (state_gas_ spill reservoir : Z) : M SpecState Settled :=
  ex ← exceptional_state state_gas_ spill reservoir OutOfGas;
  mret (mkSettled GAS_ZERO ex.(ex_state_gas_remaining) ex.(ex_state_gas_spilled) ex.(ex_status) false).

Definition Homestead : Z := 1.

Definition settle_child (output : Slice) (g state_gas_ spill : Z) (status : FrameStatus)
    (reservoir : Z) : M SpecState Settled :=
  profile ← get_profile;
  deployed_length ← of_outcome (returndata_size output);
  if frame_succeeded status then
    prohibited_prefix ←
      (if negb (deployed_length =? 0)
       then first_byte ← zoom (output_byte output 0); mret (first_byte =? 0xef) else mret false);
    if negb (deployed_code_size_allowed profile deployed_length) ||
       ((London <=? fork profile) && prohibited_prefix)
    then settle_failed state_gas_ spill reservoir
    else
      deployment_charge ← of_outcome (code_deployment_execution_cost profile deployed_length g);
      if deployment_charge.(affordable) then
        g ← of_outcome (v ← gas_sub g deployment_charge.(cost); gas v);
        state_deposit ← of_outcome (code_deployment_state_cost profile deployed_length);
        '(deployment_halt, g, s, p) ←
          of_outcome (charge_state_gas g state_gas_ spill state_deposit);
        if deployment_halt : bool then settle_failed s p reservoir
        else mret (mkSettled g s p status false)
      else if fork profile <? Homestead
      then mret (mkSettled GAS_ZERO state_gas_ spill status true)
      else settle_failed state_gas_ spill reservoir
  else mret (mkSettled g state_gas_ spill status false).

Definition resume_create (continuation : CreateContinuation) (output : Slice)
    (child_base child_gas child_state_gas child_spill child_refund : Z) (child_status : FrameStatus)
    (child_reservoir : Z) : M SpecState FrameTransition :=
  let c := continuation.(crc_checkpoint) in
  let initcode_succeeded := frame_succeeded child_status in
  settled ← settle_child output child_gas child_state_gas child_spill child_status child_reservoir;
  let deploy_succeeds := initcode_succeeded && frame_succeeded settled.(se_status) in
  '(parent_base, g, s, p) ←
    settle_parent c child_base settled.(se_gas) settled.(se_state_gas) settled.(se_spill);
  let returndata := if initcode_succeeded then returndata_clear else output in
  if deploy_succeeds then
    refund ← of_outcome (record_refund c.(fc_refund) child_refund);
    deployed_code ← zoom (code_db_intern_output
      (if settled.(se_empty_deposit) then EMPTY_OUTPUT_SLICE else output));
    k_deploy_code continuation.(crc_address) deployed_code;;
    k_journal_commit;;
    deployed_address ← of_outcome (address_to_word continuation.(crc_address));
    sp ← push c.(fc_stack_top) deployed_address;
    parent_frame c parent_base g s p refund sp returndata
  else
    '(g, s, p, sp) ← child_failed continuation.(crc_new_account_charged) g s p c.(fc_stack_top);
    parent_frame c parent_base g s p c.(fc_refund) sp returndata.

Definition resume_frame (continuation : FrameContinuation) (output : Slice)
    (child_base child_gas child_state_gas child_spill child_refund : Z) (child_status : FrameStatus)
    (child_reservoir : Z) : M SpecState FrameTransition :=
  match continuation with
  | Empty => of_outcome fatal_error
  | ResumeCall call =>
      resume_call call output child_base child_gas child_state_gas child_spill child_refund
        child_status
  | ResumeCreate create =>
      resume_create create output child_base child_gas child_state_gas child_spill child_refund
        child_status child_reservoir
  end.

(** A frame entered at an opcode of the call family. *)
Definition run_frame_entry_encoded (f : FrameTransition) (opcode : Z) : M SpecState FrameTransition :=
  if opcode =? 240 then run_create f CreateByNonce
  else if opcode =? 241 then run_call f Call
  else if opcode =? 242 then run_call f CallCode
  else if opcode =? 244 then run_call f DelegateCall
  else if opcode =? 245 then run_create f CreateBySalt
  else if opcode =? 250 then run_call f StaticCall
  else
    message ← of_outcome (checked_message f.(ft_message));
    failing f f.(ft_state_gas) f.(ft_state_spill) f.(ft_sp) f.(ft_memory) message
      f.(ft_returndata) InvalidOpcode.

(** ** One instruction *)

(** pc, gas, state gas, spill, refund, stack, memory and status. *)
Definition StepResult : Type := Z * Z * Z * Z * Z * StackPointer * Z * FrameStatus.

Section instruction.
Context (fork blob_fee : Z) (context : address) (f : FrameTransition).

Definition finish_op (m : M SpecState OpResult) : M SpecState StepResult :=
  '(g, sp, st) ← m;
  mret (f.(ft_pc), g, f.(ft_state_gas), f.(ft_state_spill), f.(ft_refund), sp, f.(ft_memory),
        opcode_frame_status st).
Definition finish_mem (m : M SpecState MemResult) : M SpecState StepResult :=
  '(g, sp, memory, st) ← m;
  mret (f.(ft_pc), g, f.(ft_state_gas), f.(ft_state_spill), f.(ft_refund), sp, memory,
        opcode_frame_status st).
Definition finish_jump (m : M SpecState JumpResult) : M SpecState StepResult :=
  '(pc, g, sp, st) ← m;
  mret (pc, g, f.(ft_state_gas), f.(ft_state_spill), f.(ft_refund), sp, f.(ft_memory),
        opcode_frame_status st).
Definition finish_gas (r : Z * OpcodeOutcome) : M SpecState StepResult :=
  finish_op (mret (r.1, f.(ft_sp), r.2)).

(** An instruction of one operand list: gas and stack pointer. *)
Definition simple (op : Z → StackPointer → M SpecState OpResult) : M SpecState StepResult :=
  finish_op (op f.(ft_gas) f.(ft_sp)).
Definition on_memory (op : Z → Z → StackPointer → Z → M SpecState MemResult) :
    M SpecState StepResult :=
  finish_mem (op f.(ft_base) f.(ft_gas) f.(ft_sp) f.(ft_memory)).

Definition execute_instruction (instruction : ast) : M SpecState StepResult :=
  let g := f.(ft_gas) in
  let s := f.(ft_state_gas) in
  let p := f.(ft_state_spill) in
  let sp := f.(ft_sp) in
  let m := f.(ft_message) in
  let a := m.(msg_address) in
  match instruction with
  | STOP => mret (f.(ft_pc), g, s, p, f.(ft_refund), sp, f.(ft_memory), execute_stop)
  | ADD => simple execute_add
  | MUL => simple execute_mul
  | SUB => simple execute_sub
  | DIV => simple execute_div
  | SDIV => simple execute_sdiv
  | MOD => simple execute_mod
  | SMOD => simple execute_smod
  | ADDMOD => simple execute_addmod
  | MULMOD => simple execute_mulmod
  | EXP => simple execute_exp
  | SIGNEXTEND => simple execute_signextend
  | LT => simple execute_lt
  | GT => simple execute_gt
  | SLT => simple execute_slt
  | SGT => simple execute_sgt
  | EQ => simple execute_eq
  | ISZERO => simple execute_iszero
  | AND => simple execute_and
  | OR => simple execute_or
  | XOR => simple execute_xor
  | NOT => simple execute_not
  | BYTE => simple execute_byte
  | SHL => simple execute_shl
  | SHR => simple execute_shr
  | SAR => simple execute_sar
  | CLZ => simple execute_clz
  | KECCAK256 => on_memory execute_keccak256
  | ADDRESS => simple (execute_address a)
  | BALANCE => simple execute_balance
  | ORIGIN => simple execute_origin
  | CALLER => simple (execute_caller m.(msg_caller))
  | CALLVALUE => simple (execute_callvalue m.(msg_value))
  | CALLDATALOAD => simple (execute_calldataload f.(ft_calldata))
  | CALLDATASIZE => simple (execute_calldatasize f.(ft_calldata))
  | CALLDATACOPY => on_memory (execute_calldatacopy f.(ft_calldata))
  | CODESIZE => simple (execute_codesize f.(ft_code))
  | CODECOPY => on_memory (execute_codecopy f.(ft_code))
  | GASPRICE => simple execute_gasprice
  | EXTCODESIZE => simple execute_extcodesize
  | EXTCODECOPY => on_memory execute_extcodecopy
  | RETURNDATASIZE => simple (execute_returndatasize f.(ft_returndata))
  | RETURNDATACOPY => on_memory (execute_returndatacopy f.(ft_returndata))
  | EXTCODEHASH => simple execute_extcodehash
  | BLOCKHASH => simple execute_blockhash
  | COINBASE => simple execute_coinbase
  | TIMESTAMP => simple execute_timestamp
  | NUMBER => simple execute_number
  | PREVRANDAO => simple execute_prevrandao
  | GASLIMIT => simple execute_gaslimit
  | CHAINID => simple execute_chainid
  | SELFBALANCE => simple (execute_selfbalance a)
  | BASEFEE => simple execute_basefee
  | BLOBHASH => simple execute_blobhash
  | BLOBBASEFEE => simple (execute_blobbasefee blob_fee)
  | SLOTNUM => simple execute_slotnum
  | POP => simple execute_pop
  | MLOAD => on_memory execute_mload
  | MSTORE => on_memory execute_mstore
  | MSTORE8 => on_memory execute_mstore8
  | SLOAD => simple (execute_sload context)
  | SSTORE =>
      '(g', s', p', refund, sp', st) ←
        execute_sstore context fork m.(msg_is_static) g s p f.(ft_refund) sp;
      mret (f.(ft_pc), g', s', p', refund, sp', f.(ft_memory), opcode_frame_status st)
  | JUMP => finish_jump (execute_jump f.(ft_code) f.(ft_pc) g sp)
  | JUMPI => finish_jump (execute_jumpi f.(ft_code) f.(ft_pc) g sp)
  | PC => finish_jump (execute_pc f.(ft_pc) g sp)
  | MSIZE => finish_mem (execute_msize g sp f.(ft_memory))
  | GAS => simple execute_gas
  | JUMPDEST => finish_gas (execute_jumpdest g)
  | TLOAD => simple (execute_tload a)
  | TSTORE => simple (execute_tstore a m.(msg_is_static))
  | MCOPY => on_memory execute_mcopy
  | PUSH n v => finish_op (execute_push g sp n v)
  | DUP n => finish_op (execute_dup g sp n)
  | SWAP n => finish_op (execute_swap g sp n)
  | DUPN immediate => finish_op (execute_dupn g sp immediate)
  | SWAPN immediate => finish_op (execute_swapn g sp immediate)
  | EXCHANGE immediate => finish_op (execute_exchange g sp immediate)
  | LOG n => finish_mem (execute_log a m.(msg_is_static) f.(ft_base) n g sp f.(ft_memory))
  | opcode_CREATE | CREATE2 | CALL | CALLCODE | DELEGATECALL | STATICCALL =>
      of_outcome fatal_error
  | RETURN =>
      '(g', sp', memory, st) ← execute_return f.(ft_base) g sp f.(ft_memory);
      mret (f.(ft_pc), g', s, p, f.(ft_refund), sp', memory, st)
  | REVERT =>
      '(g', s', p', sp', memory, st) ←
        execute_revert m.(msg_state_gas_reservoir) f.(ft_base) g s p sp f.(ft_memory);
      mret (f.(ft_pc), g', s', p', f.(ft_refund), sp', memory, st)
  | INVALID => finish_gas (execute_invalid g)
  | SELFDESTRUCT =>
      '(g', s', p', refund, sp', st) ←
        execute_selfdestruct a fork m.(msg_is_static) g s p f.(ft_refund) sp;
      mret (f.(ft_pc), g', s', p', refund, sp', f.(ft_memory), st)
  end.

(** An exceptional halt takes the gas; the frame goes on with the rest. *)
Definition finish_step (r : StepResult) : M SpecState FrameTransition :=
  let '(pc, g, s, p, refund, sp, memory, status) := r in
  '(g, s, p, status) ←
    match status with
    | Exceptional kind =>
        ex ← exceptional_state s p f.(ft_message).(msg_state_gas_reservoir) kind;
        mret (GAS_ZERO, ex.(ex_state_gas_remaining), ex.(ex_state_gas_spilled), ex.(ex_status))
    | _ => mret (g, s, p, status)
    end;
  mret (mkFrame pc g s p refund status sp f.(ft_base) memory f.(ft_message) f.(ft_code)
          f.(ft_calldata) f.(ft_returndata)).
End instruction.

(** ** The loop *)

(** The loop adopts the fields of a transition at their types. *)
Definition adopt (t : FrameTransition) : outcome FrameTransition :=
  t ← frame_transition t;
  message ← checked_message t.(ft_message);
  Ok (mkFrame t.(ft_pc) t.(ft_gas) t.(ft_state_gas) t.(ft_state_spill) t.(ft_refund) t.(ft_status)
        t.(ft_sp) t.(ft_base) t.(ft_memory) message t.(ft_code) t.(ft_calldata)
        t.(ft_returndata)).

Definition refresh_account_execution_context (context previous next : address) : address :=
  if bool_decide (previous = next) then context else next.

(** A transition into another frame, and the account its storage is under. *)
Definition enter_frame (f : FrameTransition) (context : address)
    (m : M SpecState FrameTransition) : M SpecState (FrameTransition * address) :=
  t ← m;
  t ← of_outcome (adopt t);
  mret (t, refresh_account_execution_context context f.(ft_message).(msg_address)
             t.(ft_message).(msg_address)).

Definition set_pc (pc : Z) (f : FrameTransition) : FrameTransition :=
  mkFrame pc f.(ft_gas) f.(ft_state_gas) f.(ft_state_spill) f.(ft_refund) f.(ft_status) f.(ft_sp)
    f.(ft_base) f.(ft_memory) f.(ft_message) f.(ft_code) f.(ft_calldata) f.(ft_returndata).

(** The turn of a running frame: one instruction. *)
Definition run_turn (fork blob_fee : Z) (f : FrameTransition) (context : address) :
    M SpecState (FrameTransition * address) :=
  '(pc, instruction) ← fetch f.(ft_code) f.(ft_pc) fork;
  let f := set_pc pc f in
  match instruction with
  | opcode_CREATE => enter_frame f context (run_create f CreateByNonce)
  | CREATE2 => enter_frame f context (run_create f CreateBySalt)
  | CALL => enter_frame f context (run_call f Call)
  | CALLCODE => enter_frame f context (run_call f CallCode)
  | DELEGATECALL => enter_frame f context (run_call f DelegateCall)
  | STATICCALL => enter_frame f context (run_call f StaticCall)
  | _ =>
      r ← execute_instruction fork blob_fee context f instruction;
      f' ← finish_step f r; mret (f', context)
  end.

(** The turn of a frame that has ended: the next one of the frame stack. *)
Definition return_turn (f : FrameTransition) (context : address) :
    M SpecState (option (FrameTransition * address)) :=
  let output := frame_output f.(ft_status) in
  continuation ← on_host frame_stack_pop;
  match continuation with
  | Empty => mret None
  | _ =>
      r ← enter_frame f context
        (resume_frame continuation output f.(ft_base) f.(ft_gas) f.(ft_state_gas)
           f.(ft_state_spill) f.(ft_refund) f.(ft_status)
           f.(ft_message).(msg_state_gas_reservoir));
      mret (Some r)
  end.

Definition InterpretResult : Type := Z * Z * Z * Z * FrameStatus * Slice.

(** The loop of [interpret], which stops with [None] when the fuel runs out
    first. The count of the call tree's steps that the source keeps beside it
    has no effect: it stays at zero when it runs out. *)
Fixpoint interpret_loop (fuel : nat) (fork blob_fee : Z) (f : FrameTransition) (context : address) :
    M SpecState (option InterpretResult) :=
  match fuel with
  | O => mret None
  | S fuel' =>
      if is_running f.(ft_status) then
        '(f', context') ← run_turn fork blob_fee f context;
        interpret_loop fuel' fork blob_fee f' context'
      else
        next ← return_turn f context;
        match next with
        | None =>
            mret (Some (f.(ft_gas), f.(ft_state_gas), f.(ft_state_spill), f.(ft_refund),
                        f.(ft_status), frame_output f.(ft_status)))
        | Some (f', context') => interpret_loop fuel' fork blob_fee f' context'
        end
  end.

Definition interpret (fuel : nat) (f : FrameTransition) : M SpecState (option InterpretResult) :=
  profile ← get_profile;
  header ← gets (λ s, s.(sp_env).(k_header));
  blob_fee ← of_outcome (blob_base_fee (fork profile) profile.(pp_blob_schedule)
    profile.(excess_blob_gas_limit) header.(bh_excess_blob_gas));
  on_host frame_stack_reset;;
  interpret_loop fuel (fork profile) blob_fee f f.(ft_message).(msg_address).
End interpreter.
