(* ===== verification/Transaction.v ===== *)
(** * Transaction: a transaction from its checks to its receipt

    [evm/transaction.py] with the transaction records of [primitives/evm.py]
    and [primitives/tx.py]: intrinsic gas, admission, authorizations, the
    access list, the frame of a call or a creation, the refund and the
    payments. The interpreter's fuel is an argument; a frame that runs out of
    it raises. *)

From Stdlib Require Import ZArith Lia.
From stdpp Require Import base tactics option list.
From S2P Require Import Prelude PyBytes HostTypes SailRuntime Words ChainConfig Regions RegionAccess Gas GasSchedule Crypto Storage Accounts WarmLogs Journal CodeDb Accelerators Secp256k1 OperandStack Environment Scratch Rlp Kernel Machine Instructions Execute Precompiles TxCodec Interpreter.
Local Open Scope Z_scope.

(** ** Constants *)

Definition G_transaction : Z := 21000.
Definition G_txcreate : Z := 32000.
Definition G_txdatazero : Z := 4.
Definition G_txdatanonzero : Z := 16.
Definition G_access_list_address : Z := 2400.
Definition G_access_list_storage_key : Z := 1900.
Definition PER_AUTH_BASE : Z := 12500.
Definition PER_EMPTY_ACCOUNT : Z := 25000.
Definition AMSTERDAM_TX_BASE : Z := 12000.
Definition AMSTERDAM_CREATE_ACCESS : Z := 11000.
Definition AMSTERDAM_COLD_ACCOUNT_ACCESS : Z := 3000.
Definition AMSTERDAM_TX_VALUE_COST : Z := 4244.
Definition AMSTERDAM_TRANSFER_LOG_COST : Z := 1756.
Definition AMSTERDAM_ACCESS_LIST_ADDRESS : Z := 3000.
Definition AMSTERDAM_ACCESS_LIST_SLOT : Z := 3000.
Definition AMSTERDAM_ACCESS_LIST_ADDRESS_FLOOR : Z := 1280.
Definition AMSTERDAM_ACCESS_LIST_SLOT_FLOOR : Z := 2048.
Definition AMSTERDAM_AUTH_BASE : Z := 7816.
Definition AMSTERDAM_CALLDATA_FLOOR_BYTE : Z := 64.

Definition authorization_item_refund (v : Z) : outcome Z := BoundedUint 0 12500 v.
Definition authorization_refund (v : Z) : outcome Z := BoundedUint 0 13421772800000 v.
Definition amsterdam_recipient_cost (v : Z) : outcome Z := BoundedUint 0 12756 v.

(** ** Intrinsic gas *)

Record IntrinsicGasCost : Type := mkIntrinsicGas {
  ig_execution : Z;
  ig_state : Z;
  calldata_floor : Z;
}.

(** The zero and the non-zero bytes of the data. *)
Definition calldata_bytes (input : Slice) : M HostState (Z * Z) :=
  nonzeroes ← slice_count_nonzero input;
  if nonzeroes <=? input.(sl_len) then mret (input.(sl_len) - nonzeroes, nonzeroes)
  else of_outcome fatal_error.

Definition calldata_cost (input : Slice) : M HostState Z :=
  '(zeroes, nonzeroes) ← calldata_bytes input;
  of_outcome (transaction_calldata_cost (G_txdatazero * zeroes + G_txdatanonzero * nonzeroes)).

Definition legacy_intrinsic_gas (profile : ProtocolProfileFields) (tx : Transaction) :
    M HostState Z :=
  data_cost ← calldata_cost tx.(input_src);
  let address_cost := G_access_list_address * tx.(access_list).(address_count) in
  let slot_cost := G_access_list_storage_key * tx.(access_list).(slot_count) in
  let auth_cost := PER_EMPTY_ACCOUNT * tx.(authorizations).(ar_count) in
  let common := (((data_cost + G_transaction) + address_cost) + slot_cost) + auth_cost in
  of_outcome
    (if tx.(is_create) then
       initcode ← transaction_initcode_gas profile tx.(input_src).(sl_len);
       gas_cost ((common + G_txcreate) + initcode)
     else gas_cost common).

Definition legacy_calldata_floor (input : Slice) : M HostState Z :=
  '(zeroes, nonzeroes) ← calldata_bytes input;
  of_outcome (transaction_calldata_floor_cost ((10 * zeroes + 40 * nonzeroes) + G_transaction)).

Definition amsterdam_recipient_execution_cost (tx : Transaction) : outcome Z :=
  let transfers_value := word_nonzero tx.(tx_value) in
  amsterdam_recipient_cost
    (if tx.(is_create) then
       if transfers_value then AMSTERDAM_CREATE_ACCESS + AMSTERDAM_TRANSFER_LOG_COST
       else AMSTERDAM_CREATE_ACCESS
     else if negb (bool_decide (tx.(recipient) = tx.(tx_sender))) then
       if transfers_value
       then (AMSTERDAM_COLD_ACCOUNT_ACCESS + AMSTERDAM_TX_VALUE_COST) + AMSTERDAM_TRANSFER_LOG_COST
       else AMSTERDAM_COLD_ACCOUNT_ACCESS
     else 0).

Definition amsterdam_intrinsic_gas (profile : ProtocolProfileFields) (tx : Transaction) :
    M HostState IntrinsicGasCost :=
  recipient ← of_outcome (amsterdam_recipient_execution_cost tx);
  let input := tx.(input_src) in
  let addresses := tx.(access_list).(address_count) in
  let slots := tx.(access_list).(slot_count) in
  let access_execution :=
    ((AMSTERDAM_ACCESS_LIST_ADDRESS * addresses + AMSTERDAM_ACCESS_LIST_SLOT * slots) +
     AMSTERDAM_ACCESS_LIST_ADDRESS_FLOOR * addresses) + AMSTERDAM_ACCESS_LIST_SLOT_FLOOR * slots in
  let authorization_execution := AMSTERDAM_AUTH_BASE * tx.(authorizations).(ar_count) in
  create_execution ← of_outcome
    (if tx.(is_create) then transaction_initcode_gas profile input.(sl_len) else Ok 0);
  data_cost ← calldata_cost input;
  let execution := ((((data_cost + AMSTERDAM_TX_BASE) + recipient) + access_execution) +
                    authorization_execution) + create_execution in
  let floor := (((AMSTERDAM_CALLDATA_FLOOR_BYTE * input.(sl_len) + AMSTERDAM_TX_BASE) + recipient) +
                AMSTERDAM_ACCESS_LIST_ADDRESS_FLOOR * addresses) +
               AMSTERDAM_ACCESS_LIST_SLOT_FLOOR * slots in
  of_outcome (e ← gas_cost execution; f ← gas_cost floor; Ok (mkIntrinsicGas e 0 f)).

Definition intrinsic_gas (profile : ProtocolProfileFields) (tx : Transaction) :
    M HostState IntrinsicGasCost :=
  if fork profile <? Amsterdam then
    execution ← legacy_intrinsic_gas profile tx;
    floor ← legacy_calldata_floor tx.(input_src);
    of_outcome (e ← gas_cost execution; f ← gas_cost floor; Ok (mkIntrinsicGas e 0 f))
  else amsterdam_intrinsic_gas profile tx.

(** ** Costs *)

Record TransactionCosts : Type := mkTransactionCosts {
  intrinsic_execution : Z;
  intrinsic_state : Z;
  tc_calldata_floor : Z;
  blob_gas : Z;
  tc_blob_fee : Z;
  upfront : Z;
}.

Definition transaction_blob_fee (blob_price blob_gas : Z) : Z := blob_price * blob_gas.
Definition transaction_upfront_cost (max_fee gas_limit value max_blob_fee blob_gas : Z) : Z :=
  (max_fee * gas_limit + value) + max_blob_fee * blob_gas.

Definition transaction_costs (profile : ProtocolProfileFields) (tx : Transaction)
    (gas_limit excess_blob_gas_ : Z) : M HostState TransactionCosts :=
  intrinsic ← intrinsic_gas profile tx;
  let blob_gas := Z.shiftl 1 17 * tx.(tx_blob_hashes).(blob_count) in
  blob_fee_value ← of_outcome
    (if blob_gas =? 0 then Ok 0
     else
       blob_price ← blob_base_fee (fork profile) profile.(pp_blob_schedule)
                      profile.(excess_blob_gas_limit) excess_blob_gas_;
       if blob_price <=? tx.(max_blob_fee) then Ok (transaction_blob_fee blob_price blob_gas)
       else fatal_error);
  let upfront_value :=
    transaction_upfront_cost tx.(max_fee) gas_limit tx.(tx_value) tx.(max_blob_fee) blob_gas in
  of_outcome
    (if (blob_fee_value <? Z.shiftl 1 256) && (upfront_value <? Z.shiftl 1 256) then
       e ← gas_cost intrinsic.(ig_execution);
       s ← gas_cost intrinsic.(ig_state);
       f ← gas_cost intrinsic.(calldata_floor);
       b ← protocol_word blob_fee_value;
       u ← protocol_word upfront_value;
       Ok (mkTransactionCosts e s f blob_gas b u)
     else fatal_error).

Definition validated_word_product (value factor : Z) : outcome Z :=
  let product := value * factor in
  if product <? Z.shiftl 1 256 then w ← protocol_word product; word w else fatal_error.

(** ** Admitted gas *)

(** [TransactionGasAllowanceFields] with its validator. *)
Record TransactionGasAllowance : Type := mkAllowance { al_total : Z; al_regular : Z }.

Definition transaction_gas_allowance_fields (value regular_limit : Z) :
    outcome TransactionGasAllowance :=
  let regular := if value <? regular_limit then value else regular_limit in
  validated ((0 <=? regular) && ((regular <=? value) && (value <=? 2 ^ 64 - 1)))
    (mkAllowance value regular).

Definition transaction_gas_allowance (value total_limit regular_limit : Z) :
    outcome TransactionGasAllowance :=
  if total_limit <? value then fatal_error else transaction_gas_allowance_fields value regular_limit.

Record TransactionInitialGas : Type := mkInitialGas {
  admitted_limit : Z;
  regular_limit : Z;
  in_intrinsic_execution : Z;
  in_intrinsic_state : Z;
  in_calldata_floor : Z;
  execution_remaining : Z;
  state_remaining : Z;
}.

(** [transaction_initial_gas_relation], the constraint of the record. *)
Definition initial_gas_valid (g : TransactionInitialGas) : bool :=
  let e := g.(in_intrinsic_execution) in let s := g.(in_intrinsic_state) in
  (0 <=? e) && ((0 <=? s) && ((0 <=? g.(in_calldata_floor)) && ((e <=? g.(regular_limit)) &&
  ((g.(in_calldata_floor) <=? g.(regular_limit)) && ((g.(regular_limit) <=? g.(admitted_limit)) &&
  ((g.(admitted_limit) <=? 2 ^ 64 - 1) && ((0 <=? g.(execution_remaining)) &&
  ((0 <=? g.(state_remaining)) &&
  (((((g.(execution_remaining) + g.(state_remaining)) + e) + s) =? g.(admitted_limit)) &&
   (g.(execution_remaining) <=? g.(regular_limit) - e)))))))))).

Definition transaction_initial_gas_fields (g : TransactionInitialGas) :
    outcome TransactionInitialGas := validated (initial_gas_valid g) g.

(** The execution gas is what the regular limit leaves; the rest is state gas. *)
Definition transaction_initial_gas (allowance : TransactionGasAllowance)
    (intrinsic_execution intrinsic_state calldata_floor : Z) : outcome TransactionInitialGas :=
  if allowance.(al_total) <? intrinsic_execution then fatal_error
  else
    let after_execution := allowance.(al_total) - intrinsic_execution in
    if after_execution <? intrinsic_state then fatal_error
    else if (allowance.(al_regular) <? intrinsic_execution) ||
            (allowance.(al_regular) <? calldata_floor) then fatal_error
    else
      let available := after_execution - intrinsic_state in
      let regular_budget := allowance.(al_regular) - intrinsic_execution in
      let fields := mkInitialGas allowance.(al_total) allowance.(al_regular) intrinsic_execution
                      intrinsic_state calldata_floor in
      transaction_initial_gas_fields
        (if available <? regular_budget then fields available 0
         else fields regular_budget (available - regular_budget)).

Record TxFrameGasSnapshot : Type := mkSnapshot {
  fs_admitted_limit : Z;
  fs_regular_limit : Z;
  fs_calldata_floor : Z;
  remaining : Z;
  state_used : Z;
}.

(** [tx_frame_gas_snapshot_relation] *)
Definition snapshot_valid (f : TxFrameGasSnapshot) : bool :=
  let l := f.(fs_admitted_limit) in let r := f.(fs_regular_limit) in
  (0 <=? r) && ((r <=? l) && ((l <=? 2 ^ 64 - 1) && ((0 <=? f.(fs_calldata_floor)) &&
  ((f.(fs_calldata_floor) <=? r) && ((0 <=? f.(remaining)) && ((0 <=? f.(state_used)) &&
  ((f.(state_used) <=? l) && ((f.(remaining) + f.(state_used) <=? l) &&
   ((l - f.(remaining)) - f.(state_used) <=? r))))))))).

Definition tx_frame_gas_snapshot_fields (f : TxFrameGasSnapshot) : outcome TxFrameGasSnapshot :=
  validated (snapshot_valid f) f.

(** What a frame has left and the state gas it used, a negative one for zero. *)
Definition tx_frame_gas_snapshot (initial : TransactionInitialGas) (execution state state_delta : Z) :
    outcome TxFrameGasSnapshot :=
  let limit := initial.(admitted_limit) in
  let regular := initial.(regular_limit) in
  if execution <=? limit then
    let room := limit - execution in
    if state <=? room then
      let remaining := execution + state in
      let spent := limit - remaining in
      let raw_state_used := initial.(in_intrinsic_state) + state_delta in
      let fields := mkSnapshot limit regular initial.(in_calldata_floor) remaining in
      if raw_state_used <=? 0 then
        if spent <=? regular then tx_frame_gas_snapshot_fields (fields 0) else fatal_error
      else if raw_state_used <=? spent then
        if spent - raw_state_used <=? regular
        then tx_frame_gas_snapshot_fields (fields raw_state_used) else fatal_error
      else fatal_error
    else fatal_error
  else fatal_error.

Record TxFrameResult : Type := mkTxFrameResult {
  fr_success : bool;
  fr_gas : TxFrameGasSnapshot;
  fr_refund : Z;
}.

(** [TxFrameResultFields] with its validators. *)
Definition tx_frame_result (initial : TransactionInitialGas) (success : bool)
    (snapshot : outcome TxFrameGasSnapshot) (refund : Z) : outcome TxFrameResult :=
  validated ((0 <=? initial.(regular_limit)) && ((initial.(regular_limit) <=? initial.(admitted_limit)) &&
    (initial.(admitted_limit) <=? 2 ^ 64 - 1))) tt;;
  g ← snapshot;
  validated ((- (199 * (2 ^ 64 - 1)) <=? refund) && (refund <=? 199 * (2 ^ 64 - 1)))
    (mkTxFrameResult success g refund).

Record TxValidity : Type := mkTxValidity {
  v_sender : address;
  nonce_before : Z;
  v_gas : TransactionInitialGas;
  v_blob_fee : Z;
  gas_price : Z;
  priority_fee : Z;
}.

Definition tx_validity_fields (sender : address) (nonce_before : Z) (g : TransactionInitialGas)
    (blob_fee gas_price priority_fee : Z) : outcome TxValidity :=
  validated (initial_gas_valid g) tt;;
  sender ← Bytes20 sender;
  nonce_before ← Uint nonce_before;
  blob_fee ← word blob_fee;
  gas_price ← word gas_price;
  priority_fee ← word priority_fee;
  Ok (mkTxValidity sender nonce_before g blob_fee gas_price priority_fee).

(** ** Receipts *)

Record LogSeriesRef : Type := mkLogSeries { ls_start : Z; ls_count : Z }.
Record Receipt : Type := mkReceipt {
  rc_tx_type : TxType;
  rc_success : bool;
  gas_used : Z;
  execution_gas : Z;
  state_gas : Z;
  rc_logs : LogSeriesRef;
}.

(** [receipt_fields] with the constraint of [ReceiptFieldsValidity]. *)
Definition receipt_within (limit regular_limit : Z) (r : Receipt) : outcome Receipt :=
  validated ((0 <=? limit) && ((limit <=? 2 ^ 64 - 1) && ((0 <=? regular_limit) &&
    ((regular_limit <=? limit) && ((0 <=? r.(gas_used)) && ((r.(gas_used) <=? limit) &&
    ((0 <=? r.(execution_gas)) && ((r.(execution_gas) <=? regular_limit) &&
    ((0 <=? r.(state_gas)) && ((r.(state_gas) <=? limit) &&
     (r.(gas_used) <=? r.(execution_gas) + r.(state_gas)))))))))))) r.

(** [read_logs] of [kernel/logs.py] *)
Definition read_logs : M SpecState LogSeriesRef :=
  start ← on_host logs_tx_start;
  count ← on_host logs_tx_count;
  of_outcome (s ← Uint start; c ← Uint count; Ok (mkLogSeries s c)).

(** ** Fees *)

(** What the transaction pays for a unit of gas, and the part above the base
    fee. *)
Definition eff_gas_price_for (base_fee max_fee max_priority_fee : Z) : outcome (Z * Z) :=
  price ←
    (if word_ule max_fee base_fee then Ok max_fee
     else
       available_priority ← word_sub_word max_fee base_fee;
       if word_ule max_priority_fee available_priority then word_add_word base_fee max_priority_fee
       else Ok max_fee);
  priority ← (if word_ule base_fee price then word_sub_word price base_fee else Ok ZERO_WORD);
  Ok (price, priority).

(** What is left after the refund, up to its cap. *)
Definition remaining_gas_after_refund (total remaining cap : Z) : Z :=
  remaining + (if total <=? 0 then 0 else if total <=? cap then total else cap).

Section transaction.
Context `{Keccak} `{StateTrie} `{AccelLib}.

(** ** Authorizations *)

(** Whether an authorization is signed for this chain. *)
Definition authorization_applies (au : Authorization) : M SpecState bool :=
  e ← gets sp_env;
  expected_chain_id ← of_outcome (Uint e.(k_chain_id));
  mret (au.(valid_sig) && (word_is_zero au.(au_chain_id) || (au.(au_chain_id) =? expected_chain_id))).

(** Whether the authority may delegate now: it has no code of its own and the
    nonce that was signed; and whether it is delegated already. *)
Definition authority_ready (au : Authorization) : M SpecState (bool * bool) :=
  let authority := au.(authority) in
  k_account_mark_warm authority;;
  '(is_deleg, _) ← k_deleg_target authority;
  code_key ← k_code_key authority;
  nonce ← k_get_nonce authority;
  mret ((bool_decide (code_key = KECCAK_EMPTY) || is_deleg) && (nonce =? au.(au_nonce)), is_deleg).

(** The delegation is written, or cleared by the zero address, and the nonce
    used. *)
Definition delegate (au : Authorization) : M SpecState unit :=
  (if bool_decide (au.(au_address) = ZERO_ADDRESS) then k_clear_code au.(authority)
   else k_set_delegation au.(authority) au.(au_address));;
  k_bump_nonce au.(authority).

Definition process_auth (au : Authorization) : M SpecState Z :=
  applies ← authorization_applies au;
  refund ←
    (if applies : bool then
       '(ready, _) ← authority_ready au;
       if ready : bool then
         existed ← k_account_exists au.(authority);
         delegate au;;
         mret (if existed : bool then PER_EMPTY_ACCOUNT - PER_AUTH_BASE else 0)
       else mret 0
     else mret 0);
  of_outcome (authorization_item_refund refund).

Definition authorization_refund_add (item accumulated : Z) : outcome Z :=
  if accumulated <=? 12500 * Z.shiftl 1 30 - item then authorization_refund (item + accumulated)
  else fatal_error.

(** The prepared list holds as many entries as its count. *)
Fixpoint process_auth_cursor (l : PreparedAuthorizationList) (count : nat) : M SpecState Z :=
  match count with
  | O => of_outcome (authorization_refund 0)
  | S count' =>
      authorization ← of_outcome (prepared_authorization_head l);
      remaining ← of_outcome (prepared_authorization_tail l (Z.of_nat count));
      item_refund ← process_auth authorization;
      remaining_refund ← process_auth_cursor remaining count';
      of_outcome (r ← authorization_refund_add item_refund remaining_refund; authorization_refund r)
  end.

Definition process_auth_list (l : PreparedAuthorizationList) : M SpecState Z :=
  r ← process_auth_cursor l (Z.to_nat l.(pa_count)); of_outcome (authorization_refund r).

(** Whether it went through, and the gas, state gas and spill left. *)
Definition AuthResult : Type := bool * Z * Z * Z.

(** A charge of state gas that ends the call when it cannot be paid. *)
Definition state_charge_when {R} (due : bool) (g s p amount : Z) (early : Z → Z → Z → R)
    (k : Z → Z → Z → M SpecState R) : M SpecState R :=
  if due then
    '(halt, g, s, p) ← of_outcome (charge_state_gas g s p amount);
    if halt : bool then mret (early g s p) else k g s p
  else k g s p.

Definition process_amsterdam_auth (au : Authorization) (sender current_target : address)
    (transfers_value : bool) (g s p : Z) : M SpecState AuthResult :=
  let authority := au.(authority) in
  applies ← authorization_applies au;
  if negb applies then mret (true, g, s, p)
  else
    '(ready, currently_delegated) ← authority_ready au;
    if negb ready then mret (true, g, s, p)
    else
      seen ← on_host (authorization_tracker_seen authority);
      delegated_before_tx ←
        (if seen : bool then on_host (authorization_tracker_originally_delegated authority)
         else mret currently_delegated);
      let already_written := seen || (bool_decide (authority = sender) ||
        (transfers_value && bool_decide (authority = current_target))) in
      account_exists ← k_account_exists authority;
      let failed g s p : AuthResult := (false, g, s, p) in
      state_charge_when (negb account_exists) g s p G_amsterdam_state_new_account failed (λ g s p,
        (λ k : Z → M SpecState AuthResult,
           if negb already_written then
             if g <? G_amsterdam_account_write then mret (false, GAS_ZERO, s, p)
             else g ← of_outcome (v ← gas_sub g G_amsterdam_account_write; gas v); k g
           else k g) (λ g,
          delegation_set ← on_host (authorization_tracker_delegation_set authority);
          let creates_delegation := negb (bool_decide (au.(au_address) = ZERO_ADDRESS)) in
          state_charge_when
            (creates_delegation && (negb delegated_before_tx && negb delegation_set))
            g s p G_amsterdam_state_auth_base failed (λ g s p,
              delegate au;;
              on_host (authorization_tracker_commit authority
                (negb seen && currently_delegated) creates_delegation);;
              mret (true, g, s, p)))).

Fixpoint process_amsterdam_auth_cursor (l : PreparedAuthorizationList) (count : nat)
    (sender current_target : address) (transfers_value : bool) (g s p : Z) :
    M SpecState AuthResult :=
  match count with
  | O => mret (true, g, s, p)
  | S count' =>
      authorization ← of_outcome (prepared_authorization_head l);
      remaining ← of_outcome (prepared_authorization_tail l (Z.of_nat count));
      '(processed, g, s, p) ←
        process_amsterdam_auth authorization sender current_target transfers_value g s p;
      if processed : bool
      then process_amsterdam_auth_cursor remaining count' sender current_target transfers_value g s p
      else mret (false, g, s, p)
  end.

(** ** Warming *)

Definition warm_access_list_keys (cursor : Slice) (addr : address) : M SpecState unit :=
  decode_all (λ _ _, mret tt)
    (λ x _ key next rec,
       slot ← zoom (rlp_decode_word key);
       k_prewarm_slot addr slot;; rec x next) tt cursor.

Definition warm_access_list : Slice → M SpecState unit :=
  decode_all (λ _ _, mret tt)
    (λ x _ entry next rec,
       '(addr_f, keys_f) ← zoom (access_list_entry entry);
       addr ← zoom (rlp_decode_address addr_f);
       k_account_mark_warm addr;;
       keys ← of_outcome (rlp_decode_list keys_f);
       warm_access_list_keys keys addr;; rec x next) tt.

Definition prewarm (tx : Transaction) : M SpecState unit :=
  profile ← get_profile;
  k_account_mark_warm tx.(tx_sender);;
  when (negb tx.(is_create)) (k_account_mark_warm tx.(recipient));;
  when (Shanghai <=? fork profile) (coinbase ← k_coinbase; k_account_mark_warm coinbase);;
  warm_access_list tx.(access_list).(al_encoded).

(** ** Checks *)

(** The signature is that of the sender; a legacy one commits to no chain or
    to this one. *)
Definition authenticate_transaction (tx : Transaction) : M SpecState unit :=
  e ← gets sp_env;
  let semantics := tx_type_semantics tx.(tx_type) in
  parity ← of_outcome (tx_signature_parity e.(k_chain_id) semantics.(signature) tx.(sig_v));
  authenticated ← of_outcome
    (tx_auth_valid tx.(tx_sender) tx.(signing_hash) parity tx.(sig_r) tx.(sig_s));
  fatal_when (negb authenticated).

(** Every check after that of the signature, in the order of the code. *)
Definition admit_transaction (tx : Transaction) (allowance : TransactionGasAllowance) :
    M SpecState TxValidity :=
  profile ← get_profile;
  e ← gets sp_env;
  let semantics := tx_type_semantics tx.(tx_type) in
  let header := e.(k_header) in
  let gas_limit := allowance.(al_total) in
  '(eff_gas_price, eff_priority_fee) ← of_outcome
    (eff_gas_price_for header.(bh_base_fee) tx.(max_fee) tx.(max_priority_fee));
  let sender := tx.(tx_sender) in
  let input_len := tx.(input_src).(sl_len) in
  nonce_before ← k_get_nonce sender;
  costs ← zoom (transaction_costs profile tx gas_limit header.(bh_excess_blob_gas));
  expected_nonce ← of_outcome (Uint nonce_before);
  fatal_when (negb (tx.(tx_nonce) =? expected_nonce));;
  '(sender_deleg, _) ← k_deleg_target sender;
  fatal_when (semantics.(ts_blob) && ((fork profile <? Cancun) ||
    ((tx.(tx_blob_hashes).(blob_count) =? 0) || tx.(is_create))));;
  fatal_when ((Prague <=? fork profile) && (gas_limit <? costs.(tc_calldata_floor)));;
  sender_balance ← k_get_balance sender;
  fatal_when (negb (word_ule costs.(upfront) sender_balance));;
  sender_code_key ← k_code_key sender;
  fatal_when (negb (bool_decide (sender_code_key = KECCAK_EMPTY) || sender_deleg));;
  fatal_when (allowance.(al_regular) <? costs.(tc_calldata_floor));;
  fatal_when (negb (word_ule header.(bh_base_fee) tx.(max_fee)));;
  fatal_when (tx.(is_create) && negb (initcode_size_allowed profile input_len));;
  fatal_when (negb (word_ule tx.(max_priority_fee) tx.(max_fee)));;
  fatal_when (fork profile <? semantics.(minimum_fork));;
  fatal_when (semantics.(set_code) && tx.(is_create));;
  fatal_when (semantics.(set_code) && (tx.(authorizations).(ar_count) =? 0));;
  fatal_when (bool_decide (semantics.(signature) = TypedSignature) &&
    negb (tx.(tx_chain_id) =? e.(k_chain_id)));;
  fatal_when (nonce_before =? Z.shiftl 1 64 - 1);;
  initial_gas ← of_outcome (transaction_initial_gas allowance costs.(intrinsic_execution)
    costs.(intrinsic_state) costs.(tc_calldata_floor));
  of_outcome (tx_validity_fields sender nonce_before initial_gas costs.(tc_blob_fee)
    eff_gas_price eff_priority_fee).

Definition check_transaction_validity (tx : Transaction) (allowance : TransactionGasAllowance) :
    M SpecState TxValidity :=
  authenticate_transaction tx;; admit_transaction tx allowance.

(** ** What is paid before the frame *)

Record TxUpfrontResult : Type := mkUpfront {
  up_authorization_refund : Z;
  create_target_prestate_empty : bool;
}.

Definition apply_transaction_upfront_effects (tx : Transaction) (v : TxValidity)
    (authorizations : PreparedAuthorizationList) : M SpecState TxUpfrontResult :=
  profile ← get_profile;
  prestate_empty ←
    (if (Amsterdam <=? fork profile) && tx.(is_create) then
       create_target ← k_create_addr v.(v_sender) v.(nonce_before);
       target_exists ← k_account_exists create_target; mret (negb target_exists)
     else mret false);
  gas_debit ← of_outcome (validated_word_product v.(gas_price) v.(v_gas).(admitted_limit));
  k_sub_balance v.(v_sender) gas_debit;;
  when (word_nonzero v.(v_blob_fee)) (k_sub_balance v.(v_sender) v.(v_blob_fee));;
  k_bump_nonce v.(v_sender);;
  prewarm tx;;
  refund ← (if fork profile <? Amsterdam then process_auth_list authorizations else mret 0);
  refund ← of_outcome (authorization_refund refund);
  mret (mkUpfront refund prestate_empty).

(** ** Frames *)

(** The frame of a transaction: nothing has run in it. *)
Definition transaction_frame (g s p refund : Z) (stack : StackPointer) (base height : Z)
    (caller a code_address : address) (value reservoir : Z) (code : Code) (calldata : CalldataSlice) :
    FrameTransition :=
  mkFrame 0 g s p refund Running stack base height
    (mkMessage caller code_address a value reservoir false 0) code calldata EMPTY_OUTPUT_SLICE.

Definition interpreted (fuel : nat) (f : FrameTransition) : M SpecState InterpretResult :=
  r ← interpret fuel f;
  match r with Some r => mret r | None => raise (RuntimeError "out of fuel") end.

(** Gas, state gas, spill, refund, stack and memory at the entry. *)
Definition enter_transaction_frame (v : TxValidity) :
    M SpecState (Z * Z * Z * Z * StackPointer * Z * Z) :=
  stack ← stack_reset;
  mret (v.(v_gas).(execution_remaining), v.(v_gas).(state_remaining), STATE_GAS_SPILL_ZERO, 0, stack,
        MEMORY_BASE_ZERO, MEMORY_HEIGHT_ZERO).

Definition transaction_initcode_slice (input : Slice) : M HostState Slice :=
  input_slice ← of_outcome (stateless_input_slice input.(sl_bytes) input.(sl_len));
  code_db_intern_input input_slice.

(** The analysed init code of a creation. *)
Definition transaction_initcode (input : Slice) : M SpecState Code :=
  profile ← get_profile;
  initcode ← zoom (transaction_initcode_slice input);
  code_id ← zoom (code_db_insert initcode (fork profile));
  zoom (code_db_resolve code_id).

(** A frame that ends exceptionally: the gas is gone. *)
Definition frame_fails (s p reservoir refund kind : Z) (output : Slice) : M SpecState InterpretResult :=
  ex ← exceptional_state s p reservoir kind;
  of_outcome (s ← gas ex.(ex_state_gas_remaining); p ← state_gas_spill ex.(ex_state_gas_spilled);
              Ok (GAS_ZERO, s, p, refund, ex.(ex_status), output)).

(** The deposit of the code a creation returned. *)
Definition deploy_transaction_output (new_addr : address) (reservoir : Z) (r : InterpretResult) :
    M SpecState InterpretResult :=
  profile ← get_profile;
  let '(g, s, p, refund, status, output) := r in
  let deployed_length := output.(sl_len) in
  let fails s p := frame_fails s p reservoir refund OutOfGas output in
  let valid_deployed_size := deployed_code_size_allowed profile deployed_length in
  valid_prefix ←
    (if (fork profile <? London) || (deployed_length =? 0) then mret true
     else first_byte ← zoom (output_byte output 0); mret (negb (first_byte =? 0xef)));
  if valid_deployed_size && valid_prefix then
    deployment_charge ← of_outcome (code_deployment_execution_cost profile deployed_length g);
    if deployment_charge.(affordable) then
      g ← of_outcome (v ← gas_sub g deployment_charge.(cost); gas v);
      state_deposit ← of_outcome (code_deployment_state_cost profile deployed_length);
      '(deployment_halt, g, s, p) ← of_outcome (charge_state_gas g s p state_deposit);
      if deployment_halt : bool then fails s p
      else
        when (frame_succeeded status)
          (stored_code ← zoom (code_db_intern_output output); k_deploy_code new_addr stored_code);;
        mret (g, s, p, refund, status, output)
    else if fork profile <? Homestead then
      k_deploy_code new_addr EMPTY_CODE_SLICE;; mret (GAS_ZERO, s, p, refund, status, output)
    else fails s p
  else fails s p.

Definition run_create_transaction_frame (fuel : nat) (tx : Transaction) (sender : address)
    (nonce_before g s p refund : Z) (stack : StackPointer) (base height : Z) (code : Code)
    (calldata : CalldataSlice) (reservoir : Z) : M SpecState InterpretResult :=
  profile ← get_profile;
  new_addr ← k_create_addr sender nonce_before;
  k_account_mark_warm new_addr;;
  occupied ← k_account_occupied new_addr;
  if occupied : bool then frame_fails s p reservoir refund AddressCollision EMPTY_OUTPUT_SLICE
  else
    k_mark_created new_addr;;
    k_clear_storage new_addr;;
    k_bump_nonce new_addr;;
    when (word_nonzero tx.(tx_value)) (k_transfer sender new_addr tx.(tx_value));;
    '(frame_code, frame_calldata) ←
      (if fork profile <? Amsterdam
       then c ← transaction_initcode tx.(input_src); mret (c, EMPTY_CALLDATA)
       else mret (code, calldata));
    r ← interpreted fuel (transaction_frame g s p refund stack base height sender new_addr new_addr
          tx.(tx_value) reservoir frame_code frame_calldata);
    let '(_, _, _, _, status, _) := r in
    if frame_succeeded status then deploy_transaction_output new_addr reservoir r else mret r.

Definition run_call_transaction_frame (fuel : nat) (tx : Transaction) (sender : address)
    (delegated : bool) (g s p refund : Z) (stack : StackPointer) (base height : Z)
    (code_address : address) (code : Code) (calldata : CalldataSlice) (reservoir : Z) :
    M SpecState InterpretResult :=
  profile ← get_profile;
  let fails := frame_fails s p reservoir refund OutOfGas EMPTY_OUTPUT_SLICE in
  k_aload tx.(recipient);;
  when (word_nonzero tx.(tx_value)) (k_transfer sender tx.(recipient) tx.(tx_value));;
  let selected := precompile_id_for_address profile tx.(recipient) in
  if negb delegated && negb (bool_decide (selected = NotPrecompile)) then
    let input := InputCalldata tx.(input_src) in
    precompile_charge ← zoom (precompile_gas profile selected input g);
    if precompile_charge.(affordable) then
      result ← run_precompile_slice selected input;
      if result.(pr_success) then
        g ← of_outcome (v ← gas_sub g precompile_charge.(cost); gas v);
        mret (g, s, p, refund, Halted (HaltReturn result.(pr_output)), result.(pr_output))
      else fails
    else fails
  else
    '(code_address, frame_code, frame_calldata) ←
      (if fork profile <? Amsterdam then
         code_address ← of_outcome (Bytes20 tx.(recipient));
         '(tx_deleg, tx_dtgt) ← k_deleg_target tx.(recipient);
         when tx_deleg (k_account_mark_warm tx_dtgt;; k_aload tx_dtgt;; mret tt);;
         code_address ← (if tx_deleg : bool then of_outcome (Bytes20 tx_dtgt) else mret code_address);
         code ← executable_code tx.(recipient) tx_deleg tx_dtgt;
         mret (code_address, code, InputCalldata tx.(input_src))
       else mret (code_address, code, calldata));
    interpreted fuel (transaction_frame g s p refund stack base height sender tx.(recipient)
      code_address tx.(tx_value) reservoir frame_code frame_calldata).

(** A frame's effects are kept when it succeeded, and its refund. *)
Definition close_frame (success : bool) : M SpecState unit :=
  if success then k_journal_commit else k_journal_revert.

Definition run_legacy_transaction_frame (fuel : nat) (tx : Transaction) (v : TxValidity) :
    M SpecState TxFrameResult :=
  k_journal_checkpoint;;
  '(g, s, p, refund, stack, base, height) ← enter_transaction_frame v;
  let reservoir := s in
  '(g, s, p, refund, status, _) ←
    (if tx.(is_create)
     then run_create_transaction_frame fuel tx v.(v_sender) v.(nonce_before) g s p refund stack base
            height EMPTY_CODE EMPTY_CALLDATA reservoir
     else run_call_transaction_frame fuel tx v.(v_sender) false g s p refund stack base height
            tx.(recipient) EMPTY_CODE EMPTY_CALLDATA reservoir);
  let success := frame_succeeded status in
  close_frame success;;
  let state_delta := frame_state_gas_used reservoir s p in
  of_outcome (tx_frame_result v.(v_gas) success (tx_frame_gas_snapshot v.(v_gas) g s state_delta)
    (if success then refund else 0)).

(** ** The frame from Amsterdam on *)

(** Whether it goes on, and with what: the gas left, the code and its address. *)
Record Dispatch : Type := mkDispatch {
  d_ready : bool;
  d_delegated : bool;
  d_gas : Z;
  d_state_gas : Z;
  d_spill : Z;
  d_code_address : address;
  d_code : Code;
  d_calldata : CalldataSlice;
}.

Definition prepare_amsterdam_transaction_dispatch (tx : Transaction) (v : TxValidity)
    (up : TxUpfrontResult) (g s p : Z) : M SpecState Dispatch :=
  profile ← get_profile;
  current_target ←
    (if tx.(is_create) then k_create_addr v.(v_sender) v.(nonce_before) else mret tx.(recipient));
  if tx.(is_create) then
    state_charge_when up.(create_target_prestate_empty) g s p G_amsterdam_state_new_account
      (λ g s p, mkDispatch false false g s p current_target EMPTY_CODE EMPTY_CALLDATA)
      (λ g s p,
         code ← transaction_initcode tx.(input_src);
         mret (mkDispatch true false g s p current_target code EMPTY_CALLDATA))
  else
    let calldata := InputCalldata tx.(input_src) in
    recipient_empty ← k_account_is_empty tx.(recipient);
    state_charge_when (word_nonzero tx.(tx_value) && recipient_empty) g s p
      G_amsterdam_state_new_account
      (λ g s p, mkDispatch false false g s p current_target EMPTY_CODE calldata)
      (λ g s p,
         '(delegated, delegate) ← k_deleg_target tx.(recipient);
         (λ k : Z → M SpecState Dispatch,
            if delegated : bool then
              warm ← k_account_is_warm delegate;
              access_cost ← of_outcome (account_cost profile warm);
              if g <? access_cost
              then mret (mkDispatch false false GAS_ZERO s p current_target EMPTY_CODE calldata)
              else
                g ← of_outcome (v ← gas_sub g access_cost; gas v);
                k_account_mark_warm delegate;; k g
            else k g) (λ g,
           let code_address := if delegated : bool then delegate else current_target in
           code ← executable_code tx.(recipient) delegated delegate;
           mret (mkDispatch true delegated g s p code_address code calldata))).

(** The frame after its preparation: a journal frame of its own inside that
    of the preparation. *)
Definition run_prepared_frame (fuel : nat) (tx : Transaction) (v : TxValidity) (d : Dispatch)
    (refund : Z) (stack : StackPointer) (base height authorization_state_gas reservoir : Z) :
    M SpecState TxFrameResult :=
  k_journal_checkpoint;;
  '(g, s, p, refund, status, _) ←
    (if tx.(is_create)
     then run_create_transaction_frame fuel tx v.(v_sender) v.(nonce_before) d.(d_gas)
            d.(d_state_gas) d.(d_spill) refund stack base height d.(d_code) d.(d_calldata) reservoir
     else run_call_transaction_frame fuel tx v.(v_sender) d.(d_delegated) d.(d_gas) d.(d_state_gas)
            d.(d_spill) refund stack base height d.(d_code_address) d.(d_code) d.(d_calldata)
            reservoir);
  let success := frame_succeeded status in
  close_frame success;;
  k_journal_commit;;
  let execution_state_delta := frame_state_gas_used reservoir s p in
  let state_delta := authorization_state_gas + execution_state_delta in
  of_outcome (tx_frame_result v.(v_gas) success (tx_frame_gas_snapshot v.(v_gas) g s state_delta)
    (if success then refund else 0)).

Definition run_amsterdam_transaction_frame (fuel : nat) (tx : Transaction) (v : TxValidity)
    (up : TxUpfrontResult) (authorizations : PreparedAuthorizationList) : M SpecState TxFrameResult :=
  '(g, s, p, refund, stack, base, height) ← enter_transaction_frame v;
  k_journal_checkpoint;;
  let preparation_reservoir := s in
  current_target ←
    (if tx.(is_create) then k_create_addr v.(v_sender) v.(nonce_before) else mret tx.(recipient));
  on_host (authorization_tracker_reset authorizations.(pa_count));;
  let transfers_value := word_nonzero tx.(tx_value) in
  '(ready, g, s, p) ←
    process_amsterdam_auth_cursor authorizations (Z.to_nat authorizations.(pa_count)) v.(v_sender)
      current_target transfers_value g s p;
  let unprepared :=
    k_journal_revert;;
    of_outcome (tx_frame_result v.(v_gas) false
      (tx_frame_gas_snapshot v.(v_gas) GAS_ZERO STATE_GAS_ZERO 0) 0) in
  if negb ready then unprepared
  else
    let authorization_state_gas := frame_state_gas_used preparation_reservoir s p in
    reservoir ← of_outcome (gas s);
    d ← prepare_amsterdam_transaction_dispatch tx v up g s STATE_GAS_SPILL_ZERO;
    code_address ← of_outcome (Bytes20 d.(d_code_address));
    if negb d.(d_ready) then unprepared
    else run_prepared_frame fuel tx v
           (mkDispatch true d.(d_delegated) d.(d_gas) d.(d_state_gas) d.(d_spill) code_address
              d.(d_code) d.(d_calldata))
           refund stack base height authorization_state_gas reservoir.

Definition run_transaction_frame (fuel : nat) (tx : Transaction) (v : TxValidity)
    (up : TxUpfrontResult) (authorizations : PreparedAuthorizationList) : M SpecState TxFrameResult :=
  profile ← get_profile;
  if Amsterdam <=? fork profile
  then run_amsterdam_transaction_frame fuel tx v up authorizations
  else run_legacy_transaction_frame fuel tx v.

(** ** Settlement *)

(** The gas that counts for the receipt: used, regular and state. *)
Record SettledGas : Type := mkSettledGas {
  sg_used : Z;
  sg_left : Z;
  sg_execution : Z;
  sg_state : Z;
}.

Definition settled_gas (profile : ProtocolProfileFields) (snapshot : TxFrameGasSnapshot)
    (total_refund : Z) : outcome SettledGas :=
  let gas_limit := snapshot.(fs_admitted_limit) in
  let gas_left := snapshot.(remaining) in
  refund_cap ← sail_ediv_int (gas_limit - gas_left) profile.(refund_divisor);
  let gas_left := remaining_gas_after_refund total_refund gas_left refund_cap in
  let gas_used1 := gas_limit - gas_left in
  let floor := if Prague <=? fork profile then snapshot.(fs_calldata_floor) else 0 in
  let gas_used := if gas_used1 <? floor then floor else gas_used1 in
  let tx_state_gas := snapshot.(state_used) in
  let unrefunded_execution_gas := (gas_limit - snapshot.(remaining)) - tx_state_gas in
  let execution_gas := if unrefunded_execution_gas <? floor then floor else unrefunded_execution_gas in
  Ok (mkSettledGas gas_used (gas_limit - gas_used) execution_gas tx_state_gas).

Definition settle_transaction (tx : Transaction) (v : TxValidity) (authorization_refund_ : Z)
    (fr : TxFrameResult) : M SpecState Receipt :=
  profile ← get_profile;
  let snapshot := fr.(fr_gas) in
  settled ← of_outcome (settled_gas profile snapshot (authorization_refund_ + fr.(fr_refund)));
  sender_refund ← of_outcome (validated_word_product v.(gas_price) settled.(sg_left));
  k_add_balance v.(v_sender) sender_refund;;
  coinbase ← k_coinbase;
  priority_payment ← of_outcome (validated_word_product v.(priority_fee) settled.(sg_used));
  k_add_balance coinbase priority_payment;;
  k_tx_merge;;
  logs ← read_logs;
  of_outcome
    (if settled.(sg_used) <=? settled.(sg_execution) + settled.(sg_state) then
       receipt_within snapshot.(fs_admitted_limit) snapshot.(fs_regular_limit)
         (mkReceipt tx.(tx_type) fr.(fr_success) settled.(sg_used) settled.(sg_execution)
            settled.(sg_state) logs)
     else fatal_error).

Definition process_transaction (fuel : nat) (tx : Transaction) (allowance : TransactionGasAllowance) :
    M SpecState Receipt :=
  k_tx_reset;;
  validity ← check_transaction_validity tx allowance;
  prepared ← prepare_authorizations tx.(authorizations);
  k_set_tx (mkTxEnv tx.(tx_sender) validity.(gas_price) tx.(tx_blob_hashes));;
  up ← apply_transaction_upfront_effects tx validity prepared;
  frame_result ← run_transaction_frame fuel tx validity up prepared;
  settle_transaction tx validity up.(up_authorization_refund) frame_result.
End transaction.
