(* ===== verification/GasSettlement.v ===== *)
(** * GasSettlement: the gas of a transaction from admission to receipt

    What a transaction is admitted with, what its frame leaves and what is
    settled, as closed formulas: the amounts always add up to the limit, the
    validators of the records never refuse what the code builds, and the
    receipt can always be written. *)

From Stdlib Require Import ZArith Lia.
From stdpp Require Import base tactics option list.
From S2P Require Import Prelude PyBytes HostTypes SailRuntime Words WordTheorems ChainConfig Regions RegionFacts RegionAccess Gas GasSchedule GasTheorems Environment TxCodec Transaction.
Local Open Scope Z_scope.

(** Turns the tests of a validator into inequalities, and back. *)
Ltac bools_to_Z := rewrite ?andb_true_iff, ?orb_true_iff, ?Z.leb_le, ?Z.ltb_lt, ?Z.eqb_eq in *.

(** ** Admission *)

(** An allowance the validator accepts. *)
Definition allowance_wf (a : TransactionGasAllowance) : Prop :=
  0 <= a.(al_regular) <= a.(al_total) ∧ a.(al_total) <= U64_MAX.

Lemma allowance_exact v total regular :
  0 <= v <= U64_MAX → 0 <= regular →
  transaction_gas_allowance v total regular =
  if total <? v then fatal_error else Ok (mkAllowance v (Z.min v regular)).
Proof.
  intros Hv Hr. unfold transaction_gas_allowance, transaction_gas_allowance_fields.
  destruct (Z.ltb_spec total v); [done|].
  replace (if v <? regular then v else regular) with (Z.min v regular)
    by (destruct (Z.ltb_spec v regular); lia).
  unfold U64_MAX in *. rewrite !(proj2 (Z.leb_le _ _)) by lia. done.
Qed.

Definition initial_gas_wf (g : TransactionInitialGas) : Prop :=
  let e := g.(in_intrinsic_execution) in let s := g.(in_intrinsic_state) in
  0 <= e <= g.(regular_limit) ∧ 0 <= s ∧ 0 <= g.(in_calldata_floor) <= g.(regular_limit) ∧
  g.(regular_limit) <= g.(admitted_limit) <= U64_MAX ∧
  0 <= g.(execution_remaining) <= g.(regular_limit) - e ∧ 0 <= g.(state_remaining) ∧
  g.(execution_remaining) + g.(state_remaining) + e + s = g.(admitted_limit).

Lemma initial_gas_valid_iff g : initial_gas_valid g = true ↔ initial_gas_wf g.
Proof.
  unfold initial_gas_valid, initial_gas_wf, U64_MAX. cbv zeta. bools_to_Z. intuition lia.
Qed.

(** C16: the gas of an admitted transaction. It is admitted exactly when its
    intrinsic gas is within the limit, and the intrinsic execution gas and the
    calldata floor within the regular limit; then what remains is split
    between execution gas, as much as the regular limit leaves, and state gas,
    so that with the intrinsic gas it adds up to the limit. The validator
    refuses nothing; everything else is the fatal error. *)
Theorem admitted_gas_exact (a : TransactionGasAllowance) (e s floor : Z) :
  allowance_wf a → 0 <= e → 0 <= s → 0 <= floor →
  let available := a.(al_total) - e - s in
  let execution := Z.min available (a.(al_regular) - e) in
  transaction_initial_gas a e s floor =
  if (0 <=? available) && ((e <=? a.(al_regular)) && (floor <=? a.(al_regular)))
  then Ok (mkInitialGas a.(al_total) a.(al_regular) e s floor execution (available - execution))
  else Raise SailExit.
Proof.
  intros [Ha Hu] He Hs Hf. cbv zeta. unfold transaction_initial_gas.
  set (t := al_total a) in *. set (r := al_regular a) in *.
  destruct (Z.ltb_spec t e).
  { rewrite (proj2 (Z.leb_gt 0 _)) by lia. done. }
  destruct (Z.ltb_spec (t - e) s).
  { rewrite (proj2 (Z.leb_gt 0 _)) by lia. done. }
  rewrite (proj2 (Z.leb_le 0 _)) by lia. cbn [andb].
  destruct (Z.ltb_spec r e); cbn [orb]; [by rewrite (proj2 (Z.leb_gt e _)) by lia|].
  rewrite (proj2 (Z.leb_le e _)) by lia. cbn [andb].
  destruct (Z.ltb_spec r floor); [by rewrite (proj2 (Z.leb_gt floor _)) by lia|].
  rewrite (proj2 (Z.leb_le floor _)) by lia. unfold transaction_initial_gas_fields.
  set (g := if _ <? _ then _ else _).
  assert (Hg : g = mkInitialGas t r e s floor (Z.min (t - e - s) (r - e)) (t - e - s - Z.min (t - e - s) (r - e))).
  { unfold g. destruct (Z.ltb_spec (t - e - s) (r - e)); f_equal; lia. }
  rewrite Hg. rewrite (proj2 (initial_gas_valid_iff _)); [done|].
  unfold initial_gas_wf, U64_MAX in *. cbn. lia.
Qed.

Lemma admitted_gas_exact_witness :
  transaction_initial_gas (mkAllowance 20000000 16777216) 21000 0 21000 =
  Ok (mkInitialGas 20000000 16777216 21000 0 21000 16756216 3222784).
Proof.
  apply (admitted_gas_exact (mkAllowance 20000000 16777216) 21000 0 21000); [|lia..].
  split; cbn; unfold U64_MAX; lia.
Defined.

(** ** The frame *)

Definition snapshot_wf (f : TxFrameGasSnapshot) : Prop :=
  let spent := f.(fs_admitted_limit) - f.(remaining) in
  0 <= f.(fs_regular_limit) <= f.(fs_admitted_limit) ∧ f.(fs_admitted_limit) <= U64_MAX ∧
  0 <= f.(fs_calldata_floor) <= f.(fs_regular_limit) ∧ 0 <= f.(remaining) ∧
  0 <= f.(state_used) <= spent ∧ spent - f.(state_used) <= f.(fs_regular_limit).

Lemma snapshot_valid_iff f : snapshot_valid f = true ↔ snapshot_wf f.
Proof. unfold snapshot_valid, snapshot_wf, U64_MAX. cbv zeta. bools_to_Z. intuition lia. Qed.

Lemma snapshot_inv initial x s d f :
  tx_frame_gas_snapshot initial x s d = Ok f →
  snapshot_wf f ∧ f.(fs_admitted_limit) = initial.(admitted_limit) ∧
  f.(fs_regular_limit) = initial.(regular_limit) ∧
  f.(fs_calldata_floor) = initial.(in_calldata_floor) ∧ f.(remaining) = x + s ∧
  f.(state_used) = Z.max 0 (initial.(in_intrinsic_state) + d).
Proof.
  unfold tx_frame_gas_snapshot. repeat (case_match; [|done]).
  repeat case_match; try done; intros [Hv ->]%validated_Ok; rewrite snapshot_valid_iff in Hv;
    split_and!; done || cbn; bools_to_Z; try lia.
  all: match goal with E : (_ <=? 0) = false |- _ => apply Z.leb_gt in E; lia end.
Qed.

(** the snapshot of a frame exists exactly when its gas adds up: what is
    left is within the limit, and the state gas used, a negative one counting
    as none, is part of what was spent, with the rest within the regular
    limit. It holds those amounts and the limits of the admission. *)
Theorem frame_snapshot_exact (g : TransactionInitialGas) (x s d : Z) :
  initial_gas_wf g → 0 <= x → 0 <= s →
  let used := Z.max 0 (g.(in_intrinsic_state) + d) in
  let spent := g.(admitted_limit) - (x + s) in
  tx_frame_gas_snapshot g x s d =
  if (used <=? spent) && (spent - used <=? g.(regular_limit))
  then Ok (mkSnapshot g.(admitted_limit) g.(regular_limit) g.(in_calldata_floor) (x + s) used)
  else Raise SailExit.
Proof.
  intros Hg Hx Hs. cbv zeta. unfold initial_gas_wf, U64_MAX in Hg. cbv zeta in Hg.
  set (u := g.(in_intrinsic_state) + d). set (spent := g.(admitted_limit) - (x + s)).
  unfold tx_frame_gas_snapshot. fold u spent.
  assert (Hfields : ∀ v, 0 <= v <= spent → spent - v <= g.(regular_limit) →
    tx_frame_gas_snapshot_fields (mkSnapshot g.(admitted_limit) g.(regular_limit)
      g.(in_calldata_floor) (x + s) v) = Ok (mkSnapshot g.(admitted_limit) g.(regular_limit)
      g.(in_calldata_floor) (x + s) v)).
  { intros v Hv Hr. unfold tx_frame_gas_snapshot_fields. rewrite (proj2 (snapshot_valid_iff _)); [done|].
    unfold snapshot_wf, U64_MAX. cbn. fold spent. lia. }
  destruct (Z.leb_spec x g.(admitted_limit)); [|by rewrite (proj2 (Z.leb_gt _ spent)) by lia].
  destruct (Z.leb_spec s (g.(admitted_limit) - x)); [|by rewrite (proj2 (Z.leb_gt _ spent)) by lia].
  destruct (Z.leb_spec u 0).
  - replace (Z.max 0 u) with 0 by lia. rewrite (proj2 (Z.leb_le 0 spent)) by lia. cbn [andb].
    rewrite Z.sub_0_r. destruct (Z.leb_spec spent g.(regular_limit)); [apply Hfields; lia|done].
  - replace (Z.max 0 u) with u by lia. destruct (Z.leb_spec u spent); cbn [andb]; [|done].
    destruct (Z.leb_spec (spent - u) g.(regular_limit)); [apply Hfields; lia|done].
Qed.

Lemma frame_snapshot_exact_witness :
  tx_frame_gas_snapshot (mkInitialGas 20000000 16777216 21000 0 21000 16756216 3222784) 16000000 3222784 0 =
  Ok (mkSnapshot 20000000 16777216 21000 19222784 0).
Proof.
  apply (frame_snapshot_exact (mkInitialGas 20000000 16777216 21000 0 21000 16756216 3222784)
    16000000 3222784 0); [|lia..].
  unfold initial_gas_wf, U64_MAX. cbn. lia.
Defined.

(** ** Settlement *)

Lemma refund_divisor_wf p : profile_wf p → p.(refund_divisor) = 2 ∨ p.(refund_divisor) = 5.
Proof.
  intros [Hp _]. revert Hp. unfold valid_parameters, parameters. cbn [fmap list_fmap app].
  intros Hp. repeat (apply elem_of_cons in Hp as [[= ? ? ? ? ? ? ? ? ? ->]|Hp]; [by auto|]).
  by apply not_elem_of_nil in Hp.
Qed.

(** C7: the settlement of a frame. The gas used is what was spent, less the
    refund up to the fork's share of it, but at least the calldata floor from
    Prague; used and left add up to the limit; and the receipt, with the
    unrefunded execution gas and the state gas, passes every check, whatever
    the refund: a transaction whose frame has ended always has a receipt. *)
Theorem settlement_exact (profile : ProtocolProfileFields) (f : TxFrameGasSnapshot) (refund : Z)
    (t : TxType) (success : bool) (logs : LogSeriesRef) :
  profile_wf profile → snapshot_valid f = true →
  let limit := f.(fs_admitted_limit) in
  let spent := limit - f.(remaining) in
  let floor := if Prague <=? fork profile then f.(fs_calldata_floor) else 0 in
  let used := Z.max floor (spent - Z.min (Z.max 0 refund) (spent / profile.(refund_divisor))) in
  let execution := Z.max floor (spent - f.(state_used)) in
  let receipt := mkReceipt t success used execution f.(state_used) logs in
  settled_gas profile f refund = Ok (mkSettledGas used (limit - used) execution f.(state_used)) ∧
  0 <= used <= limit ∧ used <= execution + f.(state_used) ∧
  receipt_within limit f.(fs_regular_limit) receipt = Ok receipt.
Proof.
  intros Hp Hf. cbv zeta. apply snapshot_valid_iff in Hf. unfold snapshot_wf, U64_MAX in Hf.
  cbv zeta in Hf. pose proof (refund_divisor_wf _ Hp) as Hd.
  set (limit := f.(fs_admitted_limit)) in *. set (spent := limit - f.(remaining)) in *.
  set (floor := if Prague <=? fork profile then _ else 0).
  assert (Hfloor : 0 <= floor <= f.(fs_regular_limit)) by (unfold floor; destruct (_ <=? _); lia).
  set (cap := spent / profile.(refund_divisor)).
  assert (Hcap : 0 <= cap <= spent).
  { unfold cap. split; [apply Z.div_pos; lia|].
    apply Z.div_le_upper_bound; [lia|]. nia. }
  set (used := Z.max floor (spent - Z.min (Z.max 0 refund) cap)).
  assert (Hleft : limit - remaining_gas_after_refund refund f.(remaining) cap =
    spent - Z.min (Z.max 0 refund) cap).
  { unfold remaining_gas_after_refund. destruct (Z.leb_spec refund 0); [lia|].
    destruct (Z.leb_spec refund cap); lia. }
  assert (Hused : 0 <= used <= limit) by lia.
  split; [|split; [done|]].
  - unfold settled_gas. fold limit spent. rewrite sail_ediv_pos by lia. cbn [mbind outcome_bind].
    fold cap floor. rewrite Hleft. f_equal.
    replace (if _ <? floor then floor else spent - Z.min (Z.max 0 refund) cap) with used
      by (destruct (Z.ltb_spec (spent - Z.min (Z.max 0 refund) cap) floor); lia).
    f_equal. destruct (Z.ltb_spec (spent - f.(state_used)) floor); lia.
  - split; [lia|]. unfold receipt_within. cbn [gas_used execution_gas state_gas].
    rewrite !(proj2 (Z.leb_le _ _)) by lia. done.
Qed.

Lemma settlement_exact_witness :
  settled_gas DEFAULT_PROTOCOL_PROFILE (mkSnapshot 100000 100000 30000 40000 0) 90000 =
    Ok (mkSettledGas 48000 52000 60000 0) ∧
  settled_gas DEFAULT_PROTOCOL_PROFILE (mkSnapshot 100000 100000 30000 70000 0) 90000 =
    Ok (mkSettledGas 30000 70000 30000 0).
Proof.
  assert (Hp : profile_wf DEFAULT_PROTOCOL_PROFILE)
    by (split; [by apply (bool_decide_unpack _)|by vm_compute]).
  split.
  - exact (proj1 (settlement_exact DEFAULT_PROTOCOL_PROFILE (mkSnapshot 100000 100000 30000 40000 0)
      90000 LegacyTx true (mkLogSeries 0 0) Hp eq_refl)).
  - exact (proj1 (settlement_exact DEFAULT_PROTOCOL_PROFILE (mkSnapshot 100000 100000 30000 70000 0)
      90000 LegacyTx true (mkLogSeries 0 0) Hp eq_refl)).
Defined.
