(* ===== verification/StackMachine.v ===== *)
(** * StackMachine: the stack instructions against a machine on lists

    The arithmetic, comparison, bitwise and stack instructions as a table of
    pure functions on a list of words, with how many words each takes and
    leaves and what it costs; and the instructions of [Execute] shown to
    implement the table on the operand stack of the host. *)

From Stdlib Require Import ZArith Lia.
From stdpp Require Import base tactics option list gmap.
From S2P Require Import Prelude PyBytes SailRuntime HostTypes Words WordTheorems WordBits ChainConfig RegionAccess Gas GasSchedule GasTheorems Crypto Accounts OperandStack StackTheorems Environment Scratch Kernel Machine Instructions Execute Interpreter.
Local Open Scope Z_scope.

(** ** The table *)

Record StackOp : Type := mkStackOp {
  op_inputs : nat;
  op_outputs : nat;
  op_cost : list Z → Z;
  op_effect : list Z → list Z;
}.

Definition arith1 (c : Z) (f : Z → Z) : StackOp :=
  mkStackOp 1 1 (λ _, c) (λ l, match l with a :: l' => f a :: l' | _ => l end).
Definition on_two (f : Z → Z → Z) (l : list Z) : list Z :=
  match l with a :: b :: l' => f a b :: l' | _ => l end.
Definition arith2 (c : Z) (f : Z → Z → Z) : StackOp := mkStackOp 2 1 (λ _, c) (on_two f).
(** The price of an exponentiation depends on its second operand. *)
Definition arith2_at (c : Z → Z) (f : Z → Z → Z) : StackOp :=
  mkStackOp 2 1 (λ l, match l with _ :: b :: _ => c b | _ => 0 end) (on_two f).
Definition arith3 (c : Z) (f : Z → Z → Z → Z) : StackOp :=
  mkStackOp 3 1 (λ _, c) (λ l, match l with a :: b :: n :: l' => f a b n :: l' | _ => l end).
Definition push_op (c v : Z) : StackOp := mkStackOp 0 1 (λ _, c) (λ l, v :: l).
Definition dup_op (n : nat) : StackOp :=
  mkStackOp n (S n) (λ _, 3) (λ l, match l !! pred n with Some v => v :: l | None => l end).
Definition exchange_op (n m : nat) : StackOp :=
  mkStackOp (S m) (S m) (λ _, 3) (λ l,
    match l !! n, l !! m with Some a, Some b => <[m := a]> (<[n := b]> l) | _, _ => l end).

Definition truth (b : bool) : Z := Z.b2z b.
Definition signed (v : Z) : Z := to_signed 256 v.

Definition stack_op (instruction : ast) : option StackOp :=
  match instruction with
  | ADD => Some (arith2 3 (λ a b, wrap (a + b)))
  | MUL => Some (arith2 5 (λ a b, wrap (a * b)))
  | SUB => Some (arith2 3 (λ a b, wrap (a - b)))
  | DIV => Some (arith2 5 (λ a b, if b =? 0 then 0 else a / b))
  | SDIV => Some (arith2 5 (λ a b, if b =? 0 then 0 else wrap (Z.quot (signed a) (signed b))))
  | MOD => Some (arith2 5 (λ a b, if b =? 0 then 0 else a mod b))
  | SMOD => Some (arith2 5 (λ a b, if b =? 0 then 0 else wrap (Z.rem (signed a) (signed b))))
  | ADDMOD => Some (arith3 8 (λ a b n, if n =? 0 then 0 else (a + b) mod n))
  | MULMOD => Some (arith3 8 (λ a b n, if n =? 0 then 0 else (a * b) mod n))
  | EXP => Some (arith2_at (λ e, 10 + 50 * ((bit_length e + 7) / 8)) (λ a e, wrap (a ^ e)))
  | SIGNEXTEND => Some (arith2 5 (λ k v,
      if k <? 32 then wrap (to_signed (8 * (k + 1)) (v mod 2 ^ (8 * (k + 1)))) else v))
  | LT => Some (arith2 3 (λ a b, truth (a <? b)))
  | GT => Some (arith2 3 (λ a b, truth (b <? a)))
  | SLT => Some (arith2 3 (λ a b, truth (signed a <? signed b)))
  | SGT => Some (arith2 3 (λ a b, truth (signed b <? signed a)))
  | EQ => Some (arith2 3 (λ a b, truth (a =? b)))
  | ISZERO => Some (arith1 3 (λ a, truth (a =? 0)))
  | AND => Some (arith2 3 Z.land)
  | OR => Some (arith2 3 Z.lor)
  | XOR => Some (arith2 3 Z.lxor)
  | NOT => Some (arith1 3 (λ a, 2 ^ 256 - 1 - a))
  | BYTE => Some (arith2 3 (λ i x, if i <? 32 then x / 2 ^ (8 * (31 - i)) mod 256 else 0))
  | SHL => Some (arith2 3 (λ s v, wrap (v * 2 ^ s)))
  | SHR => Some (arith2 3 (λ s v, v / 2 ^ s))
  | SAR => Some (arith2 3 (λ s v, wrap (signed v / 2 ^ s)))
  | CLZ => Some (arith1 5 (λ v, 256 - bit_length v))
  | POP => Some (mkStackOp 1 0 (λ _, 2) tail)
  | PUSH n v => Some (push_op (if n =? 0 then 2 else 3) v)
  | DUP n => Some (dup_op (Z.to_nat n))
  | SWAP n => Some (exchange_op 0 (Z.to_nat n))
  | DUPN immediate =>
      match decode_single_stack_index immediate with
      | Ok n => Some (dup_op (Z.to_nat n)) | Raise _ => None end
  | SWAPN immediate =>
      match decode_single_stack_index immediate with
      | Ok n => Some (exchange_op 0 (Z.to_nat n)) | Raise _ => None end
  | EXCHANGE immediate =>
      match decode_exchange_stack_indices immediate with
      | Ok (n, m) => Some (exchange_op (Z.to_nat n) (Z.to_nat m)) | Raise _ => None end
  | _ => None
  end.

(** The machine on lists: the guard on the stack, the charge, the effect. *)
Definition run_stack_op (op : StackOp) (g : Z) (l : list Z) : Z * list Z * OpcodeOutcome :=
  if bool_decide (length l < op.(op_inputs))%nat then (0, l, Failed StackUnderflow)
  else if bool_decide (1024 < length l - op.(op_inputs) + op.(op_outputs))%nat
  then (0, l, Failed StackOverflow)
  else if g <? op.(op_cost) l then (0, l, Failed OutOfGas)
  else (g - op.(op_cost) l, op.(op_effect) l, Continue).

(** ** The operand stack of a frame *)

(** [frame_stack l sp s]: the words of the running frame, topmost first. *)
Definition frame_stack (l : list Z) (sp : StackPointer) (s : SpecState) : Prop :=
  sp.(sp_height) = py_len l ∧ stack_repr l sp.(sp_storage) (stacks s.(sp_host)) ∧
  Forall is_word l ∧ (length l <= 1024)%nat.

Definition on_stacks (r : Stacks) (s : SpecState) : SpecState :=
  put (set_stacks r s.(sp_host)) s.

Arguments on_stacks : simpl never.

Lemma on_host_run {A} (m : M Stacks A) s o r :
  m (stacks s.(sp_host)) = (o, r) → on_host m s = (o, on_stacks r s).
Proof. intros E. unfold on_host. rewrite !zoom_run. cbn. by rewrite E. Qed.
Lemma on_stacks_same s : on_stacks (stacks s.(sp_host)) s = s.
Proof. destruct s as [[] ? ?]. done. Qed.

Section frame_stack.
Context (l : list Z) (sp : StackPointer) (s : SpecState) (Hl : frame_stack l sp s).

Lemma frame_stack_len : sp.(sp_storage) = py_len l ∧ 0 <= py_len l <= 1024.
Proof using Hl. destruct Hl as (_ & (-> & _) & _ & ?). unfold py_len. lia. Qed.

Lemma guard_run (i o : nat) :
  guard_stack sp (Z.of_nat i) (Z.of_nat o) =
  Ok (if bool_decide (length l < i)%nat then Failed StackUnderflow
      else if bool_decide (1024 < length l - i + o)%nat then Failed StackOverflow else Continue).
Proof using Hl.
  destruct Hl as (Hh & _ & _ & Hlen). unfold guard_stack, validate_stack, stack_height, stack_top_height.
  unfold stack_slot_count. rewrite Hh, !BoundedUint_ok by (unfold py_len; lia).
  cbn [mbind outcome_bind]. rewrite BoundedUint_ok by (unfold py_len; lia). cbn [mbind outcome_bind].
  f_equal. unfold py_len, STACK_LIMIT. case_bool_decide; [by rewrite (proj2 (Z.ltb_lt _ _)) by lia|].
  rewrite (proj2 (Z.ltb_ge _ _)) by lia.
  case_bool_decide; [by rewrite (proj2 (Z.ltb_lt _ _)) by lia|by rewrite (proj2 (Z.ltb_ge _ _)) by lia].
Qed.

Lemma slot_read_run i w : l !! i = Some w → stack_slot_read sp (Z.of_nat i) s = (Ok w, s).
Proof using Hl.
  destruct Hl as (_ & Hr & Hw & _). intros Hi. unfold stack_slot_read. rewrite bind_run.
  erewrite on_host_run by (by apply (stack_repr_read l)). rewrite on_stacks_same, of_outcome_run.
  rewrite word_ok; [done|]. by eapply Forall_lookup_1.
Qed.

Lemma read_top_run w : l !! 0%nat = Some w → read_stack_word sp s = (Ok w, s).
Proof using Hl.
  intros Hi. pose proof (slot_read_run 0 w Hi) as E. change (Z.of_nat 0) with 0 in E.
  unfold read_stack_word. rewrite bind_run, E, of_outcome_run.
  destruct Hl as (_ & _ & Hw & _). rewrite word_ok; [done|]. by eapply Forall_lookup_1.
Qed.

Lemma slot_write_run i v :
  (i < length l)%nat → is_word v →
  ∃ r, stack_slot_write sp (Z.of_nat i) v s = (Ok tt, on_stacks r s) ∧
    frame_stack (<[i := v]> l) sp (on_stacks r s).
Proof using Hl.
  destruct Hl as (Hh & Hr & Hw & Hlen). intros Hi Hv.
  destruct (stack_repr_write l _ _ Hr i v Hi) as (r & Er & Hr').
  exists r. split; [by apply on_host_run|]. split_and!.
  - unfold py_len. by rewrite length_insert.
  - done.
  - by apply Forall_insert.
  - by rewrite length_insert.
Qed.
End frame_stack.

Lemma frame_stack_retreat w l sp s :
  frame_stack (w :: l) sp s →
  ∃ sp', stack_top_retreat sp 1 = Ok sp' ∧ frame_stack l sp' s.
Proof.
  intros Hl. pose proof (frame_stack_len _ _ _ Hl) as [Hst Hlen]. pose proof Hl as (_ & Hr & Hw & Hm).
  unfold stack_top_retreat, stack_pointer, stack_top_height_host.
  pose proof (stack_repr_drop _ _ _ Hr 1 ltac:(cbn; lia) ltac:(lia)) as Hd. rewrite skipn_cons, drop_0 in Hd.
  pose proof Hd as [Htop _]. change (Z.of_nat 1) with 1 in *. rewrite Htop in *.
  unfold operand_stack_height. unfold py_len in *. cbn [length] in *.
  rewrite BoundedUint_ok by lia. cbn [mbind outcome_bind]. eexists. split; [done|].
  split_and!; [done|done|by inversion Hw|lia].
Qed.

Lemma pop_run w l sp s :
  frame_stack (w :: l) sp s → ∃ sp', pop sp s = (Ok (w, sp'), s) ∧ frame_stack l sp' s.
Proof.
  intros Hl. destruct (frame_stack_retreat _ _ _ _ Hl) as (sp' & E & Hl').
  exists sp'. split; [|done]. unfold pop. rewrite bind_run, (read_top_run _ _ _ Hl w) by done.
  by rewrite bind_run, E.
Qed.

Lemma push_run l sp s v :
  frame_stack l sp s → is_word v → (length l < 1024)%nat →
  ∃ sp' r, push sp v s = (Ok sp', on_stacks r s) ∧ frame_stack (v :: l) sp' (on_stacks r s).
Proof.
  intros Hl Hv Hroom. pose proof (frame_stack_len _ _ _ Hl) as [Hst Hlen].
  pose proof Hl as (_ & Hr & Hw & Hm).
  destruct (stack_repr_push l _ _ Hr v ltac:(lia)) as (r & Er & Hr').
  unfold push, stack_top_advance, stack_pointer, stack_top_height_host.
  pose proof Hr' as [Htop _].
  unfold operand_stack_height. rewrite Htop. unfold py_len in *. cbn [length] in *.
  rewrite bind_run, of_outcome_run. rewrite BoundedUint_ok by lia. cbn [mbind outcome_bind].
  eexists (mkStackPointer _ _), r.
  unfold write_stack_word, stack_slot_write. rewrite bind_run. cbn [sp_storage].
  rewrite (on_host_run _ _ (Ok tt) r).
  - split; [done|]. split_and!; [done|by rewrite <-Htop|by constructor|cbn; lia].
  - rewrite <-Er. rewrite Hst. unfold stack_slot_write_host, stack_slot_write_next_host.
    py_step. unfold id, _stack_slot_position. destruct Hr as (_ & Hb & _).
    rewrite (proj2 (Z.ltb_ge _ _)) by lia. f_equal. lia.
Qed.

(** ** The instructions implement the machine *)

(** One call of a sequence, by its run equation. *)
Ltac run_by E := rewrite bind_run, E by done; cbv beta iota delta [of_outcome].

(** The outcome of an instruction agrees with the machine; when it goes on
    only the host's stacks have changed, and they hold the machine's words. *)
Definition refines (op : StackOp) (g : Z) (l : list Z) (s : SpecState) (m : M SpecState OpResult) :
    Prop :=
  match run_stack_op op g l with
  | (g', l', Continue) => ∃ sp' r,
      m s = (Ok (g', sp', Continue), on_stacks r s) ∧ frame_stack l' sp' (on_stacks r s)
  | (_, _, Failed kind) => ∃ sp', m s = (Ok (GAS_ZERO, sp', Failed kind), s)
  end.

(** The stack guard. *)
Lemma guard_refines op g l sp s k :
  frame_stack l sp s →
  ((op.(op_inputs) <= length l)%nat → (length l - op.(op_inputs) + op.(op_outputs) <= 1024)%nat →
   if g <? op.(op_cost) l then ∃ sp', k s = (Ok (GAS_ZERO, sp', Failed OutOfGas), s)
   else ∃ sp' r, k s = (Ok (g - op.(op_cost) l, sp', Continue), on_stacks r s) ∧
          frame_stack (op.(op_effect) l) sp' (on_stacks r s)) →
  refines op g l s
    (with_stack sp (Z.of_nat op.(op_inputs)) (Z.of_nat op.(op_outputs)) (failed_at sp) k).
Proof.
  intros Hl Hk. unfold refines, run_stack_op, with_stack. rewrite (guard_run l sp s Hl).
  case_bool_decide as Hi; [eexists; by rewrite bind_run|].
  case_bool_decide as Ho; [eexists; by rewrite bind_run|].
  specialize (Hk ltac:(lia) ltac:(lia)). destruct (g <? op_cost op l); by rewrite bind_run.
Qed.

(** The stack guard and the charge. *)
Lemma charged_refines op g l sp s k :
  frame_stack l sp s →
  ((op.(op_inputs) <= length l)%nat → (length l - op.(op_inputs) + op.(op_outputs) <= 1024)%nat →
   ∃ sp' r, k (g - op.(op_cost) l) s = (Ok (g - op.(op_cost) l, sp', Continue), on_stacks r s) ∧
     frame_stack (op.(op_effect) l) sp' (on_stacks r s)) →
  refines op g l s
    (with_stack sp (Z.of_nat op.(op_inputs)) (Z.of_nat op.(op_outputs)) (failed_at sp)
       (charge g (op.(op_cost) l) (out_of_gas sp) k)).
Proof.
  intros Hl Hk. apply guard_refines; [done|]. intros Hi Ho. unfold charge.
  destruct (g <? op_cost op l); [by eexists|auto].
Qed.

(** Replacing the top. *)
Lemma replace_top_run a l sp s v :
  frame_stack (a :: l) sp s → is_word v →
  ∃ r, write_stack_word sp v s = (Ok tt, on_stacks r s) ∧ frame_stack (v :: l) sp (on_stacks r s).
Proof. intros Hl Hv. exact (slot_write_run _ _ _ Hl 0 v ltac:(cbn; lia) Hv). Qed.

Lemma unary_refines c alu f g l sp s :
  frame_stack l sp s → (∀ a, is_word a → alu a = Ok (f a) ∧ is_word (f a)) →
  refines (arith1 c f) g l s (unary_op c alu g sp).
Proof.
  intros Hl Halu. apply (charged_refines (arith1 c f) g l sp s); [done|]. cbn. intros Hi _.
  destruct l as [|a l]; [cbn in Hi; lia|].
  pose proof Hl as (_ & _ & [Ha _]%Forall_cons & _). destruct (Halu a Ha) as [Ea Hf].
  destruct (replace_top_run _ _ _ _ _ Hl Hf) as (r & Er & Hl').
  exists sp, r. split; [|done].
  run_by (read_top_run _ _ _ Hl a). run_by Ea. by run_by Er.
Qed.

Lemma binary_refines c alu f g l sp s :
  frame_stack l sp s →
  (∀ a b, is_word a → is_word b → alu a b = Ok (f a b) ∧ is_word (f a b)) →
  refines (arith2 c f) g l s (binary_op c alu g sp).
Proof.
  intros Hl Halu. apply (charged_refines (arith2 c f) g l sp s); [done|]. cbn. intros Hi _.
  destruct l as [|a [|b l]]; [cbn in Hi; lia..|].
  pose proof Hl as (_ & _ & [Ha [Hb _]%Forall_cons]%Forall_cons & _).
  destruct (Halu a b Ha Hb) as [Ea Hf]. destruct (pop_run _ _ _ _ Hl) as (sp1 & E1 & Hl1).
  destruct (replace_top_run _ _ _ _ _ Hl1 Hf) as (r & Er & Hl').
  exists sp1, r. split; [|done].
  run_by E1. run_by (read_top_run _ _ _ Hl1 b). run_by Ea. by run_by Er.
Qed.

Lemma ternary_refines c alu f g l sp s :
  frame_stack l sp s →
  (∀ a b n, is_word a → is_word b → is_word n → alu a b n = Ok (f a b n) ∧ is_word (f a b n)) →
  refines (arith3 c f) g l s (ternary_op c alu g sp).
Proof.
  intros Hl Halu. apply (charged_refines (arith3 c f) g l sp s); [done|]. cbn. intros Hi _.
  destruct l as [|a [|b [|n l]]]; [cbn in Hi; lia..|].
  pose proof Hl as (_ & _ & [Ha [Hb [Hn _]%Forall_cons]%Forall_cons]%Forall_cons & _).
  destruct (Halu a b n Ha Hb Hn) as [Ea Hf]. destruct (pop_run _ _ _ _ Hl) as (sp1 & E1 & Hl1).
  destruct (pop_run _ _ _ _ Hl1) as (sp2 & E2 & Hl2).
  destruct (replace_top_run _ _ _ _ _ Hl2 Hf) as (r & Er & Hl').
  exists sp2, r. split; [|done].
  run_by E1. run_by E2. run_by (read_top_run _ _ _ Hl2 n). run_by Ea. by run_by Er.
Qed.

Lemma exp_refines op g l sp s :
  stack_op EXP = Some op → frame_stack l sp s → refines op g l s (execute_exp g sp).
Proof.
  intros [= <-] Hl. apply guard_refines; [done|]. cbn. intros Hi _.
  destruct l as [|a [|e l]]; [cbn in Hi; lia..|].
  pose proof Hl as (_ & _ & [Ha [He _]%Forall_cons]%Forall_cons & _).
  destruct (pop_run _ _ _ _ Hl) as (sp1 & E1 & Hl1).
  destruct (replace_top_run _ _ _ _ (wrap (a ^ e)) Hl1 (wrap_word _)) as (r & Er & Hl').
  destruct (scaled_costs_exact e 0 0 He ltac:(lia) ltac:(vm_compute; intuition congruence))
    as (_ & _ & _ & Ecost).
  destruct (Z.ltb_spec g (10 + 50 * ((bit_length e + 7) / 8))) as [Hlt|Hge].
  - exists sp1. run_by E1. run_by (read_top_run _ _ _ Hl1 e). run_by Ecost.
    unfold charge. by rewrite (proj2 (Z.ltb_lt _ _)).
  - exists sp1, r. split; [|done].
    run_by E1. run_by (read_top_run _ _ _ Hl1 e). run_by Ecost.
    unfold charge. rewrite (proj2 (Z.ltb_ge _ _)) by done.
    run_by (alu_exp_spec a e Ha He). by run_by Er.
Qed.

Lemma pop_refines op g l sp s :
  stack_op POP = Some op → frame_stack l sp s → refines op g l s (execute_pop g sp).
Proof.
  intros [= <-] Hl. apply (charged_refines (mkStackOp 1 0 (λ _, 2) tail) g l sp s); [done|].
  cbn. intros Hi _. destruct l as [|a l]; [cbn in Hi; lia|].
  destruct (pop_run _ _ _ _ Hl) as (sp1 & E1 & Hl1).
  exists sp1, (stacks s.(sp_host)). rewrite on_stacks_same. split; [|done]. by run_by E1.
Qed.

Lemma push_refines g l sp s n v :
  frame_stack l sp s → is_word v →
  refines (push_op (if n =? 0 then 2 else 3) v) g l s (execute_push g sp n v).
Proof.
  intros Hl Hv. apply (charged_refines (push_op _ v) g l sp s); [done|]. cbn. intros _ Ho.
  destruct (push_run _ _ _ _ Hl Hv ltac:(lia)) as (sp' & r & E & Hl').
  exists sp', r. split; [|done]. by run_by E.
Qed.

Lemma dup_refines g l sp s n :
  frame_stack l sp s → 1 <= n → refines (dup_op (Z.to_nat n)) g l s (dup_at g sp n).
Proof.
  intros Hl Hn. unfold dup_at.
  assert (E : ∃ k, n = Z.of_nat (S k)) by (exists (Z.to_nat (n - 1)); lia).
  destruct E as [k ->]. rewrite Nat2Z.id.
  replace (Z.of_nat (S k) + 1) with (Z.of_nat (S (S k))) by lia.
  apply (charged_refines (dup_op (S k)) g l sp s); [done|]. cbn [op_inputs op_outputs dup_op op_effect op_cost Nat.pred].
  intros Hi Ho. replace (Z.of_nat (S k) - 1) with (Z.of_nat k) by lia.
  destruct (lookup_lt_is_Some_2 l k) as [w Hw]; [lia|]. rewrite Hw.
  pose proof Hl as (_ & _ & Hwords & _). pose proof (Forall_lookup_1 _ _ _ _ Hwords Hw) as Hword.
  destruct (push_run _ _ _ _ Hl Hword ltac:(lia)) as (sp' & r & E & Hl').
  exists sp', r. split; [|done]. run_by (slot_read_run _ _ _ Hl k w Hw). by run_by E.
Qed.

Lemma exchange_refines g l sp s n m :
  frame_stack l sp s → 0 <= n < m →
  refines (exchange_op (Z.to_nat n) (Z.to_nat m)) g l s (exchange_at g sp n m).
Proof.
  intros Hl Hn. unfold exchange_at.
  assert (E : ∃ i j, n = Z.of_nat i ∧ m = Z.of_nat j) by (exists (Z.to_nat n), (Z.to_nat m); lia).
  destruct E as (i & j & -> & ->). rewrite !Nat2Z.id.
  replace (Z.of_nat j + 1) with (Z.of_nat (S j)) by lia.
  apply (charged_refines (exchange_op i j) g l sp s); [done|].
  cbn [op_inputs op_outputs exchange_op op_effect op_cost]. intros Hi Ho.
  destruct (lookup_lt_is_Some_2 l i) as [a Ha]; [lia|].
  destruct (lookup_lt_is_Some_2 l j) as [b Hb]; [lia|]. rewrite Ha, Hb.
  pose proof Hl as (_ & _ & Hwords & _).
  pose proof (Forall_lookup_1 _ _ _ _ Hwords Ha). pose proof (Forall_lookup_1 _ _ _ _ Hwords Hb).
  destruct (slot_write_run _ _ _ Hl i b) as (r1 & E1 & Hl1); [lia|done|].
  destruct (slot_write_run _ _ _ Hl1 j a) as (r2 & E2 & Hl2); [rewrite length_insert; lia|done|].
  exists sp, r2. split; [|done].
  run_by (slot_read_run _ _ _ Hl i a Ha). run_by (slot_read_run _ _ _ Hl j b Hb).
  unfold stack_set. run_by E1. by run_by E2.
Qed.

(** Words the operations give. *)
Lemma word_of_truth b : word_of_bool b = Ok (truth b) ∧ is_word (truth b).
Proof. by destruct b. Qed.
Lemma word_quot a b : is_word a → 0 < b → is_word (a / b).
Proof.
  intros [? ?] ?. split; [by apply Z.div_pos|].
  assert (a / b <= a) by (apply Z.div_le_upper_bound; nia). lia.
Qed.
Lemma word_rem a b : is_word b → b ≠ 0 → is_word (a mod b).
Proof. intros [? ?] ?. pose proof (Z.mod_pos_bound a b). unfold is_word. lia. Qed.
Lemma word_bits (f : Z → Z → Z) a b :
  (∀ n a b, 0 <= n → 0 <= a < 2 ^ n → 0 <= b < 2 ^ n → 0 <= f a b < 2 ^ n) →
  is_word a → is_word b → is_word (f a b).
Proof. intros Hf. unfold is_word, WORD_MODULUS. apply Hf. lia. Qed.

(** The functions of the table are those of the instructions. *)
Lemma unsigned_results a b n :
  is_word a → is_word b → is_word n →
  is_word (if b =? 0 then 0 else a / b) ∧ is_word (if b =? 0 then 0 else a mod b) ∧
  is_word (if n =? 0 then 0 else (a + b) mod n) ∧ is_word (if n =? 0 then 0 else (a * b) mod n).
Proof.
  intros Ha Hb Hn. assert (is_word 0) by done. pose proof Hb as [? _].
  split_and!; [destruct (Z.eqb_spec b 0)..|destruct (Z.eqb_spec n 0)|destruct (Z.eqb_spec n 0)];
    auto using word_rem. apply word_quot; [done|lia].
Qed.

Lemma signed_results a b :
  is_word (if b =? 0 then 0 else wrap (Z.quot (signed a) (signed b))) ∧
  is_word (if b =? 0 then 0 else wrap (Z.rem (signed a) (signed b))).
Proof. split; destruct (Z.eqb_spec b 0); done || apply wrap_word. Qed.

Lemma byte_result i x :
  is_word i → is_word (if i <? 32 then x / 2 ^ (8 * (31 - i)) mod 256 else 0).
Proof.
  intros. destruct (i <? 32); [|done]. apply (word_rem _ 256); done.
Qed.

Ltac table :=
  lazymatch goal with
  | |- refines (arith1 _ _) _ _ _ _ => apply unary_refines; [assumption|intros a Ha]
  | |- refines (arith2 _ _) _ _ _ _ => apply binary_refines; [assumption|intros a b Ha Hb]
  | |- refines (arith3 _ _) _ _ _ _ => apply ternary_refines; [assumption|intros a b n Ha Hb Hn]
  end.

Lemma arithmetic_refines g l sp s :
  frame_stack l sp s →
  let r i m := ∀ op, stack_op i = Some op → refines op g l s (m g sp) in
  r ADD execute_add ∧ r MUL execute_mul ∧ r SUB execute_sub ∧ r DIV execute_div ∧
  r SDIV execute_sdiv ∧ r MOD execute_mod ∧ r SMOD execute_smod ∧ r ADDMOD execute_addmod ∧
  r MULMOD execute_mulmod ∧ r SIGNEXTEND execute_signextend.
Proof.
  intros Hl r. subst r. cbv beta.
  split_and!; intros op [= <-]; table;
    try (destruct (alu_unsigned_spec a b a Ha Hb Ha) as (?&?&?&?&?&_&_);
         destruct (unsigned_results a b a Ha Hb Ha) as (?&?&_&_));
    try (destruct (alu_signed_spec a b Ha Hb) as (?&?&_); pose proof (signed_results a b) as [? ?]);
    auto using wrap_word.
  - destruct (alu_unsigned_spec a b n Ha Hb Hn) as (_&_&_&_&_&?&_).
    by destruct (unsigned_results a b n Ha Hb Hn) as (_&_&?&_).
  - destruct (alu_unsigned_spec a b n Ha Hb Hn) as (_&_&_&_&_&_&?).
    by destruct (unsigned_results a b n Ha Hb Hn) as (_&_&_&?).
  - split; [by apply alu_signextend_spec|]. destruct (a <? 32); [apply wrap_word|done].
Qed.

Lemma comparison_refines g l sp s :
  frame_stack l sp s →
  let r i m := ∀ op, stack_op i = Some op → refines op g l s (m g sp) in
  r LT execute_lt ∧ r GT execute_gt ∧ r SLT execute_slt ∧ r SGT execute_sgt ∧ r EQ execute_eq ∧
  r ISZERO execute_iszero.
Proof.
  intros Hl r. subst r. cbv beta.
  split_and!; intros op [= <-]; table; try apply word_of_truth;
    destruct (alu_signed_spec a b Ha Hb) as (_&_&?&?); (split; [done|apply word_of_truth]).
Qed.

Lemma bitwise_refines g l sp s :
  frame_stack l sp s →
  let r i m := ∀ op, stack_op i = Some op → refines op g l s (m g sp) in
  r AND execute_and ∧ r OR execute_or ∧ r XOR execute_xor ∧ r NOT execute_not ∧
  r BYTE execute_byte ∧ r SHL execute_shl ∧ r SHR execute_shr ∧ r SAR execute_sar ∧
  r CLZ execute_clz.
Proof.
  intros Hl r. subst r. cbv beta. split_and!; intros op [= <-]; table.
  - split; [by apply word_and_ok|]. apply word_bits; [|done..].
    intros k x y ? ? ?. apply land_bound; lia.
  - split; [by apply word_or_ok|]. apply word_bits; [|done..]. intros. by apply lor_bound.
  - split; [by apply word_xor_ok|]. apply word_bits; [|done..]. intros. by apply lxor_bound.
  - split; [by apply word_not_ok|]. unfold is_word, WORD_MODULUS in *. lia.
  - split; [by apply alu_byte_ok|]. by apply byte_result.
  - destruct (alu_shift_spec a b Ha Hb) as (?&_). split; [done|apply wrap_word].
  - destruct (alu_shift_spec a b Ha Hb) as (_&?&_). split; [done|].
    apply word_quot; [done|]. apply Z.pow_pos_nonneg; [done|apply Ha].
  - destruct (alu_shift_spec a b Ha Hb) as (_&_&?&_). split; [done|apply wrap_word].
  - destruct (alu_shift_spec a a Ha Ha) as (_&_&_&?). split; [done|].
    pose proof (word_bit_length_bound a Ha). unfold is_word, WORD_MODULUS. lia.
Qed.

(** ** The theorem *)

(** What decoding guarantees of the operands an instruction carries. *)
Definition operands_ok (instruction : ast) : Prop :=
  match instruction with
  | PUSH _ v => is_word v
  | DUP n | SWAP n => 1 <= n
  | EXCHANGE immediate => 0 <= immediate < 256
  | _ => True
  end.

Lemma single_index_range immediate n : decode_single_stack_index immediate = Ok n → 1 <= n.
Proof.
  unfold decode_single_stack_index, deep_stack_index. repeat case_match; try done;
    intros [-> ?]%BoundedUint_inv; lia.
Qed.
Lemma single_index_valid immediate n :
  decode_single_stack_index immediate = Ok n → deep_stack_immediate_valid immediate = true.
Proof. unfold decode_single_stack_index. by destruct (deep_stack_immediate_valid immediate). Qed.
Lemma exchange_indices_valid immediate p :
  decode_exchange_stack_indices immediate = Ok p → exchange_immediate_valid immediate = true.
Proof. unfold decode_exchange_stack_indices. by destruct (exchange_immediate_valid immediate). Qed.

Lemma exchange_indices_range immediate n m :
  decode_exchange_stack_indices immediate = Ok (n, m) → 0 <= immediate < 256 → 0 <= n < m.
Proof.
  intros E Hi.
  assert (Hall : forallb (λ i, match decode_exchange_stack_indices i with
    | Ok (n, m) => (0 <=? n) && (n <? m) | Raise _ => true end) (seqZ 0 256) = true)
    by by vm_compute.
  rewrite List.forallb_forall in Hall. specialize (Hall immediate). rewrite E in Hall.
  assert (In immediate (seqZ 0 256)) as Hin by (apply list_elem_of_In, elem_of_seqZ; lia).
  specialize (Hall Hin). apply andb_prop in Hall as [?%Z.leb_le ?%Z.ltb_lt]. lia.
Qed.

Section refinement.
Context `{Keccak} `{StateTrie}.

Lemma finish_refines op (f : FrameTransition) l s m :
  refines op f.(ft_gas) l s m →
  match run_stack_op op f.(ft_gas) l with
  | (g', l', Continue) => ∃ sp' r,
      finish_op f m s = (Ok (f.(ft_pc), g', f.(ft_state_gas), f.(ft_state_spill), f.(ft_refund), sp',
        f.(ft_memory), Running), on_stacks r s) ∧ frame_stack l' sp' (on_stacks r s)
  | (_, _, Failed kind) => ∃ sp',
      finish_op f m s = (Ok (f.(ft_pc), GAS_ZERO, f.(ft_state_gas), f.(ft_state_spill), f.(ft_refund),
        sp', f.(ft_memory), Exceptional kind), s)
  end.
Proof using.
  unfold refines. destruct (run_stack_op op f.(ft_gas) l) as [[g' l'] [|kind]].
  - intros (sp' & r & E & Hl'). exists sp', r. split; [|done]. unfold finish_op. by run_by E.
  - intros (sp' & E). exists sp'. unfold finish_op. by run_by E.
Qed.

Lemma deep_refines g l sp s instruction op :
  frame_stack l sp s → stack_op instruction = Some op → operands_ok instruction →
  match instruction with
  | DUPN immediate => refines op g l s (execute_dupn g sp immediate)
  | SWAPN immediate => refines op g l s (execute_swapn g sp immediate)
  | EXCHANGE immediate => refines op g l s (execute_exchange g sp immediate)
  | _ => True
  end.
Proof using.
  intros Hl Hop Hi. destruct instruction; try done; cbn [stack_op] in Hop.
  - destruct (decode_single_stack_index immediate) as [n|e] eqn:E; [|done]. injection Hop as <-.
    pose proof (dup_refines g l sp s n Hl (single_index_range _ _ E)) as Hr.
    unfold execute_dupn. rewrite (single_index_valid _ _ E). cbn [negb].
    unfold refines in *. rewrite bind_run, E. exact Hr.
  - destruct (decode_single_stack_index immediate) as [n|e] eqn:E; [|done]. injection Hop as <-.
    pose proof (exchange_refines g l sp s 0 n Hl ltac:(pose proof (single_index_range _ _ E); lia)) as Hr.
    unfold execute_swapn. rewrite (single_index_valid _ _ E). cbn [negb].
    unfold refines in *. rewrite bind_run, E. exact Hr.
  - destruct (decode_exchange_stack_indices immediate) as [[n m]|e] eqn:E; [|done]. injection Hop as <-.
    pose proof (exchange_refines g l sp s n m Hl (exchange_indices_range _ _ _ E Hi)) as Hr.
    unfold execute_exchange. rewrite (exchange_indices_valid _ _ E). cbn [negb].
    unfold refines in *. rewrite bind_run, E. exact Hr.
Qed.

(** C11: the arithmetic, comparison, bitwise and stack instructions implement the
    machine on lists. Whatever the frame, its gas and the words on its stack,
    the instruction fails exactly when the machine does, with the same kind
    of failure, leaving no gas and the state as it was; otherwise it leaves
    the machine's gas and words, and changes nothing but the stacks of the
    host. Each word it computes is the mathematical one of the table. *)
Theorem stack_instructions_refine (instruction : ast) (op : StackOp) (fork blob_fee : Z)
    (context : address) (f : FrameTransition) (l : list Z) (s : SpecState) :
  stack_op instruction = Some op → operands_ok instruction → frame_stack l f.(ft_sp) s →
  match run_stack_op op f.(ft_gas) l with
  | (g', l', Continue) => ∃ sp' r,
      execute_instruction fork blob_fee context f instruction s =
        (Ok (f.(ft_pc), g', f.(ft_state_gas), f.(ft_state_spill), f.(ft_refund), sp',
           f.(ft_memory), Running), on_stacks r s) ∧
      frame_stack l' sp' (on_stacks r s)
  | (_, _, Failed kind) => ∃ sp',
      execute_instruction fork blob_fee context f instruction s =
        (Ok (f.(ft_pc), GAS_ZERO, f.(ft_state_gas), f.(ft_state_spill), f.(ft_refund), sp',
           f.(ft_memory), Exceptional kind), s)
  end.
Proof using.
  intros Hop Hi Hl.
  destruct (arithmetic_refines f.(ft_gas) l f.(ft_sp) s Hl) as (R1&R2&R3&R4&R5&R6&R7&R8&R9&R10).
  destruct (comparison_refines f.(ft_gas) l f.(ft_sp) s Hl) as (S1&S2&S3&S4&S5&S6).
  destruct (bitwise_refines f.(ft_gas) l f.(ft_sp) s Hl) as (T1&T2&T3&T4&T5&T6&T7&T8&T9).
  pose proof (deep_refines f.(ft_gas) l f.(ft_sp) s instruction op Hl Hop Hi) as Hdeep.
  destruct instruction; try discriminate Hop; cbn [execute_instruction]; unfold simple;
    apply finish_refines; auto.
  - by apply exp_refines.
  - by apply pop_refines.
  - injection Hop as <-. by apply push_refines.
  - injection Hop as <-. by apply dup_refines.
  - injection Hop as <-. apply (exchange_refines _ _ _ _ 0 n); [done|]. cbn in Hi. lia.
Qed.
End refinement.

(** ** A frame with two words *)

Module Sample.
(** A trie without accounts. *)
Definition empty_trie : StateTrie := {|
  stateless_account_by_key _ _ := mret EMPTY_ACCOUNT;
  stateless_storage_by_key _ _ := mret 0;
|}.
Definition sample_state : SpecState :=
  mkSpec (set_stacks (mkStacks [3; 10] [] []) initial_state) initial_environment EMPTY_SCRATCH_SLICE.
Definition sample_frame : FrameTransition :=
  mkFrame 1 100 0 0 0 Running (mkStackPointer 2 2) 0 0
    (mkMessage ZERO_ADDRESS ZERO_ADDRESS ZERO_ADDRESS 0 0 false 0) EMPTY_CODE EMPTY_CALLDATA
    EMPTY_OUTPUT_SLICE.
Lemma sample_stack : frame_stack [10; 3] sample_frame.(ft_sp) sample_state.
Proof.
  split_and!; [done| | |cbn; lia].
  - split_and!; [done|done|done|]. intros [|[|i]] Hi; [done|done|cbn in Hi; lia].
  - constructor; [by split|]. constructor; [by split|]. constructor.
Qed.
End Sample.

Lemma stack_instructions_refine_witness :
  ∃ sp' r,
    @execute_instruction toy_Keccak Sample.empty_trie Osaka 0 ZERO_ADDRESS Sample.sample_frame SUB
      Sample.sample_state =
      (Ok (1, 97, 0, 0, 0, sp', 0, Running), on_stacks r Sample.sample_state) ∧
    frame_stack [7] sp' (on_stacks r Sample.sample_state).
Proof.
  exact (@stack_instructions_refine toy_Keccak Sample.empty_trie SUB (arith2 3 (λ a b, wrap (a - b)))
    Osaka 0 ZERO_ADDRESS Sample.sample_frame [10; 3] Sample.sample_state
    eq_refl I Sample.sample_stack).
Defined.
