(* ===== verification/Stable.v ===== *)
(** * Stable: what the operations of a frame leave alone

    An operation that returns leaves the frame stack of the host and the
    registers of the specification as they are, unless it is one of the few
    that change them. The predicate is closed under the combinators of the
    monad, so the tactic [stable] proves it by following the definition; its
    hint database holds the operations already done. *)

From Stdlib Require Import ZArith Lia.
From stdpp Require Import base tactics option list gmap.
From S2P Require Import Prelude PyBytes HostTypes SailRuntime Words ChainConfig Regions RegionAccess Gas GasSchedule Crypto Storage Accounts WarmLogs Journal CodeDb Bal Accelerators Secp256k1 OperandStack Environment Scratch Rlp Kernel Machine Instructions Execute Precompiles Interpreter.
Local Open Scope Z_scope.

(** An observation the operation does not change. *)
Definition stable {S O A} (obs : S → O) (m : M S A) : Prop :=
  ∀ s a s', m s = (Ok a, s') → obs s' = obs s.

Section rules.
Context {S O : Type} (obs : S → O).

Lemma stable_ret {A} (a : A) : stable obs (mret a).
Proof. by intros s b s' [= _ <-]. Qed.
Lemma stable_gets {A} (f : S → A) : stable obs (gets f).
Proof. by intros s b s' [= _ <-]. Qed.
Lemma stable_reads {A} (f : S → outcome A) : stable obs (reads f).
Proof. by intros s b s' [= _ <-]. Qed.
Lemma stable_outcome {A} (o : outcome A) : stable obs (of_outcome o).
Proof. by intros s b s' [= _ <-]. Qed.
Lemma stable_raise {A} e : stable obs (raise e : M S A).
Proof. by intros s b s' [=]. Qed.
Lemma stable_modify f : (∀ s, obs (f s) = obs s) → stable obs (modify f).
Proof. intros Hf s b s' [= _ <-]. apply Hf. Qed.
Lemma stable_bind {A B} (m : M S A) (f : A → M S B) :
  stable obs m → (∀ a, stable obs (f a)) → stable obs (m ≫= f).
Proof.
  intros Hm Hf s b s' (a & s1 & H1 & H2)%runs_bind.
  by rewrite (Hf _ _ _ _ H2), (Hm _ _ _ H1).
Qed.
Lemma stable_when b (m : M S unit) : stable obs m → stable obs (when b m).
Proof. destruct b; [done|]. intros _. apply stable_ret. Qed.
Lemma stable_for_each {X} (body : X → M S unit) xs :
  (∀ x, stable obs (body x)) → stable obs (for_each body xs).
Proof.
  intros Hb. induction xs as [|x xs IH]; cbn; [apply stable_ret|].
  apply stable_bind; [apply Hb|done].
Qed.
End rules.

(** A call of a component. *)
Lemma stable_zoom {S C O O' A} `{Component S C} (obs : S → O) (cobs : C → O') (m : M C A) :
  (∀ c s, cobs c = cobs (view s) → obs (put c s) = obs s) → stable cobs m → stable obs (zoom m).
Proof.
  intros Hput Hm s a s' E. rewrite zoom_run in E. injection E as E1 <-.
  apply Hput. apply (Hm _ a). by rewrite <-E1, <-surjective_pairing.
Qed.
Lemma stable_any {S A} (m : M S A) : stable (λ _, tt : unit) m.
Proof. done. Qed.

(** The observations: the frame stack, and with the registers. *)
Definition frames_of (r : Stacks) : list FrameContinuation := r.(continuation_frames).
Definition host_frames (s : HostState) : list FrameContinuation := frames_of s.(stacks).
Definition spec_frames (s : SpecState) : Environment * list FrameContinuation :=
  (s.(sp_env), host_frames s.(sp_host)).

Lemma host_world {A} (m : M World A) : stable host_frames (zoom m).
Proof. apply (stable_zoom _ (λ _, tt)); [by intros c []|done]. Qed.
Lemma host_regions {A} (m : M Regions A) : stable host_frames (zoom m).
Proof. apply (stable_zoom _ (λ _, tt)); [by intros c []|done]. Qed.
Lemma host_codes {A} (m : M CodeState A) : stable host_frames (zoom m).
Proof. apply (stable_zoom _ (λ _, tt)); [by intros c []|done]. Qed.
Lemma host_bal {A} (m : M BalState A) : stable host_frames (zoom m).
Proof. apply (stable_zoom _ (λ _, tt)); [by intros c []|done]. Qed.
Lemma host_stacks {A} (m : M Stacks A) : stable frames_of m → stable host_frames (zoom m).
Proof. apply stable_zoom. by intros c []. Qed.
Lemma spec_zoom {A} (m : M HostState A) : stable host_frames m → stable spec_frames (zoom m).
Proof.
  apply stable_zoom. intros c s E. unfold spec_frames. cbn in *. by rewrite E.
Qed.

Create HintDb stable.
#[export] Hint Resolve @stable_ret @stable_gets @stable_reads @stable_outcome @stable_raise
  @stable_any @host_world @host_regions @host_codes @host_bal : stable.

(** One step through a definition; a call is unfolded. *)
Ltac stable_head m := lazymatch m with ?f _ => stable_head f | _ => m end.
Ltac stable_step :=
  match goal with
  | |- ∀ _, _ => intro
  | |- stable _ (mbind _ _) => apply stable_bind
  | |- stable _ (when _ _) => apply stable_when
  | |- stable spec_frames (on_host _) => apply spec_zoom
  | |- stable spec_frames (zoom _) => apply spec_zoom
  | |- stable host_frames (zoom _) => apply host_stacks
  | |- stable _ (for_each _ _) => apply stable_for_each
  | |- stable _ (let '_ := ?x in _) => destruct x
  | |- stable _ (match ?x with _ => _ end) => destruct x
  | |- stable _ (if ?b then _ else _) => destruct b
  | |- stable _ (modify _) => apply stable_modify; intro; reflexivity
  | |- stable _ ?m => let h := stable_head m in unfold h
  end.
Ltac stable := repeat first [solve [auto with stable] | stable_step].

(** ** The loops *)

Lemma analyze_loop_stable fuel code fork table position :
  stable host_frames (analyze_loop fuel code fork table position).
Proof. revert position. induction fuel as [|fuel IH]; intros; cbn; stable. Qed.

Lemma pc_word_loop_stable input start count input_length value offsets :
  stable host_frames (pc_word_loop input start count input_length value offsets).
Proof. revert value. induction offsets as [|x l IH]; intros; cbn; stable. Qed.

#[export] Hint Resolve analyze_loop_stable pc_word_loop_stable : stable.

Section kernel.
Context `{Keccak} `{StateTrie}.
(** What the trie is assumed to leave alone. *)
Context (Haccount : ∀ r k, stable spec_frames (stateless_account_by_key r k)).
Context (Hstorage : ∀ r k, stable spec_frames (stateless_storage_by_key r k)).
#[local] Hint Resolve Haccount Hstorage : stable.

Lemma k_aload_stable a : stable spec_frames (k_aload a).
Proof using Haccount. stable. Qed.
#[local] Hint Resolve k_aload_stable : stable.
Lemma k_sload_stable a s : stable spec_frames (k_sload a s).
Proof using All. stable. Qed.
End kernel.
