(* ===== verification/Ledger.v ===== *)
(** * Ledger: the accounts a transaction sees, and the transfer of value

    The account a world holds under a key is the current value of its row in
    the transaction table, or else of the block cache. Reading an account
    brings it into this ledger; storing one changes that entry alone; a
    transfer moves value between two entries, so that a sum over any accounts
    that include both is the same before and after. *)

From Stdlib Require Import ZArith Lia.
From stdpp Require Import base tactics option list.
From S2P Require Import Prelude PyBytes SailRuntime OrderedDict HostTypes Words WordTheorems WordBits ChainConfig Regions RegionAccess RegionFacts Crypto Storage Accounts WarmLogs Journal JournalFacts AccountTheorems Bal Environment Scratch Kernel StackMachine Stable.
Local Open Scope Z_scope.

(** ** Entries of the world *)

Definition world_ledger (w : World) (k : bytes) : option Account := current <$> account_row w k.

(** The world after an operation on the entry [k], which now holds [x]. *)
Definition enters (k : bytes) (x : Account) (w w' : World) : Prop :=
  world_ledger w' k = Some x ∧ ∀ j, j ≠ k → world_ledger w' j = world_ledger w j.

Lemma enters_refl k x w : world_ledger w k = Some x → enters k x w w.
Proof. by split. Qed.
Lemma enters_trans k x y w1 w2 w3 : enters k x w1 w2 → enters k y w2 w3 → enters k y w1 w3.
Proof. intros [_ H1] [H2 H3]. split; [done|]. intros j Hj. by rewrite H3, H1. Qed.

(** A world with the same two tables. *)
Lemma same_tables w w' k :
  w'.(account_tx) = w.(account_tx) → w'.(account_block) = w.(account_block) →
  world_ledger w' k = world_ledger w k.
Proof. unfold world_ledger, account_row. by intros -> ->. Qed.

Lemma write_enters op f a x w :
  write_account op f → stable account_block (op a) → world_ledger w (_address_key a) = Some x →
  ∃ w', op a w = (Ok tt, w') ∧ enters (_address_key a) (f x) w w'.
Proof.
  intros Hw Hb Hx. specialize (Hw a w). unfold world_ledger in Hx.
  destruct (account_row w (_address_key a)) as [row|]; [|done]. injection Hx as <-.
  destruct Hw as (w' & E & H1 & H2). exists w'. split; [done|].
  pose proof (Hb _ _ _ E) as Hblock. split; unfold world_ledger, account_row.
  - by rewrite H1.
  - intros j Hj. by rewrite H2, Hblock.
Qed.

(** ** Entries of the whole state *)

Definition ledger (s : SpecState) : bytes → option Account := world_ledger s.(sp_host).(world).
Definition updates (k : bytes) (x : Account) (s s' : SpecState) : Prop :=
  enters k x s.(sp_host).(world) s'.(sp_host).(world) ∧ s'.(sp_env) = s.(sp_env).

Lemma updates_trans k x y s1 s2 s3 : updates k x s1 s2 → updates k y s2 s3 → updates k y s1 s3.
Proof. intros [H1 E1] [H2 E2]. split; [by eapply enters_trans|by rewrite E2]. Qed.

Lemma on_world_run {A} (m : M World A) s a w :
  m s.(sp_host).(world) = (Ok a, w) →
  on_host m s = (Ok a, put (put w s.(sp_host)) s).
Proof.
  intros E. unfold on_host. rewrite !zoom_run. change (view (view s)) with s.(sp_host).(world).
  by rewrite E.
Qed.
Lemma on_world_read {A} (m : M World A) s a :
  m s.(sp_host).(world) = (Ok a, s.(sp_host).(world)) → on_host m s = (Ok a, s).
Proof. intros E. rewrite (on_world_run m s a _ E). by destruct s as [[] ? ?]. Qed.
Lemma write_updates (m : M World unit) s k x w :
  m s.(sp_host).(world) = (Ok tt, w) → enters k x s.(sp_host).(world) w →
  ∃ s', on_host m s = (Ok tt, s') ∧ updates k x s s'.
Proof. intros E Hw. eexists. split; [by apply on_world_run|]. by split. Qed.

(** Writes of the transaction table, by their lemma. *)
Lemma table_updates op f a x s :
  write_account op f → stable account_block (op a) → ledger s (_address_key a) = Some x →
  ∃ s', on_host (op a) s = (Ok tt, s') ∧ updates (_address_key a) (f x) s s'.
Proof.
  intros Hw Hb Hx. destruct (write_enters op f a x _ Hw Hb Hx) as (w & E & He).
  by apply (write_updates _ _ _ _ w).
Qed.

Lemma clear_updates a x s :
  ledger s (_address_key a) = Some x →
  ∃ s', on_host (storage_tx_clear a) s = (Ok tt, s') ∧ updates (_address_key a) x s s'.
Proof.
  intros Hx. eapply write_updates; [reflexivity|]. split; [|intros j _];
    [rewrite <-Hx|]; by apply same_tables.
Qed.

(** A write that is made only when it would change something. *)
Lemma when_updates (b : bool) (m : M SpecState unit) k x y s :
  (∃ s', m s = (Ok tt, s') ∧ updates k y s s') → ledger s k = Some x → (b = false → y = x) →
  ∃ s', when b m s = (Ok tt, s') ∧ updates k y s s'.
Proof.
  intros Hm Hx Hb. destruct b; [done|]. exists s. split; [done|]. rewrite Hb by done.
  split; [by apply enters_refl|done].
Qed.

Lemma account_set_info_kept cur i :
  let next := account_set_info cur i in
  next.(info).(storage_root) = cur.(info).(storage_root) → next.(present) = cur.(present) →
  next.(storage_cleared) = cur.(storage_cleared) →
  set_info (set_code_hash next.(info).(code_hash) (set_nonce next.(info).(nonce)
    (set_balance next.(info).(balance) cur.(info)))) cur = next.
Proof.
  unfold account_set_info, account_delete, EMPTY_ACCOUNT_INFO.
  destruct cur as [[] ? ? ? ?], i; destruct (account_info_empty _); cbn; intros; by simplify_eq.
Qed.

(** Storing the information of an account leaves the normalised account under
    its key, and every other entry as it was. *)
Lemma store_account_info_updates a cur i s :
  ledger s (_address_key a) = Some cur →
  ∃ s', store_account_info a cur i s = (Ok tt, s') ∧
    updates (_address_key a) (account_set_info cur i) s s'.
Proof.
  intros Hcur. unfold store_account_info. set (next := account_set_info cur i).
  destruct (when_updates (account_info_empty i) (on_host (storage_tx_clear a)) (_address_key a) cur cur s)
    as (s1 & E1 & U1); [by apply clear_updates|done..|].
  rewrite bind_run, E1. pose proof (proj1 (proj1 U1)) as Hcur1.
  destruct (_ || _) eqn:Hchanged.
  - unfold store_account. destruct (table_updates _ _ a cur s1 (update_write next)) as (s2 & E2 & U2);
      [stable|done|]. exists s2. split; [done|]. by eapply updates_trans.
  - apply orb_false_iff in Hchanged as [Hr [Hp Hc]%orb_false_iff].
    apply negb_false_iff in Hr, Hp, Hc. apply bool_decide_eq_true in Hr. apply Bool.eqb_prop in Hp, Hc.
    pose proof (account_set_info_kept cur i Hr Hp Hc) as Hnext. fold next in Hnext.
    set (x1 := set_info (set_balance next.(info).(balance) cur.(info)) cur).
    set (x2 := set_info (set_nonce next.(info).(nonce) x1.(info)) x1).
    edestruct (when_updates (negb (next.(info).(balance) =? cur.(info).(balance)))
      (on_host (acct_tx_set_balance a next.(info).(balance))) (_address_key a) cur x1 s1)
      as (s2 & E2 & U2); [|done| |].
    { apply (table_updates (λ a, acct_tx_set_balance a _) _ _ _ _ (set_balance_write _)); [stable|done]. }
    { intros Hb%negb_false_iff%Z.eqb_eq. unfold x1. rewrite Hb. by destruct cur as [[] ? ? ? ?]. }
    edestruct (when_updates (negb (next.(info).(nonce) =? cur.(info).(nonce)))
      (on_host (acct_tx_set_nonce a next.(info).(nonce))) (_address_key a) x1 x2 s2)
      as (s3 & E3 & U3); [|exact (proj1 (proj1 U2))| |].
    { apply (table_updates (λ a, acct_tx_set_nonce a _) _ _ _ _ (set_nonce_write _)); [stable|].
      exact (proj1 (proj1 U2)). }
    { intros Hb%negb_false_iff%Z.eqb_eq. unfold x2. rewrite Hb. by destruct cur as [[] ? ? ? ?]. }
    edestruct (when_updates (negb (bool_decide (next.(info).(code_hash) = cur.(info).(code_hash))))
      (on_host (acct_tx_set_code_hash a next.(info).(code_hash))) (_address_key a) x2 next s3)
      as (s4 & E4 & U4); [|exact (proj1 (proj1 U3))| |].
    { destruct (table_updates (λ a, acct_tx_set_code_hash a next.(info).(code_hash)) _ a x2 s3
        (set_code_hash_write _)) as (s4 & E4 & U4); [stable|exact (proj1 (proj1 U3))|].
      exists s4. split; [done|]. rewrite <-Hnext. exact U4. }
    { intros Hb%negb_false_iff%bool_decide_eq_true. rewrite <-Hnext, Hb. by destruct cur as [[] ? ? ? ?]. }
    exists s4. rewrite bind_run, E2, bind_run, E3, E4. split; [done|].
    eapply updates_trans; [exact U1|]. eapply updates_trans; [exact U2|].
    by eapply updates_trans.
Qed.

(** ** Balances *)

Definition balance_of (s : SpecState) (k : bytes) : Z :=
  match ledger s k with Some x => x.(info).(balance) | None => 0 end.
(** What the accounts of a list hold together. *)
Definition total (s : SpecState) (ks : list bytes) : Z := foldr (λ k t, balance_of s k + t) 0 ks.

(** An account with more (or less) on it; nothing happens for nothing. *)
Definition credited (x : Account) (v : Z) : Account :=
  if v =? 0 then x else account_set_info x (set_balance (x.(info).(balance) + v) x.(info)).

Lemma account_set_info_balance x i : (account_set_info x i).(info).(balance) = i.(balance).
Proof.
  unfold account_set_info, account_delete, account_info_empty, word_is_zero, WORD_ZERO.
  destruct (bool_decide _), (nonce i =? 0), (Z.eqb_spec i.(balance) 0); cbn; congruence.
Qed.
Lemma credited_balance x v : (credited x v).(info).(balance) = x.(info).(balance) + v.
Proof.
  unfold credited. destruct (Z.eqb_spec v 0); [lia|]. by rewrite account_set_info_balance.
Qed.

Lemma total_same s s' ks : (∀ k, k ∈ ks → ledger s' k = ledger s k) → total s' ks = total s ks.
Proof.
  induction ks as [|k ks IH]; intros Hk; [done|]. cbn. unfold balance_of at 1 3.
  rewrite Hk by left. f_equal. apply IH. intros j Hj. apply Hk. by right.
Qed.
(** Changing one account changes the sum by as much. *)
Lemma total_update k x s s' ks :
  updates k x s s' → NoDup ks → k ∈ ks →
  total s' ks = total s ks + (x.(info).(balance) - balance_of s k).
Proof.
  intros [[Hx Hne] _]. induction 1 as [|j ks Hj _ IH]; [by intros ?%not_elem_of_nil|].
  intros [->|Hin]%elem_of_cons; cbn.
  - change (balance_of s' j + total s' ks = balance_of s j + total s ks + (x.(info).(balance) - balance_of s j)).
    rewrite (total_same s s' ks).
    + unfold balance_of at 1, ledger. rewrite Hx. lia.
    + intros k' Hk'. apply Hne. by intros ->.
  - change (balance_of s' j + total s' ks = balance_of s j + total s ks + (x.(info).(balance) - balance_of s k)).
    rewrite IH by done. assert (balance_of s' j = balance_of s j) as ->; [|lia].
    unfold balance_of, ledger. rewrite Hne; [done|]. by intros ->.
Qed.

Lemma word_credit b v : is_word b → 0 <= v → b + v < WORD_MODULUS → alu_add b v = Ok (b + v).
Proof.
  intros Hb Hv Hs. unfold alu_add, is_word in *. rewrite word_add_ok by (unfold is_word; lia).
  by rewrite wrap_id by (unfold is_word; lia).
Qed.
Lemma word_debit b v : is_word b → 0 <= v <= b → alu_sub b v = Ok (b - v).
Proof.
  intros Hb Hv. unfold alu_sub, is_word in *. rewrite word_sub_ok by (unfold is_word; lia).
  by rewrite wrap_id by (unfold is_word; lia).
Qed.

Lemma address_key_inj a b : _address_key a = _address_key b → a = b.
Proof.
  unfold _address_key, _fixed_wire_bytes. intros E.
  by rewrite <-(rev_involutive a), E, rev_involutive.
Qed.

Section trie.
Context `{Keccak} `{StateTrie}.

(** ** Reading accounts *)

Lemma touch_run a s :
  ∃ s', on_host (bal_account_touch a) s = (Ok tt, s') ∧
    s'.(sp_host).(world) = s.(sp_host).(world) ∧ s'.(sp_env) = s.(sp_env) ∧
    s'.(sp_host).(regions) = s.(sp_host).(regions).
Proof. unfold on_host. rewrite !zoom_run. eexists. by split. Qed.

(** A cached account is read without changing the ledger. *)
Lemma k_aload_cached a x s :
  ledger s (_address_key a) = Some x →
  ∃ s', k_aload a s = (Ok x, s') ∧ s'.(sp_env) = s.(sp_env) ∧
    s'.(sp_host).(world) = s.(sp_host).(world) ∧ s'.(sp_host).(regions) = s.(sp_host).(regions).
Proof.
  intros Hx. unfold ledger, world_ledger, account_row in Hx.
  unfold k_aload. rewrite bind_run, (on_world_read (acct_tx_get a) s _ eq_refl).
  destruct (od_get (_address_key a) _) as [row|].
  - injection Hx as <-. eexists. by split.
  - cbn [ar_found]. destruct (touch_run a s) as (s1 & E1 & Hw & He & Hr).
    rewrite bind_run, E1.
    rewrite bind_run, (on_world_read (acct_block_get a) s1 _ eq_refl).
    rewrite Hw. destruct (od_get _ _) as [b|]; [|done].
    injection Hx as <-. eexists. split; [done|]. cbn. by rewrite Hw.
Qed.

Lemma read_updates a x s s' :
  ledger s (_address_key a) = Some x → s'.(sp_env) = s.(sp_env) →
  s'.(sp_host).(world) = s.(sp_host).(world) → updates (_address_key a) x s s'.
Proof. intros Hx He Hw. split; [|done]. rewrite Hw. by apply enters_refl. Qed.

(** ** Accounts that come from the trie *)

(** What a read is seen to keep: the world, the regions and the registers. *)
Definition spec_view (s : SpecState) : World * Regions * Environment :=
  (s.(sp_host).(world), s.(sp_host).(regions), s.(sp_env)).

(** An account read holds afterwards, whether it was cached, written or had to
    come from a trie that leaves the rest of the state alone. *)
Lemma k_aload_enters (Htrie : ∀ r k, stable spec_view (stateless_account_by_key r k)) a s x s' :
  runs (k_aload a) s x s' →
  enters (_address_key a) x s.(sp_host).(world) s'.(sp_host).(world) ∧
  s'.(sp_host).(regions) = s.(sp_host).(regions) ∧ s'.(sp_env) = s.(sp_env).
Proof.
  unfold k_aload. rewrite runs_bind. unfold runs at 1.
  rewrite (on_world_read (acct_tx_get a) s _ eq_refl). intros (r & s0 & [= <- <-] & Hrun).
  destruct (od_get (_address_key a) s.(sp_host).(world).(account_tx)) as [row|] eqn:Htx.
  { injection Hrun as <- <-. split; [|done]. apply enters_refl.
    unfold world_ledger, account_row. by rewrite Htx. }
  cbn [ar_found] in Hrun. apply runs_bind in Hrun as ([] & s1 & E1 & Hrun).
  destruct (touch_run a s) as (? & E1' & Hw & He & Hr). unfold runs in E1. rewrite E1' in E1.
  injection E1 as ->. apply runs_bind in Hrun as (r & s0 & E2 & Hrun). unfold runs in E2.
  rewrite (on_world_read (acct_block_get a) s1 _ eq_refl) in E2. injection E2 as <- <-. rewrite Hw in Hrun.
  destruct (od_get (_address_key a) s.(sp_host).(world).(account_block)) as [b|] eqn:Hblock.
  { injection Hrun as <- <-. rewrite Hw. split; [|done]. apply enters_refl.
    unfold world_ledger, account_row. by rewrite Htx, Hblock. }
  cbn [ar_found] in Hrun. apply runs_bind in Hrun as (e & s0 & [= <- <-] & Hrun).
  apply runs_bind in Hrun as (acc & s2 & E3 & Hrun). apply Htrie in E3. injection E3 as Hw2 Hr2 He2.
  apply runs_bind in Hrun as ([] & s3 & E4 & [= <- <-]).
  set (w3 := set_account_block (od_set (_address_key a) (mkAccountBlockRow a (mkAcctValue acc acc)
    (Some (keccak256_address a))) s.(sp_host).(world).(account_block)) s.(sp_host).(world)).
  unfold runs in E4. rewrite (on_world_run _ s2 tt w3) in E4.
  2: { unfold acct_block_cache. rewrite bind_run, gets_run. rewrite Hw2, Hw, Hblock. done. }
  injection E4 as <-.
  change (enters (_address_key a) acc s.(sp_host).(world) w3 ∧
    s2.(sp_host).(regions) = s.(sp_host).(regions) ∧ s2.(sp_env) = s.(sp_env)).
  rewrite Hr2, He2. split; [|done]. unfold w3. split.
  - unfold world_ledger, account_row. cbn. by rewrite Htx, od_get_set_eq.
  - intros j Hj. unfold world_ledger, account_row. cbn. by rewrite od_get_set_ne.
Qed.

(** ** Payments *)

Lemma k_add_balance_updates a v x s :
  ledger s (_address_key a) = Some x → is_word x.(info).(balance) → 0 <= v →
  x.(info).(balance) + v < WORD_MODULUS →
  ∃ s', k_add_balance a v s = (Ok tt, s') ∧ updates (_address_key a) (credited x v) s s'.
Proof.
  intros Hx Hb Hv Hs. destruct (k_aload_cached a x s Hx) as (s1 & E1 & He & Hw & _).
  pose proof (read_updates a x s s1 Hx He Hw) as U1.
  unfold k_add_balance. rewrite bind_run, E1. unfold credited, word_is_zero, WORD_ZERO.
  destruct (Z.eqb_spec v 0) as [->|]; cbn [negb]; [by exists s1|].
  rewrite bind_run, of_outcome_run, word_credit by done.
  destruct (store_account_info_updates a x (set_balance (x.(info).(balance) + v) x.(info)) s1
    (proj1 (proj1 U1))) as (s2 & E2 & U2).
  exists s2. split; [done|]. by eapply updates_trans.
Qed.

Lemma k_sub_balance_updates a v x s :
  ledger s (_address_key a) = Some x → is_word x.(info).(balance) → 0 <= v <= x.(info).(balance) →
  ∃ s', k_sub_balance a v s = (Ok tt, s') ∧ updates (_address_key a) (credited x (- v)) s s'.
Proof.
  intros Hx Hb Hv. destruct (k_aload_cached a x s Hx) as (s1 & E1 & He & Hw & _).
  pose proof (read_updates a x s s1 Hx He Hw) as U1.
  unfold k_sub_balance. rewrite bind_run, E1. unfold credited, word_is_zero, WORD_ZERO.
  destruct (Z.eqb_spec v 0) as [->|]; cbn [negb]; [by exists s1|].
  rewrite (proj2 (Z.eqb_neq (- v) 0)) by lia.
  rewrite bind_run, of_outcome_run, word_debit by done.
  destruct (store_account_info_updates a x (set_balance (x.(info).(balance) - v) x.(info)) s1
    (proj1 (proj1 U1))) as (s2 & E2 & U2).
  exists s2. split; [done|]. by eapply updates_trans.
Qed.

(** The log of a transfer changes no account. *)
Lemma k_emit_transfer_log_updates src dst v s :
  py_len src = 20 → py_len dst = 20 →
  ∃ s', k_emit_transfer_log src dst v s = (Ok tt, s') ∧ s'.(sp_env) = s.(sp_env) ∧
    ∀ k, ledger s' k = ledger s k.
Proof.
  intros Hsrc Hdst. unfold k_emit_transfer_log. unfold get_profile. rewrite bind_run, gets_run.
  match goal with |- context [if ?b then _ else _] => destruct b end; [by exists s|].
  rewrite bind_run, of_outcome_run, address_to_word_ok by done.
  rewrite bind_run, of_outcome_run, address_to_word_ok by done.
  rewrite zoom_run, k_log_emit, zoom_run, emit_log_run.
  eexists. split; [reflexivity|]. split; [done|]. intros k. by apply same_tables.
Qed.

(** C6: a transfer moves value and nothing else. Between two accounts in the
    ledger, of which the first can pay and the second cannot overflow, it
    returns; the payer has that much less and the receiver that much more,
    both normalised (an account left empty is deleted); every other account
    is unchanged; and the sum over any accounts that include the two is what
    it was. A transfer to oneself changes no account. *)
Theorem transfer_conserves (src dst : address) (v : Z) (x y : Account) (s : SpecState) :
  ledger s (_address_key src) = Some x → ledger s (_address_key dst) = Some y →
  py_len src = 20 → py_len dst = 20 → is_word x.(info).(balance) → is_word y.(info).(balance) →
  0 <= v <= x.(info).(balance) → y.(info).(balance) + v < WORD_MODULUS →
  ∃ s', k_transfer src dst v s = (Ok tt, s') ∧
    (∀ k, ledger s' k =
       if bool_decide (src = dst) then ledger s k
       else if bool_decide (k = _address_key src) then Some (credited x (- v))
       else if bool_decide (k = _address_key dst) then Some (credited y v)
       else ledger s k) ∧
    ∀ ks, NoDup ks → _address_key src ∈ ks → _address_key dst ∈ ks → total s' ks = total s ks.
Proof.
  intros Hx Hy Hsrc Hdst Hbx Hby Hv Hov. unfold k_transfer.
  destruct (k_aload_cached src x s Hx) as (s1 & E1 & He1 & Hw1 & _).
  assert (Hl1 : ∀ k, ledger s1 k = ledger s k) by (intros; unfold ledger; by rewrite Hw1).
  destruct (k_aload_cached dst y s1) as (s2 & E2 & He2 & Hw2 & _); [by rewrite Hl1|].
  assert (Hl2 : ∀ k, ledger s2 k = ledger s k) by (intros; unfold ledger; by rewrite Hw2, Hw1).
  rewrite bind_run, E1, bind_run, E2. unfold word_is_zero, WORD_ZERO.
  destruct (bool_decide (src = dst)) eqn:Hsd; [rewrite orb_true_r|rewrite orb_false_r].
  { exists s2. split; [done|]. split; [done|]. intros. by apply total_same. }
  apply bool_decide_eq_false in Hsd.
  assert (Hk : _address_key src ≠ _address_key dst) by (intros E; by apply Hsd, address_key_inj).
  destruct (Z.eqb_spec v 0) as [->|Hv0].
  { exists s2. split; [done|]. split; [|by intros; apply total_same]. intros k.
    repeat case_bool_decide; subst; by rewrite Hl2, ?Hx, ?Hy. }
  rewrite bind_run, of_outcome_run, word_debit by done.
  destruct (store_account_info_updates src x (set_balance (x.(info).(balance) - v) x.(info)) s2)
    as (s3 & E3 & U3); [by rewrite Hl2|].
  rewrite bind_run, E3, bind_run, of_outcome_run, word_credit by (done || lia).
  destruct (store_account_info_updates dst y (set_balance (y.(info).(balance) + v) y.(info)) s3)
    as (s4 & E4 & U4); [unfold ledger; rewrite (proj2 (proj1 U3)) by done; by rewrite <-Hy, <-Hl2|].
  rewrite bind_run, E4.
  destruct (k_emit_transfer_log_updates src dst v s4 Hsrc Hdst) as (s5 & E5 & _ & Hl5).
  exists s5. split; [done|]. split.
  - intros k. rewrite Hl5. unfold credited. rewrite (proj2 (Z.eqb_neq v 0)), (proj2 (Z.eqb_neq (- v) 0)) by lia.
    destruct U3 as [[Hs3 Hn3] _], U4 as [[Hs4 Hn4] _]. unfold ledger in *.
    case_bool_decide; [subst; by rewrite Hn4|]. case_bool_decide; [by subst|].
    by rewrite Hn4, Hn3, Hl2.
  - intros ks Hnd Hin1 Hin2. rewrite (total_same s4 s5) by done.
    rewrite (total_update _ _ _ _ _ U4), (total_update _ _ _ _ _ U3), (total_same s s2) by done.
    rewrite !account_set_info_balance. cbn.
    assert (balance_of s2 (_address_key src) = x.(info).(balance)) as ->
      by (unfold balance_of; by rewrite Hl2, Hx).
    assert (balance_of s3 (_address_key dst) = y.(info).(balance)) as ->; [|lia].
    unfold balance_of, ledger. rewrite (proj2 (proj1 U3)) by done.
    change (world_ledger _ _) with (ledger s2 (_address_key dst)). by rewrite Hl2, Hy.
Qed.
End trie.

(** ** Two accounts, one cached and one already written *)

Module Purse.
Definition payer : address := replicate 20 Byte.x01.
Definition payee : address := replicate 20 Byte.x02.
Definition holding (v : Z) : Account := set_present true (set_info (set_balance v EMPTY_ACCOUNT_INFO) EMPTY_ACCOUNT).
Definition purse_world : World :=
  set_account_tx [(_address_key payee, mkAccountTxRow (holding 5) (holding 2))]
    (set_account_block [(_address_key payer, mkAccountBlockRow payer (mkAcctValue (holding 100) (holding 100)) None)]
      initial_world).
Definition purse_state : SpecState :=
  mkSpec (set_world purse_world initial_state) initial_environment EMPTY_SCRATCH_SLICE.
End Purse.

#[local] Existing Instance toy_Keccak.
#[local] Existing Instance Sample.empty_trie.

Lemma transfer_conserves_witness :
  ∃ s', k_transfer Purse.payer Purse.payee 100 Purse.purse_state = (Ok tt, s') ∧
    ledger s' (_address_key Purse.payer) = Some EMPTY_ACCOUNT ∧
    ledger s' (_address_key Purse.payee) = Some (Purse.holding 105) ∧
    total s' [_address_key Purse.payee; _address_key Purse.payer] = 105.
Proof.
  destruct (transfer_conserves Purse.payer Purse.payee 100 (Purse.holding 100) (Purse.holding 5)
    Purse.purse_state) as (s' & E & Hl & Ht); [vm_compute; reflexivity..|by vm_compute|by vm_compute|by vm_compute|by vm_compute|].
  exists s'. split; [done|]. rewrite !Hl, Ht.
  - split_and!; vm_compute; reflexivity.
  - apply (bool_decide_unpack _). vm_compute. exact I.
  - apply list_elem_of_further, list_elem_of_here.
  - apply list_elem_of_here.
Defined.
