(* ===== verification/AdmissionTheorems.v ===== *)
(** * AdmissionTheorems: what a transaction costs and when it is admitted

    The intrinsic gas and the gas price as closed formulas, what an admitted
    transaction satisfies, that it can pay for everything it may be charged,
    and the calldata floor that is enforced before the fork that introduces
    it. *)

From Stdlib Require Import ZArith Lia Strings.Byte.
From stdpp Require Import base tactics option list.
From S2P Require Import Prelude PyBytes HostTypes SailRuntime Words WordTheorems ChainConfig Regions RegionFacts RegionAccess Gas GasSchedule GasTheorems Crypto Storage Accounts WarmLogs CodeDb Secp256k1 Environment Scratch Rlp Kernel Precompiles TxCodec Transaction GasSettlement StackMachine Stable Ledger.
Local Open Scope Z_scope.

(** ** Intrinsic gas *)

Definition nonzero_bytes (data : bytes) : Z :=
  Z.of_nat (length (filter (λ b, Z_of_byte b ≠ 0) data)).
Definition zero_bytes (data : bytes) : Z := py_len data - nonzero_bytes data.

Lemma nonzero_bytes_le data : 0 <= nonzero_bytes data <= py_len data.
Proof.
  unfold nonzero_bytes, py_len. pose proof (length_filter (λ b, Z_of_byte b ≠ 0) data). lia.
Qed.

(** The price of the recipient from Amsterdam on: creations, transfers to
    others, and a call of oneself for nothing. *)
Definition recipient_price (tx : Transaction) : Z :=
  if tx.(is_create) then 11000 + (if tx.(tx_value) =? 0 then 0 else 1756)
  else if bool_decide (tx.(recipient) = tx.(tx_sender)) then 0
  else 3000 + (if tx.(tx_value) =? 0 then 0 else 6000).

(** The execution gas and the floor a transaction is charged for its data, its
    lists and its kind. *)
Definition intrinsic_price (fork : Z) (tx : Transaction) (data : bytes) : Z * Z :=
  let z := zero_bytes data in let nz := nonzero_bytes data in
  let a := tx.(access_list).(address_count) in let k := tx.(access_list).(slot_count) in
  let n := tx.(authorizations).(ar_count) in
  let initcode := if tx.(is_create) && (Shanghai <=? fork) then 2 * words_of (py_len data) else 0 in
  if fork <? Amsterdam then
    (21000 + (4 * z + 16 * nz) + 2400 * a + 1900 * k + 25000 * n +
       (if tx.(is_create) then 32000 else 0) + initcode,
     21000 + (10 * z + 40 * nz))
  else
    (12000 + (4 * z + 16 * nz) + recipient_price tx + 4280 * a + 5048 * k + 7816 * n + initcode,
     12000 + 64 * (z + nz) + recipient_price tx + 1280 * a + 2048 * k).

(** The counts the decoder lets through, and data in the input region. *)
Definition tx_sized (tx : Transaction) (h : HostState) : Prop :=
  slice_in RInput tx.(input_src) h ∧ tx.(input_src).(sl_len) <= 2 ^ 30 ∧
  0 <= tx.(access_list).(address_count) <= 2 ^ 30 ∧
  0 <= tx.(access_list).(slot_count) <= 2 ^ 30 ∧ 0 <= tx.(authorizations).(ar_count) <= 2 ^ 30.

Section intrinsic.
Context (profile : ProtocolProfileFields) (tx : Transaction) (h : HostState) (Hsized : tx_sized tx h).
Let data := slice_data RInput tx.(input_src) h.

Lemma data_length : py_len data = tx.(input_src).(sl_len) ∧ 0 <= py_len data <= 2 ^ 30.
Proof using Hsized.
  destruct Hsized as (Hin & Hle & _). unfold data. rewrite slice_data_length by done.
  destruct Hin as (_ & ? & _). lia.
Qed.

Lemma calldata_bytes_run : calldata_bytes tx.(input_src) h = (Ok (zero_bytes data, nonzero_bytes data), h).
Proof using Hsized.
  destruct data_length as [Hl _]. pose proof (nonzero_bytes_le data).
  unfold calldata_bytes, slice_count_nonzero, stateless_input_count_nonzero, _region_bytes. py_step.
  fold (slice_data RInput tx.(input_src) h). fold data. unfold code_length.
  rewrite Uint_ok by (pose proof (nonzero_bytes_le data); unfold nonzero_bytes in *; lia). py_step.
  fold (nonzero_bytes data). rewrite (proj2 (Z.leb_le _ _)) by lia. unfold zero_bytes. by rewrite Hl.
Qed.

Lemma calldata_cost_run :
  calldata_cost tx.(input_src) h = (Ok (4 * zero_bytes data + 16 * nonzero_bytes data), h).
Proof using Hsized.
  destruct data_length as [_ Hl]. pose proof (nonzero_bytes_le data).
  unfold calldata_cost. rewrite bind_run, calldata_bytes_run. unfold transaction_calldata_cost, of_outcome.
  unfold G_txdatazero, G_txdatanonzero. rewrite BoundedUint_ok; [done|]. unfold zero_bytes. lia.
Qed.

Lemma initcode_price :
  0 <= words_of (py_len data) <= 2 ^ 30 ∧
  transaction_initcode_gas profile tx.(input_src).(sl_len) =
  Ok (if Shanghai <=? fork profile then 2 * words_of (py_len data) else 0).
Proof using Hsized.
  destruct data_length as [Hl Hr]. rewrite <-Hl.
  assert (0 <= words_of (py_len data) <= 2 ^ 30) as Hw.
  { split; [apply words_of_nonneg; lia|]. unfold words_of. apply Z.div_le_upper_bound; lia. }
  split; [done|]. unfold transaction_initcode_gas. destruct (Shanghai <=? fork profile); [|done].
  rewrite memory_word_count_ok by lia. cbn [mbind outcome_bind]. rewrite Uint_ok by lia. f_equal. lia.
Qed.

Lemma recipient_cost_ok :
  amsterdam_recipient_execution_cost tx = Ok (recipient_price tx) ∧ 0 <= recipient_price tx <= 12756.
Proof using.
  unfold amsterdam_recipient_execution_cost, recipient_price, amsterdam_recipient_cost, word_nonzero, word_is_zero.
  unfold AMSTERDAM_CREATE_ACCESS, AMSTERDAM_TRANSFER_LOG_COST, AMSTERDAM_COLD_ACCOUNT_ACCESS, AMSTERDAM_TX_VALUE_COST, WORD_ZERO.
  destruct tx.(is_create), (tx.(tx_value) =? 0), (bool_decide (tx.(recipient) = tx.(tx_sender))); cbn [negb]; done.
Qed.

Lemma gas_cost_ok v : 0 <= v <= U64_MAX → gas_cost v = Ok v.
Proof using. apply BoundedUint_ok. Qed.

Lemma intrinsic_gas_run :
  intrinsic_gas profile tx h =
  (Ok (mkIntrinsicGas (intrinsic_price (fork profile) tx data).1 0
         (intrinsic_price (fork profile) tx data).2), h).
Proof using Hsized.
  destruct data_length as [Hlen Hl]. pose proof (nonzero_bytes_le data) as Hnz.
  destruct initcode_price as [Hw Hinit]. destruct recipient_cost_ok as [Hrec Hrecb].
  destruct Hsized as (_ & _ & Ha & Hk & Hn). unfold intrinsic_gas, intrinsic_price.
  assert (0 <= zero_bytes data <= 2 ^ 30) as Hz by (unfold zero_bytes; lia).
  destruct (fork profile <? Amsterdam) eqn:Hfork.
  - rewrite bind_run. unfold legacy_intrinsic_gas. rewrite bind_run, calldata_cost_run.
    unfold G_transaction, G_access_list_address, G_access_list_storage_key, PER_EMPTY_ACCOUNT, G_txcreate.
    set (e := _ + _ + _ + _ + _ + (if tx.(is_create) then 32000 else 0) + _).
    assert (He : 0 <= e <= 2 ^ 50).
    { unfold e. destruct tx.(is_create), (Shanghai <=? fork profile); cbn [andb]; lia. }
    match goal with |- context [of_outcome ?x h] => assert (x = Ok e) as -> end.
    { unfold e. destruct tx.(is_create); [rewrite Hinit; cbn [mbind outcome_bind]|];
        (rewrite gas_cost_ok; [f_equal|unfold U64_MAX]; destruct (Shanghai <=? fork profile); cbn [andb]; lia). }
    unfold of_outcome at 1. unfold legacy_calldata_floor. rewrite !bind_run, calldata_bytes_run.
    unfold transaction_calldata_floor_cost, G_transaction, of_outcome. rewrite BoundedUint_ok by (unfold zero_bytes in *; lia).
    rewrite gas_cost_ok by (unfold U64_MAX; lia). cbn [mbind outcome_bind].
    rewrite gas_cost_ok by (unfold U64_MAX; lia). cbn [mbind outcome_bind fst snd]. do 3 f_equal. lia.
  - assert (Hsh : (Shanghai <=? fork profile) = true).
    { apply Z.leb_le. apply Z.ltb_ge in Hfork. unfold Shanghai, Amsterdam in *. lia. }
    assert (E : (if tx.(is_create) then transaction_initcode_gas profile tx.(input_src).(sl_len) else Ok 0)
      = Ok (if tx.(is_create) then 2 * words_of (py_len data) else 0))
      by (destruct tx.(is_create); [by rewrite Hinit, Hsh|done]).
    unfold amsterdam_intrinsic_gas. rewrite bind_run, of_outcome_run, Hrec.
    rewrite bind_run, of_outcome_run, E.
    rewrite bind_run, calldata_cost_run. rewrite Hsh, andb_true_r.
    unfold AMSTERDAM_ACCESS_LIST_ADDRESS, AMSTERDAM_ACCESS_LIST_SLOT, AMSTERDAM_ACCESS_LIST_ADDRESS_FLOOR,
      AMSTERDAM_ACCESS_LIST_SLOT_FLOOR, AMSTERDAM_AUTH_BASE, AMSTERDAM_TX_BASE, AMSTERDAM_CALLDATA_FLOOR_BYTE, of_outcome.
    rewrite <-Hlen. replace (zero_bytes data + nonzero_bytes data) with (py_len data) by (unfold zero_bytes; lia).
    set (c := if tx.(is_create) then 2 * words_of (py_len data) else 0).
    assert (0 <= c <= 2 ^ 31) as Hc by (unfold c; destruct tx.(is_create); lia).
    rewrite gas_cost_ok by (unfold U64_MAX; lia). cbn [mbind outcome_bind].
    rewrite gas_cost_ok by (unfold U64_MAX; lia). cbn [mbind outcome_bind fst snd].
    do 3 f_equal; lia.
Qed.
(** C15: the intrinsic gas of every transaction, in every fork, is the closed
    formula of its zero and non-zero bytes, its list lengths and its kind; on
    data in the input region it is computed without raising and without
    changing anything. *)
Theorem intrinsic_gas_exact :
  intrinsic_gas profile tx h =
  (Ok (mkIntrinsicGas (intrinsic_price (fork profile) tx data).1 0
         (intrinsic_price (fork profile) tx data).2), h).
Proof using Hsized. apply intrinsic_gas_run. Qed.
End intrinsic.

(** ** A transaction of a hundred non-zero bytes *)

Module Sample100.
Definition sender : address := replicate 20 Byte.x01.
Definition transaction (gas_limit : Z) : Transaction :=
  mkTransaction FeeMarketTx sender 7 1 gas_limit false (replicate 20 Byte.x02) 1000
    (mkSlice 0 100) (mkSlice 0 100) EMPTY_ACCESS_LIST_REF 30 0 2 EMPTY_AUTHORIZATION_LIST_REF
    EMPTY_BLOB_HASHES EMPTY_STATELESS_INPUT_SLICE ZERO_HASH 0 1 1.
Definition host : HostState :=
  set_regions (mkRegions (replicate 100 Byte.x01) [] [] [] [] []) initial_state.

Definition cancun : ProtocolProfileFields :=
  mkProtocolProfile Cancun (mkBlobSchedule 3 6 3338477)
    (compute_profile_excess_blob_gas_limit Cancun 3 6 3338477) 24576 49152 U64_MAX U64_MAX 6 5.
(** The sender's account is cached, with its nonce and a balance. *)
Definition account : Account :=
  set_present true (set_info (set_nonce 7 (set_balance 1000000 EMPTY_ACCOUNT_INFO)) EMPTY_ACCOUNT).
Definition state : SpecState :=
  let e := initial_environment in
  mkSpec (set_world (set_account_block [(_address_key sender, mkAccountBlockRow sender
      (mkAcctValue account account) None)] initial_world) host)
    (mkEnvironment e.(k_parent_state_root) e.(k_n_headers) e.(k_chain_id)
       (mkExecutionProfile cancun (mkGasLimits 0 0 0 SYSTEM_CALL_GAS_LIMIT 0)) e.(k_header) e.(k_tx)
       e.(k_current_transaction_epoch)) EMPTY_SCRATCH_SLICE.

Lemma sized gas_limit : tx_sized (transaction gas_limit) host.
Proof. repeat split; by vm_compute. Qed.
End Sample100.

Lemma intrinsic_gas_exact_witness :
  intrinsic_gas Sample100.cancun (Sample100.transaction 30000) Sample100.host =
  (Ok (mkIntrinsicGas 22600 0 25000), Sample100.host).
Proof.
  refine (eq_trans (intrinsic_gas_exact Sample100.cancun (Sample100.transaction 30000)
    Sample100.host (Sample100.sized 30000)) _).
  vm_compute. reflexivity.
Defined.

(** ** Running backwards *)

Lemma runs_outcome {S A} (o : outcome A) (s : S) a s' : runs (of_outcome o) s a s' ↔ o = Ok a ∧ s' = s.
Proof. unfold runs. rewrite of_outcome_run. naive_solver. Qed.
Lemma runs_gets {S A} (f : S → A) (s : S) a s' : runs (gets f) s a s' ↔ a = f s ∧ s' = s.
Proof. unfold runs. rewrite gets_run. naive_solver. Qed.
Lemma runs_fatal {S} b (s : S) u s' : runs (fatal_when b) s u s' ↔ b = false ∧ s' = s.
Proof. unfold runs, fatal_when. destruct b, u; [split; [intros [=]|by intros [? ?]]|].
  split; [by intros [= ->]|by intros [_ ->]].
Qed.
Lemma runs_fatal_seq {S A} b (m : M S A) (s : S) a s' :
  runs (fatal_when b ≫= λ _, m) s a s' ↔ b = false ∧ runs m s a s'.
Proof.
  rewrite runs_bind. split.
  - by intros (u & s1 & [-> ->]%runs_fatal & H).
  - intros [-> H]. exists tt, s. by rewrite runs_fatal.
Qed.

(** ** The price of gas *)

(** The price is the base fee with the priority fee, up to the maximum. *)
Lemma eff_gas_price_exact base max prio :
  is_word base → is_word max → is_word prio → base <= max →
  eff_gas_price_for base max prio =
  let price := Z.min max (base + prio) in Ok (price, price - base).
Proof.
  intros Hb Hm Hp Hle. unfold eff_gas_price_for, word_ule, word_ult. cbv zeta.
  assert (Hprice : (if negb (base <? max) then Ok max
     else available_priority ← word_sub_word max base;
       if negb (available_priority <? prio) then word_add_word base prio else Ok max)
     = Ok (Z.min max (base + prio))).
  { destruct (Z.ltb_spec base max); cbn [negb]; [|f_equal; unfold is_word in *; lia].
    rewrite word_sub_ok, wrap_id by (unfold is_word in *; lia). cbn [mbind outcome_bind].
    destruct (Z.ltb_spec (max - base) prio); cbn [negb]; [f_equal; lia|].
    rewrite word_add_ok, wrap_id by (unfold is_word in *; lia). f_equal. lia. }
  rewrite Hprice. cbn [mbind outcome_bind].
  rewrite (proj2 (Z.ltb_ge _ base)) by (unfold is_word in *; lia). cbn [negb].
  rewrite word_sub_ok, wrap_id by (unfold is_word in *; lia). done.
Qed.

(** ** What the costs commit to *)

Lemma protocol_word_inv v w : protocol_word v = Ok w → w = v ∧ is_word v.
Proof.
  unfold protocol_word, u256, word. intros (x & [-> Hx]%BoundedUint_inv & [-> _]%BoundedUint_inv)%bind_Ok.
  split; [done|]. unfold is_word. lia.
Qed.

Lemma costs_inv profile tx limit excess h c h' :
  runs (transaction_costs profile tx limit excess) h c h' →
  c.(upfront) = tx.(max_fee) * limit + tx.(tx_value) +
    tx.(max_blob_fee) * (2 ^ 17 * tx.(tx_blob_hashes).(blob_count)) ∧ is_word c.(upfront) ∧
  (0 <= tx.(tx_blob_hashes).(blob_count) →
     c.(tc_blob_fee) <= tx.(max_blob_fee) * (2 ^ 17 * tx.(tx_blob_hashes).(blob_count))) ∧
  is_word c.(tc_blob_fee) ∧ 0 <= c.(intrinsic_execution) ∧ 0 <= c.(intrinsic_state) ∧
  0 <= c.(tc_calldata_floor) ∧
  ∃ i, runs (intrinsic_gas profile tx) h i h' ∧ c.(tc_calldata_floor) = i.(calldata_floor) ∧
    c.(intrinsic_execution) = i.(ig_execution).
Proof.
  unfold transaction_costs, transaction_upfront_cost, transaction_blob_fee.
  change (Z.shiftl 1 17) with (2 ^ 17). set (b := 2 ^ 17 * _).
  intros (i & h1 & Hi & (fee & h2 & [Hfee ->]%runs_outcome & [Hc ->]%runs_outcome)%runs_bind)%runs_bind.
  destruct (_ && _); [|done]. unfold gas_cost in Hc.
  apply bind_Ok in Hc as (e & [-> He]%BoundedUint_inv & Hc).
  apply bind_Ok in Hc as (st & [-> Hst]%BoundedUint_inv & Hc).
  apply bind_Ok in Hc as (f & [-> Hf]%BoundedUint_inv & Hc).
  apply bind_Ok in Hc as (w & [-> Hw]%protocol_word_inv & Hc).
  apply bind_Ok in Hc as (u & [-> Hu]%protocol_word_inv & [= <-]). cbn.
  split_and!; try done; [intros Hn|lia|lia|lia|by exists i].
  destruct (Z.eqb_spec b 0) as [->|]; [by injection Hfee as <-; lia|].
  apply bind_Ok in Hfee as (price & _ & Hfee). destruct (Z.leb_spec price tx.(max_blob_fee)); [|done].
  injection Hfee as <-. nia.
Qed.

Lemma initial_gas_inv a e st f g :
  transaction_initial_gas a e st f = Ok g →
  initial_gas_wf g ∧ g.(admitted_limit) = a.(al_total) ∧ g.(regular_limit) = a.(al_regular) ∧
  g.(in_intrinsic_execution) = e ∧ g.(in_intrinsic_state) = st ∧ g.(in_calldata_floor) = f.
Proof.
  unfold transaction_initial_gas, transaction_initial_gas_fields. repeat (case_match; [done|]).
  intros [Hv ->]%validated_Ok. apply initial_gas_valid_iff in Hv. by case_match.
Qed.

(** ** Admission *)

(** What reading a part of the host is seen to keep. *)
Definition host_view (h : HostState) : World * Regions := (h.(world), h.(regions)).

Lemma view_codes {A} (m : M CodeState A) : stable host_view (zoom m).
Proof. apply (stable_zoom _ (λ _, tt)); [by intros c []|done]. Qed.
Lemma spec_view_zoom {A} (m : M HostState A) : stable host_view m → stable spec_view (zoom m).
Proof.
  apply stable_zoom. intros c s. unfold host_view, spec_view. cbn. by intros [= -> ->].
Qed.
#[local] Hint Resolve @view_codes : stable.

Lemma read_delegation_view h : stable host_view (code_db_read_delegation h).
Proof. unfold code_db_read_delegation, _code_db_get, _region_bytes. stable. Qed.
Lemma costs_view profile tx limit excess : stable host_view (transaction_costs profile tx limit excess).
Proof.
  unfold transaction_costs, intrinsic_gas, legacy_intrinsic_gas, legacy_calldata_floor,
    amsterdam_intrinsic_gas, calldata_cost, calldata_bytes, slice_count_nonzero,
    stateless_input_count_nonzero, _region_bytes. stable.
Qed.

Section admission.
Context `{Keccak} `{StateTrie}.
(** The trie leaves the rest of the state alone. *)
Context (Htrie : ∀ r k, stable spec_view (stateless_account_by_key r k)).

(** The account read, when a call that reads it has returned. *)
Definition has (k : bytes) (x : Account) (s s' : SpecState) : Prop :=
  ledger s' k = Some x ∧ s'.(sp_host).(regions) = s.(sp_host).(regions) ∧ s'.(sp_env) = s.(sp_env).

Lemma reads_account a x s s' : runs (k_aload a) s x s' → has (_address_key a) x s s'.
Proof using Htrie. intros [[? _] ?]%k_aload_enters; [|done]. by split. Qed.
Lemma reads_again a x y s s' :
  ledger s (_address_key a) = Some x → runs (k_aload a) s y s' →
  y = x ∧ has (_address_key a) x s s'.
Proof using Htrie.
  intros Hx Hr. pose proof (reads_account _ _ _ _ Hr) as Hh.
  destruct (k_aload_cached a x s Hx) as (s1 & E1 & _). unfold runs in Hr. rewrite E1 in Hr.
  by injection Hr as <- <-.
Qed.
Lemma code_key_reads a x s h s' :
  ledger s (_address_key a) = Some x → runs (k_code_key a) s h s' →
  h = x.(info).(code_hash) ∧ has (_address_key a) x s s'.
Proof using Htrie.
  intros Hx (y & s1 & Hr & [Hh ->]%runs_outcome)%runs_bind.
  destruct (reads_again _ _ _ _ _ Hx Hr) as [-> ?]. split; [|done].
  unfold Bytes32, fixed_bytes in Hh. destruct (_ =? _); [by injection Hh|done].
Qed.
Lemma deleg_target_reads a x s r s' :
  ledger s (_address_key a) = Some x → runs (k_deleg_target a) s r s' → has (_address_key a) x s s'.
Proof using Htrie.
  intros Hx (h & s1 & [_ (Hl & Hr & He)]%(code_key_reads _ x) & Hz)%runs_bind; [|done].
  apply runs_bind in Hz as (t & s2 & Ht & [= _ ->]).
  apply (spec_view_zoom _ (read_delegation_view h)) in Ht. injection Ht as Hw2 Hr2 He2.
  unfold has, ledger. rewrite Hw2, Hr2, He2. by split.
Qed.

Lemma has_trans k x s1 s2 s3 : has k x s1 s2 → has k x s2 s3 → has k x s1 s3.
Proof. intros (_ & Hr & He) (Hl & Hr' & He'). unfold has. by rewrite Hr', He', Hr, He. Qed.

(** What an admission establishes, by the checks it made. *)
Record admitted (tx : Transaction) (a : TransactionGasAllowance) (s : SpecState) (v : TxValidity)
    (s' : SpecState) (x : Account) (c : TransactionCosts) : Prop := {
  ad_account : has (_address_key tx.(tx_sender)) x s s';
  ad_costs : ∃ h h', h.(regions) = s.(sp_host).(regions) ∧
    runs (transaction_costs (profile_of s) tx a.(al_total) s.(sp_env).(k_header).(bh_excess_blob_gas)) h c h';
  ad_nonce : x.(info).(nonce) = tx.(tx_nonce) ∧ tx.(tx_nonce) ≠ 2 ^ 64 - 1;
  ad_balance : c.(upfront) <= x.(info).(balance);
  ad_price : eff_gas_price_for s.(sp_env).(k_header).(bh_base_fee) tx.(max_fee) tx.(max_priority_fee) =
    Ok (v.(gas_price), v.(priority_fee));
  ad_fees : s.(sp_env).(k_header).(bh_base_fee) <= tx.(max_fee) ∧ tx.(max_priority_fee) <= tx.(max_fee);
  ad_gas : transaction_initial_gas a c.(intrinsic_execution) c.(intrinsic_state) c.(tc_calldata_floor) =
    Ok v.(v_gas);
  ad_blob_fee : v.(v_blob_fee) = c.(tc_blob_fee);
  ad_sender : v.(v_sender) = tx.(tx_sender) ∧ v.(nonce_before) = tx.(tx_nonce);
  ad_fork : (tx_type_semantics tx.(tx_type)).(minimum_fork) <= fork (profile_of s);
  ad_blob : (tx_type_semantics tx.(tx_type)).(ts_blob) = true →
    tx.(tx_blob_hashes).(blob_count) ≠ 0 ∧ tx.(is_create) = false;
  ad_set_code : (tx_type_semantics tx.(tx_type)).(set_code) = true →
    tx.(authorizations).(ar_count) ≠ 0 ∧ tx.(is_create) = false;
  ad_chain : (tx_type_semantics tx.(tx_type)).(signature) = TypedSignature →
    tx.(tx_chain_id) = s.(sp_env).(k_chain_id);
  ad_floor : c.(tc_calldata_floor) <= a.(al_regular);
}.

Lemma validity_fields_inv a n g b p q v :
  tx_validity_fields a n g b p q = Ok v → v = mkTxValidity a n g b p q.
Proof.
  unfold tx_validity_fields, Bytes20, fixed_bytes, Uint, word.
  intros (? & _ & (a1 & Ha & (n1 & Hn & (b1 & [-> _]%BoundedUint_inv & (p1 & [-> _]%BoundedUint_inv &
    (q1 & [-> _]%BoundedUint_inv & [= <-])%bind_Ok)%bind_Ok)%bind_Ok)%bind_Ok)%bind_Ok)%bind_Ok.
  destruct (_ =? _); [injection Ha as <-|done]. destruct (0 <=? n); [by injection Hn as <-|done].
Qed.

Lemma admit_inv tx a s v s' :
  runs (admit_transaction tx a) s v s' → ∃ x c, admitted tx a s v s' x c.
Proof using Htrie.
  unfold admit_transaction, get_profile. set (sem := tx_type_semantics tx.(tx_type)).
  intros (profile & s0 & [-> ->]%runs_gets & Hrun)%runs_bind.
  apply runs_bind in Hrun as (e & s0 & [-> ->]%runs_gets & Hrun).
  apply runs_bind in Hrun as ([price priority] & s0 & [Hprice ->]%runs_outcome & Hrun).
  apply runs_bind in Hrun as (n & ? & (x & s1 & (Hx & Hreg & Henv)%reads_account &
    [Hn ->]%runs_outcome)%runs_bind & Hrun).
  apply runs_bind in Hrun as (c & s2 & Hc & Hrun).
  apply runs_bind in Hrun as (n' & s3 & [Hn' ->]%runs_outcome & Hrun).
  apply runs_fatal_seq in Hrun as [Hnonce Hrun].
  apply zoom_runs in Hc as (h2 & Hc & ->). pose proof (costs_view _ _ _ _ _ _ _ Hc) as Hview.
  injection Hview as Hw2 Hr2.
  assert (H2 : has (_address_key tx.(tx_sender)) x s (put h2 s1)).
  { unfold has, ledger. cbn. rewrite Hw2, Hr2. by split. }
  apply runs_bind in Hrun as ([deleg target] & s3 & H3%(deleg_target_reads _ _ _ _ _ (proj1 H2)) & Hrun).
  apply (has_trans _ _ _ _ _ H2) in H3.
  apply runs_fatal_seq in Hrun as [Hblob Hrun].
  apply runs_fatal_seq in Hrun as [_ Hrun].
  apply runs_bind in Hrun as (b & ? & (y & s4 & Hy & [Hb ->]%runs_outcome)%runs_bind & Hrun).
  destruct (reads_again _ _ _ _ _ (proj1 H3) Hy) as [-> H4]. apply (has_trans _ _ _ _ _ H3) in H4.
  apply runs_fatal_seq in Hrun as [Hbalance Hrun].
  apply runs_bind in Hrun as (k & s5 & [_ H5]%(code_key_reads _ _ _ _ _ (proj1 H4)) & Hrun).
  apply (has_trans _ _ _ _ _ H4) in H5.
  do 2 (apply runs_fatal_seq in Hrun as [?Hf Hrun]).
  do 7 (apply runs_fatal_seq in Hrun as [?Hf Hrun]).
  apply runs_fatal_seq in Hrun as [Hmax Hrun].
  apply runs_bind in Hrun as (g & s0 & [Hg ->]%runs_outcome & [Hv ->]%runs_outcome).
  apply validity_fields_inv in Hv as ->.
  unfold Uint in Hn, Hn'. destruct (0 <=? nonce x.(info)); [injection Hn as <-|done].
  destruct (0 <=? nonce x.(info)); [injection Hn' as <-|done].
  apply BoundedUint_inv in Hb as [-> _]. unfold word_ule, word_ult in *.
  rewrite ?negb_involutive, ?negb_false_iff, ?Z.ltb_ge, ?Z.eqb_eq, ?Z.eqb_neq in *. subst.
  exists x, c. split; cbn [v_gas v_blob_fee gas_price priority_fee v_sender nonce_before]; try done.
  - eexists _, _. split; [|exact Hc]. done.
  - change (2 ^ 64) with (1 ≪ 64). by split; congruence.
  - intros E. unfold sem in Hblob. rewrite E in Hblob.
    apply orb_false_iff in Hblob as [_ [Hn%Z.eqb_neq Hcr]%orb_false_iff]. done.
  - intros E. unfold sem in *. rewrite E in *. cbn in *. rewrite <-Z.eqb_neq. done.
  - intros E. unfold sem in *. rewrite bool_decide_true in * by done. cbn in *.
    by apply Z.eqb_eq, negb_false_iff.
Qed.

(** C8: what admission promises. When every check passes, the sender's account
    is in the ledger with exactly the nonce of the transaction, not the last
    one, and it can pay for everything the transaction may be charged: the
    gas limit at the effective price, the blob fee and the value together are
    within its balance. The effective price is the base fee with the priority
    fee up to the maximum; the gas admitted is well formed and adds up to the
    limit, with the calldata floor within the regular limit; and the type of
    the transaction is active, a blob or set-code transaction has blobs or
    authorizations and a recipient, and a typed one is for this chain. *)
Theorem admission_sound (tx : Transaction) (a : TransactionGasAllowance) (s s' : SpecState) (v : TxValidity) :
  let header := s.(sp_env).(k_header) in let sem := tx_type_semantics tx.(tx_type) in
  is_word header.(bh_base_fee) → is_word tx.(max_fee) → is_word tx.(max_priority_fee) →
  0 <= tx.(tx_blob_hashes).(blob_count) →
  admit_transaction tx a s = (Ok v, s') →
  (∃ x, ledger s' (_address_key tx.(tx_sender)) = Some x ∧
     x.(info).(nonce) = tx.(tx_nonce) ∧ tx.(tx_nonce) ≠ 2 ^ 64 - 1 ∧
     v.(gas_price) * v.(v_gas).(admitted_limit) + v.(v_blob_fee) + tx.(tx_value) <= x.(info).(balance)) ∧
  v.(v_sender) = tx.(tx_sender) ∧ v.(nonce_before) = tx.(tx_nonce) ∧
  v.(gas_price) = Z.min tx.(max_fee) (header.(bh_base_fee) + tx.(max_priority_fee)) ∧
  v.(priority_fee) = v.(gas_price) - header.(bh_base_fee) ∧ 0 <= v.(priority_fee) ∧
  initial_gas_wf v.(v_gas) ∧ v.(v_gas).(admitted_limit) = a.(al_total) ∧
  v.(v_gas).(regular_limit) = a.(al_regular) ∧
  sem.(minimum_fork) <= fork (profile_of s) ∧
  (sem.(ts_blob) = true → tx.(tx_blob_hashes).(blob_count) ≠ 0 ∧ tx.(is_create) = false) ∧
  (sem.(set_code) = true → tx.(authorizations).(ar_count) ≠ 0 ∧ tx.(is_create) = false) ∧
  (sem.(signature) = TypedSignature → tx.(tx_chain_id) = s.(sp_env).(k_chain_id)).
Proof using Htrie.
  cbv zeta. intros Hbase Hmax Hprio Hcount Hrun. destruct (admit_inv _ _ _ _ _ Hrun) as (x & c & Ad).
  destruct (ad_costs _ _ _ _ _ _ _ Ad) as (h & h' & _ & Hc).
  apply costs_inv in Hc as (Hup & _ & Hfee & _).
  destruct (initial_gas_inv _ _ _ _ _ (ad_gas _ _ _ _ _ _ _ Ad)) as (Hwf & Hl & Hr & _).
  destruct (ad_fees _ _ _ _ _ _ _ Ad) as [Hbf Hpf].
  pose proof (ad_price _ _ _ _ _ _ _ Ad) as Hprice.
  rewrite eff_gas_price_exact in Hprice by done. injection Hprice as Hgp Hpp.
  destruct (ad_nonce _ _ _ _ _ _ _ Ad), (ad_sender _ _ _ _ _ _ _ Ad).
  assert (Hlim : 0 <= v.(v_gas).(admitted_limit)) by (unfold initial_gas_wf in Hwf; lia).
  split_and!; try (by eapply Ad); try done; try lia.
  - exists x. split_and!; [by apply Ad|done..|].
    pose proof (ad_balance _ _ _ _ _ _ _ Ad) as Hb. rewrite (ad_blob_fee _ _ _ _ _ _ _ Ad).
    rewrite Hup in Hb. rewrite <-Hl in Hb. rewrite <-Hgp. nia.
  - unfold is_word in *. lia.
Qed.

(** C14: the calldata floor is enforced before the fork that introduces it. In
    every fork before Amsterdam, those before Prague included, a transaction
    whose regular gas limit is under 21000 gas, 10 for each zero byte and 40
    for each other byte of its data is never admitted, whatever its intrinsic
    gas is. *)
Theorem floor_enforced_in_every_fork (tx : Transaction) (a : TransactionGasAllowance) (s : SpecState) :
  let data := slice_data RInput tx.(input_src) s.(sp_host) in
  fork (profile_of s) < Amsterdam → tx_sized tx s.(sp_host) →
  a.(al_regular) < 21000 + (10 * zero_bytes data + 40 * nonzero_bytes data) →
  ∀ v s', admit_transaction tx a s ≠ (Ok v, s').
Proof using Htrie.
  cbv zeta. intros Hfork Hsized Hlow v s' Hrun. destruct (admit_inv _ _ _ _ _ Hrun) as (x & c & Ad).
  destruct (ad_costs _ _ _ _ _ _ _ Ad) as (h & h' & Hreg & Hc).
  destruct (costs_inv _ _ _ _ _ _ _ Hc) as (_ & _ & _ & _ & _ & _ & _ & i & Hi & Hfloor & _).
  assert (Hregion : region_of RInput h = region_of RInput s.(sp_host)) by (unfold region_of; by rewrite Hreg).
  assert (Hdata : slice_data RInput tx.(input_src) h = slice_data RInput tx.(input_src) s.(sp_host))
    by (unfold slice_data; by rewrite Hregion).
  assert (Hs : tx_sized tx h) by (unfold tx_sized, slice_in in *; by rewrite Hregion).
  pose proof (intrinsic_gas_run (profile_of s) tx h Hs) as E. unfold runs in Hi. rewrite E in Hi.
  injection Hi as <- <-. rewrite Hdata in Hfloor. unfold intrinsic_price in Hfloor.
  rewrite (proj2 (Z.ltb_lt _ _)) in Hfloor by done. cbn in Hfloor.
  pose proof (ad_floor _ _ _ _ _ _ _ Ad). lia.
Qed.
End admission.

#[local] Existing Instance toy_Keccak.
#[local] Existing Instance Sample.empty_trie.

Lemma empty_trie_view r k : stable spec_view (stateless_account_by_key r k).
Proof. apply stable_ret. Qed.

(** At Cancun, with 30000 gas at a price of 2. *)
Lemma admission_sound_witness :
  ∃ v s' x, admit_transaction (Sample100.transaction 30000) (mkAllowance 30000 30000) Sample100.state = (Ok v, s') ∧
    ledger s' (_address_key Sample100.sender) = Some x ∧
    v.(gas_price) * v.(v_gas).(admitted_limit) + v.(v_blob_fee) + 1000 <= x.(info).(balance).
Proof.
  assert (Hb : is_word 0 ∧ is_word 30 ∧ is_word 2) by by vm_compute.
  destruct Hb as (H0 & H1 & H2).
  destruct (admit_transaction (Sample100.transaction 30000) (mkAllowance 30000 30000) Sample100.state)
    as [[v|e] s'] eqn:E; [|vm_compute in E; discriminate E].
  pose proof (proj1 (admission_sound empty_trie_view (Sample100.transaction 30000) (mkAllowance 30000 30000)
    Sample100.state s' v H0 H1 H2 (Z.le_refl 0) E)) as X.
  destruct X as (x & Hx & _ & _ & Hb). exists v, s', x. split; [reflexivity|]. split; [exact Hx|exact Hb].
Defined.

(** 22600 gas pay for the intrinsic gas at Cancun; the floor of 25000 refuses
    the transaction all the same. *)
Lemma floor_enforced_in_every_fork_witness :
  fork (profile_of Sample100.state) < Prague ∧
  (∃ s', intrinsic_gas (profile_of Sample100.state) (Sample100.transaction 22600) Sample100.state.(sp_host) =
     (Ok (mkIntrinsicGas 22600 0 25000), s')) ∧
  ∀ v s', admit_transaction (Sample100.transaction 22600) (mkAllowance 22600 22600) Sample100.state ≠ (Ok v, s').
Proof.
  split; [by vm_compute|]. split; [eexists; vm_compute; reflexivity|].
  apply (floor_enforced_in_every_fork empty_trie_view (Sample100.transaction 22600)
    (mkAllowance 22600 22600) Sample100.state); [by vm_compute| |by vm_compute].
  repeat split; by vm_compute.
Defined.
