(* ===== verification/TriePath.v ===== *)
(** * TriePath: paths of nibbles and their hex-prefix form

    [lib/mpt/primitives.py]. A path is a hash and a length: the nibbles are
    packed in the bytes of the hash, the first one in the high half of the
    byte of index zero, and those past the length are zero. A nibble is an
    integer below 16. The two copies of the hex-prefix decoder, one for each
    region, are one definition here. *)

From Stdlib Require Import ZArith Lia Strings.Byte.
From stdpp Require Import base tactics option list.
From S2P Require Import Prelude PyBytes HostTypes SailRuntime Words ChainConfig Regions RegionAccess Gas Environment Scratch Rlp.
Local Open Scope Z_scope.

Definition HEX_PREFIX_MAX_LENGTH : Z := 33.

Definition trie_path_len (v : Z) : outcome Z := BoundedUint 0 64 v.
Definition trie_path_cursor (v : Z) : outcome Z := BoundedUint 0 64 v.
Definition b256_index (v : Z) : outcome Z := BoundedUint 0 31 v.

(** The halves of a byte, and the byte of two halves. *)
Definition high_nibble (b : byte) : Z := Z.shiftr (Z_of_byte b) 4.
Definition low_nibble (b : byte) : Z := Z.land (Z_of_byte b) 15.
Definition nibble_pair (high low : Z) : byte := byte_wrap (Z.lor (Z.shiftl high 4) low).

Record TriePath : Type := mkTriePath { tp_data : hash; tp_len : Z }.
#[export] Instance TriePath_eq_dec : EqDecision TriePath.
Proof. solve_decision. Defined.

Definition path_len (p : TriePath) : outcome Z := trie_path_cursor p.(tp_len).

Definition path_new (data : hash) (sail_len : Z) : outcome TriePath :=
  d ← Bytes32 data; n ← trie_path_len sail_len; Ok (mkTriePath d n).

Definition path_empty : outcome TriePath := path_new ZERO_HASH 0.

Definition path_byte_index (i : Z) : outcome Z :=
  quotient ← sail_tdiv_int i 2;
  if (0 <=? quotient) && (quotient <=? 31) then b256_index quotient
  else Raise (SailError "sail/lib/mpt/primitives.sail:45.24-45.25").

Definition path_nibble (p : TriePath) (i : Z) : outcome Z :=
  length ← path_len p;
  if length <=? i then Ok 0
  else
    byte_index ← path_byte_index i;
    parity ← sail_tmod_int i 2;
    b ← sail_vector_access p.(tp_data) byte_index false;
    Ok (if parity =? 0 then high_nibble b else low_nibble b).

Definition path_append_nibble (p : TriePath) (v : Z) : outcome TriePath :=
  length ← path_len p;
  if length <? 64 then
    byte_index ← path_byte_index length;
    parity ← sail_tmod_int length 2;
    b ← (if parity =? 0 then Ok (nibble_pair v 0)
         else b ← sail_vector_access p.(tp_data) byte_index false; Ok (nibble_pair (high_nibble b) v));
    data ← sail_vector_update p.(tp_data) byte_index b false;
    data ← Bytes32 data;
    path_new data (length + 1)
  else fatal_error.

Definition path_append_byte (p : TriePath) (v : byte) : outcome TriePath :=
  q ← path_append_nibble p (high_nibble v); path_append_nibble q (low_nibble v).

Definition path_single (n : Z) : outcome TriePath := p ← path_empty; path_append_nibble p n.

(** ** Loops over a path *)

(** [cursor + 1] within a path. *)
Definition cursor_next (i : Z) : outcome Z :=
  v ← (if i <? 64 then Ok (i + 1) else fatal_error); trie_path_cursor v.

Definition out_of_fuel {A} : outcome A := Raise (RuntimeError "out of fuel").

(** Appends the nibbles [base + index] of a path, the index from where it
    stands up to [stop]: the loops of [path_concat] and [path_drop]. *)
Fixpoint append_nibbles (fuel : nat) (source_index : Z → outcome Z) (p : TriePath) (stop : Z)
    (result : TriePath) (index : Z) : outcome TriePath :=
  if index <? stop then
    match fuel with
    | O => out_of_fuel
    | S fuel' =>
        i ← source_index index;
        nibble ← path_nibble p i;
        result ← path_append_nibble result nibble;
        index ← cursor_next index;
        append_nibbles fuel' source_index p stop result index
    end
  else Ok result.

Definition path_concat (a b : TriePath) : outcome TriePath :=
  alen ← path_len a;
  blen ← path_len b;
  if alen + blen <=? 64 then append_nibbles 64 Ok b blen a 0 else fatal_error.

(** The index of a nibble after the dropped ones. *)
Definition drop_index (n offset : Z) : outcome Z :=
  let candidate := n + offset in
  if (0 <=? candidate) && (candidate <=? 64) then Ok candidate
  else Raise (SailError "sail/lib/mpt/primitives.sail:141.32-141.33").

Definition path_drop (p : TriePath) (n : Z) : outcome TriePath :=
  length ← path_len p;
  if length <=? n then path_empty
  else if n =? 0 then Ok p
  else result ← path_empty; append_nibbles 64 (drop_index n) p (length - n) result 0.

Definition path_eq (a b : TriePath) : bool :=
  (a.(tp_len) =? b.(tp_len)) && bool_decide (a.(tp_data) = b.(tp_data)).

Fixpoint path_matches_loop (fuel : nat) (key : TriePath) (pos : Z) (seg : TriePath)
    (segment_len : Z) (ok : bool) (offset : Z) : outcome bool :=
  if ok && (offset <? segment_len) then
    match fuel with
    | O => out_of_fuel
    | S fuel' =>
        let key_index := pos + offset in
        ok ← (if key_index <=? 64 then
                key_nibble ← path_nibble key key_index;
                segment_nibble ← path_nibble seg offset;
                Ok (if negb (key_nibble =? segment_nibble) then false else ok)
              else Ok false);
        offset ← cursor_next offset;
        path_matches_loop fuel' key pos seg segment_len ok offset
    end
  else Ok ok.

Definition path_matches (key : TriePath) (pos : Z) (seg : TriePath) : outcome bool :=
  segment_len ← path_len seg;
  key_len ← path_len key;
  if key_len <? pos + segment_len then Ok false
  else path_matches_loop 64 key pos seg segment_len true 0.

Definition path_prefix_of (prefix path : TriePath) : outcome bool := path_matches path 0 prefix.

Fixpoint common_prefix_loop (fuel : nat) (a b : TriePath) (stop length : Z) : outcome Z :=
  if length <? stop then
    match fuel with
    | O => out_of_fuel
    | S fuel' =>
        a_nibble ← path_nibble a length;
        b_nibble ← path_nibble b length;
        if a_nibble =? b_nibble then
          length ← cursor_next length; common_prefix_loop fuel' a b stop length
        else Ok length
    end
  else Ok length.

Definition common_prefix_length (a b : TriePath) : outcome Z :=
  alen ← path_len a;
  blen ← path_len b;
  length ← common_prefix_loop 64 a b (if alen <? blen then alen else blen) 0;
  trie_path_cursor length.

(** ** The hex prefix *)

Definition hex_prefix_encoded_length (p : TriePath) : outcome Z :=
  length ← path_len p;
  packed_pair_count ← sail_tdiv_int length 2;
  BoundedUint 1 33 (1 + packed_pair_count).

(** Two for a leaf, one more for an odd length, whose first nibble it holds. *)
Definition hex_prefix_first_byte (p : TriePath) (is_leaf : bool) : outcome Z :=
  length ← path_len p;
  rest ← sail_tmod_int length 2;
  let flag := if is_leaf then 2 else 0 in
  if negb (rest =? 0) then
    first_nibble ← path_nibble p 0; Ok (Z.lor (Z.shiftl (Z.lor flag 1) 4) first_nibble)
  else Ok (Z.shiftl flag 4).

Section decoding.
Context (kind : RegionKind).

Definition decode_hex_prefix_content (content : Slice) (n : Z) : M HostState (bool * TriePath) :=
  fb ← slice_byte (_region_byte kind) content 0;
  let flag := Z.shiftr fb 4 in
  let is_leaf := Z.testbit flag 1 in
  let odd := Z.testbit flag 0 in
  tail ← of_outcome (slice_suffix content 1);
  packed ← slice_load (λ s off, _load_word kind s off 32) tail 0;
  let paired_nibbles := (n - 1) * 2 in
  of_outcome
    (if odd then
       if paired_nibbles <? 64 then
         shifted ← word_shift_right packed 4;
         bytes ← word_to_hash shifted;
         first ← sail_vector_access bytes 0 false;
         bytes ← sail_vector_update bytes 0 (nibble_pair (Z.land fb 15) (low_nibble first)) false;
         bytes ← Bytes32 bytes;
         path ← path_new bytes (paired_nibbles + 1);
         Ok (is_leaf, path)
       else fatal_error
     else
       path_data ← word_to_hash packed;
       path ← path_new path_data paired_nibbles;
       Ok (is_leaf, path)).

Definition decode_hex_prefix (f : RlpFieldRef) : M HostState (bool * TriePath) :=
  if f.(is_list) then of_outcome fatal_error
  else
    let n := f.(content_len) in
    if n =? 0 then of_outcome (p ← path_empty; Ok (false, p))
    else if HEX_PREFIX_MAX_LENGTH <? n then of_outcome fatal_error
    else
      content ← of_outcome (sub_slice f.(source) (f.(source).(sl_len) - n) n);
      decode_hex_prefix_content content n.
End decoding.

Definition hex_prefix_decode_ref := decode_hex_prefix RInput.
Definition scratch_hex_prefix_decode_ref := decode_hex_prefix RScratch.
