(* ===== verification/TriePathTheorems.v ===== *)
(** * TriePathTheorems: a path is a list of nibbles

    Every operation on packed paths refines the operation on lists of nibbles,
    and the hex-prefix form of a path is read back from either region. *)

From Stdlib Require Import ZArith Lia Strings.Byte.
From stdpp Require Import base tactics option list.
From S2P Require Import Prelude PyBytes SailRuntime HostTypes Words WordTheorems WordBits ChainConfig Regions RegionAccess Gas RegionFacts Environment Scratch Rlp RlpTheorems TriePath.
Local Open Scope Z_scope.

Definition is_nibble (n : Z) : Prop := 0 <= n < 16.
Definition is_nibbles (ns : list Z) : Prop := Forall is_nibble ns.
(** A list short enough for a path. *)
Definition path_wf (ns : list Z) : Prop := is_nibbles ns ∧ (length ns <= 64)%nat.

(** The nibble at a position, zero past the end. *)
Definition nib (ns : list Z) (i : nat) : Z := default 0 (ns !! i).
(** The 32 bytes that hold a list of nibbles, the first one first. *)
Definition packed (ns : list Z) : bytes :=
  (λ k, nibble_pair (nib ns (2 * k)) (nib ns (2 * k + 1))) <$> seq 0 32.
Definition path_of (ns : list Z) : TriePath := mkTriePath (rev (packed ns)) (Z.of_nat (length ns)).
(** The nibbles of some bytes. *)
Definition byte_nibbles (bs : bytes) : list Z := bs ≫= λ b, [high_nibble b; low_nibble b].

(** ** Nibbles *)

Lemma nib_range ns i : is_nibbles ns → is_nibble (nib ns i).
Proof.
  intros H. unfold nib. destruct (ns !! i) as [n|] eqn:E; [|done].
  by apply (Forall_lookup_1 _ _ _ _ H E).
Qed.
Lemma nib_past ns i : (length ns <= i)%nat → nib ns i = 0.
Proof. intros H. unfold nib. by rewrite lookup_ge_None_2. Qed.
Lemma nib_snoc ns n i : nib (ns ++ [n]) i = if decide (i = length ns) then n else nib ns i.
Proof.
  unfold nib. case_decide as E; [subst; by rewrite lookup_app_r, Nat.sub_diag by lia|].
  destruct (decide (i < length ns)%nat); [by rewrite lookup_app_l|].
  rewrite !lookup_ge_None_2 by (rewrite ?length_app; cbn; lia). done.
Qed.

Lemma nibble_pair_value h l : is_nibble h → is_nibble l → Z_of_byte (nibble_pair h l) = 16 * h + l.
Proof.
  intros Hh Hl.
  assert (Hall : forallb (λ h, forallb (λ l, Z_of_byte (nibble_pair h l) =? 16 * h + l) (seqZ 0 16))
    (seqZ 0 16) = true) by by vm_compute.
  rewrite forallb_forall in Hall. specialize (Hall h). rewrite forallb_forall in Hall.
  apply Z.eqb_eq, Hall; apply list_elem_of_In, elem_of_seqZ; unfold is_nibble in *; lia.
Qed.
Lemma high_nibble_div b : high_nibble b = Z_of_byte b / 16.
Proof. unfold high_nibble. by rewrite Z.shiftr_div_pow2. Qed.
Lemma low_nibble_mod b : low_nibble b = Z_of_byte b mod 16.
Proof. unfold low_nibble. change 15 with (Z.ones 4). by rewrite Z.land_ones. Qed.
Lemma high_nibble_pair h l : is_nibble h → is_nibble l → high_nibble (nibble_pair h l) = h.
Proof.
  intros Hh Hl. rewrite high_nibble_div, nibble_pair_value by done. unfold is_nibble in *.
  symmetry. apply (Z.div_unique_pos _ _ _ l); lia.
Qed.
Lemma low_nibble_pair h l : is_nibble h → is_nibble l → low_nibble (nibble_pair h l) = l.
Proof.
  intros Hh Hl. rewrite low_nibble_mod, nibble_pair_value by done. unfold is_nibble in *.
  symmetry. apply (Z.mod_unique_pos _ _ h); lia.
Qed.
Lemma byte_nibbles_nibbles bs : is_nibbles (byte_nibbles bs).
Proof.
  unfold byte_nibbles. induction bs as [|b bs IH]; cbn; [constructor|].
  pose proof (Z_of_byte_range b). constructor; [|constructor; [|done]]; unfold is_nibble.
  - rewrite high_nibble_div. split; [apply Z.div_pos; lia|apply Z.div_lt_upper_bound; lia].
  - rewrite low_nibble_mod. by apply Z.mod_pos_bound.
Qed.
Lemma pair_of_nibbles b : nibble_pair (high_nibble b) (low_nibble b) = b.
Proof.
  pose proof (byte_nibbles_nibbles [b]) as H. apply Forall_cons in H as [Hh [Hl _]%Forall_cons].
  apply Z_of_byte_inj. rewrite nibble_pair_value by done.
  rewrite high_nibble_div, low_nibble_mod. pose proof (Z.div_mod (Z_of_byte b) 16). lia.
Qed.

(** ** Packed paths *)

Lemma packed_length ns : py_len (packed ns) = 32.
Proof. unfold packed, py_len. by rewrite length_fmap. Qed.
Lemma packed_lookup ns k :
  packed ns !! k = if decide (k < 32)%nat then Some (nibble_pair (nib ns (2 * k)) (nib ns (2 * k + 1))) else None.
Proof.
  unfold packed. rewrite list_lookup_fmap. case_decide.
  - by rewrite lookup_seq_lt by lia.
  - by rewrite lookup_seq_ge by lia.
Qed.
Lemma path_data_length ns : py_len (rev (packed ns)) = 32.
Proof. pose proof (packed_length ns) as H. unfold py_len in *. by rewrite length_rev. Qed.

(** A Sail index of reversed bytes is a position. *)
Lemma rev_access {A} (l : list A) (k : nat) x :
  l !! k = Some x → sail_vector_access (rev l) (Z.of_nat k) false = Ok x.
Proof.
  intros Hk. pose proof (lookup_lt_Some _ _ _ Hk) as Hlt. unfold sail_vector_access.
  rewrite logical_index_down by (unfold py_len; rewrite length_rev; lia). cbn [mbind outcome_bind].
  rewrite rev_alt. fold (reverse l). rewrite reverse_lookup; unfold py_len; rewrite length_reverse.
  - replace (length l - S (Z.to_nat (Z.of_nat (length l) - 1 - Z.of_nat k)))%nat with k by lia.
    by rewrite Hk.
  - lia.
Qed.
Lemma rev_update {A} (l : list A) (k : nat) x :
  (k < length l)%nat → sail_vector_update (rev l) (Z.of_nat k) x false = Ok (rev (<[k := x]> l)).
Proof.
  intros Hk. unfold sail_vector_update.
  rewrite logical_index_down by (unfold py_len; rewrite length_rev; lia). cbn [mbind outcome_bind].
  f_equal. unfold py_len. rewrite length_rev. rewrite !rev_alt.
  fold (reverse l) (reverse (<[k:=x]> l)). apply list_eq. intros i.
  destruct (decide (i < length l)%nat) as [Hi|Hi].
  - rewrite reverse_lookup by (rewrite length_insert; lia). rewrite length_insert.
    rewrite !list_lookup_insert, reverse_lookup, length_reverse by lia.
    repeat case_decide; try done; lia.
  - rewrite !lookup_ge_None_2; [done|..]; rewrite ?length_insert, ?length_reverse, ?length_insert; lia.
Qed.

Lemma path_access ns k :
  0 <= k < 32 → sail_vector_access (path_of ns).(tp_data) k false =
  Ok (nibble_pair (nib ns (2 * Z.to_nat k)) (nib ns (2 * Z.to_nat k + 1))).
Proof.
  intros Hk. replace k with (Z.of_nat (Z.to_nat k)) at 1 by lia. apply rev_access.
  by rewrite packed_lookup, decide_True by lia.
Qed.

Lemma index_split i : 0 <= i → Z.quot i 2 = i / 2 ∧ Z.rem i 2 = i mod 2.
Proof. intros. by rewrite Z.quot_div_nonneg, Z.rem_mod_nonneg. Qed.
Lemma path_byte_index_ok i : 0 <= i < 64 → path_byte_index i = Ok (i / 2) ∧ 0 <= i / 2 < 32.
Proof.
  intros Hi. pose proof (Z.div_mod i 2). pose proof (Z.mod_pos_bound i 2).
  split; [|lia]. unfold path_byte_index. rewrite sail_tdiv_ok by done. cbn [mbind outcome_bind].
  rewrite (proj1 (index_split i ltac:(lia))), !(proj2 (Z.leb_le _ _)) by lia. apply BoundedUint_ok. lia.
Qed.
Lemma parity_ok i : 0 <= i → sail_tmod_int i 2 = Ok (i mod 2).
Proof. intros Hi. by rewrite sail_tmod_ok, (proj2 (index_split i Hi)). Qed.

Section ops.
Context (a : list Z) (Ha : path_wf a).

Lemma path_len_ok : path_len (path_of a) = Ok (Z.of_nat (length a)).
Proof using Ha. apply BoundedUint_ok. cbn. destruct Ha. lia. Qed.

Lemma path_nibble_ok i : 0 <= i → path_nibble (path_of a) i = Ok (nib a (Z.to_nat i)).
Proof using Ha.
  intros Hi. destruct Ha as [Hn Hl]. unfold path_nibble. rewrite path_len_ok. cbn [mbind outcome_bind].
  destruct (Z.leb_spec (Z.of_nat (length a)) i); [by rewrite nib_past by lia|].
  destruct (path_byte_index_ok i) as [-> Hk]; [lia|]. cbn [mbind outcome_bind].
  rewrite parity_ok by done. cbn [mbind outcome_bind]. rewrite path_access by done. cbn [mbind outcome_bind].
  f_equal. pose proof (Z.div_mod i 2). pose proof (Z.mod_pos_bound i 2).
  destruct (Z.eqb_spec (i mod 2) 0).
  - rewrite high_nibble_pair by (by apply nib_range). f_equal. lia.
  - rewrite low_nibble_pair by (by apply nib_range). f_equal. lia.
Qed.

Lemma path_new_ok ns : (length ns <= 64)%nat →
  path_new (rev (packed ns)) (Z.of_nat (length ns)) = Ok (path_of ns).
Proof.
  intros Hl. unfold path_new, Bytes32. rewrite fixed_bytes_ok by apply path_data_length. cbn [mbind outcome_bind].
  unfold trie_path_len. by rewrite BoundedUint_ok by lia.
Qed.

Lemma path_append_ok n :
  is_nibble n → (length a < 64)%nat → path_append_nibble (path_of a) n = Ok (path_of (a ++ [n])).
Proof using Ha.
  intros Hn Hlt. destruct Ha as [Hns Hl]. unfold path_append_nibble. rewrite path_len_ok. cbn [mbind outcome_bind].
  rewrite (proj2 (Z.ltb_lt _ _)) by lia. set (L := Z.of_nat (length a)).
  destruct (path_byte_index_ok L) as [-> Hk]; [lia|]. cbn [mbind outcome_bind].
  rewrite parity_ok by lia. cbn [mbind outcome_bind]. rewrite path_access by done.
  set (q := L / 2) in *. pose proof (Z.div_mod L 2). pose proof (Z.mod_pos_bound L 2).
  set (b := if L mod 2 =? 0 then _ else _).
  assert (b = Ok (nibble_pair (nib (a ++ [n]) (2 * Z.to_nat q)) (nib (a ++ [n]) (2 * Z.to_nat q + 1)))) as ->.
  { unfold b. rewrite !nib_snoc. destruct (Z.eqb_spec (L mod 2) 0); cbn [mbind outcome_bind].
    - rewrite decide_True, decide_False, nib_past by lia. done.
    - rewrite decide_False, decide_True by lia. by rewrite high_nibble_pair by (by apply nib_range). }
  cbn [mbind outcome_bind]. replace q with (Z.of_nat (Z.to_nat q)) at 1 by lia.
  cbn [path_of tp_data]. rewrite rev_update by (pose proof (packed_length a) as Hp; unfold py_len in Hp; lia).
  cbn [mbind outcome_bind].
  match goal with |- context [rev (<[?k := ?x]> (packed a))] =>
    assert (<[k := x]> (packed a) = packed (a ++ [n])) as -> end.
  { apply list_eq. intros j. rewrite list_lookup_insert, !packed_lookup, !nib_snoc.
    pose proof (packed_length a) as Hp. unfold py_len in Hp.
    destruct (decide (j = Z.to_nat q)) as [->|Hj]; [by rewrite !(decide_True (P := _ ∧ _)), (decide_True (P := (_ < 32)%nat)) by lia|].
    rewrite (decide_False (P := _ ∧ _)) by lia. destruct (decide (j < 32)%nat); [|done].
    by rewrite !decide_False by lia. }
  unfold Bytes32. rewrite fixed_bytes_ok by apply path_data_length. cbn [mbind outcome_bind].
  replace (L + 1) with (Z.of_nat (length (a ++ [n]))) by (rewrite length_app; cbn; lia).
  apply path_new_ok. rewrite length_app. cbn. lia.
Qed.
End ops.

Lemma path_empty_ok : path_empty = Ok (path_of []).
Proof. by vm_compute. Qed.
Lemma path_single_ok n : is_nibble n → path_single n = Ok (path_of [n]).
Proof.
  intros Hn. unfold path_single. rewrite path_empty_ok. cbn [mbind outcome_bind].
  apply path_append_ok; [split; [constructor|cbn; lia]|done|cbn; lia].
Qed.

Lemma cursor_next_ok i : 0 <= i < 64 → cursor_next i = Ok (i + 1).
Proof.
  intros Hi. unfold cursor_next. rewrite (proj2 (Z.ltb_lt _ _)) by lia. apply BoundedUint_ok. lia.
Qed.

Lemma drop_nib (b : list Z) k : (k < length b)%nat → drop k b = nib b k :: drop (S k) b.
Proof.
  intros Hk. destruct (lookup_lt_is_Some_2 b k Hk) as [x Hx]. unfold nib. rewrite Hx. cbn.
  by apply drop_S.
Qed.

Lemma append_nibbles_ok (f : Z → outcome Z) base b stop fuel r index :
  path_wf b → path_wf r → (∀ i, 0 <= i < stop → f i = Ok (Z.of_nat base + i)) →
  0 <= index <= stop → Z.of_nat base + stop <= Z.of_nat (length b) →
  Z.of_nat (length r) + (stop - index) <= 64 → stop <= 64 → stop - index <= Z.of_nat fuel →
  append_nibbles fuel f (path_of b) stop (path_of r) index =
  Ok (path_of (r ++ take (Z.to_nat (stop - index)) (drop (base + Z.to_nat index) b))).
Proof.
  intros Hb Hr Hf. revert r index Hr. induction fuel as [|fuel IH]; intros r index Hr Hi Hbase Hlen Hstop Hfuel.
  - cbn. rewrite (proj2 (Z.ltb_ge _ _)) by lia. replace (stop - index) with 0 by lia.
    by rewrite app_nil_r.
  - cbn [append_nibbles]. destruct (Z.ltb_spec index stop).
    + rewrite Hf by lia. cbn [mbind outcome_bind]. rewrite path_nibble_ok by (done || lia).
      cbn [mbind outcome_bind]. rewrite path_append_ok; [|done|by apply nib_range, Hb|lia].
      cbn [mbind outcome_bind]. rewrite cursor_next_ok by lia. cbn [mbind outcome_bind].
      rewrite IH; [|..|lia|done|rewrite length_app; cbn; lia|done|lia].
      2: { destruct Hr as [Hr Hl]. split; [|rewrite length_app; cbn; lia].
           apply Forall_app. split; [done|]. constructor; [by apply nib_range, Hb|constructor]. }
      do 2 f_equal. rewrite <-app_assoc. f_equal.
      replace (Z.to_nat (stop - index)) with (S (Z.to_nat (stop - (index + 1)))) by lia.
      rewrite (drop_nib b (base + Z.to_nat index)) by lia. cbn [take app].
      replace (Z.to_nat (Z.of_nat base + index)) with (base + Z.to_nat index)%nat by lia.
      by replace (base + Z.to_nat (index + 1))%nat with (S (base + Z.to_nat index)) by lia.
    + replace (stop - index) with 0 by lia. by rewrite app_nil_r.
Qed.

Lemma path_concat_ok a b :
  path_wf a → path_wf b →
  path_concat (path_of a) (path_of b) =
  if decide (length (a ++ b) <= 64)%nat then Ok (path_of (a ++ b)) else fatal_error.
Proof.
  intros Ha Hb. unfold path_concat. rewrite !path_len_ok by done. cbn [mbind outcome_bind].
  rewrite length_app. destruct (decide (length a + length b <= 64)%nat) as [Hl|Hl].
  2: { by rewrite (proj2 (Z.leb_gt _ _)) by lia. }
  rewrite (proj2 (Z.leb_le _ _)) by lia. destruct Hb.
  rewrite (append_nibbles_ok Ok 0) by (done || lia).
  by rewrite Z.sub_0_r, Nat2Z.id, drop_0, take_ge by lia.
Qed.

Lemma path_drop_ok a n : path_wf a → 0 <= n → path_drop (path_of a) n = Ok (path_of (drop (Z.to_nat n) a)).
Proof.
  intros Ha Hn. unfold path_drop. rewrite path_len_ok by done. cbn [mbind outcome_bind].
  destruct (Z.leb_spec (Z.of_nat (length a)) n); [by rewrite drop_ge, path_empty_ok by lia|].
  destruct (Z.eqb_spec n 0) as [->|]; [done|].
  rewrite path_empty_ok. cbn [mbind outcome_bind]. pose proof (proj2 Ha).
  rewrite (append_nibbles_ok _ (Z.to_nat n)); try done; cbn [length]; try lia.
  - do 2 f_equal. cbn [app]. rewrite Nat.add_0_r, take_ge; [done|]. rewrite length_drop. lia.
  - split; [constructor|cbn; lia].
  - intros i Hi. unfold drop_index. rewrite !(proj2 (Z.leb_le _ _)) by lia. f_equal. lia.
Qed.

Lemma path_eq_ok a b : path_wf a → path_wf b → path_eq (path_of a) (path_of b) = bool_decide (a = b).
Proof.
  intros Ha Hb. unfold path_eq. cbn [path_of tp_len tp_data].
  destruct (decide (a = b)) as [->|Hne]; [by rewrite Z.eqb_refl, !bool_decide_true|].
  rewrite (bool_decide_false (a = b)) by done. apply not_true_iff_false.
  rewrite andb_true_iff, Z.eqb_eq, bool_decide_eq_true. intros [Hl Hd]. apply Hne.
  assert (Hp : path_of a = path_of b) by (unfold path_of; by rewrite Hl, Hd).
  apply list_eq. intros i. destruct (decide (i < length a)%nat) as [Hi|Hi].
  - pose proof (path_nibble_ok a Ha (Z.of_nat i) ltac:(lia)) as E1.
    pose proof (path_nibble_ok b Hb (Z.of_nat i) ltac:(lia)) as E2.
    rewrite Hp, E2, Nat2Z.id in E1. injection E1 as E1. unfold nib in E1.
    destruct (lookup_lt_is_Some_2 a i Hi) as [x Hx]. destruct (lookup_lt_is_Some_2 b i) as [y Hy]; [lia|].
    rewrite Hx, Hy in *. cbn in E1. by subst.
  - by rewrite !lookup_ge_None_2 by lia.
Qed.

Lemma path_matches_loop_ok k s pos fuel off :
  path_wf k → path_wf s → 0 <= pos → pos + Z.of_nat (length s) <= Z.of_nat (length k) →
  (off <= length s)%nat → (length s - off <= fuel)%nat →
  path_matches_loop fuel (path_of k) pos (path_of s) (Z.of_nat (length s)) true (Z.of_nat off) =
  Ok (bool_decide (drop off s `prefix_of` drop (Z.to_nat pos + off) k)).
Proof.
  intros Hk Hs Hpos Hlen. pose proof (proj2 Hk). pose proof (proj2 Hs). revert off.
  induction fuel as [|fuel IH]; intros off Hoff Hfuel.
  - cbn. rewrite (proj2 (Z.ltb_ge _ _)) by lia. rewrite drop_ge by lia.
    rewrite bool_decide_true; [done|apply prefix_nil].
  - cbn [path_matches_loop andb]. destruct (Z.ltb_spec (Z.of_nat off) (Z.of_nat (length s))).
    + rewrite (proj2 (Z.leb_le _ _)) by lia. rewrite !path_nibble_ok by (done || lia).
      cbn [mbind outcome_bind]. rewrite cursor_next_ok by lia.
      rewrite (drop_nib s off), (drop_nib k (Z.to_nat pos + off)) by lia.
      rewrite Nat2Z.id. replace (Z.to_nat (pos + Z.of_nat off)) with (Z.to_nat pos + off)%nat by lia.
      destruct (Z.eqb_spec (nib k (Z.to_nat pos + off)) (nib s off)) as [E|E]; cbn [negb mbind outcome_bind].
      * replace (Z.of_nat off + 1) with (Z.of_nat (S off)) by lia. rewrite IH by lia.
        f_equal. apply bool_decide_ext. rewrite E, Nat.add_succ_r. split; [by apply prefix_cons|].
        apply prefix_cons_inv_2.
      * destruct fuel; cbn; (rewrite bool_decide_false; [done|]); intros Hp%prefix_cons_inv_1; by apply E.
    + rewrite drop_ge by lia. rewrite bool_decide_true; [done|apply prefix_nil].
Qed.

Lemma path_matches_ok k s pos :
  path_wf k → path_wf s → 0 <= pos →
  path_matches (path_of k) pos (path_of s) =
  Ok (bool_decide (pos <= Z.of_nat (length k) ∧ s `prefix_of` drop (Z.to_nat pos) k)).
Proof.
  intros Hk Hs Hpos. unfold path_matches. rewrite !path_len_ok by done. cbn [mbind outcome_bind].
  destruct (Z.ltb_spec (Z.of_nat (length k)) (pos + Z.of_nat (length s))).
  - rewrite bool_decide_false; [done|]. intros [Hp Hpre%prefix_length]. rewrite length_drop in Hpre. lia.
  - pose proof (proj2 Hs). change 0 with (Z.of_nat 0). rewrite path_matches_loop_ok by (done || lia).
    f_equal. apply bool_decide_ext. rewrite Nat.add_0_r, drop_0. split; [intros; split; [lia|done]|by intros [_ ?]].
Qed.

(** How many nibbles two lists share. *)
Fixpoint shared (a b : list Z) : nat :=
  match a, b with
  | x :: a', y :: b' => if x =? y then S (shared a' b') else 0
  | _, _ => 0
  end.
Lemma shared_le a b : (shared a b <= length a ∧ shared a b <= length b)%nat.
Proof.
  revert b. induction a as [|x a IH]; intros [|y b]; cbn; try lia. destruct (x =? y); [|lia].
  specialize (IH b). lia.
Qed.

Lemma common_prefix_loop_ok a b fuel l :
  path_wf a → path_wf b → (l <= length a)%nat → (l <= length b)%nat → (length a - l <= fuel)%nat →
  common_prefix_loop fuel (path_of a) (path_of b) (Z.of_nat (length a `min` length b)) (Z.of_nat l) =
  Ok (Z.of_nat (l + shared (drop l a) (drop l b))).
Proof.
  intros Ha Hb. pose proof (proj2 Ha). pose proof (proj2 Hb). revert l.
  induction fuel as [|fuel IH]; intros l Hla Hlb Hf; cbn [common_prefix_loop].
  - rewrite (proj2 (Z.ltb_ge _ _)) by lia. rewrite (drop_ge a) by lia. cbn. do 2 f_equal. lia.
  - destruct (Z.ltb_spec (Z.of_nat l) (Z.of_nat (length a `min` length b))).
    + rewrite !path_nibble_ok by (done || lia). cbn [mbind outcome_bind]. rewrite !Nat2Z.id.
      rewrite (drop_nib a l), (drop_nib b l) by lia. cbn [shared].
      destruct (Z.eqb_spec (nib a l) (nib b l)); [|do 2 f_equal; lia].
      rewrite cursor_next_ok by lia. cbn [mbind outcome_bind].
      replace (Z.of_nat l + 1) with (Z.of_nat (S l)) by lia. rewrite IH by lia. do 2 f_equal. lia.
    + do 2 f_equal. assert (length a = l ∨ length b = l) as [E|E] by lia.
      * rewrite (drop_ge a) by lia. cbn. lia.
      * rewrite (drop_ge b) by lia. destruct (drop l a); cbn; lia.
Qed.
Lemma common_prefix_ok a b :
  path_wf a → path_wf b → common_prefix_length (path_of a) (path_of b) = Ok (Z.of_nat (shared a b)).
Proof.
  intros Ha Hb. unfold common_prefix_length. rewrite !path_len_ok by done. cbn [mbind outcome_bind].
  pose proof (proj2 Ha). pose proof (shared_le a b).
  replace (if Z.of_nat (length a) <? Z.of_nat (length b) then Z.of_nat (length a) else Z.of_nat (length b))
    with (Z.of_nat (length a `min` length b)) by (destruct (Z.ltb_spec (Z.of_nat (length a)) (Z.of_nat (length b))); lia).
  change 0 with (Z.of_nat 0). rewrite common_prefix_loop_ok by (done || lia). cbn [mbind outcome_bind].
  rewrite !drop_0. apply BoundedUint_ok. lia.
Qed.

Lemma byte_nibbles_length bs : length (byte_nibbles bs) = (2 * length bs)%nat.
Proof. unfold byte_nibbles. induction bs as [|b bs IH]; [done|]. cbn. rewrite IH. lia. Qed.
Lemma byte_nibbles_lookup bs k b :
  bs !! k = Some b → nib (byte_nibbles bs) (2 * k) = high_nibble b ∧
  nib (byte_nibbles bs) (2 * k + 1) = low_nibble b.
Proof.
  revert k. induction bs as [|c bs IH]; intros [|k] Hk; try done.
  - by injection Hk as ->.
  - destruct (IH k Hk) as [<- <-]. unfold nib, byte_nibbles.
    replace (2 * S k)%nat with (S (S (2 * k))) by lia. done.
Qed.
(** Bytes are those of their nibbles. *)
Lemma packed_byte_nibbles bs : length bs = 32%nat → packed (byte_nibbles bs) = bs.
Proof.
  intros Hl. apply list_eq. intros k. rewrite packed_lookup. case_decide as Hk.
  - destruct (lookup_lt_is_Some_2 bs k) as [b Hb]; [lia|].
    destruct (byte_nibbles_lookup bs k b Hb) as [-> ->]. by rewrite pair_of_nibbles.
  - by rewrite lookup_ge_None_2 by lia.
Qed.

(** A whole hash is the path of its 64 nibbles. *)
Definition hash_nibbles (h : hash) : list Z := byte_nibbles (rev h).
Lemma hash_nibbles_wf h : py_len h = 32 → path_wf (hash_nibbles h) ∧ length (hash_nibbles h) = 64%nat.
Proof.
  intros Hh. unfold hash_nibbles. unfold py_len in Hh.
  assert (Hl : length (byte_nibbles (rev h)) = 64%nat) by (rewrite byte_nibbles_length, length_rev; lia).
  split; [|done]. split; [apply byte_nibbles_nibbles|lia].
Qed.
Lemma hash_path h : py_len h = 32 → path_new h 64 = Ok (path_of (hash_nibbles h)).
Proof.
  intros Hh. destruct (hash_nibbles_wf h Hh) as [_ Hl]. unfold hash_nibbles in *.
  pose proof (path_new_ok (byte_nibbles (rev h)) ltac:(lia)) as E. rewrite Hl in E.
  rewrite packed_byte_nibbles, rev_involutive in E; [exact E|]. unfold py_len in Hh. rewrite length_rev. lia.
Qed.

(** paths refine lists of nibbles. On paths that hold lists of at most 64
    nibbles every operation returns, and is the operation on the lists: the
    nibble at a position (zero past the end), appending, concatenating (the
    fatal error when the result is too long), dropping, comparing, testing for
    a prefix at a position and the length of the common prefix; the path of a
    hash holds the nibbles of its bytes, the high half of the first one first. *)
Theorem path_ops_refine (a b : list Z) (n i : Z) (h : hash) :
  path_wf a → path_wf b → is_nibble n → 0 <= i → py_len h = 32 →
  path_new h 64 = Ok (path_of (hash_nibbles h)) ∧
  path_nibble (path_of a) i = Ok (nib a (Z.to_nat i)) ∧
  path_append_nibble (path_of a) n =
    (if decide (length a < 64)%nat then Ok (path_of (a ++ [n])) else fatal_error) ∧
  path_concat (path_of a) (path_of b) =
    (if decide (length (a ++ b) <= 64)%nat then Ok (path_of (a ++ b)) else fatal_error) ∧
  path_drop (path_of a) i = Ok (path_of (drop (Z.to_nat i) a)) ∧
  path_eq (path_of a) (path_of b) = bool_decide (a = b) ∧
  path_matches (path_of a) i (path_of b) =
    Ok (bool_decide (i <= Z.of_nat (length a) ∧ b `prefix_of` drop (Z.to_nat i) a)) ∧
  path_prefix_of (path_of a) (path_of b) = Ok (bool_decide (a `prefix_of` b)) ∧
  common_prefix_length (path_of a) (path_of b) = Ok (Z.of_nat (shared a b)).
Proof.
  intros Ha Hb Hn Hi Hh. split_and!.
  - by apply hash_path.
  - by apply path_nibble_ok.
  - case_decide; [by apply path_append_ok|]. unfold path_append_nibble. rewrite path_len_ok by done.
    cbn [mbind outcome_bind]. by rewrite (proj2 (Z.ltb_ge _ _)) by lia.
  - by apply path_concat_ok.
  - by apply path_drop_ok.
  - by apply path_eq_ok.
  - by apply path_matches_ok.
  - unfold path_prefix_of. rewrite path_matches_ok by done. f_equal. apply bool_decide_ext.
    rewrite drop_0. split; [by intros [_ ?]|intros; split; [lia|done]].
  - by apply common_prefix_ok.
Qed.

Lemma path_ops_refine_witness :
  path_concat (path_of [1; 2; 3]) (path_of [4]) = Ok (path_of [1; 2; 3; 4]) ∧
  path_matches (path_of [1; 2; 3]) 1 (path_of [2; 3]) = Ok true.
Proof.
  assert (H : ∀ l, forallb (λ n, (0 <=? n) && (n <? 16)) l = true → (length l <= 64)%nat → path_wf l).
  { intros l Hl ?. split; [|done]. apply Forall_forall. intros x Hx%list_elem_of_In.
    rewrite forallb_forall in Hl. specialize (Hl x Hx). unfold is_nibble.
    apply andb_true_iff in Hl as [?%Z.leb_le ?%Z.ltb_lt]. lia. }
  split.
  - apply (path_ops_refine [1; 2; 3] [4] 0 0 ZERO_HASH); try by apply H; cbn; try lia. all: by vm_compute.
  - apply (path_ops_refine [1; 2; 3] [2; 3] 0 1 ZERO_HASH); try by apply H; cbn; try lia. all: by vm_compute.
Defined.

(** ** The hex prefix *)

(** A step that has returned; a rewrite, so that nothing is computed. *)
Lemma bind_value {A B} (x : A) (f : A → outcome B) : Ok x ≫= f = f x.
Proof. reflexivity. Qed.

Fixpoint pairs (ns : list Z) : bytes :=
  match ns with h :: l :: ns' => nibble_pair h l :: pairs ns' | _ => [] end.

(** The reference form: a flag nibble, with the first nibble of an odd path or
    a zero, and the remaining pairs. *)
Definition hex_prefix (leaf : bool) (ns : list Z) : bytes :=
  let flag := if leaf then 2 else 0 in
  if Nat.even (length ns) then nibble_pair flag 0 :: pairs ns
  else nibble_pair (flag + 1) (nib ns 0) :: pairs (drop 1 ns).

Definition from_nib (ns : list Z) : Z := fold_left (λ v n, 16 * v + n) ns 0.
Lemma from_nib_snoc ns n : from_nib (ns ++ [n]) = 16 * from_nib ns + n.
Proof. unfold from_nib. by rewrite fold_left_app. Qed.

Lemma from_be_pairs (g : nat → Z) m :
  (∀ i, is_nibble (g i)) →
  from_be ((λ k, nibble_pair (g (2 * k)%nat) (g (2 * k + 1)%nat)) <$> seq 0 m) = from_nib (g <$> seq 0 (2 * m)).
Proof.
  intros Hg. induction m as [|m IH]; [done|]. rewrite seq_S, fmap_app. cbn [fmap list_fmap Nat.add].
  rewrite from_be_snoc, IH, nibble_pair_value by done.
  replace (2 * S m)%nat with (S (S (2 * m))) by lia. rewrite !seq_S, !fmap_app. cbn [fmap list_fmap Nat.add].
  rewrite !from_nib_snoc. replace (2 * m + 1)%nat with (S (2 * m)) by lia. lia.
Qed.

Lemma nib_cons_range x ms n : nib (x :: ms) <$> seq 0 (S n) = x :: (nib ms <$> seq 0 n).
Proof.
  cbn [seq fmap list_fmap]. f_equal. apply list_eq. intros i. rewrite !list_lookup_fmap.
  destruct (decide (i < n)%nat); [by rewrite !lookup_seq_lt by done|by rewrite !lookup_seq_ge by lia].
Qed.
Lemma nib_snoc_range ms n : nib ms <$> seq 0 (S n) = (nib ms <$> seq 0 n) ++ [nib ms n].
Proof. by rewrite seq_S, fmap_app. Qed.
Lemma from_nib_cons_zero ns : from_nib (0 :: ns) = from_nib ns.
Proof. done. Qed.

Lemma packed_shift ms :
  is_nibbles ms → (length ms < 64)%nat → be_bytes 32 (from_be (packed ms) / 16) = packed (0 :: ms).
Proof.
  intros Hms Hl.
  assert (E : from_be (packed (0 :: ms)) = from_be (packed ms) / 16).
  { assert (Hz : is_nibbles (0 :: ms)) by by constructor.
    unfold packed. rewrite !from_be_pairs by (intros; by apply nib_range).
    change (2 * 32)%nat with (S 63). rewrite (nib_cons_range 0 ms 63), (nib_snoc_range ms 63).
    rewrite from_nib_cons_zero.
    rewrite from_nib_snoc, (nib_past ms 63), Z.add_0_r, Z.mul_comm, Z.div_mul by (done || lia). done. }
  rewrite <-E. pose proof (packed_length (0 :: ms)) as H. unfold py_len in H.
  replace 32%nat with (length (packed (0 :: ms))) at 1 by lia. apply be_bytes_from_be.
Qed.

Lemma pairs_lookup ns k :
  pairs ns !! k = if decide (2 * k + 1 < length ns)%nat then Some (nibble_pair (nib ns (2 * k)) (nib ns (2 * k + 1))) else None.
Proof.
  assert (H : ∀ n ns, (length ns <= n)%nat → ∀ k, pairs ns !! k =
    if decide (2 * k + 1 < length ns)%nat then Some (nibble_pair (nib ns (2 * k)) (nib ns (2 * k + 1))) else None).
  2: { by apply (H (length ns)). }
  clear. induction n as [|n IH]; intros [|h [|l ns]] Hn k; try (cbn in Hn; lia); try done.
  - cbn. case_decide; [lia|done].
  - cbn [pairs length] in *. destruct k as [|k].
    + cbn. done.
    + cbn [lookup list_lookup]. fold (pairs ns !! k). rewrite IH by lia.
      replace (2 * S k + 1)%nat with (S (S (2 * k + 1))) by lia. replace (2 * S k)%nat with (S (S (2 * k))) by lia.
      repeat case_decide; try lia; done.
Qed.

(** Pairs filled up with zeros are the packed path. *)
Lemma packed_pairs ns :
  Nat.even (length ns) = true → (length ns <= 64)%nat → mem_range (pairs ns) 0 32 = packed ns.
Proof.
  intros [m Hm]%Nat.even_spec Hl. apply list_eq. intros k. rewrite packed_lookup. case_decide as Hk.
  - rewrite mem_range_lookup by done. f_equal. unfold mem_at. rewrite Z.add_0_l, Nat2Z.id, pairs_lookup.
    case_decide; [done|]. cbn. by rewrite !nib_past by lia.
  - rewrite lookup_ge_None_2; [done|]. rewrite mem_range_length. lia.
Qed.

Lemma slice_load_run kind s h :
  slice_in kind s h →
  slice_load (λ s off, _load_word kind s off 32) s 0 h = (Ok (from_be (mem_range (slice_data kind s h) 0 32)), h).
Proof.
  intros Hs. pose proof (slice_data_length _ _ _ Hs) as Hl. unfold slice_load. rewrite bind_run.
  assert (Hw : word (from_be (mem_range (slice_data kind s h) 0 32)) =
    Ok (from_be (mem_range (slice_data kind s h) 0 32))).
  { apply word_ok, (from_be_word 32); [lia|]. apply mem_range_length. }
  destruct (Z.ltb_spec 0 s.(sl_len)).
  - rewrite load_word_run by done. rewrite of_outcome_run. change (Z.to_nat 32) with 32%nat. fold (slice_data kind s h). by rewrite Hw.
  - pose proof (py_len_nonneg (slice_data kind s h)).
    assert (slice_data kind s h = []) as -> by (destruct (slice_data kind s h); [done|unfold py_len in *; cbn in *; lia]).
    done.
Qed.

Lemma hex_prefix_length leaf ns : py_len (hex_prefix leaf ns) = 1 + Z.of_nat (length ns) / 2.
Proof.
  assert (Hp : ∀ l m, length l = (2 * m)%nat → length (pairs l) = m).
  { intros l m. revert l. induction m as [|m IH]; intros l Hl; [by destruct l|].
    destruct l as [|x [|y l]]; try (cbn in Hl; lia). cbn. by rewrite IH by (cbn in Hl; lia). }
  unfold hex_prefix, py_len. destruct (Nat.even (length ns)) eqn:E.
  - apply Nat.even_spec in E as [m Hm]. cbn [length]. rewrite (Hp ns m Hm), Hm.
    replace (Z.of_nat (2 * m)) with (Z.of_nat m * 2) by lia. rewrite Z.div_mul by done. lia.
  - assert (Ho : Nat.odd (length ns) = true) by (by rewrite <-Nat.negb_even, E).
    apply Nat.odd_spec in Ho as [m Hm]. cbn [length]. rewrite (Hp (drop 1 ns) m) by (rewrite length_drop; lia).
    rewrite Hm. replace (Z.of_nat (2 * m + 1)) with (1 + Z.of_nat m * 2) by lia.
    rewrite Z.div_add by done. change (1 / 2) with 0. lia.
Qed.

Lemma byte_or_zero_first b l : byte_or_zero (b :: l) 0 = Z_of_byte b.
Proof. done. Qed.

(** What the first byte says. *)
Lemma flag_byte f x :
  is_nibble f → is_nibble x → let fb := Z_of_byte (nibble_pair f x) in
  Z.shiftr fb 4 = f ∧ Z.land fb 15 = x.
Proof.
  intros Hf Hx. cbv zeta. split; [apply (high_nibble_pair f x Hf Hx)|apply (low_nibble_pair f x Hf Hx)].
Qed.

Lemma packed_size ns : length (packed ns) = 32%nat.
Proof. pose proof (packed_length ns) as H. unfold py_len in H. lia. Qed.
Lemma packed_head x n ms : <[0%nat := nibble_pair n (nib ms 0)]> (packed (x :: ms)) = packed (n :: ms).
Proof.
  apply list_eq. intros k. rewrite list_lookup_insert, !packed_lookup, packed_size.
  destruct k as [|k]; [by rewrite decide_True by lia|].
  rewrite (decide_False (P := _ ∧ _)) by lia. case_decide; [|done]. by replace (2 * S k)%nat with (S (S (2 * k))) by lia.
Qed.

Lemma packed_first x ms : packed (x :: ms) !! 0%nat = Some (nibble_pair x (nib ms 0)).
Proof. by rewrite packed_lookup, decide_True by lia. Qed.

(** The path data of an even and of an odd prefix, from the loaded tail. *)
Lemma even_data ns :
  path_wf ns → Nat.even (length ns) = true →
  (d ← word_to_hash (from_be (mem_range (pairs ns) 0 32)); path_new d (Z.of_nat (length ns))) = Ok (path_of ns).
Proof.
  intros [_ Hlen] E. rewrite (packed_pairs ns) by done. rewrite word_to_hash_ok. cbn [mbind outcome_bind].
  rewrite <-(packed_size ns), be_bytes_from_be. by apply path_new_ok.
Qed.

Lemma odd_data n ms :
  is_nibble n → is_nibbles ms → Nat.even (length ms) = true → (length ms < 64)%nat →
  (shifted ← word_shift_right (from_be (mem_range (pairs ms) 0 32)) 4;
   bytes ← word_to_hash shifted;
   first ← sail_vector_access bytes 0 false;
   bytes ← sail_vector_update bytes 0 (nibble_pair n (low_nibble first)) false;
   bytes ← Bytes32 bytes;
   path_new bytes (Z.of_nat (length ms) + 1)) = Ok (path_of (n :: ms)).
Proof.
  intros Hn Hms E Hl. rewrite (packed_pairs ms) by (done || lia).
  destruct (word_shift_right_ok (from_be (packed ms)) 4) as [-> _];
    [apply (from_be_word 32); [lia|apply packed_size]|done|].
  rewrite bind_value. change (2 ^ 4) with 16. rewrite word_to_hash_ok. rewrite bind_value.
  rewrite (packed_shift ms Hms Hl).
  pose proof (rev_access (packed (0 :: ms)) 0 _ (packed_first 0 ms)) as Ea.
  pose proof (rev_update (packed (0 :: ms)) 0 (nibble_pair n (nib ms 0))) as Eu.
  change (Z.of_nat 0) with 0 in Ea, Eu. rewrite Ea. rewrite bind_value.
  rewrite low_nibble_pair by (done || by apply nib_range).
  rewrite Eu by (rewrite packed_size; lia). rewrite bind_value.
  rewrite packed_head. unfold Bytes32. rewrite fixed_bytes_ok by apply path_data_length.
  rewrite bind_value. replace (Z.of_nat (length ms) + 1) with (Z.of_nat (length (n :: ms))) by (cbn; lia).
  apply path_new_ok. cbn. lia.
Qed.

Lemma even_or_odd (ns : list Z) :
  Nat.even (length ns) = true ∨
  ∃ n ms, ns = n :: ms ∧ Nat.even (length ns) = false ∧ Nat.even (length ms) = true.
Proof.
  destruct (Nat.even (length ns)) eqn:E; [by left|]. right. destruct ns as [|n ms]; [done|].
  exists n, ms. split; [done|]. split; [done|]. cbn [length] in E. by rewrite Nat.even_succ, <-Nat.negb_even, negb_false_iff in E.
Qed.

Section decode.
Context (kind : RegionKind) (h : HostState) (leaf : bool) (ns : list Z) (Hns : path_wf ns).

(** The bytes are split in a flag byte and a tail. *)
Lemma decode_content_split content b t :
  slice_in kind content h → slice_data kind content h = b :: t →
  ∃ tail, slice_suffix content 1 = Ok tail ∧
    slice_byte (_region_byte kind) content 0 h = (Ok (Z_of_byte b), h) ∧
    slice_load (λ s off, _load_word kind s off 32) tail 0 h = (Ok (from_be (mem_range t 0 32)), h).
Proof using.
  intros Hs Hd. pose proof (slice_data_length _ _ _ Hs) as Hl. rewrite Hd in Hl.
  destruct (slice_suffix_ok kind content 1 h Hs) as (tail & Etail & Htail & _ & Htd);
    [unfold py_len in Hl; cbn [length] in Hl; lia|].
  exists tail. split; [done|]. split; [by apply (slice_head_run kind h content b t)|].
  rewrite (slice_load_run kind tail h Htail), Htd, Hd. done.
Qed.

Lemma decode_content_ok content :
  slice_in kind content h → slice_data kind content h = hex_prefix leaf ns →
  decode_hex_prefix_content kind content content.(sl_len) h = (Ok (leaf, path_of ns), h).
Proof using Hns.
  intros Hs Hd. pose proof (slice_data_length _ _ _ Hs) as Hl. rewrite Hd, hex_prefix_length in Hl.
  set (flag := if leaf then 2 else 0).
  assert (Hflag : is_nibble flag ∧ is_nibble (flag + 1) ∧ Z.testbit flag 0 = false ∧ Z.testbit (flag + 1) 0 = true ∧
    Z.testbit flag 1 = leaf ∧ Z.testbit (flag + 1) 1 = leaf) by by unfold flag; destruct leaf.
  destruct Hflag as (Hf0 & Hf1 & T00 & T10 & T01 & T11).
  unfold hex_prefix in Hd. fold flag in Hd. destruct Hns as [Hnib Hlen].
  unfold decode_hex_prefix_content.
  destruct (even_or_odd ns) as [E|(n & ms & -> & E & Em)]; rewrite E in Hd.
  - destruct (decode_content_split content _ _ Hs Hd) as (tail & Etail & Eb & El).
    rewrite bind_run, Eb, bind_run, of_outcome_run, Etail, bind_run, El, of_outcome_run.
    destruct (flag_byte flag 0 Hf0 ltac:(done)) as [-> _]. rewrite T00, T01.
    apply Nat.even_spec in E as E'. destruct E' as [m Hm].
    replace ((content.(sl_len) - 1) * 2) with (Z.of_nat (length ns)).
    2: { rewrite <-Hl, Hm. replace (Z.of_nat (2 * m)) with (Z.of_nat m * 2) by lia. rewrite Z.div_mul by done. lia. }
    pose proof (even_data ns Hns E) as Ed. apply bind_Ok in Ed as (d & -> & Ed). rewrite bind_value, Ed. done.
  - cbn [drop] in Hd. rewrite drop_0 in Hd. apply Forall_cons in Hnib as [Hn Hms].
    destruct (decode_content_split content _ _ Hs Hd) as (tail & Etail & Eb & El).
    rewrite bind_run, Eb, bind_run, of_outcome_run, Etail, bind_run, El, of_outcome_run.
    destruct (flag_byte (flag + 1) n Hf1 Hn) as [Es Ex].
    change (nib (n :: ms) 0) with n. rewrite Es, Ex, T10, T11.
    apply Nat.even_spec in Em as E'. destruct E' as [m Hm]. cbn [length] in *.
    assert (Hpaired : (content.(sl_len) - 1) * 2 = Z.of_nat (length ms)).
    { rewrite <-Hl, Hm. replace (Z.of_nat (S (2 * m))) with (1 + Z.of_nat m * 2) by lia.
      rewrite Z.div_add by done. change (1 / 2) with 0. lia. }
    rewrite Hpaired, (proj2 (Z.ltb_lt _ _)) by lia.
    pose proof (odd_data n ms Hn Hms Em ltac:(lia)) as Ed.
    apply bind_Ok in Ed as (d1 & -> & Ed). rewrite bind_value.
    apply bind_Ok in Ed as (d2 & -> & Ed). rewrite bind_value.
    apply bind_Ok in Ed as (d3 & -> & Ed). rewrite bind_value.
    apply bind_Ok in Ed as (d4 & -> & Ed). rewrite bind_value.
    apply bind_Ok in Ed as (d5 & -> & Ed). rewrite bind_value, Ed. done.
Qed.

(** A field with such content is decoded to the path. *)
Lemma decode_hex_prefix_ok f :
  field_in kind f h → f.(is_list) = false → field_content kind f h = hex_prefix leaf ns →
  decode_hex_prefix kind f h = (Ok (leaf, path_of ns), h).
Proof using Hns.
  intros Hf Hlist Hc. pose proof (field_content_len _ _ _ Hf) as Hl. rewrite Hc, hex_prefix_length in Hl.
  destruct (item_content_ok kind f h Hf) as (t & Et & Ht & Htl & Htd). unfold item_content in Et.
  unfold decode_hex_prefix. rewrite Hlist.
  assert (0 <= Z.of_nat (length ns) / 2 <= 32).
  { destruct Hns. split; [apply Z.div_pos; lia|apply Z.div_le_upper_bound; lia]. }
  rewrite (proj2 (Z.eqb_neq f.(content_len) 0)) by lia.
  rewrite (proj2 (Z.ltb_ge HEX_PREFIX_MAX_LENGTH _)) by (unfold HEX_PREFIX_MAX_LENGTH; lia).
  rewrite bind_run, of_outcome_run, Et, <-Htl. apply decode_content_ok; [done|]. by rewrite Htd.
Qed.
End decode.
