(* ===== verification/TrieCodec.v ===== *)
(** * TrieCodec: the nodes of the trie

    [lib/mpt/nodes.py] and [lib/mpt/codec.py]: references to nodes, their RLP
    form written through the scratch arena and read from the witness or from
    the arena. The two copies of each decoder, one for each region, are one
    definition here; they differ in what an inline node is. A branch mask is
    an integer of 16 bits. *)

From Stdlib Require Import ZArith Lia Strings.Byte.
From stdpp Require Import base tactics option list.
From S2P Require Import Prelude PyBytes HostTypes SailRuntime Words ChainConfig Regions RegionAccess Gas Crypto Accounts CodeDb Environment Scratch Rlp TxCodec TriePath.
Local Open Scope Z_scope.

Definition MPT_HASH_LENGTH : Z := WORD_BYTE_LENGTH.

(** ** References *)

Record InlineNode : Type := mkInlineNode { in_data : hash; in_len : Z }.

Inductive NodeRef : Type :=
| EmptyRef
| InputInlineRef (value : Slice)
| ScratchInlineRef (value : InlineNode)
| HashRef (value : hash).

Inductive TrieLeafValue : Type :=
| InputTrieLeaf (value : Slice)
| ScratchTrieLeaf (value : Slice).

(** [vector(16, NodeRef)], at its Sail indices. *)
Definition BranchRefs : Type := list NodeRef.

(** [InputTrieNode] and [ScratchTrieNode], with the slices of their region. *)
Inductive TrieNode : Type :=
| LeafNode (path : TriePath) (value : Slice)
| ExtensionNode (path : TriePath) (child : NodeRef)
| BranchNode (children : BranchRefs) (value : Slice).

Definition branch_content_length (v : Z) : outcome Z := BoundedUint 0 529 v.
Definition branch_content_length_add (current addition : Z) : outcome Z :=
  v ← (if addition <=? 529 - current then Ok (current + addition) else fatal_error);
  branch_content_length v.

Definition inline_node (encoded length : Z) : outcome InlineNode :=
  data ← word_to_hash encoded; n ← BoundedUint 0 31 length; Ok (mkInlineNode data n).

Definition inline_node_from_slice (kind : RegionKind) (bytes : Slice) : M HostState InlineNode :=
  if bytes.(sl_len) <? MPT_HASH_LENGTH then
    encoded ← slice_load (λ s off, _load_word kind s off 32) bytes 0;
    of_outcome (inline_node encoded bytes.(sl_len))
  else of_outcome fatal_error.
Definition inline_node_from_scratch_slice := inline_node_from_slice RScratch.
Definition inline_node_from_input_slice := inline_node_from_slice RInput.

Definition inline_node_slice (node : InlineNode) : M SpecState Slice :=
  start ← scratch_reserve node.(in_len);
  scratch_push_b256 node.(in_data) node.(in_len);; scratch_finish start.

Section digests.
Context `{Keccak}.

Definition inline_node_hash (node : InlineNode) : M SpecState hash :=
  mark ← scratch_begin;
  encoded ← inline_node_slice node;
  digest ← zoom (scratch_keccak256 encoded);
  scratch_rewind mark;;
  of_outcome (Bytes32 digest).
End digests.

(** ** Writing nodes *)

Definition node_ref_size (r : NodeRef) : outcome Z :=
  BoundedUint 0 33 match r with
                   | EmptyRef => 1
                   | InputInlineRef node => node.(sl_len)
                   | ScratchInlineRef node => node.(in_len)
                   | HashRef _ => rlp_word_size
                   end.

Definition rlp_write_node_ref (r : NodeRef) : M SpecState unit :=
  match r with
  | EmptyRef => scratch_push_byte 0x80
  | InputInlineRef node => stateless_input_scratch_push_slice node
  | ScratchInlineRef node => scratch_push_b256 node.(in_data) node.(in_len)
  | HashRef h => hash_word ← of_outcome (hash_to_word h); rlp_write_word hash_word
  end.

Definition rlp_hex_prefix_size (p : TriePath) (is_leaf : bool) : outcome Z :=
  encoded_length ← hex_prefix_encoded_length p;
  first ← hex_prefix_first_byte p is_leaf;
  BoundedUint 1 34 (if (encoded_length =? 1) && high_bit_clear first then 1 else encoded_length + 1).

(** The pairs of nibbles after the first byte. *)
Fixpoint write_pairs (fuel : nat) (p : TriePath) (length index : Z) : M SpecState unit :=
  if index <? length then
    match fuel with
    | O => of_outcome out_of_fuel
    | S fuel' =>
        current ← of_outcome (sail_tmod_int index 65);
        next ← of_outcome (sail_tmod_int (current + 1) 65);
        high ← of_outcome (path_nibble p current);
        low ← of_outcome (path_nibble p next);
        scratch_push_byte (Z.lor (Z.shiftl high 4) low);;
        write_pairs fuel' p length (next + 1)
    end
  else mret tt.

Definition rlp_write_hex_prefix (p : TriePath) (is_leaf : bool) : M SpecState unit :=
  length ← of_outcome (path_len p);
  encoded_length ← of_outcome (hex_prefix_encoded_length p);
  first ← of_outcome (hex_prefix_first_byte p is_leaf);
  rlp_write_string_prefix encoded_length first;;
  scratch_push_byte first;;
  rest ← of_outcome (sail_tmod_int length 2);
  write_pairs 33 p length (if negb (rest =? 0) then 1 else 0).

(** ** Branch masks *)

Definition branch_mask_for (index : Z) : Z := Z.land (Z.shiftl 1 index) 0xffff.
Definition branch_mask_has (mask index : Z) : bool := negb (Z.land mask (branch_mask_for index) =? 0).
Definition branch_mask_set (mask index : Z) : Z := Z.lor mask (branch_mask_for index).

Section nodes.
Context `{Keccak}.

(** A node of 32 bytes or more is referred to by its digest. *)
Definition child_ref (encoded : Slice) : M SpecState NodeRef :=
  if encoded.(sl_len) <? MPT_HASH_LENGTH then
    node ← zoom (inline_node_from_scratch_slice encoded); mret (ScratchInlineRef node)
  else node_hash ← zoom (scratch_keccak256 encoded); mret (HashRef node_hash).

(** An encoded node: its list, written at the end of the arena, referred to
    and dropped. *)
Definition written_child_ref (encoded_size content_len : Z) (payload : M SpecState unit) :
    M SpecState NodeRef :=
  encoder ← rlp_encoder_begin encoded_size;
  rlp_write_list_prefix content_len;;
  payload;;
  encoded ← rlp_encoder_finish encoder;
  result ← child_ref encoded;
  rlp_encoder_rewind encoder;;
  mret result.

Definition leaf_ref (size : M HostState Z) (write : M SpecState unit) (key : TriePath) :
    M SpecState NodeRef :=
  path_size ← of_outcome (rlp_hex_prefix_size key true);
  value_size ← zoom size;
  content_len ← of_outcome (rlp_scratch_length_add path_size value_size);
  encoded_size ← of_outcome (rlp_scratch_list_size content_len);
  written_child_ref encoded_size content_len (rlp_write_hex_prefix key true;; write).

Definition input_leaf_child_ref (key : TriePath) (value : Slice) : M SpecState NodeRef :=
  leaf_ref (rlp_input_scratch_slice_size value) (rlp_write_input_slice value) key.
Definition scratch_leaf_child_ref (key : TriePath) (value : Slice) : M SpecState NodeRef :=
  leaf_ref (rlp_scratch_scratch_slice_size value) (rlp_write_scratch_slice value) key.
Definition leaf_child_ref (key : TriePath) (value : TrieLeafValue) : M SpecState NodeRef :=
  match value with
  | InputTrieLeaf bytes => input_leaf_child_ref key bytes
  | ScratchTrieLeaf bytes => scratch_leaf_child_ref key bytes
  end.

Definition extension_child_ref (key : TriePath) (childref : NodeRef) : M SpecState NodeRef :=
  path_length ← of_outcome (rlp_hex_prefix_size key false);
  child_length ← of_outcome (node_ref_size childref);
  let content_len := path_length + child_length in
  encoded_size ← of_outcome (rlp_list_size content_len);
  written_child_ref encoded_size content_len
    (rlp_write_hex_prefix key false;; rlp_write_node_ref childref).

(** The child bit of the [i]-th turn of a loop over the mask. *)
Definition child_present (mask i : Z) : bool := negb (Z.land mask (branch_mask_for i) =? 0).

Fixpoint branch_length (mask : Z) (children : BranchRefs) (ids : list Z) (content_length : Z) :
    outcome Z :=
  match ids with
  | [] => Ok content_length
  | i :: ids' =>
      child_length ←
        (if child_present mask i then r ← sail_vector_access children i false; node_ref_size r else Ok 1);
      v ← branch_content_length_add content_length child_length;
      v ← branch_content_length v;
      branch_length mask children ids' v
  end.

Definition branch_child_ref (mask : Z) (children : BranchRefs) : M SpecState NodeRef :=
  indices ← of_outcome (sail_range 0 15 1 true);
  content_length ← of_outcome (branch_length mask children indices 1);
  scratch_content_length ← of_outcome (rlp_scratch_length_add content_length 0);
  encoded_size ← of_outcome (rlp_scratch_list_size scratch_content_length);
  written_child_ref encoded_size content_length
    (for_each (λ i,
       if child_present mask i
       then r ← of_outcome (sail_vector_access children i false); rlp_write_node_ref r
       else scratch_push_byte 0x80) indices;;
     scratch_push_byte 0x80).

Definition trie_ref_to_root (r : NodeRef) : M SpecState hash :=
  match r with
  | EmptyRef => of_outcome (Bytes32 EMPTY_TRIE_ROOT)
  | InputInlineRef node => h ← zoom (stateless_input_keccak256 node); of_outcome (Bytes32 h)
  | ScratchInlineRef node => h ← inline_node_hash node; of_outcome (Bytes32 h)
  | HashRef h => of_outcome (Bytes32 h)
  end.

Definition input_node_to_ref (node : Slice) : M SpecState NodeRef :=
  if node.(sl_len) =? 0 then mret EmptyRef
  else if node.(sl_len) <? MPT_HASH_LENGTH then mret (InputInlineRef node)
  else node_hash ← zoom (stateless_input_keccak256 node); mret (HashRef node_hash).
Definition scratch_node_to_ref (node : Slice) : M SpecState NodeRef :=
  if node.(sl_len) =? 0 then mret EmptyRef
  else if node.(sl_len) <? MPT_HASH_LENGTH then
    inline ← zoom (inline_node_from_scratch_slice node); mret (ScratchInlineRef inline)
  else node_hash ← zoom (scratch_keccak256 node); mret (HashRef node_hash).
End nodes.

Definition node_db_lookup (h : hash) : M HostState Slice := zoom (nodedb_lookup h).

(** The sixteen cases read the index of the nibble. *)
Definition branch_refs_get (children : BranchRefs) (index : Z) : outcome NodeRef :=
  sail_vector_access children index false.

(** ** Reading nodes *)

Section decoding.
Context (kind : RegionKind).

Definition inline_field (f : RlpFieldRef) : M HostState NodeRef :=
  match kind with
  | RInput =>
      if f.(source).(sl_len) <? MPT_HASH_LENGTH then mret (InputInlineRef f.(source))
      else of_outcome fatal_error
  | _ => node ← inline_node_from_scratch_slice f.(source); mret (ScratchInlineRef node)
  end.

Definition field_to_ref (f : RlpFieldRef) : M HostState NodeRef :=
  if f.(is_list) then inline_field f
  else if f.(content_len) =? MPT_HASH_LENGTH then
    word_ ← decode_word kind f;
    of_outcome (hash_ ← word_to_hash word_; Ok (HashRef hash_))
  else mret EmptyRef.

(** An item and the cursor after it. *)
Definition next_item (cursor : Slice) : M HostState (RlpFieldRef * Slice) :=
  item ← decode_item kind cursor;
  next ← of_outcome (slice_suffix cursor item.(source).(sl_len));
  mret (item, next).

(** The children from an index to the last one, and the value. *)
Fixpoint decode_branch_node (remaining : nat) (cursor : Slice) (children : BranchRefs) :
    M HostState TrieNode :=
  '(item, next) ← next_item cursor;
  match remaining with
  | S remaining' =>
      decoded_child ← field_to_ref item;
      updated ← of_outcome (sail_vector_update children (16 - Z.of_nat remaining) decoded_child false);
      decode_branch_node remaining' next updated
  | O =>
      of_outcome (cursor_expect_end next;; content ← item_content item; Ok (BranchNode children content))
  end.

Definition decode_fields (fields : Slice) : M HostState TrieNode :=
  '(first, fields) ← next_item fields;
  '(second, fields) ← next_item fields;
  if fields.(sl_len) =? 0 then
    '(is_leaf, path) ← decode_hex_prefix kind first;
    if is_leaf : bool then of_outcome (value ← item_content second; Ok (LeafNode path value))
    else
      path_length ← of_outcome (path_len path);
      if path_length =? 0 then of_outcome fatal_error
      else child ← field_to_ref second; mret (ExtensionNode path child)
  else
    first_child ← field_to_ref first;
    second_child ← field_to_ref second;
    children ← of_outcome
      (children ← sail_vector_init 16 EmptyRef;
       children ← sail_vector_update children 0 first_child false;
       sail_vector_update children 1 second_child false);
    decode_branch_node 14 fields children.
End decoding.

Definition input_field_to_ref := field_to_ref RInput.
Definition scratch_field_to_ref := field_to_ref RScratch.
Definition decode_input_branch_node := decode_branch_node RInput.
Definition decode_scratch_branch_node := decode_branch_node RScratch.

Definition decode_input_trie_node (node : Slice) : M HostState TrieNode :=
  fatal_when (node.(sl_len) =? 0);;
  fields ← rlp_node_cursor node; decode_fields RInput fields.
Definition decode_scratch_trie_node (node : Slice) : M HostState TrieNode :=
  fields ← scratch_rlp_node_cursor node; decode_fields RScratch fields.

Definition resolve_witness_ref (r : NodeRef) : M HostState Slice :=
  match r with
  | EmptyRef => mret EMPTY_STATELESS_INPUT_SLICE
  | InputInlineRef node => mret node
  | ScratchInlineRef _ => of_outcome fatal_error
  | HashRef h =>
      node ← node_db_lookup h;
      if node.(sl_len) =? 0 then of_outcome fatal_error else mret node
  end.

(** ** Merging extensions *)

Section merging.
Context `{Keccak}.

Definition merge_ext_node (prefix : TriePath) (childnode : Slice) : M SpecState NodeRef :=
  prefix_length ← of_outcome (path_len prefix);
  if prefix_length =? 0 then input_node_to_ref childnode
  else if childnode.(sl_len) =? 0 then mret EmptyRef
  else
    decoded ← zoom (decode_input_trie_node childnode);
    match decoded with
    | LeafNode path value =>
        merged_path ← of_outcome (path_concat prefix path); input_leaf_child_ref merged_path value
    | ExtensionNode path child =>
        merged_path ← of_outcome (path_concat prefix path); extension_child_ref merged_path child
    | BranchNode _ _ => childref ← input_node_to_ref childnode; extension_child_ref prefix childref
    end.

(** A decoded inline node under a prefix. *)
Definition merge_decoded (leaf : TriePath → Slice → M SpecState NodeRef) (prefix : TriePath)
    (childref : NodeRef) (decoded : TrieNode) : M SpecState NodeRef :=
  match decoded with
  | LeafNode path value => merged_path ← of_outcome (path_concat prefix path); leaf merged_path value
  | ExtensionNode path child =>
      merged_path ← of_outcome (path_concat prefix path); extension_child_ref merged_path child
  | BranchNode _ _ => extension_child_ref prefix childref
  end.

Definition merge_ext_ref (prefix : TriePath) (childref : NodeRef) : M SpecState NodeRef :=
  prefix_length ← of_outcome (path_len prefix);
  if prefix_length =? 0 then mret childref
  else
    match childref with
    | EmptyRef => mret EmptyRef
    | HashRef _ => extension_child_ref prefix childref
    | InputInlineRef node =>
        decoded ← zoom (decode_input_trie_node node);
        merge_decoded input_leaf_child_ref prefix childref decoded
    | ScratchInlineRef node =>
        node_slice ← inline_node_slice node;
        decoded ← zoom (decode_scratch_trie_node node_slice);
        merge_decoded scratch_leaf_child_ref prefix childref decoded
    end.
End merging.
