(* ===== verification/TrieUpdates.v ===== *)
(** * TrieUpdates: lookups and updates of a trie over a witness

    [lib/mpt/updates.py] and [lib/mpt/trie.py]. An update cursor holds the
    next update of a source that gives them in ascending order of their keys;
    the subtrees below a prefix are rebuilt from the witness and the updates
    under the prefix. The source is an argument ([source_next]) here: its two
    kinds are those of StateRoot. The cursors and the children the code
    mutates are not read through their old names afterwards, so they are
    values. A recursion goes at most once through each of the 64 positions of
    a path, twice for a witness node; a loop over the children of a node moves
    to a larger nibble each time. *)

From Stdlib Require Import ZArith Lia Strings.Byte.
From stdpp Require Import base tactics option list.
From S2P Require Import Prelude PyBytes HostTypes SailRuntime Words ChainConfig Regions RegionAccess Gas Crypto Accounts CodeDb Environment Scratch Rlp TxCodec TriePath TrieCodec.
Local Open Scope Z_scope.

(** ** Updates *)

Inductive TrieChange : Type := TriePut (value : Slice) | TrieDelete.
Record TrieUpdate : Type := mkTrieUpdate { tu_key : TriePath; change : TrieChange }.
Inductive TrieUpdateSource : Type :=
| StorageTrieUpdates (addr : address)
| ChangedAccountTrieUpdates.
Record TrieUpdateFetch : Type := mkTrieUpdateFetch { available : bool; tf_update : TrieUpdate }.

(** The update is under the prefix in hand, with what is left of its key; or
    it shares that many nibbles with the update before it. *)
Inductive TrieUpdateRelation : Type :=
| UpdateUnderPrefix (postfix : TriePath)
| UpdateBeyondPrefix (common_prefix_len : Z)
| UpdateSourceExhausted.

Record TrieUpdateCursor : Type := mkTrieUpdateCursor {
  uc_source : TrieUpdateSource;
  uc_current : TrieUpdate;
  uc_relation : TrieUpdateRelation;
}.

(** [path_empty()], which never raises. *)
Definition EMPTY_PATH : TriePath := mkTriePath ZERO_HASH 0.
Definition EMPTY_TRIE_UPDATE : TrieUpdate := mkTrieUpdate EMPTY_PATH TrieDelete.

Definition updates_empty (u : TrieUpdateCursor) : bool :=
  match u.(uc_relation) with UpdateSourceExhausted => true | _ => false end.

Definition trie_updates_rebase (u : TrieUpdateCursor) (prefix : TriePath) : outcome TrieUpdateCursor :=
  prefix_len ← path_len prefix;
  match u.(uc_relation) with
  | UpdateBeyondPrefix common_prefix_len =>
      if prefix_len <=? common_prefix_len then
        path_postfix ← path_drop u.(uc_current).(tu_key) prefix_len;
        Ok (mkTrieUpdateCursor u.(uc_source) u.(uc_current) (UpdateUnderPrefix path_postfix))
      else Ok u
  | _ => Ok u
  end.

Definition trie_updates_descend (u : TrieUpdateCursor) : outcome TrieUpdateCursor :=
  match u.(uc_relation) with
  | UpdateUnderPrefix path_postfix =>
      postfix_len ← path_len path_postfix;
      if postfix_len =? 0 then fatal_error
      else
        child_postfix ← path_drop path_postfix 1;
        Ok (mkTrieUpdateCursor u.(uc_source) u.(uc_current) (UpdateUnderPrefix child_postfix))
  | _ => fatal_error
  end.

Definition update_under_current_prefix (u : TrieUpdateCursor) : bool :=
  match u.(uc_relation) with UpdateUnderPrefix _ => true | _ => false end.

Definition update_child_nibble (u : TrieUpdateCursor) : outcome Z :=
  match u.(uc_relation) with
  | UpdateUnderPrefix path_postfix =>
      postfix_len ← path_len path_postfix;
      if postfix_len =? 0 then fatal_error else path_nibble path_postfix 0
  | _ => fatal_error
  end.

(** The measures of the loops over the children. *)
Definition update_child_ranges_remaining (u : TrieUpdateCursor) : outcome Z :=
  if update_under_current_prefix u then
    child_nibble ← update_child_nibble u; BoundedUint 0 16 (16 - child_nibble)
  else BoundedUint 0 16 0.
Definition overlay_child_ranges_remaining (u : TrieUpdateCursor) (existing_pending : bool)
    (existing_nibble : Z) : outcome Z :=
  update_position ← (if update_under_current_prefix u then update_child_nibble u else Ok 16);
  let existing_position := if existing_pending then existing_nibble else 16 in
  let next_position := if update_position <? existing_position then update_position else existing_position in
  BoundedUint 1 17 (17 - next_position).

(** ** Items *)

Inductive TrieItemValue : Type :=
| EmptySubtree
| LeafItem (value : TrieLeafValue)
| BranchItem (value : NodeRef)
| SubtreeItem (value : NodeRef).
Record TrieItem : Type := mkTrieItem { ti_path : TriePath; ti_value : TrieItemValue }.

Definition trie_empty_subtree : outcome TrieItem := p ← path_empty; Ok (mkTrieItem p EmptySubtree).
Definition trie_leaf (p : TriePath) (v : TrieLeafValue) : TrieItem := mkTrieItem p (LeafItem v).
Definition trie_input_leaf (p : TriePath) (v : Slice) : TrieItem := trie_leaf p (InputTrieLeaf v).
Definition trie_scratch_leaf (p : TriePath) (v : Slice) : TrieItem := trie_leaf p (ScratchTrieLeaf v).
Definition trie_branch (p : TriePath) (r : NodeRef) : TrieItem := mkTrieItem p (BranchItem r).
Definition trie_subtree (p : TriePath) (r : NodeRef) : TrieItem := mkTrieItem p (SubtreeItem r).

Record TrieChildren : Type := mkTrieChildren {
  mask : Z;
  children : BranchRefs;
  only : TrieItem;
  count : Z;
}.

Definition trie_children_empty : outcome TrieChildren :=
  children ← sail_vector_init 16 EmptyRef;
  empty_subtree ← trie_empty_subtree;
  count ← BoundedUint 0 16 0;
  validated (py_len children =? 16) (mkTrieChildren 0 children empty_subtree count).

Section trie.
Context `{Keccak} (source_next : TrieUpdateSource → M SpecState TrieUpdateFetch).

Definition trie_child_ref (it : TrieItem) (depth : Z) : M SpecState NodeRef :=
  suffix ← of_outcome (path_drop it.(ti_path) depth);
  suffix_len ← of_outcome (path_len suffix);
  match it.(ti_value) with
  | EmptySubtree => mret EmptyRef
  | LeafItem value => leaf_child_ref suffix value
  | BranchItem subref => if suffix_len =? 0 then mret subref else merge_ext_ref suffix subref
  | SubtreeItem subref =>
      if suffix_len =? 0 then mret subref
      else
        match subref with
        | HashRef h =>
            node ← zoom (node_db_lookup h);
            if node.(sl_len) =? 0 then of_outcome fatal_error else merge_ext_node suffix node
        | _ => merge_ext_ref suffix subref
        end
  end.

Definition trie_children_add (c : TrieChildren) (prefix : TriePath) (index : Z) (child : TrieItem) :
    M SpecState TrieChildren :=
  match child.(ti_value) with
  | EmptySubtree => mret c
  | _ =>
      depth ← of_outcome (path_len prefix);
      child_depth ← of_outcome (if depth <? 64 then Ok (depth + 1) else fatal_error);
      next_child_count ← of_outcome (if c.(count) <? 16 then Ok (c.(count) + 1) else fatal_error);
      child_segment ← of_outcome (path_single index);
      child_prefix ← of_outcome (path_concat prefix child_segment);
      path_below_child ← of_outcome (path_prefix_of child_prefix child.(ti_path));
      fatal_when (negb path_below_child);;
      fatal_when (branch_mask_has c.(mask) index);;
      r ← trie_child_ref child child_depth;
      of_outcome
        (refs ← sail_vector_update c.(children) index r false;
         n ← BoundedUint 0 16 next_child_count;
         Ok (mkTrieChildren (branch_mask_set c.(mask) index) refs child n))
  end.

Definition trie_children_finish (prefix : TriePath) (c : TrieChildren) : M SpecState TrieItem :=
  if c.(count) =? 0 then mret (mkTrieItem prefix EmptySubtree)
  else if c.(count) =? 1 then mret c.(only)
  else branch_ref ← branch_child_ref c.(mask) c.(children); mret (trie_branch prefix branch_ref).

Definition trie_subtree_root (subtree : TrieItem) : M SpecState hash :=
  match subtree.(ti_value) with
  | EmptySubtree => of_outcome (Bytes32 EMPTY_TRIE_ROOT)
  | _ => root_ref ← trie_child_ref subtree 0; h ← trie_ref_to_root root_ref; of_outcome (Bytes32 h)
  end.

(** ** The cursor *)

Definition trie_updates_begin (source : TrieUpdateSource) : M SpecState TrieUpdateCursor :=
  first ← source_next source;
  mret (mkTrieUpdateCursor source first.(tf_update)
    (if first.(available) then UpdateUnderPrefix first.(tf_update).(tu_key) else UpdateSourceExhausted)).

Definition trie_updates_pop (u : TrieUpdateCursor) : M SpecState (TrieUpdate * TrieUpdateCursor) :=
  match u.(uc_relation) with
  | UpdateSourceExhausted => of_outcome fatal_error
  | _ =>
      let current := u.(uc_current) in
      successor ← source_next u.(uc_source);
      if successor.(available) then
        common_prefix_len ← of_outcome
          (common_prefix_length current.(tu_key) successor.(tf_update).(tu_key));
        mret (current, mkTrieUpdateCursor u.(uc_source) successor.(tf_update)
                         (UpdateBeyondPrefix common_prefix_len))
      else
        mret (current, mkTrieUpdateCursor u.(uc_source) EMPTY_TRIE_UPDATE UpdateSourceExhausted)
  end.

(** The update of a whole key, which is taken. *)
Definition take_update (u : TrieUpdateCursor) (key : TriePath) :
    M SpecState (TrieChange * TrieUpdateCursor) :=
  match u.(uc_relation) with
  | UpdateUnderPrefix path_postfix =>
      postfix_len ← of_outcome (path_len path_postfix); fatal_when (negb (postfix_len =? 0))
  | _ => of_outcome fatal_error
  end;;
  '(update, next) ← trie_updates_pop u;
  fatal_when (negb (path_eq update.(tu_key) key));;
  mret (update.(change), next).

(** What an update leaves under its key. *)
Definition changed_leaf (key : TriePath) (c : TrieChange) : outcome TrieItem :=
  match c with
  | TrieDelete => trie_empty_subtree
  | TriePut value => Ok (trie_scratch_leaf key value)
  end.

(** The cursor after a child, which may not go back. *)
Definition rebase_after (next : TrieUpdateCursor) (prefix : TriePath) (previous : Z) :
    M SpecState TrieUpdateCursor :=
  rebased ← of_outcome (trie_updates_rebase next prefix);
  when (update_under_current_prefix rebased)
    (rebased_nibble ← of_outcome (update_child_nibble rebased);
     fatal_when (rebased_nibble <=? previous));;
  mret rebased.

(** The prefix of a child. *)
Definition child_prefix_of (prefix : TriePath) (nibble : Z) : outcome TriePath :=
  child_path ← path_single nibble; path_concat prefix child_path.

Definition Subtree : Type := TrieItem * TrieUpdateCursor.

(** ** Below a prefix with no node *)

(** The loop over the children, with the recursive call as an argument. *)
Fixpoint updates_children (turns : nat) (below : TrieUpdateCursor → TriePath → Z → M SpecState Subtree)
    (prefix : TriePath) (next_cursor : Z) (c : TrieChildren) (remaining : TrieUpdateCursor) :
    M SpecState (TrieChildren * TrieUpdateCursor) :=
  if update_under_current_prefix remaining then
    match turns with
    | O => of_outcome out_of_fuel
    | S turns' =>
        nib ← of_outcome (update_child_nibble remaining);
        child_prefix ← of_outcome (child_prefix_of prefix nib);
        descended ← of_outcome (trie_updates_descend remaining);
        '(child, next) ← below descended child_prefix next_cursor;
        c ← trie_children_add c prefix nib child;
        rebased ← rebase_after next prefix nib;
        updates_children turns' below prefix next_cursor c rebased
    end
  else mret (c, remaining).

Fixpoint updates_subtree (depth : nat) (u : TrieUpdateCursor) (prefix : TriePath) (cursor : Z) :
    M SpecState Subtree :=
  match depth with
  | O => of_outcome out_of_fuel
  | S depth' =>
      prefix_len ← of_outcome (path_len prefix);
      fatal_when (negb (prefix_len =? cursor));;
      if negb (update_under_current_prefix u) then it ← of_outcome trie_empty_subtree; mret (it, u)
      else if cursor =? 64 then
        '(c, next) ← take_update u prefix;
        it ← of_outcome (changed_leaf prefix c); mret (it, next)
      else
        c ← of_outcome trie_children_empty;
        '(c, remaining) ← updates_children 17 (updates_subtree depth') prefix (cursor + 1) c u;
        it ← trie_children_finish prefix c; mret (it, remaining)
  end.

(** ** Overlaying one item *)

(** The loops of [overlay_leaf_subtree] and [overlay_extension_subtree]: the
    updates below the prefix in order, with an existing item under a nibble;
    an update under that nibble is overlaid on the item ([consume]). *)
Fixpoint overlay_children (turns : nat) (item : TrieItem) (item_nibble : Z)
    (consume below : TrieUpdateCursor → TriePath → Z → M SpecState Subtree)
    (prefix : TriePath) (next_cursor : Z) (pending : bool) (c : TrieChildren)
    (remaining : TrieUpdateCursor) : M SpecState (TrieChildren * TrieUpdateCursor) :=
  let update_pending := update_under_current_prefix remaining in
  if pending || update_pending then
    match turns with
    | O => of_outcome out_of_fuel
    | S turns' =>
        let next_turn := overlay_children turns' item item_nibble consume below prefix next_cursor in
        if update_pending then
          update_nibble ← of_outcome (update_child_nibble remaining);
          if pending && (item_nibble <? update_nibble) then
            c ← trie_children_add c prefix item_nibble item; next_turn false c remaining
          else
            child_prefix ← of_outcome (child_prefix_of prefix update_nibble);
            descended ← of_outcome (trie_updates_descend remaining);
            let consumes := pending && (update_nibble =? item_nibble) in
            '(child, next) ←
              (if consumes then consume else below) descended child_prefix next_cursor;
            c ← trie_children_add c prefix update_nibble child;
            rebased ← rebase_after next prefix update_nibble;
            next_turn (if consumes then false else pending) c rebased
        else c ← trie_children_add c prefix item_nibble item; next_turn false c remaining
    end
  else mret (c, remaining).

Fixpoint overlay_leaf_subtree (depth : nat) (u : TrieUpdateCursor) (prefix key : TriePath)
    (value : Slice) (cursor : Z) : M SpecState Subtree :=
  match depth with
  | O => of_outcome out_of_fuel
  | S depth' =>
      prefix_len ← of_outcome (path_len prefix);
      key_below_prefix ← of_outcome (path_prefix_of prefix key);
      fatal_when (negb (prefix_len =? cursor) || negb key_below_prefix);;
      if cursor =? 64 then
        fatal_when (negb (path_eq prefix key));;
        if update_under_current_prefix u then
          '(c, next) ← take_update u key;
          it ← of_outcome (changed_leaf key c); mret (it, next)
        else mret (trie_input_leaf key value, u)
      else
        leaf_nibble ← of_outcome (path_nibble key cursor);
        c ← of_outcome trie_children_empty;
        '(c, remaining) ←
          overlay_children 18 (trie_input_leaf key value) leaf_nibble
            (λ u p n, overlay_leaf_subtree depth' u p key value n) (updates_subtree depth')
            prefix (cursor + 1) true c u;
        it ← trie_children_finish prefix c; mret (it, remaining)
  end.

(** ** Over a node of the witness *)

(** The sixteen children of a branch. *)
Fixpoint branch_children (ids : list Z) (over : Slice → TriePath → TrieUpdateCursor → Z → M SpecState Subtree)
    (below : TrieUpdateCursor → TriePath → Z → M SpecState Subtree)
    (refs : BranchRefs) (prefix : TriePath) (next_cursor : Z) (c : TrieChildren)
    (remaining : TrieUpdateCursor) : M SpecState (TrieChildren * TrieUpdateCursor) :=
  match ids with
  | [] => mret (c, remaining)
  | i :: ids' =>
      child_prefix ← of_outcome (child_prefix_of prefix i);
      childref ← of_outcome (sail_vector_access refs i false);
      let present := match childref with EmptyRef => false | _ => true end in
      update_here ←
        (if update_under_current_prefix remaining then
           update_nibble ← of_outcome (update_child_nibble remaining);
           fatal_when (update_nibble <? i);; mret (update_nibble =? i)
         else mret false);
      '(child, next_updates) ←
        (if update_here : bool then
           descended ← of_outcome (trie_updates_descend remaining);
           if present then
             child ← zoom (resolve_witness_ref childref); over child child_prefix descended next_cursor
           else below descended child_prefix next_cursor
         else if present then mret (trie_subtree child_prefix childref, remaining)
         else it ← of_outcome trie_empty_subtree; mret (it, remaining));
      c ← trie_children_add c prefix i child;
      remaining ← (if update_here : bool then of_outcome (trie_updates_rebase next_updates prefix)
                   else mret next_updates);
      branch_children ids' over below refs prefix next_cursor c remaining
  end.

(** [witness_subtree] and [overlay_extension_subtree] call each other. *)
Fixpoint witness_subtree (depth : nat) (node : Slice) (prefix : TriePath) (u : TrieUpdateCursor)
    (cursor : Z) : M SpecState Subtree :=
  match depth with
  | O => of_outcome out_of_fuel
  | S depth' =>
      prefix_len ← of_outcome (path_len prefix);
      fatal_when (negb (prefix_len =? cursor));;
      if node.(sl_len) =? 0 then updates_subtree 65 u prefix cursor
      else
        decoded ← zoom (decode_input_trie_node node);
        match decoded with
        | LeafNode path value =>
            key ← of_outcome (path_concat prefix path);
            overlay_leaf_subtree 65 u prefix key value cursor
        | ExtensionNode path childref =>
            extension_len ← of_outcome (path_len path);
            if (extension_len =? 0) || (64 <? cursor + extension_len) then of_outcome fatal_error
            else
              child_prefix ← of_outcome (path_concat prefix path);
              overlay_extension_subtree depth' childref child_prefix u prefix cursor
        | BranchNode refs value =>
            if negb (value.(sl_len) =? 0) || (64 <=? cursor) then of_outcome fatal_error
            else
              built ← of_outcome trie_children_empty;
              indices ← of_outcome (sail_range 0 15 1 true);
              '(built, remaining) ←
                branch_children indices (witness_subtree depth') (updates_subtree 65) refs prefix
                  (cursor + 1) built u;
              fatal_when (update_under_current_prefix remaining);;
              it ← trie_children_finish prefix built; mret (it, remaining)
        end
  end
with overlay_extension_subtree (depth : nat) (childref : NodeRef) (child_prefix : TriePath)
    (u : TrieUpdateCursor) (prefix : TriePath) (cursor : Z) : M SpecState Subtree :=
  match depth with
  | O => of_outcome out_of_fuel
  | S depth' =>
      prefix_len ← of_outcome (path_len prefix);
      child_below_prefix ← of_outcome (path_prefix_of prefix child_prefix);
      fatal_when (negb (prefix_len =? cursor) || negb child_below_prefix);;
      if path_eq prefix child_prefix then
        if update_under_current_prefix u then
          child ← zoom (resolve_witness_ref childref); witness_subtree depth' child child_prefix u cursor
        else mret (trie_branch child_prefix childref, u)
      else if cursor =? 64 then of_outcome fatal_error
      else
        extension_nibble ← of_outcome (path_nibble child_prefix cursor);
        c ← of_outcome trie_children_empty;
        '(c, remaining) ←
          overlay_children 18 (trie_branch child_prefix childref) extension_nibble
            (λ u p n, overlay_extension_subtree depth' childref child_prefix u p n)
            (updates_subtree 65) prefix (cursor + 1) true c u;
        it ← trie_children_finish prefix c; mret (it, remaining)
  end.

(** ** The root *)

Record TrieRootResult : Type := mkTrieRootResult { root : hash; changed : bool }.

Definition trie_root_cursor (base_root : hash) (u : TrieUpdateCursor) : M SpecState TrieRootResult :=
  if updates_empty u then mret (mkTrieRootResult base_root false)
  else
    empty_prefix ← of_outcome path_empty;
    '(subtree, remaining) ←
      (if bool_decide (base_root = EMPTY_TRIE_ROOT) then updates_subtree 65 u empty_prefix 0
       else
         node ← zoom (node_db_lookup base_root);
         if node.(sl_len) =? 0 then of_outcome fatal_error
         else witness_subtree 132 node empty_prefix u 0);
    if updates_empty remaining then
      root ← trie_subtree_root subtree; mret (mkTrieRootResult root true)
    else of_outcome fatal_error.

Definition trie_root (base_root : hash) (source : TrieUpdateSource) : M SpecState TrieRootResult :=
  u ← trie_updates_begin source; trie_root_cursor base_root u.
End trie.

(** ** Lookups *)

(** Each step moves at least one nibble along the key. *)
Fixpoint trie_walk (depth : nat) (node : Slice) (key : TriePath) (pos : Z) : M HostState Slice :=
  match depth with
  | O => of_outcome out_of_fuel
  | S depth' =>
      if node.(sl_len) =? 0 then mret EMPTY_STATELESS_INPUT_SLICE
      else
        decoded ← decode_input_trie_node node;
        match decoded with
        | LeafNode path value =>
            matches ← of_outcome (path_matches key pos path);
            if negb matches then mret EMPTY_STATELESS_INPUT_SLICE
            else
              path_length ← of_outcome (path_len path);
              key_length ← of_outcome (path_len key);
              mret (if pos + path_length =? key_length then value else EMPTY_STATELESS_INPUT_SLICE)
        | ExtensionNode path childref =>
            extension_len ← of_outcome (path_len path);
            if extension_len =? 0 then mret EMPTY_STATELESS_INPUT_SLICE
            else
              matches ← of_outcome (path_matches key pos path);
              if negb matches then mret EMPTY_STATELESS_INPUT_SLICE
              else if pos + extension_len <=? 64 then
                child ← resolve_witness_ref childref; trie_walk depth' child key (pos + extension_len)
              else mret EMPTY_STATELESS_INPUT_SLICE
        | BranchNode refs value =>
            key_length ← of_outcome (path_len key);
            if pos =? key_length then mret value
            else if pos <? key_length then
              child_nibble ← of_outcome (path_nibble key pos);
              childref ← of_outcome (branch_refs_get refs child_nibble);
              child ← resolve_witness_ref childref;
              trie_walk depth' child key (pos + 1)
            else mret EMPTY_STATELESS_INPUT_SLICE
        end
  end.

Definition trie_lookup (root : hash) (key : TriePath) : M HostState Slice :=
  if bool_decide (root = EMPTY_TRIE_ROOT) then mret EMPTY_STATELESS_INPUT_SLICE
  else
    node ← node_db_lookup root;
    if node.(sl_len) =? 0 then of_outcome fatal_error else trie_walk 66 node key 0.
