(* ===== verification/StateRoot.v ===== *)
(** * StateRoot: accounts and storage values in the trie

    [lib/rlp/codecs/state.py], [lib/state_trie.py] and [account_from_info] of
    [primitives/account.py]: the encodings of the leaves, the lookups the
    kernel misses its caches with, and the root after the changes in the block
    caches. The updates of the account trie are found by walking the block
    cache; each account with changed storage has the root of its storage trie
    computed on the way, so the source of updates and the trie call each
    other. They do so once: the source of an account's storage looks at the
    storage cache only. *)

From Stdlib Require Import ZArith Lia Strings.Byte.
From stdpp Require Import base tactics option list.
From S2P Require Import Prelude PyBytes HostTypes SailRuntime Words ChainConfig Regions RegionAccess Gas Crypto Storage Accounts CodeDb Environment Scratch Rlp Kernel TxCodec TriePath TrieCodec TrieUpdates.
Local Open Scope Z_scope.

(** ** The leaves *)

Definition account_from_info (i : AccountInfo) : Account := mkAccount i true false false false.

(** A 32-byte field, or the default one when it is empty. *)
Definition decode_hash_field (default : hash) (f : RlpFieldRef) : M HostState hash :=
  if f.(content_len) =? 0 then mret default
  else w ← rlp_decode_word f; of_outcome (word_to_hash w).

Definition decode_state_account (value : Slice) : M HostState AccountInfo :=
  fields ← rlp_node_cursor value;
  '(nonce, fields) ← next_item RInput fields;
  '(balance, fields) ← next_item RInput fields;
  '(storage, fields) ← next_item RInput fields;
  '(code, fields) ← next_item RInput fields;
  of_outcome (rlp_cursor_expect_end fields);;
  storage_root ← decode_hash_field EMPTY_TRIE_ROOT storage;
  code_hash ← decode_hash_field KECCAK_EMPTY code;
  nonce ← rlp_decode_uint64 nonce;
  nonce ← of_outcome (Uint nonce);
  balance ← rlp_decode_u256 balance;
  of_outcome
    (balance ← word balance;
     storage_root ← Bytes32 storage_root;
     code_hash ← Bytes32 code_hash;
     Ok (mkAccountInfo nonce balance code_hash storage_root)).

Definition encode_storage_value (value : Z) : M SpecState Slice :=
  encoded_len ← of_outcome (rlp_uint_word_size value);
  encoder ← rlp_encoder_begin encoded_len;
  rlp_write_uint_word value;;
  rlp_encoder_finish encoder.

Definition encode_state_account (i : AccountInfo) (storage_root : hash) : M SpecState Slice :=
  nonce_length ← of_outcome (rlp_uint_word_size i.(nonce));
  balance_length ← of_outcome (rlp_uint_word_size i.(balance));
  let content_len := nonce_length + balance_length + rlp_word_size + rlp_word_size in
  encoded_length ← of_outcome (rlp_list_size content_len);
  encoder ← rlp_encoder_begin encoded_length;
  rlp_write_list_prefix content_len;;
  rlp_write_uint_word i.(nonce);;
  rlp_write_uint_word i.(balance);;
  storage_root_word ← of_outcome (hash_to_word storage_root);
  rlp_write_word storage_root_word;;
  code_hash_word ← of_outcome (hash_to_word i.(code_hash));
  rlp_write_word code_hash_word;;
  rlp_encoder_finish encoder.

(** ** Lookups *)

Definition stateless_account_by_key (root address_hash : hash) : M SpecState Account :=
  path ← of_outcome (path_new address_hash 64);
  zoom (value ← trie_lookup root path;
        if value.(sl_len) =? 0 then mret EMPTY_ACCOUNT
        else info ← decode_state_account value; mret (account_from_info info)).

Definition stateless_storage_by_key (root slot_hash : hash) : M SpecState Z :=
  path ← of_outcome (path_new slot_hash 64);
  zoom (value ← trie_lookup root path;
        if value.(sl_len) =? 0 then of_outcome (word ZERO_WORD)
        else
          encoded_value ← rlp_single_ref value;
          v ← rlp_decode_u256 encoded_value; of_outcome (word v)).

(** The state trie of the program. *)
#[export] Instance state_trie : StateTrie := {|
  Kernel.stateless_account_by_key := stateless_account_by_key;
  Kernel.stateless_storage_by_key := stateless_storage_by_key;
|}.

(** ** Changes *)

Definition storage_value_changed (v : StorageValue) : bool := negb (v.(sv_curr) =? v.(sv_orig)).

Definition account_value_changed (v : AcctValue) : bool :=
  let c := v.(av_curr) in let o := v.(av_orig) in
  negb (c.(info).(nonce) =? o.(info).(nonce)) ||
  (negb (c.(info).(balance) =? o.(info).(balance)) ||
   (negb (bool_decide (c.(info).(storage_root) = o.(info).(storage_root))) ||
    (negb (bool_decide (c.(info).(code_hash) = o.(info).(code_hash))) ||
     (negb (Bool.eqb c.(present) o.(present)) ||
      negb (Bool.eqb c.(storage_cleared) o.(storage_cleared)))))).

(** The path of a hash, which a row may lack. *)
Definition path_of_hash (h : option hash) : outcome TriePath :=
  match h with
  | Some h => path_new h 64
  | None => Raise (TypeError "expected a bytes-like object")
  end.

Definition storage_update (e : StorageTrieEntry) : M SpecState TrieUpdate :=
  key ← of_outcome (path_of_hash e.(ste_slot_hash));
  let curr := e.(ste_entry).(se_value).(sv_curr) in
  if word_is_zero curr then mret (mkTrieUpdate key TrieDelete)
  else encoded_value ← encode_storage_value curr; mret (mkTrieUpdate key (TriePut encoded_value)).

Definition account_update (e : AcctTrieEntry) (storage_root : hash) : M SpecState TrieUpdate :=
  let current := e.(ate_entry).(ae_value).(av_curr) in
  key ← of_outcome (path_of_hash e.(ate_address_hash));
  if negb current.(present) || account_info_empty current.(info)
  then mret (mkTrieUpdate key TrieDelete)
  else
    encoded_account ← encode_state_account current.(info) storage_root;
    mret (mkTrieUpdate key (TriePut encoded_account)).

Definition no_update : TrieUpdateFetch := mkTrieUpdateFetch false EMPTY_TRIE_UPDATE.

(** ** Sources of updates *)

Fixpoint storage_update_loop (fuel : nat) (a : address) : M SpecState TrieUpdateFetch :=
  match fuel with
  | O => of_outcome out_of_fuel
  | S fuel' =>
      item ← on_host (storage_block_iter_next a);
      match item with
      | StorageBlockIterRow e =>
          if storage_value_changed e.(ste_entry).(se_value)
          then update ← storage_update e; mret (mkTrieUpdateFetch true update)
          else storage_update_loop fuel' a
      | StorageBlockIterExhausted => mret no_update
      end
  end.

(** Each turn takes a row of the iterator. *)
Definition next_storage_trie_update (a : address) : M SpecState TrieUpdateFetch :=
  rows ← on_host (gets storage_iterator); storage_update_loop (S (length rows)) a.

Section keccak.
Context `{Keccak}.

Section accounts.
Context (source_next : TrieUpdateSource → M SpecState TrieUpdateFetch).

Definition account_trie_update (e : AcctTrieEntry) : M SpecState (TrieUpdate * bool) :=
  let entry := e.(ate_entry) in
  let current := entry.(ae_value).(av_curr) in
  on_host (storage_block_iter_begin entry.(ae_addr));;
  storage_updates ← trie_updates_begin source_next (StorageTrieUpdates entry.(ae_addr));
  let storage_changed := negb (updates_empty storage_updates) in
  let base_storage_root :=
    if current.(storage_cleared) then EMPTY_TRIE_ROOT else current.(info).(storage_root) in
  let account_nonempty := negb (account_info_empty current.(info)) in
  storage_root ←
    (if current.(present) && (account_nonempty && storage_changed)
     then r ← trie_root_cursor source_next base_storage_root storage_updates; mret r.(root)
     else mret base_storage_root);
  update ← account_update e storage_root;
  mret (update, account_value_changed entry.(ae_value) || storage_changed).

Fixpoint account_update_loop (fuel : nat) : M SpecState TrieUpdateFetch :=
  match fuel with
  | O => of_outcome out_of_fuel
  | S fuel' =>
      item ← on_host acct_block_iter_next;
      match item with
      | AcctBlockIterRow e =>
          '(update, changed) ← account_trie_update e;
          if changed : bool then mret (mkTrieUpdateFetch true update) else account_update_loop fuel'
      | AcctBlockIterExhausted => mret no_update
      end
  end.

Definition next_changed_account_trie_update : M SpecState TrieUpdateFetch :=
  rows ← on_host (gets account_iterator); account_update_loop (S (length rows)).
End accounts.

(** [trie_update_source_next] up to a nesting of sources. *)
Fixpoint source_next_within (nesting : nat) (source : TrieUpdateSource) : M SpecState TrieUpdateFetch :=
  match source, nesting with
  | StorageTrieUpdates a, _ => next_storage_trie_update a
  | ChangedAccountTrieUpdates, S nesting' =>
      next_changed_account_trie_update (source_next_within nesting')
  | ChangedAccountTrieUpdates, O => of_outcome out_of_fuel
  end.

Definition trie_update_source_next : TrieUpdateSource → M SpecState TrieUpdateFetch :=
  source_next_within 1.

Definition compute_state_root : M SpecState hash :=
  on_host acct_block_iter_begin;;
  e ← gets sp_env;
  r ← trie_root trie_update_source_next e.(k_parent_state_root) ChangedAccountTrieUpdates;
  of_outcome (Bytes32 r.(root)).
End keccak.
