(* ===== verification/TrieLookup.v ===== *)
(** * TrieLookup: lookups against an abstract trie

    The reference is a trie of paths of nibbles, with the value under a key
    and the bytes of its nodes, the children of 32 bytes or more by their
    digest. When the node database holds the nodes of a trie, the lookup of
    [lib/mpt/trie.py] from its root returns the bytes under the key, in the
    steps there is fuel for. *)

From Stdlib Require Import ZArith Lia Strings.Byte.
From stdpp Require Import base tactics option list gmap.
From S2P Require Import Prelude PyBytes SailRuntime HostTypes Words WordTheorems WordBits ChainConfig Regions RegionAccess Gas RegionFacts Crypto Accounts CodeDb Environment Scratch Rlp RlpTheorems TxCodec TriePath TriePathTheorems TrieCodec TrieUpdates.
Local Open Scope Z_scope.

(** ** The reference *)

Inductive trie : Type :=
| Null
| Leaf (path : list Z) (value : bytes)
| Extension (path : list Z) (child : trie)
| Branch (children : list trie) (value : bytes).

(** The bytes under a key, none when it is absent. *)
Fixpoint trie_get (t : trie) (key : list Z) : bytes :=
  match t with
  | Null => []
  | Leaf path value => if bool_decide (key = path) then value else []
  | Extension path child =>
      if bool_decide (path `prefix_of` key) then trie_get child (drop (length path) key) else []
  | Branch children value =>
      match key with
      | [] => value
      | n :: key' => nth (Z.to_nat n) (map (λ c, trie_get c key') children) []
      end
  end.

Section keccak.
Context `{Keccak}.

(** How a node names another one: by its bytes when they are short. *)
Definition ref_bytes (node : bytes) : bytes :=
  if bool_decide (node = []) then rlp_string []
  else if py_len node <? 32 then node else rlp_string (_keccak node).

Fixpoint node_bytes (t : trie) : bytes :=
  match t with
  | Null => []
  | Leaf path value => rlp_list (rlp_string (hex_prefix true path) ++ rlp_string value)
  | Extension path child => rlp_list (rlp_string (hex_prefix false path) ++ ref_bytes (node_bytes child))
  | Branch children value =>
      rlp_list (List.concat (map (λ c, ref_bytes (node_bytes c)) children) ++ rlp_string value)
  end.

Definition digest_of (node : bytes) : hash := _bytes32_from_wire (_keccak node).
Definition root_of (t : trie) : hash :=
  match t with Null => EMPTY_TRIE_ROOT | _ => digest_of (node_bytes t) end.

Section witness.
Context (h : HostState).

(** The node database leads to the bytes of a node. *)
Definition stored (node : bytes) : Prop :=
  ∃ s, h.(codes).(node_db) !! _keccak node = Some s ∧ slice_in RInput s h ∧ slice_data RInput s h = node.

(** The witness holds the nodes below a trie. *)
Inductive held : trie → Prop :=
| held_null : held Null
| held_leaf path value : path_wf path → held (Leaf path value)
| held_extension path child :
    path_wf path → path ≠ [] → provided child → held (Extension path child)
| held_branch children value :
    length children = 16%nat → Forall provided children → held (Branch children value)
with provided : trie → Prop :=
| provided_node t : held t → (32 <= py_len (node_bytes t) → stored (node_bytes t)) → provided t.

(** A reference to a child. *)
Definition refers (r : NodeRef) (child : bytes) : Prop :=
  if bool_decide (child = []) then r = EmptyRef
  else if py_len child <? 32 then
    ∃ s, r = InputInlineRef s ∧ slice_in RInput s h ∧ slice_data RInput s h = child
  else r = HashRef (digest_of child).

(** ** Reading a node *)

Lemma data_empty kind s : slice_in kind s h → (s.(sl_len) =? 0) = bool_decide (slice_data kind s h = []).
Proof.
  intros Hs. rewrite <-(slice_data_length _ _ _ Hs).
  destruct (slice_data kind s h); [done|]. rewrite bool_decide_false by done.
  apply Z.eqb_neq. unfold py_len. cbn. lia.
Qed.

Lemma next_item_run kind cursor (list : bool) p rest :
  slice_in kind cursor h → slice_data kind cursor h = rlp_encode list p ++ rest →
  ∃ f next, next_item kind cursor h = (Ok (f, next), h) ∧ field_in kind f h ∧ f.(is_list) = list ∧
    field_data kind f h = rlp_encode list p ∧ field_content kind f h = p ∧
    slice_in kind next h ∧ slice_data kind next h = rest.
Proof.
  intros Hs E. destruct (decode_item_run kind cursor list p rest h Hs E) as (f & Ef & Hf & Hl & Hsl & Hd & Hc).
  pose proof (slice_data_length _ _ _ Hs) as Hlen. rewrite E, py_len_app in Hlen.
  pose proof (py_len_nonneg rest). pose proof (py_len_nonneg (rlp_encode list p)).
  destruct (slice_suffix_ok kind cursor (py_len (rlp_encode list p)) h) as (next & En & Hn & _ & Hnd); [done|lia|].
  exists f, next. split_and!; [|done..|].
  - unfold next_item. by rewrite bind_run, Ef, bind_run, Hsl, of_outcome_run, En.
  - rewrite Hnd, E. apply drop_app_length'. unfold py_len. lia.
Qed.

Lemma node_list t : t ≠ Null → ∃ p, node_bytes t = rlp_list p.
Proof. destruct t; [done|by eexists..]. Qed.
Lemma list_nonempty p : rlp_list p ≠ [].
Proof. intros E. pose proof (rlp_encode_len_pos true p) as Hp. cbn in Hp. rewrite E in Hp. by apply Hp. Qed.

(** The item that refers to a child, and the reference read from it. *)
Lemma field_ref_run t :
  ∃ (list : bool) p, ref_bytes (node_bytes t) = rlp_encode list p ∧
  ∀ f, field_in RInput f h → f.(is_list) = list → field_data RInput f h = rlp_encode list p →
    field_content RInput f h = p →
    ∃ r, field_to_ref RInput f h = (Ok r, h) ∧ refers r (node_bytes t).
Proof.
  unfold ref_bytes, refers. case_bool_decide as Hne; [|destruct (Z.ltb_spec (py_len (node_bytes t)) 32)].
  - exists false, []. split; [done|]. intros f Hf Hl _ Hc. exists EmptyRef. split; [|done].
    pose proof (field_content_len _ _ _ Hf) as Hn. rewrite Hc in Hn. change (py_len []) with 0 in Hn.
    unfold field_to_ref. rewrite Hl, <-Hn. done.
  - destruct (node_list t) as [p E]; [by intros ->|]. rewrite E in *. exists true, p. split; [done|].
    intros f Hf Hl Hd _. exists (InputInlineRef f.(source)). split.
    + unfold field_to_ref, inline_field. rewrite Hl.
      pose proof (slice_data_length _ _ _ (proj1 Hf)) as Hn. unfold field_data in Hd. rewrite Hd in Hn.
      cbn [rlp_encode] in Hn. unfold MPT_HASH_LENGTH, WORD_BYTE_LENGTH. by rewrite (proj2 (Z.ltb_lt _ _)) by lia.
    + eexists. split_and!; [done|apply Hf|done].
  - exists false, (_keccak (node_bytes t)). split; [done|]. intros f Hf Hl _ Hc.
    eexists. split; [|done].
    pose proof (field_content_len _ _ _ Hf) as Hn. rewrite Hc in Hn. unfold py_len in Hn. rewrite _keccak_length in Hn.
    unfold field_to_ref. rewrite Hl, <-Hn. change (Z.of_nat 32 =? MPT_HASH_LENGTH) with true. cbn match.
    rewrite bind_run, (decode_word_run RInput) by (done || lia). rewrite Hc, of_outcome_run, word_to_hash_ok.
    cbn [mbind outcome_bind]. rewrite <-(_keccak_length (node_bytes t)), be_bytes_from_be. done.
Qed.
(** The sixteen children of a branch, from where the cursor stands. *)
Lemma decode_branch_run cs value : ∀ cursor l,
  length l = 16%nat → (length cs <= 16)%nat → slice_in RInput cursor h →
  slice_data RInput cursor h = List.concat (map (λ c, ref_bytes (node_bytes c)) cs) ++ rlp_string value →
  ∃ rs v, decode_branch_node RInput (length cs) cursor (rev l) h =
      (Ok (BranchNode (rev (take (16 - length cs) l ++ rs)) v), h) ∧
    Forall2 (λ r c, refers r (node_bytes c)) rs cs ∧
    slice_in RInput v h ∧ slice_data RInput v h = value.
Proof.
  induction cs as [|c cs IH]; intros cursor l Hl Hcs Hs E; cbn [length decode_branch_node].
  - destruct (next_item_run RInput cursor false value [] Hs) as (f & next & En & Hf & _ & _ & Hc & Hn & Hnd);
      [by rewrite app_nil_r|].
    rewrite bind_run, En. destruct (item_content_ok _ _ _ Hf) as (v & Ev & Hv & _ & Hvd).
    pose proof (slice_data_length _ _ _ Hn) as Hnl. rewrite Hnd in Hnl. change (py_len []) with 0 in Hnl.
    exists [], v. unfold cursor_expect_end. rewrite <-Hnl, of_outcome_run. cbn [Z.eqb mbind outcome_bind].
    rewrite Ev. cbn [mbind outcome_bind]. rewrite app_nil_r, take_ge by lia.
    split_and!; [done|constructor|done|by rewrite Hvd].
  - cbn [map List.concat] in E. rewrite <-app_assoc in E.
    destruct (field_ref_run c) as (list & p & Er & Hr). rewrite Er in E.
    destruct (next_item_run RInput cursor list p _ Hs E) as (f & next & En & Hf & Hfl & Hfd & Hc & Hn & Hnd).
    destruct (Hr f Hf Hfl Hfd Hc) as (r & Efr & Hrc). cbn [length] in Hcs.
    destruct (IH next (<[(16 - S (length cs))%nat := r]> l)) as (rs & v & Eb & H2 & Hv & Hvd);
      [by rewrite length_insert|lia|done|done|].
    exists (r :: rs), v. split_and!; [|by constructor|done|done].
    rewrite bind_run, En, bind_run, Efr, bind_run, of_outcome_run.
    replace (16 - Z.of_nat (S (length cs))) with (Z.of_nat (16 - S (length cs))) by lia.
    rewrite rev_update by lia. rewrite Eb. do 3 f_equal. f_equal.
    change (r :: rs) with ([r] ++ rs). rewrite app_assoc. f_equal.
    replace (16 - length cs)%nat with (S (16 - S (length cs))) by lia.
    rewrite (take_S_r _ _ r) by (apply list_lookup_insert_eq; lia). by rewrite take_insert_ge by lia.
Qed.

(** What a node is read as. *)
Definition reads_as (t : trie) (n : TrieNode) : Prop :=
  match t, n with
  | Leaf path value, LeafNode p v => p = path_of path ∧ slice_in RInput v h ∧ slice_data RInput v h = value
  | Extension path child, ExtensionNode p r => p = path_of path ∧ refers r (node_bytes child)
  | Branch children value, BranchNode refs v =>
      (∃ rs, refs = rev rs ∧ Forall2 (λ r c, refers r (node_bytes c)) rs children) ∧
      slice_in RInput v h ∧ slice_data RInput v h = value
  | _, _ => False
  end.

Lemma single_ref_run s (list : bool) p :
  slice_in RInput s h → slice_data RInput s h = rlp_encode list p →
  ∃ f, rlp_single_ref s h = (Ok f, h) ∧ field_in RInput f h ∧ f.(is_list) = list ∧
    field_data RInput f h = rlp_encode list p ∧ field_content RInput f h = p.
Proof.
  intros Hs E. pose proof (slice_data_length _ _ _ Hs) as Hl. rewrite E in Hl.
  pose proof (rlp_encode_len_pos list p) as Hp. pose proof (rlp_encode_len_le list p) as Hle.
  pose proof (py_len_nonneg p). pose proof Hs as (H1 & H2 & H3 & H4).
  exists (mkRlpFieldRef s list (py_len p)). split; [|split; [split; [done|cbn; lia]|split_and!; [done..|]]].
  - unfold rlp_single_ref, single_ref. rewrite (proj2 (Z.eqb_neq _ _)) by lia.
    rewrite bind_run, (ref_hdr_run RInput h s list p []) by (done || by rewrite app_nil_r).
    rewrite (proj2 (Z.leb_le _ _)), (proj2 (Z.eqb_eq _ _)) by lia. cbn [andb].
    rewrite of_outcome_run. unfold rlp_field_ref, validated, rlp_field_ref_valid.
    by rewrite !(proj2 (Z.leb_le _ _)) by lia.
  - unfold field_content, field_data. cbn [source content_len]. rewrite E, <-Hl.
    destruct list; unfold rlp_encode, rlp_list in *; rewrite ?rlp_string_split, ?py_len_app in *;
      apply drop_app_length'; unfold py_len; lia.
Qed.

Lemma node_cursor_run s p :
  slice_in RInput s h → slice_data RInput s h = rlp_list p →
  ∃ c, rlp_node_cursor s h = (Ok c, h) ∧ slice_in RInput c h ∧ slice_data RInput c h = p.
Proof.
  intros Hs E. destruct (single_ref_run s true p Hs E) as (f & Ef & Hf & Hl & _ & Hc).
  destruct (item_content_ok _ _ _ Hf) as (c & Ec & Hcs & _ & Hcd).
  exists c. split; [|by rewrite Hcd]. unfold rlp_node_cursor.
  rewrite (data_empty RInput), E, bool_decide_false by (done || apply list_nonempty).
  rewrite bind_run, Ef, of_outcome_run. unfold rlp_decode_list, decode_list, item_content in *. by rewrite Hl, Ec.
Qed.

(** Two items and the cursor after them. *)
Lemma two_items_run kind cursor (l1 l2 : bool) p1 p2 rest :
  slice_in kind cursor h →
  slice_data kind cursor h = rlp_encode l1 p1 ++ rlp_encode l2 p2 ++ rest →
  ∃ f1 next f2 last, next_item kind cursor h = (Ok (f1, next), h) ∧ next_item kind next h = (Ok (f2, last), h) ∧
    (field_in kind f1 h ∧ f1.(is_list) = l1 ∧ field_data kind f1 h = rlp_encode l1 p1 ∧ field_content kind f1 h = p1) ∧
    (field_in kind f2 h ∧ f2.(is_list) = l2 ∧ field_data kind f2 h = rlp_encode l2 p2 ∧ field_content kind f2 h = p2) ∧
    slice_in kind last h ∧ slice_data kind last h = rest.
Proof.
  intros Hs E.
  destruct (next_item_run kind cursor l1 p1 _ Hs E) as (f1 & next & E1 & ? & ? & ? & ? & Hn & Hnd).
  destruct (next_item_run kind next l2 p2 _ Hn Hnd) as (f2 & last & E2 & ? & ? & ? & ? & ? & ?).
  by exists f1, next, f2, last.
Qed.

Lemma decode_fields_leaf c path value :
  path_wf path → slice_in RInput c h →
  slice_data RInput c h = rlp_string (hex_prefix true path) ++ rlp_string value →
  ∃ n, decode_fields RInput c h = (Ok n, h) ∧ reads_as (Leaf path value) n.
Proof.
  intros Hp Hs E. rewrite <-(app_nil_r (rlp_string value)) in E.
  destruct (two_items_run RInput c false false _ _ _ Hs E)
    as (f1 & next & f2 & last & E1 & E2 & (Hf1 & Hl1 & _ & Hc1) & (Hf2 & _ & _ & Hc2) & Hn & Hnd).
  destruct (item_content_ok _ _ _ Hf2) as (v & Ev & Hv & _ & Hvd).
  exists (LeafNode (path_of path) v). split; [|by rewrite <-Hc2].
  unfold decode_fields. rewrite bind_run, E1, bind_run, E2, (data_empty RInput), Hnd by done.
  rewrite bool_decide_true by done.
  by rewrite bind_run, (decode_hex_prefix_ok RInput h true path Hp f1), of_outcome_run, Ev.
Qed.

Lemma decode_fields_extension c path child :
  path_wf path → path ≠ [] → slice_in RInput c h →
  slice_data RInput c h = rlp_string (hex_prefix false path) ++ ref_bytes (node_bytes child) →
  ∃ n, decode_fields RInput c h = (Ok n, h) ∧ reads_as (Extension path child) n.
Proof.
  intros Hp Hne Hs E. destruct (field_ref_run child) as (list & p & Er & Hr).
  rewrite Er, <-(app_nil_r (rlp_encode list p)) in E.
  destruct (two_items_run RInput c false list _ _ _ Hs E)
    as (f1 & next & f2 & last & E1 & E2 & (Hf1 & Hl1 & _ & Hc1) & (Hf2 & Hl2 & Hd2 & Hc2) & Hn & Hnd).
  destruct (Hr f2 Hf2 Hl2 Hd2 Hc2) as (r & Efr & Hrc).
  exists (ExtensionNode (path_of path) r). split; [|done].
  unfold decode_fields. rewrite bind_run, E1, bind_run, E2, (data_empty RInput), Hnd by done.
  rewrite bool_decide_true by done.
  rewrite bind_run, (decode_hex_prefix_ok RInput h false path Hp f1) by done.
  rewrite bind_run, of_outcome_run, path_len_ok by done.
  rewrite (proj2 (Z.eqb_neq _ _)) by (destruct path; [done|cbn; lia]). by rewrite bind_run, Efr.
Qed.

Lemma decode_fields_branch c children value :
  length children = 16%nat → slice_in RInput c h →
  slice_data RInput c h = List.concat (map (λ c, ref_bytes (node_bytes c)) children) ++ rlp_string value →
  ∃ n, decode_fields RInput c h = (Ok n, h) ∧ reads_as (Branch children value) n.
Proof.
  destruct children as [|c1 [|c2 cs]]; try done. intros [= Hlen] Hs E. cbn [map List.concat] in E.
  rewrite <-!app_assoc in E.
  destruct (field_ref_run c1) as (l1 & p1 & Er1 & Hr1), (field_ref_run c2) as (l2 & p2 & Er2 & Hr2).
  rewrite Er1, Er2 in E.
  destruct (two_items_run RInput c l1 l2 _ _ _ Hs E)
    as (f1 & next & f2 & last & E1 & E2 & (Hf1 & Hl1 & Hd1 & Hc1) & (Hf2 & Hl2 & Hd2 & Hc2) & Hn & Hnd).
  destruct (Hr1 f1 Hf1 Hl1 Hd1 Hc1) as (r1 & Efr1 & Hrc1), (Hr2 f2 Hf2 Hl2 Hd2 Hc2) as (r2 & Efr2 & Hrc2).
  set (l := <[1%nat := r2]> (<[0%nat := r1]> (replicate 16 EmptyRef))).
  destruct (decode_branch_run cs value last l) as (rs & v & Eb & H2 & Hv & Hvd); [done|lia|done|done|].
  exists (BranchNode (rev (take (16 - length cs) l ++ rs)) v). split.
  - unfold decode_fields. rewrite bind_run, E1, bind_run, E2, (data_empty RInput), Hnd by done.
    rewrite bool_decide_false.
    2:{ intros [_ En]%app_nil. pose proof (rlp_encode_len_pos false value) as Hp. cbn in Hp.
        rewrite En in Hp. by apply Hp. }
    rewrite bind_run, Efr1, bind_run, Efr2, bind_run, of_outcome_run.
    change (sail_vector_init 16 EmptyRef) with (Ok (rev (replicate 16 EmptyRef))). rewrite bind_value.
    rewrite (rev_update _ 0) by (cbn; lia). rewrite bind_value, (rev_update _ 1) by (cbn; lia). fold l.
    rewrite <-Hlen in *. exact Eb.
  - split; [|done]. exists (r1 :: r2 :: rs). split; [|by repeat constructor].
    rewrite Hlen. done.
Qed.

Lemma decode_node_run t s :
  held t → t ≠ Null → slice_in RInput s h → slice_data RInput s h = node_bytes t →
  ∃ n, decode_input_trie_node s h = (Ok n, h) ∧ reads_as t n.
Proof.
  intros Ht Hne Hs E.
  assert (Hstep : ∀ p, node_bytes t = rlp_list p →
    (∀ c, slice_in RInput c h → slice_data RInput c h = p →
      ∃ n, decode_fields RInput c h = (Ok n, h) ∧ reads_as t n) →
    ∃ n, decode_input_trie_node s h = (Ok n, h) ∧ reads_as t n).
  { intros p Ep Hd. rewrite Ep in E. destruct (node_cursor_run s p Hs E) as (c & Ec & Hc & Hcd).
    destruct (Hd c Hc Hcd) as (n & En & Hn). exists n. split; [|done].
    unfold decode_input_trie_node. rewrite (data_empty RInput), E by done.
    rewrite bool_decide_false by apply list_nonempty. cbn [fatal_when].
    by rewrite bind_run, ret_run, bind_run, Ec. }
  destruct Ht; [done|..]; (eapply Hstep; [reflexivity|]); intros;
    eauto using decode_fields_leaf, decode_fields_extension, decode_fields_branch.
Qed.

(** ** The walk *)

(** The slice of nothing, and of a child. *)
Definition gives (m : M HostState Slice) (data : bytes) : Prop :=
  ∃ s, m h = (Ok s, h) ∧ slice_in RInput s h ∧ slice_data RInput s h = data.

Lemma gives_nothing : gives (mret EMPTY_STATELESS_INPUT_SLICE) [].
Proof.
  exists EMPTY_STATELESS_INPUT_SLICE. split; [done|].
  assert (Hs : slice_in RInput EMPTY_STATELESS_INPUT_SLICE h).
  { pose proof (py_len_nonneg (region_of RInput h)).
    unfold slice_in, EMPTY_STATELESS_INPUT_SLICE. cbn [sl_bytes sl_len]. lia. }
  split; [done|]. pose proof (slice_data_length _ _ _ Hs) as Hl.
  apply length_zero_iff_nil. unfold py_len in Hl. cbn in Hl. lia.
Qed.
Lemma gives_slice s : slice_in RInput s h → gives (mret s) (slice_data RInput s h).
Proof. by exists s. Qed.
Lemma gives_then {A} (m : M HostState A) a (f : A → M HostState Slice) data :
  m h = (Ok a, h) → gives (f a) data → gives (m ≫= f) data.
Proof. intros E (s & Es & Hs). exists s. by rewrite bind_run, E. Qed.

Lemma lookup_run node s :
  h.(codes).(node_db) !! _keccak node = Some s → node_db_lookup (digest_of node) h = (Ok s, h).
Proof.
  intros E. unfold node_db_lookup. rewrite zoom_run. unfold nodedb_lookup, digest_of.
  rewrite gets_run. cbn [fst snd]. rewrite hash_key_wire. change (view h) with h.(codes).
  rewrite E. cbn [default]. by destruct h.
Qed.

Lemma stored_gives node : stored node → gives (node_db_lookup (digest_of node)) node.
Proof. intros (s & E & Hs & Hd). exists s. split; [by apply lookup_run|done]. Qed.

Lemma resolve_gives r t :
  refers r (node_bytes t) → provided t → gives (resolve_witness_ref r) (node_bytes t).
Proof.
  unfold refers. intros Hr Hp.
  assert (Hst : 32 <= py_len (node_bytes t) → stored (node_bytes t)) by (by destruct Hp).
  case_bool_decide as Hne; [|destruct (Z.ltb_spec (py_len (node_bytes t)) 32)].
  - rewrite Hne, Hr. apply gives_nothing.
  - destruct Hr as (s & -> & Hs & <-). by apply gives_slice.
  - subst r. destruct (Hst ltac:(lia)) as (s & E & Hs & Hd). exists s. split; [|done].
    cbn [resolve_witness_ref]. rewrite bind_run, (lookup_run _ _ E), (data_empty RInput), Hd by done.
    by rewrite bool_decide_false.
Qed.

Definition children_of (t : trie) : list trie :=
  match t with Extension _ c => [c] | Branch cs _ => cs | _ => [] end.

Section walk.
Context (key : list Z) (Hkey : path_wf key).

(** The walk from a node of a trie at a position of the key reads what is
    under the rest of the key. *)
Definition walks (depth : nat) (t : trie) (s : Slice) (pos : nat) : Prop :=
  held t → slice_in RInput s h → slice_data RInput s h = node_bytes t →
  (pos <= length key)%nat → (length key - pos < depth)%nat →
  gives (trie_walk depth s (path_of key) (Z.of_nat pos)) (trie_get t (drop pos key)).

(** A node that is read at a position of the key. *)
Definition at_node (s : Slice) (n : TrieNode) (pos : nat) : Prop :=
  (s.(sl_len) =? 0) = false ∧ decode_input_trie_node s h = (Ok n, h) ∧ (pos <= length key)%nat.

Ltac enter H := destruct H as (Hz & En & Hpos); cbn [trie_walk]; rewrite Hz;
  eapply gives_then; [exact En|]; cbv beta iota.
Ltac next := eapply gives_then; [by rewrite of_outcome_run|]; cbv beta.

Lemma walk_leaf depth path v s pos :
  path_wf path → slice_in RInput v h → at_node s (LeafNode (path_of path) v) pos →
  gives (trie_walk (S depth) s (path_of key) (Z.of_nat pos))
    (trie_get (Leaf path (slice_data RInput v h)) (drop pos key)).
Proof using Hkey.
  intros Hp Hv Hn. enter Hn. rewrite path_matches_ok by (done || lia). rewrite Nat2Z.id, !path_len_ok by done.
  next. cbn [trie_get]. destruct (decide (path `prefix_of` drop pos key)) as [Hpre|Hpre].
  - rewrite bool_decide_true by (split; [lia|done]). cbn [negb]. next. next.
    pose proof (prefix_length _ _ Hpre) as Hl. rewrite length_drop in Hl.
    destruct (Z.eqb_spec (Z.of_nat pos + Z.of_nat (length path)) (Z.of_nat (length key))).
    + rewrite bool_decide_true; [by apply gives_slice|]. symmetry. apply prefix_length_eq; [done|].
      rewrite length_drop. lia.
    + rewrite bool_decide_false; [apply gives_nothing|]. intros Ek%(f_equal length).
      rewrite length_drop in Ek. lia.
  - rewrite bool_decide_false by naive_solver. cbn [negb].
    rewrite bool_decide_false; [apply gives_nothing|]. intros Ek. by rewrite Ek in Hpre.
Qed.

Lemma walk_extension depth path child r s pos :
  path_wf path → path ≠ [] → provided child → refers r (node_bytes child) →
  at_node s (ExtensionNode (path_of path) r) pos → (length key - pos < S depth)%nat →
  (∀ t s pos, walks depth t s pos) →
  gives (trie_walk (S depth) s (path_of key) (Z.of_nat pos)) (trie_get (Extension path child) (drop pos key)).
Proof using Hkey.
  intros Hp Hne Hc Hr Hn Hd IH. enter Hn. pose proof (proj2 Hkey).
  assert (0 < length path)%nat by (destruct path; [done|cbn; lia]).
  rewrite path_len_ok by done. next. rewrite (proj2 (Z.eqb_neq _ _)) by lia.
  rewrite path_matches_ok by (done || lia). rewrite Nat2Z.id. next. cbn [trie_get].
  destruct (decide (path `prefix_of` drop pos key)) as [Hpre|Hpre].
  - rewrite !bool_decide_true by (done || (split; [lia|done])). cbn [negb].
    pose proof (prefix_length _ _ Hpre) as Hl. rewrite length_drop in Hl.
    rewrite (proj2 (Z.leb_le _ _)) by lia.
    destruct (resolve_gives r child Hr Hc) as (s' & Es & Hs & Hd'). eapply gives_then; [exact Es|].
    rewrite drop_drop, <-Nat2Z.inj_add. apply IH; [by destruct Hc|done|done|lia|lia].
  - rewrite !bool_decide_false by naive_solver. apply gives_nothing.
Qed.

Lemma walk_branch depth rs children v s pos :
  length children = 16%nat → Forall provided children →
  Forall2 (λ r c, refers r (node_bytes c)) rs children → slice_in RInput v h →
  at_node s (BranchNode (rev rs) v) pos → (length key - pos < S depth)%nat →
  (∀ t s pos, walks depth t s pos) →
  gives (trie_walk (S depth) s (path_of key) (Z.of_nat pos))
    (trie_get (Branch children (slice_data RInput v h)) (drop pos key)).
Proof using Hkey.
  intros Hch Hall H2 Hv Hn Hd IH. enter Hn. pose proof (proj2 Hkey).
  rewrite path_len_ok by done. next. cbn [trie_get].
  destruct (Z.eqb_spec (Z.of_nat pos) (Z.of_nat (length key))).
  { rewrite drop_ge by lia. by apply gives_slice. }
  rewrite (proj2 (Z.ltb_lt _ _)) by lia. rewrite path_nibble_ok by (done || lia). rewrite Nat2Z.id.
  rewrite (drop_nib key pos) by lia. next.
  assert (Hnib : is_nibble (nib key pos)) by (apply nib_range, Hkey). unfold is_nibble in Hnib.
  destruct (lookup_lt_is_Some_2 children (Z.to_nat (nib key pos))) as [c Hc]; [lia|].
  destruct (Forall2_lookup_r _ _ _ _ _ H2 Hc) as (r & Hrs & Hr).
  pose proof (rev_access _ _ _ Hrs) as Er. rewrite Z2Nat.id in Er by lia.
  unfold branch_refs_get. rewrite Er. next.
  pose proof (proj1 (Forall_lookup _ _) Hall _ _ Hc) as Hpc.
  destruct (resolve_gives r c Hr Hpc) as (s' & Es & Hs & Hd'). eapply gives_then; [exact Es|].
  rewrite (nth_lookup_Some _ _ _ (trie_get c (drop (S pos) key))) by
    (change (map ?f children) with (f <$> children); by rewrite list_lookup_fmap, Hc).
  replace (Z.of_nat pos + 1) with (Z.of_nat (S pos)) by lia. apply IH; [by destruct Hpc|done|done|lia|lia].
Qed.

Lemma walk_gives depth : ∀ t s pos, walks depth t s pos.
Proof using Hkey.
  induction depth as [|depth IH]; intros t s pos Ht Hs E Hpos Hd; [lia|].
  destruct (decide (node_bytes t = [])) as [En|Hne].
  { assert (t = Null) as -> by (destruct t; [done|by apply list_nonempty in En..]).
    cbn [trie_walk]. rewrite (data_empty RInput), E, bool_decide_true by done. apply gives_nothing. }
  assert (Htn : t ≠ Null) by (by intros ->).
  destruct (decode_node_run t s Ht Htn Hs E) as (n & En & Hn).
  assert (Hat : at_node s n pos).
  { split_and!; [|done|done]. by rewrite (data_empty RInput), E, bool_decide_false. }
  destruct Ht as [|path value Hp|path child Hp Hpne Hc|children value Hch Hall]; [done|..];
    destruct n as [q v|q r|refs v]; try done.
  - destruct Hn as (-> & Hv & <-). by apply walk_leaf.
  - destruct Hn as [-> Hr]. by eapply walk_extension.
  - destruct Hn as ((rs & -> & H2) & Hv & <-). by eapply walk_branch.
Qed.
End walk.

(** The node database is a witness of the trie. *)
Record witness_of (t : trie) : Prop := {
  wt_held : held t;
  wt_root : t ≠ Null → stored (node_bytes t) ∧ root_of t ≠ EMPTY_TRIE_ROOT;
}.

Lemma lookup_gives t key :
  witness_of t → path_wf key → gives (trie_lookup (root_of t) (path_of key)) (trie_get t key).
Proof.
  intros [Ht Hroot] Hkey. unfold trie_lookup. destruct (decide (node_bytes t = [])) as [En|Hne].
  { assert (t = Null) as -> by (destruct t; [done|by apply list_nonempty in En..]).
    rewrite bool_decide_true by done. apply gives_nothing. }
  assert (Htn : t ≠ Null) by (by intros ->). destruct (Hroot Htn) as [Hst Hre].
  rewrite bool_decide_false by done. assert (root_of t = digest_of (node_bytes t)) as -> by by destruct t.
  destruct (stored_gives _ Hst) as (s & Es & Hs & Hd). eapply gives_then; [exact Es|].
  rewrite (data_empty RInput), Hd, bool_decide_false by done.
  pose proof (proj2 Hkey). apply (walk_gives key Hkey 66 t s 0); [done..|lia|lia].
Qed.

(** C10: the lookup of a trie refines the abstract one. When the node database
    holds the nodes of a trie, of which the inner ones of less than 32 bytes
    stand in their parents, and the root is not the digest of the empty trie,
    looking up a path of up to 64 nibbles from the root returns, within the
    fuel of the walk and without a change of the state, a slice of the input
    with the bytes the trie has under the path, empty when it has none. *)
Theorem trie_lookup_refines (t : trie) (key : list Z) :
  witness_of t → path_wf key →
  ∃ s, trie_lookup (root_of t) (path_of key) h = (Ok s, h) ∧ slice_in RInput s h ∧
    slice_data RInput s h = trie_get t key ∧ s.(sl_len) = py_len (trie_get t key).
Proof.
  intros Ht Hkey. destruct (lookup_gives t key Ht Hkey) as (s & Es & Hs & Hd).
  exists s. split_and!; [done..|]. by rewrite <-Hd, (slice_data_length RInput).
Qed.
End witness.
End keccak.

(** ** A witness of three nodes *)

Module SmallTrie.
#[local] Existing Instance toy_Keccak.

Definition leaf : trie := Leaf [3] (replicate 40 Byte.x07).
Definition branch : trie := Branch (<[2%nat := leaf]> (<[5%nat := Leaf [1] [Byte.x09]]> (replicate 16 Null))) [].
Definition top : trie := Extension [1] branch.

(** The nodes one after another in the input. *)
Fixpoint place (off : Z) (nodes : list bytes) : gmap bytes Slice :=
  match nodes with
  | [] => ∅
  | n :: nodes => <[_keccak n := mkSlice off (py_len n)]> (place (off + py_len n) nodes)
  end.
Definition host_with (nodes : list bytes) : HostState :=
  put (set_node_db (place 0 nodes) (codes initial_state))
    (put (set_stateless_input_bytes (List.concat nodes) (regions initial_state)) initial_state).
Definition state : HostState := host_with (node_bytes <$> [top; branch; leaf]).

Lemma stored_node h n s :
  (codes h).(node_db) !! _keccak n = Some s → slice_in RInput s h → slice_data RInput s h = n → stored h n.
Proof. intros E Hs Hd. exact (ex_intro _ s (conj E (conj Hs Hd))). Qed.
Ltac store := eapply stored_node; [vm_compute; reflexivity|vm_compute; intuition congruence|vm_compute; reflexivity].

Lemma small t : held state t → py_len (node_bytes t) <? 32 = true → provided state t.
Proof. intros Ht Hl%Z.ltb_lt. constructor; [done|lia]. Qed.
Lemma path_wf_single n : is_nibble n → path_wf [n].
Proof. intros Hn. split; [by apply Forall_singleton|cbn; lia]. Qed.

Lemma leaf_provided : provided state leaf.
Proof. constructor; [constructor; by apply path_wf_single|intros _; store]. Qed.
Lemma branch_provided : provided state branch.
Proof.
  constructor; [|intros _; store]. constructor; [done|].
  apply Forall_insert; [|apply leaf_provided]. apply Forall_insert.
  - apply Forall_replicate, small; [constructor|done].
  - apply small; [constructor; by apply path_wf_single|by vm_compute].
Qed.
Lemma top_witness : witness_of state top.
Proof.
  constructor; [constructor; [by apply path_wf_single|done|apply branch_provided]|].
  intros _. split; [store|]. intros Hr. by vm_compute in Hr.
Qed.
End SmallTrie.

Lemma trie_lookup_refines_witness :
  ∃ s, trie_lookup (@root_of toy_Keccak SmallTrie.top) (path_of [1; 2; 3]) SmallTrie.state = (Ok s, SmallTrie.state) ∧
    slice_in RInput s SmallTrie.state ∧ slice_data RInput s SmallTrie.state = replicate 40 Byte.x07 ∧
    s.(sl_len) = 40.
Proof.
  refine (@trie_lookup_refines toy_Keccak SmallTrie.state SmallTrie.top [1; 2; 3] SmallTrie.top_witness _).
  split; [repeat constructor; done|cbn; lia].
Defined.
