(* ===== verification/StateRootTheorems.v ===== *)
(** * StateRootTheorems: the leaves of the state trie and its lookups

    The reference encodings of an account and of a storage value, the encoders
    that write exactly them, and the lookups of [lib/state_trie.py]: over a
    witness of an abstract trie they return the account or the value whose
    encoding the trie has under the hashed key, and the ones of nothing where
    it has none. They leave the state as it is, which is what the kernel and
    the interpreter ask of a state trie. *)

From Stdlib Require Import ZArith Lia Strings.Byte.
From stdpp Require Import base tactics option list gmap.
From S2P Require Import Prelude PyBytes SailRuntime HostTypes Words WordTheorems WordBits ChainConfig Regions RegionAccess Gas RegionFacts Crypto Storage Accounts CodeDb OperandStack Environment Scratch Rlp RlpTheorems RlpEncoders Kernel TxCodec Stable Ledger TriePath TriePathTheorems TrieCodec TrieUpdates StateRoot TrieLookup.
Local Open Scope Z_scope.

(** ** The reference encodings *)

Definition account_fields (i : AccountInfo) : bytes :=
  rlp_string (minimal_be i.(nonce)) ++ rlp_string (minimal_be i.(balance)) ++
  rlp_string (rev i.(storage_root)) ++ rlp_string (rev i.(code_hash)).
Definition account_bytes (i : AccountInfo) : bytes := rlp_list (account_fields i).
Definition storage_bytes (v : Z) : bytes := rlp_string (minimal_be v).

Record info_wf (i : AccountInfo) : Prop := {
  iw_nonce : 0 <= i.(nonce) < 2 ^ 64;
  iw_balance : is_word i.(balance);
  iw_root : py_len i.(storage_root) = 32;
  iw_code : py_len i.(code_hash) = 32;
}.

(** ** Encoding *)

Lemma hash_string_len h : py_len h = 32 → py_len (rlp_string (rev h)) = 33.
Proof.
  intros Hh. assert (py_len (rev h) = 32) as Hr by (unfold py_len in *; by rewrite length_rev).
  rewrite short_string_len; lia.
Qed.

Lemma nonce_word i : info_wf i → is_word i.(nonce).
Proof.
  intros [Hn _ _ _]. assert (2 ^ 64 < 2 ^ 256) by (apply Z.pow_lt_mono_r; lia).
  unfold is_word, WORD_MODULUS. lia.
Qed.

Lemma account_fields_len i :
  info_wf i →
  py_len (account_fields i) =
    py_len (rlp_string (minimal_be i.(nonce))) + py_len (rlp_string (minimal_be i.(balance))) + 33 + 33 ∧
  0 <= py_len (account_fields i) <= 132.
Proof.
  intros Hi. pose proof Hi as [_ Hb Hr Hc]. unfold account_fields.
  rewrite !py_len_app, (hash_string_len _ Hr), (hash_string_len _ Hc).
  pose proof (minimal_string_len _ (nonce_word _ Hi)). pose proof (minimal_string_len _ Hb).
  pose proof (py_len_nonneg (rlp_string (minimal_be i.(nonce)))).
  pose proof (py_len_nonneg (rlp_string (minimal_be i.(balance)))). lia.
Qed.

Lemma write_hash_ok st h :
  py_len h = 32 → arena_wf st → room st (py_len (rlp_string (rev h))) →
  writes (rlp_write_word (from_be (rev h))) st (rlp_string (rev h)) tt.
Proof.
  intros Hh Hw Hr. assert (Hl : length (rev h) = 32%nat) by (rewrite length_rev; unfold py_len in Hh; lia).
  rewrite (hash_string_len _ Hh) in Hr.
  pose proof (write_word_ok st (from_be (rev h)) Hw) as W. rewrite <-Hl, be_bytes_from_be in W.
  apply W; [|done]. apply (from_be_word 32); [lia|done].
Qed.

Lemma encode_account_ok st i :
  arena_wf st → info_wf i → room st (py_len (account_bytes i)) →
  encodes (encode_state_account i i.(storage_root)) st (account_bytes i).
Proof.
  intros Hw Hi Hr. pose proof (account_fields_len i Hi) as [Hlen Hb]. pose proof Hi as [_ Hbal Hroot Hcode].
  pose proof (nonce_word i Hi) as Hn.
  assert (Hsize : rlp_list_size (py_len (account_fields i)) = Ok (py_len (account_bytes i))).
  { unfold rlp_list_size, account_bytes, rlp_list. rewrite (length_prefix_ok 0xc0 0xf7) by lia. cbn [mbind outcome_bind].
    rewrite py_len_app. apply Uint_ok. pose proof (py_len_nonneg (rlp_prefix 192 247 (py_len (account_fields i)))). lia. }
  apply (encodes_value _ _ _ _ _ (uint_word_size_ok _ Hn)), (encodes_value _ _ _ _ _ (uint_word_size_ok _ Hbal)).
  cbv zeta. change rlp_word_size with 33. rewrite <-Hlen. apply (encodes_value _ _ _ _ _ Hsize).
  apply encoder_ok; [done..|].
  unfold account_bytes, rlp_list. apply completes_write with tt.
  { intros st1 Hw1 Hr1. apply write_prefix_ok; [done|lia..|done]. }
  unfold account_fields. apply completes_write with tt; [intros; by apply write_uint_word_ok|].
  apply completes_write with tt; [intros; by apply write_uint_word_ok|].
  apply (completes_value _ _ _ _ _ _ (hash_to_word_ok _ Hroot)).
  apply completes_write with tt; [intros; by apply write_hash_ok|].
  apply (completes_value _ _ _ _ _ _ (hash_to_word_ok _ Hcode)). rewrite <-(app_nil_r (rlp_string (rev (code_hash i)))).
  apply completes_write with tt; [intros; by apply write_hash_ok|].
  apply completes_finish; [done..|]. cbn [expected_len app]. f_equal. unfold account_bytes, rlp_list, account_fields.
  by rewrite !app_nil_r, <-!app_assoc.
Qed.

Lemma encode_storage_ok st v :
  arena_wf st → is_word v → room st (py_len (storage_bytes v)) →
  encodes (encode_storage_value v) st (storage_bytes v).
Proof.
  intros Hw Hv Hr. apply (encodes_value _ _ _ _ _ (uint_word_size_ok _ Hv)).
  apply encoder_ok; [done..|]. rewrite <-(app_nil_r (storage_bytes v)).
  apply completes_write with tt; [intros; by apply write_uint_word_ok|].
  by apply completes_finish.
Qed.

(** ** Decoding *)

Section lookups.
Context `{Keccak}.

Section reading.
Context (h : HostState).

(** A decoded number. *)
Lemma number_field_run f n :
  field_in RInput f h → f.(is_list) = false → 0 <= n →
  field_data RInput f h = rlp_string (minimal_be n) → field_content RInput f h = minimal_be n →
  (n < 2 ^ 64 → rlp_decode_uint64 f h = (Ok n, h)) ∧ (is_word n → rlp_decode_u256 f h = (Ok n, h)).
Proof.
  intros Hf Hl Hn Hd Hc. pose proof (field_content_len _ _ _ Hf) as Hcl. rewrite Hc, minimal_be_len in Hcl.
  assert (canonical_number f h = true) as Hcan.
  { unfold canonical_number. rewrite Hl, Hc, Hd, from_be_minimal by done. cbn [negb andb].
    by apply bool_decide_true. }
  split; intros Hb.
  - rewrite decode_uint64_run, Hcan, Hc, from_be_minimal by done. cbn [andb].
    rewrite (proj2 (Z.leb_le _ _)); [done|]. rewrite <-Hcl. apply byte_len_le; [lia..|].
    by change (256 ^ 8) with (2 ^ 64).
  - rewrite decode_u256_run, Hcan, Hc, from_be_minimal by done. cbn [andb].
    rewrite (proj2 (Z.leb_le _ _)); [done|]. rewrite <-Hcl. by apply minimal_len_ok.
Qed.

(** A decoded hash. *)
Lemma hash_field_run default f x :
  field_in RInput f h → f.(is_list) = false → py_len x = 32 → field_content RInput f h = rev x →
  decode_hash_field default f h = (Ok x, h).
Proof.
  intros Hf Hl Hx Hc. pose proof (field_content_len _ _ _ Hf) as Hcl.
  assert (Hr : length (rev x) = 32%nat) by (rewrite length_rev; unfold py_len in Hx; lia).
  rewrite Hc in Hcl. unfold py_len in Hcl. rewrite Hr in Hcl.
  unfold decode_hash_field. rewrite <-Hcl. change (Z.of_nat 32 =? 0) with false. cbn match.
  unfold rlp_decode_word. rewrite bind_run, (decode_word_run RInput) by (done || lia).
  rewrite Hc, of_outcome_run, word_to_hash_ok, <-Hr, be_bytes_from_be. by rewrite rev_involutive.
Qed.

Lemma decode_account_run s i :
  info_wf i → slice_in RInput s h → slice_data RInput s h = account_bytes i →
  decode_state_account s h = (Ok i, h).
Proof.
  intros [Hn Hb Hr Hc] Hs E. destruct (node_cursor_run h s _ Hs E) as (c & Ec & Hcs & Hcd).
  unfold account_fields in Hcd. rewrite <-(app_nil_r (rlp_string (rev (code_hash i)))) in Hcd.
  rewrite app_assoc in Hcd. set (tail := rlp_string (rev (storage_root i)) ++ _) in Hcd.
  rewrite <-app_assoc in Hcd.
  destruct (two_items_run h RInput c false false _ _ _ Hcs Hcd)
    as (f1 & c1 & f2 & c2 & E1 & E2 & (Hf1 & Hl1 & Hd1 & Hc1) & (Hf2 & Hl2 & Hd2 & Hc2) & Hs2 & Hsd2).
  destruct (two_items_run h RInput c2 false false _ _ _ Hs2 Hsd2)
    as (f3 & c3 & f4 & c4 & E3 & E4 & (Hf3 & Hl3 & _ & Hc3) & (Hf4 & Hl4 & _ & Hc4) & Hs4 & Hsd4).
  unfold decode_state_account. rewrite bind_run, Ec, bind_run, E1, bind_run, E2, bind_run, E3, bind_run, E4.
  unfold rlp_cursor_expect_end, cursor_expect_end. rewrite (data_empty h RInput), Hsd4, bool_decide_true by done.
  rewrite bind_run, of_outcome_run, bind_run, (hash_field_run _ f3 (storage_root i)) by done.
  rewrite bind_run, (hash_field_run _ f4 (code_hash i)) by done.
  rewrite bind_run, (proj1 (number_field_run f1 _ Hf1 Hl1 (proj1 Hn) Hd1 Hc1)) by lia.
  rewrite bind_run, of_outcome_run, Uint_ok by lia.
  rewrite bind_run, (proj2 (number_field_run f2 _ Hf2 Hl2 (proj1 Hb) Hd2 Hc2)) by done.
  rewrite of_outcome_run, word_ok by done. cbn [mbind outcome_bind].
  unfold Bytes32. rewrite !fixed_bytes_ok by done. cbn [mbind outcome_bind]. by destruct i.
Qed.

Lemma decode_storage_run s v :
  is_word v → slice_in RInput s h → slice_data RInput s h = storage_bytes v →
  (f ← rlp_single_ref s; rlp_decode_u256 f) h = (Ok v, h).
Proof.
  intros Hv Hs E. destruct (single_ref_run h s false _ Hs E) as (f & Ef & Hf & Hl & Hd & Hc).
  rewrite bind_run, Ef. by apply number_field_run; [..|apply Hv| | |].
Qed.
End reading.

(** ** Lookups *)

(** What an abstract trie has under a hashed key. *)
Definition account_at (t : trie) (key : hash) (x : Account) : Prop :=
  (trie_get t (hash_nibbles key) = [] ∧ x = EMPTY_ACCOUNT) ∨
  ∃ i, info_wf i ∧ trie_get t (hash_nibbles key) = account_bytes i ∧ x = account_from_info i.
Definition value_at (t : trie) (key : hash) (v : Z) : Prop :=
  (trie_get t (hash_nibbles key) = [] ∧ v = 0) ∨
  (is_word v ∧ trie_get t (hash_nibbles key) = storage_bytes v).

Lemma host_read {A} (m : M HostState A) s x :
  m s.(sp_host) = (Ok x, s.(sp_host)) → zoom m s = (Ok x, s).
Proof. intros E. rewrite zoom_run. change (view s) with s.(sp_host). rewrite E. by destruct s. Qed.

Lemma lookup_slice t key s :
  witness_of s.(sp_host) t → py_len key = 32 →
  ∃ v, trie_lookup (root_of t) (path_of (hash_nibbles key)) s.(sp_host) = (Ok v, s.(sp_host)) ∧
    slice_in RInput v s.(sp_host) ∧ slice_data RInput v s.(sp_host) = trie_get t (hash_nibbles key).
Proof. intros Ht Hk. apply lookup_gives; [done|by apply hash_nibbles_wf]. Qed.

(** C9: the lookups of the state trie refine the abstract trie. Over a witness
    of a trie, the account under a hashed address is the one whose encoding
    the trie has there, or the empty account; the storage value under a hashed
    slot is the one encoded there, or zero. The state is left as it is. *)
Theorem state_lookups_refine (t : trie) (key : hash) (x : Account) (v : Z) (s : SpecState) :
  witness_of s.(sp_host) t → py_len key = 32 →
  (account_at t key x → stateless_account_by_key (root_of t) key s = (Ok x, s)) ∧
  (value_at t key v → stateless_storage_by_key (root_of t) key s = (Ok v, s)).
Proof.
  intros Ht Hk. destruct (lookup_slice t key s Ht Hk) as (b & Eb & Hb & Hd).
  split; intros Hat; unfold stateless_account_by_key, stateless_storage_by_key;
    rewrite bind_run, of_outcome_run, hash_path by done; apply host_read; rewrite bind_run, Eb,
      (data_empty _ RInput), Hd by done.
  - destruct Hat as [[-> ->]|(i & Hi & E & ->)]; [done|]. rewrite E in *.
    rewrite bool_decide_false by apply list_nonempty.
    by rewrite bind_run, (decode_account_run _ b i Hi Hb Hd).
  - destruct Hat as [[-> ->]|(Hv & E)]; [done|]. rewrite E in *.
    rewrite bool_decide_false.
    + pose proof (decode_storage_run _ b v Hv Hb Hd) as Ed. rewrite bind_run in Ed. rewrite bind_run.
      destruct (rlp_single_ref b (sp_host s)) as [[f|e] h']; [|done].
      by rewrite bind_run, Ed, of_outcome_run, word_ok.
    + intros En. pose proof (rlp_encode_len_pos false (minimal_be v)) as Hp. cbn in Hp.
      unfold storage_bytes in En. rewrite En in Hp. by apply Hp.
Qed.
End lookups.

(** C19: the leaves of the state trie round trip. Encoding an account with its
    storage root appends exactly the reference encoding to the arena and
    returns its slice; reading such bytes anywhere in the input gives the
    account back. The same holds of the encoding of a storage value. *)
Theorem state_leaf_roundtrip (st : SpecState) (i : AccountInfo) (v : Z) :
  arena_wf st → info_wf i → is_word v → room st (py_len (account_bytes i)) →
  room st (py_len (storage_bytes v)) →
  encodes (encode_state_account i i.(storage_root)) st (account_bytes i) ∧
  encodes (encode_storage_value v) st (storage_bytes v) ∧
  ∀ h s, slice_in RInput s h →
    (slice_data RInput s h = account_bytes i → decode_state_account s h = (Ok i, h)) ∧
    (slice_data RInput s h = storage_bytes v → (f ← rlp_single_ref s; rlp_decode_u256 f) h = (Ok v, h)).
Proof.
  intros Hw Hi Hv Hr Hr'. split_and!; [by apply encode_account_ok|by apply encode_storage_ok|].
  intros h s Hs. split; [by apply decode_account_run|by apply decode_storage_run].
Qed.

(** ** Reads leave everything alone *)

(** An operation that leaves the whole state as it is, when it returns. *)
Definition unchanged {S A} (m : M S A) : Prop := stable (λ s, s) m.

Lemma unchanged_stable {S A O} (obs : S → O) (m : M S A) : unchanged m → stable obs m.
Proof. intros Hm s a s' E. by rewrite (Hm s a s' E). Qed.
Lemma unchanged_zoom {S C A} `{Component S C} (m : M C A) : unchanged m → unchanged (zoom m : M S A).
Proof. apply stable_zoom. intros c s ->. apply put_view. Qed.

(** The rules of [stable] with the identity as the observation. *)
Ltac unchanged_step :=
  match goal with
  | |- unchanged _ => unfold unchanged
  | |- stable (λ s, s) (zoom _) => apply unchanged_zoom
  | |- _ => stable_step
  end.
Ltac unchanged := repeat first [solve [auto with stable] | unchanged_step].

Lemma uint64_width_unchanged kind s w : stable (λ h, h) (uint64_width kind s w).
Proof. induction w as [|w IH]; cbn; unchanged. Qed.
#[export] Hint Resolve uint64_width_unchanged : stable.
Lemma decode_branch_unchanged kind n : ∀ cursor children,
  stable (λ h, h) (decode_branch_node kind n cursor children).
Proof. induction n as [|n IH]; intros; cbn [decode_branch_node]; unchanged. Qed.
#[export] Hint Resolve decode_branch_unchanged : stable.
Lemma trie_walk_unchanged depth : ∀ node key pos, stable (λ h, h) (trie_walk depth node key pos).
Proof. induction depth as [|depth IH]; intros; cbn [trie_walk]; unchanged. Qed.
#[export] Hint Resolve trie_walk_unchanged : stable.

Lemma account_lookup_unchanged root key : unchanged (stateless_account_by_key root key).
Proof. unchanged. Qed.
Lemma storage_lookup_unchanged root key : unchanged (stateless_storage_by_key root key).
Proof. unchanged. Qed.

(** What the kernel, the interpreter and the transaction ask of a state trie. *)
Lemma state_trie_laws root key :
  stable spec_frames (@Kernel.stateless_account_by_key state_trie root key) ∧
  stable spec_frames (@Kernel.stateless_storage_by_key state_trie root key) ∧
  stable spec_view (@Kernel.stateless_account_by_key state_trie root key) ∧
  stable spec_view (@Kernel.stateless_storage_by_key state_trie root key).
Proof.
  split_and!; apply unchanged_stable;
    (apply account_lookup_unchanged || apply storage_lookup_unchanged).
Qed.

(** ** A trie with one account *)

Module OneAccount.
#[local] Existing Instance toy_Keccak.
Definition sample_info : AccountInfo := mkAccountInfo 7 (10 ^ 18) KECCAK_EMPTY EMPTY_TRIE_ROOT.
Definition account_trie : trie := Leaf (hash_nibbles ZERO_HASH) (account_bytes sample_info).
Definition state : SpecState :=
  mkSpec (SmallTrie.host_with [node_bytes account_trie]) initial_environment EMPTY_SCRATCH_SLICE.

Lemma info_ok : info_wf sample_info.
Proof. by split; [| |vm_compute|vm_compute]. Qed.
Lemma trie_ok : witness_of state.(sp_host) account_trie.
Proof.
  constructor; [constructor; by apply hash_nibbles_wf|]. intros _. split; [SmallTrie.store|].
  intros Hr. by vm_compute in Hr.
Qed.
End OneAccount.

Lemma state_lookups_refine_witness :
  stateless_account_by_key (@root_of toy_Keccak OneAccount.account_trie) ZERO_HASH OneAccount.state =
  (Ok (account_from_info OneAccount.sample_info), OneAccount.state).
Proof.
  apply (@state_lookups_refine toy_Keccak OneAccount.account_trie ZERO_HASH
    (account_from_info OneAccount.sample_info) 0 OneAccount.state OneAccount.trie_ok eq_refl).
  right. exists OneAccount.sample_info. split_and!; [apply OneAccount.info_ok|by vm_compute|done].
Defined.

Lemma state_leaf_roundtrip_witness :
  encodes (encode_storage_value 300) initial_spec [Byte.x82; Byte.x01; Byte.x2c].
Proof.
  apply (state_leaf_roundtrip initial_spec OneAccount.sample_info 300); [by vm_compute|apply OneAccount.info_ok|..].
  all: by vm_compute.
Defined.
