(* ===== verification/JumpTheorems.v ===== *)
(** * JumpTheorems: jumps stay on instruction boundaries

    The positions of a code where an instruction starts are those reached from
    its first byte by the length of each instruction. The code analysis marks
    exactly the ones that hold a JUMPDEST, fetching moves from one to the
    next, and no instruction moves the program counter anywhere else. *)

From Stdlib Require Import ZArith Lia Strings.Byte.
From stdpp Require Import base tactics option list gmap.
From S2P Require Import Prelude PyBytes HostTypes SailRuntime Words WordTheorems ChainConfig Regions RegionFacts RegionAccess Gas GasSchedule Crypto Accounts CodeDb Accelerators AccelTheorems OperandStack Environment Scratch Kernel Machine Instructions Execute Precompiles Interpreter StackMachine Stable.
Local Open Scope Z_scope.

(** ** The boundaries of a code *)

(** How far the instruction at a position goes. *)
Definition step_at (fork : Z) (data : bytes) (p : Z) : Z :=
  code_step fork (byte_or_zero data p) (byte_or_zero data (p + 1)).

Inductive reaches (fork : Z) (data : bytes) (p : Z) : Z → Prop :=
| reaches_here : reaches fork data p p
| reaches_next q : p < py_len data → reaches fork data (p + step_at fork data p) q →
    reaches fork data p q.

Definition boundary (fork : Z) (data : bytes) : Z → Prop := reaches fork data 0.
(** The valid jump destinations. *)
Definition destination_from (fork : Z) (data : bytes) (p d : Z) : Prop :=
  reaches fork data p d ∧ d < py_len data ∧ byte_or_zero data d = 0x5b.
Definition jump_destination (fork : Z) (data : bytes) : Z → Prop := destination_from fork data 0.

Lemma code_step_pos fork opcode immediate : 1 <= code_step fork opcode immediate.
Proof.
  unfold code_step. destruct (Z.leb_spec 96 opcode); cbn [andb].
  - destruct (opcode <=? 127); [lia|]. by repeat case_match.
  - by repeat case_match.
Qed.

Lemma reaches_le fork data p q : reaches fork data p q → p <= q.
Proof.
  induction 1 as [p|p q _ _ IH]; [lia|].
  pose proof (code_step_pos fork (byte_or_zero data p) (byte_or_zero data (p + 1))).
  unfold step_at in *. lia.
Qed.

Lemma reaches_trans fork data p q r :
  reaches fork data p q → reaches fork data q r → reaches fork data p r.
Proof. induction 1; [done|]. intros. constructor 2; auto. Qed.

Lemma boundary_step fork data p :
  boundary fork data p → p < py_len data → boundary fork data (p + step_at fork data p).
Proof. intros Hp ?. eapply reaches_trans; [apply Hp|]. constructor 2; [done|constructor]. Qed.

Lemma destination_step fork data p d :
  p < py_len data →
  destination_from fork data p d ↔
  (d = p ∧ byte_or_zero data p = 0x5b) ∨ destination_from fork data (p + step_at fork data p) d.
Proof.
  intros Hp. unfold destination_from. split.
  - intros (Hr & ? & ?). destruct Hr; [by left|by right].
  - intros [[-> ?]|(? & ? & ?)]; split_and!; try done; [constructor|by constructor 2].
Qed.

(** ** The analysis *)

Section analysis.
Context (code : Slice) (fork : Z).

(** The table of the code, with its positions. *)
Definition table_is (table : Z) (ps : gset Z) (h : HostState) : Prop :=
  (codes h).(jumpdest_tables) !! table = Some (mkJumpdestTable code.(sl_len) ps).

(** What marking leaves alone: everything but the one table. *)
Definition only_tables (table : Z) (h h' : HostState) : Prop :=
  ∃ c, h' = set_codes c h ∧
    ∀ t, t ≠ table → c.(jumpdest_tables) !! t = (codes h).(jumpdest_tables) !! t.

Lemma only_tables_same table h : only_tables table h h.
Proof. exists (codes h). by destruct h. Qed.
Lemma only_tables_trans table h1 h2 h3 :
  only_tables table h1 h2 → only_tables table h2 h3 → only_tables table h1 h3.
Proof.
  intros (c & -> & Hc) (c' & -> & Hc'). exists c'. split; [by destruct h1|].
  intros t Ht. by rewrite Hc', <-Hc.
Qed.
Lemma only_tables_data table kind s h h' :
  only_tables table h h' →
  (slice_in kind s h → slice_in kind s h') ∧ slice_data kind s h' = slice_data kind s h.
Proof. intros (c & -> & _). by destruct h, kind. Qed.

Lemma mark_run table ps h p :
  table_is table ps h → 0 <= p < code.(sl_len) →
  ∃ h', zoom (jumpdest_table_mark table code.(sl_len) p) h = (Ok true, h') ∧
    table_is table ({[p]} ∪ ps) h' ∧ only_tables table h h'.
Proof.
  intros Ht Hp. rewrite zoom_run. unfold jumpdest_table_mark. rewrite bind_run. unfold gets at 1 2.
  unfold table_is in Ht. cbn [view HostState_CodeState fst snd]. rewrite Ht. cbn [jt_code_length jt_positions].
  rewrite Z.eqb_refl. cbn [negb].
  rewrite (proj2 (Z.ltb_ge _ _)), (proj2 (Z.leb_gt _ _)) by lia. cbn [orb].
  eexists. split; [reflexivity|]. unfold table_is. split; [apply lookup_insert_eq|].
  eexists. split; [reflexivity|]. intros t Hne. by apply lookup_insert_ne.
Qed.

(** The mark of one position. *)
Lemma mark_when_run table ps h p (b : bool) :
  table_is table ps h → 0 <= p < code.(sl_len) →
  ∃ h' ps', when b
      (marked ← zoom (jumpdest_table_mark table code.(sl_len) p);
       sail_assert marked "JUMPDEST mark") h = (Ok tt, h') ∧
    table_is table ps' h' ∧ only_tables table h h' ∧ ∀ d, d ∈ ps' ↔ d ∈ ps ∨ (d = p ∧ b = true).
Proof.
  intros Ht Hp. destruct b; cbn [when].
  - destruct (mark_run _ _ _ _ Ht Hp) as (h' & E & Ht' & Ho). exists h', ({[p]} ∪ ps).
    rewrite bind_run, E. split_and!; [done..|]. set_solver.
  - exists h, ps. split_and!; [done|done|apply only_tables_same|]. naive_solver.
Qed.

Lemma immediate_run h p opcode :
  slice_in RCode code h → 0 <= p →
  ∃ immediate, (if negb ((96 <=? opcode) && (opcode <=? 127)) && (Amsterdam <=? fork)
                then code_slice_byte code (p + 1) else mret 0) h = (Ok immediate, h) ∧
    code_step fork opcode immediate =
    code_step fork opcode (byte_or_zero (slice_data RCode code h) (p + 1)).
Proof.
  intros Hin Hp. unfold code_step. destruct (_ && (opcode <=? 127)); cbn [negb andb];
    [by exists 0|]. destruct (Amsterdam <=? fork); [|by exists 0].
  eexists. split; [by apply (slice_byte_run RCode); [|lia]|done].
Qed.

Lemma analyze_loop_run fuel : ∀ table ps h p,
  table_is table ps h → slice_in RCode code h → 0 <= p < code.(sl_len) →
  code.(sl_len) - p <= Z.of_nat fuel →
  ∃ h' ps', analyze_loop fuel code fork table p h = (Ok tt, h') ∧
    table_is table ps' h' ∧ only_tables table h h' ∧
    ∀ d, d ∈ ps' ↔ d ∈ ps ∨ destination_from fork (slice_data RCode code h) p d.
Proof.
  induction fuel as [|fuel IH]; intros table ps h p Ht Hin Hp Hfuel; [lia|].
  set (data := slice_data RCode code h).
  pose proof (slice_data_length _ _ _ Hin) as Hlen. fold data in Hlen.
  cbn [analyze_loop]. rewrite (proj2 (Z.ltb_lt _ _)) by lia.
  rewrite bind_run. change (code_slice_byte code p h) with (slice_byte (_region_byte RCode) code p h).
  rewrite slice_byte_run by (done || lia). fold data.
  set (opcode := byte_or_zero data p).
  destruct (mark_when_run table ps h p (opcode =? 0x5b) Ht Hp) as (h1 & ps1 & E1 & Ht1 & Ho1 & Hps1).
  rewrite bind_run, E1. destruct (only_tables_data _ RCode code _ _ Ho1) as [Hin1 Hd1].
  specialize (Hin1 Hin). destruct (immediate_run h1 p opcode Hin1) as (imm & E2 & Hstep); [lia|].
  rewrite bind_run, E2. rewrite Hd1 in Hstep. fold data in Hstep. cbv zeta. rewrite Hstep.
  change (code_step fork opcode (byte_or_zero data (p + 1))) with (step_at fork data p).
  pose proof (code_step_pos fork opcode (byte_or_zero data (p + 1))) as Hpos.
  change (code_step fork opcode (byte_or_zero data (p + 1))) with (step_at fork data p) in Hpos.
  destruct (Z.ltb_spec (step_at fork data p) (code.(sl_len) - p)) as [Hlt|Hge].
  - destruct (IH table ps1 h1 (p + step_at fork data p) Ht1 Hin1) as (h2 & ps2 & E3 & Ht2 & Ho2 & Hps2);
      [lia|lia|].
    exists h2, ps2. split_and!; [done|done|by eapply only_tables_trans|].
    intros d. rewrite Hps2, Hd1, Hps1, (destination_step fork data p) by lia.
    fold data opcode. rewrite Z.eqb_eq. tauto.
  - exists h1, ps1. split_and!; [done|done|done|].
    intros d. rewrite Hps1, (destination_step fork data p) by lia. fold opcode. rewrite Z.eqb_eq.
    assert (¬ destination_from fork data (p + step_at fork data p) d); [|tauto].
    intros (Hr%reaches_le & ? & _). lia.
Qed.
End analysis.

(** A table answers membership of its positions. *)
Lemma contains_run code table ps h d :
  table_is code table ps h → (∀ x, x ∈ ps → 0 <= x < code.(sl_len)) →
  jumpdest_ref_contains table code.(sl_len) d (codes h) =
  (Ok (bool_decide (d ∈ ps)), codes h).
Proof.
  intros Ht Hps. unfold jumpdest_ref_contains, table_is in *. rewrite bind_run. unfold gets.
  rewrite Ht. cbn [jt_code_length jt_positions]. rewrite Z.eqb_refl. cbn [negb].
  destruct (Z.ltb_spec d 0); cbn [orb].
  - rewrite bool_decide_false; [done|]. intros Hd%Hps. lia.
  - destruct (Z.leb_spec code.(sl_len) d); [|done].
    rewrite bool_decide_false; [done|]. intros Hd%Hps. lia.
Qed.



(** The push data at 1 is not a destination, the opcode at 2 is, and the byte
    at 4 is the data of a push that the code ends in. *)
Example analyzed_positions :
  let h := set_regions (mkRegions [] [] [x60; x5b; x5b; x61; x5b] [] [] []) initial_state in
  jt_positions <$> (codes (analyze_code (mkSlice 0 5) Osaka h).2).(jumpdest_tables) !! 1 = Some {[2]}.
Proof. by vm_compute. Qed.

(** ** Fetching *)

(** A code of a frame: its bytes in the region, and a jump table that names
    only jump destinations. *)
Definition code_ready (fork : Z) (code : Code) (data : bytes) (s : SpecState) : Prop :=
  slice_in RCode (mkSlice code.(code_off) code.(code_len)) s.(sp_host) ∧
  slice_data RCode (mkSlice code.(code_off) code.(code_len)) s.(sp_host) = data ∧
  ∀ d, fst (jumpdest_ref_contains code.(jumpdests) code.(code_len) d (codes s.(sp_host))) = Ok true →
    jump_destination fork data d.

(** The positions fetching moves to, opcode by opcode. *)
Lemma opcode_of_deep opcode :
  deep_stack_operation opcode ≠ NotDeepStackOperation →
  opcode = 230 ∨ opcode = 231 ∨ opcode = 232.
Proof.
  unfold deep_stack_operation. destruct (Z.eqb_spec opcode 230); [auto|].
  destruct (Z.eqb_spec opcode 231); [auto|]. destruct (Z.eqb_spec opcode 232); [auto|done].
Qed.

Lemma deep_available fork opcode :
  deep_stack_operation opcode ≠ NotDeepStackOperation →
  opcode_available opcode fork = (Amsterdam <=? fork).
Proof. intros Hd. by destruct (opcode_of_deep _ Hd) as [->|[->| ->]]. Qed.

Lemma plain_step fork opcode immediate :
  (96 <=? opcode) && (opcode <=? 127) = false →
  (deep_stack_operation opcode ≠ NotDeepStackOperation → Amsterdam <=? fork = false) →
  code_step fork opcode immediate = 1.
Proof.
  intros Hp Hd. unfold code_step. rewrite Hp. destruct (deep_stack_operation opcode) eqn:E;
    [by rewrite Hd by done..|]. cbn [deep_stack_operation_immediate_valid]. by case_match.
Qed.

Lemma unavailable_step fork opcode immediate :
  opcode_available opcode fork = false → code_step fork opcode immediate = 1.
Proof.
  intros Ho. apply plain_step.
  - destruct ((96 <=? opcode) && (opcode <=? 127)) eqn:E; [|done].
    apply andb_true_iff in E as [?%Z.leb_le ?%Z.leb_le]. revert Ho. unfold opcode_available.
    repeat match goal with |- context [opcode =? ?n] =>
      rewrite (proj2 (Z.eqb_neq opcode n)) by lia end. done.
  - intros Hd. by rewrite deep_available in Ho.
Qed.

Lemma code_bytes_run (code : Code) s :
  slice_in RCode (mkSlice code.(code_off) code.(code_len)) s →
  code_bytes code = Ok (mkSlice code.(code_off) code.(code_len)).
Proof.
  intros (? & ? & _ & ?). cbn in *. unfold code_bytes, region_valid_range.
  by rewrite !(proj2 (Z.leb_le _ _)) by lia.
Qed.

(** A load that the end of the code cuts short is filled up with zeros. *)
Lemma read_push_run code off n s :
  0 <= off → 0 <= n <= 32 →
  ∃ v, read_push code off n s = (Ok v, s).
Proof.
  intros Ho Hn. unfold read_push. rewrite bind_run, zoom_run. unfold code_slice_load_n, slice_load_n.
  assert (Hv : ∃ v, is_word v ∧ (if off <? code.(sl_len) then code_region_load_n_word code off n
    else mret 0) (view s) = (Ok v, view s)).
  { destruct (off <? _); [|by exists 0]. unfold code_region_load_n_word.
    rewrite load_word_run by lia. eexists. split; [|done].
    pose proof (from_be_bound (mem_range (_slice_bytes (region_of RCode (view s)) code) off (Z.to_nat n))) as B.
    rewrite mem_range_len in B. assert (256 ^ Z.of_nat (Z.to_nat n) <= 256 ^ 32) by (apply Z.pow_le_mono_r; lia).
    unfold is_word, WORD_MODULUS. change (2 ^ 256) with (256 ^ 32). lia. }
  destruct Hv as (v & Hw & E). rewrite bind_run, E. unfold of_outcome. rewrite word_ok by done.
  cbn [fst snd]. exists v. rewrite word_ok by done. by destruct s.
Qed.

(** Fetching at a boundary never fails, leaves the state and moves to the next
    boundary. *)
Lemma fetch_run fork code data pc s :
  code_ready fork code data s → boundary fork data pc →
  ∃ i pc', fetch code pc fork s = (Ok (pc', i), s) ∧ boundary fork data pc' ∧
    pc' = (if pc <? code.(code_len) then pc + step_at fork data pc else pc).
Proof.
  intros (Hin & Hdata & _) Hpc. pose proof (reaches_le _ _ _ _ Hpc) as Hpos.
  pose proof (slice_data_length _ _ _ Hin) as Hlen. rewrite Hdata in Hlen. cbn [sl_len] in Hlen.
  assert (Hnext : pc < code.(code_len) → boundary fork data (pc + step_at fork data pc)).
  { intros ?. apply boundary_step; [done|lia]. }
  unfold fetch. rewrite bind_run, of_outcome_run, (code_bytes_run _ _ Hin). cbn [sl_len].
  destruct (Z.ltb_spec pc code.(code_len)) as [Hlt|]; cbn [negb]; [|by exists STOP, pc].
  specialize (Hnext Hlt). unfold step_at in *. set (imm := byte_or_zero data (pc + 1)) in *.
  set (opcode := byte_or_zero data pc) in *.
  assert (Ebyte : ∀ off, 0 <= off → zoom (code_slice_byte (mkSlice code.(code_off) code.(code_len)) off) s =
    (Ok (byte_or_zero data off), s)).
  { intros off Hoff. rewrite zoom_run. unfold code_slice_byte.
    rewrite (slice_byte_run RCode) by done. cbn [fst snd]. change (view s) with s.(sp_host).
    rewrite Hdata. by destruct s. }
  run_by (Ebyte pc). fold opcode.
  destruct (opcode_available opcode fork) eqn:Eav; cbn [negb];
    [|rewrite unavailable_step in * by done; by exists INVALID, (pc + 1)].
  destruct ((95 <=? opcode) && (opcode <=? 127)) eqn:Epush.
  - apply andb_true_iff in Epush as [?%Z.leb_le ?%Z.leb_le].
    destruct (read_push_run (mkSlice code.(code_off) code.(code_len)) (pc + 1) (opcode - 95) s)
      as (v & E); [lia..|].
    unfold decode_push_immediate. rewrite (code_bytes_run _ _ Hin), !bind_run, of_outcome_run, bind_run, E.
    eexists _, _. split; [done|].
    replace (code_step fork opcode imm) with (opcode - 94) in *; [split; [|lia]|].
    + by replace (pc + 1 + (opcode - 95)) with (pc + (opcode - 94)) by lia.
    + destruct (Z.eq_dec opcode 95) as [->|]; [by rewrite plain_step|].
      unfold code_step. by rewrite !(proj2 (Z.leb_le _ _)) by lia.
  - assert (Hno : (96 <=? opcode) && (opcode <=? 127) = false).
    { apply andb_false_iff in Epush as [?%Z.leb_gt|?%Z.leb_gt]; apply andb_false_iff;
        [left|right]; apply Z.leb_gt; lia. }
    destruct (deep_stack_operation opcode) eqn:Ed;
      [..|rewrite plain_step in * by done; by eexists _, _].
    all: rewrite deep_available in Eav by (by rewrite Ed).
    all: assert (Hstep : code_step fork opcode imm =
           if deep_stack_operation_immediate_valid (deep_stack_operation opcode) imm then 2 else 1)
           by (unfold code_step; by rewrite Hno, Eav).
    all: rewrite Hstep, Ed in *; unfold decode_deep_immediate;
      rewrite (code_bytes_run _ _ Hin), !bind_run, of_outcome_run, bind_run, (Ebyte (pc + 1)) by lia;
      fold imm; destruct (deep_stack_operation_immediate_valid _ imm); eexists _, _;
      (split; [done|split; [|lia]]); by rewrite <-?Z.add_assoc.
Qed.

(** ** Executing *)

Definition spec_codes (s : SpecState) : CodeState := codes s.(sp_host).

(** The value of a call that returns, started with given code tables. *)
Definition gives {A} (c : CodeState) (m : M SpecState A) (P : A → Prop) : Prop :=
  ∀ s a s', spec_codes s = c → m s = (Ok a, s') → P a.

Section gives.
Context (c : CodeState).
Lemma gives_ret {A} (a : A) (P : A → Prop) : P a → gives c (mret a) P.
Proof. by intros HP s b s' _ [= <- _]. Qed.
Lemma gives_bind {A B} (m : M SpecState B) (f : B → M SpecState A) (P : A → Prop) :
  stable spec_codes m → (∀ b, gives c (f b) P) → gives c (m ≫= f) P.
Proof.
  intros Hm Hf s a s' Hs (b & s1 & H1 & H2)%runs_bind. eapply (Hf b s1); [|done].
  by rewrite (Hm _ _ _ H1).
Qed.
(** Only the value of the last call matters. *)
Lemma gives_after {A B} (m : M SpecState B) (f : B → M SpecState A) (P : A → Prop) :
  (∀ b c', gives c' (f b) P) → gives c (m ≫= f) P.
Proof. intros Hf s a s' Hs (b & s1 & _ & H2)%runs_bind. by eapply (Hf b (spec_codes s1)). Qed.
Lemma gives_with_stack {A} sp i o early (k : M SpecState A) (P : A → Prop) :
  (∀ st, P (early st)) → gives c k P → gives c (with_stack sp i o early k) P.
Proof.
  intros He Hk. unfold with_stack. apply gives_bind; [apply stable_outcome|]. intros st.
  destruct st; cbn [guarded]; [done|by apply gives_ret].
Qed.
Lemma gives_charge {A} g x early (k : Z → M SpecState A) (P : A → Prop) :
  P early → (∀ g', gives c (k g') P) → gives c (charge g x early k) P.
Proof. intros He Hk. unfold charge. destruct (_ <? _); [by apply gives_ret|done]. Qed.
Lemma gives_charge_sub {A} g x early (k : Z → M SpecState A) (P : A → Prop) :
  P early → (∀ g', gives c (k g') P) → gives c (charge_sub g x early k) P.
Proof.
  intros He Hk. unfold charge_sub, charge_or. destruct (_ <? _); [by apply gives_ret|].
  apply gives_bind; [apply stable_outcome|done].
Qed.
End gives.

Lemma on_stack_codes {A} (m : M Stacks A) : stable spec_codes (on_host m).
Proof.
  intros s a s'. unfold on_host. rewrite !zoom_run. intros [= _ <-]. by destruct s as [[] ? ?].
Qed.
Lemma pop_codes sp : stable spec_codes (pop sp).
Proof.
  unfold pop, read_stack_word, stack_slot_read.
  repeat first [apply on_stack_codes|apply stable_outcome|apply stable_ret|apply stable_bind|intros ?].
Qed.

Section landing.
Context (code : Code) (c : CodeState).

(** The program counters a jump of this code can reach. *)
Definition marked (d : Z) : Prop :=
  fst (jumpdest_ref_contains code.(jumpdests) code.(code_len) d c) = Ok true.
Definition lands (pc : Z) (r : JumpResult) : Prop := r.1.1.1 = pc ∨ marked r.1.1.1.

Lemma do_jump_lands pc g sp destination :
  gives c ('(pc, gas_, status) ← do_jump pc g code destination; mret (pc, gas_, sp, status)) (lands pc).
Proof.
  intros s a s' Hs (r & s1 & Hr & Ha)%runs_bind. destruct r as [[pc' g'] st]. injection Ha as <- _.
  unfold do_jump in Hr. apply runs_bind in Hr as (len & s2 & [= _ <-] & Hr). revert Hr.
  destruct (destination <? len); [|intros [= <- _ _]; by left].
  intros (b & s3 & Hb & Hr)%runs_bind. destruct b; [|injection Hr as <- _ _; by left].
  injection Hr as <- _ _ _. right. unfold marked. cbn [fst].
  unfold runs, frame_jumpdest_valid, on_host in Hb. rewrite !zoom_run in Hb.
  apply (f_equal fst) in Hb. by rewrite <-Hs.
Qed.

Lemma execute_jump_lands pc g sp : gives c (execute_jump code pc g sp) (lands pc).
Proof.
  apply gives_with_stack; [by left|]. apply gives_charge_sub; [by left|]. intros g'.
  apply gives_bind; [apply pop_codes|]. intros [d sp']. apply do_jump_lands.
Qed.
Lemma execute_jumpi_lands pc g sp : gives c (execute_jumpi code pc g sp) (lands pc).
Proof.
  apply gives_with_stack; [by left|]. apply gives_charge_sub; [by left|]. intros g'.
  apply gives_bind; [apply pop_codes|]. intros [d sp'].
  apply gives_bind; [apply pop_codes|]. intros [x sp''].
  destruct (word_is_zero x); [by apply gives_ret; left|apply do_jump_lands].
Qed.
Lemma execute_pc_stays pc g sp : gives c (execute_pc pc g sp) (λ r, r.1.1.1 = pc).
Proof.
  apply gives_with_stack; [done|]. apply gives_charge; [done|]. intros g'.
  do 2 (apply gives_after; intros ? ?). by apply gives_ret.
Qed.
End landing.

(** The instructions that may set the program counter, and those that enter
    another frame. *)
Definition jumps (i : ast) : bool := match i with JUMP | JUMPI => true | _ => false end.
Definition enters (i : ast) : bool :=
  match i with
  | opcode_CREATE | CREATE2 | CALL | CALLCODE | DELEGATECALL | STATICCALL => true
  | _ => false
  end.

Definition step_pc (r : StepResult) : Z := r.1.1.1.1.1.1.1.

Section dispatch.
Context `{Keccak} `{StateTrie}.
Context (f : FrameTransition) (c : CodeState).

Lemma finish_op_pc m : gives c (finish_op f m) (λ r, step_pc r = f.(ft_pc)).
Proof. apply gives_after. intros [[? ?] ?] ?. by apply gives_ret. Qed.
Lemma finish_mem_pc m : gives c (finish_mem f m) (λ r, step_pc r = f.(ft_pc)).
Proof. apply gives_after. intros [[[? ?] ?] ?] ?. by apply gives_ret. Qed.
Lemma finish_jump_pc m (P : Z → Prop) :
  gives c m (λ r, P r.1.1.1) → gives c (finish_jump f m) (λ r, P (step_pc r)).
Proof.
  intros Hm s a s' Hs (r & s1 & Hr & Ha)%runs_bind. specialize (Hm _ _ _ Hs Hr).
  destruct r as [[[? ?] ?] ?]. by injection Ha as <- _.
Qed.

(** The program counter after an instruction. *)
Lemma execute_instruction_pc fork blob_fee context i :
  gives c (execute_instruction fork blob_fee context f i)
    (λ r, step_pc r = f.(ft_pc) ∨ (jumps i = true ∧ marked f.(ft_code) c (step_pc r))).
Proof.
  assert (Hkept : ∀ m b, gives c m (λ r, step_pc r = f.(ft_pc)) →
    gives c m (λ r, step_pc r = f.(ft_pc) ∨ (b = true ∧ marked f.(ft_code) c (step_pc r)))).
  { intros m b Hm s a s' Hs E. left. by eapply Hm. }
  assert (Hjump : ∀ m, gives c m (lands f.(ft_code) c f.(ft_pc)) →
    gives c (finish_jump f m)
      (λ r, step_pc r = f.(ft_pc) ∨ (true = true ∧ marked f.(ft_code) c (step_pc r)))).
  { intros m Hm. apply (finish_jump_pc _ (λ d, d = f.(ft_pc) ∨ (true = true ∧ marked f.(ft_code) c d))).
    intros s a s' Hs E. destruct (Hm _ _ _ Hs E); auto. }
  destruct i; cbn [execute_instruction jumps]; unfold simple, on_memory, finish_gas;
    try apply Hjump; try apply Hkept;
    first [apply finish_op_pc | apply finish_mem_pc | by apply gives_ret
          |apply execute_jump_lands | apply execute_jumpi_lands
          |apply (finish_jump_pc _ (λ d, d = f.(ft_pc))), execute_pc_stays
          |(apply gives_after; intros r ?; repeat destruct r as [r ?]; by apply gives_ret)
          |by intros ? ? ? ? [=] ].
Qed.

Lemma finish_step_pc r : gives c (finish_step f r) (λ t, t.(ft_pc) = step_pc r ∧ t.(ft_code) = f.(ft_code)).
Proof.
  destruct r as [[[[[[[pc g] s] p] refund] sp] memory] st]. unfold finish_step.
  apply gives_after. intros [[[? ?] ?] ?] ?. by apply gives_ret.
Qed.
End dispatch.

Section turn.
Context `{Keccak} `{StateTrie} `{AccelLib}.

End turn.

(** [PUSH1 3; JUMP; JUMPDEST], at the jump and its destination on the stack. *)
Module Landing.
Definition code_host : HostState :=
  (analyze_code (mkSlice 0 4) Osaka (set_regions (mkRegions [] [] [x60; x03; x56; x5b] [] [] []) initial_state)).2.
Definition state : SpecState :=
  mkSpec (set_stacks (mkStacks [3] [] []) code_host) initial_environment EMPTY_SCRATCH_SLICE.
Definition frame : FrameTransition :=
  mkFrame 2 100 0 0 0 Running (mkStackPointer 1 1) 0 0
    (mkMessage ZERO_ADDRESS ZERO_ADDRESS ZERO_ADDRESS 0 0 false 0) (mkCode 0 4 1) EMPTY_CALLDATA
    EMPTY_OUTPUT_SLICE.

Lemma ready : code_ready Osaka frame.(ft_code) [x60; x03; x56; x5b] state.
Proof.
  split_and!; [by split_and!|done|]. intros d Hd.
  assert (Ht : table_is (mkSlice 0 4) 1 {[3]} (sp_host state)) by (by vm_compute).
  assert (E : jumpdest_ref_contains 1 4 d (codes (sp_host state)) =
    (Ok (bool_decide (d ∈ ({[3]} : gset Z))), codes (sp_host state))).
  { apply (contains_run (mkSlice 0 4)); [done|]. intros x ->%elem_of_singleton. cbn. lia. }
  cbn [frame ft_code jumpdests code_len] in Hd. rewrite E in Hd.
  injection Hd as Hd%bool_decide_eq_true.
  apply elem_of_singleton in Hd as ->. split_and!; [|done|done].
  apply (reaches_next _ _ _ 3); [done|]. apply (reaches_next _ _ _ 3); [done|]. apply reaches_here.
Qed.
Lemma at_boundary : boundary Osaka [x60; x03; x56; x5b] 2.
Proof. apply (reaches_next _ _ _ 2); [done|]. apply reaches_here. Qed.

(** The jump lands. *)
Example lands_on_3 :
  match (@run_turn toy_Keccak Sample.empty_trie toy_lib Osaka 1 frame ZERO_ADDRESS state).1 with
  | Ok (t, _) => (t.(ft_pc), t.(ft_gas), t.(ft_status))
  | Raise _ => (0, 0, Running)
  end = (3, 92, Running).
Proof. by vm_compute. Qed.
End Landing.

