(* ===== verification/FrameGas.v ===== *)
(** * FrameGas: the gas an instruction leaves

    Every instruction that lets its frame run on takes gas from it, and none
    gives any, before the state gas of Amsterdam. The rules below follow a
    definition and collect what it charges. *)
From Stdlib Require Import ZArith Lia.
From stdpp Require Import base tactics option list gmap.
From S2P Require Import Prelude PyBytes SailRuntime HostTypes Words ChainConfig Regions RegionAccess Gas GasSchedule Crypto Storage Accounts WarmLogs Journal CodeDb Bal Accelerators Secp256k1 OperandStack Environment Scratch Rlp Kernel Machine Instructions Execute Precompiles Interpreter Stable.
Local Open Scope Z_scope.

(** ** Rules *)

Abbreviation observation := (Environment * list FrameContinuation)%type.

(** A call that returns, started under an observation. *)
Definition leads {A} (o : observation) (m : M SpecState A) (Q : A → observation → Prop) : Prop :=
  ∀ s a s', spec_frames s = o → m s = (Ok a, s') → Q a (spec_frames s').

Section rules.
Context (o : observation).

Lemma leads_ret {A} (a : A) (Q : A → observation → Prop) : Q a o → leads o (mret a) Q.
Proof. by intros HQ s b s' <- [= <- <-]. Qed.

Lemma leads_weaken {A} (m : M SpecState A) (R Q : A → observation → Prop) :
  leads o m R → (∀ a o', R a o' → Q a o') → leads o m Q.
Proof. intros Hm HR s a s' Hs E. eauto. Qed.

Lemma leads_bind {A B} (m : M SpecState B) (R : B → observation → Prop) (f : B → M SpecState A) (Q : A → observation → Prop) :
  leads o m R → (∀ b o', R b o' → leads o' (f b) Q) → leads o (m ≫= f) Q.
Proof.
  intros Hm Hf s a s' Hs (b & s1 & H1 & H2)%runs_bind.
  eapply (Hf b (spec_frames s1)); eauto.
Qed.

Lemma leads_stable {A} (m : M SpecState A) (Q : A → observation → Prop) :
  stable spec_frames m → (∀ a, Q a o) → leads o m Q.
Proof. intros Hm HQ s a s' <- E. by rewrite (Hm _ _ _ E). Qed.

Lemma leads_skip {A B} (m : M SpecState B) (f : B → M SpecState A) (Q : A → observation → Prop) :
  stable spec_frames m → (∀ b, leads o (f b) Q) → leads o (m ≫= f) Q.
Proof.
  intros Hm Hf. eapply leads_bind; [by apply (leads_stable _ (λ _ o', o' = o))|].
  by intros b o' ->.
Qed.

Lemma leads_outcome {A B} (x : outcome B) (f : B → M SpecState A) (Q : A → observation → Prop) :
  (∀ b, x = Ok b → leads o (f b) Q) → leads o (of_outcome x ≫= f) Q.
Proof. intros Hf s a s' Hs E. destruct x as [b|e]; [|done]. by eapply (Hf b); eauto. Qed.

Lemma leads_known {A B} (b : B) (f : B → M SpecState A) (Q : A → observation → Prop) :
  leads o (f b) Q → leads o (mret b ≫= f) Q.
Proof. intros Hf. by apply leads_outcome; intros ? [= <-]. Qed.

Lemma leads_profile {A} (f : ProtocolProfileFields → M SpecState A) (Q : A → observation → Prop) :
  leads o (f o.1.(k_execution_profile).(protocol)) Q → leads o (get_profile ≫= f) Q.
Proof. intros Hf s a s' Hs E. subst o. by eapply Hf; eauto. Qed.

Lemma leads_if {A} (b : bool) (m n : M SpecState A) (Q : A → observation → Prop) :
  (b = true → leads o m Q) → (b = false → leads o n Q) → leads o (if b then m else n) Q.
Proof. destruct b; auto. Qed.

Lemma leads_raise {A} e (Q : A → observation → Prop) : leads o (raise e : M SpecState A) Q.
Proof. by intros s a s' _ [=]. Qed.

Lemma leads_fatal {A} (Q : A → observation → Prop) : leads o (of_outcome fatal_error : M SpecState A) Q.
Proof. by intros s a s' _ [=]. Qed.
End rules.

(** ** Gas *)

Definition is_gas_amount (g : Z) : Prop := 0 <= g <= U64_MAX.

Lemma gas_inv v w : gas v = Ok w → w = v ∧ is_gas_amount v.
Proof. apply BoundedUint_inv. Qed.

Lemma gas_sub_inv g c w : gas_sub g c = Ok w → is_gas_amount w ∧ (c <= g → w = g - c) ∧ (g < c → w = 0).
Proof.
  unfold gas_sub. destruct (Z.leb_spec c g); intros [-> ?]%gas_inv; unfold GAS_ZERO in *; split_and!; done || lia.
Qed.

Lemma take_gas_inv g c w :
  (v ← gas_sub g c; gas v) = Ok w → is_gas_amount w ∧ (c <= g → w = g - c) ∧ (g < c → w = 0).
Proof. intros (v & Hv & [-> ?]%gas_inv)%bind_Ok. by apply gas_sub_inv. Qed.

(** A charge costs at least [lo] and, when affordable, what there is. *)
Definition charges (lo available : Z) (c : outcome GasCharge) : Prop :=
  ∀ k, c = Ok k → k.(affordable) = true → lo <= k.(cost) <= available.

Lemma unaffordable_charges lo available : charges lo available unaffordable.
Proof. by intros k [= <-]. Qed.
Lemma gas_charge_charges lo available c :
  (0 <= c <= U64_MAX → lo <= c <= available) → charges lo available (gas_charge c).
Proof.
  intros Hc k (v & [-> ?]%BoundedUint_inv & [= <-])%bind_Ok _. cbn. auto.
Qed.

Section combinators.
Context {A : Type} (o : observation) (Q : A → observation → Prop).

Lemma leads_charge g c early (k : Z → M SpecState A) :
  Q early o → (c <= g → leads o (k (g - c)) Q) → leads o (charge g c early k) Q.
Proof.
  intros He Hk. unfold charge. destruct (Z.ltb_spec g c); [by apply leads_ret|auto].
Qed.

Lemma leads_charge_or g c (early : M SpecState A) (k : Z → M SpecState A) :
  leads o early Q → (∀ g', c <= g → g' = g - c → 0 <= g' → leads o (k g') Q) →
  leads o (charge_or g c early k) Q.
Proof.
  intros He Hk. unfold charge_or. destruct (Z.ltb_spec g c); [done|].
  apply leads_outcome. intros g' ([? ?] & Hg & _)%take_gas_inv. apply Hk; auto; lia.
Qed.

Lemma leads_charge_sub g c early (k : Z → M SpecState A) :
  Q early o → (∀ g', c <= g → g' = g - c → 0 <= g' → leads o (k g') Q) →
  leads o (charge_sub g c early k) Q.
Proof. intros He. apply leads_charge_or. by apply leads_ret. Qed.

Lemma leads_afford_or lo g c (early : M SpecState A) (k : Z → M SpecState A) :
  charges lo g c → leads o early Q →
  (∀ g', 0 <= g' <= g - lo → leads o (k g') Q) → leads o (afford_or g c early k) Q.
Proof.
  intros Hc He Hk. unfold afford_or. apply leads_outcome. intros x Hx.
  specialize (Hc x Hx). destruct (affordable x); [|done]. cbn [negb].
  apply leads_outcome. intros g' ([? ?] & Hg & _)%take_gas_inv. specialize (Hc eq_refl).
  apply Hk. rewrite Hg in * by lia. lia.
Qed.

Lemma leads_afford lo g c early (k : Z → M SpecState A) :
  charges lo g c → Q early o →
  (∀ g', 0 <= g' <= g - lo → leads o (k g') Q) → leads o (afford g c early k) Q.
Proof. intros Hc He. apply leads_afford_or; [done|by apply leads_ret]. Qed.

Lemma leads_with_stack sp inputs outputs early (k : M SpecState A) :
  (∀ kind, Q (early (Failed kind)) o) → leads o k Q →
  leads o (with_stack sp inputs outputs early k) Q.
Proof.
  intros He Hk. unfold with_stack. apply leads_outcome. intros st _.
  destruct st; [done|]. by apply leads_ret.
Qed.
End combinators.

(** ** What the charges cost *)

Lemma charges_bind {B} lo available (x : outcome B) (f : B → outcome GasCharge) :
  (∀ b, x = Ok b → charges lo available (f b)) → charges lo available (x ≫= f).
Proof. intros Hf k (b & Hb & Hk)%bind_Ok. by apply (Hf b). Qed.

Lemma charges_if_le lo available c :
  (0 <= c <= U64_MAX → lo <= c) →
  charges lo available (if c <=? available then gas_charge c else unaffordable).
Proof.
  intros Hc. destruct (Z.leb_spec c available); [apply gas_charge_charges; lia|apply unaffordable_charges].
Qed.

Lemma zero_charges available : 0 <= available → charges 0 available (gas_charge GAS_COST_ZERO).
Proof. intros ?. apply gas_charge_charges. unfold GAS_COST_ZERO. lia. Qed.
#[local] Hint Resolve zero_charges unaffordable_charges : core.

Lemma memory_expansion_charges mem requested available :
  0 <= available → charges 0 available (memory_expansion_gas_cost mem requested available).
Proof.
  intros ?. unfold memory_expansion_gas_cost. case_match; [|done].
  do 3 (apply charges_bind; intros ? _). case_match; [auto|].
  do 2 (apply charges_bind; intros ? _). case_match; [|auto]. apply charges_if_le. lia.
Qed.

Lemma word_scaled_charges per_unit units available :
  0 <= available → charges 0 available (word_scaled_gas_cost per_unit units available).
Proof.
  intros ?. unfold word_scaled_gas_cost. case_match; [auto|]. case_match; [|auto].
  apply charges_if_le. lia.
Qed.

Lemma fixed_and_scaled_charges fixed per_unit units available :
  fixed <= available → charges fixed available (fixed_and_scaled fixed per_unit units available).
Proof.
  intros ?. apply charges_bind. intros v Hv.
  pose proof (word_scaled_charges per_unit units (available - fixed) ltac:(lia) v Hv) as Hc.
  destruct (affordable v); [|auto]. specialize (Hc eq_refl). apply charges_if_le. lia.
Qed.

Lemma memory_word_charges base per_word size available :
  charges base available (memory_word_gas_cost base per_word size available).
Proof.
  unfold memory_word_gas_cost. destruct (Z.ltb_spec available base); [auto|].
  apply charges_bind. intros w _. by apply fixed_and_scaled_charges.
Qed.

Lemma log_charges n size available :
  charges (G_log + G_logtopic * n) available (log_gas_cost n size available).
Proof.
  unfold log_gas_cost. destruct (Z.ltb_spec available (G_log + G_logtopic * n));
    [apply unaffordable_charges|]. by apply fixed_and_scaled_charges.
Qed.

Lemma account_cost_pos profile warm c : account_cost profile warm = Ok c → 100 <= c.
Proof.
  unfold account_cost, gas_constant. intros [-> ?]%BoundedUint_inv.
  by repeat case_match.
Qed.
Lemma code_access_cost_pos profile warm c : code_access_cost profile warm = Ok c → 100 <= c.
Proof.
  unfold code_access_cost. intros (a & Ha%account_cost_pos & (r & Hr & [= <-])%bind_Ok)%bind_Ok.
  apply BoundedUint_inv in Hr as [-> ?]. lia.
Qed.
Lemma sload_cost_pos profile warm c : sload_cost profile warm = Ok c → 100 <= c.
Proof.
  unfold sload_cost, gas_constant. intros [-> ?]%BoundedUint_inv. by repeat case_match.
Qed.
Lemma exp_gas_pos e c : exp_gas e = Ok c → 10 <= c.
Proof.
  unfold exp_gas. intros (n & Hn & [-> ?]%BoundedUint_inv)%bind_Ok.
  assert (0 <= n); [|unfold G_expbyte, G_exp; lia].
  unfold word_byte_length in Hn. apply bind_Ok in Hn as (k & _ & Hk). case_match.
  - apply BoundedUint_inv in Hk. lia.
  - apply bind_Ok in Hk as (q & _ & [-> ?]%BoundedUint_inv). lia.
Qed.

(** ** Results *)

Definition goes_on (st : OpcodeOutcome) : bool := match st with Continue => true | _ => false end.

(** What is left of the gas: no more, and less when the frame runs on. *)
Definition gas_step (g g' : Z) (running : bool) : Prop :=
  0 <= g' <= g ∧ (running = true → g' < g).

Definition op_ok (o : observation) (g : Z) (r : OpResult) (o' : observation) : Prop :=
  o' = o ∧ gas_step g r.1.1 (goes_on r.2).
Definition mem_ok (o : observation) (g : Z) (r : MemResult) (o' : observation) : Prop :=
  o' = o ∧ gas_step g r.1.1.1 (goes_on r.2).
Definition jump_ok (o : observation) (g : Z) (r : JumpResult) (o' : observation) : Prop :=
  o' = o ∧ gas_step g r.1.1.2 (goes_on r.2).

Definition sstore_ok (o : observation) (g : Z) (r : SstoreResult) (o' : observation) : Prop :=
  o' = o ∧ gas_step g r.1.1.1.1.1 (goes_on r.2).
Definition return_ok (o : observation) (g : Z) (r : ReturnResult) (o' : observation) : Prop :=
  o' = o ∧ gas_step g r.1.1.1 (is_running r.2).
Definition revert_ok (o : observation) (g : Z) (r : RevertResult) (o' : observation) : Prop :=
  o' = o ∧ gas_step g r.1.1.1.1.1 (is_running r.2).
Definition destruct_ok (o : observation) (g : Z) (r : DestructResult) (o' : observation) : Prop :=
  o' = o ∧ gas_step g r.1.1.1.1.1 (is_running r.2).

Ltac gas_done :=
  lazymatch goal with
  | |- sstore_ok _ _ _ _ => unfold sstore_ok
  | |- return_ok _ _ _ _ => unfold return_ok
  | |- revert_ok _ _ _ _ => unfold revert_ok
  | |- destruct_ok _ _ _ _ => unfold destruct_ok
  | |- op_ok _ _ _ _ => unfold op_ok, out_of_gas, failed_at
  | |- mem_ok _ _ _ _ => unfold mem_ok, mem_out_of_gas, mem_failed_at
  | |- jump_ok _ _ _ _ => unfold jump_ok, jump_failed
  end;
  unfold gas_step; cbn [fst snd goes_on is_running opcode_frame_status];
  split; [reflexivity|];
  unfold GAS_ZERO, G_base, G_verylow, G_low, G_mid, G_high, G_jumpdest, G_warm_access,
    G_keccak, G_log, G_logtopic in *;
  split; [try lia|first [intros [=]; fail|intros _; lia|intros ?; lia|idtac]].

Create HintDb charges.
#[export] Hint Resolve memory_expansion_charges word_scaled_charges memory_word_charges log_charges
  : charges.

Lemma leads_with_memory {A} o base memory g start size early
    (k : Z → MemoryAccess → Z → M SpecState A) Q :
  0 <= g → Q early o → (∀ g' access memory', 0 <= g' <= g → leads o (k g' access memory') Q) →
  leads o (with_memory base memory g start size early k) Q.
Proof.
  intros ? He Hk. unfold with_memory. apply leads_outcome. intros requested _.
  eapply leads_afford; [by eauto with charges|done|]. intros g' ?.
  apply leads_outcome. intros access _. apply leads_skip; [stable|]. intros memory'.
  apply leads_outcome. intros memory'' _. apply Hk. lia.
Qed.

Ltac leads_pre :=
  cbv beta zeta;
  match goal with
  | H : account_cost _ _ = Ok _ |- _ => apply account_cost_pos in H
  | H : code_access_cost _ _ = Ok _ |- _ => apply code_access_cost_pos in H
  | H : sload_cost _ _ = Ok _ |- _ => apply sload_cost_pos in H
  | H : exp_gas _ = Ok _ |- _ => apply exp_gas_pos in H
  | _ => idtac
  end.
Ltac leads_step :=
  leads_pre;
  match goal with
  | |- leads _ (with_stack _ _ _ _ _) _ => apply leads_with_stack; [intros ?; gas_done|]
  | |- leads _ (charge _ _ _ _) _ => apply leads_charge; [gas_done|intros ?]
  | |- leads _ (charge_sub _ _ _ _) _ => apply leads_charge_sub; [gas_done|intros ? ? ? ?]
  | |- leads _ (afford _ _ _ _) _ =>
      eapply leads_afford; [by eauto with charges zarith|gas_done|intros ? ?]
  | |- leads _ (with_memory _ _ _ _ _ _ _) _ =>
      apply leads_with_memory; [try lia|gas_done|intros ? ? ? ?]
  | |- leads _ (of_outcome _ ≫= _) _ => apply leads_outcome; intros ? ?
  | |- leads _ (get_profile ≫= _) _ => apply leads_profile
  | |- leads _ (mbind _ _) _ => apply leads_skip; [stable|intros ?]
  | |- leads _ (let '_ := ?x in _) _ => destruct x
  | |- leads _ (if _ then _ else _) _ => apply leads_if; intros ?
  | |- leads _ (mret _) _ => apply leads_ret; gas_done
  end.
Ltac leads := repeat leads_step.

Section instructions.
Context `{Keccak} `{StateTrie}.
Context (Haccount : ∀ r k, stable spec_frames (stateless_account_by_key r k)).
Context (Hstorage : ∀ r k, stable spec_frames (stateless_storage_by_key r k)).
#[local] Hint Resolve Haccount Hstorage : stable.
Context (o : observation) (g : Z) (Hg : 0 <= g).

Lemma unary_ok c alu sp : 1 <= c → leads o (unary_op c alu g sp) (op_ok o g).
Proof using Hg. intros. unfold unary_op. leads. Qed.
Lemma binary_ok c alu sp : 1 <= c → leads o (binary_op c alu g sp) (op_ok o g).
Proof using Hg. intros. unfold binary_op. leads. Qed.
Lemma ternary_ok c alu sp : 1 <= c → leads o (ternary_op c alu g sp) (op_ok o g).
Proof using Hg. intros. unfold ternary_op. leads. Qed.
Lemma exp_ok sp : leads o (execute_exp g sp) (op_ok o g).
Proof using Hg. unfold execute_exp. leads. Qed.
Lemma constant_ok c read sp :
  stable spec_frames read → 1 <= c → leads o (constant_op c read g sp) (op_ok o g).
Proof using Hg. intros. unfold constant_op. leads. Qed.
Lemma lookup_ok c read sp :
  (∀ k, stable spec_frames (read k)) → 1 <= c → leads o (lookup_op c read g sp) (op_ok o g).
Proof using Hg. intros. unfold lookup_op. leads. Qed.
Lemma msize_ok sp memory : leads o (execute_msize g sp memory) (mem_ok o g).
Proof using Hg. unfold execute_msize. leads. Qed.
Lemma execute_gas_ok sp : leads o (execute_gas g sp) (op_ok o g).
Proof using Hg. unfold execute_gas. leads. Qed.
Lemma pop_ok sp : leads o (execute_pop g sp) (op_ok o g).
Proof using Hg. unfold execute_pop. leads. Qed.
Lemma push_ok sp n v : leads o (execute_push g sp n v) (op_ok o g).
Proof using Hg. unfold execute_push. destruct (n =? 0); leads. Qed.
Lemma dup_ok sp n : leads o (dup_at g sp n) (op_ok o g).
Proof using Hg. unfold dup_at. leads. Qed.
Lemma exchange_ok sp n m : leads o (exchange_at g sp n m) (op_ok o g).
Proof using Hg. unfold exchange_at. leads. Qed.
#[local] Hint Resolve dup_ok exchange_ok : core.
Lemma dupn_ok sp immediate : leads o (execute_dupn g sp immediate) (op_ok o g).
Proof using Hg. unfold execute_dupn, invalid_immediate. leads; auto. Qed.
Lemma swapn_ok sp immediate : leads o (execute_swapn g sp immediate) (op_ok o g).
Proof using Hg. unfold execute_swapn, invalid_immediate. leads; auto. Qed.
Lemma execute_exchange_ok sp immediate : leads o (execute_exchange g sp immediate) (op_ok o g).
Proof using Hg. unfold execute_exchange, invalid_immediate. leads; auto. Qed.

(** A jump takes the gas or leaves what it was given. *)
Lemma do_jump_leads {A} pc g' code destination (k : Z * Z * OpcodeOutcome → M SpecState A) Q :
  (∀ pc', leads o (k (pc', g', Continue)) Q) →
  (∀ kind, leads o (k (pc, GAS_ZERO, Failed kind)) Q) →
  leads o (do_jump pc g' code destination ≫= k) Q.
Proof using.
  intros H1 H2. eapply (leads_bind _ _ (λ r o', o' = o ∧
    ((∃ pc', r = (pc', g', Continue)) ∨ ∃ kind, r = (pc, GAS_ZERO, Failed kind)))).
  - unfold do_jump. leads_step. apply leads_if; intros _; [|apply leads_ret; eauto].
    leads_step. apply leads_if; intros _; apply leads_ret; eauto.
  - intros r o' (-> & [(? & ->)|(? & ->)]); auto.
Qed.
Lemma jump_op_ok code pc sp : leads o (execute_jump code pc g sp) (jump_ok o g).
Proof using Hg.
  unfold execute_jump. unfold G_mid. do 4 leads_step. apply do_jump_leads; intros ?; leads.
Qed.
Lemma jumpi_op_ok code pc sp : leads o (execute_jumpi code pc g sp) (jump_ok o g).
Proof using Hg.
  unfold execute_jumpi. unfold G_high. do 6 leads_step. apply leads_if; intros _; [leads|].
  apply do_jump_leads; intros ?; leads.
Qed.
Lemma pc_op_ok pc sp : leads o (execute_pc pc g sp) (jump_ok o g).
Proof using Hg. unfold execute_pc. leads. Qed.
Lemma keccak_ok base sp memory : leads o (execute_keccak256 base g sp memory) (mem_ok o g).
Proof using Hg. unfold execute_keccak256, keccak_gas_cost. leads. Qed.
Lemma copy_ok {X} (prepare : outcome X) copy base sp memory :
  (∀ x d s n, stable spec_frames (copy x d s n)) →
  leads o (copy_op prepare copy base g sp memory) (mem_ok o g).
Proof using Hg. intros. unfold copy_op, copy_gas_cost, GAS_CONSTANT_ZERO, G_verylow. leads. Qed.
Lemma returndatacopy_ok returndata base sp memory :
  leads o (execute_returndatacopy returndata base g sp memory) (mem_ok o g).
Proof using Hg.
  unfold execute_returndatacopy, copy_gas_cost, GAS_CONSTANT_ZERO, G_verylow. leads.
Qed.
Lemma mload_ok base sp memory : leads o (execute_mload base g sp memory) (mem_ok o g).
Proof using Hg. unfold execute_mload, G_verylow. leads. Qed.
Lemma store_ok size store base sp memory :
  (∀ b o' v, stable spec_frames (store b o' v)) →
  leads o (store_op size store base g sp memory) (mem_ok o g).
Proof using Hg. intros. unfold store_op, G_verylow. leads. Qed.
Lemma mcopy_ok base sp memory : leads o (execute_mcopy base g sp memory) (mem_ok o g).
Proof using Hg. unfold execute_mcopy, copy_gas_cost, GAS_CONSTANT_ZERO, G_verylow. leads. Qed.
Lemma log_ok a is_static base n sp memory :
  0 <= n → leads o (execute_log a is_static base n g sp memory) (mem_ok o g).
Proof using Hg.
  intros. unfold execute_log, guard_static. destruct is_static; cbn [guarded].
  - leads.
  - leads.
Qed.
Lemma account_op_ok read sp :
  (∀ a, stable spec_frames (read a)) →
  leads o (account_op account_cost charge read g sp) (op_ok o g).
Proof using Hg. intros Hr. unfold account_op. leads. Qed.
Lemma code_account_op_ok read sp :
  (∀ a, stable spec_frames (read a)) →
  leads o (account_op code_access_cost charge_sub read g sp) (op_ok o g).
Proof using Hg. intros Hr. unfold account_op. leads. Qed.
Lemma extcodecopy_ok base sp memory : leads o (execute_extcodecopy base g sp memory) (mem_ok o g).
Proof using All. unfold execute_extcodecopy, copy_gas_cost, GAS_CONSTANT_ZERO. leads. Qed.
Lemma sload_ok a sp : leads o (execute_sload a g sp) (op_ok o g).
Proof using All. unfold execute_sload. leads. Qed.
Lemma tstore_ok a is_static sp : leads o (execute_tstore a is_static g sp) (op_ok o g).
Proof using Hg.
  unfold execute_tstore, guard_static. destruct is_static; cbn [guarded]; unfold G_warm_access; leads.
Qed.
End instructions.

(** * The gas one instruction of the loop leaves

    The instructions that end a frame or write its storage, and the dispatch
    of the loop: before Amsterdam a frame that runs on after an instruction
    has less gas, and no instruction gives any. *)

(** ** Charges before Amsterdam *)

Lemma legacy_sstore_charges profile original current new_value cold costs :
  fork profile < Amsterdam → sstore_costs profile original current new_value cold = Ok costs →
  100 <= costs.(execution) ∧ costs.(state_charge) = 0 ∧ costs.(state_credit) = 0.
Proof.
  intros Hf. unfold sstore_costs, amsterdam. rewrite (proj2 (Z.leb_gt _ _) Hf).
  unfold legacy_sstore_costs. intros (clear & _ & Hc)%bind_Ok.
  unfold sstore_result in Hc. apply bind_Ok in Hc as (e & [-> ?]%BoundedUint_inv & Hc).
  apply bind_Ok in Hc as (c & [-> _]%BoundedUint_inv & Hc).
  apply bind_Ok in Hc as (d & [-> _]%BoundedUint_inv & Hc).
  unfold validated in Hc. case_match; [|done]. injection Hc as <-. cbn.
  split; [|done]. assert (100 <= G_sset ∧ 100 <= G_sreset ∧ 100 <= G_warm_access ∧
    0 <= G_cold_sload ∧ 0 <= GAS_CONSTANT_ZERO) by (by vm_compute).
  repeat case_match; lia.
Qed.

Lemma no_state_charge g s p : charge_state_gas g s p 0 = Ok (false, g, s, p).
Proof. done. Qed.

(** The profile and the frames of an observation. *)
Definition profile_seen (o : observation) : ProtocolProfileFields :=
  o.1.(k_execution_profile).(protocol).
Definition legacy (o : observation) : Prop := fork (profile_seen o) < Amsterdam.

Lemma legacy_leb o : legacy o → (Amsterdam <=? fork (profile_seen o)) = false.
Proof. by apply Z.leb_gt. Qed.
Lemma legacy_ltb o : legacy o → (fork (profile_seen o) <? Amsterdam) = true.
Proof. by apply Z.ltb_lt. Qed.

Section endings.
Context `{Keccak} `{StateTrie}.
Context (Haccount : ∀ r k, stable spec_frames (stateless_account_by_key r k)).
Context (Hstorage : ∀ r k, stable spec_frames (stateless_storage_by_key r k)).
#[local] Hint Resolve Haccount Hstorage : stable.
Context (o : observation) (Ho : legacy o) (g : Z) (Hg : 0 <= g).

Lemma execute_return_ok base sp memory : leads o (execute_return base g sp memory) (return_ok o g).
Proof using Hg.
  unfold execute_return. apply leads_with_stack; [intros ?; gas_done|].
  leads.
Qed.

Lemma execute_revert_ok reservoir base s p sp memory :
  leads o (execute_revert reservoir base g s p sp memory) (revert_ok o g).
Proof using Hg Ho.
  unfold execute_revert. apply leads_with_stack; [intros ?; gas_done|].
  do 4 leads_step. apply leads_with_memory; [done|gas_done|]. intros g' access memory' ?.
  apply leads_profile. fold (profile_seen o). rewrite legacy_leb by done.
  apply leads_known. leads_step. apply leads_ret. gas_done.
Qed.

Lemma execute_sstore_ok a fork is_static s p refund sp :
  fork < Amsterdam →
  leads o (execute_sstore a fork is_static g s p refund sp) (sstore_ok o g).
Proof using All.
  intros Hf. unfold execute_sstore. apply leads_with_stack; [intros ?; gas_done|].
  unfold guard_static. destruct is_static; cbn [guarded]; [apply leads_ret; gas_done|].
  rewrite (proj2 (Z.leb_gt _ _) Hf), (proj2 (Z.ltb_lt _ _) Hf). cbn [andb].
  apply leads_if; intros Hs; [apply leads_ret; gas_done|].
  do 8 leads_step. apply leads_profile. apply leads_outcome.
  intros costs (Hc & Hcharge & Hcredit)%legacy_sstore_charges; [|done].
  rewrite Hcredit. cbn [Z.eqb negb].
  apply leads_known. apply leads_charge_sub; [gas_done|]. intros g' ? ? ?.
  rewrite Hcharge, no_state_charge. apply leads_outcome. intros r [= <-].
  apply leads_skip; [stable|]. intros refund'. leads_step. apply leads_ret. gas_done.
Qed.

Lemma selfdestruct_legacy_ok a beneficiary fork s p refund sp :
  leads o (selfdestruct_legacy a beneficiary fork g s p refund sp) (destruct_ok o g).
Proof using Hg Haccount Hstorage.
  assert (0 <= G_selfdestruct ∧ 0 <= G_newaccount ∧ 0 <= G_cold_account) as (? & ? & ?)
    by (by vm_compute).
  unfold selfdestruct_legacy. leads.
Qed.

Lemma execute_selfdestruct_ok a fork is_static s p refund sp :
  fork < Amsterdam →
  leads o (execute_selfdestruct a fork is_static g s p refund sp) (destruct_ok o g).
Proof using Hg Haccount Hstorage.
  intros Hf. unfold execute_selfdestruct. apply leads_with_stack; [intros ?; gas_done|].
  unfold guard_static. destruct is_static; cbn [guarded]; [apply leads_ret; gas_done|].
  rewrite (proj2 (Z.leb_gt _ _) Hf). do 3 leads_step. apply selfdestruct_legacy_ok.
Qed.
End endings.

(** ** The dispatch of the loop *)

Definition step_ok (o : observation) (g : Z) (r : StepResult) (o' : observation) : Prop :=
  o' = o ∧ gas_step g r.1.1.1.1.1.1.2 (is_running r.2).

Lemma running_goes_on st : is_running (opcode_frame_status st) = goes_on st.
Proof. by destruct st. Qed.

Section dispatch.
Context (f : FrameTransition) (o : observation).

Lemma finish_op_ok m : leads o m (op_ok o f.(ft_gas)) → leads o (finish_op f m) (step_ok o f.(ft_gas)).
Proof.
  intros Hm. eapply leads_bind; [apply Hm|]. intros [[g sp] st] o' [-> Hg].
  apply leads_ret. split; [done|]. cbn in *. by rewrite running_goes_on.
Qed.
Lemma finish_mem_ok m : leads o m (mem_ok o f.(ft_gas)) → leads o (finish_mem f m) (step_ok o f.(ft_gas)).
Proof.
  intros Hm. eapply leads_bind; [apply Hm|]. intros [[[g sp] mem] st] o' [-> Hg].
  apply leads_ret. split; [done|]. cbn in *. by rewrite running_goes_on.
Qed.
Lemma finish_jump_ok m :
  leads o m (jump_ok o f.(ft_gas)) → leads o (finish_jump f m) (step_ok o f.(ft_gas)).
Proof.
  intros Hm. eapply leads_bind; [apply Hm|]. intros [[[pc g] sp] st] o' [-> Hg].
  apply leads_ret. split; [done|]. cbn in *. by rewrite running_goes_on.
Qed.
End dispatch.

Section instruction.
Context `{Keccak} `{StateTrie}.
Context (Haccount : ∀ r k, stable spec_frames (stateless_account_by_key r k)).
Context (Hstorage : ∀ r k, stable spec_frames (stateless_storage_by_key r k)).
#[local] Hint Resolve Haccount Hstorage : stable.
Context (o : observation) (Ho : legacy o).
Context (f : FrameTransition) (Hg : 0 <= f.(ft_gas)).
Context (fork blob_fee : Z) (context : address) (Hfork : fork < Amsterdam).

Ltac op_rule :=
  match goal with
  | |- leads _ (unary_op _ _ _ _) _ => apply unary_ok
  | |- leads _ (binary_op _ _ _ _) _ => apply binary_ok
  | |- leads _ (ternary_op _ _ _ _) _ => apply ternary_ok
  | |- leads _ (execute_exp _ _) _ => apply exp_ok
  | |- leads _ (constant_op _ _ _ _) _ => apply constant_ok
  | |- leads _ (lookup_op _ _ _ _) _ => apply lookup_ok
  | |- leads _ (execute_msize _ _ _) _ => apply msize_ok
  | |- leads _ (execute_gas _ _) _ => apply execute_gas_ok
  | |- leads _ (execute_pop _ _) _ => apply pop_ok
  | |- leads _ (execute_push _ _ _ _) _ => apply push_ok
  | |- leads _ (dup_at _ _ _) _ => apply dup_ok
  | |- leads _ (exchange_at _ _ _ _) _ => apply exchange_ok
  | |- leads _ (execute_dupn _ _ _) _ => apply dupn_ok
  | |- leads _ (execute_swapn _ _ _) _ => apply swapn_ok
  | |- leads _ (execute_exchange _ _ _) _ => apply execute_exchange_ok
  | |- leads _ (execute_jump _ _ _ _) _ => apply jump_op_ok
  | |- leads _ (execute_jumpi _ _ _ _) _ => apply jumpi_op_ok
  | |- leads _ (execute_pc _ _ _) _ => apply pc_op_ok
  | |- leads _ (execute_keccak256 _ _ _ _) _ => apply keccak_ok
  | |- leads _ (copy_op _ _ _ _ _ _) _ => apply copy_ok
  | |- leads _ (execute_returndatacopy _ _ _ _ _) _ => apply returndatacopy_ok
  | |- leads _ (execute_mload _ _ _ _) _ => apply mload_ok
  | |- leads _ (store_op _ _ _ _ _ _) _ => apply store_ok
  | |- leads _ (execute_mcopy _ _ _ _) _ => apply mcopy_ok
  | |- leads _ (execute_log _ _ _ _ _ _ _) _ => apply log_ok
  | |- leads _ (account_op account_cost _ _ _ _) _ => apply account_op_ok
  | |- leads _ (account_op code_access_cost _ _ _ _) _ => apply code_account_op_ok
  | |- leads _ (execute_extcodecopy _ _ _ _) _ => apply extcodecopy_ok
  | |- leads _ (execute_sload _ _ _) _ => apply sload_ok
  | |- leads _ (execute_tstore _ _ _ _) _ => apply tstore_ok
  | |- leads _ ?m _ => let h := stable_head m in unfold h; op_rule
  end.
Ltac instruction_rule :=
  lazymatch goal with
  | |- leads _ (finish_op _ _) _ => apply finish_op_ok; op_rule
  | |- leads _ (finish_mem _ _) _ => apply finish_mem_ok; op_rule
  | |- leads _ (finish_jump _ _) _ => apply finish_jump_ok; op_rule
  | |- leads _ (of_outcome fatal_error) _ => apply leads_fatal
  end.
Ltac op_side :=
  lazymatch goal with
  | |- 0 <= ft_gas _ => assumption
  | |- _ <= _ => by vm_compute
  | |- leads _ _ _ => idtac
  | |- _ => intros; stable
  end.

Lemma jumpdest_ok : leads o (finish_gas f (execute_jumpdest f.(ft_gas))) (step_ok o f.(ft_gas)).
Proof using Hg.
  apply finish_op_ok, leads_ret. unfold execute_jumpdest.
  destruct (Z.ltb_spec f.(ft_gas) G_jumpdest); gas_done.
Qed.

Lemma execute_instruction_ok instruction :
  (∀ n, instruction = LOG n → 0 <= n) →
  leads o (execute_instruction fork blob_fee context f instruction) (step_ok o f.(ft_gas)).
Proof using All.
  intros Hlog. destruct instruction; cbn [execute_instruction]; unfold simple, on_memory;
    try (instruction_rule; op_side).
  - apply leads_ret. split; [done|]. by split; cbn; [lia|intros [=]].
  - eapply leads_bind; [by apply execute_sstore_ok|].
    intros [[[[[? ?] ?] ?] ?] ?] o' [-> Hr]. apply leads_ret. split; [done|].
    cbn in *. by rewrite running_goes_on.
  - apply jumpdest_ok.
  - by apply finish_mem_ok, log_ok; [|apply Hlog].
  - eapply leads_bind; [by apply execute_return_ok|].
    intros [[[? ?] ?] ?] o' [-> Hr]. by apply leads_ret.
  - eapply leads_bind; [by apply execute_revert_ok|].
    intros [[[[[? ?] ?] ?] ?] ?] o' [-> Hr]. by apply leads_ret.
  - apply finish_op_ok, leads_ret. split; [done|]. by split; cbn; [lia|intros [=]].
  - eapply leads_bind; [by apply execute_selfdestruct_ok|].
    intros [[[[[? ?] ?] ?] ?] ?] o' [-> Hr]. by apply leads_ret.
Qed.
End instruction.
