(* ===== verification/FrameLoop.v ===== *)
(** * FrameLoop: calls, creations and returns against the gas of the call tree

    The gas of a call tree is what the running frame has with what the
    suspended ones keep. A call or a creation that is entered leaves less of
    it, for the callee and the caller together, and a return gives none back. *)
From Stdlib Require Import ZArith Lia.
From stdpp Require Import base tactics option list gmap.
From S2P Require Import Prelude PyBytes SailRuntime HostTypes Words ChainConfig Regions RegionAccess Gas GasSchedule Crypto Storage Accounts WarmLogs Journal CodeDb Bal Accelerators AccelTheorems Secp256k1 OperandStack Environment Scratch Rlp Kernel Machine Instructions Execute Precompiles Interpreter StackMachine Stable FrameGas.
Local Open Scope Z_scope.

(** ** Suspended frames *)

Definition checkpoint_of (k : FrameContinuation) : option (FrameCheckpoint * bool) :=
  match k with
  | Empty => None
  | ResumeCall c => Some (c.(cc_checkpoint), c.(cc_new_account_charged))
  | ResumeCreate c => Some (c.(crc_checkpoint), c.(crc_new_account_charged))
  end.

Definition continuation_gas (k : FrameContinuation) : Z :=
  match checkpoint_of k with Some (c, _) => c.(fc_gas_remaining) | None => 0 end.

(** A frame suspended before Amsterdam: running, with gas, no state charge. *)
Definition continuation_ok (k : FrameContinuation) : Prop :=
  match checkpoint_of k with
  | Some (c, charged) => charged = false ∧ 0 <= c.(fc_gas_remaining) ∧ c.(fc_status) = Running
  | None => False
  end.

Fixpoint frames_gas (l : list FrameContinuation) : Z :=
  match l with [] => 0 | k :: l' => continuation_gas k + frames_gas l' end.

Lemma frames_gas_app l1 l2 : frames_gas (l1 ++ l2) = frames_gas l1 + frames_gas l2.
Proof. induction l1; cbn; lia. Qed.
Lemma frames_gas_nonneg l : Forall continuation_ok l → 0 <= frames_gas l.
Proof.
  induction 1 as [|k l Hk _ IH]; cbn; [done|].
  unfold continuation_ok, continuation_gas in *. destruct (checkpoint_of k) as [[c b]|]; lia.
Qed.

(** ** Transitions *)

Lemma validated_inv {A} b (a a' : A) : validated b a = Ok a' → a' = a.
Proof. unfold validated. destruct b; [by intros [= <-]|done]. Qed.
Lemma Uint_inv v w : Uint v = Ok w → w = v ∧ 0 <= v.
Proof. unfold Uint. case_match; [|done]. intros [= <-]. lia. Qed.

Lemma frame_transition_inv f t : frame_transition f = Ok t → t = f ∧ 0 <= f.(ft_gas).
Proof.
  unfold frame_transition. intros (pc & [-> _]%Uint_inv & E)%bind_Ok.
  apply bind_Ok in E as (g & [-> ?]%gas_inv & E). apply bind_Ok in E as (s & [-> _]%gas_inv & E).
  apply bind_Ok in E as (p & [-> _]%BoundedUint_inv & E).
  apply bind_Ok in E as (b & [-> _]%Uint_inv & E). apply bind_Ok in E as (h & [-> _]%Uint_inv & E).
  apply validated_inv in E as ->. split; [by destruct f|]. unfold is_gas_amount in *. lia.
Qed.

Lemma adopt_inv t t' : adopt t = Ok t' →
  0 <= t.(ft_gas) ∧ t'.(ft_gas) = t.(ft_gas) ∧ t'.(ft_status) = t.(ft_status).
Proof.
  unfold adopt. intros (u & [-> ?]%frame_transition_inv & (m & _ & [= <-])%bind_Ok)%bind_Ok.
  done.
Qed.

Lemma refund_gas_inv g amount v : refund_gas g amount = Ok v → v = g + amount ∧ 0 <= v.
Proof.
  unfold refund_gas, conserved_gas_add. intros (w & Hw & [-> ?]%gas_inv)%bind_Ok.
  case_match; [|done]. apply gas_inv in Hw as [-> ?]. unfold is_gas_amount in *. lia.
Qed.

(** ** A charge is never negative *)

Definition priced (c : outcome GasCharge) : Prop := ∀ k, c = Ok k → 0 <= k.(cost).
Definition yields {S A} (P : A → Prop) (m : M S A) : Prop := ∀ s a s', m s = (Ok a, s') → P a.

Lemma gas_charge_priced c : priced (gas_charge c).
Proof. intros k (v & [-> ?]%BoundedUint_inv & [= <-])%bind_Ok. cbn. lia. Qed.
Lemma unaffordable_priced : priced unaffordable.
Proof. by intros k [= <-]. Qed.
Lemma priced_bind {B} (x : outcome B) f : (∀ b, priced (f b)) → priced (x ≫= f).
Proof. intros Hf k (b & _ & Hk)%bind_Ok. by apply (Hf b). Qed.
Lemma yields_bind {S A B} (P : A → Prop) (m : M S B) f : (∀ b, yields P (f b)) → yields P (m ≫= f).
Proof. intros Hf s a s' (b & s1 & _ & H2)%runs_bind. by eapply (Hf b). Qed.
Lemma yields_priced {S} c : priced c → yields (λ k, 0 <= k.(cost)) (of_outcome c : M S GasCharge).
Proof. intros Hc s a s' [= E _]. auto. Qed.
#[local] Hint Resolve gas_charge_priced unaffordable_priced : core.

Ltac priced :=
  repeat match goal with
  | |- ∀ _, _ => intro
  | |- priced _ => solve [auto]
  | |- priced (_ ≫= _) => apply priced_bind
  | |- priced (if ?b then _ else _) => destruct b
  | |- priced (let '_ := ?x in _) => destruct x
  | |- priced (match ?x with _ => _ end) => destruct x
  | |- priced ?m => let h := stable_head m in unfold h
  | |- yields _ (of_outcome _) => apply yields_priced
  | |- yields _ (_ ≫= _) => apply yields_bind
  | |- yields _ (if ?b then _ else _) => destruct b
  | |- yields _ (let '_ := ?x in _) => destruct x
  | |- yields _ ?m => let h := stable_head m in unfold h
  end.

Lemma precompile_gas_priced profile num input available :
  yields (λ k, 0 <= k.(cost)) (precompile_gas profile num input available).
Proof.
  unfold precompile_gas. do 2 (apply yields_bind; intros ?). cbv zeta.
  destruct num; priced.
Qed.

(** ** Where a call or a creation goes *)

(** The frame goes on with at most [b], or fails with nothing, or is suspended
    under a frame it shares at most [b] with. *)
Definition moved (o : observation) (b : Z) (t : FrameTransition) (o' : observation) : Prop :=
  o'.1 = o.1 ∧ 0 <= t.(ft_gas) ∧
  ((o'.2 = o.2 ∧ is_running t.(ft_status) = false ∧ t.(ft_gas) = 0) ∨
   (o'.2 = o.2 ∧ t.(ft_gas) <= b) ∨
   (∃ k, o'.2 = o.2 ++ [k] ∧ continuation_ok k ∧ is_running t.(ft_status) = true ∧
         continuation_gas k + t.(ft_gas) <= b)).

Section moves.
Context (o : observation) (b : Z).

Lemma leave_moved f g s p status sp memory message returndata :
  g <= b → leads o (leave f g s p status sp memory message returndata) (moved o b).
Proof.
  intros Hg st t st' <- E. injection E as E <-. apply frame_transition_inv in E as [-> Hge].
  split; [done|]. split; [done|]. right; left. done.
Qed.

Lemma exceptional_state_leads {A} s p reservoir kind (k : ExceptionalStateTransition → M SpecState A) Q :
  (∀ ex, ex.(ex_status) = Exceptional kind → leads o (k ex) Q) →
  leads o (exceptional_state s p reservoir kind ≫= k) Q.
Proof.
  intros Hk. eapply (leads_bind _ _ (λ ex o', o' = o ∧ ex.(ex_status) = Exceptional kind)).
  - unfold exceptional_state. apply leads_profile. apply leads_if; intros _; by apply leads_ret.
  - intros ex o' [-> Hex]. auto.
Qed.

Lemma failing_moved f s p sp memory message returndata kind :
  leads o (failing f s p sp memory message returndata kind) (moved o b).
Proof.
  apply exceptional_state_leads. intros ex Hex st t st' <- E. injection E as E <-.
  apply frame_transition_inv in E as [-> Hge].
  split; [done|]. split; [done|]. left. cbn [ft_status ft_gas]. by rewrite Hex.
Qed.

Lemma call_not_entered_moved f g s p sp memory message :
  g <= b → leads o (call_not_entered f g s p false sp memory message) (moved o b).
Proof.
  intros ?. unfold call_not_entered. cbv zeta.
  apply leads_known. leads_step. by apply leave_moved.
Qed.

Lemma pushes_zero_moved f g s p sp memory message :
  g <= b → leads o (pushes_zero f g s p sp memory message) (moved o b).
Proof. intros ?. unfold pushes_zero. leads_step. by apply leave_moved. Qed.
End moves.

(** What the suspension of a frame keeps of its gas. *)
Lemma suspend_frame_leads {A} o pc g sp base memory s p refund status message code calldata
    (k : FrameCheckpoint * StackPointer * Z * Z → M SpecState A) Q :
  (∀ c sp' base' h, c.(fc_gas_remaining) = g → 0 <= g → c.(fc_status) = status →
     leads o (k (c, sp', base', h)) Q) →
  leads o (suspend_frame pc g sp base memory s p refund status message code calldata ≫= k) Q.
Proof.
  intros Hk.
  eapply (leads_bind _ _ (λ r o', o' = o ∧
    r.1.1.1.(fc_gas_remaining) = g ∧ 0 <= g ∧ r.1.1.1.(fc_status) = status)).
  - unfold suspend_frame. do 3 leads_step. apply leads_outcome. intros c Hc.
    apply leads_ret. split; [done|]. cbn.
    apply bind_Ok in Hc as (? & [-> _]%Uint_inv & Hc).
    apply bind_Ok in Hc as (? & [-> ?]%gas_inv & Hc). apply bind_Ok in Hc as (? & _ & Hc).
    apply bind_Ok in Hc as (? & _ & Hc). apply bind_Ok in Hc as (? & _ & Hc).
    apply validated_inv in Hc as ->. unfold is_gas_amount in *. cbn. split_and!; done || lia.
  - intros [[[c sp'] base'] h] o' (-> & ? & ? & ?). by apply Hk.
Qed.

Lemma frame_stack_push_leads {A} o c (k : unit → M SpecState A) Q :
  leads (o.1, o.2 ++ [c]) (k tt) Q → leads o (on_host (frame_stack_push c) ≫= k) Q.
Proof.
  intros Hk. eapply (leads_bind _ _ (λ _ o', o' = (o.1, o.2 ++ [c]))).
  - by intros s [] s' <- [= <-].
  - by intros [] o' ->.
Qed.

Lemma entered_moved o b c g f t :
  frame_transition f = Ok t → continuation_ok c → f.(ft_status) = Running →
  f.(ft_gas) = g → continuation_gas c + g <= b →
  moved o b t (o.1, o.2 ++ [c]).
Proof.
  intros [-> Hge]%frame_transition_inv Hc Hst <- Hb. split_and!; cbn; [done|done|].
  right; right. exists c. by rewrite Hst.
Qed.

(** ** Calls *)

Section calls.
Context `{Keccak} `{StateTrie} `{AccelLib}.
Context (Haccount : ∀ r k, stable spec_frames (stateless_account_by_key r k)).
Context (Hstorage : ∀ r k, stable spec_frames (stateless_storage_by_key r k)).
#[local] Hint Resolve Haccount Hstorage : stable.

Lemma run_precompile_stable selected input :
  stable spec_frames (run_precompile_slice selected input).
Proof using. destruct selected; stable.
Qed.
#[local] Hint Resolve run_precompile_stable : stable.

Lemma precompile_charge_leads {A} o profile selected input available
    (k : GasCharge → M SpecState A) Q :
  (∀ c, 0 <= c.(cost) → leads o (k c) Q) →
  leads o (zoom (precompile_gas profile selected input available) ≫= k) Q.
Proof using.
  intros Hk. eapply (leads_bind _ _ (λ c o', o' = o ∧ 0 <= c.(cost))).
  - intros s c s' <- E. split.
    + eapply (spec_zoom (precompile_gas profile selected input available)); [stable|done].
    + rewrite zoom_run in E. injection E as E _. eapply precompile_gas_priced.
      by rewrite (surjective_pairing (precompile_gas _ _ _ _ _)), E.
  - intros c o' [-> ?]. auto.
Qed.

Lemma call_precompile_moved o b f semantics ops selected args ret mem1 g s p child_gas sp message :
  0 <= child_gas → g + child_gas <= b →
  leads o (call_precompile f semantics ops selected args ret mem1 g s p child_gas false sp message)
    (moved o b).
Proof using Haccount.
  intros ? ?. assert (g <= b) by lia. unfold call_precompile. do 2 leads_step. cbv zeta beta.
  apply precompile_charge_leads. intros c Hc. apply leads_if; intros _;
    [|by apply call_not_entered_moved].
  leads_step. apply leads_if; intros _; [|by apply call_not_entered_moved].
  do 3 leads_step. apply leads_outcome.
  intros g' (unused & (? & Hle & Hgt)%gas_sub_inv & [-> ?]%refund_gas_inv)%bind_Ok.
  leads_step. apply leave_moved. destruct (Z.le_gt_cases c.(cost) child_gas);
    [rewrite Hle by done|rewrite Hgt by done]; lia.
Qed.

Lemma call_enter_moved o b f semantics ops delegation args ret mem1 g s p child_gas sp message :
  g + child_gas <= b →
  leads o (call_enter f semantics ops delegation args ret mem1 g s p child_gas false sp message)
    (moved o b).
Proof using Haccount.
  intros ?. unfold call_enter. cbv zeta. do 3 leads_step. apply suspend_frame_leads.
  intros c sp' base' h Hc Hg Hst. apply leads_outcome. intros k Hk.
  apply bind_Ok in Hk as (off & _ & (len & _ & [= <-])%bind_Ok).
  apply frame_stack_push_leads. do 2 leads_step.
  intros st t st' Hs E. injection E as E <-. rewrite Hs.
  eapply entered_moved; [done|by rewrite <-Hc in Hg|done|done|].
  unfold continuation_gas. cbn. lia.
Qed.

Definition stipend_of (ops : CallOperands) : Z :=
  if word_nonzero ops.(call_value) then G_callstipend else GAS_ZERO.
Lemma stipend_nonneg ops : 0 <= stipend_of ops.
Proof using. unfold stipend_of. by case_match. Qed.

Lemma gas_credit_inv g c v : conserved_gas_add g c = Ok v → v = g + c ∧ 0 <= v.
Proof using.
  unfold conserved_gas_add. case_match; [|done]. intros [-> ?]%gas_inv.
  unfold is_gas_amount in *. lia.
Qed.

Lemma call_paid_moved o b f semantics ops delegation g s p base_child sp message :
  0 <= g → g + base_child + stipend_of ops <= b →
  leads o (call_paid f semantics ops delegation g s p base_child false sp message) (moved o b).
Proof using Haccount.
  intros ? ?. unfold call_paid. cbv zeta. fold (stipend_of ops).
  do 5 leads_step. apply leads_outcome. intros child_gas [-> ?]%gas_credit_inv.
  do 2 leads_step. apply leads_if; intros _.
  - apply leads_outcome. intros g' [-> ?]%refund_gas_inv. apply call_not_entered_moved. lia.
  - leads_step. cbv zeta. apply leads_if; intros _;
      [apply call_precompile_moved|apply call_enter_moved]; lia.
Qed.

(** A transfer costs more than the stipend it grants. *)
Lemma transfer_cost_leads {A} o ops profile (k : Z → M SpecState A) Q :
  (∀ c, stipend_of ops <= c → leads o (k c) Q) →
  leads o ((if word_nonzero ops.(call_value) then of_outcome (call_value_cost profile)
            else mret GAS_CONSTANT_ZERO) ≫= k) Q.
Proof using.
  unfold stipend_of. intros Hk. destruct (word_nonzero _).
  - apply leads_outcome. intros c Hc. apply Hk. unfold call_value_cost, gas_constant in Hc.
    apply BoundedUint_inv in Hc as [-> ?]. by case_match.
  - apply leads_known. by apply Hk.
Qed.

Lemma delegation_cost_leads {A} o (b : bool) a profile (k : Z → M SpecState A) Q :
  (∀ c, 0 <= c → leads o (k c) Q) →
  leads o ((if b then dw ← k_account_is_warm a; of_outcome (account_cost profile dw)
            else mret GAS_CONSTANT_ZERO) ≫= k) Q.
Proof using.
  intros Hk. eapply (leads_bind _ _ (λ c o', o' = o ∧ 0 <= c)); [|by intros c o' [-> ?]; auto].
  destruct b; [|by apply leads_ret].
  leads_step. intros s c s' <- E. injection E as E <-. apply account_cost_pos in E. split; [done|lia].
Qed.

Lemma call_gas_cap_nonneg g request v :
  (c ← call_gas_cap_word g request; gas c) = Ok v → 0 <= v.
Proof using. intros (c & _ & [-> ?]%gas_inv)%bind_Ok. unfold is_gas_amount in *. lia. Qed.

Lemma call_charges_moved o f semantics ops sp message :
  legacy o → 0 <= f.(ft_gas) →
  leads o (call_charges f semantics ops sp message) (moved o (f.(ft_gas) - 100)).
Proof using Haccount.
  intros Ho Hg. unfold call_charges. cbv zeta. apply leads_profile. fold (profile_seen o).
  rewrite legacy_leb by done. cbn [andb]. leads_step.
  apply leads_outcome. intros target_cost ?%account_cost_pos.
  apply transfer_cost_leads. intros transfer_cost ?. pose proof (stipend_nonneg ops).
  do 2 leads_step. eapply leads_afford_or; [by apply memory_expansion_charges|apply failing_moved|].
  intros g1 ?. apply leads_charge_or; [apply failing_moved|]. intros g2 ? -> ?.
  do 2 leads_step. apply delegation_cost_leads. intros delegation_cost ?. leads_step.
  set (create_cost := if _ : bool then _ else _).
  assert (0 <= create_cost) by (subst create_cost; by case_match). clearbody create_cost.
  apply leads_charge_or; [apply failing_moved|]. intros g3 ? -> ?.
  apply leads_known. apply leads_outcome. intros base_child ?%call_gas_cap_nonneg.
  apply leads_charge_or; [apply failing_moved|]. intros g4 ? -> ?.
  apply call_paid_moved; lia.
Qed.

Lemma run_call_moved o f kind :
  legacy o → 0 <= f.(ft_gas) → leads o (run_call f kind) (moved o (f.(ft_gas) - 100)).
Proof using Haccount.
  intros Ho Hg. unfold run_call. do 2 leads_step. destruct b; [|apply failing_moved].
  cbv zeta. do 2 leads_step. apply leads_if; intros _; [apply failing_moved|].
  by apply call_charges_moved.
Qed.
End calls.

(** ** Creations *)

Section creates.
Context `{Keccak} `{StateTrie} `{AccelLib}.
Context (Haccount : ∀ r k, stable spec_frames (stateless_account_by_key r k)).
Context (Hstorage : ∀ r k, stable spec_frames (stateless_storage_by_key r k)).
#[local] Hint Resolve Haccount Hstorage : stable.

Lemma split_gas_inv avail child retained :
  0 <= avail → split_gas avail = Ok (child, retained) → 0 <= retained ∧ child + retained = avail ∧ 0 <= child.
Proof using.
  unfold split_gas. intros Ha (r & Hr & E)%bind_Ok.
  apply bind_Ok in E as (c & ([? ?] & Hle & _)%take_gas_inv & [= <- <-]).
  rewrite sail_ediv_pos in Hr by done. injection Hr as <-.
  assert (0 <= avail / 64 <= avail) by (split; [apply Z.div_pos|apply Z.div_le_upper_bound]; lia).
  rewrite Hle in * by lia. lia.
Qed.

Lemma create_enter_moved o b f v new_addr initcode mem1 g s p child_gas sp message :
  g + child_gas <= b →
  leads o (create_enter f v new_addr initcode mem1 g s p child_gas false sp message) (moved o b).
Proof using Haccount.
  intros ?. unfold create_enter. cbv zeta. do 4 leads_step. apply suspend_frame_leads.
  intros c sp' base' h Hc Hg Hst. apply frame_stack_push_leads. do 5 leads_step.
  intros st t st' Hs E. injection E as E <-. rewrite Hs.
  eapply entered_moved; [done|by rewrite <-Hc in Hg|done|done|].
  unfold continuation_gas. cbn. lia.
Qed.

Lemma create_paid_moved o b f kind v salt initcode mem1 g sp message :
  legacy o → 0 <= g <= b →
  leads o (create_paid f kind v salt initcode mem1 g sp message) (moved o b).
Proof using Haccount.
  intros Ho Hg. unfold create_paid. cbv zeta. apply leads_profile. fold (profile_seen o).
  rewrite legacy_leb, legacy_ltb by done. do 2 leads_step.
  apply leads_outcome. intros [child_gas retained] (? & ? & ?)%split_gas_inv; [|lia].
  leads_step. apply leads_if; intros _.
  - apply leads_outcome. intros g' (w & [-> ?]%refund_gas_inv & [-> ?]%gas_inv)%bind_Ok.
    apply pushes_zero_moved. lia.
  - leads_step. do 3 apply leads_known. do 2 leads_step. apply leads_if; intros _.
    + apply leads_known. apply pushes_zero_moved. lia.
    + apply create_enter_moved. lia.
Qed.

Lemma leads_afford_when {A} o (b : bool) g c (early : M SpecState A) k Q :
  0 <= g → charges 0 g c → leads o early Q → (∀ g', 0 <= g' <= g → leads o (k g') Q) →
  leads o (afford_when b g c early k) Q.
Proof using.
  intros Hg Hc He Hk. unfold afford_when. destruct b; [|apply Hk; lia].
  eapply leads_afford_or; [done|done|]. intros g' ?. apply Hk. lia.
Qed.

Lemma create_access_cost_pos profile c :
  fork profile < Amsterdam → create_access_cost profile = Ok c → 100 <= c.
Proof using.
  intros Hf. unfold create_access_cost, amsterdam, gas_constant.
  rewrite (proj2 (Z.leb_gt _ _) Hf). by intros [-> ?]%BoundedUint_inv.
Qed.

Lemma create_charges_moved o f kind v off_word len_word salt sp message :
  legacy o → 0 <= f.(ft_gas) →
  leads o (create_charges f kind v off_word len_word salt sp message) (moved o (f.(ft_gas) - 100)).
Proof using Haccount.
  intros Ho Hg. unfold create_charges. cbv zeta. apply leads_profile. fold (profile_seen o).
  leads_step. eapply leads_afford_or; [by apply memory_expansion_charges|apply failing_moved|].
  intros g1 ?. do 2 leads_step. apply leads_outcome.
  intros access_cost ?%create_access_cost_pos; [|done].
  apply leads_charge_or; [apply failing_moved|]. intros g2 ? -> ?. leads_step.
  apply leads_afford_when; [done|by apply word_scaled_charges|apply failing_moved|]. intros g3 ?.
  apply leads_afford_when; [lia|apply word_scaled_charges; lia|apply failing_moved|]. intros g4 ?.
  apply leads_if; intros _; [apply failing_moved|]. apply create_paid_moved; [done|lia].
Qed.

Lemma run_create_moved o f kind :
  legacy o → 0 <= f.(ft_gas) → leads o (run_create f kind) (moved o (f.(ft_gas) - 100)).
Proof using Haccount.
  intros Ho Hg. unfold run_create. do 2 leads_step. destruct b; [|apply failing_moved].
  do 8 leads_step. apply leads_if; intros _; [apply failing_moved|].
  by apply create_charges_moved.
Qed.
End creates.

(** ** Returns *)

(** The suspended frame goes on with at most [b]. *)
Definition returned (o : observation) (b : Z) (t : FrameTransition) (o' : observation) : Prop :=
  o' = o ∧ 0 <= t.(ft_gas) <= b ∧ is_running t.(ft_status) = true.

Lemma charge_state_gas_inv g s p amount halt g' s' p' :
  0 <= g → charge_state_gas g s p amount = Ok (halt, g', s', p') → 0 <= g' <= g.
Proof.
  intros Hg. unfold charge_state_gas. case_match; [intros [= _ <- _ _]; lia|].
  destruct (Z.leb_spec amount s); [intros [= _ <- _ _]; lia|].
  destruct (Z.leb_spec (amount - s) g); [|intros [= _ <- _ _]; lia].
  intros (sp & _ & [= _ <- _ _])%bind_Ok. lia.
Qed.

Section returns.
Context `{Keccak} `{StateTrie}.
Context (Haccount : ∀ r k, stable spec_frames (stateless_account_by_key r k)).
Context (Hstorage : ∀ r k, stable spec_frames (stateless_storage_by_key r k)).
#[local] Hint Resolve Haccount Hstorage : stable.

Lemma settle_parent_leads {A} o c child_base child_gas child_state_gas child_spill
    (k : Z * Z * Z * Z → M SpecState A) Q :
  (∀ base s p, 0 <= c.(fc_gas_remaining) + child_gas →
     leads o (k (base, c.(fc_gas_remaining) + child_gas, s, p)) Q) →
  leads o (settle_parent c child_base child_gas child_state_gas child_spill ≫= k) Q.
Proof using.
  intros Hk. eapply (leads_bind _ _ (λ r o', o' = o ∧
    0 <= c.(fc_gas_remaining) + child_gas ∧ r.1.1.2 = c.(fc_gas_remaining) + child_gas)).
  - unfold settle_parent. leads_step.
    intros s r s' <- E. injection E as E <-.
    apply bind_Ok in E as (base & _ & E). apply bind_Ok in E as (g & [-> ?]%refund_gas_inv & E).
    apply bind_Ok in E as ([s1 p1] & _ & [= <-]). done.
  - intros [[[base g] s] p] o' (-> & ? & ?). cbn in *. subst g. auto.
Qed.

Lemma child_failed_leads {A} o g s p sp (k : Z * Z * Z * StackPointer → M SpecState A) Q :
  (∀ sp', leads o (k (g, s, p, sp')) Q) → leads o (child_failed false g s p sp ≫= k) Q.
Proof using.
  intros Hk. eapply (leads_bind _ _ (λ r o', o' = o ∧ r.1 = (g, s, p))).
  - unfold child_failed. leads_step. apply leads_known. leads_step. by apply leads_ret.
  - intros [r sp'] o' [-> Hr]. cbn in Hr. subst r. apply Hk.
Qed.

Lemma parent_frame_returned o b c parent_base g s p refund sp returndata :
  c.(fc_status) = Running → g <= b →
  leads o (parent_frame c parent_base g s p refund sp returndata) (returned o b).
Proof using.
  intros Hst Hg st t st' <- E. injection E as E <-. apply frame_transition_inv in E as [-> Hge].
  cbn in Hge. split; [done|]. cbn. by rewrite Hst.
Qed.

Lemma resume_call_returned o k output child_base child_gas child_state_gas child_spill child_refund
    child_status :
  continuation_ok (ResumeCall k) →
  leads o (resume_call k output child_base child_gas child_state_gas child_spill child_refund
             child_status) (returned o (continuation_gas (ResumeCall k) + child_gas)).
Proof using.
  intros (Hc & Hg & Hst). unfold resume_call. cbv zeta. apply settle_parent_leads.
  intros base s p ?. do 2 leads_step. apply leads_if; intros _.
  - do 3 leads_step. by apply parent_frame_returned.
  - rewrite Hc. apply child_failed_leads. intros sp'. by apply parent_frame_returned.
Qed.

Lemma settle_failed_leads o s p reservoir b :
  0 <= b → leads o (settle_failed s p reservoir) (λ r o', o' = o ∧ 0 <= r.(se_gas) <= b).
Proof using.
  intros ?. apply exceptional_state_leads. intros ex _. by apply leads_ret.
Qed.

Lemma code_deployment_priced profile len available :
  priced (code_deployment_execution_cost profile len available).
Proof using. unfold code_deployment_execution_cost. priced. Qed.

Lemma settle_child_leads o output g s p status reservoir :
  0 <= g →
  leads o (settle_child output g s p status reservoir) (λ r o', o' = o ∧ 0 <= r.(se_gas) <= g).
Proof using.
  intros Hg. unfold settle_child. do 2 leads_step. apply leads_if; intros _; [|by apply leads_ret].
  leads_step. apply leads_if; intros _; [by apply settle_failed_leads|].
  apply leads_outcome. intros c Hc. apply code_deployment_priced in Hc.
  apply leads_if; intros _; [|apply leads_if; intros _; [by apply leads_ret|by apply settle_failed_leads]].
  apply leads_outcome. intros g' ([? _] & Hle & Hgt)%take_gas_inv.
  assert (0 <= g' <= g) by (destruct (Z.le_gt_cases c.(cost) g); [rewrite Hle by done|rewrite Hgt by done]; lia).
  leads_step. apply leads_outcome. intros [[[halt g2] s2] p2] ?%charge_state_gas_inv; [|lia].
  apply leads_if; intros _; [by apply settle_failed_leads|apply leads_ret]. split; [done|]. cbn. lia.
Qed.

Lemma resume_create_returned o k output child_base child_gas child_state_gas child_spill child_refund
    child_status reservoir :
  continuation_ok (ResumeCreate k) → 0 <= child_gas →
  leads o (resume_create k output child_base child_gas child_state_gas child_spill child_refund
             child_status reservoir) (returned o (continuation_gas (ResumeCreate k) + child_gas)).
Proof using Haccount.
  intros (Hc & Hg & Hst) Hchild. unfold resume_create. cbv zeta.
  eapply leads_bind; [by apply settle_child_leads|]. intros se o' (-> & Hse).
  apply settle_parent_leads. intros base s p ?.
  apply leads_if; intros _.
  - do 6 leads_step. apply parent_frame_returned; [done|]. unfold continuation_gas. cbn. lia.
  - rewrite Hc. apply child_failed_leads. intros sp'. apply parent_frame_returned; [done|].
    unfold continuation_gas. cbn. lia.
Qed.

Lemma resume_frame_returned o k output child_base child_gas child_state_gas child_spill child_refund
    child_status reservoir :
  continuation_ok k → 0 <= child_gas →
  leads o (resume_frame k output child_base child_gas child_state_gas child_spill child_refund
             child_status reservoir) (returned o (continuation_gas k + child_gas)).
Proof using Haccount.
  intros Hk ?. destruct k as [|k|k]; [done| |]; cbn [resume_frame].
  - by apply resume_call_returned.
  - by apply resume_create_returned.
Qed.
End returns.

(** * The interpreter stops within its call-tree steps

    Every turn of the loop lowers three times the gas of the call tree plus
    two for each suspended frame plus one while the frame runs. So the loop
    ends within [3 * gas + 2] turns, the bound the source writes beside it as
    [call_tree_steps_remaining], and the gas it returns is no more than it
    was given. *)

Definition tree_gas (f : FrameTransition) (l : list FrameContinuation) : Z :=
  f.(ft_gas) + frames_gas l.
Definition weight (f : FrameTransition) (l : list FrameContinuation) : Z :=
  3 * tree_gas f l + 2 * Z.of_nat (length l) + (if is_running f.(ft_status) then 1 else 0).

(** What holds at the head of the loop. *)
Definition tree_ok (f : FrameTransition) (l : list FrameContinuation) : Prop :=
  0 <= f.(ft_gas) ∧ Forall continuation_ok l.

(** A turn that goes on. *)
Definition turned (f : FrameTransition) (o : observation) (t : FrameTransition) (o' : observation) :
    Prop :=
  o'.1 = o.1 ∧ tree_ok t o'.2 ∧ tree_gas t o'.2 <= tree_gas f o.2 ∧ weight t o'.2 < weight f o.2.

Lemma weight_nonneg f l : tree_ok f l → 0 <= weight f l.
Proof.
  intros [Hg Hl]. pose proof (frames_gas_nonneg _ Hl). unfold weight, tree_gas.
  destruct (is_running _); lia.
Qed.

Lemma moved_turned f o b t o' :
  tree_ok f o.2 → is_running f.(ft_status) = true → b < f.(ft_gas) →
  moved o b t o' → turned f o t o'.
Proof.
  intros [Hg Hl] Hr Hb (He & Ht & Hm). unfold turned, tree_ok, weight, tree_gas. rewrite Hr.
  destruct Hm as [(-> & Hs & Hz)|[(-> & Hs)|(k & -> & Hk & Hs & Hsum)]].
  - rewrite Hs. split_and!; done || lia.
  - split_and!; [done|done|done|lia|]. destruct (is_running t.(ft_status)); lia.
  - rewrite frames_gas_app, length_app. cbn [frames_gas length]. rewrite Hs.
    split_and!; [done|done| |lia|lia]. apply Forall_app. by split; [|constructor].
Qed.

Lemma stepped_turned f o t :
  tree_ok f o.2 → is_running f.(ft_status) = true → gas_step f.(ft_gas) t.(ft_gas) (is_running t.(ft_status)) →
  turned f o t o.
Proof.
  intros [Hg Hl] Hr [Ht Hlt]. unfold turned, tree_ok, weight, tree_gas. rewrite Hr.
  split_and!; [done|lia|done|lia|]. destruct (is_running t.(ft_status)); [specialize (Hlt eq_refl)|]; lia.
Qed.

Lemma returned_turned f o l k t o' :
  tree_ok f (l ++ [k]) → o.2 = l ++ [k] → is_running f.(ft_status) = false →
  returned (o.1, l) (continuation_gas k + f.(ft_gas)) t o' → turned f o t o'.
Proof.
  intros [Hg [Hl Hk]%Forall_app] Ho Hr (-> & Ht & Hs). unfold turned, tree_ok, weight, tree_gas.
  rewrite Hr, Hs, Ho, frames_gas_app, length_app. cbn [frames_gas length fst snd].
  split_and!; done || lia.
Qed.

Lemma returned_adopted o b t o' t' : returned o b t o' → adopt t = Ok t' → returned o b t' o'.
Proof. intros Hm (_ & Hg & Hs)%adopt_inv. unfold returned in *. by rewrite Hg, Hs. Qed.

Lemma moved_adopted o b t o' t' : moved o b t o' → adopt t = Ok t' → moved o b t' o'.
Proof. intros Hm (_ & Hg & Hs)%adopt_inv. unfold moved in *. by rewrite Hg, Hs. Qed.

Section turns.
Context `{Keccak} `{StateTrie} `{AccelLib}.
Context (Haccount : ∀ r k, stable spec_frames (stateless_account_by_key r k)).
Context (Hstorage : ∀ r k, stable spec_frames (stateless_storage_by_key r k)).
#[local] Hint Resolve Haccount Hstorage : stable.
Context (fork blob_fee : Z) (Hfork : fork < Amsterdam).

Lemma enter_frame_leads o f context m Q :
  leads o m Q → (∀ t t' o', Q t o' → adopt t = Ok t' → Q t' o') →
  leads o (enter_frame f context m) (λ r o', Q r.1 o').
Proof using.
  intros Hm Ha. eapply leads_bind; [apply Hm|]. intros t o' Ht.
  apply leads_outcome. intros t' Ht'. apply leads_ret. cbn. eauto.
Qed.

Lemma decode_log opcode n : decode_simple opcode fork = LOG n → 0 <= n.
Proof using.
  unfold decode_simple. destruct (negb _); [done|]. destruct (_ && _); [done|].
  destruct (_ && _); [done|]. destruct (Z.leb_spec 160 opcode); cbn [andb].
  - destruct (_ <=? _); [intros [= <-]; lia|]. intros Hn.
    exfalso. revert Hn. unfold simple_opcodes. cbn [opcode_lookup]. by repeat case_match.
  - intros Hn. exfalso. revert Hn. unfold simple_opcodes. cbn [opcode_lookup]. by repeat case_match.
Qed.

Lemma fetch_leads {A} o code pc (k : Z * ast → M SpecState A) Q :
  (∀ pc' i, (∀ n, i = LOG n → 0 <= n) → leads o (k (pc', i)) Q) →
  leads o (fetch code pc fork ≫= k) Q.
Proof using.
  intros Hk. eapply (leads_bind _ _ (λ r o', o' = o ∧ ∀ n, r.2 = LOG n → 0 <= n)).
  - unfold fetch. leads_step. apply leads_if; intros _; [by apply leads_ret|]. leads_step. cbv zeta.
    apply leads_if; intros _; [by apply leads_ret|]. apply leads_if; intros _;
      [do 2 leads_step; by apply leads_ret|].
    destruct (deep_stack_operation _); try (do 2 leads_step; by apply leads_ret).
    apply leads_ret. split; [done|]. cbn. intros n. apply decode_log.
  - intros [pc' i] o' [-> Hi]. by apply Hk.
Qed.

(** An exceptional halt leaves no gas. *)
Lemma finish_step_leads o f pc g s p refund sp memory st :
  leads o (finish_step f (pc, g, s, p, refund, sp, memory, st)) (λ t o', o' = o ∧
    is_running t.(ft_status) = is_running st ∧ (t.(ft_gas) = g ∨ (t.(ft_gas) = 0 ∧ is_running st = false))).
Proof using.
  unfold finish_step. destruct st; [apply leads_known; apply leads_ret; auto..|].
  eapply (leads_bind _ _ (λ r o', o' = o ∧ r.1.1.1 = 0 ∧ is_running r.2 = false)).
  - apply exceptional_state_leads. intros ex Hex. apply leads_ret. cbn. by rewrite Hex.
  - intros [[[g' s'] p'] st'] o' (-> & ? & ?). apply leads_ret. cbn in *. auto.
Qed.

Lemma entry_turned o f context m :
  legacy o → tree_ok f o.2 → is_running f.(ft_status) = true →
  leads o m (moved o (f.(ft_gas) - 100)) →
  leads o (enter_frame f context m) (λ r o', turned f o r.1 o').
Proof using.
  intros Ho Hf Hr Hm. eapply leads_weaken; [eapply enter_frame_leads; [apply Hm|]|].
  - intros. by eapply moved_adopted.
  - intros [t c] o' Ht. eapply moved_turned; [done|done| |done]. lia.
Qed.

(** The turn of a running frame. *)
Lemma run_turn_turned o f context :
  legacy o → tree_ok f o.2 → is_running f.(ft_status) = true →
  leads o (run_turn fork blob_fee f context) (λ r o', turned f o r.1 o').
Proof using All.
  intros Ho Hf Hr. unfold run_turn. apply fetch_leads. intros pc i Hi. cbv zeta.
  assert (H100 : ∀ t : FrameTransition, set_pc pc f = t → 0 <= t.(ft_gas)) by (intros ? <-; apply Hf).
  specialize (H100 _ eq_refl).
  assert (Hentry : ∀ m, leads o m (moved o ((set_pc pc f).(ft_gas) - 100)) →
    leads o (enter_frame (set_pc pc f) context m) (λ r o', turned f o r.1 o'))
    by (intros m; by apply (entry_turned o (set_pc pc f))).
  assert (Hplain : leads o
    (r ← execute_instruction fork blob_fee context (set_pc pc f) i;
     f' ← finish_step (set_pc pc f) r; mret (f', context)) (λ r o', turned f o r.1 o')).
  { eapply leads_bind; [by apply execute_instruction_ok|].
    intros [[[[[[[pc' g] s] p] refund] sp] memory] st] o' (-> & [Hg1 Hg2]). cbn in Hg1, Hg2.
    eapply leads_bind; [apply (finish_step_leads o)|]. intros t o' (-> & Ht & Hst).
    apply leads_ret. cbn [fst]. apply stepped_turned; [done|done|]. rewrite Ht.
    destruct Hst as [->|[-> ->]]; [done|]. split; [destruct Hf; lia|done]. }
  destruct i; first [apply Hplain|apply Hentry; first [by apply run_create_moved|by apply run_call_moved]].
Qed.

(** Popping the frame stack. *)
Lemma frame_stack_pop_leads e l k (Q : FrameContinuation → observation → Prop) :
  Q k (e, l) → leads (e, l ++ [k]) (on_host frame_stack_pop) Q.
Proof using.
  intros HQ s k' s' Hs E. unfold on_host in E. rewrite !zoom_run in E.
  unfold frame_stack_pop in E. rewrite bind_run in E. cbn in E.
  injection Hs as He Hl. unfold host_frames, frames_of in Hl. rewrite Hl, last_snoc in E.
  injection E as <- <-. unfold spec_frames, host_frames, frames_of. cbn.
  by rewrite List.removelast_last, He.
Qed.
Lemma frame_stack_pop_empty_leads e (Q : FrameContinuation → observation → Prop) :
  Q Empty (e, []) → leads (e, []) (on_host frame_stack_pop) Q.
Proof using.
  intros HQ s k' s' Hs E. unfold on_host in E. rewrite !zoom_run in E.
  unfold frame_stack_pop in E. rewrite bind_run in E. cbn in E.
  injection Hs as He Hl. unfold host_frames, frames_of in Hl. rewrite Hl in E.
  injection E as <- <-. unfold spec_frames, host_frames, frames_of. cbn. by rewrite ?Hl, He.
Qed.

(** The turn of a frame that has ended. *)
Lemma return_turn_turned o f context :
  tree_ok f o.2 → is_running f.(ft_status) = false →
  leads o (return_turn f context) (λ r o', match r with
    | None => o.2 = [] | Some r => turned f o r.1 o' end).
Proof using Haccount.
  intros Hf Hr. unfold return_turn. cbv zeta. destruct o as [e l]. cbn [snd] in *.
  destruct l as [|k l _] using rev_ind.
  - eapply leads_bind; [by apply (frame_stack_pop_empty_leads _ (λ k o', k = Empty))|].
    intros k o' ->. by apply leads_ret.
  - eapply leads_bind; [by apply (frame_stack_pop_leads _ _ _ (λ k' o', k' = k ∧ o' = (e, l)))|].
    intros ? o' [-> ->]. pose proof Hf as [Hg [_ [Hk _]%Forall_cons]%Forall_app].
    assert (Hresume : leads (e, l) (r ← enter_frame f context (resume_frame k (frame_output f.(ft_status)) f.(ft_base)
      f.(ft_gas) f.(ft_state_gas) f.(ft_state_spill) f.(ft_refund) f.(ft_status)
      f.(ft_message).(msg_state_gas_reservoir)); mret (Some r))
      (λ r o', match r with None => l ++ [k] = [] | Some r => turned f (e, l ++ [k]) r.1 o' end)).
    { eapply leads_bind; [eapply enter_frame_leads;
        [by apply resume_frame_returned|intros; by eapply returned_adopted]|].
      intros r o' Ht. apply leads_ret. by eapply returned_turned. }
    destruct k; [destruct Hk|exact Hresume..].
Qed.

(** The loop from any head. *)
Lemma interpret_loop_stops n : ∀ f context s,
  legacy (spec_frames s) → tree_ok f (spec_frames s).2 →
  weight f (spec_frames s).2 < Z.of_nat n →
  ∃ r s', (∀ fuel, (n <= fuel)%nat → interpret_loop fuel fork blob_fee f context s = (r, s')) ∧
    r ≠ Ok None ∧
    ∀ result, r = Ok (Some result) → 0 <= result.1.1.1.1.1 <= tree_gas f (spec_frames s).2.
Proof using All.
  induction n as [|n IH]; intros f context s Ho Hf Hw; [by apply weight_nonneg in Hf; lia|].
  assert (Hstep : ∀ f1 context1 s1, turned f (spec_frames s) f1 (spec_frames s1) →
    ∃ r s', (∀ fuel, (n <= fuel)%nat → interpret_loop fuel fork blob_fee f1 context1 s1 = (r, s')) ∧
      r ≠ Ok None ∧
      ∀ result, r = Ok (Some result) → 0 <= result.1.1.1.1.1 <= tree_gas f (spec_frames s).2).
  { intros f1 context1 s1 (He & Ht & Hgas & Hlt).
    destruct (IH f1 context1 s1) as (r & s' & Hr & Hnone & Hres).
    - unfold legacy, profile_seen in *. by rewrite He.
    - done.
    - lia.
    - exists r, s'. split; [done|]. split; [done|]. intros result E. specialize (Hres _ E). lia. }
  destruct (is_running f.(ft_status)) eqn:Hrun.
  - destruct (run_turn fork blob_fee f context s) as [[[f1 context1]|e] s1] eqn:E.
    + destruct (Hstep f1 context1 s1) as (r & s' & Hr & Hres); [by eapply run_turn_turned in E|].
      exists r, s'. split; [|done]. intros [|fuel] Hfuel; [lia|].
      cbn [interpret_loop]. rewrite Hrun, bind_run, E. apply Hr. lia.
    + exists (Raise e), s1. split_and!; [|done|done]. intros [|fuel] Hfuel; [lia|].
      cbn [interpret_loop]. by rewrite Hrun, bind_run, E.
  - destruct (return_turn f context s) as [[[[f1 context1]|]|e] s1] eqn:E.
    + destruct (Hstep f1 context1 s1) as (r & s' & Hr & Hres);
        [by eapply (return_turn_turned _ _ _ Hf Hrun _ _ _ eq_refl) in E|].
      exists r, s'. split; [|done]. intros [|fuel] Hfuel; [lia|].
      cbn [interpret_loop]. rewrite Hrun, bind_run, E. apply Hr. lia.
    + pose proof (return_turn_turned _ _ _ Hf Hrun _ _ _ eq_refl E) as Hnil.
      eexists _, s1. split.
      { intros [|fuel] Hfuel; [lia|]. cbn [interpret_loop]. by rewrite Hrun, bind_run, E. }
      split; [done|]. intros result [= <-]. cbn [fst]. destruct Hf. unfold tree_gas.
      change (host_frames (sp_host s)) with (spec_frames s).2. rewrite Hnil. cbn. lia.
    + exists (Raise e), s1. split_and!; [|done|done]. intros [|fuel] Hfuel; [lia|].
      cbn [interpret_loop]. by rewrite Hrun, bind_run, E.
Qed.
End turns.

Section interpret.
Context `{Keccak} `{StateTrie} `{AccelLib}.
Context (Haccount : ∀ r k, stable spec_frames (stateless_account_by_key r k)).
Context (Hstorage : ∀ r k, stable spec_frames (stateless_storage_by_key r k)).

(** The blob fee of the block, which [interpret] computes first. *)
Definition blob_fee_of (s : SpecState) : outcome Z :=
  blob_base_fee (fork (profile_of s)) (profile_of s).(pp_blob_schedule)
    (profile_of s).(excess_blob_gas_limit) s.(sp_env).(k_header).(bh_excess_blob_gas).

Lemma interpret_run fuel f s :
  interpret fuel f s =
  match blob_fee_of s with
  | Ok blob_fee =>
      interpret_loop fuel (fork (profile_of s)) blob_fee f f.(ft_message).(msg_address)
        (on_host frame_stack_reset s).2
  | Raise e => (Raise e, s)
  end.
Proof using.
  unfold interpret, get_profile, blob_fee_of. rewrite !bind_run. unfold gets at 1.
  rewrite bind_run. unfold gets at 1. rewrite bind_run, of_outcome_run.
  by destruct (blob_base_fee _ _ _ _).
Qed.

(** C4: before Amsterdam the interpreter always ends: with [3 * gas + 2] turns of
    fuel or more it reaches the same outcome and state, never for want of
    fuel, and what it returns of the gas is at most what it was given. That is
    the bound the source computes as [call_tree_steps_remaining]. The state
    trie is assumed to leave the frame stack and the registers alone. *)
Theorem interpret_terminates (f : FrameTransition) (s : SpecState) :
  fork (profile_of s) < Amsterdam → f.(ft_status) = Running → 0 <= f.(ft_gas) →
  ∃ r s', (∀ fuel, 3 * f.(ft_gas) + 2 <= Z.of_nat fuel → interpret fuel f s = (r, s')) ∧
    r ≠ Ok None ∧ ∀ result, r = Ok (Some result) → 0 <= result.1.1.1.1.1 <= f.(ft_gas).
Proof using All.
  intros Hfork Hst Hg. destruct (blob_fee_of s) as [blob_fee|e] eqn:Hfee.
  - set (s1 := (on_host frame_stack_reset s).2).
    assert (Hs1 : spec_frames s1 = (sp_env s, [])) by done.
    destruct (interpret_loop_stops Haccount Hstorage (fork (profile_of s)) blob_fee Hfork
      (Z.to_nat (3 * f.(ft_gas) + 2)) f f.(ft_message).(msg_address) s1) as (r & s' & Hr & Hnone & Hres).
    + unfold legacy, profile_seen. by rewrite Hs1.
    + rewrite Hs1. by split; [|constructor].
    + rewrite Hs1. unfold weight, tree_gas. rewrite Hst. cbn. lia.
    + exists r, s'. split; [|split; [done|]].
      * intros fuel Hfuel. rewrite interpret_run, Hfee. apply Hr. lia.
      * intros result Hresult. specialize (Hres _ Hresult). rewrite Hs1 in Hres.
        unfold tree_gas in Hres. cbn in Hres. lia.
  - exists (Raise e), s. split_and!; [|done|done]. intros fuel _. by rewrite interpret_run, Hfee.
Qed.

(** C5: the interpreter runs from Cancun on only. For the schema bytes of Berlin
    to Shanghai the profile is built and valid, but under it every call of the
    interpreter raises before its first instruction and changes nothing,
    because the blob fee of the block is computed first and has no value
    before Cancun. *)
Theorem interpret_needs_cancun (b : Z) :
  b ∈ [0x0a; 0x0b; 0x0c; 0x0d; 0x0e; 0x0f] →
  ∃ profile, schema_protocol_profile (bits_of 8 b) = Ok profile ∧
    fork profile < Cancun ∧
    ∀ fuel f s, profile_of s = profile → interpret fuel f s = (Raise SailExit, s).
Proof using.
  intros Hb.
  assert (Hp : ∃ profile, schema_protocol_profile (bits_of 8 b) = Ok profile ∧
    fork profile < Cancun).
  { repeat (apply elem_of_cons in Hb as [->|Hb];
      [eexists; split; [vm_compute; reflexivity|by vm_compute]|]).
    by apply not_elem_of_nil in Hb. }
  destruct Hp as (profile & Hp & Hlt). exists profile. split; [done|]. split; [done|].
  intros fuel f s Hs. rewrite interpret_run. unfold blob_fee_of, blob_base_fee. rewrite Hs.
  by rewrite (proj2 (Z.leb_gt Cancun (fork profile)) Hlt).
Qed.
End interpret.

(** ** A program that never stops by itself *)

Module Spin.
#[local] Existing Instance toy_Keccak.
#[local] Existing Instance toy_lib.

#[local] Existing Instance Sample.empty_trie.

Definition osaka_profile : ProtocolProfileFields :=
  mkProtocolProfile Osaka (mkBlobSchedule 6 9 5007716)
    (compute_profile_excess_blob_gas_limit Osaka 6 9 5007716) 24576 49152 (2 ^ 24) (2 ^ 24) 6 5.

Definition environment_of (profile : ProtocolProfileFields) : Environment :=
  let e := initial_environment in
  mkEnvironment e.(k_parent_state_root) e.(k_n_headers) e.(k_chain_id)
    (mkExecutionProfile profile (mkGasLimits 0 0 0 SYSTEM_CALL_GAS_LIMIT 0)) e.(k_header) e.(k_tx)
    e.(k_current_transaction_epoch).

(** [JUMPDEST; PUSH1 0; JUMP], analysed and stored. *)
Definition loop_code : list Byte.byte := [Byte.x5b; Byte.x60; Byte.x00; Byte.x56].
Definition loop_host : outcome Z * HostState :=
  analyze_code (mkSlice 0 4) Osaka
    (set_regions (mkRegions [] [] loop_code [] [] []) initial_state).
Definition loop_state : SpecState :=
  mkSpec loop_host.2 (environment_of osaka_profile) EMPTY_SCRATCH_SLICE.
Definition loop_frame (g : Z) : FrameTransition :=
  mkFrame 0 g 0 0 0 Running (mkStackPointer (_stack_top 0) 0) 0 0
    (mkMessage ZERO_ADDRESS ZERO_ADDRESS ZERO_ADDRESS 0 0 false 0) (mkCode 0 4 1) EMPTY_CALLDATA
    EMPTY_OUTPUT_SLICE.

(** A hundred gas buy eight rounds; the rest is taken by the halt. *)
Example spins : (interpret 28 (loop_frame 100) loop_state).1 =
  Ok (Some (0, 0, 0, 0, Exceptional OutOfGas, EMPTY_OUTPUT_SLICE)).
Proof. by vm_compute. Qed.
Example spins_short : (interpret 27 (loop_frame 100) loop_state).1 = Ok None.
Proof. by vm_compute. Qed.

Lemma empty_trie_account r k : stable spec_frames (stateless_account_by_key r k).
Proof. apply stable_ret. Qed.
Lemma empty_trie_storage r k : stable spec_frames (stateless_storage_by_key r k).
Proof. apply stable_ret. Qed.
End Spin.

Lemma interpret_terminates_witness :
  ∃ r s', (∀ fuel, 302 <= Z.of_nat fuel →
    @interpret toy_Keccak Sample.empty_trie toy_lib fuel (Spin.loop_frame 100) Spin.loop_state = (r, s')) ∧
    r ≠ Ok None ∧ ∀ result, r = Ok (Some result) → 0 <= result.1.1.1.1.1 <= 100.
Proof.
  apply (@interpret_terminates toy_Keccak Sample.empty_trie toy_lib
    Spin.empty_trie_account Spin.empty_trie_storage (Spin.loop_frame 100) Spin.loop_state);
    [by vm_compute|done|by vm_compute].
Defined.

Lemma interpret_needs_cancun_witness :
  ∃ profile, schema_protocol_profile (bits_of 8 0x0f) = Ok profile ∧ fork profile < Cancun ∧
    ∀ fuel f s, profile_of s = profile →
      @interpret toy_Keccak Sample.empty_trie toy_lib fuel f s = (Raise SailExit, s).
Proof.
  apply (@interpret_needs_cancun toy_Keccak Sample.empty_trie toy_lib 0x0f).
  by apply (bool_decide_unpack _); vm_compute.
Defined.
