(* ===== verification/PyText.v ===== *)
(** * PyText: Python strings

    Strings of the developer tools, as lists of characters with code points
    below 256, with the [str] methods and regular expressions the tools use;
    [\w] and [\b] are those of ASCII text. *)
From Stdlib Require Import ZArith Lia Strings.Byte Floats.SpecFloat.
From stdpp Require Import base tactics option list gmap pretty.
From S2P Require Import Prelude PyBytes.

Abbreviation text := (list byte).

(** A literal. *)
Definition txt (s : string) : text := String.list_byte_of_string s.

Definition NL : byte := "010"%byte.

(** Decimal rendering of an integer. *)
Definition show (n : Z) : text := txt (pretty n).

Definition chr_in (lo hi : byte) (c : byte) : bool :=
  (Byte.to_N lo <=? Byte.to_N c)%N && (Byte.to_N c <=? Byte.to_N hi)%N.

Definition is_digit (c : byte) : bool := chr_in "0" "9" c.
Definition is_lower (c : byte) : bool := chr_in "a" "z" c.
Definition is_upper (c : byte) : bool := chr_in "A" "Z" c.
(** ASCII letters, digits and underscore. *)
Definition is_word (c : byte) : bool :=
  is_digit c || is_lower c || is_upper c || bool_decide (c = "_"%byte).

(** [str.isspace] of one character. *)
Definition is_space (c : byte) : bool :=
  chr_in "009" "013" c || chr_in "028" " " c || bool_decide (c = "133"%byte) ||
  bool_decide (c = "160"%byte).

(** The line boundaries of [str.splitlines]; a carriage return followed by a
    line feed is one boundary. *)
Definition is_line_break (c : byte) : bool :=
  chr_in "010" "013" c || chr_in "028" "030" c || bool_decide (c = "133"%byte).

(** ** Methods of [str] *)

Fixpoint lstrip (t : text) : text :=
  match t with
  | c :: t' => if is_space c then lstrip t' else t
  | [] => []
  end.
Definition rstrip (t : text) : text := rev (lstrip (rev t)).
Definition strip (t : text) : text := rstrip (lstrip t).

Fixpoint startswith (prefix t : text) : bool :=
  match prefix, t with
  | [], _ => true
  | p :: prefix', c :: t' => bool_decide (p = c) && startswith prefix' t'
  | _ :: _, [] => false
  end.
Definition endswith (suffix t : text) : bool := startswith (rev suffix) (rev t).

(** [removeprefix] *)
Definition removeprefix (prefix t : text) : text :=
  if startswith prefix t then drop (length prefix) t else t.

(** [str.lower] on ASCII letters. *)
Definition lower_char (c : byte) : byte :=
  if is_upper c then byte_wrap (Z.of_N (Byte.to_N c) + 32) else c.
Definition lower (t : text) : text := lower_char <$> t.

Fixpoint splitlines_from (line : text) (t : text) : list text :=
  match t with
  | [] => match line with [] => [] | _ => [rev line] end
  | c :: t' =>
      if bool_decide (c = "013"%byte) then
        match t' with
        | d :: t'' => if bool_decide (d = NL) then rev line :: splitlines_from [] t''
                      else rev line :: splitlines_from [] t'
        | [] => [rev line]
        end
      else if is_line_break c then rev line :: splitlines_from [] t'
      else splitlines_from (c :: line) t'
  end.
Definition splitlines (t : text) : list text := splitlines_from [] t.

(** [t.split(sep)] for a one-character separator. *)
Fixpoint split_from (sep : byte) (field : text) (t : text) : list text :=
  match t with
  | [] => [rev field]
  | c :: t' => if bool_decide (c = sep) then rev field :: split_from sep [] t'
               else split_from sep (c :: field) t'
  end.
Definition split (sep : byte) (t : text) : list text := split_from sep [] t.

(** [sep.join(parts)] *)
Fixpoint join (sep : text) (parts : list text) : text :=
  match parts with
  | [] => []
  | [p] => p
  | p :: parts' => p ++ sep ++ join sep parts'
  end.

(** ** Regular expression fragments *)

(** [re.search(r"\bword\b", t)], where the previous character is [before]. *)
Definition boundary (a b : option byte) : bool :=
  negb (Bool.eqb (from_option is_word false a) (from_option is_word false b)).

Fixpoint search_word_from (before : option byte) (word t : text) : bool :=
  (startswith word t && boundary before (head t) &&
     boundary (last word) (head (drop (length word) t))) ||
  match t with
  | [] => false
  | c :: t' => search_word_from (Some c) word t'
  end.
Definition search_word (word t : text) : bool := search_word_from None word t.

(** [re.fullmatch(r"[0-9a-f]{n}", t)] *)
Definition is_hex (c : byte) : bool := is_digit c || chr_in "a" "f" c.
Definition is_hex_string (n : nat) (t : text) : bool :=
  (length t =? n)%nat && forallb is_hex t.

(** The maximal prefix of characters satisfying [p]. *)
Fixpoint span (p : byte → bool) (t : text) : text * text :=
  match t with
  | [] => ([], [])
  | c :: t' => if p c then let '(a, b) := span p t' in (c :: a, b) else ([], t)
  end.

(** ** Facts *)

Lemma startswith_spec prefix t : startswith prefix t = true ↔ ∃ u, t = prefix ++ u.
Proof.
  revert t. induction prefix as [|p prefix IH]; intros t; cbn; [naive_solver|].
  destruct t as [|c t]; [naive_solver|].
  rewrite andb_true_iff, bool_decide_eq_true, IH. naive_solver.
Qed.

Lemma endswith_spec suffix t : endswith suffix t = true ↔ ∃ u, t = u ++ suffix.
Proof.
  unfold endswith. rewrite startswith_spec. split.
  - intros [u E]. exists (rev u). by rewrite <-(rev_involutive t), E, rev_app_distr, rev_involutive.
  - intros [u ->]. exists (rev u). by rewrite rev_app_distr.
Qed.

Lemma is_hex_string_spec n t :
  is_hex_string n t = true ↔ length t = n ∧ Forall (λ c, is_hex c = true) t.
Proof.
  unfold is_hex_string. rewrite andb_true_iff, Nat.eqb_eq, forallb_forall, Forall_forall.
  by setoid_rewrite list_elem_of_In.
Qed.

Lemma span_app p t : (span p t).1 ++ (span p t).2 = t.
Proof.
  induction t as [|c t IH]; cbn; [done|]. destruct (p c); [|done].
  destruct (span p t); cbn in *. by rewrite IH.
Qed.

Lemma split_from_app sep f t u :
  sep ∉ t → split_from sep f (t ++ sep :: u) = (rev f ++ t) :: split sep u.
Proof.
  revert f. induction t as [|c t IH]; intros f Hn; cbn.
  - by rewrite bool_decide_eq_true_2, app_nil_r.
  - apply not_elem_of_cons in Hn as [Hc Hn]. rewrite bool_decide_eq_false_2 by done.
    rewrite IH by done. cbn. by rewrite <-app_assoc.
Qed.

Lemma split_from_last sep f t : sep ∉ t → split_from sep f t = [rev f ++ t].
Proof.
  revert f. induction t as [|c t IH]; intros f Hn; cbn; [by rewrite app_nil_r|].
  apply not_elem_of_cons in Hn as [Hc Hn]. rewrite bool_decide_eq_false_2 by done.
  rewrite IH by done. cbn. by rewrite <-app_assoc.
Qed.

(** Splitting what was joined gives the parts back. *)
Lemma split_join sep parts :
  parts ≠ [] → Forall (λ p, sep ∉ p) parts → split sep (join [sep] parts) = parts.
Proof.
  intros Hne Hf. induction Hf as [|p [|q parts] Hp Hf IH]; [done|by apply split_from_last|].
  cbn [join]. cbn [app]. unfold split. rewrite split_from_app by done. f_equal. by apply IH.
Qed.

(** * Python floating-point numbers

    [float] is IEEE 754 binary64, as the specification floats of the Standard
    Library with a precision of 53 bits; the operations round to nearest,
    ties to even. *)
Local Open Scope Z_scope.

Abbreviation float := spec_float.

#[export] Instance float_eq_dec : EqDecision float.
Proof. solve_decision. Defined.

Definition fl_zero : float := S754_zero false.

(** The binary64 number nearest to [m * 2 ^ e]. *)
Definition fl_scale (m e : Z) : float := binary_normalize 53 1024 m e false.

Definition is_infinity (x : float) : bool := match x with S754_infinity _ => true | _ => false end.

(** [float(z)]: raises when the integer rounds to an infinity. *)
Definition float_of_int (z : Z) : outcome float :=
  let x := fl_scale z 0 in if is_infinity x then Raise OverflowError else Ok x.

Definition fl_mul (x y : float) : float := SFmul 53 1024 x y.

(** [x / y] *)
Definition fl_div (x y : float) : outcome float :=
  match y with S754_zero _ => Raise ZeroDivisionError | _ => Ok (SFdiv 53 1024 x y) end.

(** The value of a number as [m * 2 ^ e], when it is finite. *)
Definition fl_value (x : float) : option (Z * Z) :=
  match x with
  | S754_zero _ => Some (0, 0)
  | S754_finite s m e => Some (if s then Zneg m else Zpos m, e)
  | _ => None
  end.

(** An integer of a number by a rounding of [m / 2 ^ k]; a number without a
    value raises. *)
Definition fl_to_int (rounding : Z → Z → Z) (x : float) : outcome Z :=
  match fl_value x with
  | Some (m, e) => Ok (if 0 <=? e then m * 2 ^ e else rounding m (2 ^ - e))
  | None => if is_infinity x then Raise OverflowError
            else Raise (ValueError "cannot convert float NaN to integer")
  end.

Definition half_even (m d : Z) : Z :=
  let q := m / d in
  let r := 2 * (m mod d) in
  if (r <? d) || ((r =? d) && Z.even q) then q else q + 1.

(** [int(x)], [math.ceil(x)] and [round(x)]. *)
Definition fl_trunc : float → outcome Z := fl_to_int Z.quot.
Definition fl_ceil : float → outcome Z := fl_to_int (λ m d, - (- m / d)).
Definition fl_round : float → outcome Z := fl_to_int half_even.

(** [x == z] of a float and an integer, exactly. *)
Definition fl_eq_int (x : float) (z : Z) : bool :=
  match fl_value x with
  | Some (m, e) => if 0 <=? e then m * 2 ^ e =? z else m =? z * 2 ^ - e
  | None => false
  end.

Definition fl_is_zero (x : float) : bool := match x with S754_zero _ => true | _ => false end.

(** [p / q] of two integers. *)
Definition fl_ratio (p q : Z) : outcome float :=
  x ← float_of_int p; y ← float_of_int q; fl_div x y.

Example trunc_negative : (x ← fl_ratio (-7) 2; fl_trunc x) = Ok (-3).
Proof. reflexivity. Qed.
Example round_half_even : (x ← fl_ratio 7 2; fl_round x) = Ok 4.
Proof. reflexivity. Qed.
