(* ===== verification/BuildSupport.v ===== *)
(** * BuildSupport: manifests, shell words, logged commands and tree publication

    [devtools/build_support.py]. The file system enters as parameters:
    [resolve] is [Path.resolve] on absolute paths (lists of components),
    [is_file] is [Path.is_file]; a tree is the map from relative POSIX paths
    to entries that [rglob] walks; a failing system call is an element of a
    fault schedule. *)
From Stdlib Require Import ZArith Lia Strings.Byte Sorting.Sorted.
From stdpp Require Import base tactics option list gmap sets pretty.
From S2P Require Import Prelude PyBytes PyText.
Local Open Scope Z_scope.

(** [BuildSupportError], by the check that raised it. *)
Inductive build_error : Type :=
| NotBelowRoot (line : Z) (entry : text)
| DuplicateEntry (line : Z) (entry : text)
| EscapesRoot (line : Z) (entry : text)
| MissingFile (line : Z) (entry : text)
| EmptyManifest.

(** An absolute path, by its components. *)
Abbreviation path := (list text).

(** [PurePosixPath(entry)]: whether it is absolute, and its components. *)
Definition posix_absolute (entry : text) : bool := startswith (txt "/") entry.
Definition posix_parts (entry : text) : list text :=
  filter (λ p, p ≠ [] ∧ p ≠ txt ".") (split "/" entry).

(** [candidate.relative_to(root)] succeeds. *)
Definition is_below (root candidate : path) : bool := bool_decide (root `prefix_of` candidate).

(** ** The manifest *)

Section manifest.
Context (resolve : path → path) (is_file : path → bool).

(** The loop body: [line_number, raw_line] with the entries seen so far. *)
Fixpoint read_entries (root : path) (line_number : Z) (lines : list text)
    (seen : list (list text)) (entries : list path) : build_error + list path :=
  match lines with
  | [] => match entries with [] => inl EmptyManifest | _ => inr entries end
  | raw_line :: lines' =>
      let entry := strip raw_line in
      if bool_decide (entry = []) || startswith (txt "#") entry then
        read_entries root (line_number + 1) lines' seen entries
      else
        let relative := posix_parts entry in
        if posix_absolute entry || bool_decide (txt ".." ∈ relative) then
          inl (NotBelowRoot line_number entry)
        else if bool_decide (relative ∈ seen) then inl (DuplicateEntry line_number entry)
        else
          let candidate := resolve (root ++ relative) in
          if negb (is_below root candidate) then inl (EscapesRoot line_number entry)
          else if negb (is_file candidate) then inl (MissingFile line_number entry)
          else read_entries root (line_number + 1) lines' (relative :: seen)
                 (entries ++ [candidate])
  end.

Definition read_ordered_manifest (manifest : text) (root : path) : build_error + list path :=
  let root := resolve root in
  read_entries root 1 (splitlines manifest) [] [].

(** [write_canonical_manifest]: the text written, and the number of entries. *)
Definition write_canonical_manifest (manifest : text) (root : path) :
    build_error + text * Z :=
  let resolved_root := resolve root in
  match read_ordered_manifest manifest resolved_root with
  | inl e => inl e
  | inr paths =>
      let entries := (λ p, join (txt "/") (drop (length resolved_root) p)) <$> paths in
      inr (entries ≫= (λ entry, entry ++ [NL]), py_len entries)
  end.
End manifest.

(** ** Shell words *)

(** The characters [shlex.quote] leaves alone: [[\w@%+=:,./-]]. *)
Definition is_shell_safe (c : byte) : bool :=
  is_word c || bool_decide (c ∈ txt "@%+=:,./-").

(** [shlex.quote] *)
Definition shell_quote (word : text) : text :=
  match word with
  | [] => txt "''"
  | _ => if forallb is_shell_safe word then word
         else txt "'" ++ (word ≫= λ c, if bool_decide (c = "'"%byte)
                                       then txt "'" ++ [x22; "'"%byte; x22] ++ txt "'"
                                       else [c]) ++ txt "'"
  end.

Definition render_make_words (paths : list text) (prefix : text) : text :=
  join (txt " ") (paths ≫= λ p,
    match prefix with [] => [shell_quote p] | _ => [shell_quote prefix; shell_quote p] end).

(** The words of a POSIX shell command line made of plain characters, single
    quotes and double quotes without expansions; [None] on anything else.
    [word] is the word being read, [None] between words. *)
Inductive quoting : Type := Plain | Single | Double.

Fixpoint shell_split_from (q : quoting) (word : option text) (t : text) : option (list text) :=
  match t with
  | [] => match q with
          | Plain => Some (match word with Some w => [rev w] | None => [] end)
          | _ => None
          end
  | c :: t' =>
      match q with
      | Single => if bool_decide (c = "'"%byte) then shell_split_from Plain word t'
                  else shell_split_from Single (Some (c :: default [] word)) t'
      | Double => if bool_decide (c = x22) then shell_split_from Plain word t'
                  else if bool_decide (c ∈ txt "$`\") then None
                  else shell_split_from Double (Some (c :: default [] word)) t'
      | Plain =>
          if bool_decide (c = " "%byte) then
            match word with
            | Some w => cons (rev w) <$> shell_split_from Plain None t'
            | None => shell_split_from Plain None t'
            end
          else if bool_decide (c = "'"%byte) then
            shell_split_from Single (Some (default [] word)) t'
          else if bool_decide (c = x22) then
            shell_split_from Double (Some (default [] word)) t'
          else if is_shell_safe c then
            shell_split_from Plain (Some (c :: default [] word)) t'
          else None
      end
  end.
Definition shell_split (t : text) : option (list text) := shell_split_from Plain None t.

Example quoted_word : render_make_words [txt "a b'c"; txt "x/y.c"; []] (txt "--just") =
  txt "--just 'a b'" ++ [x22; "'"%byte; x22] ++ txt "'c' --just x/y.c --just ''".
Proof. vm_compute. reflexivity. Qed.

(** ** Logged commands *)

(** [re.compile(r"\b(?:warning|error)\b", re.IGNORECASE)] *)
Definition DIAGNOSTIC_RE (line : text) : bool :=
  search_word (txt "warning") (lower line) || search_word (txt "error") (lower line).

(** What [run_logged_command] leaves behind: its status, the complete log and
    the excerpt printed. *)
Record logged : Type := mkLogged {
  log_status : Z;
  log_output : text;
  log_excerpt : list text;
}.

(** [xs[-n:]] *)
Definition last_lines (n : Z) (xs : list text) : list text := py_slice_from xs (- n).

(** The completed process is given by its return code and output. *)
Definition run_logged_command (returncode : Z) (output : text) (excerpt_lines : Z)
    (fail_on_diagnostics : bool) : logged :=
  let diagnostics := List.filter DIAGNOSTIC_RE (splitlines output) in
  let failed := negb (returncode =? 0) ||
    (fail_on_diagnostics && negb (bool_decide (diagnostics = []))) in
  if negb failed then mkLogged 0 output []
  else
    let excerpt := match diagnostics with
                   | [] => last_lines excerpt_lines (splitlines output)
                   | _ => diagnostics
                   end in
    mkLogged (if returncode =? 0 then 1 else returncode) output
      (py_slice_to excerpt excerpt_lines).

(** ** Comment boxes *)

(** [^/\* =+ \*/$] *)
Definition is_divider (line : text) : bool :=
  let '(eqs, rest) := span (λ c, bool_decide (c = "="%byte)) (drop 3 line) in
  startswith (txt "/* ") line && negb (bool_decide (eqs = [])) && bool_decide (rest = txt " */").

(** [^/\*.*\*/$] on one line *)
Definition is_comment_line (line : text) : bool :=
  startswith (txt "/*") line && endswith (txt "*/") (drop 2 line).

(** The check of one block: the numbers and widths of the lines whose width
    differs from the first divider's. *)
Definition check_block (block : list (Z * text)) : list (Z * Z) :=
  let widths := (λ nl, py_len nl.2) <$> List.filter (λ nl, is_divider nl.2) block in
  match widths with
  | [] => []
  | expected :: _ =>
      (λ nl, (nl.1, py_len nl.2)) <$> List.filter (λ nl, negb (py_len nl.2 =? expected)) block
  end.

Fixpoint comment_box_scan (block : list (Z * text)) (lines : list (Z * text)) : list (Z * Z) :=
  match lines with
  | [] => check_block block
  | nl :: lines' =>
      if is_comment_line nl.2 then comment_box_scan (block ++ [nl]) lines'
      else check_block block ++ comment_box_scan [] lines'
  end.

(** [enumerate(lines, start=1)] *)
Definition enumerate {A} (l : list A) : list (Z * A) := zip (seqZ 1 (py_len l)) l.

(** [comment_box_errors] for one file: the misaligned lines and their widths. *)
Definition comment_box_errors (source : text) : list (Z * Z) :=
  comment_box_scan [] (enumerate (splitlines source)).

(** ** Trees *)

(** What [rglob] sees at a relative path. *)
Inductive entry : Type :=
| Symlink (target : text)
| RegularFile (content : bytes)
| OtherEntry.

#[export] Instance entry_eq_dec : EqDecision entry.
Proof. solve_decision. Defined.

(** The entries of a directory by relative POSIX path. *)
Abbreviation tree := (gmap text entry).

(** [entries(root)]: links and regular files; empty when there is no
    directory. *)
Definition entries (root : option tree) : tree :=
  match root with
  | None => ∅
  | Some t => filter (λ kv : text * entry, kv.2 ≠ OtherEntry) t
  end.

Definition sorted_paths (keys : gset text) : list text := py_sorted bytes_leb id (elements keys).

Definition entry_kind (e : entry) : text :=
  match e with Symlink _ => txt "symlink" | _ => txt "file" end.

(** The difference reported for a path of both trees. *)
Definition compare_entries (relative : text) (expected actual : entry) : list text :=
  if bool_decide (entry_kind expected ≠ entry_kind actual) then
    [txt "entry type differs: " ++ relative ++ txt " (expected " ++ entry_kind expected ++
       txt ", generated " ++ entry_kind actual ++ txt ")"]
  else match expected with
       | Symlink _ =>
           if bool_decide (expected ≠ actual)
           then [txt "symlink target differs: " ++ relative] else []
       | _ => if bool_decide (expected ≠ actual)
              then [txt "content differs: " ++ relative] else []
       end.

Definition all_differences (expected_entries actual_entries : tree) : list text :=
  ((λ relative, txt "missing from generated tree: " ++ relative) <$>
     sorted_paths (dom expected_entries ∖ dom actual_entries)) ++
  ((λ relative, txt "unexpected generated file: " ++ relative) <$>
     sorted_paths (dom actual_entries ∖ dom expected_entries)) ++
  (sorted_paths (dom expected_entries ∩ dom actual_entries) ≫= λ relative,
     match expected_entries !! relative, actual_entries !! relative with
     | Some e, Some a => compare_entries relative e a
     | _, _ => []
     end).

Definition tree_differences (expected actual : option tree) (limit : Z) : list text :=
  let differences := all_differences (entries expected) (entries actual) in
  if limit <? py_len differences then
    let omitted := py_len differences - limit in
    py_slice_to differences limit ++ [txt "... " ++ show omitted ++ txt " more difference(s)"]
  else differences.

(** ** Publication *)

(** The names [publish_tree] leaves out of the copy. *)
Definition ignored_name (name : text) : bool :=
  bool_decide (name = txt ".lake") || bool_decide (name = txt "__pycache__") ||
  endswith (txt ".pyc") name.

(** [shutil.copytree(staged, ..., symlinks=True, ignore=...)] *)
Definition copied (staged : tree) : tree :=
  filter (λ kv : text * entry, existsb ignored_name (split "/" kv.1) = false) staged.

(** The paths [publish_tree] touches: the destination, the backup beside it
    and the copy inside the temporary directory. *)
Record site : Type := mkSite {
  destination : option tree;
  backup : option tree;
  temporary : option tree;
}.

Definition set_destination (v : option tree) (s : site) : site :=
  mkSite v s.(backup) s.(temporary).
Definition set_backup (v : option tree) (s : site) : site :=
  mkSite s.(destination) v s.(temporary).
Definition set_temporary (v : option tree) (s : site) : site :=
  mkSite s.(destination) s.(backup) v.

(** How a system call ends: it works, or raises [OSError] leaving the given
    contents where it was copying or deleting (a rename is atomic). *)
Inductive fault : Type :=
| Works
| Raises (partial : option tree).

(** A run draws the ends of its calls from a schedule; past its end calls
    work. *)
Abbreviation world_site := (site * list fault)%type.

Definition os_error {A} : outcome A := Raise (RuntimeError "OSError").

(** A call that changes one field on success, and leaves partial contents
    there on failure. *)
Definition system_call (success : site → site) (failure : option tree → site → site) :
    M world_site unit := λ '(s, faults),
  match faults with
  | [] | Works :: _ => (Ok tt, (success s, tail faults))
  | Raises partial :: faults' => (os_error, (failure partial s, faults'))
  end.

Definition copy_to_temporary (staged : tree) : M world_site unit :=
  system_call (set_temporary (Some (copied staged))) set_temporary.
Definition rmtree_backup : M world_site unit := system_call (set_backup None) set_backup.
Definition rename_destination_to_backup : M world_site unit :=
  system_call (λ s, set_backup s.(destination) (set_destination None s)) (λ _, id).
Definition rename_temporary_to_destination : M world_site unit :=
  system_call (λ s, set_destination s.(temporary) (set_temporary None s)) (λ _, id).
Definition rename_backup_to_destination : M world_site unit :=
  system_call (λ s, set_destination s.(backup) (set_backup None s)) (λ _, id).

Definition exists_backup : M world_site bool := gets (λ w, bool_decide (is_Some w.1.(backup))).
Definition exists_destination : M world_site bool :=
  gets (λ w, bool_decide (is_Some w.1.(destination))).

(** The [try] body. *)
Definition publish_body (staged : tree) : M world_site unit :=
  copy_to_temporary staged;;
  b ← exists_backup; when b rmtree_backup;;
  d ← exists_destination; when d rename_destination_to_backup;;
  rename_temporary_to_destination;;
  b ← exists_backup; when b rmtree_backup.

(** The [except] clause, before it raises again. *)
Definition publish_recover : M world_site unit :=
  d ← exists_destination; b ← exists_backup;
  when (negb d && b) rename_backup_to_destination.

(** The [finally] clause: it ignores its errors, so whatever it cannot delete
    stays in the temporary directory. *)
Definition remove_temporary : M world_site unit := λ '(s, faults),
  match faults with
  | Raises partial :: faults' => (Ok tt, (set_temporary partial s, faults'))
  | _ => (Ok tt, (set_temporary None s, tail faults))
  end.

(** An [except] clause that ends by raising the exception again. *)
Definition reraising {S} (recover : M S unit) (e : py_exn) : M S unit := recover;; raise e.

(** [try: body; except Exception: recover; raise; finally: cleanup] *)
Definition guarded {S} (body recover cleanup : M S unit) : M S unit := λ w,
  let '(o, w1) := body w in
  let '(o, w2) := match o with
                  | Ok tt => (Ok tt, w1)
                  | Raise e => reraising recover e w1
                  end in
  let '(_, w3) := cleanup w2 in
  (o, w3).

(** [tempfile.mkdtemp] *)
Definition make_temporary : M world_site unit := system_call id (λ _, id).

Definition publish_tree (staged : option tree) : M world_site unit :=
  match staged with
  | None => raise (ValueError "staged tree does not exist")
  | Some staged =>
      make_temporary;;
      guarded (publish_body staged) publish_recover remove_temporary
  end.

(** * Correctness of the build helpers

    The manifest reader accepts exactly the valid manifests, rendered shell
    words are read back by a shell, the tree comparison is exact, and
    publishing a tree never loses both the old and the new one. *)

(** ** Publication *)

(** The calls that fail in a schedule. *)
Definition failing (faults : list fault) : list fault :=
  List.filter (λ f, match f with Works => false | Raises _ => true end) faults.

(** The two ways a call can end, and the failures left in the schedule. *)
Lemma system_call_cases success failure s faults :
  (∃ faults', system_call success failure (s, faults) = (Ok tt, (success s, faults')) ∧
              length (failing faults') = length (failing faults)) ∨
  (∃ p faults', system_call success failure (s, faults) = (os_error, (failure p s, faults')) ∧
                length (failing faults) = S (length (failing faults'))).
Proof. destruct faults as [|[|p] faults]; cbn; [left|left|right]; eauto. Qed.

(** Runs the next system call, once for each way it can end. *)
Ltac call :=
  rewrite ?bind_run; cbn [fst snd];
  match goal with
  | |- context [system_call ?f ?g (?s, ?faults)] =>
      let E := fresh "E" in let L := fresh "L" in
      destruct (system_call_cases f g s faults) as [(?&E&L)|(?&?&E&L)]; rewrite E;
      cbn [fst snd set_destination set_backup set_temporary destination backup temporary id
           os_error]
  end.

Ltac looks := rewrite ?bind_run; unfold exists_backup, exists_destination; rewrite ?gets_run;
  cbn [fst snd destination backup temporary set_destination set_backup set_temporary is_Some];
  rewrite ?bool_decide_eq_true_2 by eauto; rewrite ?bool_decide_eq_false_2 by (intros []; done);
  cbn [when negb andb]; rewrite ?ret_run; cbn [fst snd].

(** The end of the [try] body over a destination [old]: published, or one call
    failed, with the old tree at the destination or the backup. *)
Definition body_outcome (old new : tree) (o : outcome unit) (n n' : nat) (s : site) : Prop :=
  match o with
  | Ok _ => s.(destination) = Some new ∧ s.(backup) = None ∧ n' = n
  | Raise _ => n = S n' ∧ (s.(destination) = Some old ∨ s.(destination) = Some new ∨
                           s.(destination) = None ∧ s.(backup) = Some old)
  end.

Lemma publish_rest_outcome old new bk faults :
  let '(o, (s', faults')) :=
    (d ← exists_destination; when d rename_destination_to_backup;;
     rename_temporary_to_destination;;
     b ← exists_backup; when b rmtree_backup) (mkSite (Some old) bk (Some new), faults) in
  body_outcome old new o (length (failing faults)) (length (failing faults')) s'.
Proof.
  unfold rename_destination_to_backup, rename_temporary_to_destination, rmtree_backup.
  looks. call; [|split; [lia|by left]].
  call; [|split; [lia|naive_solver]].
  looks. call; [split_and!; [done|done|lia]|split; [lia|naive_solver]].
Qed.

Lemma publish_body_outcome old staged bk t faults :
  let '(o, (s', faults')) := publish_body staged (mkSite (Some old) bk t, faults) in
  body_outcome old (copied staged) o (length (failing faults)) (length (failing faults')) s'.
Proof.
  unfold publish_body, copy_to_temporary. call; [|split; [lia|by left]].
  rewrite <-L. clear E L.
  assert (∀ b faults, let '(o, (s', faults')) :=
    (when b rmtree_backup;; d ← exists_destination; when d rename_destination_to_backup;;
     rename_temporary_to_destination;; b ← exists_backup; when b rmtree_backup)
      (mkSite (Some old) bk (Some (copied staged)), faults) in
    body_outcome old (copied staged) o (length (failing faults)) (length (failing faults')) s') as H.
  { intros [] fs; cbn [when]; [|apply publish_rest_outcome].
    unfold rmtree_backup at 2. call; [|split; [lia|by left]].
    rewrite <-L. apply publish_rest_outcome. }
  unfold exists_backup at 2. rewrite bind_run, gets_run. apply H.
Qed.

(** Where the old tree is after a publication that failed. *)
Definition publish_outcome (old new : tree) (o : outcome unit) (n : nat) (s : site) : Prop :=
  match o with
  | Ok _ => s.(destination) = Some new ∧ s.(backup) = None
  | Raise _ => s.(destination) = Some old ∨ s.(destination) = Some new ∨
               s.(destination) = None ∧ s.(backup) = Some old ∧ (1 < n)%nat
  end.

Lemma recover_outcome old new e s faults n :
  n = S (length (failing faults)) →
  s.(destination) = Some old ∨ s.(destination) = Some new ∨
    s.(destination) = None ∧ s.(backup) = Some old →
  let '(o, (s', _)) := reraising publish_recover e (s, faults) in
  publish_outcome old new o n s' ∧ is_ok o = false.
Proof.
  intros -> H. unfold reraising, publish_recover, rename_backup_to_destination. destruct s as [d bk t].
  cbn in H. destruct H as [->|[->|[-> ->]]].
  - looks. split; [by left|done].
  - looks. split; [by right; left|done].
  - looks. looks. call; rewrite ?raise_run; cbn; (split; [|done]); [by left|].
    right. right. split_and!; [done|done|lia].
Qed.

Lemma guarded_run {S} (body recover cleanup : M S unit) w :
  guarded body recover cleanup w =
  let '(o, w1) := body w in
  match o with
  | Ok _ => (Ok tt, (cleanup w1).2)
  | Raise e => ((reraising recover e w1).1, (cleanup (reraising recover e w1).2).2)
  end.
Proof.
  unfold guarded. destruct (body w) as [[[]|e] w1]; [by destruct (cleanup w1)|].
  destruct (reraising recover e w1) as [o w2]. cbn. by destruct (cleanup w2).
Qed.

Lemma remove_temporary_keeps s faults :
  ∃ t faults', remove_temporary (s, faults) = (Ok tt, (set_temporary t s, faults')).
Proof. destruct faults as [|[|p] faults]; cbn; eauto. Qed.

Lemma publish_outcome_temporary old new o n s t :
  publish_outcome old new o n s → publish_outcome old new o n (set_temporary t s).
Proof. by destruct o, s. Qed.

(** C39: publishing over an existing tree, whichever of its system calls fail:
    if it returns, the destination is the filtered staged tree and no backup is
    left; if it raises, the destination is still the old tree or already the
    new one, or else, which takes a second failure while recovering, the
    complete old tree is at the backup. With no failing call it returns. *)
Theorem publish_tree_safe (old staged : tree) (bk t : option tree) (faults : list fault) :
  let '(o, (s, _)) := publish_tree (Some staged) (mkSite (Some old) bk t, faults) in
  publish_outcome old (copied staged) o (length (failing faults)) s ∧
  (failing faults = [] → o = Ok tt).
Proof.
  unfold publish_tree, make_temporary. call.
  2:{ split; [by left|]. intros Hn. rewrite Hn in L. done. }
  rewrite guarded_run. cbn [id]. pose proof (publish_body_outcome old staged bk t x) as H.
  rewrite <-L. destruct (publish_body _ _) as [[[]|e] [s1 fs1]].
  - destruct H as (H1 & H2 & H3). destruct (remove_temporary_keeps s1 fs1) as (t' & fs & ->).
    by destruct s1.
  - destruct H as (H1 & H2).
    pose proof (recover_outcome old (copied staged) e s1 fs1 _ eq_refl H2) as H3.
    destruct (reraising publish_recover e (s1, fs1)) as [o [s2 fs2]]. cbn [fst snd].
    destruct H3 as [H3 H4]. destruct (remove_temporary_keeps s2 fs2) as (t' & fs & ->).
    split; [rewrite H1; by apply publish_outcome_temporary|].
    intros Hn. rewrite H1 in *. destruct (failing faults); [done|done].
Qed.

(** A publication with no previous tree is not so safe: a backup left by an
    interrupted run, partly deleted when the deletion fails, is renamed to the
    destination by the recovery. *)
Lemma publish_promotes_partial_backup (staged stale partial : tree) :
  ∃ s, publish_tree (Some staged)
         (mkSite None (Some stale) None, [Works; Works; Raises (Some partial)]) =
         (os_error, (s, [])) ∧ s.(destination) = Some partial ∧ s.(backup) = None.
Proof. eexists. split; [vm_compute; reflexivity|]. done. Qed.

(** ** Trees *)

Lemma list_empty_eq {A} (l : list A) : (∀ x, x ∈ l → False) → l = [].
Proof. destruct l as [|x l]; [done|]. intros H. destruct (H x). left. Qed.

Lemma sorted_paths_nil (keys : gset text) : sorted_paths keys = [] → keys = ∅.
Proof.
  unfold sorted_paths. intros H. apply leibniz_equiv, elements_empty_inv, Permutation_nil.
  rewrite <-(py_sorted_perm bytes_leb id (elements keys)), H. done.
Qed.

Lemma compare_entries_nil r e a :
  e ≠ OtherEntry → a ≠ OtherEntry → compare_entries r e a = [] ↔ e = a.
Proof.
  intros He Ha. unfold compare_entries.
  destruct e, a; try done; cbn; repeat case_bool_decide; naive_solver.
Qed.

Lemma entries_no_other t r e : entries t !! r = Some e → e ≠ OtherEntry.
Proof. destruct t as [t|]; cbn; [|done]. by intros [_ H]%map_lookup_filter_Some. Qed.

Lemma all_differences_nil e a :
  (∀ r x, e !! r = Some x → x ≠ OtherEntry) → (∀ r x, a !! r = Some x → x ≠ OtherEntry) →
  all_differences e a = [] ↔ e = a.
Proof.
  intros He Ha. unfold all_differences. split.
  - intros [H1 [H2 H3]%app_eq_nil]%app_eq_nil.
    apply fmap_nil_inv, sorted_paths_nil in H1, H2.
    apply empty_difference_subseteq_L in H1, H2.
    apply map_eq. intros r. destruct (e !! r) as [x|] eqn:Hx, (a !! r) as [y|] eqn:Hy.
    + f_equal. assert (r ∈ sorted_paths (dom e ∩ dom a)) as Hr.
      { unfold sorted_paths. apply py_sorted_elem, elem_of_elements, elem_of_intersection.
        by split; apply elem_of_dom. }
      apply (compare_entries_nil r); [by eapply He|by eapply Ha|].
      apply list_empty_eq. intros l Hl. apply (not_elem_of_nil l). rewrite <-H3.
      apply list_elem_of_bind. exists r. by rewrite Hx, Hy.
    + apply elem_of_dom_2 in Hx. apply not_elem_of_dom in Hy. by destruct Hy; apply H1.
    + apply elem_of_dom_2 in Hy. apply not_elem_of_dom in Hx. by destruct Hx; apply H2.
    + done.
  - intros ->. rewrite !difference_diag_L. cbn.
    apply list_empty_eq. intros l (r & Hl & Hr)%list_elem_of_bind.
    destruct (a !! r) as [x|] eqn:Hx; [|by apply not_elem_of_nil in Hl].
    rewrite (proj2 (compare_entries_nil r x x (Ha _ _ Hx) (Ha _ _ Hx)) eq_refl) in Hl.
    by apply not_elem_of_nil in Hl.
Qed.

(** two directory trees have no reported difference exactly when they hold
    the same links and regular files with the same contents (whatever the
    limit, as long as it is not negative), and a report never has more than
    one line beyond the limit. *)
Theorem tree_differences_exact (expected actual : option tree) (limit : Z) :
  0 <= limit →
  (tree_differences expected actual limit = [] ↔ entries expected = entries actual) ∧
  py_len (tree_differences expected actual limit) <= limit + 1.
Proof.
  intros Hl. unfold tree_differences. destruct (Z.ltb_spec limit
    (py_len (all_differences (entries expected) (entries actual)))) as [H|H].
  - split; [|].
    + split; [by intros [_ ?]%app_eq_nil|]. intros E.
      rewrite (proj2 (all_differences_nil _ _ (entries_no_other _) (entries_no_other _)) E) in H.
      unfold py_len in H. cbn in H. lia.
    + rewrite py_len_app. unfold py_slice_to. rewrite (slice_bound_in _ limit (conj Hl (Z.lt_le_incl _ _ H))).
      unfold py_len. rewrite length_take. cbn [length]. lia.
  - split; [|lia]. apply all_differences_nil; apply entries_no_other.
Qed.

Definition sample_tree : tree :=
  {[ txt "a.lean" := RegularFile [x01]; txt "b" := Symlink (txt "a.lean") ]}.

Lemma tree_differences_exact_witness :
  0 <= 40 ∧
  (tree_differences (Some sample_tree) (Some (<[txt "c" := OtherEntry]> sample_tree)) 40 = [] ↔
   entries (Some sample_tree) = entries (Some (<[txt "c" := OtherEntry]> sample_tree))) ∧
  tree_differences (Some sample_tree) (Some (<[txt "b" := RegularFile []]> sample_tree)) 40 =
    [txt "entry type differs: b (expected symlink, generated file)"].
Proof.
  split_and!; [lia| |vm_compute; reflexivity].
  assert (0 <= 40) as H by lia.
  destruct (tree_differences_exact (Some sample_tree)
    (Some (<[txt "c" := OtherEntry]> sample_tree)) 40 H) as [E _]. exact E.
Defined.

(** ** Manifests *)

Section manifest.
Context (resolve : path → path) (is_file : path → bool).

(** The entries of a manifest: its stripped lines, without blank lines and
    comments. *)
Definition manifest_lines (lines : list text) : list text :=
  filter (λ e, e ≠ [] ∧ startswith (txt "#") e = false) (strip <$> lines).

(** The file an entry names. *)
Definition candidate (root : path) (entry : text) : path := resolve (root ++ posix_parts entry).

(** An acceptable entry: relative, without a parent step, naming a file that
    resolves below the root. *)
Definition valid_entry (root : path) (entry : text) : Prop :=
  posix_absolute entry = false ∧ (txt ".." ∉ posix_parts entry) ∧
  (root `prefix_of` candidate root entry) ∧ is_file (candidate root entry) = true.

Lemma manifest_lines_cons raw lines :
  manifest_lines (raw :: lines) =
  if bool_decide (strip raw = []) || startswith (txt "#") (strip raw)
  then manifest_lines lines else strip raw :: manifest_lines lines.
Proof.
  unfold manifest_lines. rewrite fmap_cons, filter_cons.
  repeat case_decide; case_bool_decide; destruct (startswith _ _); naive_solver.
Qed.

Lemma read_entries_spec root lines n seen entries res :
  read_entries resolve is_file root n lines seen entries = inr res ↔
  Forall (valid_entry root) (manifest_lines lines) ∧
  NoDup (posix_parts <$> manifest_lines lines) ∧
  (∀ e, e ∈ manifest_lines lines → posix_parts e ∉ seen) ∧
  res = entries ++ (candidate root <$> manifest_lines lines) ∧ res ≠ [].
Proof.
  revert n seen entries. induction lines as [|raw lines IH]; intros n seen entries.
  - cbn. rewrite app_nil_r. destruct entries; split; [done|naive_solver|..].
    + intros [= <-]. split_and!; [constructor|constructor|set_solver|done|done].
    + naive_solver.
  - cbn [read_entries]. rewrite manifest_lines_cons. destruct (_ || _) eqn:Eb; [by rewrite IH|].
    set (e := strip raw) in *. clear Eb. rewrite Forall_cons, fmap_cons, NoDup_cons.
    unfold valid_entry at 1, is_below. fold (candidate root e).
    destruct (posix_absolute e); cbn [orb]; [naive_solver|].
    case_bool_decide as Hdots; [naive_solver|].
    case_bool_decide as Hseen.
    { split; [done|]. intros (_ & _ & H & _). exfalso. by apply (H e); [left|]. }
    case_bool_decide as Hbelow; cbn [negb]; [|naive_solver].
    destruct (is_file _); cbn [negb]; [|naive_solver].
    rewrite IH, fmap_cons, <-app_assoc. cbn [app].
    setoid_rewrite elem_of_cons.
    split.
    + intros (H1 & H2 & H3 & H4 & H5). split_and!; try done.
      * intros (e' & He & Hin)%list_elem_of_fmap. apply (H3 e' Hin). by left.
      * intros e' [->|Hin]; [done|]. intros Hs. apply (H3 e' Hin). by right.
    + intros ((_ & H1) & (H2 & H3) & H4 & H5 & H6). split_and!; try done.
      intros e' Hin [E|Hs]; [|by apply (H4 e'); [right|]].
      apply H2. rewrite <-E. by apply list_elem_of_fmap_2.
Qed.

(** a manifest is accepted exactly when it has at least one entry, its
    entries name distinct relative paths without parent steps, and each
    resolves to a file below the resolved root; the result lists those files
    in the manifest's order. *)
Theorem read_ordered_manifest_spec (manifest : text) (root : path) (files : list path) :
  let entries := manifest_lines (splitlines manifest) in
  let root' := resolve root in
  read_ordered_manifest resolve is_file manifest root = inr files ↔
  entries ≠ [] ∧ Forall (valid_entry root') entries ∧ NoDup (posix_parts <$> entries) ∧
  files = candidate root' <$> entries.
Proof.
  cbn zeta. unfold read_ordered_manifest. rewrite read_entries_spec. cbn. split.
  - intros (H1 & H2 & _ & -> & H4). split_and!; try done. intros E. by rewrite E in H4.
  - intros (H1 & H2 & H3 & ->). split_and!; try done; [set_solver|].
    by intros ?%fmap_nil_inv.
Qed.
End manifest.

(** A manifest with a comment, a blank line and two entries. *)
Definition sample_manifest : text :=
  txt "# generated" ++ [NL] ++ txt "src/a.c" ++ [NL; NL] ++ txt "  src/./b.c " ++ [NL].

Lemma read_ordered_manifest_spec_witness :
  manifest_lines (splitlines sample_manifest) = [txt "src/a.c"; txt "src/./b.c"] ∧
  read_ordered_manifest id (λ _, true) sample_manifest [txt "repo"] =
    inr [[txt "repo"; txt "src"; txt "a.c"]; [txt "repo"; txt "src"; txt "b.c"]].
Proof.
  assert (manifest_lines (splitlines sample_manifest) = [txt "src/a.c"; txt "src/./b.c"]) as E
    by (vm_compute; reflexivity).
  split; [exact E|]. apply (read_ordered_manifest_spec id (λ _, true)). rewrite E.
  split_and!; [done| |by apply (bool_decide_unpack _); vm_compute|vm_compute; reflexivity].
  repeat constructor; try (by apply (bool_decide_unpack _); vm_compute); by vm_compute.
Defined.

(** ** Shell words *)

Lemma plain_word acc w t :
  forallb is_shell_safe w = true →
  shell_split_from Plain (Some acc) (w ++ t) = shell_split_from Plain (Some (rev w ++ acc)) t.
Proof.
  revert acc. induction w as [|c w IH]; intros acc; cbn [forallb]; [done|].
  rewrite andb_true_iff. intros [Hc Hw]. cbn [app shell_split_from].
  assert (c ≠ " "%byte ∧ c ≠ "'"%byte ∧ c ≠ x22) as (H1 & H2 & H3).
  { split_and!; intros ->; by vm_compute in Hc. }
  rewrite !bool_decide_eq_false_2 by done. rewrite Hc, IH by done.
  cbn. by rewrite <-app_assoc.
Qed.

(** The escaped form of a single-quoted word. *)
Definition shell_escape (w : text) : text :=
  w ≫= λ c, if bool_decide (c = "'"%byte)
            then txt "'" ++ [x22; "'"%byte; x22] ++ txt "'" else [c].

Lemma quoted_quote acc u :
  shell_split_from Single (Some acc) ((txt "'" ++ [x22; "'"%byte; x22] ++ txt "'") ++ u) =
  shell_split_from Single (Some ("'"%byte :: acc)) u.
Proof. reflexivity. Qed.

Lemma quoted_text acc w t :
  shell_split_from Single (Some acc) (shell_escape w ++ txt "'" ++ t) =
  shell_split_from Plain (Some (rev w ++ acc)) t.
Proof.
  revert acc. induction w as [|c w IH]; intros acc; [done|].
  unfold shell_escape in *. rewrite bind_cons, <-app_assoc.
  case_bool_decide as Hc; [subst c|].
  - rewrite quoted_quote, IH. cbn. by rewrite <-app_assoc.
  - cbn [app shell_split_from]. rewrite bool_decide_eq_false_2 by done. rewrite IH.
    cbn. by rewrite <-app_assoc.
Qed.

Lemma shell_word w t :
  shell_split_from Plain None (shell_quote w ++ t) =
  shell_split_from Plain (Some (rev w)) t.
Proof.
  unfold shell_quote. destruct w as [|c w]; [done|].
  destruct (forallb is_shell_safe (c :: w)) eqn:E.
  - pose proof (plain_word [] (c :: w) t E) as H. rewrite app_nil_r in H.
    rewrite <-H. clear H. cbn [forallb] in E. apply andb_true_iff in E as [Hc _].
    assert (c ≠ " "%byte ∧ c ≠ "'"%byte ∧ c ≠ x22) as (H1 & H2 & H3).
    { split_and!; intros ->; by vm_compute in Hc. }
    cbn [app shell_split_from]. rewrite !bool_decide_eq_false_2 by done. by rewrite Hc.
  - pose proof (quoted_text [] (c :: w) t) as H. rewrite app_nil_r in H. rewrite <-H.
    rewrite <-!app_assoc. done.
Qed.

Lemma shell_words ws : shell_split (join (txt " ") (shell_quote <$> ws)) = Some ws.
Proof.
  unfold shell_split. induction ws as [|w [|w' ws] IH]; [done|..].
  - cbn [fmap list_fmap join]. rewrite <-(app_nil_r (shell_quote w)), shell_word. cbn.
    by rewrite rev_involutive.
  - change (join (txt " ") (shell_quote <$> w :: w' :: ws)) with
      (shell_quote w ++ " "%byte :: join (txt " ") (shell_quote <$> w' :: ws)).
    rewrite shell_word. cbn [shell_split_from].
    rewrite bool_decide_eq_true_2 by done. rewrite IH. cbn. by rewrite rev_involutive.
Qed.

(** the words rendered for a recipe are read back by a shell exactly as the
    paths, each preceded by the prefix when there is one, whatever characters
    they contain. *)
Theorem render_make_words_roundtrip (paths : list text) (prefix : text) :
  shell_split (render_make_words paths prefix) =
  Some (paths ≫= λ p, match prefix with [] => [p] | _ => [prefix; p] end).
Proof.
  rewrite <-shell_words. unfold render_make_words. f_equal. f_equal.
  induction paths as [|p paths IH]; [done|]. rewrite !bind_cons, fmap_app, IH. by destruct prefix.
Qed.


(** ** Logged commands *)

Lemma slice_to_bounded {A} (l : list A) n :
  0 <= n → py_len (py_slice_to l n) <= n ∧ (py_slice_to l n `prefix_of` l).
Proof.
  intros Hn. unfold py_slice_to. split.
  - unfold py_len. rewrite length_take. unfold slice_bound. case (Z.ltb_spec n 0); lia.
  - apply prefix_take.
Qed.

(** The excerpt printed for a failed command. *)
Definition failure_excerpt (output : text) (n : Z) : list text :=
  match List.filter DIAGNOSTIC_RE (splitlines output) with
  | [] => py_slice_to (last_lines n (splitlines output)) n
  | diagnostics => py_slice_to diagnostics n
  end.

Lemma run_logged_cases returncode output n strict :
  let failed := bool_decide (returncode ≠ 0 ∨
    strict = true ∧ List.filter DIAGNOSTIC_RE (splitlines output) ≠ []) in
  run_logged_command returncode output n strict =
  if failed then mkLogged (if returncode =? 0 then 1 else returncode) output
                   (failure_excerpt output n)
  else mkLogged 0 output [].
Proof.
  cbn zeta. unfold run_logged_command, failure_excerpt.
  destruct (Z.eqb_spec returncode 0), strict, (List.filter _ _) as [|d ds]; cbn;
    repeat case_bool_decide; naive_solver.
Qed.

Lemma failure_excerpt_spec output n :
  0 <= n →
  py_len (failure_excerpt output n) <= n ∧
  ((failure_excerpt output n `prefix_of` List.filter DIAGNOSTIC_RE (splitlines output)) ∨
   List.filter DIAGNOSTIC_RE (splitlines output) = [] ∧
   (failure_excerpt output n `prefix_of` last_lines n (splitlines output))).
Proof.
  intros Hn. unfold failure_excerpt. destruct (List.filter _ _) as [|d ds].
  - destruct (slice_to_bounded (last_lines n (splitlines output)) n Hn). naive_solver.
  - destruct (slice_to_bounded (d :: ds) n Hn). naive_solver.
Qed.

(** a logged command reports success exactly when the process succeeded
    and, if diagnostics count as failures, its output has none; otherwise it
    reports the process's own status, or 1 when that was zero. The complete
    output is always kept; the excerpt of a failure is an initial part of the
    diagnostics, or of the last lines when there are none, within the limit. *)
Theorem run_logged_command_spec (returncode : Z) (output : text) (n : Z) (strict : bool) :
  0 <= n →
  let r := run_logged_command returncode output n strict in
  let diagnostics := List.filter DIAGNOSTIC_RE (splitlines output) in
  (r.(log_status) = 0 ↔ returncode = 0 ∧ (strict = true → diagnostics = [])) ∧
  (returncode ≠ 0 → r.(log_status) = returncode) ∧
  r.(log_output) = output ∧ py_len r.(log_excerpt) <= n ∧
  ((r.(log_excerpt) `prefix_of` diagnostics) ∨
   diagnostics = [] ∧ (r.(log_excerpt) `prefix_of` last_lines n (splitlines output))).
Proof.
  intros Hn. cbn zeta. rewrite run_logged_cases. destruct (failure_excerpt_spec output n Hn).
  set (ds := List.filter _ _) in *. clearbody ds. case_bool_decide as F; cbn.
  - split_and!; try done.
    + split.
      * destruct (Z.eqb_spec returncode 0); lia.
      * intros [-> Hd]. destruct F as [F|[Hs Hds]]; [done|]. by destruct Hds; apply Hd.
    + intros Hr. by destruct (Z.eqb_spec returncode 0).
  - assert (returncode = 0) as -> by (destruct (decide (returncode = 0)); naive_solver).
    split_and!; try done; [|by left; apply prefix_nil]. split; [|done]. intros _.
    split; [done|]. intros ->. destruct ds; naive_solver.
Qed.

Lemma run_logged_command_spec_witness :
  let output := txt "ok" ++ [NL] ++ txt "x.c:1: Warning: unused" ++ [NL] in
  0 <= 20 ∧
  (run_logged_command 0 output 20 true).(log_status) = 1 ∧
  ((run_logged_command 0 output 20 false).(log_status) = 0 ↔
   0 = 0 ∧ (false = true → List.filter DIAGNOSTIC_RE (splitlines output) = [])).
Proof.
  cbn zeta. split_and!; [lia|vm_compute; reflexivity|].
  assert (0 <= 20) as Hn by lia.
  destruct (run_logged_command_spec 0 (txt "ok" ++ [NL] ++ txt "x.c:1: Warning: unused" ++ [NL])
    20 false Hn) as [H _]. exact H.
Defined.
