(* ===== verification/Json.v ===== *)
(** * Json: JSON and TOML values

    The values the developer tools read and write: what [json.loads] and
    [tomllib.loads] return. An object is the list of its items in insertion
    order, with distinct keys. *)

From Stdlib Require Import ZArith Lia Strings.Byte Floats.SpecFloat.
From stdpp Require Import base tactics option list gmap.
From S2P Require Import Prelude PyBytes PyText.
Local Open Scope Z_scope.

#[warnings="-register-all"]
Inductive json : Type :=
| JNull
| JBool (b : bool)
| JInt (z : Z)
| JFloat (x : float)
| JStr (t : text)
| JArr (items : list json)
| JObj (fields : list (text * json)).

(** Induction with the hypothesis for every item and field. *)
Section json_induction.
Context (P : json → Prop).
Context (Hnull : P JNull) (Hbool : ∀ b, P (JBool b)) (Hint : ∀ z, P (JInt z))
  (Hfloat : ∀ l, P (JFloat l)) (Hstr : ∀ t, P (JStr t))
  (Harr : ∀ l, Forall P l → P (JArr l))
  (Hobj : ∀ l, Forall (λ kv : text * json, P kv.2) l → P (JObj l)).

Fixpoint json_induction (v : json) : P v :=
  match v with
  | JNull => Hnull
  | JBool b => Hbool b
  | JInt z => Hint z
  | JFloat l => Hfloat l
  | JStr t => Hstr t
  | JArr l => Harr l ((fix go l : Forall P l :=
      match l with
      | [] => Forall_nil_2 P
      | x :: l' => Forall_cons_2 P x l' (json_induction x) (go l')
      end) l)
  | JObj l => Hobj l ((fix go l : Forall (λ kv : text * json, P kv.2) l :=
      match l with
      | [] => Forall_nil_2 _
      | kv :: l' => Forall_cons_2 _ kv l' (json_induction kv.2) (go l')
      end) l)
  end.
End json_induction.

(** The item of an object: [d.get(k)] of a dict. *)
Fixpoint field (k : text) (fields : list (text * json)) : option json :=
  match fields with
  | [] => None
  | (k', v) :: fields' => if decide (k = k') then Some v else field k fields'
  end.

(** [v[k]] for a string [k]: [None] when it raises ([KeyError] on a missing
    key, [TypeError] on anything but an object). *)
Definition getitem (k : string) (v : json) : option json :=
  match v with JObj fields => field (txt k) fields | _ => None end.

(** [k in v] for an object. *)
Definition has_field (k : string) (fields : list (text * json)) : bool :=
  bool_decide (is_Some (field (txt k) fields)).

Definition as_str (v : json) : option text := match v with JStr t => Some t | _ => None end.
Definition as_arr (v : json) : option (list json) := match v with JArr l => Some l | _ => None end.
Definition as_obj (v : json) : option (list (text * json)) :=
  match v with JObj l => Some l | _ => None end.

(** [isinstance(v, int)]: booleans are integers in Python. *)
Definition as_int (v : json) : option Z :=
  match v with JInt z => Some z | JBool b => Some (Z.b2z b) | _ => None end.

(** [bool(v)], the truth value of a condition: a number is false when it is
    zero, a container when it is empty. *)
Definition truthy (v : json) : bool :=
  match v with
  | JNull => false
  | JBool b => b
  | JInt z => negb (z =? 0)
  | JFloat x => negb (fl_is_zero x)
  | JStr t => negb (bool_decide (t = []))
  | JArr l => match l with [] => false | _ => true end
  | JObj l => match l with [] => false | _ => true end
  end.

(** ** Equality: [a == b]

    Objects are compared as maps, and numbers by value ([True == 1 == 1.0]). *)
Fixpoint json_eqb (a b : json) : bool :=
  match a, b with
  | JNull, JNull => true
  | JFloat x, JFloat y => SFeqb x y
  | JFloat x, JInt z | JInt z, JFloat x => fl_eq_int x z
  | JFloat x, JBool b | JBool b, JFloat x => fl_eq_int x (Z.b2z b)
  | JStr t, JStr t' => bool_decide (t = t')
  | JArr l, JArr l' =>
      (fix go l l' := match l, l' with
         | [], [] => true
         | x :: l, y :: l' => json_eqb x y && go l l'
         | _, _ => false
         end) l l'
  | JObj l, JObj l' =>
      (length l =? length l')%nat &&
      (fix go (l : list (text * json)) := match l with
         | [] => true
         | (k, x) :: l => match field k l' with Some y => json_eqb x y | None => false end && go l
         end) l
  | (JBool _ | JInt _), (JBool _ | JInt _) => bool_decide (as_int a = as_int b)
  | _, _ => false
  end.

(** ** The values inside a value *)

Fixpoint subvalues (v : json) : list json :=
  v :: match v with
       | JArr l => (fix go l := match l with [] => [] | x :: l => subvalues x ++ go l end) l
       | JObj l => (fix go (l : list (text * json)) :=
                      match l with [] => [] | (_, x) :: l => subvalues x ++ go l end) l
       | _ => []
       end.

Lemma subvalues_arr l : subvalues (JArr l) = JArr l :: (l ≫= subvalues).
Proof. reflexivity. Qed.

Lemma subvalues_obj l : subvalues (JObj l) = JObj l :: (l.*2 ≫= subvalues).
Proof.
  cbn. f_equal. induction l as [|[k x] l IH]; [done|]. by rewrite fmap_cons, bind_cons, <-IH.
Qed.

(** The spaces [int] allows around a number. *)
Definition int_space (c : byte) : bool :=
  chr_in "009" "013" c || bool_decide (c = " "%byte) || bool_decide (c = "133"%byte) ||
  bool_decide (c = "160"%byte).
Fixpoint int_lstrip (t : text) : text :=
  match t with
  | c :: t' => if int_space c then int_lstrip t' else t
  | [] => []
  end.
Definition int_strip (t : text) : text := rev (int_lstrip (rev (int_lstrip t))).

(** [int(t)] of a string: optional sign, then digits that may be separated by
    single underscores. *)
Fixpoint int_digits (acc : Z) (after_digit : bool) (t : text) : option Z :=
  match t with
  | [] => if after_digit then Some acc else None
  | c :: t' =>
      if is_digit c then int_digits (acc * 10 + (Z_of_byte c - 48)) true t'
      else if bool_decide (c = "_"%byte) && after_digit then int_digits acc false t'
      else None
  end.

Definition int_of_text (t : text) : option Z :=
  match int_strip t with
  | c :: t' => if bool_decide (c = "-"%byte) then Z.opp <$> int_digits 0 false t'
               else if bool_decide (c = "+"%byte) then int_digits 0 false t'
               else int_digits 0 false (c :: t')
  | [] => None
  end.
