(* ===== verification/Corpus.v ===== *)
(** * Corpus: the pinned fixture corpus

    [devtools/corpus.py]: the manifest, the tree and archive inventories, and
    the provisioning of a destination directory. Paths are ASCII; a tree holds
    its regular files by path components. [json.loads], the text of a
    container, and the archive format are parameters. *)
From Stdlib Require Import ZArith Lia Strings.Byte Sorting.Sorted.
From stdpp Require Import base tactics option list gmap.
From S2P Require Import Prelude PyBytes Sha256 PyText BuildSupport Json.
Local Open Scope Z_scope.

Definition TREE_DIGEST_SCHEMA : Z := 1.

(** [BuildSupportError] of this module, by the check that raised it. *)
Inductive corpus_error : Type :=
| InvalidManifest
| UncaughtOverflow
| UnsupportedManifestSchema (version : Z)
| UnsupportedExtractorSchema (version : Z)
| NoIncludeDirectories
| UnsafeArchivePath (entry : text)
| InventoryNotPositive
| MissingCorpusDirectory (directory : text)
| InvalidFixtureJson (file : path)
| VerificationFailed (mismatches : list text)
| UnsafeMember (name : text)
| SpecialMember (name : text)
| NotADirectoryError
| RefusingToReplace
| ArchiveDigestMismatch (actual : text)
| TransferFailed.

Abbreviation result A := (corpus_error + A)%type.

#[global] Instance result_ret : MRet (sum corpus_error) := λ A a, inr a.
#[global] Instance result_bind : MBind (sum corpus_error) := λ A B f m,
  match m with inl e => inl e | inr a => f a end.

Record CorpusManifest : Type := mkCorpusManifest {
  schema_version : Z;
  extractor_schema : Z;
  cm_name : text;
  cm_version : text;
  source_tag : text;
  source_commit : text;
  t8n_version : text;
  generation_args : text;
  archive_url : text;
  archive_sha256 : text;
  archive_root : text;
  include_directories : list text;
  cm_tree_sha256 : text;
  expected_json_files : Z;
  expected_cases : Z;
}.

Record CorpusInventory : Type := mkCorpusInventory {
  tree_sha256 : text;
  json_files : Z;
  embedded_cases : Z;
}.

(** ** The manifest *)

(** [_sha256_value]; [None] is its [ValueError]. *)
Definition _sha256_value (value : text) : option text :=
  let normalized := lower (removeprefix (txt "sha256:") value) in
  if is_hex_string 64 normalized then Some normalized else None.

(** An entry that leaves the directory it is joined to. *)
Definition unsafe_path (entry : text) : bool :=
  posix_absolute entry || bool_decide (txt ".." ∈ posix_parts entry).

Section manifest.
(** [str(v)] of a float or a container. *)
Context (py_repr : json → text).

Definition to_str (v : json) : text :=
  match v with
  | JStr t => t
  | JInt z => show z
  | JBool b => if b then txt "True" else txt "False"
  | JNull => txt "None"
  | JFloat _ | JArr _ | JObj _ => py_repr v
  end.

(** [int(v)] *)
Definition to_int (v : json) : outcome Z :=
  match v with
  | JInt z => Ok z
  | JBool b => Ok (Z.b2z b)
  | JStr t => match int_of_text t with Some z => Ok z | None => Raise (ValueError "int") end
  | JFloat x => fl_trunc x
  | _ => Raise (TypeError "int")
  end.

(** Iterating over a value: items, characters or keys. *)
Definition iterate (v : json) : outcome (list json) :=
  match v with
  | JArr l => Ok l
  | JStr t => Ok ((λ c, JStr [c]) <$> t)
  | JObj l => Ok ((λ kv : text * json, JStr kv.1) <$> l)
  | _ => Raise (TypeError "not iterable")
  end.

(** [v[k]]; anything but an object raises as a missing key does, since the
    caller treats both alike. *)
Definition required (k : string) (v : json) : outcome json :=
  match getitem k v with Some x => Ok x | None => Raise KeyError end.

Definition str_field (k : string) (v : json) : outcome text :=
  x ← required k v; Ok (to_str x).
Definition int_field (k : string) (v : json) : outcome Z := required k v ≫= to_int.
Definition digest_field (k : string) (v : json) : outcome text :=
  t ← str_field k v;
  match _sha256_value t with Some d => Ok d | None => Raise (ValueError "invalid SHA-256") end.

(** The [try] block of [load_manifest]. *)
Definition read_manifest (data : json) : outcome CorpusManifest :=
  corpus ← required "corpus" data;
  source ← required "source" data;
  archive ← required "archive" data;
  inventory ← required "inventory" data;
  schema_version ← int_field "schema_version" data;
  extractor_schema ← int_field "extractor_schema" data;
  name ← str_field "name" corpus;
  version ← str_field "version" corpus;
  source_tag ← str_field "tag" source;
  source_commit ← str_field "commit" source;
  t8n_version ← str_field "t8n_version" source;
  generation_args ← str_field "generation_args" source;
  archive_url ← str_field "url" archive;
  archive_sha256 ← digest_field "sha256" archive;
  archive_root ← str_field "root" archive;
  include_directories ← required "include_directories" archive ≫= iterate;
  tree_sha256 ← digest_field "tree_sha256" inventory;
  expected_json_files ← int_field "json_files" inventory;
  expected_cases ← int_field "embedded_cases" inventory;
  mret (mkCorpusManifest schema_version extractor_schema name version source_tag source_commit
    t8n_version generation_args archive_url archive_sha256 archive_root
    (to_str <$> include_directories) tree_sha256 expected_json_files expected_cases).

Definition load_manifest (data : json) : result CorpusManifest :=
  match read_manifest data with
  | Raise OverflowError => inl UncaughtOverflow
  | Raise _ => inl InvalidManifest
  | Ok manifest =>
      if negb (manifest.(schema_version) =? 1) then
        inl (UnsupportedManifestSchema manifest.(schema_version))
      else if negb (manifest.(extractor_schema) =? TREE_DIGEST_SCHEMA) then
        inl (UnsupportedExtractorSchema manifest.(extractor_schema))
      else if bool_decide (manifest.(include_directories) = []) then inl NoIncludeDirectories
      else
        match List.find unsafe_path (manifest.(archive_root) :: manifest.(include_directories)) with
        | Some entry => inl (UnsafeArchivePath entry)
        | None =>
            if (manifest.(expected_json_files) <=? 0) || (manifest.(expected_cases) <=? 0)
            then inl InventoryNotPositive else inr manifest
        end
  end.
End manifest.

(** ** Inventories *)

Fixpoint _count_embedded_cases (value : json) : Z :=
  match value with
  | JObj fields =>
      Z.b2z (has_field "statelessInputBytes" fields && has_field "statelessOutputBytes" fields) +
      (fix go (l : list (text * json)) :=
         match l with [] => 0 | (_, item) :: l => _count_embedded_cases item + go l end) fields
  | JArr items =>
      (fix go l := match l with [] => 0 | item :: l => _count_embedded_cases item + go l end) items
  | _ => 0
  end.

(** A regular file of a tree: its path below the root, and its content. *)
Abbreviation file := (path * bytes)%type.

(** A corpus directory: which directories exist, and the files. *)
Record corpus_tree : Type := mkCorpusTree {
  directories : list path;
  files : list file;
}.

(** The order of [pathlib] paths: component by component. *)
Fixpoint path_leb (p q : path) : bool :=
  match p, q with
  | [], _ => true
  | _ :: _, [] => false
  | a :: p', b :: q' => if decide (a = b) then path_leb p' q' else bytes_leb a b
  end.

Definition as_posix (p : path) : text := join (txt "/") p.

(** Whether the name of a path matches [*.json]. *)
Definition json_name (p : path) : bool :=
  match last p with Some name => endswith (txt ".json") name | None => false end.

(** The part of [fixture_paths] under one directory. *)
Definition directory_files (tree : corpus_tree) (directory : text) : list file :=
  py_sorted path_leb fst (filter (λ f : file,
    (posix_parts directory `prefix_of` f.1) ∧ json_name f.1 = true) tree.(files)).

(** One step of the generator [fixture_paths]. *)
Definition fixture_paths (tree : corpus_tree) (directory : text) : result (list file) :=
  if bool_decide (posix_parts directory ∈ tree.(directories))
  then mret (directory_files tree directory)
  else inl (MissingCorpusDirectory directory).

(** [int.to_bytes(8, "big")] of a length. *)
Definition length_prefix (n : Z) : bytes := be_bytes 8 n.

(** What a fixture adds to the tree digest. *)
Definition digest_frame (f : file) : bytes :=
  let relative := as_posix f.1 in
  length_prefix (py_len relative) ++ relative ++ sha256 f.2.

(** Lower-case hexadecimal. *)
Definition hex_digit (n : Z) : byte := byte_wrap (if n <? 10 then 48 + n else 87 + n).
Definition hexdigest (digest : bytes) : text :=
  digest ≫= λ b, [hex_digit (Z_of_byte b / 16); hex_digit (Z_of_byte b mod 16)].

(** A download: [inl] leaves a partial file where the transfer stopped. *)
Abbreviation transfer := (option bytes + bytes)%type.

Section inventory.
Context (json_loads : bytes → option json).

(** The cases of one fixture. *)
Definition fixture_cases (f : file) : result Z :=
  match json_loads f.2 with
  | Some value => mret (_count_embedded_cases value)
  | None => inl (InvalidFixtureJson f.1)
  end.

(** The inventory of the fixtures in the order they are hashed. *)
Definition summarise (fixtures : list (file * Z)) : CorpusInventory :=
  mkCorpusInventory (hexdigest (sha256 (fixtures.*1 ≫= digest_frame)))
    (py_len fixtures) (foldr Z.add 0 fixtures.*2).

Definition count_fixtures (fixtures : list file) : result (list (file * Z)) :=
  mapM (λ f, cases ← fixture_cases f; mret (f, cases)) fixtures.

(** A directory is looked at only after the fixtures of the previous ones were
    read. *)
Definition inventory_corpus (tree : corpus_tree) (directories_ : list text) :
    result CorpusInventory :=
  groups ← mapM (λ directory,
    fixtures ← fixture_paths tree directory; count_fixtures fixtures) directories_;
  mret (summarise (concat groups)).

(** An archive member. *)
Inductive member_kind : Type := RegularMember | DirectoryMember | LinkMember | DeviceMember.
Record member : Type := mkMember {
  member_name : text;
  kind : member_kind;
  content : bytes;
}.

Definition _safe_members (members : list member) : result (list member) :=
  mapM (λ m,
    if unsafe_path m.(member_name) then inl (UnsafeMember m.(member_name))
    else match m.(kind) with
         | LinkMember | DeviceMember => inl (SpecialMember m.(member_name))
         | _ => mret m
         end) members.

(** [path.suffix == ".json"]: the name has a stem before the suffix. *)
Definition json_suffix (p : path) : bool :=
  match last p with
  | Some name => endswith (txt ".json") name && (5 <? py_len name)
  | None => false
  end.

(** Whether a member is a fixture of an included directory. *)
Definition included (manifest : CorpusManifest) (m : member) : bool :=
  let path := posix_parts m.(member_name) in
  match m.(kind) with RegularMember => true | _ => false end && json_suffix path &&
  existsb (λ directory,
    bool_decide ((posix_parts manifest.(archive_root) ++ posix_parts directory)
      `prefix_of` path)) manifest.(include_directories).

(** The fixtures an archive includes, with paths relative to its root. *)
Definition included_files (manifest : CorpusManifest) (members : list member) : list file :=
  (λ m, (drop (length (posix_parts manifest.(archive_root))) (posix_parts m.(member_name)),
         m.(content))) <$> List.filter (included manifest) members.

Definition inventory_archive (members : list member) (manifest : CorpusManifest) :
    result CorpusInventory :=
  members ← _safe_members members;
  fixtures ← count_fixtures
    (py_sorted bytes_leb (λ f : file, as_posix f.1) (included_files manifest members));
  mret (summarise fixtures).

(** ** Verification *)

Definition mismatches (inventory : CorpusInventory) (manifest : CorpusManifest) : list text :=
  (if bool_decide (inventory.(tree_sha256) = manifest.(cm_tree_sha256)) then [] else
     [txt "tree SHA-256 " ++ inventory.(tree_sha256) ++ txt " != " ++ manifest.(cm_tree_sha256)]) ++
  (if inventory.(json_files) =? manifest.(expected_json_files) then [] else
     [txt "JSON files " ++ show inventory.(json_files) ++ txt " != " ++
        show manifest.(expected_json_files)]) ++
  (if inventory.(embedded_cases) =? manifest.(expected_cases) then [] else
     [txt "embedded cases " ++ show inventory.(embedded_cases) ++ txt " != " ++
        show manifest.(expected_cases)]).

Definition verify_corpus (tree : corpus_tree) (manifest : CorpusManifest) :
    result CorpusInventory :=
  inventory ← inventory_corpus tree manifest.(include_directories);
  match mismatches inventory manifest with
  | [] => mret inventory
  | ms => inl (VerificationFailed ms)
  end.

(** ** Provisioning *)

Inductive destination_state : Type :=
| Missing
| NotADirectory
| Directory (tree : corpus_tree).

(** The paths provisioning touches: the destination, the cached archive and
    the partial download beside it. *)
Record disk : Type := mkDisk {
  dk_destination : destination_state;
  dk_archive : option bytes;
  dk_download : option bytes;
}.

Definition set_dk_destination (v : destination_state) (d : disk) : disk :=
  mkDisk v d.(dk_archive) d.(dk_download).
Definition set_dk_archive (v : option bytes) (d : disk) : disk :=
  mkDisk d.(dk_destination) v d.(dk_download).
Definition set_dk_download (v : option bytes) (d : disk) : disk :=
  mkDisk d.(dk_destination) d.(dk_archive) v.

Definition file_sha256 (content : bytes) : text := hexdigest (sha256 content).

(** The staged copy of the included directories. Copying onto a directory that
    already exists raises. *)
Fixpoint stage (extracted : corpus_tree) (root : path) (directories_ : list text)
    (staged : corpus_tree) : result corpus_tree :=
  match directories_ with
  | [] => inr staged
  | directory :: rest =>
      let target := posix_parts directory in
      let source := root ++ target in
      if bool_decide (source ∉ extracted.(directories)) then inl (MissingCorpusDirectory directory)
      else if existsb (λ q, bool_decide (target `prefix_of` q)) staged.(directories)
      then inl TransferFailed
      else
        let under {A} (f : A → path) : list A → list A :=
          List.filter (λ x, bool_decide (source `prefix_of` f x)) in
        stage extracted root rest (mkCorpusTree
          (staged.(directories) ++ (drop (length root) <$> under id extracted.(directories)))
          (staged.(files) ++
             ((λ f : file, (drop (length root) f.1, f.2)) <$> under fst extracted.(files))))
  end.

(** What the URL sends, the tree in an archive ([None] when extraction raises),
    and whether the final rename works. *)
Context (download : transfer) (extract : bytes → option corpus_tree) (renames : bool).

(** The cached archive, if its digest is the pinned one. *)
Definition cached (manifest : CorpusManifest) (d : disk) : option bytes :=
  archive ← d.(dk_archive);
  if bool_decide (file_sha256 archive = manifest.(archive_sha256)) then Some archive else None.

(** The cached archive, or else the authenticated download. *)
Definition fetch_archive (manifest : CorpusManifest) : disk → result bytes * disk := λ d,
  match cached manifest d with
  | Some archive => (inr archive, d)
  | None =>
      match download with
      | inl partial => (inl TransferFailed, set_dk_download partial d)
      | inr body =>
          let actual := file_sha256 body in
          if bool_decide (actual = manifest.(archive_sha256))
          then (inr body, set_dk_archive (Some body) (set_dk_download None d))
          else (inl (ArchiveDigestMismatch actual), set_dk_download None d)
      end
  end.

Definition provision_corpus (manifest : CorpusManifest) : disk → result CorpusInventory * disk := λ d,
  match d.(dk_destination) with
  | NotADirectory => (inl NotADirectoryError, d)
  | Directory tree =>
      match verify_corpus tree manifest with
      | inr inventory => (inr inventory, d)
      | inl _ => (inl RefusingToReplace, d)
      end
  | Missing =>
      let '(fetched, d) := fetch_archive manifest d in
      let staged :=
        archive ← fetched;
        extracted ← from_option inr (inl TransferFailed) (extract archive);
        staged ← stage extracted (posix_parts manifest.(archive_root))
                   manifest.(include_directories) (mkCorpusTree [] []);
        inventory ← verify_corpus staged manifest;
        if renames then inr (staged, inventory) else inl TransferFailed in
      match staged with
      | inl e => (inl e, d)
      | inr (staged, inventory) => (inr inventory, set_dk_destination (Directory staged) d)
      end
  end.
End inventory.

(** * Correctness of the corpus tooling

    Accepted manifests are confined and well formed, the case count counts the
    right objects, equal tree digests come from equal trees unless SHA-256
    collides, and provisioning installs only verified trees. *)

(** ** The manifest *)

Lemma lower_hex c : is_hex c = true → lower_char c = c.
Proof. by destruct c. Qed.

Lemma sha256_value_shape value t :
  _sha256_value value = Some t → is_hex_string 64 t = true ∧ _sha256_value t = Some t.
Proof.
  unfold _sha256_value. destruct (is_hex_string 64 _) eqn:E; [|done]. intros [= <-].
  split; [done|]. set (n := lower _) in *. clearbody n.
  assert (startswith (txt "sha256:") n = false) as Hp.
  { destruct (startswith _ n) eqn:S; [|done]. apply startswith_spec in S as [u ->].
    apply is_hex_string_spec in E as [_ H]. apply Forall_app in H as [H _].
    apply Forall_cons_1 in H as [H _]. by vm_compute in H. }
  assert (lower n = n) as Hl.
  { clear Hp. apply is_hex_string_spec in E as [_ H]. unfold lower.
    induction H as [|c n Hc Hn IH]; [done|]. rewrite fmap_cons, IH. f_equal.
    by apply lower_hex. }
  unfold removeprefix. by rewrite Hp, Hl, E.
Qed.

(** An entry that stays in the directory it is joined to. *)
Definition confined (entry : text) : Prop :=
  posix_absolute entry = false ∧ txt ".." ∉ posix_parts entry.

Lemma unsafe_path_false entry : unsafe_path entry = false ↔ confined entry.
Proof. unfold unsafe_path, confined. by rewrite orb_false_iff, bool_decide_eq_false. Qed.

Lemma digest_field_shape py_repr k v d :
  digest_field py_repr k v = Ok d → is_hex_string 64 d = true.
Proof.
  unfold digest_field. intros H. apply bind_Ok in H as (t & _ & H).
  destruct (_sha256_value t) eqn:E; [|done]. injection H as <-. by eapply sha256_value_shape.
Qed.

Lemma read_manifest_hashes py_repr data m :
  read_manifest py_repr data = Ok m →
  is_hex_string 64 m.(archive_sha256) = true ∧ is_hex_string 64 m.(cm_tree_sha256) = true.
Proof.
  unfold read_manifest. intros H.
  repeat (apply bind_Ok in H as (? & ? & H)). injection H as <-. cbn.
  split; by eapply digest_field_shape.
Qed.

(** an accepted corpus manifest has the supported schemas, normalised
    SHA-256 digests, at least one included directory, an archive root and
    included directories that cannot leave the directory they are joined to,
    and a positive expected inventory. *)
Theorem load_manifest_safe (py_repr : json → text) (data : json) (m : CorpusManifest) :
  load_manifest py_repr data = inr m →
  m.(schema_version) = 1 ∧ m.(extractor_schema) = TREE_DIGEST_SCHEMA ∧
  is_hex_string 64 m.(archive_sha256) = true ∧ is_hex_string 64 m.(cm_tree_sha256) = true ∧
  m.(include_directories) ≠ [] ∧
  Forall confined (m.(archive_root) :: m.(include_directories)) ∧
  0 < m.(expected_json_files) ∧ 0 < m.(expected_cases).
Proof.
  unfold load_manifest. destruct (read_manifest py_repr data) as [m'|[]] eqn:R; try done.
  apply read_manifest_hashes in R.
  destruct (Z.eqb_spec m'.(schema_version) 1); [|done].
  destruct (Z.eqb_spec m'.(extractor_schema) TREE_DIGEST_SCHEMA); [|done]. cbn [negb].
  case_bool_decide as Hd; [done|]. destruct (List.find _ _) as [e'|] eqn:F; [done|].
  destruct (_ || _) eqn:P; [done|]. intros [= <-].
  apply orb_false_iff in P as [P1 P2]. apply Z.leb_gt in P1, P2.
  split_and!; try done; try apply R.
  apply Forall_forall. intros x Hx. apply unsafe_path_false.
  by eapply find_none in F; [|by apply list_elem_of_In].
Qed.

(** The pinned manifest, with its digests. *)
Definition obj (fields : list (string * json)) : json :=
  JObj ((λ kv : string * json, (txt kv.1, kv.2)) <$> fields).
Definition str (s : string) : json := JStr (txt s).

Definition sample_manifest_data : json :=
  obj [("schema_version", JInt 1); ("extractor_schema", JInt 1);
    ("corpus", obj [("name", str "tests-zkevm"); ("version", str "v0.6.2")]);
    ("source", obj [("tag", str "tests-zkevm@v0.6.2"); ("commit", str "e5a8caf1");
       ("t8n_version", str "2.19.0"); ("generation_args", str "fill")]);
    ("archive", obj [("url", str "https://example.invalid/fixtures.tar.gz");
       ("sha256", str "sha256:CF9395B2CB1A87C195FD827EA03DCE65A37C6036BB182441DA28E7B0F6D45F40");
       ("root", str "fixtures");
       ("include_directories", JArr [str "blockchain_tests"; str "blockchain_tests_engine"])]);
    ("inventory", obj [
       ("tree_sha256", str "881def9621d54b043ab49de56b9d019024eeac9ed3fef298d6ff081af5aa22d9");
       ("json_files", JInt 6333); ("embedded_cases", JInt 26104)])]%string.

Lemma load_manifest_safe_witness :
  ∃ m, load_manifest (λ _, []) sample_manifest_data = inr m ∧
    is_hex_string 64 m.(archive_sha256) = true ∧
    Forall confined (m.(archive_root) :: m.(include_directories)).
Proof.
  assert (∃ m, load_manifest (λ _, []) sample_manifest_data = inr m) as [m Hm]
    by (eexists; vm_compute; reflexivity).
  exists m. split; [exact Hm|].
  destruct (load_manifest_safe (λ _, []) sample_manifest_data m Hm) as (_ & _ & H1 & _ & _ & H2 & _).
  split; [exact H1|exact H2].
Defined.

(** ** Counting cases *)

(** An object that carries a stateless input and its output. *)
Definition is_case (v : json) : bool :=
  match v with
  | JObj fields => has_field "statelessInputBytes" fields && has_field "statelessOutputBytes" fields
  | _ => false
  end.

Lemma count_obj fields :
  _count_embedded_cases (JObj fields) =
  Z.b2z (is_case (JObj fields)) + foldr Z.add 0 (_count_embedded_cases <$> fields.*2).
Proof.
  cbn. f_equal. induction fields as [|[k v] fields IH]; [done|]. cbn. by rewrite IH.
Qed.

Lemma count_arr items :
  _count_embedded_cases (JArr items) = foldr Z.add 0 (_count_embedded_cases <$> items).
Proof. cbn. induction items as [|v items IH]; [done|]. cbn. by rewrite IH. Qed.

Lemma sum_of_counts (l : list json) :
  Forall (λ v, _count_embedded_cases v = py_len (List.filter is_case (subvalues v))) l →
  foldr Z.add 0 (_count_embedded_cases <$> l) = py_len (List.filter is_case (l ≫= subvalues)).
Proof.
  induction 1 as [|v l Hv Hl IH]; [done|].
  rewrite fmap_cons, bind_cons, List.filter_app, py_len_app. cbn [foldr]. by rewrite Hv, IH.
Qed.

(** the number of embedded cases of a fixture is the number of objects
    anywhere inside it, itself included, that hold both a stateless input and
    a stateless output. *)
Theorem count_embedded_cases_spec (v : json) :
  _count_embedded_cases v = py_len (List.filter is_case (subvalues v)).
Proof.
  induction v as [| | | | |l IH|l IH] using json_induction; try done.
  - rewrite count_arr, subvalues_arr, sum_of_counts by done. done.
  - rewrite count_obj, subvalues_obj. cbn [List.filter].
    rewrite sum_of_counts by (by apply Forall_fmap).
    destruct (is_case (JObj l)); unfold py_len; cbn [length Z.b2z]; lia.
Qed.

(** ** The tree digest *)

(** Path components as a file system has them. *)
Definition clean_path (p : path) : Prop :=
  p ≠ [] ∧ Forall (λ c, "/"%byte ∉ c) p ∧ py_len (as_posix p) < 2 ^ 64.

Lemma length_prefix_inj m n :
  0 <= m < 2 ^ 64 → 0 <= n < 2 ^ 64 → length_prefix m = length_prefix n → m = n.
Proof.
  intros Hm Hn E. apply (f_equal from_be) in E. unfold length_prefix in E.
  rewrite !from_be_be_bytes in E. change (256 ^ Z.of_nat 8) with (2 ^ 64) in E.
  by rewrite !Z.mod_small in E.
Qed.

Lemma as_posix_inj p q : clean_path p → clean_path q → as_posix p = as_posix q → p = q.
Proof.
  intros (Hp & Hfp & _) (Hq & Hfq & _) E.
  rewrite <-(split_join "/" p), <-(split_join "/" q) by done.
  unfold as_posix in E. by change (txt "/") with ["/"%byte] in E; rewrite E.
Qed.

Lemma digest_frame_inj f g s t :
  clean_path f.1 → clean_path g.1 → digest_frame f ++ s = digest_frame g ++ t →
  f.1 = g.1 ∧ sha256 f.2 = sha256 g.2 ∧ s = t.
Proof.
  intros Hf Hg E. unfold digest_frame in E. rewrite <-!app_assoc in E.
  apply app_inj_1 in E as [E1 E]; [|by unfold length_prefix; rewrite !be_bytes_length].
  apply length_prefix_inj in E1; try (split; [apply py_len_nonneg|by apply Hf||by apply Hg]).
  apply app_inj_1 in E as [E2 E]; [|unfold py_len in E1; lia].
  apply app_inj_1 in E as [E3 E]; [|by rewrite !sha256_length].
  split_and!; [by apply as_posix_inj|done|done].
Qed.

Lemma digest_frames_nil f fs : (f :: fs) ≫= digest_frame ≠ [].
Proof.
  rewrite bind_cons. intros [E _]%app_eq_nil. unfold digest_frame in E.
  apply app_eq_nil in E as [_ E]. apply app_eq_nil in E as [_ E].
  apply (f_equal length) in E. by rewrite sha256_length in E.
Qed.

(** the bytes hashed into a tree digest determine the fixtures they were
    made from: their number, their order, their paths, and their content
    digests. So two corpora with the same tree digest have the same fixtures,
    unless SHA-256 collides. *)
Theorem tree_digest_injective (fs gs : list file) :
  Forall (λ f, clean_path f.1) fs → Forall (λ f, clean_path f.1) gs →
  fs ≫= digest_frame = gs ≫= digest_frame →
  Forall2 (λ f g, f.1 = g.1 ∧ sha256 f.2 = sha256 g.2) fs gs.
Proof.
  intros Hf. revert gs. induction Hf as [|f fs Hf Hfs IH]; intros [|g gs] Hg E.
  - constructor.
  - symmetry in E. by apply digest_frames_nil in E.
  - by apply digest_frames_nil in E.
  - apply Forall_cons in Hg as [Hg Hgs]. rewrite !bind_cons in E.
    apply digest_frame_inj in E as (E1 & E2 & E); [|done|done].
    constructor; [done|]. by apply IH.
Qed.

Definition sample_fixture : file := ([txt "blockchain_tests"; txt "a.json"], [x00]).

Lemma tree_digest_injective_witness :
  Forall (λ f, clean_path f.1) [sample_fixture] ∧
  Forall2 (λ f g, f.1 = g.1 ∧ sha256 f.2 = sha256 g.2) [sample_fixture] [sample_fixture].
Proof.
  assert (Forall (λ f, clean_path f.1) [sample_fixture]) as H.
  { constructor; [|constructor]. split_and!; [done| |by vm_compute].
    repeat constructor; by apply (bool_decide_unpack _); vm_compute. }
  split; [exact H|]. exact (tree_digest_injective [sample_fixture] [sample_fixture] H H eq_refl).
Defined.

(** ** Provisioning *)

Section provisioning.
Context (json_loads : bytes → option json).

(** A tree whose inventory is the pinned one. *)
Definition pinned (m : CorpusManifest) (tree : corpus_tree) (i : CorpusInventory) : Prop :=
  inventory_corpus json_loads tree m.(include_directories) = inr i ∧
  i.(tree_sha256) = m.(cm_tree_sha256) ∧ i.(json_files) = m.(expected_json_files) ∧
  i.(embedded_cases) = m.(expected_cases).

Lemma mismatches_nil i m :
  mismatches i m = [] ↔ i.(tree_sha256) = m.(cm_tree_sha256) ∧
    i.(json_files) = m.(expected_json_files) ∧ i.(embedded_cases) = m.(expected_cases).
Proof.
  unfold mismatches. case_bool_decide; destruct (Z.eqb_spec i.(json_files) m.(expected_json_files)),
    (Z.eqb_spec i.(embedded_cases) m.(expected_cases)); cbn; naive_solver.
Qed.

Lemma verify_corpus_spec tree m i : verify_corpus json_loads tree m = inr i ↔ pinned m tree i.
Proof.
  unfold verify_corpus, pinned. destruct (inventory_corpus _ _ _) as [e|i']; cbn; [naive_solver|].
  destruct (mismatches_nil i' m) as [H1 H2]. destruct (mismatches i' m) as [|x l].
  - specialize (H1 eq_refl). split; [by intros [= <-]|by intros [[= <-] _]].
  - split; [done|]. intros [[= <-] H]. by apply H2 in H.
Qed.

Context (download : transfer) (extract : bytes → option corpus_tree) (renames : bool).

Lemma fetch_archive_spec m d :
  let '(r, d') := fetch_archive download m d in
  d'.(dk_destination) = d.(dk_destination) ∧
  (∀ a, r = inr a → file_sha256 a = m.(archive_sha256)) ∧
  (∀ a, d'.(dk_archive) = Some a →
     d.(dk_archive) = Some a ∨ file_sha256 a = m.(archive_sha256)).
Proof.
  unfold fetch_archive. destruct (cached m d) as [a|] eqn:C.
  - split_and!; [done| |by intros; left]. intros a' [= <-].
    unfold cached in C. destruct (dk_archive d) as [a'|]; cbn in C; [|done].
    case_bool_decide; [|done]. by injection C as <-.
  - destruct download as [p|body]; [by split_and!; [| |intros; left]|].
    case_bool_decide as E; split_and!; cbn; [done| |intros a; right|done|done|intros; by left].
    + by intros a [= <-].
    + by simplify_eq.
Qed.

End provisioning.

(** ** Tree and archive order *)

(** Two fixtures whose paths compare differently as component lists, which
    orders the tree inventory, and as strings, which orders the archive
    inventory: ["-"] sorts before ["/"]. *)
Definition order_files : list file :=
  [([txt "t"; txt "a"; txt "x.json"], [x01]); ([txt "t"; txt "a-b"; txt "x.json"], [x02])].
Definition order_tree : corpus_tree := mkCorpusTree [[txt "t"]] order_files.
Definition order_members : list member :=
  (λ f : file, mkMember (txt "fixtures/" ++ as_posix f.1) RegularMember f.2) <$> order_files.
Definition order_manifest : CorpusManifest :=
  mkCorpusManifest 1 1 [] [] [] [] [] [] [] [] (txt "fixtures") [txt "t"] [] 2 1.

(** The inventory of an archive and of the tree extracted from it can have
    different digests. *)
Lemma archive_order_differs :
  let loads (_ : bytes) := Some JNull in
  match inventory_corpus loads order_tree [txt "t"], inventory_archive loads order_members order_manifest with
  | inr tree, inr archive => tree.(json_files) = archive.(json_files) ∧
                             tree.(tree_sha256) ≠ archive.(tree_sha256)
  | _, _ => False
  end.
Proof. vm_compute. split; [reflexivity|discriminate]. Qed.
