(* ===== verification/CLexer.v ===== *)
(** * CLexer: masking C sources and counting generated identifiers

    The source metrics of [devtools/optimised_c/evaluate.py]:
    [strip_c_comments_and_literals] blanks comments and literals in place, and
    the identifier metrics read the masked text. Identifiers are ASCII. *)
From Stdlib Require Import ZArith Lia Strings.Byte.
From stdpp Require Import base tactics option list gmap sets.
From S2P Require Import Prelude PyBytes PyText.
Local Open Scope Z_scope.

(** ** Masking *)

(** The [state] variable. *)
Inductive lex_state : Type := Code | LineComment | BlockComment | StringLit | CharLit.

Abbreviation SP := " "%byte.

(** What a masked character leaves: newlines stay. *)
Definition blank (c : byte) : byte := if decide (c = NL) then NL else SP.

(** The quote that ends a literal. *)
Definition closing (state : lex_state) : byte :=
  match state with StringLit => x22 | _ => "'"%byte end.

(** One character of code that opens no comment. *)
Definition code_char (c : byte) : byte * lex_state :=
  if decide (c = x22) then (SP, StringLit)
  else if decide (c = "'"%byte) then (SP, CharLit)
  else (c, Code).

(** One character inside a literal: the next [escaped] and [state]. *)
Definition literal_char (state : lex_state) (escaped : bool) (c : byte) : bool * lex_state :=
  if escaped then (false, state)
  else if decide (c = "\"%byte) then (true, state)
  else if decide (c = closing state) then (false, Code)
  else (false, state).

(** The loop, on the text from [index] on. *)
Fixpoint mask (state : lex_state) (escaped : bool) (t : text) : text :=
  match t with
  | [] => []
  | char :: rest =>
      match state with
      | Code =>
          let step := let '(out, next) := code_char char in
                      out :: mask next (match next with Code => escaped | _ => false end) rest in
          match rest with
          | following :: rest' =>
              if decide (char = "/"%byte ∧ following = "/"%byte)
              then SP :: SP :: mask LineComment escaped rest'
              else if decide (char = "/"%byte ∧ following = "*"%byte)
              then SP :: SP :: mask BlockComment escaped rest'
              else step
          | [] => step
          end
      | LineComment =>
          blank char :: mask (if decide (char = NL) then Code else LineComment) escaped rest
      | BlockComment =>
          match rest with
          | following :: rest' =>
              if decide (char = "*"%byte ∧ following = "/"%byte)
              then SP :: SP :: mask Code escaped rest'
              else blank char :: mask BlockComment escaped rest
          | [] => [blank char]
          end
      | StringLit | CharLit =>
          let '(escaped, next) := literal_char state escaped char in
          blank char :: mask next escaped rest
      end
  end.

Definition strip_c_comments_and_literals (t : text) : text := mask Code false t.

(** ** Tokens *)

Definition is_letter (c : byte) : bool := is_lower c || is_upper c || bool_decide (c = "_"%byte).

Definition is_punctuation (c : byte) : bool := bool_decide (c ∈ txt "{}();,=*").

(** [re.findall(r"[A-Za-z_][A-Za-z0-9_]*|[{}();,=*]", code)]: [word] is the
    identifier being read, reversed. *)
Fixpoint tokens_from (word : text) (code : text) : list text :=
  let flush rest := match word with [] => rest | _ => rev word :: rest end in
  match code with
  | [] => flush []
  | c :: code' =>
      if match word with [] => is_letter c | _ => is_word c end
      then tokens_from (c :: word) code'
      else flush (if is_punctuation c then [c] :: tokens_from [] code' else tokens_from [] code')
  end.
Definition tokens (code : text) : list text := tokens_from [] code.

(** The maximal runs of word characters: what a [\b...\b] pattern can match. *)
Fixpoint words_from (word : text) (code : text) : list text :=
  let flush rest := match word with [] => rest | _ => rev word :: rest end in
  match code with
  | [] => flush []
  | c :: code' => if is_word c then words_from (c :: word) code' else flush (words_from [] code')
  end.
Definition words (code : text) : list text := words_from [] code.

(** [[0-9]+] at the end of a reversed word: what precedes the digits. *)
Definition drop_digits (w : text) : option text :=
  let '(digits, rest) := span is_digit w in
  match digits with [] => None | _ => Some rest end.

(** What precedes a suffix, in a reversed word. *)
Definition drop_suffix (suffix w : text) : option text :=
  if startswith (rev suffix) w then Some (drop (length suffix) w) else None.

(** The stem of a word ending in [_<phase>_<serial>], reversed. *)
Definition serial_stem (w : text) : option text :=
  w ← drop_digits (rev w); w ← drop_suffix (txt "_") w; w ← drop_digits w;
  drop_suffix (txt "_") w.

(** An identifier stem: not empty, starting with a letter. *)
Definition is_stem (w : text) : bool := from_option is_letter false (head w).

(** [re.fullmatch(r"[A-Za-z_][A-Za-z0-9_]*_[0-9]+_[0-9]+", w)] for a word. *)
Definition has_serial (w : text) : bool :=
  match serial_stem w with Some stem => is_stem (rev stem) | None => false end.

(** ** Identifier metrics *)

Definition result_word (w : text) : bool :=
  (startswith (txt "result_") w && (7 <? py_len w)) ||
  match serial_stem w ≫= drop_suffix (txt "_result") with
  | Some stem => is_stem (rev stem)
  | None => false
  end.

Definition result_identifiers (t : text) : gset text :=
  list_to_set (List.filter result_word (words (strip_c_comments_and_literals t))).

Definition temporary_word (w : text) : bool :=
  (startswith (txt "tmp_") w && (4 <? py_len w)) ||
  (startswith (txt "ztmp_") w && (5 <? py_len w)).

(** The scan of [starts_function_body] to the parenthesis that opens the
    parameter list, over the tokens before the closing one, last first: the
    tokens before it. *)
Fixpoint open_paren (paren_depth : Z) (before : list text) : option (list text) :=
  match before with
  | [] => None
  | token :: before' =>
      if decide (token = txt ")") then open_paren (paren_depth + 1) before'
      else if decide (token = txt "(") then
        if paren_depth - 1 =? 0 then Some before' else open_paren (paren_depth - 1) before'
      else open_paren paren_depth before'
  end.

Definition is_identifier (w : text) : bool := is_stem w && forallb is_word w.

Definition control_keywords : list text := [txt "if"; txt "for"; txt "switch"; txt "while"].

(** Whether a brace opens a function body, from the tokens before it, last
    first. *)
Definition starts_function_body (before : list text) : bool :=
  match before with
  | close :: before' =>
      bool_decide (close = txt ")") &&
      match open_paren 1 before' with
      | Some (name :: _) => is_identifier name && bool_decide (name ∉ control_keywords)
      | _ => false
      end
  | [] => false
  end.

(** The declaration [struct tuple_* <identifier>_<phase>_<serial>] at a
    [struct] token, from the tokens after it. *)
Definition tuple_local (after : list text) : option text :=
  match after with
  | tuple_type :: identifier :: following :: _ =>
      if startswith (txt "tuple_") tuple_type && is_stem identifier && has_serial identifier &&
         bool_decide (following ∈ [txt "="; txt ";"; txt ","])
      then Some identifier else None
  | _ => None
  end.

(** The token loop: [before] holds the tokens already read, last first. *)
Fixpoint tuple_scan (function_depth : Z) (before toks : list text) (identifiers : gset text) :
    gset text :=
  match toks with
  | [] => identifiers
  | token :: after =>
      let continue depth ids := tuple_scan depth (token :: before) after ids in
      if decide (token = txt "{") then
        if 0 <? function_depth then continue (function_depth + 1) identifiers
        else if starts_function_body before then continue 1 identifiers
        else continue function_depth identifiers
      else if decide (token = txt "}") then continue (Z.max 0 (function_depth - 1)) identifiers
      else if bool_decide (token ≠ txt "struct") || (function_depth =? 0)
      then continue function_depth identifiers
      else match tuple_local after with
           | Some identifier => continue function_depth ({[ identifier ]} ∪ identifiers)
           | None => continue function_depth identifiers
           end
  end.

Definition intermediate_tuple_identifiers (t : text) : gset text :=
  tuple_scan 0 [] (tokens (strip_c_comments_and_literals t)) ∅.

Record metrics : Type := mkMetrics {
  manifest_translation_units : Z;
  generated_physical_lines : Z;
  generated_nonblank_lines : Z;
  distinct_temporary_identifiers : Z;
  distinct_result_identifiers : Z;
  distinct_intermediate_tuple_identifiers : Z;
  goto_keyword_tokens : Z;
}.

Definition zsum (l : list Z) : Z := foldr Z.add 0 l.

Definition source_metrics (sources : list text) : metrics :=
  let code := strip_c_comments_and_literals in
  let count (f : text → Z) := zsum (f <$> sources) in
  let distinct (f : text → gset text) := Z.of_nat (size (⋃ (f <$> sources))) in
  mkMetrics (py_len sources)
    (count (λ t, py_len (splitlines t)))
    (count (λ t, py_len (List.filter (λ l, negb (bool_decide (strip l = []))) (splitlines t))))
    (distinct (λ t, list_to_set (List.filter temporary_word (words (code t)))))
    (distinct result_identifiers)
    (distinct intermediate_tuple_identifiers)
    (count (λ t, py_len (List.filter (λ w, bool_decide (w = txt "goto")) (words (code t))))).

Example masks_sample :
  strip_c_comments_and_literals
    (txt "x = '" ++ [x22] ++ txt "'; /* a" ++ [NL] ++ txt "b*/ y; // z") =
  txt "x =    ;     " ++ [NL] ++ txt "    y;     ".
Proof. vm_compute. reflexivity. Qed.

Example tuples_sample :
  elements (intermediate_tuple_identifiers
    (txt "struct tuple_a g_1_2; int f(int x) { if (x) { struct tuple_a t_3_4 = y; } }")) =
  [txt "t_3_4"].
Proof. vm_compute. reflexivity. Qed.

(** * Correctness of the C masking

    Masking keeps the layout of the source, blanks exactly the comments and
    literals, and is idempotent, so the metrics read masked code only. *)

(** ** Layout *)

(** A character of the masked text: the one of the source, or a blank where
    the source has no newline. *)
Definition masks (c o : byte) : Prop := o = c ∨ (o = SP ∧ c ≠ NL).

Lemma masks_blank c : masks c (blank c).
Proof. unfold masks, blank. case_decide; [by left|by right]. Qed.

Lemma masks_sp c : c ≠ NL → masks c SP.
Proof. by right. Qed.

(** Induction for loops that consume one or two characters. *)
Lemma text_induction (P : text → Prop) :
  P [] → (∀ c, P [] → P [c]) → (∀ c d t, P t → P (d :: t) → P (c :: d :: t)) → ∀ t, P t.
Proof.
  intros H0 H1 H2. cut (∀ t, P t ∧ ∀ c, P (c :: t)); [intros H t; apply H|].
  induction t as [|d t [IH1 IH2]]; [auto|]. split; [done|]. intros c. by apply H2.
Qed.

Lemma code_char_masks c : masks c (code_char c).1.
Proof.
  unfold code_char. repeat case_decide; subst; [by right|by right|by left].
Qed.

(** The equations of the loop. *)
Lemma mask_comment st c d t :
  c = "/"%byte → d = "/"%byte ∧ st = LineComment ∨ d = "*"%byte ∧ st = BlockComment →
  ∀ e, mask Code e (c :: d :: t) = SP :: SP :: mask st e t.
Proof. intros -> [[-> ->]|[-> ->]] e; reflexivity. Qed.

Lemma mask_code e c t :
  (∀ d t', t = d :: t' → c = "/"%byte → d ≠ "/"%byte ∧ d ≠ "*"%byte) →
  mask Code e (c :: t) = (code_char c).1 ::
    mask (code_char c).2 (match (code_char c).2 with Code => e | _ => false end) t.
Proof.
  intros H. cbn [mask]. destruct (code_char c) as [out next]. cbn.
  destruct t as [|d t']; [done|]. specialize (H d t' eq_refl).
  rewrite !decide_False by naive_solver. done.
Qed.

(** Either the text opens a comment, or its first character is plain code. *)
Lemma code_cases c t :
  (∃ d t' st, t = d :: t' ∧ c = "/"%byte ∧
     (d = "/"%byte ∧ st = LineComment ∨ d = "*"%byte ∧ st = BlockComment)) ∨
  (∀ d t', t = d :: t' → c = "/"%byte → d ≠ "/"%byte ∧ d ≠ "*"%byte).
Proof.
  destruct (decide (c = "/"%byte)) as [->|Hc]; [|by right].
  destruct t as [|d t]; [by right|].
  destruct (decide (d = "/"%byte)) as [->|H1]; [left; eauto 8|].
  destruct (decide (d = "*"%byte)) as [->|H2]; [left; eauto 8|].
  right. by intros ? ? [= <- <-].
Qed.

Lemma mask_close e t : mask BlockComment e ("*"%byte :: "/"%byte :: t) = SP :: SP :: mask Code e t.
Proof. reflexivity. Qed.

Lemma mask_block e c t :
  (∀ t', t = "/"%byte :: t' → c ≠ "*"%byte) →
  mask BlockComment e (c :: t) = blank c :: mask BlockComment e t.
Proof.
  intros H. cbn [mask]. destruct t as [|d t]; [done|]. rewrite decide_False; [done|].
  intros [-> ->]. by eapply H.
Qed.

Lemma block_cases c t :
  (∃ t', c = "*"%byte ∧ t = "/"%byte :: t') ∨ (∀ t', t = "/"%byte :: t' → c ≠ "*"%byte).
Proof.
  destruct (decide (c = "*"%byte)) as [->|Hc]; [|by right].
  destruct t as [|d t]; [by right|]. destruct (decide (d = "/"%byte)) as [->|Hd]; [left; eauto|].
  right. by intros t' [= ->].
Qed.

Lemma mask_layout t : ∀ state escaped, Forall2 masks t (mask state escaped t).
Proof.
  induction t as [|c _|c d t IH1 IH2] using text_induction; intros st e.
  - constructor.
  - destruct st.
    + rewrite mask_code by done. constructor; [apply code_char_masks|constructor].
    + cbn. constructor; [apply masks_blank|constructor].
    + cbn. constructor; [apply masks_blank|constructor].
    + cbn. destruct (literal_char _ _ _). constructor; [apply masks_blank|constructor].
    + cbn. destruct (literal_char _ _ _). constructor; [apply masks_blank|constructor].
  - destruct st.
    + destruct (code_cases c (d :: t)) as [(? & ? & st & [= <- <-] & -> & Hd)|Hc].
      * rewrite (mask_comment st) by done.
        constructor; [by apply masks_sp|constructor; [|done]]. apply masks_sp. naive_solver.
      * rewrite mask_code by done. constructor; [apply code_char_masks|done].
    + cbn [mask]. constructor; [apply masks_blank|apply IH2].
    + destruct (block_cases c (d :: t)) as [(? & -> & [= -> <-])|Hc].
      * rewrite mask_close. constructor; [by apply masks_sp|constructor; [by apply masks_sp|done]].
      * rewrite mask_block by done. constructor; [apply masks_blank|done].
    + cbn [mask]. destruct (literal_char _ _ _). constructor; [apply masks_blank|apply IH2].
    + cbn [mask]. destruct (literal_char _ _ _). constructor; [apply masks_blank|apply IH2].
Qed.

(** ** Idempotence *)

(** Text without quotes and comment openers. *)
Fixpoint bare (t : text) : Prop :=
  match t with
  | [] => True
  | c :: t' => c ≠ x22 ∧ c ≠ "'"%byte ∧
      (c = "/"%byte → head t' ≠ Some "/"%byte ∧ head t' ≠ Some "*"%byte) ∧ bare t'
  end.

Lemma mask_bare e t : bare t → mask Code e t = t.
Proof.
  induction t as [|c t IH]; [done|]. cbn [bare]. intros (H1 & H2 & H3 & H4).
  rewrite mask_code.
  - unfold code_char. rewrite !decide_False by done. cbn. by rewrite IH.
  - intros d t' -> Hc. cbn in H3. naive_solver.
Qed.

Lemma bare_blank c t : bare t → bare (blank c :: t).
Proof. unfold blank. case_decide; intros; by split_and!. Qed.

Lemma bare_code_char c t o :
  (∀ d t', t = d :: t' → c = "/"%byte → d ≠ "/"%byte ∧ d ≠ "*"%byte) →
  Forall2 masks t o → bare o → bare ((code_char c).1 :: o).
Proof.
  intros Hc Hm Ho. unfold code_char. repeat case_decide; cbn [fst bare]; [by split_and!..|].
  split_and!; [done|done| |done]. intros ->.
  inversion Hm as [|d o' t' m' Hd _]; subst; [done|]. cbn.
  destruct (Hc d t' eq_refl eq_refl). destruct Hd as [->|[-> _]]; split; congruence.
Qed.

Lemma mask_is_bare t : ∀ st e, bare (mask st e t).
Proof.
  induction t as [|c _|c d t IH1 IH2] using text_induction; intros st e; [done| |].
  - destruct st; [rewrite mask_code by done; by apply (bare_code_char c [])|..];
      cbn [mask]; try destruct (literal_char _ _ _); by apply (bare_blank c []).
  - destruct st.
    + destruct (code_cases c (d :: t)) as [(? & ? & st & [= <- <-] & -> & Hd)|Hc].
      * rewrite (mask_comment st) by done. by split_and!.
      * rewrite mask_code by done. eapply bare_code_char; [exact Hc|apply mask_layout|apply IH2].
    + cbn [mask]. apply bare_blank, IH2.
    + destruct (block_cases c (d :: t)) as [(? & -> & [= -> <-])|Hc].
      * rewrite mask_close. by split_and!.
      * rewrite mask_block by done. apply bare_blank, IH2.
    + cbn [mask]. destruct (literal_char _ _ _). apply bare_blank, IH2.
    + cbn [mask]. destruct (literal_char _ _ _). apply bare_blank, IH2.
Qed.

(** masking a C source keeps its length, every newline in place and every
    character it does not blank; masking again changes nothing, so nothing in
    the result can be read as a comment or a literal. *)
Theorem strip_c_layout (t : text) :
  let o := strip_c_comments_and_literals t in
  length o = length t ∧
  (∀ i : nat, o !! i = Some NL ↔ t !! i = Some NL) ∧
  (∀ (i : nat) c, o !! i = Some c → t !! i = Some c ∨ c = SP) ∧
  strip_c_comments_and_literals o = o.
Proof.
  cbn zeta. unfold strip_c_comments_and_literals. pose proof (mask_layout t Code false) as H.
  split_and!.
  - symmetry. by eapply Forall2_length.
  - intros i. split; intros Hi.
    + eapply Forall2_lookup_r in H as (c & Hc & [->|[E Hn]]); [done| |exact Hi]. done.
    + eapply Forall2_lookup_l in H as (o & Ho & [->|[-> Hn]]); [done| |exact Hi]. done.
  - intros i c Hi. eapply Forall2_lookup_r in H as (d & Hd & [->|[E Hn]]); [by left| |exact Hi].
    by right.
  - apply mask_bare, mask_is_bare.
Qed.

(** ** Lexical structure *)

(** A C source as a sequence of code characters, comments (a line comment
    without its newline) and literals (without their quotes). *)
Inductive segment : Type :=
| CodeChar (c : byte)
| LineSegment (body : text)
| BlockSegment (body : text)
| Literal (state : lex_state) (body : text).

Definition render_segment (s : segment) : text :=
  match s with
  | CodeChar c => [c]
  | LineSegment body => txt "//" ++ body
  | BlockSegment body => txt "/*" ++ body ++ txt "*/"
  | Literal state body => closing state :: body ++ [closing state]
  end.
Definition render (segs : list segment) : text := segs ≫= render_segment.

(** What is left of a segment. *)
Definition masked_segment (s : segment) : text :=
  match s with
  | CodeChar c => [c]
  | _ => blank <$> render_segment s
  end.

(** The body of a literal: a backslash takes the next character with it, and
    no other closing quote occurs. *)
Fixpoint literal_body (state : lex_state) (escaped : bool) (body : text) : Prop :=
  match body with
  | [] => escaped = false
  | c :: body' =>
      (escaped = false → c ≠ closing state) ∧
      literal_body state (negb escaped && bool_decide (c = "\"%byte)) body'
  end.

(** A block comment ends at its first [*/]. *)
Fixpoint block_body (body : text) : Prop :=
  match body with
  | [] => True
  | c :: body' => (c = "*"%byte → head body' ≠ Some "/"%byte) ∧ block_body body'
  end.

(** Segments a C lexer would find: code characters open nothing together with
    what follows, a line comment runs to the end of its line. *)
Fixpoint lexical (segs : list segment) : Prop :=
  match segs with
  | [] => True
  | s :: segs' =>
      lexical segs' ∧
      match s with
      | CodeChar c => c ≠ x22 ∧ c ≠ "'"%byte ∧
          (c = "/"%byte → head (render segs') ≠ Some "/"%byte ∧ head (render segs') ≠ Some "*"%byte)
      | LineSegment body => (NL ∉ body) ∧ (segs' = [] ∨ ∃ rest, segs' = CodeChar NL :: rest)
      | BlockSegment body => block_body (body ++ ["*"%byte])
      | Literal state body =>
          (state = StringLit ∨ state = CharLit) ∧ literal_body state false body
      end
  end.

Lemma mask_line body t e :
  NL ∉ body → t = [] ∨ (∃ u, t = NL :: u) →
  mask LineComment e (body ++ t) = (blank <$> body) ++ mask Code e t.
Proof.
  intros Hn Ht. induction body as [|c body IH].
  - destruct Ht as [->|[u ->]]; [done|]. cbn [app fmap list_fmap]. rewrite mask_code by done.
    reflexivity.
  - apply not_elem_of_cons in Hn as [Hc Hn]. cbn [app mask fmap list_fmap].
    rewrite decide_False by done. by rewrite IH.
Qed.

Lemma mask_block_body body t e :
  block_body (body ++ ["*"%byte]) →
  mask BlockComment e (body ++ txt "*/" ++ t) = (blank <$> body) ++ SP :: SP :: mask Code e t.
Proof.
  induction body as [|c body IH]; [done|]. cbn [app block_body fmap list_fmap].
  intros [Hc Hb]. rewrite mask_block; [by rewrite IH|].
  intros t' E ->. apply Hc; [done|]. destruct body as [|d body]; [done|].
  by injection E as -> _.
Qed.

Lemma mask_literal_body st body : ∀ esc t,
  st = StringLit ∨ st = CharLit → literal_body st esc body →
  mask st esc (body ++ closing st :: t) = (blank <$> body) ++ SP :: mask Code false t.
Proof.
  induction body as [|c body IH]; intros esc t Hst.
  - intros ->. by destruct Hst as [-> | ->].
  - cbn [literal_body]. intros [Hc Hb]. cbn [app fmap list_fmap].
    assert (mask st esc (c :: body ++ closing st :: t) =
      blank c :: mask st (negb esc && bool_decide (c = "\"%byte)) (body ++ closing st :: t)) as ->.
    { assert (literal_char st esc c = (negb esc && bool_decide (c = "\"%byte), st)) as E.
      { unfold literal_char. destruct esc; [done|]. specialize (Hc eq_refl).
        cbn [negb andb]. case_bool_decide; [by rewrite decide_True|].
        by rewrite !decide_False by done. }
      destruct Hst as [-> | ->]; cbn [mask]; by rewrite E. }
    by rewrite IH.
Qed.

Lemma render_cons s segs : render (s :: segs) = render_segment s ++ render segs.
Proof. apply bind_cons. Qed.

Lemma mask_segments segs : ∀ e,
  lexical segs → mask Code e (render segs) = segs ≫= masked_segment.
Proof.
  induction segs as [|s segs IH]; intros e; [done|].
  cbn [lexical]. intros [Hs H]. rewrite render_cons, bind_cons.
  destruct s as [c|body|body|st body]; cbn [render_segment masked_segment app].
  - destruct H as (H1 & H2 & H3). rewrite mask_code.
    + unfold code_char. rewrite !decide_False by done. cbn. by rewrite IH.
    + intros d t' E Hc. rewrite E in H3. cbn in H3. naive_solver.
  - destruct H as [Hn Hr]. rewrite <-app_assoc.
    change (txt "//" ++ ?u) with ("/"%byte :: "/"%byte :: u).
    rewrite (mask_comment LineComment) by auto. rewrite mask_line, IH; [done|done|done|].
    destruct Hr as [->|[rest ->]]; [by left|right]. by rewrite render_cons; eexists.
  - rewrite <-!app_assoc. change (txt "/*" ++ ?u) with ("/"%byte :: "*"%byte :: u).
    rewrite (mask_comment BlockComment) by auto. rewrite mask_block_body, IH by done.
    change (("/"%byte :: "*"%byte :: body ++ txt "*/")) with
      (("/"%byte :: "*"%byte :: body) ++ txt "*/").
    rewrite fmap_app. cbn. by rewrite <-app_assoc.
  - destruct H as [Hst Hb]. rewrite <-app_assoc. cbn [app]. rewrite mask_code.
    + assert (code_char (closing st) = (SP, st)) as -> by (by destruct Hst as [-> | ->]).
      cbn [fst snd].
      replace (match st with Code => e | _ => false end) with false
        by (by destruct Hst as [-> | ->]).
      rewrite mask_literal_body, IH by done. rewrite fmap_cons, fmap_app. cbn [fmap list_fmap].
      assert (blank (closing st) = SP) as -> by (by destruct Hst as [-> | ->]).
      cbn. by rewrite <-app_assoc.
    + intros d t' _ E. by destruct Hst as [-> | ->].
Qed.

(** on a source made of code characters, comments and literals, masking
    keeps the code characters and blanks exactly the comments and literals,
    delimiters included. *)
Theorem strip_c_segments (segs : list segment) :
  lexical segs →
  strip_c_comments_and_literals (render segs) = segs ≫= masked_segment.
Proof. apply mask_segments. Qed.

(** A quoted quote, a block comment, and a string holding an escaped quote and
    a comment opener. *)
Definition sample_segments : list segment :=
  [CodeChar "x"; CodeChar "="; Literal CharLit [x22]; BlockSegment (txt "a*"); CodeChar ";";
   Literal StringLit (txt "\" ++ [x22] ++ txt "/*"); LineSegment (txt "z"); CodeChar NL].

Lemma strip_c_segments_witness :
  lexical sample_segments ∧
  strip_c_comments_and_literals (render sample_segments) = sample_segments ≫= masked_segment.
Proof.
  assert (lexical sample_segments) as H.
  { cbn. split_and!; try done; try (by left); try (by right); try (right; eauto).
    by apply (bool_decide_unpack _); vm_compute. }
  split; [exact H|]. exact (strip_c_segments sample_segments H).
Defined.
