(* ===== verification/Quality.v ===== *)
(** * Quality: the extraction quality record

    The gates, the provenance stamp and the record contract of
    [devtools/optimised_c/evaluate.py]. Values read from JSON may have any
    shape, so an access can raise what Python raises; tools, hashes, paths and
    clocks enter as parameters. *)
From Stdlib Require Import ZArith Lia Strings.Byte.
From stdpp Require Import base tactics option list gmap sets pretty.
From S2P Require Import Prelude PyBytes Sha256 PyText Json Corpus CLexer.
Local Open Scope Z_scope.

Definition SCHEMA_VERSION : text := txt "evm-sail-extraction-quality/v1".
Definition EXTRACTION_PROVENANCE_SCHEMA : text :=
  txt "evm-sail-optimised-c-extraction-provenance/v1".

(** ** Accesses *)

Definition str_of (t : text) : string := String.string_of_list_byte t.

(** [v[k]] *)
Definition item (k : string) (v : json) : outcome json :=
  match v with
  | JObj fields => match field (txt k) fields with Some x => Ok x | None => Raise KeyError end
  | _ => Raise (TypeError "not subscriptable by a string")
  end.

(** [v.get(k)]: [None] when the key is missing. *)
Definition get (k : string) (v : json) : outcome json :=
  match v with
  | JObj fields => Ok (default JNull (field (txt k) fields))
  | _ => Raise AttributeError
  end.

(** [v.keys()] and [v.values()] *)
Definition keys (v : json) : outcome (list text) :=
  match v with JObj fields => Ok fields.*1 | _ => Raise AttributeError end.
Definition values (v : json) : outcome (list json) :=
  match v with JObj fields => Ok fields.*2 | _ => Raise AttributeError end.

(** Iterating over a value. *)
Definition iter (v : json) : outcome (list json) :=
  match v with
  | JArr l => Ok l
  | JStr t => Ok ((λ c, JStr [c]) <$> t)
  | JObj fields => Ok (JStr <$> fields.*1)
  | _ => Raise (TypeError "not iterable")
  end.

Definition unhashable (v : json) : bool := match v with JArr _ | JObj _ => true | _ => false end.

(** [names.issubset(v)] *)
Definition issubset (names : list text) (v : json) : outcome bool :=
  items ← iter v;
  if existsb unhashable items then Raise (TypeError "unhashable type")
  else Ok (forallb (λ n, existsb (λ i, json_eqb i (JStr n)) items) names).

(** [v in names] for strings. *)
Definition in_names (names : list text) (v : json) : outcome bool :=
  if unhashable v then Raise (TypeError "unhashable type")
  else Ok (existsb (λ n, json_eqb v (JStr n)) names).

(** [re.fullmatch(r"[0-9a-f]{n}", v) is not None] *)
Definition fullmatch_hex (n : nat) (v : json) : outcome bool :=
  match v with
  | JStr t => Ok (is_hex_string n t)
  | _ => Raise (TypeError "expected string or bytes-like object")
  end.

(** [if cond: raise ValueError(message)] *)
Definition reject (cond : bool) (message : string) : outcome unit :=
  if cond then Raise (ValueError message) else Ok tt.

(** [for x in xs: body] *)
Fixpoint each (body : json → outcome unit) (xs : list json) : outcome unit :=
  match xs with
  | [] => Ok tt
  | x :: xs' => body x ≫= λ _, each body xs'
  end.

(** [sorted(names - present)] *)
Definition missing_names (names : list text) (present : list text) : list text :=
  py_sorted bytes_leb id (List.filter (λ n, negb (bool_decide (n ∈ present))) names).

(** [sep.join(names)], in a message. *)
Definition comma_list (names : list text) : string := str_of (join (txt ", ") names).

(** ** Gates *)

(** [gate(...)] *)
Definition gate (gate_id dimension owner tier : text) (command : list text) (status : text)
    (pass_criteria : text) (evidence : list text) (skip_reason : option text) : json :=
  JObj [(txt "id", JStr gate_id); (txt "dimension", JStr dimension); (txt "owner", JStr owner);
    (txt "tier", JStr tier); (txt "command", JArr (JStr <$> command));
    (txt "status", JStr status); (txt "pass_criteria", JStr pass_criteria);
    (txt "elapsed_seconds",
       if bool_decide (status ∈ [txt "skipped"; txt "unavailable"]) then JNull
       else JFloat fl_zero);
    (txt "evidence", JArr (JStr <$> evidence));
    (txt "skip_reason", from_option JStr JNull skip_reason)].

(** The metrics that must be zero at the end of the work, with their values. *)
Definition TERMINAL_ZERO_METRICS : list (text * (metrics → Z)) :=
  [(txt "distinct_temporary_identifiers", distinct_temporary_identifiers);
   (txt "distinct_result_identifiers", distinct_result_identifiers);
   (txt "distinct_intermediate_tuple_identifiers", distinct_intermediate_tuple_identifiers)].

Definition terminal_zero_metric_gate (values : metrics) (manifest : text) : json :=
  let nonzero := List.filter (λ m : text * (metrics → Z), negb (m.2 values =? 0))
                   TERMINAL_ZERO_METRICS in
  gate (txt "terminal_zero_identifier_metrics") (txt "readability") (txt "readability evaluator")
    (txt "T0") [] (match nonzero with [] => txt "pass" | _ => txt "fail" end)
    (txt "distinct temporary, result, and intermediate-tuple identifiers are each exactly zero")
    [manifest] None.

(** [skipped_gates()] *)
Definition skipped_gates : list json :=
  [gate (txt "clang_inventory") (txt "c_hygiene") (txt "Sail C backend") (txt "T1") []
     (txt "skipped") (txt "focused Clang inventory completes") []
     (Some (txt "not requested; compilation-database smoke is the bounded Clang check"));
   gate (txt "format_inventory") (txt "readability") (txt "readability review") (txt "T1") []
     (txt "skipped") (txt "format inventory completes") []
     (Some (txt "not requested in this evaluator run"));
   gate (txt "fixture_smoke") (txt "correctness") (txt "evm-sail") (txt "T1") []
     (txt "skipped") (txt "pinned fixture output is byte-exact") []
     (Some (txt "no fixture was requested or executed"));
   gate (txt "human_readability_review") (txt "readability") (txt "readability review")
     (txt "T1") [] (txt "skipped") (txt "no zero rubric score and total score at least 7") []
     (Some (txt "human review is advisory during experiments and no scores were supplied"));
   gate (txt "full_fixture_corpus") (txt "correctness") (txt "evm-sail") (txt "T2") []
     (txt "skipped") (txt "complete pinned corpus is byte-exact") []
     (Some (txt "full-corpus execution is outside this focused worker brief"));
   gate (txt "proof_extraction_diff") (txt "proof_impact") (txt "Sail proof extraction")
     (txt "T2") [] (txt "skipped") (txt "proof artifacts are unchanged or reviewed") []
     (Some (txt "no generated semantic source was changed; proof extraction was not run"));
   gate (txt "zisk_performance") (txt "performance") (txt "performance benchmarking") (txt "T3")
     [] (txt "skipped") (txt "pinned repeated performance run completes") []
     (Some (txt "performance refresh is scheduled only after correctness gates pass"))].

(** [package_build_gate]: without built-library evidence the gate is skipped;
    otherwise it passes when the build succeeds and the library exists.
    [command] is the build command line, [elapsed] the rounded seconds. *)
Definition set_elapsed (elapsed : float) (g : json) : json :=
  match g with
  | JObj fields => JObj ((λ kv : text * json,
      if bool_decide (kv.1 = txt "elapsed_seconds") then (kv.1, JFloat elapsed) else kv) <$> fields)
  | _ => g
  end.

Definition package_build_gate (command : list text) (built_library : option text)
    (returncode : Z) (library_exists : bool) (log_path : text) (elapsed : float) : json * option text :=
  match built_library with
  | None =>
      (gate (txt "optimized_package_build") (txt "correctness") (txt "optimized C package")
         (txt "T1") [] (txt "skipped")
         (txt "optimized package archive exists after a successful build") []
         (Some (txt "no --built-library evidence was supplied")), None)
  | Some library =>
      let passed := (returncode =? 0) && library_exists in
      (set_elapsed elapsed
         (gate (txt "optimized_package_build") (txt "correctness") (txt "optimized C package")
            (txt "T1") command (if passed then txt "pass" else txt "fail")
            (txt "optimized package archive exists after a successful build")
            (log_path :: if passed then [library] else []) None), Some log_path)
  end.

(** [metric_records]: the value, the baseline and their difference. *)
Definition metric_record (metric_id definition : text) (value baseline : Z) : json :=
  JObj [(txt "id", JStr metric_id); (txt "definition", JStr definition);
    (txt "scope", JStr (txt "generated manifest translation units"));
    (txt "unit", JStr (txt "count")); (txt "value", JInt value);
    (txt "baseline_value", JInt baseline); (txt "delta", JInt (value - baseline));
    (txt "status", JStr (txt "descriptive"))].

Definition metric_records (values : metrics) : list json :=
  [metric_record (txt "manifest_translation_units")
     (txt "normalized non-comment entries in src/spec/sources.list")
     values.(manifest_translation_units) 74;
   metric_record (txt "generated_physical_lines")
     (txt "physical lines across manifest generated sources")
     values.(generated_physical_lines) 11769;
   metric_record (txt "generated_nonblank_lines")
     (txt "nonblank lines across manifest generated sources")
     values.(generated_nonblank_lines) 10389;
   metric_record (txt "distinct_temporary_identifiers")
     (txt "distinct tokens matching (?:z?tmp)_[A-Za-z0-9_]+")
     values.(distinct_temporary_identifiers) 200;
   metric_record (txt "distinct_result_identifiers")
     (txt "distinct tokens matching result_* or a generated *_result_<phase>_<serial> suffix")
     values.(distinct_result_identifiers) 150;
   metric_record (txt "distinct_intermediate_tuple_identifiers")
     (txt "distinct function-local struct tuple_* declarations whose identifier carries Sail's generated _<phase>_<serial> suffix")
     values.(distinct_intermediate_tuple_identifiers) 310;
   metric_record (txt "goto_keyword_tokens")
     (txt "lexer-aware goto tokens outside comments and literals")
     values.(goto_keyword_tokens) 3].

(** The exit status of [main] after the record is written. *)
Definition exit_status (require_pass : bool) (gates : list json) : Z :=
  let failed := List.filter (λ g, match item "status" g with
                                  | Ok s => json_eqb s (JStr (txt "fail"))
                                  | Raise _ => false
                                  end) gates in
  if require_pass && match failed with [] => false | _ => true end then 1 else 0.

(** ** The record contract *)

Definition names (l : list string) : list text := txt <$> l.

Definition required_fields : list text := names
  ["schema_version"; "run"; "repositories"; "compiler"; "extraction"; "artifacts"; "samples";
   "gates"; "metrics"; "findings"; "human_review"; "proof_impact"; "fixtures"; "performance"].
Definition environment_fields : list text := names
  ["os"; "architecture"; "clang_version"; "clang_format_version"; "clang_tidy_version"].
Definition compiler_fields : list text := names
  ["executable"; "launcher_sha256"; "effective_executable"; "effective_binary_sha256";
   "binary_sha256"; "reported_version"; "effective_reported_version"; "source_commit";
   "plugin_directory"; "plugin_tree_sha256"; "plugin_file_count"; "library_directory";
   "library_tree_sha256"; "library_file_count"].
Definition compiler_hashes : list string :=
  ["launcher_sha256"; "effective_binary_sha256"; "binary_sha256"; "plugin_tree_sha256";
   "library_tree_sha256"].
Definition compiler_strings : list string :=
  ["executable"; "effective_executable"; "reported_version"; "effective_reported_version"].
Definition extraction_fields : list text := names
  ["provenance_stamp_path"; "provenance_stamp_sha256"; "generated_source_tree"].
Definition proof_fields : list text := names
  ["shared_lowering_changed"; "artifact_hashes_before"; "artifact_hashes_after"; "conclusion"].
Definition conclusions : list text := names ["unchanged"; "changed"; "not_run"; "not_applicable"].

(** [isinstance(v, int) and v > 0] *)
Definition positive_int (v : json) : bool :=
  match as_int v with Some z => 0 <? z | None => false end.

(** [isinstance(v, str) and v] *)
Definition nonempty_str (v : json) : bool :=
  match v with JStr t => negb (bool_decide (t = [])) | _ => false end.

Section validation.
(** [str(v)] of a container, in messages. *)
Context (py_repr : json → text).

Definition format (v : json) : string := str_of (to_str py_repr v).

Definition check_repository (repository : json) : outcome unit :=
  commit ← item "commit" repository; ok ← fullmatch_hex 40 commit;
  reject (negb ok) "quality record repository commit is not a full Git SHA".

Definition check_hash (compiler : json) (field : string) : outcome unit :=
  value ← item field compiler; ok ← fullmatch_hex 64 value;
  reject (negb ok) ("quality record compiler " ++ field ++ " is not SHA-256").

Definition check_string (compiler : json) (field : string) : outcome unit :=
  value ← item field compiler;
  reject (negb (nonempty_str value)) ("quality record compiler " ++ field ++ " is empty").

(** The checks of [record["compiler"]] against [record["repositories"]]. *)
Definition check_compiler (compiler repositories : json) : outcome unit :=
  present ← keys compiler;
  (let missing := missing_names compiler_fields present in
   reject (negb (bool_decide (missing = [])))
     ("quality record omits compiler identity fields: " ++ comma_list missing));;
  mapM (check_hash compiler) compiler_hashes;;
  binary ← item "binary_sha256" compiler;
  effective ← item "effective_binary_sha256" compiler;
  reject (negb (json_eqb binary effective))
    "quality record v1 binary hash is not the effective binary hash";;
  plugins ← item "plugin_file_count" compiler;
  reject (negb (positive_int plugins)) "quality record compiler plugin inventory is empty";;
  libraries ← item "library_file_count" compiler;
  reject (negb (positive_int libraries)) "quality record compiler library inventory is empty";;
  source_commit ← item "source_commit" compiler;
  sail ← item "sail" repositories; commit ← item "commit" sail;
  reject (negb (json_eqb source_commit commit))
    "quality record compiler source commit does not match Sail repository";;
  mapM (check_string compiler) compiler_strings;;
  Ok tt.

Definition check_tree (tree : json) : outcome unit :=
  let invalid := Raise (ValueError "quality record generated source tree identity is invalid") in
  match tree with
  | JObj fields =>
      ok ← fullmatch_hex 64 (default (JStr []) (field (txt "sha256") fields));
      if negb ok then invalid
      else if positive_int (default JNull (field (txt "file_count") fields)) then Ok tt
      else invalid
  | _ => invalid
  end.

Definition check_extraction (extraction : json) : outcome unit :=
  manifest ← item "manifest_sha256" extraction; ok ← fullmatch_hex 64 manifest;
  reject (negb ok) "quality record manifest hash is not SHA-256";;
  present ← issubset extraction_fields extraction;
  reject (negb present) "quality record omits extraction provenance fields";;
  stamp ← item "provenance_stamp_sha256" extraction; ok ← fullmatch_hex 64 stamp;
  reject (negb ok) "quality record provenance stamp hash is not SHA-256";;
  tree ← item "generated_source_tree" extraction;
  check_tree tree.

(** One pass of the loop over [record["gates"]]. *)
Definition check_gate (g : json) : outcome unit :=
  owner ← item "owner" g;
  (if negb (truthy owner) then
     id ← item "id" g; Raise (ValueError ("quality gate has no owner: " ++ format id))
   else Ok tt);;
  evidence ← item "evidence" g;
  (match evidence with
   | JArr _ => Ok tt
   | _ => id ← item "id" g; Raise (ValueError ("quality gate evidence is not a list: " ++ format id))
   end);;
  status ← item "status" g;
  not_executed ← in_names [txt "skipped"; txt "unavailable"] status;
  if (not_executed : bool) then
    skip_reason ← item "skip_reason" g;
    bad ← (if truthy skip_reason
           then elapsed ← item "elapsed_seconds" g;
                Ok (match elapsed with JNull => false | _ => true end)
           else Ok true);
    if (bad : bool) then
      id ← item "id" g;
      Raise (ValueError ("non-executed quality gate lacks a reason or has elapsed time: " ++ format id))
    else Ok tt
  else Ok tt.

Definition check_finding (finding : json) : outcome unit :=
  owner ← item "owner" finding;
  if negb (truthy owner) then
    id ← item "id" finding; Raise (ValueError ("quality finding has no owner: " ++ format id))
  else Ok tt.

Definition check_proof_impact (proof_impact : json) : outcome unit :=
  present ← iter proof_impact;
  (if existsb unhashable present then Raise (TypeError "unhashable type") else Ok tt);;
  reject (negb (forallb (λ n, existsb (λ i, json_eqb i (JStr n)) present) proof_fields &&
                forallb (λ i, existsb (λ n, json_eqb i (JStr n)) proof_fields) present))
    "proof-impact evidence does not match the v1 contract";;
  conclusion ← item "conclusion" proof_impact;
  ok ← in_names conclusions conclusion;
  reject (negb ok) "proof-impact conclusion is invalid".

Definition validate_record (record : json) : outcome unit :=
  present ← keys record;
  (let missing := missing_names required_fields present in
   reject (negb (bool_decide (missing = [])))
     ("quality record is missing fields: " ++ comma_list missing));;
  schema ← item "schema_version" record;
  reject (negb (json_eqb schema (JStr SCHEMA_VERSION)))
    ("unsupported quality-record schema: " ++ format schema);;
  run ← item "run" record; environment ← item "environment" run;
  ok ← issubset environment_fields environment;
  reject (negb ok) "quality record omits required environment versions";;
  repositories ← item "repositories" record;
  all_repositories ← values repositories;
  each check_repository all_repositories;;
  compiler ← item "compiler" record;
  check_compiler compiler repositories;;
  extraction ← item "extraction" record;
  check_extraction extraction;;
  gates ← item "gates" record; all_gates ← iter gates;
  each check_gate all_gates;;
  findings ← item "findings" record; all_findings ← iter findings;
  each check_finding all_findings;;
  proof_impact ← item "proof_impact" record;
  check_proof_impact proof_impact;;
  performance ← item "performance" record;
  reject (match performance with JArr _ => false | _ => true end)
    "performance evidence must be a list".
End validation.

(** ** Provenance *)

(** [version_source_commit]: a [\b[0-9a-f]{40}\b] match is a whole word. *)
Definition version_source_commit (version : text) : outcome text :=
  match List.filter (is_hex_string 40) (words version) with
  | [commit] => Ok commit
  | _ => Raise (ValueError "Sail compiler version does not identify exactly one full source commit")
  end.

(** The digest of a source tree: names end with a NUL byte. *)
Definition source_frame (f : file) : bytes := as_posix f.1 ++ [x00] ++ sha256 f.2.

(** [generated_source_tree_identity] of the regular files its patterns match. *)
Definition generated_source_tree_identity (files : list file) : outcome json :=
  let files := py_sorted path_leb fst files in
  match files with
  | [] => Raise (ValueError "optimized C extraction has no source files")
  | _ => Ok (JObj [(txt "sha256", JStr (hexdigest (sha256 (files ≫= source_frame))));
                   (txt "file_count", JInt (py_len files))])
  end.

(** [items.index(x)] and then the item after it. *)
Fixpoint after_option (option_name : text) (items : list text) : option text :=
  match items with
  | [] => None
  | x :: items' => if decide (x = option_name) then head items' else after_option option_name items'
  end.

(** Whether every item is a string. *)
Definition all_strings (v : json) : option (list text) :=
  match v with JArr l => mapM as_str l | _ => None end.

Section stamp.
(** [str(Path(p).resolve())], the repository root, and
    [datetime.fromisoformat]: an instant and whether it has a time zone. *)
Context (resolve : text → text) (ROOT : text) (fromisoformat : text → option (Z * bool)).

Definition stamp_error {A} (what : string) : outcome A :=
  Raise (ValueError ("extraction provenance stamp " ++ what)).

Definition timestamp (k : string) (stamp : json) : option (Z * bool) :=
  v ← getitem k stamp; t ← as_str v; fromisoformat t.

Definition check_timestamps (stamp : json) : outcome unit :=
  match timestamp "captured_at" stamp, timestamp "extraction_completed_at" stamp,
        timestamp "finalized_at" stamp with
  | Some (captured_at, z1), Some (completed_at, z2), Some (finalized_at, z3) =>
      if negb (z1 && z2 && z3) then stamp_error "timestamps lack timezones"
      else if negb ((captured_at <=? completed_at) && (completed_at <=? finalized_at))
      then stamp_error "timestamps are out of order" else Ok tt
  | _, _, _ => stamp_error "timestamps are invalid"
  end.

(** The requested command of a stamp, if it is the compiler's. *)
Definition check_command (stamp compiler : json) : outcome (list text) :=
  command ← get "requested_command" stamp;
  match all_strings command with
  | Some ((program :: _) as items) =>
      executable ← item "executable" compiler;
      if negb (json_eqb (JStr program) executable) ||
         negb (bool_decide (txt "--c-optimized-model" ∈ items))
      then stamp_error "command is invalid" else Ok items
  | _ => stamp_error "command is invalid"
  end.

Definition check_output (command : list text) (working_directory generated : text) : outcome unit :=
  match after_option (txt "--c-output-dir") command with
  | None => stamp_error "omits its output directory"
  | Some output =>
      let output := if startswith (txt "/") output then output
                    else working_directory ++ txt "/" ++ output in
      if bool_decide (resolve output = resolve generated) then Ok tt
      else stamp_error "output directory mismatch"
  end.

(** [load_extraction_provenance_stamp] of a stamp file that was read;
    [current_tree] is what [generated_source_tree_identity] returns now. *)
Definition load_extraction_provenance_stamp (stamp : option json) (generated : text)
    (compiler : json) (source : option text) (current_tree : outcome json) : outcome json :=
  match stamp with
  | None => Raise (ValueError "missing extraction provenance stamp")
  | Some stamp =>
      schema ← get "schema_version" stamp;
      reject (negb (json_eqb schema (JStr EXTRACTION_PROVENANCE_SCHEMA)))
        "unsupported extraction provenance stamp schema";;
      stamped ← get "compiler" stamp;
      reject (negb (json_eqb stamped compiler))
        "extraction provenance stamp compiler identity mismatch";;
      stamped_source ← get "source" stamp;
      reject (match source with
              | Some source => negb (json_eqb stamped_source (JStr (resolve source)))
              | None => false
              end) "extraction provenance stamp Sail source mismatch";;
      snapshot ← get "executed_snapshot_sha256" stamp;
      effective ← item "effective_binary_sha256" compiler;
      reject (negb (json_eqb snapshot effective))
        "extraction provenance stamp compiler snapshot mismatch";;
      command ← check_command stamp compiler;
      directory ← get "working_directory" stamp;
      working_directory ← match directory with
                          | JStr t => Ok t
                          | _ => stamp_error "working directory is invalid"
                          end;
      reject (negb (bool_decide (resolve working_directory = ROOT)))
        "extraction provenance stamp working directory mismatch";;
      check_output command working_directory generated;;
      check_timestamps stamp;;
      tree ← current_tree;
      stamped_tree ← get "generated_source_tree" stamp;
      reject (negb (json_eqb stamped_tree tree))
        "extraction provenance stamp generated-source mismatch";;
      Ok stamp
  end.
End stamp.

(** * What an accepted quality record guarantees

    The validator accepts only records that meet the v1 contract, the gates the
    evaluator builds meet the validator's gate contract, and an accepted
    provenance stamp identifies the compiler, the sources and the output. *)

(** ** Inversion of checks that returned *)

Lemma reject_Ok c msg u : reject c msg = Ok u ↔ c = false.
Proof. destruct u, c; cbn; naive_solver. Qed.

Lemma each_Ok body xs : each body xs = Ok tt ↔ Forall (λ x, body x = Ok tt) xs.
Proof.
  induction xs as [|x xs IH]; cbn; [done|]. rewrite Forall_cons, <-IH, bind_Ok.
  split; [by intros ([] & ? & ?)|intros [? ?]; by exists tt].
Qed.

Lemma mapM_Ok {A B} (f : A → outcome B) xs ys :
  mapM f xs = Ok ys → Forall (λ x, is_ok (f x) = true) xs.
Proof.
  revert ys. induction xs as [|x xs IH]; intros ys; [constructor|]. cbn [mapM].
  intros (y & Hy & H)%bind_Ok. apply bind_Ok in H as (ys' & Hys & _).
  constructor; [by rewrite Hy|by eapply IH].
Qed.

Lemma fullmatch_Ok n v b :
  fullmatch_hex n v = Ok b ↔ ∃ t, v = JStr t ∧ is_hex_string n t = b.
Proof. destruct v; cbn; naive_solver. Qed.

Lemma json_eqb_str v t : json_eqb v (JStr t) = true ↔ v = JStr t.
Proof. destruct v; cbn; try done. rewrite bool_decide_eq_true. naive_solver. Qed.

Lemma json_eqb_str_l t v : json_eqb (JStr t) v = true ↔ v = JStr t.
Proof. destruct v; cbn; try done. rewrite bool_decide_eq_true. naive_solver. Qed.

(** Inverts the sequence of checks in a hypothesis. *)
Ltac accepted H :=
  repeat match type of H with
  | (_ ≫= _) = Ok _ =>
      let x := fresh "x" in let E := fresh "E" in
      apply bind_Ok in H as (x & E & H); cbn beta in H;
      try (apply reject_Ok in E)
  end.

(** A value that is a string of [n] hexadecimal digits. *)
Definition hex_value (n : nat) (v : json) : Prop := ∃ t, v = JStr t ∧ is_hex_string n t = true.

Lemma missing_names_nil l present : missing_names l present = [] → Forall (λ n, n ∈ present) l.
Proof.
  unfold missing_names. intros E. apply Forall_forall. intros n Hn.
  destruct (decide (n ∈ present)) as [|Hp]; [done|]. exfalso.
  assert (n ∈ List.filter (λ n, negb (bool_decide (n ∈ present))) l) as Hin.
  { apply list_elem_of_In, filter_In. split; [by apply list_elem_of_In|].
    by rewrite bool_decide_eq_false_2. }
  apply (py_sorted_elem bytes_leb id) in Hin. rewrite E in Hin. by apply not_elem_of_nil in Hin.
Qed.

Lemma item_values k v x vs : item k v = Ok x → values v = Ok vs → x ∈ vs.
Proof.
  destruct v as [| | | | | |fields]; try done. cbn. intros Hx [= <-].
  destruct (field (txt k) fields) as [y|] eqn:E; [injection Hx as <-|done].
  induction fields as [|[k' v] fields IH]; cbn in *; [done|].
  case_decide; simplify_eq; [left|right; auto].
Qed.

(** ** Gates *)

(** What the validator requires of a gate. *)
Definition gate_contract (g : json) : Prop :=
  ∃ owner evidence status, item "owner" g = Ok owner ∧ truthy owner = true ∧
    item "evidence" g = Ok (JArr evidence) ∧ item "status" g = Ok status ∧
    (status = JStr (txt "skipped") ∨ status = JStr (txt "unavailable") →
     item "elapsed_seconds" g = Ok JNull ∧
     ∃ reason, item "skip_reason" g = Ok reason ∧ truthy reason = true).

Lemma in_names_Ok l v b : in_names l v = Ok b → b = true ↔ ∃ n, n ∈ l ∧ v = JStr n.
Proof.
  unfold in_names. destruct (unhashable v); [done|]. intros [= <-].
  rewrite existsb_exists. setoid_rewrite <-list_elem_of_In. by setoid_rewrite json_eqb_str.
Qed.

Lemma check_gate_contract py_repr g : check_gate py_repr g = Ok tt → gate_contract g.
Proof.
  unfold check_gate. intros H. apply bind_Ok in H as (owner & Ho & H).
  apply bind_Ok in H as ([] & Ht & H). apply bind_Ok in H as (evidence & He & H).
  apply bind_Ok in H as ([] & Hl & H). apply bind_Ok in H as (status & Hs & H).
  apply bind_Ok in H as (b & Hb & H). apply in_names_Ok in Hb.
  destruct evidence as [| | | | |evidence|];
    try (apply bind_Ok in Hl as (? & _ & Hl); discriminate Hl).
  exists owner, evidence, status. split_and!; [done| |done|done|].
  - destruct (truthy owner); [done|]. by apply bind_Ok in Ht as (? & _ & ?).
  - intros Hst. assert (b = true) as ->.
    { apply Hb. destruct Hst as [->| ->]; eexists; (split; [|reflexivity]); set_solver. }
    apply bind_Ok in H as (reason & Hr & H). apply bind_Ok in H as (bad & Hbad & H).
    destruct bad; [by apply bind_Ok in H as (? & _ & ?)|].
    destruct (truthy reason) eqn:Tr; [|done].
    apply bind_Ok in Hbad as (elapsed & Hel & Hbad). destruct elapsed; try done. eauto.
Qed.

Lemma gate_items id dimension owner tier command status criteria evidence reason :
  let g := gate id dimension owner tier command status criteria evidence reason in
  item "owner" g = Ok (JStr owner) ∧ item "evidence" g = Ok (JArr (JStr <$> evidence)) ∧
  item "status" g = Ok (JStr status) ∧ item "skip_reason" g = Ok (from_option JStr JNull reason) ∧
  item "elapsed_seconds" g = Ok (if bool_decide (status ∈ [txt "skipped"; txt "unavailable"])
                                 then JNull else JFloat fl_zero) ∧
  item "id" g = Ok (JStr id).
Proof. done. Qed.

(** a gate the evaluator builds with an owner passes the validator exactly
    when it was executed, or was not and has a reason; in particular every
    gate it reports as skipped passes. *)
Theorem built_gates_validate (py_repr : json → text)
    (id dimension owner tier status criteria : text) (command evidence : list text)
    (reason : option text) :
  owner ≠ [] →
  (check_gate py_repr (gate id dimension owner tier command status criteria evidence reason) = Ok tt ↔
   (status ∈ [txt "skipped"; txt "unavailable"] → ∃ r, reason = Some r ∧ r ≠ [])) ∧
  Forall (λ g, check_gate py_repr g = Ok tt) skipped_gates.
Proof.
  intros Ho. split; [|by repeat constructor].
  destruct (gate_items id dimension owner tier command status criteria evidence reason)
    as (I1 & I2 & I3 & I4 & I5 & I6).
  unfold check_gate. rewrite I1. cbn [mbind outcome_bind truthy].
  rewrite bool_decide_eq_false_2 by done. cbn [negb]. rewrite I2. cbn [mbind outcome_bind].
  rewrite I3. cbn [mbind outcome_bind]. unfold in_names. cbn [unhashable mbind outcome_bind].
  assert (existsb (λ n, json_eqb (JStr status) (JStr n)) [txt "skipped"; txt "unavailable"] =
    bool_decide (status ∈ [txt "skipped"; txt "unavailable"])) as ->.
  { apply eq_true_iff_eq. rewrite bool_decide_eq_true, existsb_exists.
    setoid_rewrite json_eqb_str. setoid_rewrite <-list_elem_of_In. naive_solver. }
  case_bool_decide as Hs; [|done]. rewrite I4. cbn [mbind outcome_bind]. rewrite I5.
  destruct reason as [[|c r]|]; cbn [from_option truthy]; cbn.
  - split; [done|]. by intros H; destruct (H Hs) as (? & [= <-] & ?).
  - split; [|done]. intros _ _. by eexists.
  - split; [done|]. by intros H; destruct (H Hs) as (? & ? & ?).
Qed.

Lemma built_gates_validate_witness :
  txt "evm-sail" ≠ [] ∧
  (check_gate (λ _, []) (gate (txt "x") [] (txt "evm-sail") [] [] (txt "skipped") [] [] None) = Ok tt ↔
   (txt "skipped" ∈ [txt "skipped"; txt "unavailable"] → ∃ r : text, None = Some r ∧ r ≠ [])).
Proof.
  assert (txt "evm-sail" ≠ []) as H by done. split; [exact H|].
  destruct (built_gates_validate (λ _, []) (txt "x") [] (txt "evm-sail") [] (txt "skipped") [] [] []
    None H) as [E _]. exact E.
Defined.

(** ** Records *)

(** A compiler identity that matches the Sail repository. *)
Definition compiler_contract (compiler repositories : json) : Prop :=
  (∃ present, keys compiler = Ok present ∧ Forall (λ n, n ∈ present) compiler_fields) ∧
  Forall (λ f, ∃ v, item f compiler = Ok v ∧ hex_value 64 v) compiler_hashes ∧
  item "binary_sha256" compiler = item "effective_binary_sha256" compiler ∧
  (∃ sail commit, item "sail" repositories = Ok sail ∧ item "commit" sail = Ok commit ∧
     hex_value 40 commit ∧ item "source_commit" compiler = Ok commit).

(** The generated source tree of a record: a digest and a positive count. *)
Definition tree_contract (tree : json) : Prop :=
  ∃ digest count, item "sha256" tree = Ok digest ∧ hex_value 64 digest ∧
    item "file_count" tree = Ok count ∧ positive_int count = true.

Lemma check_hash_Ok compiler f : is_ok (check_hash compiler f) = true →
  ∃ v, item f compiler = Ok v ∧ hex_value 64 v.
Proof.
  unfold check_hash. destruct (item f compiler) as [v|e]; cbn; [|done].
  destruct (fullmatch_hex 64 v) as [b|e] eqn:E; cbn; [|done].
  apply fullmatch_Ok in E as (t & -> & <-). destruct (is_hex_string 64 t) eqn:Ht; [|done].
  intros _. exists (JStr t). split; [done|]. by exists t.
Qed.

Lemma check_repository_Ok v : check_repository v = Ok tt →
  ∃ c, item "commit" v = Ok c ∧ hex_value 40 c.
Proof.
  unfold check_repository. intros (c & Hc & H)%bind_Ok. apply bind_Ok in H as (b & Hb & H).
  apply fullmatch_Ok in Hb as (t & -> & Ht). apply reject_Ok, negb_false_iff in H as ->.
  exists (JStr t). split; [done|]. by exists t.
Qed.

Lemma check_tree_Ok tree : check_tree tree = Ok tt → tree_contract tree.
Proof.
  unfold check_tree. destruct tree as [| | | | | |fields]; try done.
  intros (b & Hb & H)%bind_Ok. apply fullmatch_Ok in Hb as (t & Ht & Hb).
  destruct b; [|done]. cbn [negb] in H. unfold tree_contract, item.
  destruct (field (txt "sha256") fields) as [digest|]; cbn in Ht; [|by injection Ht as <-].
  destruct (positive_int _) eqn:P; [|done].
  destruct (field (txt "file_count") fields) as [count|]; cbn in P; [|done].
  exists digest, count. split_and!; [done| |done|done]. by exists t.
Qed.

Lemma check_compiler_Ok compiler repositories vs :
  values repositories = Ok vs → Forall (λ v, check_repository v = Ok tt) vs →
  check_compiler compiler repositories = Ok tt → compiler_contract compiler repositories.
Proof.
  intros Hv Hr H. unfold check_compiler in H. accepted H.
  match goal with E : keys compiler = Ok ?p |- _ => rename p into present, E into Hkeys end.
  match goal with E : negb (bool_decide (missing_names _ _ = [])) = false |- _ =>
    apply negb_false_iff, bool_decide_eq_true, missing_names_nil in E; rename E into Hmissing end.
  match goal with E : mapM (check_hash compiler) _ = _ |- _ =>
    apply mapM_Ok in E; rename E into Hh end.
  match goal with E : item "sail" _ = Ok ?s, F : item "commit" ?s = Ok ?c |- _ =>
    rename s into sail, c into commit, E into Hsail, F into Hcommit end.
  assert (hex_value 40 commit) as Hhex.
  { rewrite Forall_forall in Hr. pose proof (item_values _ _ _ _ Hsail Hv) as Hin.
    destruct (check_repository_Ok sail (Hr _ Hin)) as (c & Hc & Hx). congruence. }
  assert (Forall (λ f, ∃ v, item f compiler = Ok v ∧ hex_value 64 v) compiler_hashes) as Hhashes
    by (eapply Forall_impl; [exact Hh|]; intros f; apply check_hash_Ok).
  unfold compiler_contract. split_and!; [eauto|done| |].
  - assert (∃ v, item "effective_binary_sha256" compiler = Ok v ∧ hex_value 64 v)
      as (v & Heff & t & -> & _).
    { rewrite Forall_forall in Hhashes. apply Hhashes. right. left. }
    match goal with E : negb (json_eqb ?a ?b) = false, A : item "binary_sha256" _ = Ok ?a,
      B : item "effective_binary_sha256" _ = Ok ?b |- _ =>
      apply negb_false_iff in E; rewrite Heff in B; injection B as <-;
      apply json_eqb_str in E; by rewrite A, Heff, E
    end.
  - destruct Hhex as (t & -> & Ht). exists sail, (JStr t). split_and!; [done|done|by exists t|].
    match goal with E : negb (json_eqb ?a (JStr t)) = false |- _ =>
      apply negb_false_iff, json_eqb_str in E; by subst a end.
Qed.

(** an accepted quality record has every required field and the v1 schema;
    every repository commit is a full hash; the compiler's digests are SHA-256,
    its binary is the effective one and its source commit is the Sail
    repository's; the generated tree has a digest and files; and every gate has
    an owner, a list of evidence and, when it was not executed, a reason and
    no elapsed time. *)
Theorem validate_record_contract (py_repr : json → text) (record : json) :
  validate_record py_repr record = Ok tt →
  (∃ present, keys record = Ok present ∧ Forall (λ n, n ∈ present) required_fields) ∧
  item "schema_version" record = Ok (JStr SCHEMA_VERSION) ∧
  (∃ repositories compiler vs, item "repositories" record = Ok repositories ∧
     values repositories = Ok vs ∧
     Forall (λ v, ∃ c, item "commit" v = Ok c ∧ hex_value 40 c) vs ∧
     item "compiler" record = Ok compiler ∧ compiler_contract compiler repositories) ∧
  (∃ extraction tree, item "extraction" record = Ok extraction ∧
     item "generated_source_tree" extraction = Ok tree ∧ tree_contract tree) ∧
  (∃ gates all_gates, item "gates" record = Ok gates ∧ iter gates = Ok all_gates ∧
     Forall gate_contract all_gates).
Proof.
  intros H. unfold validate_record in H. accepted H.
  apply negb_false_iff, bool_decide_eq_true, missing_names_nil in E0.
  apply negb_false_iff, json_eqb_str in E2 as ->.
  destruct x9, x11, x13, x16. apply each_Ok in E9, E16.
  pose proof (check_compiler_Ok x10 x7 x8 E8 E9 E11) as Hc.
  split_and!; [eauto|done| | |].
  - exists x7, x10, x8. split_and!; try done.
    eapply Forall_impl; [exact E9|]. apply check_repository_Ok.
  - unfold check_extraction in E13. accepted E13. eexists _, _.
    split_and!; [done|done|by apply check_tree_Ok].
  - exists x14, x15. split_and!; try done.
    eapply Forall_impl; [exact E16|]. apply check_gate_contract.
Qed.

(** An accepted record. *)
Definition sample_hash : json := JStr (replicate 64 "a"%byte).
Definition sample_commit : json := JStr (replicate 40 "0"%byte).
Definition object (fields : list (string * json)) : json :=
  JObj ((λ kv : string * json, (txt kv.1, kv.2)) <$> fields).
Definition word (s : string) : json := JStr (txt s).

Definition sample_record : json :=
  object [("schema_version", JStr SCHEMA_VERSION);
    ("run", object [("environment", object ((λ n, (n, JNull)) <$>
       ["os"; "architecture"; "clang_version"; "clang_format_version"; "clang_tidy_version"]))]);
    ("repositories", object [("evm_sail", object [("commit", sample_commit)]);
                             ("sail", object [("commit", sample_commit)])]);
    ("compiler", object (((λ n, (n, sample_hash)) <$> compiler_hashes) ++
       ((λ n, (n, word "sail")) <$> compiler_strings) ++
       [("source_commit", sample_commit); ("plugin_directory", word "plugins");
        ("plugin_file_count", JInt 3); ("library_directory", word "lib");
        ("library_file_count", JInt 9)]));
    ("extraction", object [("manifest_sha256", sample_hash);
       ("provenance_stamp_path", word "stamp.json"); ("provenance_stamp_sha256", sample_hash);
       ("generated_source_tree", object [("sha256", sample_hash); ("file_count", JInt 74)])]);
    ("artifacts", JArr []); ("samples", JArr []); ("gates", JArr skipped_gates);
    ("metrics", JArr []); ("findings", JArr []); ("human_review", object []);
    ("proof_impact", object [("shared_lowering_changed", word "unknown");
       ("artifact_hashes_before", JArr []); ("artifact_hashes_after", JArr []);
       ("conclusion", word "not_run")]);
    ("fixtures", JArr []); ("performance", JArr [])]%string.

Lemma validate_record_contract_witness :
  validate_record (λ _, []) sample_record = Ok tt ∧
  item "schema_version" sample_record = Ok (JStr SCHEMA_VERSION).
Proof.
  assert (validate_record (λ _, []) sample_record = Ok tt) as H by (vm_compute; reflexivity).
  split; [exact H|].
  destruct (validate_record_contract (λ _, []) sample_record H) as (_ & E & _). exact E.
Defined.

(** ** Provenance stamps *)

Lemma all_strings_Some v items : all_strings v = Some items → v = JArr (JStr <$> items).
Proof.
  destruct v as [| | | | |l|]; try done. cbn. revert items.
  induction l as [|x l IH]; intros items; cbn [mapM]; [by intros [= <-]|].
  intros (t & Ht & (ts & Hts & [= <-])%bind_Some)%bind_Some.
  destruct x; try done. injection Ht as ->. specialize (IH _ Hts). injection IH as ->. done.
Qed.

Lemma check_command_Ok stamp compiler items :
  check_command stamp compiler = Ok items →
  ∃ program arguments, items = program :: arguments ∧
    get "requested_command" stamp = Ok (JArr (JStr <$> items)) ∧
    item "executable" compiler = Ok (JStr program) ∧ (txt "--c-optimized-model" ∈ items).
Proof.
  unfold check_command. intros (v & Hv & H)%bind_Ok.
  destruct (all_strings v) as [[|program arguments]|] eqn:A; [done| |done].
  apply all_strings_Some in A as ->. apply bind_Ok in H as (e & He & H).
  destruct (_ || _) eqn:Hb; [done|]. injection H as <-.
  apply orb_false_iff in Hb as [H1 H2]. apply negb_false_iff in H1, H2.
  apply json_eqb_str_l in H1 as ->. apply bool_decide_eq_true in H2.
  exists program, arguments. by split_and!.
Qed.

Lemma check_output_Ok resolve command directory generated u :
  check_output resolve command directory generated = Ok u →
  ∃ output, after_option (txt "--c-output-dir") command = Some output ∧
    resolve (if startswith (txt "/") output then output
             else directory ++ txt "/" ++ output) = resolve generated.
Proof.
  unfold check_output. destruct (after_option _ _) as [output|]; [|done].
  case_bool_decide; [|done]. eauto.
Qed.

Lemma check_timestamps_Ok fromisoformat s u :
  check_timestamps fromisoformat s = Ok u →
  ∃ t1 t2 t3, timestamp fromisoformat "captured_at" s = Some (t1, true) ∧
    timestamp fromisoformat "extraction_completed_at" s = Some (t2, true) ∧
    timestamp fromisoformat "finalized_at" s = Some (t3, true) ∧ t1 <= t2 <= t3.
Proof.
  unfold check_timestamps.
  destruct (timestamp _ "captured_at" s) as [[t1 z1]|], (timestamp _ _ s) as [[t2 z2]|],
    (timestamp _ _ s) as [[t3 z3]|]; try done.
  destruct z1, z2, z3; cbn; try done. destruct (_ && _) eqn:B; [|done].
  apply andb_true_iff in B as [B1 B2]. apply Z.leb_le in B1, B2. intros _.
  exists t1, t2, t3. by split_and!.
Qed.

(** an accepted provenance stamp is the one that was read; it names the
    current compiler and its effective binary, the selected source, the
    repository as working directory and the requested output directory; its
    command is a non-empty list of strings that starts with the compiler's
    executable; its three timestamps carry time zones and are in order; and its
    source tree is the one on disk now. *)
Theorem load_extraction_provenance_stamp_sound (resolve : text → text) (ROOT : text)
    (fromisoformat : text → option (Z * bool)) (stamp : option json) (generated : text)
    (compiler : json) (source : option text) (current_tree : outcome json) (s : json) :
  load_extraction_provenance_stamp resolve ROOT fromisoformat stamp generated compiler source
    current_tree = Ok s →
  stamp = Some s ∧
  (∃ v, get "compiler" s = Ok v ∧ json_eqb v compiler = true) ∧
  (∃ v w, get "executed_snapshot_sha256" s = Ok v ∧
     item "effective_binary_sha256" compiler = Ok w ∧ json_eqb v w = true) ∧
  (∀ path, source = Some path → get "source" s = Ok (JStr (resolve path))) ∧
  (∃ program arguments, get "requested_command" s = Ok (JArr (JStr <$> program :: arguments)) ∧
     item "executable" compiler = Ok (JStr program) ∧
     (txt "--c-optimized-model" ∈ program :: arguments) ∧
     ∃ directory output, get "working_directory" s = Ok (JStr directory) ∧
       resolve directory = ROOT ∧
       after_option (txt "--c-output-dir") (program :: arguments) = Some output ∧
       resolve (if startswith (txt "/") output then output
                else directory ++ txt "/" ++ output) = resolve generated) ∧
  (∃ t1 t2 t3, timestamp fromisoformat "captured_at" s = Some (t1, true) ∧
     timestamp fromisoformat "extraction_completed_at" s = Some (t2, true) ∧
     timestamp fromisoformat "finalized_at" s = Some (t3, true) ∧ t1 <= t2 <= t3) ∧
  (∃ tree v, current_tree = Ok tree ∧ get "generated_source_tree" s = Ok v ∧
     json_eqb v tree = true).
Proof.
  unfold load_extraction_provenance_stamp. destruct stamp as [st|]; [|done].
  intros H. accepted H. injection H as <-.
  apply negb_false_iff in E2, E7, E11, E16. apply bool_decide_eq_true in E11.
  apply check_command_Ok in E8 as (program & arguments & -> & C1 & C2 & C3).
  apply check_output_Ok in E12 as (output & O1 & O2).
  apply check_timestamps_Ok in E13 as (t1 & t2 & t3 & T).
  destruct x9 as [| | | |directory| |]; try done. injection E10 as <-.
  split_and!; [done|eauto|eauto| | |by exists t1, t2, t3|eauto].
  - intros path ->. apply negb_false_iff, json_eqb_str in E4 as ->. done.
  - exists program, arguments. split_and!; [done|done|done|]. exists directory, output. done.
Qed.

Definition sample_stamp : json :=
  object [("schema_version", JStr EXTRACTION_PROVENANCE_SCHEMA);
    ("compiler", object [("executable", word "/bin/sail"); ("effective_binary_sha256", sample_hash)]);
    ("executed_snapshot_sha256", sample_hash);
    ("requested_command", JArr [word "/bin/sail"; word "--c-optimized-model";
       word "--c-output-dir"; word "build"]);
    ("working_directory", word "/repo"); ("captured_at", word "1");
    ("extraction_completed_at", word "2"); ("finalized_at", word "2");
    ("generated_source_tree", object [("file_count", JInt 1)])]%string.
Definition sample_compiler : json :=
  object [("effective_binary_sha256", sample_hash); ("executable", word "/bin/sail")]%string.

Lemma load_extraction_provenance_stamp_sound_witness :
  let fromisoformat t := (λ z, (z, true)) <$> int_of_text t in
  load_extraction_provenance_stamp id (txt "/repo") fromisoformat (Some sample_stamp)
    (txt "/repo/build") sample_compiler None (Ok (object [("file_count", JInt 1)]%string)) =
    Ok sample_stamp ∧
  (∃ v, get "compiler" sample_stamp = Ok v ∧ json_eqb v sample_compiler = true).
Proof.
  cbv zeta.
  assert (load_extraction_provenance_stamp id (txt "/repo")
    (λ t, (λ z, (z, true)) <$> int_of_text t) (Some sample_stamp)
    (txt "/repo/build") sample_compiler None (Ok (object [("file_count", JInt 1)]%string)) =
    Ok sample_stamp) as H by (vm_compute; reflexivity).
  split; [exact H|].
  destruct (load_extraction_provenance_stamp_sound _ _ _ _ _ _ _ _ _ H) as (_ & C & _). exact C.
Defined.
