(* ===== verification/ZiskCases.v ===== *)
(** * ZiskCases: the inputs of the guest benchmark

    The first part of [devtools/benchmarks/zisk.py]: embedded fixture cases,
    their identity, the framing of a guest input and the comparison of its
    output. The files, [json.loads] and [git] are parameters; a Boolean read
    as an integer is the integer it equals. *)
From Stdlib Require Import ZArith Lia Strings.Byte Floats.SpecFloat.
From stdpp Require Import base tactics option list gmap.
From S2P Require Import Prelude PyBytes OrderedDict Sha256 PyText BuildSupport Json Corpus Quality.
Local Open Scope Z_scope.

(** ** Paths

    [path.parts]: the root, when there is one, is the first part. *)
Definition parse_path (t : text) : path :=
  (if startswith (txt "///") t then [txt "/"]
   else if startswith (txt "//") t then [txt "//"]
   else if startswith (txt "/") t then [txt "/"] else []) ++ posix_parts t.

Definition is_root (part : text) : bool := bool_decide (part = txt "/" ∨ part = txt "//").

(** [str(path)] *)
Definition path_str (p : path) : text :=
  match p with
  | [] => txt "."
  | root :: rest => if is_root root then root ++ join (txt "/") rest else join (txt "/") p
  end.

(** [path.name], [path.parent] and [path.stem]. *)
Definition path_name (p : path) : text :=
  match last p with Some n => if is_root n then [] else n | None => [] end.
Definition path_parent (p : path) : path :=
  match p with [root] => if is_root root then p else [] | _ => removelast p end.

(** The characters before the last dot, with the number of those after it. *)
Fixpoint rfind_dot (before : text) (t : text) (found : option nat) : option nat :=
  match t with
  | [] => found
  | c :: t' => rfind_dot (c :: before) t'
                 (if bool_decide (c = "."%byte) then Some (length before) else found)
  end.
Definition path_stem (p : path) : text :=
  let name := path_name p in
  match rfind_dot [] name None with
  | Some i => if (0 <? i)%nat && (i <? length name - 1)%nat then take i name else name
  | None => name
  end.

(** ** Cases *)

(** [re.sub(r"[^A-Za-z0-9_.-]+", "-", name)] *)
Definition identity_char (c : byte) : bool :=
  is_word c || bool_decide (c = "."%byte) || bool_decide (c = "-"%byte).
Fixpoint collapse (replacing : bool) (t : text) : text :=
  match t with
  | [] => []
  | c :: t' => if identity_char c then c :: collapse false t'
               else if replacing then collapse true t' else "-"%byte :: collapse true t'
  end.

(** [t.strip("-")] *)
Fixpoint lstrip_dash (t : text) : text :=
  match t with
  | c :: t' => if bool_decide (c = "-"%byte) then lstrip_dash t' else t
  | [] => []
  end.
Definition strip_dash (t : text) : text := rev (lstrip_dash (rev (lstrip_dash t))).

Definition case_identity (name : text) (block_index : Z) (input_sha256 : text) : text :=
  let safe_name := strip_dash (collapse false name) in
  py_slice_from safe_name (-96) ++ txt "-block-" ++ show block_index ++ txt "-" ++
  take 12 input_sha256.

Record FixtureCase : Type := mkFixtureCase {
  fc_fixture : path;
  fc_fixture_sha256 : text;
  fc_name : text;
  fc_block_index : Z;
  fc_payload : bytes;
  fc_expected : bytes;
  fc_gas_used : option Z;
}.

(** What the dashboard reads of a case, measured now or recorded before. *)
Record RecordedCase : Type := mkRecordedCase {
  rc_fixture : path;
  rc_fixture_sha256 : text;
  rc_name : text;
  rc_block_index : Z;
  rc_input_sha256 : text;
  rc_input_bytes : Z;
  rc_gas_used : option Z;
}.

Definition identity (c : RecordedCase) : text :=
  case_identity c.(rc_name) c.(rc_block_index) c.(rc_input_sha256).

Definition input_sha256 (c : FixtureCase) : text := file_sha256 c.(fc_payload).
Definition input_bytes (c : FixtureCase) : Z := py_len c.(fc_payload).

(** A fixture case through the attributes it shares with a recorded one. *)
Definition as_recorded (c : FixtureCase) : RecordedCase :=
  mkRecordedCase c.(fc_fixture) c.(fc_fixture_sha256) c.(fc_name) c.(fc_block_index)
    (input_sha256 c) (input_bytes c) c.(fc_gas_used).

(** ** Decoding *)

Definition hex_value (c : byte) : option Z :=
  if is_digit c then Some (Z_of_byte c - 48)
  else if chr_in "a" "f" c then Some (Z_of_byte c - 87)
  else if chr_in "A" "F" c then Some (Z_of_byte c - 55) else None.

Definition ascii_space (c : byte) : bool := chr_in "009" "013" c || bool_decide (c = " "%byte).

(** [bytes.fromhex]: spaces may stand between the bytes. *)
Fixpoint fromhex (t : text) : option bytes :=
  match t with
  | [] => Some []
  | c :: t' =>
      if ascii_space c then fromhex t'
      else match t' with
           | d :: t'' =>
               h ← hex_value c; l ← hex_value d; rest ← fromhex t'';
               Some (byte_wrap (16 * h + l) :: rest)
           | [] => None
           end
  end.

Definition decode_hex (value : text) : outcome bytes :=
  let value := if startswith (txt "0x") value || startswith (txt "0X") value
               then drop 2 value else value in
  match fromhex value with Some b => Ok b | None => Raise (ValueError "fromhex") end.

(** A digit of [int(t, 0)], below the base. *)
Definition base_digit (base : Z) (c : byte) : option Z :=
  let v := if is_digit c then Z_of_byte c - 48
           else if is_lower c then Z_of_byte c - 87
           else if is_upper c then Z_of_byte c - 55 else 36 in
  if v <? base then Some v else None.

Fixpoint base_digits (base acc : Z) (after_digit : bool) (t : text) : option Z :=
  match t with
  | [] => if after_digit then Some acc else None
  | c :: t' =>
      match base_digit base c with
      | Some v => base_digits base (acc * base + v) true t'
      | None => if bool_decide (c = "_"%byte) && after_digit
                then base_digits base acc false t' else None
      end
  end.

(** An unsigned literal: a base prefix, after which one underscore may stand,
    or decimal digits without a leading zero unless the value is zero. *)
Definition based_digits (t : text) : option Z :=
  match t with
  | "0"%byte :: p :: t' =>
      let base := match lower_char p with
                  | "x"%byte => Some 16 | "o"%byte => Some 8 | "b"%byte => Some 2
                  | _ => None end in
      match base with
      | Some b => base_digits b 0 false
                    (match t' with "_"%byte :: t'' => t'' | _ => t' end)
      | None => v ← base_digits 10 0 false t; if v =? 0 then Some 0 else None
      end
  | _ => base_digits 10 0 false t
  end.

(** [int(t, 0)] *)
Definition int_base0 (t : text) : option Z :=
  match int_strip t with
  | "-"%byte :: t' => Z.opp <$> based_digits t'
  | "+"%byte :: t' => based_digits t'
  | t' => based_digits t'
  end.

Definition decode_quantity (value : json) : outcome (option Z) :=
  match value with
  | JInt z => Ok (Some z)
  | JBool b => Ok (Some (Z.b2z b))
  | JStr t => match int_base0 t with Some z => Ok (Some z) | None => Raise (ValueError "int") end
  | _ => Ok None
  end.

(** [decode_hex] of a value read from JSON. *)
Definition decode_hex_value (value : json) : outcome bytes :=
  match value with JStr t => decode_hex t | _ => Raise AttributeError end.

(** ** Loading *)

(** What a path names: a directory, with the files [rglob("*.json")] finds
    in it, a file, or nothing. *)
Inductive path_kind : Type :=
| IsDirectory (json_files : list path)
| IsFile
| IsMissing.

Section load.
Context (kind_of : path → path_kind) (read_bytes : path → bytes)
  (json_loads : bytes → outcome (option json)).

Fixpoint fixture_files (paths : list path) : outcome (list path) :=
  match paths with
  | [] => Ok []
  | p :: paths' =>
      files ← match kind_of p with
              | IsDirectory found => Ok (py_sorted path_leb id found)
              | IsFile => Ok [p]
              | IsMissing => Raise (ValueError "fixture path does not exist")
              end;
      rest ← fixture_files paths'; Ok (files ++ rest)
  end.

(** The case of one block; none when it embeds no stateless input. *)
Definition block_cases (file : path) (sha name : text) (block_index : Z) (block : json) :
    outcome (list FixtureCase) :=
  match block with
  | JObj fields =>
      let input_hex := default JNull (field (txt "statelessInputBytes") fields) in
      let output_hex := default JNull (field (txt "statelessOutputBytes") fields) in
      if negb (truthy input_hex) || match output_hex with JNull => true | _ => false end
      then Ok []
      else
        payload ← decode_hex_value input_hex;
        expected ← decode_hex_value output_hex;
        let header := default JNull (field (txt "blockHeader") fields) in
        used ← get "gasUsed" (if truthy header then header else JObj []);
        gas_used ← decode_quantity used;
        Ok [mkFixtureCase file sha name block_index payload expected gas_used]
  | _ => Ok []
  end.

Fixpoint blocks_cases (file : path) (sha name : text) (block_index : Z) (blocks : list json) :
    outcome (list FixtureCase) :=
  match blocks with
  | [] => Ok []
  | block :: blocks' =>
      cases ← block_cases file sha name block_index block;
      rest ← blocks_cases file sha name (block_index + 1) blocks'; Ok (cases ++ rest)
  end.

Fixpoint fixtures_cases (file : path) (sha : text) (fixtures : list (text * json)) :
    outcome (list FixtureCase) :=
  match fixtures with
  | [] => Ok []
  | (name, fixture) :: fixtures' =>
      cases ← match fixture with
              | JObj fields =>
                  match default (JArr []) (field (txt "blocks") fields) with
                  | JArr blocks => blocks_cases file sha name 0 blocks
                  | _ => Ok []
                  end
              | _ => Ok []
              end;
      rest ← fixtures_cases file sha fixtures'; Ok (cases ++ rest)
  end.

Definition file_cases (file : path) : outcome (list FixtureCase) :=
  let raw := read_bytes file in
  document ← json_loads raw;
  match document with
  | Some (JObj fixtures) => fixtures_cases file (file_sha256 raw) fixtures
  | _ => Ok []
  end.

Fixpoint files_cases (files : list path) : outcome (list FixtureCase) :=
  match files with
  | [] => Ok []
  | f :: files' => cases ← file_cases f; rest ← files_cases files'; Ok (cases ++ rest)
  end.

Definition load_cases (paths : list path) : outcome (list FixtureCase) :=
  fixture_files paths ≫= files_cases.
End load.

(** ** Guests *)

Record Guest : Type := mkGuest { g_name : text; elf : path }.

(** [parse_assignment]; [None] is its [ArgumentTypeError]. *)
Definition parse_assignment (value : text) : option (text * text) :=
  match span (λ c, negb (bool_decide (c = "="%byte))) value with
  | (name, _ :: assigned) =>
      if bool_decide (name = []) || bool_decide (assigned = []) then None
      else Some (name, assigned)
  | (_, []) => None
  end.

(** [repo_head_commit] of the two [git] outputs; [None] when a command
    failed. *)
Definition repo_head_commit (git : option (text * text)) : option text :=
  match git with
  | None => None
  | Some (head, status) =>
      let head := strip head in
      Some (if bool_decide (strip status = []) then head else head ++ txt "-dirty")
  end.

Definition provenance (commit version : json) (source : string) : json :=
  JObj [(txt "commit", commit); (txt "version", version); (txt "source", JStr (txt source))].

Section provenance.
(** The JSON of the sidecar beside an ELF, when there is one, and [git]. *)
Context (sidecar : path → option (outcome json)) (git : option (text * text)).

(** The part for a sidecar that exists. *)
Definition sidecar_provenance (recorded : json) : outcome json :=
  match recorded with
  | JObj fields =>
      let commit := default JNull (field (txt "commit") fields) in
      let version := default JNull (field (txt "version") fields) in
      match commit, version with
      | JNull, JNull => Raise (ValueError "build sidecar has neither commit nor version")
      | _, _ => Ok (provenance commit version "sidecar")
      end
  | _ => Raise (ValueError "build sidecar is not an object")
  end.

Definition guest_build_provenance (guest : Guest) (override : option text) : outcome json :=
  match override with
  | Some (c :: v) => Ok (provenance JNull (JStr (c :: v)) "cli")
  | _ =>
      match sidecar guest.(elf) with
      | Some recorded => recorded ≫= sidecar_provenance
      | None =>
          if bool_decide (guest.(g_name) = txt "evm-sail") then
            match repo_head_commit git with
            | Some (c :: commit) => Ok (provenance (JStr (c :: commit)) JNull "repository")
            | _ => Ok JNull
            end
          else Ok JNull
      end
  end.
End provenance.

(** ** Framing *)

(** [v.to_bytes(n, "little")] *)
Definition to_bytes_little (v : Z) (n : nat) : outcome bytes :=
  b ← to_bytes_big v n; Ok (rev b).
Definition from_le (l : bytes) : Z := from_be (rev l).

Definition frame_input (payload : bytes) : outcome bytes :=
  length_bytes ← to_bytes_little (py_len payload) 8;
  let framed := length_bytes ++ payload in
  Ok (framed ++ zeros (- py_len framed mod 8)).

Definition prepare_guest_payload (guest : Guest) (payload : bytes) : bytes := payload.

Definition frame_guest_input (guest : Guest) (payload : bytes) : outcome bytes :=
  frame_input (prepare_guest_payload guest payload).

Definition output_matches (actual expected : bytes) : bool :=
  bool_decide (py_slice_to actual (py_len expected) = expected) &&
  negb (existsb (λ b, negb (bool_decide (b = x00))) (py_slice_from actual (py_len expected))).

(** * The reports of the guest benchmark

    The second part of [devtools/benchmarks/zisk.py]: the aggregation of
    profiles and measurements, and the dashboard data set. Profiles and
    measurements are JSON values of any shape, so an access can raise what
    Python raises; the dashboard files are the ones written before a raise. *)

(** ** Executed functions *)

(** The digits of a number with separators. *)
Definition digits_value (t : text) : Z :=
  foldl (λ acc c, if is_digit c then 10 * acc + (Z_of_byte c - 48) else acc) 0 t.

(** [DISASSEMBLY_SYMBOL_ROW]: the symbol. *)
Definition symbol_row (line : text) : option text :=
  let '(address, rest) := span is_hex line in
  if bool_decide (address ≠ []) && startswith (txt " <") rest && endswith (txt ">:") rest &&
     (5 <=? length rest)%nat
  then Some (take (length rest - 4) (drop 2 rest)) else None.

(** [DISASSEMBLY_INSTRUCTION_ROW]: the execution count. *)
Definition instruction_row (line : text) : option Z :=
  let '(indent, rest) := span is_space line in
  let '(address, rest) := span is_hex rest in
  match rest with
  | ":"%byte :: rest =>
      let '(gap, rest) := span is_space rest in
      let '(number, rest) := span (λ c, is_digit c || bool_decide (c = ","%byte)) rest in
      match number, rest with
      | d :: _, e :: _ =>
          if bool_decide (indent ≠ []) && bool_decide (address ≠ []) && bool_decide (gap ≠ []) &&
             is_digit d && is_space e
          then Some (digits_value number) else None
      | _, _ => None
      end
  | _ => None
  end.

(** The loop over the lines: the current symbol and the steps by symbol. *)
Definition executed_line (st : text * list (text * Z)) (line : text) :
    text * list (text * Z) :=
  let '(current_symbol, steps_by_symbol) := st in
  match symbol_row line with
  | Some symbol =>
      (if startswith (txt ".L") symbol then current_symbol else symbol, steps_by_symbol)
  | None =>
      match instruction_row line with
      | Some count =>
          (current_symbol,
           od_set current_symbol (default 0 (od_get current_symbol steps_by_symbol) + count)
             steps_by_symbol)
      | None => st
      end
  end.

Record executed_function : Type := mkExecuted {
  ef_name : text;
  exclusive_steps : Z;
  share_percent : float;
}.

(** [100.0 * part / whole] *)
Definition percent (part whole : Z) : outcome float :=
  x ← float_of_int part; y ← float_of_int whole; h ← float_of_int 100;
  fl_div (fl_mul h x) y.

Definition executed_entries (total_steps : Z) (steps_by_symbol : list (text * Z)) :
    outcome (list executed_function) :=
  mapM (λ '(name, steps), share ← percent steps total_steps; Ok (mkExecuted name steps share))
    (filter (λ kv, kv.2 ≠ 0) steps_by_symbol).

Definition parse_executed_functions (disassembly : text) (total_steps : Z) :
    outcome (list executed_function) :=
  let '(_, steps_by_symbol) :=
    foldl executed_line (txt "<guest startup>", []) (splitlines disassembly) in
  let accounted_steps := foldr Z.add 0 steps_by_symbol.*2 in
  if negb (accounted_steps =? total_steps) then
    Raise (RuntimeError "disassembly execution counts do not match the ZisK step total")
  else
    functions ← executed_entries total_steps steps_by_symbol;
    Ok (py_sorted (pair_leb Z.leb bytes_leb) (λ f, (- f.(exclusive_steps), f.(ef_name))) functions).

(** ** Phases *)

Definition PHASE_SCOPES : list (text * text) :=
  [(txt "input-decode", txt "decode_input"); (txt "witness-indexing", txt "index_witness");
   (txt "execution", txt "execute_block"); (txt "state-root", txt "state_root");
   (txt "receipts-commitments", txt "receipts_root")].

Definition phase_entry (phase : text) (steps : Z) : json :=
  JObj [(txt "name", JStr phase); (txt "steps", JInt steps)].

Definition phase_steps (scope_steps : list (text * Z)) (total_steps : Z) : outcome (list json) :=
  let tagged := omap (λ '(phase, tag), (λ steps, (phase, steps)) <$> od_get tag scope_steps)
                  PHASE_SCOPES in
  if foldr Z.add 0 tagged.*2 >? total_steps
  then Raise (RuntimeError "phase steps exceed the run's total steps")
  else Ok ((λ '(phase, steps), phase_entry phase steps) <$> tagged).

(** [d.get(k)] of a dict of the benchmark. *)
Definition fget (k : string) (fields : list (text * json)) : json :=
  default JNull (field (txt k) fields).

Definition valid_phase (phase : json) : bool :=
  match phase with
  | JObj fields =>
      match fget "name" fields, as_int (fget "steps" fields) with
      | JStr _, Some _ => true
      | _, _ => false
      end
  | _ => false
  end.

Definition phase_copy (phase : json) : json :=
  match phase with
  | JObj fields =>
      JObj [(txt "name", fget "name" fields); (txt "steps", fget "steps" fields)]
  | _ => phase
  end.

(** [None] when the measurement has no phases. *)
Definition measurement_phases (measurements : list json) : outcome (option json) :=
  phases ← match measurements with m :: _ => get "phases" m | [] => Ok JNull end;
  match phases with
  | JNull => Ok None
  | JArr (p :: ps) =>
      if forallb valid_phase (p :: ps) then Ok (Some (JArr (phase_copy <$> p :: ps)))
      else Raise (ValueError "invalid phase entry")
  | _ => Raise (ValueError "invalid phase breakdown")
  end.

(** ** Unavailable profiles *)

(** [needle in t] *)
Fixpoint contains (needle t : text) : bool :=
  startswith needle t || match t with [] => false | _ :: t' => contains needle t' end.

Definition unavailable_entry (code message : string) (report_path : text) : json :=
  JObj [(txt "code", JStr (txt code)); (txt "message", JStr (txt message));
        (txt "report", JStr report_path)].

(** [timed_out]: the error is a [TimeoutExpired]; [diagnostic] is the text
    of the report, empty when there is none. *)
Definition unavailable_profile (timed_out : bool) (guest : Guest) (c : RecordedCase)
    (run_dir : path) (mode diagnostic : text) : json :=
  let report_path := path_str (run_dir ++
    [txt "profiles"; guest.(g_name); identity c ++ txt "." ++ mode ++ txt ".txt"]) in
  if contains (txt "OOM limit of heap with bump allocator") diagnostic then
    unavailable_entry "guest_heap_oom"
      "Guest unavailable: ZisK bump-allocator heap exhausted" report_path
  else if timed_out then
    unavailable_entry "timeout" "Guest unavailable: profile timed out" report_path
  else unavailable_entry "guest_failure" "Guest unavailable: execution failed" report_path.

(** ** Taxonomy *)

Definition FIXTURE_SUITES : list text :=
  [txt "blockchain_tests"; txt "blockchain_tests_engine"].

Record taxonomy : Type := mkTaxonomy {
  tx_corpus : text;
  tx_suite : text;
  tx_target : text;
  tx_fork : text;
  tx_feature : text;
  tx_category : text;
  tx_fixture : text;
  tx_path : text;
}.

Definition fixture_taxonomy (p : path) : taxonomy :=
  match list_find (λ part, part ∈ FIXTURE_SUITES) p with
  | None =>
      let parent := path_name (path_parent p) in
      mkTaxonomy (if bool_decide (parent = []) then txt "fixtures" else parent)
        (txt "fixtures") (txt "unspecified") (txt "unspecified") (txt "other") []
        (path_stem p) (path_str p)
  | Some (suite_index, _) =>
      let relative := drop suite_index p in
      let component index fallback := default (txt fallback) (relative !! index) in
      mkTaxonomy
        (match suite_index with
         | O => txt "fixtures" | S i => default (txt "fixtures") (p !! i) end)
        (component 0%nat "fixtures") (component 1%nat "unspecified")
        (component 2%nat "unspecified") (component 3%nat "other")
        (join (txt "/") (py_slice relative 4 (-1))) (path_stem p) (join (txt "/") relative)
  end.

Definition taxonomy_fields (t : taxonomy) : list (text * json) :=
  [(txt "corpus", JStr t.(tx_corpus)); (txt "suite", JStr t.(tx_suite));
   (txt "target", JStr t.(tx_target)); (txt "fork", JStr t.(tx_fork));
   (txt "feature", JStr t.(tx_feature)); (txt "category", JStr t.(tx_category));
   (txt "fixture", JStr t.(tx_fixture)); (txt "path", JStr t.(tx_path))].
