(* ===== verification/Dashboard.v ===== *)
(** * Dashboard: the dashboard data set of the guest benchmark

    [export_dashboard_data] and [regenerate_dashboard] of
    [devtools/benchmarks/zisk.py]. The directories and files they create are
    listed in the order they are created; a file written before a raise stays.
    The text of a float or a container is a parameter. *)

From Stdlib Require Import ZArith Lia Strings.Byte.
From stdpp Require Import base tactics option list gmap.
From S2P Require Import Prelude PyBytes OrderedDict Sha256 PyText BuildSupport Json Corpus Quality ZiskCases.
Local Open Scope Z_scope.

Definition DASHBOARD_FORMAT_VERSION : Z := 6.

Inductive output_event : Type :=
| MakeDirectory (p : path)
| WriteJson (p : path) (v : json).

Abbreviation IO := (M (list output_event)).
Definition emit (e : output_event) : IO unit := modify (λ events, events ++ [e]).

Abbreviation dict := (list (text * json)).

Definition value_error {A} (msg : string) : outcome A := Raise (ValueError msg).

(** ** Inputs by guest *)

Record guest_data : Type := mkGuestData {
  gd_result : dict;
  gd_measured : list json;
  gd_profiles : list json;
}.

Definition guest_inputs (case_count : Z) (guest_results : dict) (guest : Guest) :
    outcome guest_data :=
  match field guest.(g_name) guest_results with
  | Some (JObj guest_result) =>
      match fget "cases" guest_result, fget "profiles" guest_result with
      | JArr measured, JArr profiles =>
          if negb (py_len measured =? case_count) || negb (py_len profiles =? case_count)
          then value_error "dashboard profile count does not match fixture cases"
          else Ok (mkGuestData guest_result measured profiles)
      | _, _ => value_error "dashboard export requires measured SDK profiles"
      end
  | _ => value_error "dashboard result is missing a guest"
  end.

(** The dict [results_by_guest]. *)
Fixpoint results_by_guest (case_count : Z) (guest_results : dict) (guests : list Guest)
    (results : list (text * guest_data)) : outcome (list (text * guest_data)) :=
  match guests with
  | [] => Ok results
  | guest :: guests' =>
      d ← guest_inputs case_count guest_results guest;
      results_by_guest case_count guest_results guests' (od_set guest.(g_name) d results)
  end.

(** ** One guest on one case *)

Definition want_dict (msg : string) (v : json) : outcome unit :=
  match v with JObj _ => Ok tt | _ => value_error msg end.
Definition want_list (msg : string) (v : json) : outcome unit :=
  match v with JArr _ => Ok tt | _ => value_error msg end.
Definition want_str (msg : string) (v : json) : outcome unit :=
  match v with JStr _ => Ok tt | _ => value_error msg end.
Definition want_int (msg : string) (v : json) : outcome unit :=
  match as_int v with Some _ => Ok tt | None => value_error msg end.

(** The entry of a profiled case. *)
Definition profiled_entry (artifacts : dict) (measurements : list json) : outcome dict :=
  let entry k d := default d (field (txt k) artifacts) in
  let scope_steps := entry "scope_steps" (JObj []) in
  let scope_costs := entry "scope_costs" (JObj []) in
  let total_cost := fget "cost" artifacts in
  let opcode_costs := entry "opcode_costs" (JArr []) in
  let functions := entry "top_cost_functions" (JArr []) in
  let executed_functions := entry "executed_functions" (JArr []) in
  let function_profile_status := entry "function_profile_status" (JStr (txt "unknown")) in
  let function_inventory_status := entry "function_inventory_status" (JStr (txt "unknown")) in
  let opcode_profile_completeness :=
    entry "opcode_profile_completeness" (JStr (txt "sdk_top_operations")) in
  want_dict "invalid SDK scope totals" scope_steps;;
  want_dict "invalid SDK scope totals" scope_costs;;
  want_int "missing SDK total cost" total_cost;;
  want_list "invalid SDK function totals" functions;;
  want_list "invalid executed-function inventory" executed_functions;;
  want_list "invalid SDK operation totals" opcode_costs;;
  want_str "invalid function profile status" function_profile_status;;
  want_str "invalid function inventory status" function_inventory_status;;
  want_str "invalid operation profile completeness" opcode_profile_completeness;;
  steps ← item "steps" (JObj artifacts);
  total_steps ← to_int steps;
  phases ← measurement_phases measurements;
  Ok ([(txt "total_steps", JInt total_steps); (txt "total_cost", total_cost);
       (txt "scope_steps", scope_steps); (txt "scope_costs", scope_costs);
       (txt "opcode_costs", opcode_costs);
       (txt "opcode_profile_completeness", opcode_profile_completeness);
       (txt "top_cost_functions", functions);
       (txt "function_profile_status", function_profile_status);
       (txt "executed_functions", executed_functions);
       (txt "function_inventory_status", function_inventory_status)] ++
      match phases with Some ps => [(txt "phases", ps)] | None => [] end).

Definition case_entry (measurement profile : json) : outcome dict :=
  measurements ← get "measurements" measurement;
  artifacts ← get "artifacts" profile;
  match artifacts with
  | JObj artifacts =>
      match fget "unavailable" artifacts with
      | JObj unavailable => Ok [(txt "unavailable", JObj unavailable)]
      | _ =>
          match measurements with
          | JArr (m :: ms) => profiled_entry artifacts (m :: ms)
          | _ => value_error "missing measurements"
          end
      end
  | _ => value_error "missing profile artifacts"
  end.

(** The dict [case_guests] of a case. *)
Fixpoint case_guests (results : list (text * guest_data)) (case_index : nat)
    (guests : list Guest) (entries : list (text * dict)) : outcome (list (text * dict)) :=
  match guests with
  | [] => Ok entries
  | guest :: guests' =>
      match od_get guest.(g_name) results with
      | Some d =>
          match d.(gd_measured) !! case_index, d.(gd_profiles) !! case_index with
          | Some measurement, Some profile =>
              entry ← case_entry measurement profile;
              case_guests results case_index guests' (od_set guest.(g_name) entry entries)
          | _, _ => Raise IndexError
          end
      | None => Raise KeyError
      end
  end.

(** ** One fixture *)

Record shard_case : Type := mkShardCase {
  sc_case : RecordedCase;
  sc_guests : list (text * dict);
}.

Definition option_int (z : option Z) : json := from_option JInt JNull z.

Definition shard_case_json (s : shard_case) : json :=
  let c := s.(sc_case) in
  JObj [(txt "id", JStr (identity c)); (txt "name", JStr c.(rc_name));
        (txt "block_index", JInt c.(rc_block_index)); (txt "input_bytes", JInt c.(rc_input_bytes));
        (txt "gas_used", option_int c.(rc_gas_used));
        (txt "guests", JObj ((λ kv : text * dict, (kv.1, JObj kv.2)) <$> s.(sc_guests)))].

(** A total of a guest over the cases, [None] when one has no such total. *)
Definition guest_total (k : string) (name : text) (cases : list shard_case) : option Z :=
  totals ← mapM (λ s, as_int (fget k (default [] (od_get name s.(sc_guests))))) cases;
  Some (foldr Z.add 0 totals).

Definition guest_totals (k : string) (guests : list Guest) (cases : list shard_case) : dict :=
  foldl (λ totals guest, od_set guest.(g_name)
           (option_int (guest_total k guest.(g_name) cases)) totals) [] guests.

(** [t.encode()] of code points below 256. *)
Definition utf8 (t : text) : bytes :=
  t ≫= λ c, let v := Z_of_byte c in
    if v <? 128 then [c] else [byte_wrap (192 + v / 64); byte_wrap (128 + v mod 64)].

Definition fixture_identity (tax : taxonomy) (first : RecordedCase) : text :=
  take 20 (hexdigest (sha256 (utf8 (tax.(tx_path) ++ x00 :: first.(rc_fixture_sha256))))).

Record catalog_entry : Type := mkCatalogEntry {
  ce_taxonomy : taxonomy;
  ce_id : text;
  ce_shard : text;
  ce_cases : list shard_case;
  ce_steps : dict;
  ce_cost : dict;
}.

Definition gas_values (cases : list shard_case) : list Z :=
  omap (λ s, s.(sc_case).(rc_gas_used)) cases.

Definition catalog_json (e : catalog_entry) : json :=
  let gas := gas_values e.(ce_cases) in
  JObj (taxonomy_fields e.(ce_taxonomy) ++
    [(txt "id", JStr e.(ce_id)); (txt "shard", JStr e.(ce_shard));
     (txt "case_count", JInt (py_len e.(ce_cases)));
     (txt "max_gas_used",
        match gas with [] => JNull | g :: gs => JInt (foldl Z.max g gs) end);
     (txt "total_gas_used",
        match gas with [] => JNull | _ => JInt (foldr Z.add 0 gas) end);
     (txt "guest_total_steps", JObj e.(ce_steps)); (txt "guest_total_cost", JObj e.(ce_cost))]).

Definition shard_json (tax : taxonomy) (id : text) (cases : list shard_case) : json :=
  JObj [(txt "format_version", JInt DASHBOARD_FORMAT_VERSION);
        (txt "fixture", JObj (taxonomy_fields tax ++ [(txt "id", JStr id)]));
        (txt "cases", JArr (shard_case_json <$> cases))].

(** [grouped.setdefault(case.fixture, []).append((case_index, case))] *)
Definition add_to_group (grouped : list (path * list (nat * RecordedCase)))
    (indexed : nat * RecordedCase) : list (path * list (nat * RecordedCase)) :=
  let fixture := indexed.2.(rc_fixture) in
  od_set fixture (default [] (od_get fixture grouped) ++ [indexed]) grouped.

Definition group_cases (cases : list RecordedCase) : list (path * list (nat * RecordedCase)) :=
  foldl add_to_group [] (imap pair cases).

Definition shard_cases (results : list (text * guest_data)) (guests : list Guest)
    (fixture_cases : list (nat * RecordedCase)) : outcome (list shard_case) :=
  mapM (λ '(case_index, c), entries ← case_guests results case_index guests [];
          Ok (mkShardCase c entries)) fixture_cases.

(** The body of the loop over the groups: writes the shard. *)
Definition export_fixture (dashboard_dir : path) (results : list (text * guest_data))
    (guests : list Guest) (group : path * list (nat * RecordedCase)) : IO catalog_entry :=
  let '(fixture, fixture_cases) := group in
  let tax := fixture_taxonomy fixture in
  match fixture_cases with
  | [] => raise IndexError
  | (_, first) :: _ =>
      let id := fixture_identity tax first in
      let file_name := id ++ txt ".json" in
      cases ← of_outcome (shard_cases results guests fixture_cases);
      emit (WriteJson (dashboard_dir ++ [txt "fixtures"; file_name]) (shard_json tax id cases));;
      mret (mkCatalogEntry tax id (txt "fixtures/" ++ file_name) cases
              (guest_totals "total_steps" guests cases) (guest_totals "total_cost" guests cases))
  end.

(** ** The data set *)

(** [guest_catalog] *)
Definition guest_catalog (results : list (text * guest_data)) (guests : list Guest) :
    outcome (list json) :=
  mapM (λ guest : Guest,
    match od_get guest.(g_name) results with
    | None => Raise KeyError
    | Some d =>
        elf ← item "elf" (JObj d.(gd_result));
        match elf with
        | JObj _ =>
            sha ← item "sha256" elf; size ← item "size_bytes" elf;
            Ok (JObj [(txt "name", JStr guest.(g_name)); (txt "elf_sha256", sha);
                      (txt "elf_size_bytes", size); (txt "build", fget "build" d.(gd_result))])
        | _ => Raise AssertionError
        end
    end) guests.

(** The sort key of the catalog. *)
Definition catalog_key (e : catalog_entry) :=
  let t := e.(ce_taxonomy) in
  (t.(tx_suite), (t.(tx_target), (t.(tx_fork), (t.(tx_feature),
    (t.(tx_category), t.(tx_fixture)))))).
Definition catalog_leb := pair_leb bytes_leb (pair_leb bytes_leb (pair_leb bytes_leb
  (pair_leb bytes_leb (pair_leb bytes_leb bytes_leb)))).

(** A loop that collects what its body returns. *)
Fixpoint collect {S A B} (body : A → M S B) (xs : list A) : M S (list B) :=
  match xs with
  | [] => mret []
  | x :: xs' => y ← body x; ys ← collect body xs'; mret (y :: ys)
  end.

Section export.
Context (py_repr : json → text).

Definition catalog_payload (cases : list RecordedCase) (guest_entries : list json)
    (catalog : list catalog_entry) (benchmark_result : dict) : outcome json :=
  generated ← item "generated_at_unix_ns" (JObj benchmark_result);
  ziskemu ← item "ziskemu" (JObj benchmark_result);
  metadata ← item "metadata" (JObj benchmark_result);
  Ok (JObj [(txt "format_version", JInt DASHBOARD_FORMAT_VERSION);
            (txt "generated_at_unix_ns", JStr (to_str py_repr generated));
            (txt "guests", JArr guest_entries); (txt "ziskemu", ziskemu);
            (txt "metadata", metadata); (txt "fixture_count", JInt (py_len catalog));
            (txt "case_count", JInt (py_len cases));
            (txt "fixtures", JArr (catalog_json <$> catalog))]).

Definition export_dashboard_data (dashboard_dir : path) (cases : list RecordedCase)
    (guests : list Guest) (guest_results benchmark_result : dict) : IO unit :=
  results ← of_outcome (results_by_guest (py_len cases) guest_results guests []);
  emit (MakeDirectory dashboard_dir);;
  emit (MakeDirectory (dashboard_dir ++ [txt "fixtures"]));;
  catalog ← collect (export_fixture dashboard_dir results guests) (group_cases cases);
  guest_entries ← of_outcome (guest_catalog results guests);
  let catalog := py_sorted catalog_leb catalog_key catalog in
  payload ← of_outcome (catalog_payload cases guest_entries catalog benchmark_result);
  emit (WriteJson (dashboard_dir ++ [txt "catalog.json"]) payload).

(** ** Regeneration *)

(** The record [main] keeps of a case. *)
Definition fixture_record (c : FixtureCase) : json :=
  JObj [(txt "path", JStr (path_str c.(fc_fixture))); (txt "sha256", JStr c.(fc_fixture_sha256));
        (txt "case", JStr c.(fc_name)); (txt "block_index", JInt c.(fc_block_index));
        (txt "input_sha256", JStr (file_sha256 c.(fc_payload)));
        (txt "input_bytes", JInt (py_len c.(fc_payload)));
        (txt "gas_used", option_int c.(fc_gas_used));
        (txt "expected_output_bytes", JInt (py_len c.(fc_expected)))].

Definition text_item (k : string) (v : json) : outcome text :=
  x ← item k v; match x with JStr t => Ok t | _ => Raise (TypeError "str") end.
Definition int_item (k : string) (v : json) : outcome Z :=
  x ← item k v; match as_int x with Some z => Ok z | None => Raise (TypeError "int") end.

(** A recorded case. Only the path is checked by the code; the other fields
    are taken to have the types [main] records, and raise here otherwise. *)
Definition recorded_case (record : json) : outcome RecordedCase :=
  p ← text_item "path" record; sha ← text_item "sha256" record;
  name ← text_item "case" record; block_index ← int_item "block_index" record;
  input ← text_item "input_sha256" record; size ← int_item "input_bytes" record;
  gas ← get "gas_used" record;
  gas_used ← match gas with
             | JNull => Ok None
             | _ => match as_int gas with
                    | Some z => Ok (Some z) | None => Raise (TypeError "int") end
             end;
  Ok (mkRecordedCase (parse_path p) sha name block_index input size gas_used).

(** A recorded guest, with its build filled in when it was unknown. *)
Definition recorded_guest (guest_builds : list (text * text)) (named : text * json) :
    outcome (Guest * (text * json)) :=
  let '(name, guest_result) := named in
  elf ← item "elf" guest_result;
  p ← text_item "path" elf;
  match guest_result with
  | JObj fields =>
      let build := match od_get name guest_builds with
                   | Some (c :: version) => provenance JNull (JStr (c :: version)) "cli"
                   | _ => JNull
                   end in
      Ok (mkGuest name (parse_path p),
          (name, JObj (match fget "build" fields with
                       | JNull => od_set (txt "build") build fields | _ => fields end)))
  | _ => Raise AttributeError
  end.

Definition regenerate_dashboard (result : json) (dashboard_dir : path)
    (guest_builds : list (text * text)) : IO unit :=
  fixtures ← of_outcome (get "fixtures" result);
  guest_results ← of_outcome (get "guests" result);
  match result, fixtures, guest_results with
  | JObj benchmark_result, JArr records, JObj guest_results =>
      cases ← of_outcome (mapM recorded_case records);
      guests ← of_outcome (mapM (recorded_guest guest_builds) guest_results);
      let unknown_builds := filter (λ name, name ∉ guest_results.*1) guest_builds.*1 in
      if bool_decide (unknown_builds ≠ []) then
        of_outcome (value_error "unknown --guest-build guests")
      else export_dashboard_data dashboard_dir cases guests.*1 guests.*2 benchmark_result
  | _, _, _ => of_outcome (value_error "not a benchmark results file")
  end.
End export.
