(* ===== verification/Ssz.v ===== *)
(** * Ssz: the SSZ encoding of the program's input

    [lib/ssz/ssz.py], the list references of [primitives/ssz.py] and the
    containers and list cursors of [lib/ssz/stateless_input.py]. A container
    or a list of variable items starts with a table of 32-bit offsets, least
    significant byte first; its parts are the spans between them. Reading past
    the end of a slice gives zeros, so every check is on lengths. The theorems
    compare the readers with the encoding of the SSZ specification. *)

From Stdlib Require Import ZArith Lia Strings.Byte.
From stdpp Require Import base tactics option list.
From S2P Require Import Prelude PyBytes HostTypes SailRuntime Words ChainConfig Regions RegionAccess Gas.
Local Open Scope Z_scope.

(** ** Integers and bytes *)

Definition ssz_offset (v : Z) : outcome Z := BoundedUint 0 (2 ^ 32 - 1) v.
Definition ssz_uint (v : Z) : outcome Z := BoundedUint 0 (2 ^ 64 - 1) v.
Definition ssz_offset_index (v : Z) : outcome Z := BoundedUint 0 1073741823 v.

Definition SSZ_OFF_BYTES : Z := 4.
Definition SSZ_UINT_BYTES : Z := 8.

Definition ssz_field_offset (base delta : Z) : Z := base + delta.
Definition scratch_field_offset (base delta : Z) : Z := base + delta.

(** A shift of a byte extended to 32 bits. *)
Definition shifted (byte amount : Z) : Z :=
  (bits_of 32 (Z.shiftl byte amount)).(SailRuntime.value).

Definition ssz_u32_at (input : Slice) (offset : Z) : M HostState Z :=
  b0 ← stateless_input_slice_byte input offset;
  b1 ← stateless_input_slice_byte input (ssz_field_offset offset 1);
  b2 ← stateless_input_slice_byte input (ssz_field_offset offset 2);
  b3 ← stateless_input_slice_byte input (ssz_field_offset offset 3);
  let high := Z.lor (shifted b2 16) (shifted b3 24) in
  let nonzero := Z.lor (shifted b1 8) high in
  of_outcome (ssz_offset (Z.lor b0 nonzero)).

Definition ssz_u32 (input : Slice) (offset : Z) : M HostState Z :=
  v ← ssz_u32_at input offset; of_outcome (ssz_offset v).

Definition ssz_u32_in_slice (input : Slice) (offset : Z) : M HostState Z :=
  if (offset <=? input.(sl_len)) && (4 <=? input.(sl_len) - offset)
  then v ← ssz_u32_at input offset; of_outcome (ssz_offset v)
  else of_outcome fatal_error.

Definition ssz_offset_to_source_pointer (value : Z) : outcome Z := code_length value.

(** The sum of eight bytes of [decode_ssz_uint] and [decode_scratch_uint]. *)
Definition uint_of_bytes (byte0 byte1 byte2 byte3 byte4 byte5 byte6 byte7 : Z) : outcome Z :=
  ssz_uint (byte0 + byte1 * Z.shiftl 1 8 + byte2 * Z.shiftl 1 16 + byte3 * Z.shiftl 1 24 +
    byte4 * Z.shiftl 1 32 + byte5 * Z.shiftl 1 40 + byte6 * Z.shiftl 1 48 + byte7 * Z.shiftl 1 56).

(** Both decoders, on a slice of the input or of the arena. *)
Definition decode_uint (kind : RegionKind) (input : Slice) (offset : Z) : M HostState Z :=
  let byte_at k := slice_byte (_region_byte kind) input (offset + k) in
  byte0 ← slice_byte (_region_byte kind) input offset;
  byte1 ← byte_at 1; byte2 ← byte_at 2; byte3 ← byte_at 3; byte4 ← byte_at 4;
  byte5 ← byte_at 5; byte6 ← byte_at 6; byte7 ← byte_at 7;
  of_outcome (uint_of_bytes byte0 byte1 byte2 byte3 byte4 byte5 byte6 byte7).
Definition decode_ssz_uint := decode_uint RInput.
Definition decode_scratch_uint := decode_uint RScratch.

Definition ssz_addr (input : Slice) (offset : Z) : M HostState address :=
  value ← stateless_input_slice_load_n input offset ADDRESS_BYTE_LENGTH;
  a ← of_outcome (word_to_address value); of_outcome (Bytes20 a).

Definition ssz_bytes32 (input : Slice) (offset : Z) : M HostState hash :=
  value ← stateless_input_slice_load input offset;
  h ← of_outcome (word_to_hash value); of_outcome (Bytes32 h).

(** The loop of [ssz_u256], from the most significant byte. *)
Fixpoint u256_loop (input : Slice) (offset : Z) (ks : list Z) (result : Z) : M HostState Z :=
  match ks with
  | [] => mret result
  | k :: ks' =>
      byte_value ← stateless_input_slice_byte input (ssz_field_offset offset (31 - k));
      shifted_result ← of_outcome (word_mul_word result 256);
      next ← of_outcome (w ← word_add_word shifted_result byte_value; word w);
      u256_loop input offset ks' next
  end.
Definition ssz_u256 (input : Slice) (offset : Z) : M HostState Z :=
  ks ← of_outcome (sail_range 0 31 1 true);
  result ← u256_loop input offset ks 0; of_outcome (word result).

(** ** List references *)

(** [BoundedSszListRef] with the maximum its validity holds. *)
Record BoundedSszListRef : Type := mkSszListRef {
  lr_maximum : Z;
  lr_bytes : Slice;
  lr_count : Z;
  max_item_length : Z;
}.

Record BoundedSszListCursor : Type := mkSszListCursor {
  lc_maximum : Z;
  lc_items : BoundedSszListRef;
  lc_index : Z;
  lc_current : Z;
}.

Definition source_valid_length (maximum : Z) : bool := (0 <=? maximum) && (maximum <=? 2 ^ 32 - 1).

Definition bounded_ssz_list_ref (maximum : Z) (bytes : Slice) (count max_item : Z) :
    outcome BoundedSszListRef :=
  validated (source_valid_length maximum) tt;;
  count ← Uint count; max_item ← Uint max_item;
  validated ((0 <=? count) && (count <=? maximum)) (mkSszListRef maximum bytes count max_item).

Definition bounded_ssz_list_cursor (maximum : Z) (items : BoundedSszListRef) (index current : Z) :
    outcome BoundedSszListCursor :=
  validated (source_valid_length maximum) tt;;
  index ← Uint index; current ← Uint current;
  validated ((0 <=? index) && (index <=? maximum)) (mkSszListCursor maximum items index current).

Definition ssz_offset_table_position (index : Z) : outcome Z := ssz_offset (index * 4).

Definition ssz_list_cursor (items : BoundedSszListRef) : M HostState BoundedSszListCursor :=
  let bytes := items.(lr_bytes) in
  current ← (if negb (items.(lr_count) =? 0)
             then first_offset ← ssz_u32 bytes 0; of_outcome (ssz_offset_to_source_pointer first_offset)
             else mret bytes.(sl_len));
  of_outcome (bounded_ssz_list_cursor items.(lr_maximum) items 0 current).

Definition ssz_list_cursor_empty (cursor : BoundedSszListCursor) : bool :=
  cursor.(lc_items).(lr_count) <=? cursor.(lc_index).

(** The span from one offset to the next, within the limit on an item. *)
Definition ssz_item (items : BoundedSszListRef) (start stop : Z) : outcome Slice :=
  if (start <=? stop) && (stop <=? items.(lr_bytes).(sl_len)) then
    let item_length := stop - start in
    if negb (items.(max_item_length) =? 0) && (items.(max_item_length) <? item_length)
    then fatal_error
    else stateless_input_sub_slice items.(lr_bytes) start item_length
  else fatal_error.

(** Where the item before [next_index] stops. *)
Definition item_stop (items : BoundedSszListRef) (next_index : Z) : M HostState Z :=
  if next_index <? items.(lr_count) then
    table_position ← of_outcome (ssz_offset_table_position next_index);
    next_offset ← ssz_u32_in_slice items.(lr_bytes) table_position;
    of_outcome (ssz_offset_to_source_pointer next_offset)
  else mret items.(lr_bytes).(sl_len).

Definition ssz_list_pop (cursor : BoundedSszListCursor) : M HostState (Slice * BoundedSszListCursor) :=
  let items := cursor.(lc_items) in
  next_index ← of_outcome (if cursor.(lc_index) <? items.(lr_count)
                           then Ok (cursor.(lc_index) + 1) else fatal_error);
  next ← item_stop items next_index;
  item ← of_outcome (ssz_item items cursor.(lc_current) next);
  cursor' ← of_outcome (bounded_ssz_list_cursor cursor.(lc_maximum) items next_index next);
  mret (item, cursor').

Definition ssz_list_at (items : BoundedSszListRef) (index : Z) : M HostState Slice :=
  item_index ← of_outcome (if index <? items.(lr_count) then Ok index else fatal_error);
  start_position ← of_outcome (ssz_offset_table_position item_index);
  start_offset ← ssz_u32_in_slice items.(lr_bytes) start_position;
  start ← of_outcome (ssz_offset_to_source_pointer start_offset);
  stop ← item_stop items (item_index + 1);
  of_outcome (ssz_item items start stop).

Definition ssz_fixed_list_at (items : BoundedSszListRef) (index item_size : Z) : outcome Slice :=
  let offset_value := index * item_size in
  if (index <? items.(lr_count)) && (offset_value + item_size <=? items.(lr_bytes).(sl_len))
  then stateless_input_sub_slice items.(lr_bytes) offset_value item_size
  else fatal_error.

Definition ssz_fixed_list_pop (items : BoundedSszListRef) (item_size : Z) :
    outcome (Slice * BoundedSszListRef) :=
  let bytes := items.(lr_bytes) in
  if (0 <? items.(lr_count)) && (item_size <=? bytes.(sl_len)) then
    item ← stateless_input_sub_slice bytes 0 item_size;
    suffix ← stateless_input_slice_suffix bytes item_size;
    rest ← bounded_ssz_list_ref items.(lr_maximum) suffix (items.(lr_count) - 1)
             items.(max_item_length);
    Ok (item, rest)
  else fatal_error.

Definition ssz_bounded_variable_list_ref (bytes : Slice) (maximum_count maximum_item_length : Z) :
    M HostState BoundedSszListRef :=
  let span := bytes.(sl_len) in
  raw_count ←
    (if span =? 0 then mret 0
     else if span <? SSZ_OFF_BYTES then of_outcome fatal_error
     else
       first_offset ← ssz_u32 bytes 0;
       count ← of_outcome (sail_tdiv_int first_offset 4);
       offset_remainder ← of_outcome (sail_tmod_int first_offset 4);
       if negb (offset_remainder =? 0) || ((count =? 0) || (span <? first_offset))
       then of_outcome fatal_error else mret count);
  count ← of_outcome (if raw_count <=? maximum_count then Ok raw_count else fatal_error);
  of_outcome (bounded_ssz_list_ref maximum_count bytes count maximum_item_length).

Definition ssz_bounded_fixed_list_ref (bytes : Slice) (item_size maximum_count : Z) :
    outcome BoundedSszListRef :=
  width ← (if 0 <? item_size then Ok item_size else fatal_error);
  let span := bytes.(sl_len) in
  raw_count ← sail_ediv_int span width;
  if negb (span =? raw_count * width) then fatal_error
  else
    count ← (if raw_count <=? maximum_count then Ok raw_count else fatal_error);
    bounded_ssz_list_ref maximum_count bytes count item_size.

(** ** Containers *)

Definition ssz_container_bytes (bytes : Slice) (minimum : Z) : outcome Slice :=
  if minimum <=? bytes.(sl_len) then Ok bytes else fatal_error.

Record SszContainerCursor : Type := mkContainerCursor { cc_bytes : Slice; cc_current : Z }.

Definition ssz_container_cursor (bytes : Slice) (fixed_length : Z) : outcome SszContainerCursor :=
  current ← Uint fixed_length; Ok (mkContainerCursor bytes current).

Definition ssz_take (cursor : SszContainerCursor) (stop : Z) : outcome (Slice * SszContainerCursor) :=
  let bytes := cursor.(cc_bytes) in
  if (cursor.(cc_current) <=? stop) && (stop <=? bytes.(sl_len)) then
    span ← stateless_input_sub_slice bytes cursor.(cc_current) (stop - cursor.(cc_current));
    current ← Uint stop; Ok (span, mkContainerCursor bytes current)
  else fatal_error.

Definition ssz_finish (cursor : SszContainerCursor) : outcome Slice :=
  let bytes := cursor.(cc_bytes) in
  if cursor.(cc_current) <=? bytes.(sl_len)
  then stateless_input_sub_slice bytes cursor.(cc_current) (bytes.(sl_len) - cursor.(cc_current))
  else fatal_error.

(** ** What the readers return *)

(** The number the four bytes at an offset stand for. *)
Definition u32_at (data : bytes) (off : Z) : Z :=
  byte_or_zero data off + byte_or_zero data (off + 1) * 2 ^ 8 +
  byte_or_zero data (off + 2) * 2 ^ 16 + byte_or_zero data (off + 3) * 2 ^ 24.

(** Numbers, least significant byte first. *)
Definition le_bytes (n : nat) (v : Z) : bytes := rev (be_bytes n v).
Definition from_le (data : bytes) : Z := from_be (rev data).

Lemma le_bytes_S n v : le_bytes (S n) v = byte_wrap v :: le_bytes n (v / 256).
Proof. unfold le_bytes. change (be_bytes (S n) v) with (be_bytes n (v / 256) ++ [byte_wrap v]).
  by rewrite rev_app_distr. Qed.

Lemma le_bytes_length n v : length (le_bytes n v) = n.
Proof. unfold le_bytes. by rewrite length_rev, be_bytes_length. Qed.

Lemma from_le_cons b data : from_le (b :: data) = Z_of_byte b + 256 * from_le data.
Proof. unfold from_le. cbn [rev]. rewrite from_be_snoc. lia. Qed.

Lemma from_le_le_bytes n v : from_le (le_bytes n v) = v mod 256 ^ Z.of_nat n.
Proof. unfold from_le, le_bytes. by rewrite rev_involutive, from_be_be_bytes. Qed.

Lemma le_bytes_from_le data : le_bytes (length data) (from_le data) = data.
Proof.
  unfold le_bytes, from_le. rewrite <-(length_rev data), be_bytes_from_be. apply rev_involutive.
Qed.

Lemma from_le_bound data : 0 <= from_le data < 256 ^ py_len data.
Proof.
  pose proof (from_be_bound (rev data)) as H. unfold from_le, py_len in *. by rewrite length_rev in H.
Qed.

Lemma byte_or_zero_range data off : 0 <= byte_or_zero data off < 256.
Proof. apply Z_of_byte_range. Qed.

Lemma u32_at_range data off : 0 <= u32_at data off < 2 ^ 32.
Proof.
  unfold u32_at. pose proof (byte_or_zero_range data off). pose proof (byte_or_zero_range data (off + 1)).
  pose proof (byte_or_zero_range data (off + 2)). pose proof (byte_or_zero_range data (off + 3)). lia.
Qed.

(** Disjoint bytes: the disjunction is the sum. *)
Lemma lor_disjoint a b n : 0 <= n → 0 <= a < 2 ^ n → 0 <= b → Z.lor a (Z.shiftl b n) = a + b * 2 ^ n.
Proof.
  intros Hn Ha Hb. rewrite <-Z.shiftl_mul_pow2 by done. symmetry. apply Z.add_nocarry_lor.
  apply Z.bits_inj'. intros i Hi. rewrite Z.land_spec, Z.bits_0.
  destruct (Z.lt_ge_cases i n).
  - rewrite Z.shiftl_spec_low by done. apply andb_false_r.
  - destruct (Z.eq_dec a 0) as [->|]; [by rewrite Z.bits_0|].
    rewrite (Z.bits_above_log2 a i); [done|tauto|]. apply Z.log2_lt_pow2; [lia|].
    eapply Z.lt_le_trans; [apply Ha|]. by apply Z.pow_le_mono_r.
Qed.

Lemma shifted_small b n : 0 <= b < 256 → 0 <= n <= 24 → shifted b n = Z.shiftl b n.
Proof.
  intros Hb Hn. unfold shifted. rewrite bits_of_value by lia. apply Z.mod_small.
  rewrite Z.shiftl_mul_pow2 by lia. split; [apply Z.mul_nonneg_nonneg; [lia|apply Z.pow_nonneg; lia]|].
  apply Z.lt_le_trans with (256 * 2 ^ n).
  - apply Z.mul_lt_mono_pos_r; [apply Z.pow_pos_nonneg; lia|lia].
  - change (2 ^ 32) with (256 * 2 ^ 24). apply Z.mul_le_mono_nonneg_l; [lia|].
    apply Z.pow_le_mono_r; lia.
Qed.

Section reading.
Context (st : HostState) (s : Slice) (Hs : slice_in RInput s st).
Let data : bytes := slice_data RInput s st.

Lemma ssz_u32_run off : 0 <= off → ssz_u32 s off st = (Ok (u32_at data off), st).
Proof.
  intros Ho. unfold ssz_u32, ssz_u32_at, stateless_input_slice_byte, stateless_input_byte_at,
    ssz_field_offset.
  do 4 (rewrite ?bind_run; rewrite slice_byte_run by (done || lia)).
  py_step. fold data. unfold u32_at.
  pose proof (byte_or_zero_range data off). pose proof (byte_or_zero_range data (off + 1)).
  pose proof (byte_or_zero_range data (off + 2)). pose proof (byte_or_zero_range data (off + 3)).
  rewrite !shifted_small by lia.
  rewrite !Z.lor_assoc, (lor_disjoint _ _ 8), (lor_disjoint _ _ 16), (lor_disjoint _ _ 24) by lia.
  pose proof (u32_at_range data off) as Hr. unfold u32_at in Hr.
  unfold ssz_offset. rewrite BoundedUint_ok by lia. py_step. by rewrite BoundedUint_ok by lia.
Qed.

Lemma ssz_u32_in_slice_run off :
  0 <= off → ssz_u32_in_slice s off st =
  ((if off + 4 <=? s.(sl_len) then Ok (u32_at data off) else fatal_error), st).
Proof.
  intros Ho. unfold ssz_u32_in_slice. pose proof Hs as (_ & Hn & _).
  destruct (Z.leb_spec off s.(sl_len)), (Z.leb_spec 4 (s.(sl_len) - off)),
    (Z.leb_spec (off + 4) s.(sl_len)); cbn [andb]; try lia; try done.
  by apply ssz_u32_run.
Qed.

(** The eight bytes at an offset, as a number. *)
Lemma decode_ssz_uint_run off :
  0 <= off → off + 8 <= s.(sl_len) →
  decode_ssz_uint s off st =
  (Ok (from_le (take 8 (drop (Z.to_nat off) data))), st).
Proof.
  intros Ho Hle. pose proof (slice_data_length _ _ _ Hs) as Hl. fold data in Hl.
  unfold decode_ssz_uint, decode_uint. cbv zeta.
  do 8 (rewrite ?bind_run; rewrite slice_byte_run by (done || lia)).
  py_step. fold data.
  assert (∀ k, 0 <= k < 8 → ∃ b, data !! Z.to_nat (off + k) = Some b) as Hb.
  { intros k Hk. apply lookup_lt_is_Some_2. unfold py_len in Hl. lia. }
  assert (∃ b0 b1 b2 b3 b4 b5 b6 b7,
    take 8 (drop (Z.to_nat off) data) = [b0; b1; b2; b3; b4; b5; b6; b7]) as (b0 & b1 & b2 & b3 & b4 & b5 & b6 & b7 & E).
  { assert (length (take 8 (drop (Z.to_nat off) data)) = 8%nat) as E8.
    { rewrite length_take, length_drop. unfold py_len in Hl. lia. }
    destruct (take _ _) as [|c0 [|c1 [|c2 [|c3 [|c4 [|c5 [|c6 [|c7 [|? ?]]]]]]]]]; try done.
    by repeat eexists. }
  assert (∀ k b, [b0; b1; b2; b3; b4; b5; b6; b7] !! Z.to_nat k = Some b → 0 <= k < 8 →
    byte_or_zero data (off + k) = Z_of_byte b) as Hk.
  { intros k b Hb' Hk. rewrite <-E in Hb'. rewrite lookup_take_lt, lookup_drop in Hb' by lia.
    unfold byte_or_zero, mem_at. replace (Z.to_nat (off + k)) with (Z.to_nat off + Z.to_nat k)%nat by lia.
    by rewrite Hb'. }
  rewrite E. pose proof (from_le_bound [b0; b1; b2; b3; b4; b5; b6; b7]) as Hr.
  rewrite !from_le_cons in *. change (from_le []) with 0 in *.
  rewrite <-(Z.add_0_r off) at 1.
  rewrite (Hk 0 b0), (Hk 1 b1), (Hk 2 b2), (Hk 3 b3), (Hk 4 b4), (Hk 5 b5), (Hk 6 b6), (Hk 7 b7)
    by (done || lia).
  unfold uint_of_bytes, ssz_uint. change (256 ^ py_len _) with (2 ^ 64) in Hr.
  rewrite !Z.shiftl_1_l, BoundedUint_ok by lia. f_equal. f_equal. lia.
Qed.
End reading.

(** ** Tables of offsets *)

Lemma u32_at_le data off :
  0 <= off → off + 4 <= py_len data → u32_at data off = from_le (take 4 (drop (Z.to_nat off) data)).
Proof.
  intros Ho Hl. unfold py_len in Hl.
  assert (∃ b0 b1 b2 b3, take 4 (drop (Z.to_nat off) data) = [b0; b1; b2; b3]) as (b0 & b1 & b2 & b3 & E).
  { assert (length (take 4 (drop (Z.to_nat off) data)) = 4%nat) as E4.
    { rewrite length_take, length_drop. lia. }
    destruct (take _ _) as [|c0 [|c1 [|c2 [|c3 [|? ?]]]]]; try done. by repeat eexists. }
  assert (∀ k b, [b0; b1; b2; b3] !! Z.to_nat k = Some b → 0 <= k < 4 →
    byte_or_zero data (off + k) = Z_of_byte b) as Hk.
  { intros k b Hb' Hk. rewrite <-E in Hb'. rewrite lookup_take_lt, lookup_drop in Hb' by lia.
    unfold byte_or_zero, mem_at. replace (Z.to_nat (off + k)) with (Z.to_nat off + Z.to_nat k)%nat by lia.
    by rewrite Hb'. }
  rewrite E, !from_le_cons. change (from_le []) with 0. unfold u32_at.
  rewrite <-(Z.add_0_r off) at 1.
  rewrite (Hk 0 b0), (Hk 1 b1), (Hk 2 b2), (Hk 3 b3) by (done || lia). lia.
Qed.

Definition table (os : list Z) : bytes := List.concat (le_bytes 4 <$> os).

Definition is_u32 (v : Z) : Prop := 0 <= v < 2 ^ 32.

Lemma table_cons o os : table (o :: os) = le_bytes 4 o ++ table os.
Proof. done. Qed.

Lemma table_len os : py_len (table os) = 4 * Z.of_nat (length os).
Proof.
  induction os as [|o os IH]; [done|]. rewrite table_cons, py_len_app, IH. unfold py_len.
  rewrite le_bytes_length. cbn [length]. lia.
Qed.

Lemma py_len_take_drop {A} (l : list A) n : 0 <= n <= py_len l →
  py_len (take (Z.to_nat n) l) = n ∧ py_len (drop (Z.to_nat n) l) = py_len l - n.
Proof. intros H. unfold py_len in *. rewrite length_take, length_drop. lia. Qed.

Lemma drop_py_len {A} (p q : list A) : drop (Z.to_nat (py_len p)) (p ++ q) = q.
Proof. unfold py_len. rewrite Nat2Z.id. apply drop_app_length. Qed.

Lemma take_py_len {A} (p q : list A) : take (Z.to_nat (py_len p)) (p ++ q) = p.
Proof. unfold py_len. rewrite Nat2Z.id. apply take_app_length. Qed.

(** Reading a table gives its offsets back. *)
Lemma u32_at_table p os q k o :
  Forall is_u32 os → os !! k = Some o →
  u32_at (p ++ table os ++ q) (py_len p + 4 * Z.of_nat k) = o.
Proof.
  intros Hos Hk. rewrite u32_at_le; [| pose proof (py_len_nonneg p); lia |].
  2: { rewrite !py_len_app, table_len. apply lookup_lt_Some in Hk. pose proof (py_len_nonneg q). lia. }
  rewrite <-(take_drop_middle os k o Hk). unfold table.
  rewrite fmap_app, fmap_cons, List.concat_app. cbn [List.concat].
  rewrite <-!app_assoc, (app_assoc p).
  assert (py_len p + 4 * Z.of_nat k = py_len (p ++ List.concat (le_bytes 4 <$> take k os))) as ->.
  { rewrite py_len_app. fold (table (take k os)). rewrite table_len, length_take.
    apply lookup_lt_Some in Hk. lia. }
  rewrite drop_py_len.
  assert (take 4 (le_bytes 4 o ++ List.concat (le_bytes 4 <$> drop (S k) os) ++ q) = le_bytes 4 o) as ->
    by (rewrite <-(le_bytes_length 4 o) at 1; apply take_app_length).
  rewrite from_le_le_bytes. apply Z.mod_small. by eapply Forall_lookup_1 in Hos.
Qed.

(** What a table of the given length says determines its bytes. *)
Lemma table_unique os : ∀ data,
  4 * Z.of_nat (length os) <= py_len data →
  (∀ k o, os !! k = Some o → u32_at data (4 * Z.of_nat k) = o) →
  take (4 * length os) data = table os.
Proof.
  induction os as [|o os IH]; intros data Hl Hr; [done|]. cbn [length] in *.
  pose proof (Hr O o eq_refl) as H0. rewrite u32_at_le, drop_0 in H0 by lia.
  rewrite table_cons. replace (4 * S (length os))%nat with (4 + 4 * length os)%nat by lia.
  assert (length (take 4 data) = 4%nat) as H4 by (rewrite length_take; unfold py_len in Hl; lia).
  rewrite <-(take_drop 4 data) at 1. rewrite take_app, H4, take_take, (Nat.min_r _ 4) by lia. f_equal.
  - by rewrite <-(le_bytes_from_le (take 4 data)), H4, <-H0.
  - replace (4 + 4 * length os - 4)%nat with (4 * length os)%nat by lia. apply IH.
    + unfold py_len in *. rewrite length_drop. lia.
    + intros k o' Hk. rewrite <-(Hr (S k) o' Hk). unfold u32_at, byte_or_zero, mem_at.
      rewrite !lookup_drop. do 4 f_equal; repeat f_equal; lia.
Qed.

(** The offsets of consecutive parts. *)
Fixpoint offsets (start : Z) (parts : list bytes) : list Z :=
  match parts with
  | [] => []
  | p :: parts' => start :: offsets (start + py_len p) parts'
  end.

Lemma offsets_length start parts : length (offsets start parts) = length parts.
Proof. revert start. induction parts as [|p parts IH]; intros start; cbn; [done|]. by rewrite IH. Qed.

Lemma offsets_bound start parts top :
  0 <= start → start + py_len (List.concat parts) <= top →
  Forall (λ o, 0 <= o <= top) (offsets start parts).
Proof.
  revert start. induction parts as [|p parts IH]; intros start H0 Hl; cbn in *; [constructor|].
  rewrite py_len_app in Hl. pose proof (py_len_nonneg p). pose proof (py_len_nonneg (List.concat parts)).
  constructor; [lia|]. apply IH; lia.
Qed.

(** ** Lists of variable items *)

(** The SSZ encoding of a list of byte strings. *)
Definition ssz_list (items : list bytes) : bytes :=
  table (offsets (4 * Z.of_nat (length items)) items) ++ List.concat items.

(** A limit of zero is no limit. *)
Definition item_fits (maximum_item_length : Z) (item : bytes) : Prop :=
  maximum_item_length = 0 ∨ py_len item <= maximum_item_length.

(** Pops up to [fuel] items. *)
Fixpoint pop_all (fuel : nat) (cursor : BoundedSszListCursor) : M HostState (list Slice) :=
  match fuel with
  | O => mret []
  | S fuel' =>
      '(item, next) ← ssz_list_pop cursor; rest ← pop_all fuel' next; mret (item :: rest)
  end.

(** Reads a list as its users do: a reference, a cursor, an item at a time. *)
Definition decode_list_items (bytes : Slice) (maximum_count maximum_item_length : Z) :
    M HostState (list Slice) :=
  items ← ssz_bounded_variable_list_ref bytes maximum_count maximum_item_length;
  cursor ← ssz_list_cursor items;
  pop_all (Z.to_nat items.(lr_count)) cursor.

Section lists.
Context (st : HostState) (s : Slice) (Hs : slice_in RInput s st).
Let data : bytes := slice_data RInput s st.

Lemma data_len : py_len data = s.(sl_len).
Proof. by apply slice_data_length. Qed.

(** A reference into [s], as [ssz_bounded_variable_list_ref] makes them. *)
Definition list_ref_wf (l : BoundedSszListRef) : Prop :=
  l.(lr_bytes) = s ∧ 0 <= l.(lr_count) <= l.(lr_maximum) ∧ l.(lr_maximum) <= 2 ^ 32 - 1 ∧
  4 * l.(lr_count) <= s.(sl_len) ∧ 0 <= l.(max_item_length).

(** Where the item before index [i] stops. *)
Definition stop_at (l : BoundedSszListRef) (i : Z) : Z :=
  if i <? l.(lr_count) then u32_at data (4 * i) else s.(sl_len).

Lemma item_stop_run l i :
  list_ref_wf l → 0 <= i → item_stop l i st = (Ok (stop_at l i), st).
Proof.
  intros (Hb & Hc & Hm & Ht & _) Hi. unfold item_stop, stop_at. rewrite Hb.
  pose proof Hs as (_ & _ & _ & Hlim). pose proof Hs as (Hs0 & _).
  destruct (Z.ltb_spec i l.(lr_count)); [|done].
  unfold ssz_offset_table_position, ssz_offset. rewrite BoundedUint_ok by lia.
  rewrite bind_run, of_outcome_run, bind_run, ssz_u32_in_slice_run by (done || lia).
  rewrite (proj2 (Z.leb_le _ _)) by lia. rewrite of_outcome_run.
  unfold ssz_offset_to_source_pointer, code_length.
  pose proof (u32_at_range data (i * 4)). rewrite Uint_ok by (fold data; lia).
  by rewrite (Z.mul_comm 4).
Qed.

Lemma ssz_item_ok l start stop :
  list_ref_wf l → 0 <= start →
  ssz_item l start stop =
  if bool_decide (start <= stop <= s.(sl_len) ∧
                  (l.(max_item_length) = 0 ∨ stop - start <= l.(max_item_length)))
  then Ok (mkSlice (s.(sl_bytes) + start) (stop - start)) else fatal_error.
Proof.
  intros (Hb & _) H0. unfold ssz_item. rewrite Hb.
  pose proof Hs as (H1 & H2 & H3 & H4).
  case_bool_decide as Hd.
  - rewrite !(proj2 (Z.leb_le _ _)) by lia. cbn [andb].
    assert ((negb (max_item_length l =? 0) && (max_item_length l <? stop - start)) = false) as ->.
    { destruct (Z.eqb_spec (max_item_length l) 0), (Z.ltb_spec (max_item_length l) (stop - start));
        cbn; lia. }
    unfold stateless_input_sub_slice, sub_slice, checked_slice, region_valid_range.
    by rewrite !(proj2 (Z.leb_le _ _)) by lia.
  - destruct (Z.leb_spec start stop), (Z.leb_spec stop s.(sl_len)); cbn [andb]; try done.
    destruct (Z.eqb_spec (max_item_length l) 0), (Z.ltb_spec (max_item_length l) (stop - start));
      cbn; try done; lia.
Qed.

Lemma cursor_ok l index current :
  list_ref_wf l → 0 <= index <= l.(lr_count) → 0 <= current →
  bounded_ssz_list_cursor l.(lr_maximum) l index current =
  Ok (mkSszListCursor l.(lr_maximum) l index current).
Proof.
  intros (_ & Hc & Hm & _) Hi Hcur. unfold bounded_ssz_list_cursor, source_valid_length.
  rewrite !(proj2 (Z.leb_le _ _)) by lia. cbn [andb validated mbind outcome_bind].
  rewrite !Uint_ok by lia. cbn [mbind outcome_bind].
  by rewrite !(proj2 (Z.leb_le _ _)) by lia.
Qed.

Lemma stop_at_nonneg l i : 0 <= stop_at l i.
Proof.
  unfold stop_at. pose proof (u32_at_range data (4 * i)). pose proof Hs as (_ & ? & _).
  destruct (_ <? _); lia.
Qed.

(** One pop: the item up to the next offset, if the offsets are in order and
    the item is within its limit. *)
Lemma ssz_list_pop_run l i current :
  list_ref_wf l → 0 <= i < l.(lr_count) → 0 <= current →
  ssz_list_pop (mkSszListCursor l.(lr_maximum) l i current) st =
  (if bool_decide (current <= stop_at l (i + 1) <= s.(sl_len) ∧
       (l.(max_item_length) = 0 ∨ stop_at l (i + 1) - current <= l.(max_item_length)))
   then Ok (mkSlice (s.(sl_bytes) + current) (stop_at l (i + 1) - current),
            mkSszListCursor l.(lr_maximum) l (i + 1) (stop_at l (i + 1)))
   else fatal_error, st).
Proof.
  intros Hl Hi Hcur. unfold ssz_list_pop. cbn [lc_items lc_index lc_current lc_maximum].
  rewrite (proj2 (Z.ltb_lt _ _)) by lia.
  rewrite bind_run, of_outcome_run, bind_run, item_stop_run by (done || lia).
  rewrite bind_run, of_outcome_run, ssz_item_ok by done.
  case_bool_decide; [|done].
  rewrite bind_run, of_outcome_run, cursor_ok; [done|done|lia|apply stop_at_nonneg].
Qed.

(** The bytes of a span. *)
Lemma span_data a n :
  0 <= a → 0 <= n → a + n <= s.(sl_len) →
  slice_data RInput (mkSlice (s.(sl_bytes) + a) n) st = take (Z.to_nat n) (drop (Z.to_nat a) data).
Proof.
  intros Ha Hn Hle. destruct (sub_slice_ok RInput s a n st Hs Ha Hn Hle) as (t & Et & _ & _ & Hd).
  pose proof Hs as (H1 & H2 & H3 & H4).
  unfold sub_slice, checked_slice, region_valid_range in Et.
  rewrite !(proj2 (Z.leb_le _ _)) in Et by lia. cbn in Et. by injection Et as <-.
Qed.

(** The rest of the table from index [i + 1] holds the offsets of [items], the
    first of them at [current]. *)
Definition table_from (i current : Z) (items : list bytes) : Prop :=
  ∀ k o, offsets current items !! S k = Some o → u32_at data (4 * (i + 1 + Z.of_nat k)) = o.

(** [items] are what is left of the list at an index. *)
Definition remaining (l : BoundedSszListRef) (i current : Z) (items : list bytes) : Prop :=
  drop (Z.to_nat current) data = List.concat items ∧
  Forall (item_fits l.(max_item_length)) items ∧ table_from i current items.

Lemma table_from_tail i current x items :
  table_from i current (x :: items) → table_from (i + 1) (current + py_len x) items.
Proof. intros H k o Hk. rewrite <-(H (S k) o Hk). f_equal. lia. Qed.

Lemma drop_current current : 0 <= current <= s.(sl_len) →
  py_len (drop (Z.to_nat current) data) = s.(sl_len) - current.
Proof. intros H. rewrite <-data_len in *. by apply py_len_take_drop. Qed.

Lemma remaining_stop l i current x items :
  list_ref_wf l → 0 <= current <= s.(sl_len) →
  i + Z.of_nat (S (length items)) = l.(lr_count) → remaining l i current (x :: items) →
  stop_at l (i + 1) = current + py_len x ∧ current + py_len x <= s.(sl_len).
Proof.
  intros Hl Hcur Hn (Hd & _ & Ho). pose proof (drop_current current Hcur) as Hdl.
  rewrite Hd in Hdl. cbn [List.concat] in Hdl. rewrite py_len_app in Hdl.
  pose proof (py_len_nonneg (List.concat items)). split; [|lia]. unfold stop_at.
  destruct items as [|y items']; cbn in Hn.
  - rewrite (proj2 (Z.ltb_ge _ _)) by lia. change (py_len (List.concat [])) with 0 in Hdl. lia.
  - rewrite (proj2 (Z.ltb_lt _ _)) by lia. rewrite <-(Ho O (current + py_len x) eq_refl). f_equal. lia.
Qed.

Lemma pop_all_complete l items : ∀ i current,
  list_ref_wf l → 0 <= i → i + Z.of_nat (length items) = l.(lr_count) →
  0 <= current <= s.(sl_len) → remaining l i current items →
  ∃ ts, pop_all (length items) (mkSszListCursor l.(lr_maximum) l i current) st = (Ok ts, st) ∧
    (λ t, slice_data RInput t st) <$> ts = items.
Proof.
  induction items as [|x items IH]; intros i current Hl Hi Hn Hcur Hr; [by exists []|].
  change (length (x :: items)) with (S (length items)) in *. cbn [pop_all].
  destruct (remaining_stop l i current x items) as [Hstop Hle]; [done..|].
  pose proof Hr as (Hd & [Hf Hf']%Forall_cons & Ho). pose proof (py_len_nonneg x).
  rewrite bind_run, ssz_list_pop_run by (done || lia). rewrite Hstop, bool_decide_eq_true_2;
    [|unfold item_fits in Hf; lia]. rewrite bind_run.
  destruct (IH (i + 1) (current + py_len x)) as (rest & Er & Hrest); [done|lia..| |].
  { split_and!; [|done|by apply table_from_tail].
    replace (Z.to_nat (current + py_len x)) with (Z.to_nat current + Z.to_nat (py_len x))%nat by lia.
    rewrite <-drop_drop, Hd. apply drop_py_len. }
  rewrite Er, ret_run. eexists. split; [done|]. cbn [fmap list_fmap]. f_equal; [|done].
  rewrite span_data by lia. rewrite Hd. replace (current + py_len x - current) with (py_len x) by lia.
  apply take_py_len.
Qed.

Lemma pop_all_sound l n : ∀ i current ts,
  list_ref_wf l → 0 <= i → i + Z.of_nat n = l.(lr_count) → 0 <= current <= s.(sl_len) →
  (n = O → current = s.(sl_len)) →
  pop_all n (mkSszListCursor l.(lr_maximum) l i current) st = (Ok ts, st) →
  length ts = n ∧ remaining l i current ((λ t, slice_data RInput t st) <$> ts).
Proof.
  induction n as [|n IH]; intros i current ts Hl Hi Hn Hcur Hlast Hrun.
  { cbn in Hrun. injection Hrun as <-. split; [done|]. split_and!; [|constructor|done].
    apply drop_ge. pose proof data_len as Hdl. unfold py_len in Hdl. specialize (Hlast eq_refl). lia. }
  cbn [pop_all] in Hrun. rewrite bind_run, ssz_list_pop_run in Hrun by (done || lia).
  set (stop := stop_at l (i + 1)) in *. case_bool_decide as Hd; [|done].
  destruct Hd as [[Hd1 Hd2] Hfit]. rewrite bind_run in Hrun.
  destruct (pop_all n _ st) as [[rest|e] st'] eqn:Er; [|done].
  rewrite ret_run in Hrun. injection Hrun as <- ->.
  destruct (IH (i + 1) stop rest) as (Hlen & Hdrop & Hf & Ho); [done|lia..| |done|].
  { intros ->. unfold stop, stop_at. by rewrite (proj2 (Z.ltb_ge _ _)) by lia. }
  cbn [length fmap list_fmap]. split; [by f_equal|].
  pose proof (span_data current (stop - current)) as Hspan. rewrite Hspan by lia.
  set (x := take _ _). pose proof (drop_current current Hcur) as Hdl.
  assert (py_len x = stop - current) as Hx by (apply py_len_take_drop; lia).
  split_and!.
  - cbn [List.concat]. rewrite <-Hdrop. unfold x.
    rewrite <-(take_drop (Z.to_nat (stop - current)) (drop (Z.to_nat current) data)) at 1.
    rewrite drop_drop. do 2 f_equal. lia.
  - constructor; [|done]. unfold item_fits. lia.
  - intros [|k] o Hk; cbn [offsets lookup list_lookup] in Hk;
      rewrite Hx in Hk; replace (current + (stop - current)) with stop in Hk by lia.
    + destruct rest as [|y rest]; [done|]. injection Hk as <-. cbn in Hlen.
      unfold stop, stop_at. rewrite (proj2 (Z.ltb_lt _ _)) by lia. f_equal. lia.
    + rewrite <-(Ho k o Hk). f_equal. lia.
Qed.

(** When a list reference is made, and of how many items. *)
Definition counted (n maximum_count : Z) : Prop :=
  0 <= n <= maximum_count ∧
  ((s.(sl_len) = 0 ∧ n = 0) ∨ (0 < n ∧ u32_at data 0 = 4 * n ∧ 4 * n <= s.(sl_len))).

Lemma list_ref_exact maximum_count limit l :
  0 <= maximum_count <= 2 ^ 32 - 1 → 0 <= limit →
  ssz_bounded_variable_list_ref s maximum_count limit st = (Ok l, st) ↔
  ∃ n, l = mkSszListRef maximum_count s n limit ∧ counted n maximum_count.
Proof.
  intros Hm Hlim. unfold ssz_bounded_variable_list_ref, counted. cbv zeta.
  assert (∀ n, 0 <= n → bounded_ssz_list_ref maximum_count s n limit =
    if n <=? maximum_count then Ok (mkSszListRef maximum_count s n limit)
    else validated false (mkSszListRef maximum_count s n limit)) as Hmk.
  { intros n Hn. unfold bounded_ssz_list_ref, source_valid_length.
    rewrite !(proj2 (Z.leb_le _ _)) by lia. cbn [andb validated mbind outcome_bind].
    rewrite !Uint_ok by lia. cbn [mbind outcome_bind]. by rewrite (proj2 (Z.leb_le _ _)), andb_true_l by lia. }
  destruct (Z.eqb_spec s.(sl_len) 0) as [E0|E0].
  { py_step. rewrite (proj2 (Z.leb_le _ _)) by lia. rewrite Hmk by lia.
    rewrite (proj2 (Z.leb_le _ _)) by lia. split.
    - intros [= <-]. exists 0. by split; [|split; [lia|left]].
    - intros (k & -> & Hn & [[_ ->]|]); [done|lia]. }
  pose proof (u32_at_range data 0) as Hr. unfold SSZ_OFF_BYTES.
  destruct (Z.ltb_spec s.(sl_len) 4) as [E4|E4].
  { py_step. split; [done|]. intros (k & _ & Hn & [|]); lia. }
  rewrite !bind_run, ssz_u32_run by (done || lia). fold data.
  rewrite sail_tdiv_ok, sail_tmod_ok, Z.quot_div_nonneg, Z.rem_mod_nonneg by lia. py_step.
  pose proof (Z.div_mod (u32_at data 0) 4).
  pose proof (Z.mod_pos_bound (u32_at data 0) 4).
  destruct (Z.eqb_spec (u32_at data 0 mod 4) 0) as [Em|Em]; cbn [negb orb];
    [|py_step; split; [done|]; intros (k & _ & Hn & [|(? & E & ?)]); [lia|];
      exfalso; apply Em; rewrite E, Z.mul_comm; apply Z.mod_mul; lia].
  destruct (Z.eqb_spec (u32_at data 0 / 4) 0), (Z.ltb_spec s.(sl_len) (u32_at data 0)); cbn [orb];
    try (py_step; split; [done|]; intros (k & _ & Hn & [|]); lia).
  py_step. destruct (Z.leb_spec (u32_at data 0 / 4) maximum_count);
    [|py_step; split; [done|]; intros (k & _ & Hn & [|]); lia].
  rewrite Hmk, (proj2 (Z.leb_le _ _)) by lia. split.
  - intros [= <-]. exists (u32_at data 0 / 4). split; [done|]. lia.
  - intros (k & -> & Hn & [|]); [lia|]. do 3 f_equal. lia.
Qed.

Lemma list_ref_state maximum_count limit :
  ∃ o, ssz_bounded_variable_list_ref s maximum_count limit st = (o, st).
Proof.
  unfold ssz_bounded_variable_list_ref. cbv zeta.
  destruct (_ =? 0); [py_step; destruct (_ <=? _); by eexists|]. destruct (_ <? _); [by eexists|].
  rewrite !bind_run, ssz_u32_run by (done || lia).
  rewrite sail_tdiv_ok, sail_tmod_ok by lia. py_step. destruct (_ || _); [by eexists|]. py_step.
  destruct (_ <=? _); by eexists.
Qed.

Lemma counted_wf n maximum_count limit :
  maximum_count <= 2 ^ 32 - 1 → 0 <= limit → counted n maximum_count →
  list_ref_wf (mkSszListRef maximum_count s n limit).
Proof. intros Hm Hl (Hn & Hc). pose proof Hs as (_ & ? & _). split_and!; cbn; try done; lia. Qed.

(** Where the first item starts. *)
Lemma list_cursor_run n maximum_count limit :
  maximum_count <= 2 ^ 32 - 1 → 0 <= limit → counted n maximum_count →
  let l := mkSszListRef maximum_count s n limit in
  ssz_list_cursor l st = (Ok (mkSszListCursor maximum_count l 0 (4 * n)), st).
Proof.
  intros Hm Hl Hc l. pose proof (counted_wf n maximum_count limit Hm Hl Hc) as Hwf. fold l in Hwf.
  assert (0 <= n <= l.(lr_count)) as Hcount by (cbn; destruct Hc; lia).
  pose proof (cursor_ok l 0 (4 * n) Hwf ltac:(lia) ltac:(lia)) as Hcur.
  change (lr_maximum l) with maximum_count in Hcur. destruct Hc as (Hn & Hc).
  unfold ssz_list_cursor. change (lr_count l) with n. change (lr_bytes l) with s.
  change (lr_maximum l) with maximum_count.
  destruct Hc as [[E0 ->]|(Hp & Hu & Hle)].
  - rewrite Z.eqb_refl. py_step. rewrite E0. by rewrite <-Hcur.
  - rewrite (proj2 (Z.eqb_neq _ _)) by lia. cbn [negb].
    rewrite !bind_run, ssz_u32_run by (done || lia). fold data. rewrite Hu, of_outcome_run.
    unfold ssz_offset_to_source_pointer, code_length. rewrite Uint_ok by lia. cbv beta iota.
    by rewrite of_outcome_run, Hcur.
Qed.

(** What counting the items and reading them to the end amounts to. *)
Lemma remaining_all n maximum_count limit items :
  counted n maximum_count → Z.of_nat (length items) = n →
  remaining (mkSszListRef maximum_count s n limit) 0 (4 * n) items →
  data = ssz_list items.
Proof.
  intros (Hn & Hc) Hlen (Hd & _ & Ho). unfold ssz_list. rewrite Hlen, <-Hd.
  rewrite <-(take_drop (Z.to_nat (4 * n)) data) at 1. f_equal.
  replace (Z.to_nat (4 * n)) with (4 * length (offsets (4 * n) items))%nat
    by (rewrite offsets_length; lia).
  apply table_unique.
  - rewrite offsets_length, Hlen, data_len. lia.
  - intros [|k] o Hk.
    + destruct items as [|x items]; [done|]. injection Hk as <-. cbn in Hlen.
      change (4 * Z.of_nat 0) with 0. lia.
    + rewrite <-(Ho k o Hk). f_equal. lia.
Qed.

Lemma ssz_list_counted items maximum_count :
  data = ssz_list items → Z.of_nat (length items) <= maximum_count →
  counted (Z.of_nat (length items)) maximum_count ∧
  drop (Z.to_nat (4 * Z.of_nat (length items))) data = List.concat items ∧
  table_from 0 (4 * Z.of_nat (length items)) items.
Proof.
  intros E Hm. set (n := Z.of_nat (length items)) in *. pose proof data_len as Hdl.
  pose proof Hs as (_ & _ & _ & Hlim). pose proof Hs as (Hs0 & _).
  assert (py_len (table (offsets (4 * n) items)) = 4 * n) as Ht
    by (rewrite table_len, offsets_length; done).
  pose proof (py_len_nonneg (List.concat items)) as Hcl.
  assert (py_len data = 4 * n + py_len (List.concat items)) as Hl
    by (rewrite E; unfold ssz_list; fold n; rewrite py_len_app; lia).
  assert (Forall is_u32 (offsets (4 * n) items)) as Hu.
  { eapply Forall_impl; [apply (offsets_bound _ _ s.(sl_len)); lia|].
    intros o Ho. cbn in Ho. unfold is_u32. lia. }
  assert (∀ k o, offsets (4 * n) items !! k = Some o → u32_at data (4 * Z.of_nat k) = o) as Hr.
  { intros k o Hk. rewrite E. unfold ssz_list. fold n.
    pose proof (u32_at_table [] _ (List.concat items) k o Hu Hk) as H. exact H. }
  split_and!.
  - split; [lia|]. destruct items as [|x items].
    + left. cbn in n. split; [|done]. rewrite <-Hdl, Hl. done.
    + right. cbn in n. split_and!; [lia| |lia]. change 0 with (4 * Z.of_nat 0). by apply Hr.
  - rewrite E. unfold ssz_list. fold n. rewrite <-Ht at 1. apply drop_py_len.
  - intros k o Hk. rewrite <-(Hr (S k) o Hk). f_equal. lia.
Qed.
End lists.

(** C21: a list of byte strings is read item by item exactly when the slice holds
    its SSZ encoding, it has at most the maximum number of items and each is
    within the limit: the readers accept no other encoding of a list, and the
    slices they give hold the items in order. *)
Theorem ssz_list_exact (s : Slice) (maximum_count limit : Z) (items : list bytes) (st : HostState) :
  slice_in RInput s st → 0 <= maximum_count <= 2 ^ 32 - 1 → 0 <= limit →
  (∃ ts, decode_list_items s maximum_count limit st = (Ok ts, st) ∧
     (λ t, slice_data RInput t st) <$> ts = items) ↔
  slice_data RInput s st = ssz_list items ∧ Z.of_nat (length items) <= maximum_count ∧
  Forall (item_fits limit) items.
Proof.
  intros Hs Hm Hlim. unfold decode_list_items. pose proof Hs as (_ & Hlen & _). split.
  - intros (ts & Hrun & <-). rewrite bind_run in Hrun.
    destruct (list_ref_state st s Hs maximum_count limit) as (o & El). rewrite El in Hrun.
    destruct o as [l|]; [|done].
    apply list_ref_exact in El as (n & -> & Hc); [|done..].
    rewrite bind_run, (list_cursor_run st s Hs) in Hrun by (done || lia). cbn [lr_count] in Hrun.
    destruct (pop_all_sound st s Hs (mkSszListRef maximum_count s n limit) (Z.to_nat n) 0 (4 * n) ts)
      as (Hn & Hr); [by apply (counted_wf st); [|lia..|]|lia| | | |exact Hrun|].
    + cbn. destruct Hc. lia.
    + destruct Hc as (? & [|]); lia.
    + destruct Hc as (? & [|]); lia.
    + assert (Z.of_nat (length ((λ t, slice_data RInput t st) <$> ts)) = n) as Hn'
        by (rewrite length_fmap; destruct Hc; lia).
      split_and!.
      * by apply (remaining_all st s Hs n maximum_count limit).
      * destruct Hc. lia.
      * apply Hr.
  - intros (E & Hn & Hf). set (n := Z.of_nat (length items)) in *.
    destruct (ssz_list_counted st s Hs items maximum_count E Hn) as (Hc & Hd & Ho). fold n in Hc, Hd, Ho.
    rewrite bind_run. rewrite (proj2 (list_ref_exact st s Hs maximum_count limit _ Hm Hlim)) by eauto.
    rewrite bind_run, (list_cursor_run st s Hs) by (done || lia). cbn [lr_count].
    replace (Z.to_nat n) with (length items) by lia.
    apply (pop_all_complete st s Hs (mkSszListRef maximum_count s n limit)); cbn [lr_count].
    + by apply (counted_wf st); [|lia..|].
    + lia.
    + lia.
    + destruct Hc as (? & [|]); lia.
    + done.
Qed.

(** A state whose input is the encoding of a list of two items. *)
Definition two_items : HostState :=
  set_regions (set_stateless_input_bytes
    [Byte.x08; Byte.x00; Byte.x00; Byte.x00; Byte.x0a; Byte.x00; Byte.x00; Byte.x00;
     Byte.x01; Byte.x02; Byte.x03] initial_state.(regions)) initial_state.

Lemma ssz_list_exact_witness :
  ∃ ts, decode_list_items (mkSlice 0 11) 4 2 two_items = (Ok ts, two_items) ∧
    (λ t, slice_data RInput t two_items) <$> ts = [[Byte.x01; Byte.x02]; [Byte.x03]].
Proof.
  apply (ssz_list_exact (mkSlice 0 11) 4 2 [[Byte.x01; Byte.x02]; [Byte.x03]] two_items).
  - vm_compute. intuition congruence.
  - lia.
  - lia.
  - split; [vm_compute; reflexivity|]. split; [vm_compute; congruence|].
    repeat constructor; vm_compute; intuition congruence.
Defined.
