(* ===== verification/StatelessInput.v ===== *)
(** * StatelessInput: the decoded input of a block and its witness

    [lib/ssz/stateless_input.py] with the records of
    [primitives/stateless_input.py] and [primitives/block.py]: the references
    into the input, the execution payload, the chain configuration, and the
    indexing of the witness (nodes, codes and headers).

    [decode_parent_header_fields] assigns to the fields of the object it is
    given, and its only caller gives it the module's
    [EMPTY_PARENT_HEADER_FIELDS]: what one header leaves there the next one
    finds. The object is therefore a cell of the program's state here. *)

From Stdlib Require Import ZArith Lia Strings.Byte.
From stdpp Require Import base tactics option list.
From S2P Require Import Prelude PyBytes HostTypes SailRuntime Words ChainConfig Regions RegionAccess Gas Crypto CodeDb Environment Scratch Rlp Kernel TxCodec Ssz.
Local Open Scope Z_scope.

(** ** Offsets and limits *)

Definition SSZ_BODY : Z := 2.
Definition IN_NPR_OFF : Z := 0.
Definition IN_WITNESS_OFF : Z := 4.
Definition IN_CHAIN_CONFIG_OFF : Z := 8.
Definition IN_PUBLIC_KEYS_OFF : Z := 12.
Definition NPR_PAYLOAD_OFF : Z := 0.
Definition NPR_VHASHES_OFF : Z := 4.
Definition NPR_BEACON_ROOT : Z := 8.
Definition NPR_REQUESTS_OFF : Z := 40.
Definition REQ_DEPOSITS_OFF : Z := 0.
Definition REQ_WITHDRAWALS_OFF : Z := 4.
Definition REQ_CONSOLIDATIONS_OFF : Z := 8.
Definition REQ_BUILDER_DEPOSITS_OFF : Z := 12.
Definition REQ_BUILDER_EXITS_OFF : Z := 16.
Definition PL_FEE_RECIPIENT : Z := 32.
Definition PL_STATE_ROOT : Z := 52.
Definition PL_RECEIPTS_ROOT : Z := 84.
Definition PL_LOGS_BLOOM : Z := 116.
Definition PL_PREV_RANDAO : Z := 372.
Definition PL_BLOCK_NUMBER : Z := 404.
Definition PL_GAS_LIMIT : Z := 412.
Definition PL_GAS_USED : Z := 420.
Definition PL_TIMESTAMP : Z := 428.
Definition PL_EXTRA_OFF : Z := 436.
Definition PL_BASE_FEE : Z := 440.
Definition PL_BLOCK_HASH : Z := 472.
Definition PL_TXS_OFF : Z := 504.
Definition PL_WDS_OFF : Z := 508.
Definition PL_BLOB_GAS_USED : Z := 512.
Definition PL_EXCESS_BLOB_GAS : Z := 520.
Definition PL_BAL_OFF : Z := 528.
Definition PL_SLOT_NUMBER : Z := 532.
Definition WD_SIZE : Z := 44.
Definition WD_INDEX : Z := 0.
Definition WD_VALIDATOR_INDEX : Z := 8.
Definition WD_ADDRESS : Z := 16.
Definition WD_AMOUNT : Z := 36.
Definition CC_CHAIN_ID : Z := 0.
Definition CC_ACTIVE_FORK_OFF : Z := 8.
Definition FC_ACTIVATION_OFF : Z := 0.
Definition FA_BLOCK_NUMBER_OFF : Z := 0.
Definition FA_TIMESTAMP_OFF : Z := 4.
Definition WIT_STATE_OFF : Z := 0.
Definition WIT_CODES_OFF : Z := 4.
Definition WIT_HEADERS_OFF : Z := 8.
Definition STATELESS_INPUT_FIXED_LENGTH : Z := 18.
Definition STATELESS_INPUT_BODY_FIXED_LENGTH : Z := 16.
Definition NEW_PAYLOAD_REQUEST_FIXED_LENGTH : Z := 44.
Definition EXECUTION_PAYLOAD_FIXED_LENGTH : Z := 540.
Definition EXECUTION_REQUESTS_FIXED_LENGTH : Z := 20.
Definition EXECUTION_WITNESS_FIXED_LENGTH : Z := 12.
Definition PUBLIC_KEY_LENGTH : Z := 65.
Definition CHAIN_CONFIG_HEADER_LENGTH : Z := 12.
Definition CHAIN_CONFIG_MIN_LENGTH : Z := 24.
Definition MAX_EXTRA_DATA_LENGTH : Z := Z.shiftl 1 5.
Definition MAX_TRANSACTION_LENGTH : Z := Z.shiftl 1 30.
Definition MAX_TRANSACTIONS_PER_PAYLOAD : Z := Z.shiftl 1 20.
Definition MAX_WITHDRAWALS_PER_PAYLOAD : Z := Z.shiftl 1 4.
Definition MAX_BLOCK_ACCESS_LIST_LENGTH : Z := Z.shiftl 1 30.
Definition MAX_BLOB_COMMITMENTS_PER_BLOCK : Z := Z.shiftl 1 12.
Definition MAX_WITNESS_NODES : Z := Z.shiftl 1 22.
Definition MAX_WITNESS_NODE_LENGTH : Z := Z.shiftl 1 10.
Definition MAX_WITNESS_CODES : Z := Z.shiftl 1 18.
Definition MAX_WITNESS_CODE_LENGTH : Z := Z.shiftl 1 16.
Definition MAX_WITNESS_HEADERS : Z := Z.shiftl 1 8.
Definition MAX_WITNESS_HEADER_LENGTH : Z := Z.shiftl 1 10.
Definition MAX_PUBLIC_KEYS : Z := Z.shiftl 1 15.

(** ** References into the input *)

Record StatelessInputRef : Type := mkStatelessInputRef {
  ir_protocol : ProtocolProfileFields;
  new_payload_request : Slice;
  execution_payload : Slice;
  versioned_hashes : Slice;
  deposits : Slice;
  withdrawal_requests : Slice;
  consolidation_requests : Slice;
  builder_deposit_requests : Slice;
  builder_exit_requests : Slice;
  extra_data : Slice;
  ir_transactions : BoundedSszListRef;
  ir_withdrawals : BoundedSszListRef;
  ir_block_access_list : Slice;
  witness_state : BoundedSszListRef;
  witness_codes : BoundedSszListRef;
  witness_headers : BoundedSszListRef;
  ir_chain_config : Slice;
  public_keys : Slice;
}.

(** [if cond: fatal_error(...)] *)
Definition fatal_if {S} (cond : bool) : M S unit := when cond (of_outcome fatal_error).

(** [if slice.len <= limit: ... else: fatal_error(...)] *)
Definition at_most (slice : Slice) (limit : Z) : outcome Slice :=
  if slice.(sl_len) <=? limit then Ok slice else fatal_error.

Definition decode_stateless_input_ref (input : Slice) : M HostState StatelessInputRef :=
  input_fields ← of_outcome
    (if STATELESS_INPUT_FIXED_LENGTH <=? input.(sl_len) then Ok input else fatal_error);
  schema_version ← stateless_input_slice_byte input_fields 1;
  fatal_if (negb (schema_version =? 1));;
  schema_fork ← stateless_input_slice_byte input_fields 0;
  fatal_if (negb (schema_protocol_profile_forwards_matches (bits_of 8 schema_fork)));;
  protocol ← of_outcome (schema_protocol_profile (bits_of 8 schema_fork));
  body_bytes ← of_outcome (stateless_input_slice_suffix input_fields SSZ_BODY);
  body ← of_outcome (ssz_container_bytes body_bytes STATELESS_INPUT_BODY_FIXED_LENGTH);
  new_payload_request_offset ← ssz_u32 body (ssz_field_offset 0 IN_NPR_OFF);
  witness_offset ← ssz_u32 body (ssz_field_offset 0 IN_WITNESS_OFF);
  chain_config_offset ← ssz_u32 body (ssz_field_offset 0 IN_CHAIN_CONFIG_OFF);
  public_keys_offset ← ssz_u32 body (ssz_field_offset 0 IN_PUBLIC_KEYS_OFF);
  fatal_if (negb (new_payload_request_offset =? STATELESS_INPUT_BODY_FIXED_LENGTH));;
  body_cursor ← of_outcome (ssz_container_cursor body STATELESS_INPUT_BODY_FIXED_LENGTH);
  '(new_payload_request_bytes, body_after_payload_request) ← of_outcome (ssz_take body_cursor witness_offset);
  new_payload_request ← of_outcome
    (ssz_container_bytes new_payload_request_bytes NEW_PAYLOAD_REQUEST_FIXED_LENGTH);
  '(execution_witness_bytes, body_after_witness) ←
    of_outcome (ssz_take body_after_payload_request chain_config_offset);
  execution_witness ← of_outcome
    (ssz_container_bytes execution_witness_bytes EXECUTION_WITNESS_FIXED_LENGTH);
  '(chain_config, body_after_chain_config) ← of_outcome (ssz_take body_after_witness public_keys_offset);
  public_keys ← of_outcome (ssz_finish body_after_chain_config);
  payload_offset ← ssz_u32 new_payload_request (ssz_field_offset 0 NPR_PAYLOAD_OFF);
  versioned_hashes_offset ← ssz_u32 new_payload_request (ssz_field_offset 0 NPR_VHASHES_OFF);
  requests_offset ← ssz_u32 new_payload_request (ssz_field_offset 0 NPR_REQUESTS_OFF);
  fatal_if (negb (payload_offset =? NEW_PAYLOAD_REQUEST_FIXED_LENGTH));;
  npr_cursor ← of_outcome (ssz_container_cursor new_payload_request NEW_PAYLOAD_REQUEST_FIXED_LENGTH);
  '(execution_payload_bytes, npr_after_payload) ← of_outcome (ssz_take npr_cursor versioned_hashes_offset);
  '(versioned_hashes, npr_after_versioned_hashes) ← of_outcome (ssz_take npr_after_payload requests_offset);
  execution_requests_bytes ← of_outcome (ssz_finish npr_after_versioned_hashes);
  execution_requests ← of_outcome
    (ssz_container_bytes execution_requests_bytes EXECUTION_REQUESTS_FIXED_LENGTH);
  execution_payload ← of_outcome
    (ssz_container_bytes execution_payload_bytes EXECUTION_PAYLOAD_FIXED_LENGTH);
  extra_data_offset ← ssz_u32 execution_payload (ssz_field_offset 0 PL_EXTRA_OFF);
  transactions_offset ← ssz_u32 execution_payload (ssz_field_offset 0 PL_TXS_OFF);
  withdrawals_offset ← ssz_u32 execution_payload (ssz_field_offset 0 PL_WDS_OFF);
  block_access_list_offset ← ssz_u32 execution_payload (ssz_field_offset 0 PL_BAL_OFF);
  fatal_if (negb (extra_data_offset =? EXECUTION_PAYLOAD_FIXED_LENGTH));;
  payload_cursor ← of_outcome (ssz_container_cursor execution_payload EXECUTION_PAYLOAD_FIXED_LENGTH);
  '(extra_data_bytes, payload_after_extra_data) ← of_outcome (ssz_take payload_cursor transactions_offset);
  '(transaction_bytes, payload_after_transactions) ←
    of_outcome (ssz_take payload_after_extra_data withdrawals_offset);
  transactions ← ssz_bounded_variable_list_ref transaction_bytes MAX_TRANSACTIONS_PER_PAYLOAD
    MAX_TRANSACTION_LENGTH;
  '(withdrawal_bytes, payload_after_withdrawals) ←
    of_outcome (ssz_take payload_after_transactions block_access_list_offset);
  withdrawals ← of_outcome (ssz_bounded_fixed_list_ref withdrawal_bytes WD_SIZE MAX_WITHDRAWALS_PER_PAYLOAD);
  block_access_list_bytes ← of_outcome (ssz_finish payload_after_withdrawals);
  extra_data ← of_outcome (at_most extra_data_bytes MAX_EXTRA_DATA_LENGTH);
  block_access_list ← of_outcome (at_most block_access_list_bytes MAX_BLOCK_ACCESS_LIST_LENGTH);
  deposits_offset ← ssz_u32 execution_requests (ssz_field_offset 0 REQ_DEPOSITS_OFF);
  withdrawal_requests_offset ← ssz_u32 execution_requests (ssz_field_offset 0 REQ_WITHDRAWALS_OFF);
  consolidation_requests_offset ← ssz_u32 execution_requests (ssz_field_offset 0 REQ_CONSOLIDATIONS_OFF);
  builder_deposit_requests_offset ← ssz_u32 execution_requests (ssz_field_offset 0 REQ_BUILDER_DEPOSITS_OFF);
  builder_exit_requests_offset ← ssz_u32 execution_requests (ssz_field_offset 0 REQ_BUILDER_EXITS_OFF);
  fatal_if (negb (deposits_offset =? EXECUTION_REQUESTS_FIXED_LENGTH));;
  requests_cursor ← of_outcome (ssz_container_cursor execution_requests EXECUTION_REQUESTS_FIXED_LENGTH);
  '(deposits, requests_after_deposits) ← of_outcome (ssz_take requests_cursor withdrawal_requests_offset);
  '(withdrawal_requests, requests_after_withdrawals) ←
    of_outcome (ssz_take requests_after_deposits consolidation_requests_offset);
  '(consolidation_requests, requests_after_consolidations) ←
    of_outcome (ssz_take requests_after_withdrawals builder_deposit_requests_offset);
  '(builder_deposit_requests, requests_after_builder_deposits) ←
    of_outcome (ssz_take requests_after_consolidations builder_exit_requests_offset);
  builder_exit_requests ← of_outcome (ssz_finish requests_after_builder_deposits);
  witness_state_offset ← ssz_u32 execution_witness (ssz_field_offset 0 WIT_STATE_OFF);
  witness_codes_offset ← ssz_u32 execution_witness (ssz_field_offset 0 WIT_CODES_OFF);
  witness_headers_offset ← ssz_u32 execution_witness (ssz_field_offset 0 WIT_HEADERS_OFF);
  fatal_if (negb (witness_state_offset =? EXECUTION_WITNESS_FIXED_LENGTH));;
  witness_cursor ← of_outcome (ssz_container_cursor execution_witness EXECUTION_WITNESS_FIXED_LENGTH);
  '(witness_state_bytes, witness_after_state) ← of_outcome (ssz_take witness_cursor witness_codes_offset);
  witness_state ← ssz_bounded_variable_list_ref witness_state_bytes MAX_WITNESS_NODES MAX_WITNESS_NODE_LENGTH;
  '(witness_code_bytes, witness_after_codes) ← of_outcome (ssz_take witness_after_state witness_headers_offset);
  witness_codes ← ssz_bounded_variable_list_ref witness_code_bytes MAX_WITNESS_CODES MAX_WITNESS_CODE_LENGTH;
  witness_header_bytes ← of_outcome (ssz_finish witness_after_codes);
  witness_headers ← ssz_bounded_variable_list_ref witness_header_bytes MAX_WITNESS_HEADERS
    MAX_WITNESS_HEADER_LENGTH;
  public_key_count ← of_outcome (sail_ediv_int public_keys.(sl_len) PUBLIC_KEY_LENGTH);
  fatal_if (negb (public_keys.(sl_len) =? public_key_count * PUBLIC_KEY_LENGTH));;
  fatal_if (MAX_PUBLIC_KEYS <? public_key_count);;
  _ ← of_outcome (ssz_bounded_fixed_list_ref versioned_hashes WORD_BYTE_LENGTH MAX_BLOB_COMMITMENTS_PER_BLOCK);
  mret (mkStatelessInputRef protocol new_payload_request execution_payload versioned_hashes deposits
    withdrawal_requests consolidation_requests builder_deposit_requests builder_exit_requests extra_data
    transactions withdrawals block_access_list witness_state witness_codes witness_headers chain_config
    public_keys).

(** ** The execution payload *)

Record Withdrawal : Type := mkWithdrawal {
  wd_index : Z;
  wd_validator_index : Z;
  wd_address : address;
  wd_amount : Z;
}.

Record BlockBody : Type := mkBlockBody {
  bb_transactions : BoundedSszListRef;
  bb_withdrawals : BoundedSszListRef;
  bb_block_access_list : Slice;
}.

Record Block : Type := mkBlock { header : BlockHeader; body : BlockBody }.

Record ExecutionPayload : Type := mkExecutionPayload {
  expected_block_hash : hash;
  block : Block;
}.

Record ChainConfig : Type := mkChainConfig { chain_id : Z }.

Record StatelessInput : Type := mkStatelessInput {
  payload : ExecutionPayload;
  si_chain_config : ChainConfig;
}.

Record WitnessContext : Type := mkWitnessContext {
  wc_parent_hash : hash;
  wc_parent_state_root : hash;
  wc_parent_base_fee_per_gas : Z;
  wc_parent_blob_gas_used : Z;
  wc_parent_excess_blob_gas : Z;
}.

(** A number of blobs in gas, or what the code raises: the test that a value
    is that of at most [maximum] blobs. *)
Definition whole_blobs (value maximum : Z) : outcome Z :=
  count ← sail_ediv_int value (Z.shiftl 1 17);
  if (count <=? maximum) && (value =? Z.shiftl 1 17 * count)
  then Ok (Z.shiftl 1 17 * count) else fatal_error.

Definition decode_payload_blob_gas_used (payload : Slice) (profile : ProtocolProfileFields) :
    M HostState Z :=
  value ← decode_ssz_uint payload PL_BLOB_GAS_USED;
  of_outcome (whole_blobs value profile.(pp_blob_schedule).(bs_max)).

Definition decode_payload_excess_blob_gas (payload : Slice) (profile : ProtocolProfileFields) :
    M HostState Z :=
  value ← decode_ssz_uint payload PL_EXCESS_BLOB_GAS;
  of_outcome (if value <=? profile.(excess_blob_gas_limit) then excess_blob_gas value else fatal_error).

Definition decode_block_header_ssz (input_ref : StatelessInputRef) : M HostState BlockHeader :=
  let payload := input_ref.(execution_payload) in
  gas_limit_value ← decode_ssz_uint payload PL_GAS_LIMIT;
  gas_used_value ← decode_ssz_uint payload PL_GAS_USED;
  prev_randao_hash ← ssz_bytes32 payload PL_PREV_RANDAO;
  prev_randao ← of_outcome (hash_to_word prev_randao_hash);
  number ← decode_ssz_uint payload PL_BLOCK_NUMBER;
  timestamp ← decode_ssz_uint payload PL_TIMESTAMP;
  base_fee ← ssz_u256 payload PL_BASE_FEE;
  blob_gas_used ← decode_payload_blob_gas_used payload input_ref.(ir_protocol);
  excess_blob_gas_ ← decode_payload_excess_blob_gas payload input_ref.(ir_protocol);
  state_root ← ssz_bytes32 payload PL_STATE_ROOT;
  receipts_root ← ssz_bytes32 payload PL_RECEIPTS_ROOT;
  logs_bloom ← of_outcome (stateless_input_sub_slice payload PL_LOGS_BLOOM 256);
  fee_recipient ← ssz_addr payload PL_FEE_RECIPIENT;
  parent_hash ← ssz_bytes32 payload 0;
  parent_beacon_block_root ← ssz_bytes32 input_ref.(new_payload_request) NPR_BEACON_ROOT;
  slot_number ← decode_ssz_uint payload PL_SLOT_NUMBER;
  mret (mkBlockHeader number timestamp gas_limit_value gas_used_value prev_randao base_fee
    blob_gas_used excess_blob_gas_ state_root receipts_root logs_bloom fee_recipient parent_hash
    parent_beacon_block_root slot_number input_ref.(extra_data)).

Definition decode_withdrawal (withdrawal : Slice) : M HostState Withdrawal :=
  index ← decode_ssz_uint withdrawal WD_INDEX;
  validator_index ← decode_ssz_uint withdrawal WD_VALIDATOR_INDEX;
  address ← ssz_addr withdrawal WD_ADDRESS;
  amount ← decode_ssz_uint withdrawal WD_AMOUNT;
  mret (mkWithdrawal index validator_index address amount).

(** An activation that is present must have been reached. *)
Definition activation_reached (cc : Slice) (start length current : Z) : M HostState unit :=
  when (length =? SSZ_UINT_BYTES)
    (activation ← decode_ssz_uint cc start; fatal_if (current <? activation)).

Definition decode_chain_config (cc : Slice) (number timestamp : Z) : M HostState ChainConfig :=
  let cc_length := cc.(sl_len) in
  fatal_if (cc_length <? CHAIN_CONFIG_HEADER_LENGTH);;
  f_offset ← ssz_u32 cc CC_ACTIVE_FORK_OFF;
  fatal_if (negb (f_offset =? 12) || (cc_length <? CHAIN_CONFIG_MIN_LENGTH));;
  activation_offset ← ssz_u32 cc (ssz_field_offset 12 FC_ACTIVATION_OFF);
  fatal_if (negb (activation_offset =? 4));;
  let activation_start := 16 in
  let activation_fixed_end := 24 in
  block_number_offset ← ssz_u32 cc (ssz_field_offset 16 FA_BLOCK_NUMBER_OFF);
  timestamp_offset ← ssz_u32 cc (ssz_field_offset 16 FA_TIMESTAMP_OFF);
  block_number_start ← of_outcome (if block_number_offset <=? cc_length - activation_start
    then Ok (activation_start + block_number_offset) else fatal_error);
  timestamp_start ← of_outcome (if timestamp_offset <=? cc_length - activation_start
    then Ok (activation_start + timestamp_offset) else fatal_error);
  fatal_if (negb (activation_fixed_end =? block_number_start));;
  fatal_if (timestamp_start <? block_number_start);;
  fatal_if (cc_length <? timestamp_start);;
  let bn_length := timestamp_start - block_number_start in
  let ts_length := cc_length - timestamp_start in
  fatal_if ((negb (bn_length =? 0) && negb (bn_length =? SSZ_UINT_BYTES)) ||
            (negb (ts_length =? 0) && negb (ts_length =? SSZ_UINT_BYTES)));;
  fatal_if ((bn_length =? 0) && (ts_length =? 0));;
  activation_reached cc block_number_start bn_length number;;
  activation_reached cc timestamp_start ts_length timestamp;;
  chain_id ← decode_ssz_uint cc CC_CHAIN_ID; mret (mkChainConfig chain_id).

(** [environment.k_chain_id = ...] and the other registers the input sets *)
Definition update_env (f : Environment → Environment) : M SpecState unit :=
  modify (λ s, set_env (f s.(sp_env)) s).
Definition set_chain_id (v : Z) : M SpecState unit :=
  update_env (λ e, mkEnvironment e.(k_parent_state_root) e.(k_n_headers) v e.(k_execution_profile)
    e.(k_header) e.(k_tx) e.(k_current_transaction_epoch)).
Definition set_execution_profile (v : ExecutionProfileFields) : M SpecState unit :=
  update_env (λ e, mkEnvironment e.(k_parent_state_root) e.(k_n_headers) e.(k_chain_id) v
    e.(k_header) e.(k_tx) e.(k_current_transaction_epoch)).
Definition set_n_headers (v : Z) : M SpecState unit :=
  update_env (λ e, mkEnvironment e.(k_parent_state_root) v e.(k_chain_id) e.(k_execution_profile)
    e.(k_header) e.(k_tx) e.(k_current_transaction_epoch)).
Definition set_parent_state_root (v : hash) : M SpecState unit :=
  update_env (λ e, mkEnvironment v e.(k_n_headers) e.(k_chain_id) e.(k_execution_profile)
    e.(k_header) e.(k_tx) e.(k_current_transaction_epoch)).
Definition set_transaction_epoch (v : Z) : M SpecState unit :=
  update_env (λ e, mkEnvironment e.(k_parent_state_root) e.(k_n_headers) e.(k_chain_id)
    e.(k_execution_profile) e.(k_header) e.(k_tx) v).

Definition decode_stateless_input (input_ref : StatelessInputRef) : M SpecState StatelessInput :=
  header ← zoom (decode_block_header_ssz input_ref);
  chain_config ← zoom (decode_chain_config input_ref.(ir_chain_config) header.(bh_number)
                         header.(bh_timestamp));
  k_set_header header;;
  set_chain_id chain_config.(chain_id);;
  profile ← of_outcome (execution_profile_for input_ref.(ir_protocol) header.(bh_gas_limit));
  set_execution_profile profile;;
  expected_block_hash ← zoom (ssz_bytes32 input_ref.(execution_payload) PL_BLOCK_HASH);
  mret (mkStatelessInput
    (mkExecutionPayload expected_block_hash
      (mkBlock header (mkBlockBody input_ref.(ir_transactions) input_ref.(ir_withdrawals)
                         input_ref.(ir_block_access_list))))
    chain_config).

(** ** The witness *)

Section witness.
Context `{Keccak}.

Definition sha256_request_digest (request_type : Z) (s : Slice) : M SpecState hash :=
  digest_length ← of_outcome (scratch_length_add 1 s.(sl_len));
  mark ← scratch_reserve digest_length;
  scratch_push_byte request_type;;
  stateless_input_scratch_push_slice s;;
  preimage ← scratch_finish mark;
  digest ← zoom (scratch_sha256 preimage);
  scratch_rewind mark;; of_outcome (Bytes32 digest).

(** The loops over a list of the witness run to its end, so the items left
    are fuel enough. *)
Definition items_left (cursor : BoundedSszListCursor) : nat :=
  Z.to_nat (cursor.(lc_items).(lr_count) - cursor.(lc_index)).

Fixpoint index_witness_nodes_cursor (fuel : nat) (cursor : BoundedSszListCursor) : M HostState unit :=
  if ssz_list_cursor_empty cursor then mret tt
  else match fuel with
  | O => raise (RuntimeError "maximum recursion depth exceeded")
  | S fuel' =>
      '(node, next) ← ssz_list_pop cursor;
      node_hash ← stateless_input_keccak256 node;
      zoom (nodedb_insert node_hash node.(sl_bytes) node.(sl_len));;
      index_witness_nodes_cursor fuel' next
  end.

Definition index_witness_nodes (nodes : BoundedSszListRef) : M HostState unit :=
  cursor ← ssz_list_cursor nodes; index_witness_nodes_cursor (items_left cursor) cursor.

Fixpoint index_witness_codes_cursor (fuel : nat) (cursor : BoundedSszListCursor) : M SpecState unit :=
  profile ← get_profile;
  if ssz_list_cursor_empty cursor then mret tt
  else match fuel with
  | O => raise (RuntimeError "maximum recursion depth exceeded")
  | S fuel' =>
      '(code, next) ← zoom (ssz_list_pop cursor);
      fatal_if (MAX_WITNESS_CODE_LENGTH <? code.(sl_len));;
      executable ← zoom (code_db_intern_input code);
      _ ← zoom (code_db_insert executable (fork profile));
      index_witness_codes_cursor fuel' next
  end.

Definition index_witness_codes (codes : BoundedSszListRef) : M SpecState unit :=
  cursor ← zoom (ssz_list_cursor codes); index_witness_codes_cursor (items_left cursor) cursor.
End witness.

(** ** Parent headers *)

Record ParentHeaderFields : Type := mkParentHeaderFields {
  ph_parent_hash : hash;
  ph_state_root : hash;
  ph_base_fee : Z;
  ph_blob_gas_used : Z;
  ph_excess_blob_gas : Z;
  have_parent : bool;
  have_state : bool;
  have_base_fee : bool;
  have_blob_gas : bool;
  have_excess_blob_gas : bool;
}.

(** The object [EMPTY_PARENT_HEADER_FIELDS] as the module creates it. *)
Definition EMPTY_PARENT_HEADER_FIELDS : ParentHeaderFields :=
  mkParentHeaderFields ZERO_HASH ZERO_HASH 0 0 0 false false false false false.

(** The registers and the host, and the object the module's global holds. *)
Record ProgramState : Type := mkProgram {
  program_spec : SpecState;
  parent_fields : ParentHeaderFields;
}.

#[export, program] Instance program_component : Component ProgramState SpecState := {|
  view := program_spec;
  put c s := mkProgram c s.(parent_fields);
|}.
Next Obligation. done. Qed.
Next Obligation. by intros []. Qed.
Next Obligation. done. Qed.

(** A call on the registers or the host. *)
Definition on_spec {A} (m : M SpecState A) : M ProgramState A := zoom m.
Definition on_input {A} (m : M HostState A) : M ProgramState A := on_spec (zoom m).

(** [decoded.field = value]: [decoded] is the object of the global. *)
Definition assign (f : ParentHeaderFields → ParentHeaderFields) : M ProgramState unit :=
  modify (λ s, mkProgram s.(program_spec) (f s.(parent_fields))).

Definition parent_header_field_cursor (v : Z) : outcome Z := BoundedUint 0 19 v.
Definition next_parent_header_field (index : Z) : outcome Z :=
  if index <? 19 then parent_header_field_cursor (index + 1) else parent_header_field_cursor 19.

(** The assignments each field of a header makes. *)
Definition set_parent_hash (v : hash) (d : ParentHeaderFields) : ParentHeaderFields :=
  mkParentHeaderFields v d.(ph_state_root) d.(ph_base_fee) d.(ph_blob_gas_used) d.(ph_excess_blob_gas)
    true d.(have_state) d.(have_base_fee) d.(have_blob_gas) d.(have_excess_blob_gas).
Definition set_state_root (v : hash) (d : ParentHeaderFields) : ParentHeaderFields :=
  mkParentHeaderFields d.(ph_parent_hash) v d.(ph_base_fee) d.(ph_blob_gas_used) d.(ph_excess_blob_gas)
    d.(have_parent) true d.(have_base_fee) d.(have_blob_gas) d.(have_excess_blob_gas).
Definition set_base_fee (v : Z) (d : ParentHeaderFields) : ParentHeaderFields :=
  mkParentHeaderFields d.(ph_parent_hash) d.(ph_state_root) v d.(ph_blob_gas_used) d.(ph_excess_blob_gas)
    d.(have_parent) d.(have_state) true d.(have_blob_gas) d.(have_excess_blob_gas).
Definition set_blob_gas_used (v : Z) (d : ParentHeaderFields) : ParentHeaderFields :=
  mkParentHeaderFields d.(ph_parent_hash) d.(ph_state_root) d.(ph_base_fee) v d.(ph_excess_blob_gas)
    d.(have_parent) d.(have_state) d.(have_base_fee) true d.(have_excess_blob_gas).
Definition set_excess_blob_gas (v : Z) (d : ParentHeaderFields) : ParentHeaderFields :=
  mkParentHeaderFields d.(ph_parent_hash) d.(ph_state_root) d.(ph_base_fee) d.(ph_blob_gas_used) v
    d.(have_parent) d.(have_state) d.(have_base_fee) d.(have_blob_gas) true.

(** What one field of a header assigns: the chain of conditionals in the body
    of [decode_parent_header_fields]. *)
Definition parent_header_field (profile : ProtocolProfileFields) (field_index : Z)
    (field : RlpFieldRef) : M HostState (ParentHeaderFields → ParentHeaderFields) :=
  if field_index =? 0 then
    w ← rlp_decode_word field;
    h ← of_outcome (h ← word_to_hash w; Bytes32 h); mret (set_parent_hash h)
  else if field_index =? 3 then
    w ← rlp_decode_word field;
    h ← of_outcome (h ← word_to_hash w; Bytes32 h); mret (set_state_root h)
  else if field_index =? 15 then
    v ← rlp_decode_u256 field; v ← of_outcome (word v); mret (set_base_fee v)
  else if field_index =? 17 then
    value ← rlp_decode_uint64 field;
    gas ← of_outcome (whole_blobs value profile.(pp_blob_schedule).(bs_max));
    mret (set_blob_gas_used gas)
  else if field_index =? 18 then
    value ← rlp_decode_uint64 field;
    gas ← of_outcome (if value <=? profile.(excess_blob_gas_limit) then excess_blob_gas value
                      else fatal_error);
    mret (set_excess_blob_gas gas)
  else mret (λ d, d).

(** Every field is at least one byte long, so the bytes left are fuel enough. *)
Fixpoint decode_parent_header_fields (fuel : nat) (cursor : Slice) (field_index : Z) :
    M ProgramState unit :=
  if cursor.(sl_len) =? 0 then mret tt
  else match fuel with
  | O => raise (RuntimeError "maximum recursion depth exceeded")
  | S fuel' =>
      field ← on_input (rlp_decode_item cursor);
      next ← of_outcome (rlp_cursor_advance cursor field.(source).(sl_len));
      profile ← on_spec get_profile;
      change ← on_input (parent_header_field profile field_index field);
      assign change;;
      next_field ← of_outcome (next_parent_header_field field_index);
      decode_parent_header_fields fuel' next next_field
  end.

Record WitnessHeaderIndex : Type := mkHeaderIndex {
  hi_cursor : BoundedSszListCursor;
  previous_hash : hash;
  hi_valid : bool;
  hi_state_root : hash;
  hi_base_fee : Z;
  hi_blob_gas_used : Z;
  hi_excess_blob_gas : Z;
  fields_valid : bool;
}.

(** What the last header gives, from the fields decoded: [result.parent_... =
    decoded...] and the two checks from Cancun. *)
Definition take_parent_fields (fork : Z) (d : ParentHeaderFields) (r : WitnessHeaderIndex) :
    WitnessHeaderIndex :=
  mkHeaderIndex r.(hi_cursor) r.(previous_hash) r.(hi_valid) d.(ph_state_root) d.(ph_base_fee)
    d.(ph_blob_gas_used) d.(ph_excess_blob_gas)
    (d.(have_state) &&
     (if Cancun <=? fork
      then d.(have_base_fee) && Bool.eqb d.(have_blob_gas) d.(have_excess_blob_gas) else true)).

(** [result.valid = False] unless the header names the hash before it. *)
Definition check_link (index : Z) (d : ParentHeaderFields) (r : WitnessHeaderIndex) :
    WitnessHeaderIndex :=
  if negb (index =? 0) && negb (d.(have_parent) && bool_decide (d.(ph_parent_hash) = r.(previous_hash)))
  then mkHeaderIndex r.(hi_cursor) r.(previous_hash) false r.(hi_state_root) r.(hi_base_fee)
         r.(hi_blob_gas_used) r.(hi_excess_blob_gas) r.(fields_valid)
  else r.

Definition set_header_cursor (c : BoundedSszListCursor) (r : WitnessHeaderIndex) : WitnessHeaderIndex :=
  mkHeaderIndex c r.(previous_hash) r.(hi_valid) r.(hi_state_root) r.(hi_base_fee)
    r.(hi_blob_gas_used) r.(hi_excess_blob_gas) r.(fields_valid).
Definition set_previous_hash (h : hash) (r : WitnessHeaderIndex) : WitnessHeaderIndex :=
  mkHeaderIndex r.(hi_cursor) h r.(hi_valid) r.(hi_state_root) r.(hi_base_fee)
    r.(hi_blob_gas_used) r.(hi_excess_blob_gas) r.(fields_valid).

Section headers.
Context `{Keccak}.

Fixpoint index_witness_header_cursor (fuel : nat) (state : WitnessHeaderIndex) :
    M ProgramState WitnessHeaderIndex :=
  profile ← on_spec get_profile;
  if ssz_list_cursor_empty state.(hi_cursor) then mret state
  else match fuel with
  | O => raise (RuntimeError "maximum recursion depth exceeded")
  | S fuel' =>
      let index := state.(hi_cursor).(lc_index) in
      let header_count := state.(hi_cursor).(lc_items).(lr_count) in
      '(header, next) ← on_input (ssz_list_pop state.(hi_cursor));
      let is_last := next.(lc_index) =? header_count in
      let result := set_header_cursor next state in
      result ←
        (if negb (index =? 0) || is_last then
           fields ← on_input (rlp_node_cursor header);
           decode_parent_header_fields (Z.to_nat fields.(sl_len)) fields 0;;
           decoded ← gets parent_fields;
           let result := check_link index decoded result in
           mret (if is_last then take_parent_fields (fork profile) decoded result else result)
         else mret result);
      current_hash ← on_input (stateless_input_keccak256 header);
      let result := set_previous_hash current_hash result in
      distance ← of_outcome (if next.(lc_index) <=? header_count
                             then Ok (header_count - next.(lc_index)) else fatal_error);
      when (distance <? 256) (on_input (zoom (ancestor_hash_write distance current_hash)));;
      index_witness_header_cursor fuel' result
  end.

Definition index_witness_headers (headers : BoundedSszListRef) : M ProgramState WitnessContext :=
  cursor ← on_input (ssz_list_cursor headers);
  let initial := mkHeaderIndex cursor ZERO_HASH (negb (headers.(lr_count) =? 0)) ZERO_HASH 0 0 0 false in
  indexed ← index_witness_header_cursor (items_left cursor) initial;
  n ← of_outcome (BoundedUint 0 256 headers.(lr_count));
  on_spec (set_n_headers n);;
  fatal_if (negb indexed.(hi_valid));;
  fatal_if (negb indexed.(fields_valid));;
  mret (mkWitnessContext indexed.(previous_hash) indexed.(hi_state_root) indexed.(hi_base_fee)
    indexed.(hi_blob_gas_used) indexed.(hi_excess_blob_gas)).

Definition index_execution_witness (input_ref : StatelessInputRef) : M ProgramState WitnessContext :=
  on_input (zoom nodedb_reset);;
  on_input (index_witness_nodes input_ref.(witness_state));;
  on_spec (index_witness_codes input_ref.(witness_codes));;
  witness ← index_witness_headers input_ref.(witness_headers);
  on_spec (set_parent_state_root witness.(wc_parent_state_root));;
  mret witness.
End headers.

Section transactions.
Context `{Keccak}.

Definition decode_transaction (transaction public_key : Slice) : M SpecState Transaction :=
  profile ← get_profile;
  if transaction.(sl_len) <=? Z.shiftl 1 30
  then rlp_decode_tx transaction public_key profile.(transaction_blob_limit)
  else of_outcome fatal_error.
End transactions.

(** ** Fields that stay from one header to the next *)

(** The decoding of a header as a value: the fields it adds to [fields]. *)
Fixpoint header_fields (fuel : nat) (cursor : Slice) (field_index : Z) (fields : ParentHeaderFields) :
    M SpecState ParentHeaderFields :=
  if cursor.(sl_len) =? 0 then mret fields
  else match fuel with
  | O => raise (RuntimeError "maximum recursion depth exceeded")
  | S fuel' =>
      field ← zoom (rlp_decode_item cursor);
      next ← of_outcome (rlp_cursor_advance cursor field.(source).(sl_len));
      profile ← get_profile;
      change ← zoom (parent_header_field profile field_index field);
      next_field ← of_outcome (next_parent_header_field field_index);
      header_fields fuel' next next_field (change fields)
  end.

(** The fields [own] has, and those of [old] where it has none. *)
Definition laid_over (own old : ParentHeaderFields) : ParentHeaderFields :=
  mkParentHeaderFields
    (if own.(have_parent) then own.(ph_parent_hash) else old.(ph_parent_hash))
    (if own.(have_state) then own.(ph_state_root) else old.(ph_state_root))
    (if own.(have_base_fee) then own.(ph_base_fee) else old.(ph_base_fee))
    (if own.(have_blob_gas) then own.(ph_blob_gas_used) else old.(ph_blob_gas_used))
    (if own.(have_excess_blob_gas) then own.(ph_excess_blob_gas) else old.(ph_excess_blob_gas))
    (own.(have_parent) || old.(have_parent)) (own.(have_state) || old.(have_state))
    (own.(have_base_fee) || old.(have_base_fee)) (own.(have_blob_gas) || old.(have_blob_gas))
    (own.(have_excess_blob_gas) || old.(have_excess_blob_gas)).

Lemma laid_over_empty old : laid_over EMPTY_PARENT_HEADER_FIELDS old = old.
Proof. by destruct old. Qed.

Lemma parent_header_field_lays profile i field st change st' :
  runs (parent_header_field profile i field) st change st' →
  ∀ own old, change (laid_over own old) = laid_over (change own) old.
Proof.
  unfold parent_header_field. repeat (destruct (i =? _)).
  1-5: intros (w & s1 & _ & (h & s2 & _ & [-> _]%runs_ret)%runs_bind)%runs_bind own old; reflexivity.
  intros [-> _]%runs_ret own old. reflexivity.
Qed.

Lemma on_spec_runs {A} (m : M SpecState A) s d a s' :
  runs m s a s' → on_spec m (mkProgram s d) = (Ok a, mkProgram s' d).
Proof. intros E. unfold on_spec. rewrite zoom_run. cbn [view program_component program_spec]. by rewrite E. Qed.

Lemma decode_parent_header_fields_lays fuel : ∀ c i own old s own' s',
  runs (header_fields fuel c i own) s own' s' →
  decode_parent_header_fields fuel c i (mkProgram s (laid_over own old)) =
    (Ok tt, mkProgram s' (laid_over own' old)).
Proof.
  induction fuel as [|fuel IH]; intros c i own old s own' s'; cbn [header_fields decode_parent_header_fields];
    (destruct (sl_len c =? 0); [by intros [-> ->]%runs_ret|]); [done|].
  intros (field & s1 & H1 & (next & s2 & H2 & (profile & s3 & H3 & (change & s4 & H4 &
    (nf & s5 & H5 & H6)%runs_bind)%runs_bind)%runs_bind)%runs_bind)%runs_bind.
  unfold on_input.
  rewrite bind_run, (on_spec_runs _ _ _ _ _ H1). rewrite bind_run, of_outcome_run.
  injection H2 as -> <-. rewrite bind_run, (on_spec_runs _ _ _ _ _ H3).
  rewrite bind_run, (on_spec_runs _ _ _ _ _ H4). rewrite bind_run. unfold assign. rewrite modify_run.
  cbn [program_spec parent_fields]. rewrite bind_run, of_outcome_run. injection H5 as -> <-.
  apply zoom_runs in H4 as (c4 & H4 & _). rewrite (parent_header_field_lays _ _ _ _ _ _ H4).
  by apply IH.
Qed.

(** The headers of a witness, in a slice of the input. *)
Definition read_witness_headers `{Keccak} (headers : Slice) : M ProgramState WitnessContext :=
  l ← on_input (ssz_bounded_variable_list_ref headers MAX_WITNESS_HEADERS MAX_WITNESS_HEADER_LENGTH);
  index_witness_headers l.

(** A chain of three headers: any, one with the fields read, and one that has
    nothing but the hash of the header before it; then this last one alone. *)
Definition first_header : bytes := [Byte.xc0].
Definition full_header : bytes :=
  [Byte.xf8; Byte.x53; Byte.xa0] ++ toy_keccak first_header ++ [Byte.x80; Byte.x80; Byte.xa0] ++
  repeat Byte.x11 32 ++ repeat Byte.x80 11 ++ [Byte.x07; Byte.x80; Byte.x80; Byte.x80].
Definition bare_header : bytes := [Byte.xe1; Byte.xa0] ++ toy_keccak full_header.
Definition headers_program : ProgramState :=
  mkProgram (mkSpec (set_regions (set_stateless_input_bytes
      (ssz_list [first_header; full_header; bare_header] ++ ssz_list [bare_header])
      initial_state.(regions)) initial_state) initial_environment EMPTY_SCRATCH_SLICE)
    EMPTY_PARENT_HEADER_FIELDS.

(** C23: the decoding of a header lays the fields the header has over
    what the headers before it left, whatever that is: a field it lacks is
    reported with their value and as present. So a witness of three headers is
    accepted with the state root of its second header, although the third, the
    parent, has no field but its parent's hash, and alone is refused. *)
Theorem header_fields_leak :
  (∀ fuel cursor s own s' old,
     runs (header_fields fuel cursor 0 EMPTY_PARENT_HEADER_FIELDS) s own s' →
     decode_parent_header_fields fuel cursor 0 (mkProgram s old) =
       (Ok tt, mkProgram s' (laid_over own old))) ∧
  (∃ w st', @read_witness_headers toy_Keccak (mkSlice 0 132) headers_program = (Ok w, st') ∧
     w.(wc_parent_hash) = rev (toy_keccak bare_header) ∧ w.(wc_parent_state_root) = repeat Byte.x11 32) ∧
  (∃ st', @read_witness_headers toy_Keccak (mkSlice 132 38) headers_program = (Raise SailExit, st')).
Proof.
  split_and!.
  - intros fuel cursor s own s' old H. rewrite <-(laid_over_empty old) at 1.
    by apply decode_parent_header_fields_lays.
  - eexists _, _. split; [vm_compute; reflexivity|]. split; vm_compute; reflexivity.
  - eexists _. vm_compute. reflexivity.
Qed.

Lemma header_fields_leak_witness :
  ∃ own s', runs (header_fields 33 (mkSlice 99 33) 0 EMPTY_PARENT_HEADER_FIELDS)
      headers_program.(program_spec) own s' ∧
    own.(have_parent) = true ∧ own.(have_state) = false ∧
    ∀ old, decode_parent_header_fields 33 (mkSlice 99 33) 0 (mkProgram headers_program.(program_spec) old) =
      (Ok tt, mkProgram s' (laid_over own old)).
Proof.
  eexists _, _. split; [vm_compute; reflexivity|]. split; [reflexivity|]. split; [reflexivity|].
  intros old. apply (proj1 header_fields_leak). vm_compute. reflexivity.
Defined.
