(* ===== verification/Receipts.v ===== *)
(** * Receipts: log blooms, receipts and their records

    The blooms of [kernel/logs.py] and [primitives/block.py], the receipt
    codec of [lib/rlp/codecs/receipts.py] and the receipt records of
    [executor/receipts.py]. A receipt is encoded at the end of the scratch
    arena behind its length in eight bytes; the records of a block follow one
    another there and are taken off in the order they were written. *)

From Stdlib Require Import ZArith Lia Strings.Byte.
From stdpp Require Import base tactics option list.
From S2P Require Import Prelude PyBytes HostTypes SailRuntime Words ChainConfig Regions RegionAccess Gas Crypto WarmLogs CodeDb Environment Scratch Rlp Kernel TxCodec Transaction Ssz StatelessInput.
Local Open Scope Z_scope.

(** ** Loops over logs *)

Definition log_store_index_increment (value : Z) : outcome Z :=
  if value <? Z.shiftl 1 64 - 1 then Uint (value + 1) else Raise (SailError "log store index overflow").
Definition log_store_index_add (left right : Z) : outcome Z :=
  if right <=? Z.shiftl 1 64 - 1 - left then Uint (left + right)
  else Raise (SailError "log store index overflow").

(** [while offset < count: acc = body(acc, offset); offset = offset + 1]; the
    turns left are fuel enough. *)
Fixpoint count_loop {S A} (turns : nat) (offset count : Z) (body : A → Z → M S A) (acc : A) : M S A :=
  match turns with
  | O => mret acc
  | Datatypes.S turns' =>
      if offset <? count then
        acc ← body acc offset;
        next ← of_outcome (log_store_index_increment offset);
        count_loop turns' next count body acc
      else mret acc
  end.
Definition counting {S A} (count : Z) (body : A → Z → M S A) (acc : A) : M S A :=
  count_loop (Z.to_nat count) 0 count body acc.

Definition read_log_data (index : Z) : M SpecState Slice :=
  off ← on_host (log_data_offset index);
  sail_len ← on_host (log_data_length index);
  if sail_len <=? Z.shiftl 1 32 - 1 - off then of_outcome (log_data_slice off sail_len)
  else raise (SailError "log data slice overflow").

(** ** Blooms *)

Definition LOGS_BLOOM_BYTE_LENGTH : Z := 256.

(** [sail_vector_init(256, Bits(8, 0))] *)
Definition EMPTY_LOGS_BLOOM : bytes := zeros 256.

Definition bloom_bit_mask (bit_to_set : Z) : Z := (bits_of 8 (Z.shiftl 1 bit_to_set)).(SailRuntime.value).

Definition bloom_set_bit (bloom : bytes) (bit_to_set : Z) : outcome bytes :=
  quotient ← sail_ediv_int bit_to_set 8;
  natural_byte ← (if quotient <=? 255 then Ok quotient
                  else Raise (SailError "sail/kernel/logs.sail:75.24-75.25"));
  remainder ← sail_tmod_int bit_to_set 8;
  bit_in_byte ← (if remainder <=? 7 then Ok remainder
                 else Raise (SailError "sail/kernel/logs.sail:83.24-83.25"));
  old ← sail_vector_access bloom natural_byte false;
  sail_vector_update bloom natural_byte
    (byte_wrap (Z.lor (Z_of_byte old) (bloom_bit_mask bit_in_byte))) false.

(** The low three bits of one byte of a hash before the next byte. *)
Definition bloom_index (h : hash) (index : Z) : outcome Z :=
  high ← sail_vector_access h index false;
  low ← sail_vector_access h (index + 1) false;
  Ok (Z.lor (Z.shiftl (Z.land (Z_of_byte high) 7) 8) (Z_of_byte low)).

Definition bloom_add_entry_hash (bloom : bytes) (h : hash) : outcome bytes :=
  first_index ← bloom_index h 0;
  out ← bloom_set_bit bloom first_index;
  second_index ← bloom_index h 2;
  out ← bloom_set_bit out second_index;
  third_index ← bloom_index h 4;
  bloom_set_bit out third_index.

Definition logs_bloom_equal (a b : bytes) : outcome bool :=
  ks ← sail_range 0 255 1 true;
  l ← mapM (λ i, x ← sail_vector_access a i false; y ← sail_vector_access b i false;
                 Ok (bool_decide (x = y))) ks;
  Ok (forallb id l).

(** The loop of [logs_bloom_from_ref]. *)
Fixpoint bloom_from_loop (reference : Slice) (ks : list Z) (out : bytes) : M HostState bytes :=
  match ks with
  | [] => mret out
  | i :: ks' =>
      b ← stateless_input_slice_byte reference i;
      out ← of_outcome (sail_vector_update out (255 - i) (byte_wrap b) false);
      bloom_from_loop reference ks' out
  end.
Definition logs_bloom_from_ref (reference : Slice) : M HostState bytes :=
  ks ← of_outcome (sail_range 0 255 1 true); bloom_from_loop reference ks EMPTY_LOGS_BLOOM.

Definition logs_bloom_matches_ref (computed : bytes) (reference : Slice) : M HostState bool :=
  expected ← logs_bloom_from_ref reference; of_outcome (logs_bloom_equal computed expected).

(** The loop of [logs_bloom_or]. *)
Fixpoint bloom_or_loop (right : bytes) (ks : list Z) (out : bytes) : outcome bytes :=
  match ks with
  | [] => Ok out
  | k :: ks' =>
      x ← sail_vector_access out k false; y ← sail_vector_access right k false;
      out ← sail_vector_update out k (byte_wrap (Z.lor (Z_of_byte x) (Z_of_byte y))) false;
      bloom_or_loop right ks' out
  end.
Definition logs_bloom_or (left right : bytes) : outcome bytes :=
  ks ← sail_range 0 255 1 true; bloom_or_loop right ks left.

Section receipts.
Context `{Keccak}.

Definition bloom_add_log_at (bloom : bytes) (index : Z) : M SpecState bytes :=
  address_ ← on_host (log_address index);
  out ← of_outcome (bloom_add_entry_hash bloom (keccak256_address address_));
  topic_count ← on_host (log_topics_count index);
  counting topic_count (λ out topic,
    topic_value ← on_host (log_topic index topic);
    of_outcome (bloom_add_entry_hash out (keccak256_word topic_value))) out.

Definition bloom_add_logs (bloom : bytes) (logs : LogSeriesRef) : M SpecState bytes :=
  counting logs.(ls_count) (λ out offset,
    index ← of_outcome (log_store_index_add logs.(ls_start) offset);
    bloom_add_log_at out index) bloom.

Definition logs_bloom_for_logs (logs : LogSeriesRef) : M SpecState bytes :=
  bloom_add_logs EMPTY_LOGS_BLOOM logs.

Definition block_logs_bloom_matches (logs : LogSeriesRef) (reference : Slice) : M SpecState bool :=
  logs_bloom ← bloom_add_logs EMPTY_LOGS_BLOOM logs;
  zoom (logs_bloom_matches_ref logs_bloom reference).

(** ** Sizes *)

Definition scratch_length_sum (left right : Z) : outcome Z :=
  n ← rlp_scratch_length_add left right; rlp_scratch_length n.

Definition topics_rlp_content_size (index : Z) : M SpecState Z :=
  topic_count ← on_host (log_topics_count index);
  encoded_word_length ← of_outcome (rlp_scratch_small_length rlp_word_size);
  size ← counting topic_count (λ size _, of_outcome (scratch_length_sum size encoded_word_length)) 0;
  of_outcome (rlp_scratch_length size).

Definition topics_rlp_size (index : Z) : M SpecState Z :=
  content_size ← topics_rlp_content_size index;
  of_outcome (n ← rlp_scratch_list_size content_size; rlp_scratch_length n).

Definition log_entry_rlp_content_size (index : Z) : M SpecState Z :=
  address_length ← of_outcome (rlp_scratch_small_length rlp_addr_size);
  topics_length ← topics_rlp_size index;
  data ← read_log_data index;
  data_length ← zoom (rlp_log_scratch_slice_size data);
  address_and_topics_length ← of_outcome (rlp_scratch_length_add address_length topics_length);
  of_outcome (scratch_length_sum address_and_topics_length data_length).

Definition log_entry_rlp_size (index : Z) : M SpecState Z :=
  content_size ← log_entry_rlp_content_size index;
  of_outcome (n ← rlp_scratch_list_size content_size; rlp_scratch_length n).

Definition logs_rlp_content_size (logs : LogSeriesRef) : M SpecState Z :=
  size ← counting logs.(ls_count) (λ size offset,
    index ← of_outcome (log_store_index_add logs.(ls_start) offset);
    entry_size ← log_entry_rlp_size index;
    of_outcome (scratch_length_sum size entry_size)) 0;
  of_outcome (rlp_scratch_length size).

Definition logs_rlp_size (logs : LogSeriesRef) : M SpecState Z :=
  content_size ← logs_rlp_content_size logs;
  of_outcome (n ← rlp_scratch_list_size content_size; rlp_scratch_length n).

(** ** Writing *)

Definition rlp_write_topics (index : Z) : M SpecState unit :=
  content_size ← topics_rlp_content_size index;
  rlp_write_list_prefix content_size;;
  topic_count ← on_host (log_topics_count index);
  counting topic_count (λ _ topic, value ← on_host (log_topic index topic); rlp_write_word value) tt.

Definition rlp_write_log_entry (index : Z) : M SpecState unit :=
  content_size ← log_entry_rlp_content_size index;
  rlp_write_list_prefix content_size;;
  address_ ← on_host (log_address index);
  rlp_write_addr address_;;
  rlp_write_topics index;;
  data ← read_log_data index; rlp_write_log_data_slice data.

Definition rlp_write_logs (logs : LogSeriesRef) : M SpecState unit :=
  content_size ← logs_rlp_content_size logs;
  rlp_write_list_prefix content_size;;
  counting logs.(ls_count) (λ _ offset,
    index ← of_outcome (log_store_index_add logs.(ls_start) offset); rlp_write_log_entry index) tt.

Definition rlp_write_logs_bloom (bloom : bytes) : M SpecState unit :=
  rlp_write_string_prefix LOGS_BLOOM_BYTE_LENGTH 0;; scratch_push_fixed_bytes_256 bloom.

Definition receipt_write_logs_bloom (receipt : Receipt) : M SpecState unit :=
  bloom ← logs_bloom_for_logs receipt.(rc_logs); rlp_write_logs_bloom bloom.

Definition receipt_status (r : Receipt) : Z := if r.(rc_success) then 1 else 0.

Definition receipt_payload_content_size (r : Receipt) (cumulative_gas_used : Z) : M SpecState Z :=
  status_length ← of_outcome (n ← rlp_uint_word_size (receipt_status r); rlp_scratch_small_length n);
  gas_word ← of_outcome (word_of_nat_byte_count cumulative_gas_used);
  gas_length ← of_outcome (n ← rlp_uint_word_size gas_word; rlp_scratch_small_length n);
  bloom_prefix_length ← of_outcome
    (n ← rlp_length_prefix_len LOGS_BLOOM_BYTE_LENGTH; rlp_scratch_small_length n);
  bloom_length ← of_outcome (rlp_scratch_length_add LOGS_BLOOM_BYTE_LENGTH bloom_prefix_length);
  logs_length ← logs_rlp_size r.(rc_logs);
  fixed_length ← of_outcome (rlp_scratch_length_add status_length gas_length);
  fixed_and_bloom_length ← of_outcome (rlp_scratch_length_add fixed_length bloom_length);
  of_outcome (scratch_length_sum fixed_and_bloom_length logs_length).

Definition receipt_encoded_length (r : Receipt) (cumulative_gas_used : Z) : M SpecState Z :=
  content_len ← receipt_payload_content_size r cumulative_gas_used;
  let typed := negb (tx_envelope_type r.(rc_tx_type) =? 0) in
  payload_len ← of_outcome (rlp_scratch_list_size content_len);
  of_outcome (if typed then scratch_length_sum payload_len 1 else rlp_scratch_length payload_len).

Definition receipt_write_encoded (r : Receipt) (cumulative_gas_used : Z) : M SpecState unit :=
  content_len ← receipt_payload_content_size r cumulative_gas_used;
  let envelope_type := tx_envelope_type r.(rc_tx_type) in
  when (negb (envelope_type =? 0)) (scratch_push_byte envelope_type);;
  rlp_write_list_prefix content_len;;
  rlp_write_uint_word (receipt_status r);;
  rlp_write_uint_word cumulative_gas_used;;
  receipt_write_logs_bloom r;;
  rlp_write_logs r.(rc_logs).

Definition receipt_encoded (r : Receipt) (cumulative_gas_used : Z) : M SpecState Slice :=
  encoded_len ← receipt_encoded_length r cumulative_gas_used;
  encoder ← rlp_encoder_begin encoded_len;
  receipt_write_encoded r cumulative_gas_used;;
  rlp_encoder_finish encoder.

(** ** Records *)

(** [Bits(8, value >> shift)], for each of the eight bytes. *)
Definition receipt_record_write_length (value : Z) : M SpecState unit :=
  for_each (λ shift, scratch_push_byte (low_byte (Z.shiftr value shift))) [0; 8; 16; 24; 32; 40; 48; 56].

Definition receipt_record_append (r : Receipt) (cumulative_gas_used : Z) : M SpecState unit :=
  encoded_len ← receipt_encoded_length r cumulative_gas_used;
  fatal_if (Z.shiftl 1 64 - 1 <? encoded_len);;
  record_len ← of_outcome (scratch_length_add EIGHT_BYTE_LENGTH encoded_len);
  _ ← scratch_reserve record_len;
  receipt_record_write_length encoded_len;;
  encoder ← rlp_encoder_begin encoded_len;
  receipt_write_encoded r cumulative_gas_used;;
  _ ← rlp_encoder_finish encoder; mret tt.
End receipts.

(** [ReceiptRecordsRef] *)
Record ReceiptRecordsRef : Type := mkReceiptRecords { rr_bytes : Slice; rr_count : Z }.

Definition transaction_count (v : Z) : outcome Z := BoundedUint 0 1048576 v.

Definition receipt_store_begin : M SpecState Z := start ← scratch_begin; of_outcome (code_length start).

Definition receipt_record_pop (records : Slice) : M HostState (Slice * Slice) :=
  records ← of_outcome (if EIGHT_BYTE_LENGTH <=? records.(sl_len) then Ok records else fatal_error);
  value_length ← decode_scratch_uint records 0;
  payload ← of_outcome (scratch_slice_suffix records EIGHT_BYTE_LENGTH);
  of_outcome
    (if value_length <=? payload.(sl_len) then
       receipt ← scratch_sub_slice payload 0 value_length;
       rest ← scratch_slice_suffix payload value_length; Ok (receipt, rest)
     else fatal_error).

Definition receipt_store_append `{Keccak} (receipt : Receipt) (cumulative_gas_used _index : Z) :
    M SpecState unit := receipt_record_append receipt cumulative_gas_used.
