(* ===== verification/Payload.v ===== *)
(** * Payload: index tries, block hashes and the checks on a payload

    [lib/mpt/indexed.py] (the keys of an index trie in their order),
    [lib/rlp/codecs/withdrawals.py], [lib/rlp/codecs/block_header.py],
    [executor/payload.py] and the root of the receipts of
    [executor/receipts.py]. An index trie is built in one pass: the RLP
    encodings of 0, 1, 2, ... are not in the order of the indices, so the
    cursor visits the indices in the order of their keys.

    [Module IndexTrie] proves that pass right: for the transactions in the
    input its result is the root of the Merkle Patricia trie of its items
    ([transaction_trie_root_exact]). *)

From Stdlib Require Import ZArith Lia Strings.Byte Sorting.Sorted.
From stdpp Require Import base tactics option list.
From S2P Require Import Prelude PyBytes HostTypes SailRuntime Words WordTheorems WordBits ChainConfig Regions RegionAccess RegionFacts Gas GasSchedule Crypto Storage Accounts CodeDb Environment Scratch Rlp RlpTheorems RlpEncoders Kernel TxCodec Transaction TriePath TriePathTheorems TrieCodec TrieUpdates StateRoot TrieLookup StateRootTheorems Ssz StatelessInput Receipts.
Local Open Scope Z_scope.

(** ** The keys of an index trie *)

(** [RlpIndexItem] and [RlpIndexCursor], each with the maximum of its
    validity. *)
Record RlpIndexItem : Type := mkIndexItem { ii_maximum : Z; ii_index : Z; ii_key : TriePath }.
Record RlpIndexCursor : Type := mkIndexCursor {
  ic_maximum : Z;
  ic_count : Z;
  ic_position : Z;
  ic_current : RlpIndexItem;
}.

Definition rlp_index_valid_maximum (maximum : Z) : bool := (0 <? maximum) && (maximum <=? 2 ^ 20).

Definition rlp_index_item (maximum index : Z) (key : outcome TriePath) : outcome RlpIndexItem :=
  validated (rlp_index_valid_maximum maximum) tt;;
  index ← Uint index; key ← key;
  validated ((0 <=? index) && (index <=? maximum - 1)) (mkIndexItem maximum index key).

Definition rlp_index_cursor_new (maximum count position : Z) (current : outcome RlpIndexItem) :
    outcome RlpIndexCursor :=
  validated (rlp_index_valid_maximum maximum) tt;;
  count ← Uint count; position ← Uint position; current ← current;
  validated (((0 <=? count) && (count <=? maximum)) && ((0 <=? position) && (position <=? maximum)))
    (mkIndexCursor maximum count position current).

Definition rlp_index_byte_width (v : Z) : outcome Z := BoundedUint 1 8 v.

Definition rlp_index_encoded_width (value : Z) : outcome Z :=
  rlp_index_byte_width
    (if value <? 256 then 1 else if value <? 65536 then 2 else if value <? 16777216 then 3
     else if value <? 4294967296 then 4 else if value <? 1099511627776 then 5
     else if value <? 281474976710656 then 6 else if value <? 72057594037927936 then 7 else 8).

(** The loop of [trie_index_key]: the bytes of the index, the most
    significant first. *)
Fixpoint append_index (remaining : nat) (index : Z) (path : TriePath) : outcome TriePath :=
  match remaining with
  | O => Ok path
  | S byte_offset =>
      path ← path_append_byte path (byte_wrap (Z.shiftr index (Z.of_nat byte_offset * 8)));
      append_index byte_offset index path
  end.

Definition trie_index_key (index : Z) : outcome TriePath :=
  empty_path ← path_empty;
  if index =? 0 then path_append_byte empty_path (byte_wrap 0x80)
  else if index <=? 127 then path_append_byte empty_path (byte_wrap index)
  else
    width ← rlp_index_encoded_width index;
    path ← path_append_byte empty_path (byte_wrap (128 + width));
    append_index (Z.to_nat width) index path.

(** The index at a position of the order of keys. *)
Definition index_at (count position : Z) : outcome Z :=
  if position <? count then
    let rest := count - 1 in
    let single_count := if rest <? 127 then rest else 127 in
    if position <? single_count then Uint (position + 1)
    else if position =? single_count then Uint 0 else Uint position
  else fatal_error.
Definition rlp_index_at_position (cursor : RlpIndexCursor) : outcome Z :=
  index_at cursor.(ic_count) cursor.(ic_position).

(** [cursor.current = ...] on a cursor that is not at its end. *)
Definition with_current (more : bool) (cursor : RlpIndexCursor) : outcome RlpIndexCursor :=
  if more then
    index ← rlp_index_at_position cursor;
    current ← rlp_index_item cursor.(ic_maximum) index (trie_index_key index);
    rlp_index_cursor_new cursor.(ic_maximum) cursor.(ic_count) cursor.(ic_position) (Ok current)
  else Ok cursor.

Definition rlp_index_cursor (count maximum : Z) : outcome RlpIndexCursor :=
  cursor ← rlp_index_cursor_new maximum count 0 (rlp_index_item maximum 0 path_empty);
  with_current (negb (count =? 0)) cursor.

Definition rlp_index_cursor_empty (cursor : RlpIndexCursor) : bool :=
  cursor.(ic_position) =? cursor.(ic_count).

Definition rlp_index_cursor_peek (cursor : RlpIndexCursor) : outcome RlpIndexItem :=
  if cursor.(ic_position) <? cursor.(ic_count) then Ok cursor.(ic_current) else fatal_error.

Definition rlp_index_cursor_advance (cursor : RlpIndexCursor) : outcome RlpIndexCursor :=
  let count := cursor.(ic_count) in
  if cursor.(ic_position) <? count then
    next ← rlp_index_cursor_new cursor.(ic_maximum) count (cursor.(ic_position) + 1)
      (rlp_index_item cursor.(ic_maximum) 0 path_empty);
    with_current (next.(ic_position) <? count) next
  else fatal_error.

Definition rlp_index_cursor_pop (cursor : RlpIndexCursor) : outcome (RlpIndexItem * RlpIndexCursor) :=
  item ← rlp_index_cursor_peek cursor;
  next ← rlp_index_cursor_advance cursor; Ok (item, next).

(** ** Withdrawals *)

Definition withdrawal_rlp (withdrawal : Slice) : M SpecState Slice :=
  index ← zoom (decode_ssz_uint withdrawal WD_INDEX);
  validator_index ← zoom (decode_ssz_uint withdrawal WD_VALIDATOR_INDEX);
  address_ ← of_outcome (stateless_input_sub_slice withdrawal WD_ADDRESS ADDRESS_BYTE_LENGTH);
  amount ← zoom (decode_ssz_uint withdrawal WD_AMOUNT);
  index_length ← of_outcome (rlp_uint_word_size index);
  validator_index_length ← of_outcome (rlp_uint_word_size validator_index);
  address_length ← zoom (rlp_input_slice_size address_);
  amount_length ← of_outcome (rlp_uint_word_size amount);
  let content_length := index_length + validator_index_length + address_length + amount_length in
  fatal_if (48 <? content_length);;
  content_len ← of_outcome (sail_tmod_int content_length 49);
  encoded_length ← of_outcome (rlp_list_size content_len);
  encoder ← rlp_encoder_begin encoded_length;
  rlp_write_list_prefix content_len;;
  rlp_write_uint_word index;;
  rlp_write_uint_word validator_index;;
  rlp_write_input_slice address_;;
  rlp_write_uint_word amount;;
  rlp_encoder_finish encoder.

(** ** Index tries *)

Inductive IndexedTrieSource : Type :=
| IndexedTransactions (value : BoundedSszListRef)
| IndexedWithdrawals (value : BoundedSszListRef)
| IndexedReceipts (value : ReceiptRecordsRef).

Record IndexedTrieCursor : Type := mkIndexedTrieCursor {
  tc_keys : RlpIndexCursor;
  receipt_zero : Slice;
  receipt_remaining : Slice;
}.

Definition indexed_receipt_parts (source : IndexedTrieSource) : M HostState (Slice * Slice) :=
  match source with
  | IndexedReceipts receipts =>
      if receipts.(rr_count) =? 0 then mret (EMPTY_SCRATCH_SLICE, receipts.(rr_bytes))
      else receipt_record_pop receipts.(rr_bytes)
  | _ => mret (EMPTY_SCRATCH_SLICE, EMPTY_SCRATCH_SLICE)
  end.

Definition source_count (source : IndexedTrieSource) : Z :=
  match source with
  | IndexedTransactions l | IndexedWithdrawals l => l.(lr_count)
  | IndexedReceipts r => r.(rr_count)
  end.

Definition indexed_trie_begin (source : IndexedTrieSource) : M HostState IndexedTrieCursor :=
  '(zero, remaining) ← indexed_receipt_parts source;
  keys ← of_outcome (rlp_index_cursor (source_count source) (2 ^ 20));
  mret (mkIndexedTrieCursor keys zero remaining).

Definition indexed_trie_cursor_empty (cursor : IndexedTrieCursor) : bool :=
  rlp_index_cursor_empty cursor.(tc_keys).
Definition indexed_trie_cursor_key (cursor : IndexedTrieCursor) : outcome TriePath :=
  item ← rlp_index_cursor_peek cursor.(tc_keys); Ok item.(ii_key).

Definition indexed_trie_next_under (cursor : IndexedTrieCursor) (prefix : TriePath) : outcome bool :=
  if indexed_trie_cursor_empty cursor then Ok false
  else key ← indexed_trie_cursor_key cursor; path_prefix_of prefix key.

Definition indexed_trie_pop (source : IndexedTrieSource) (cursor : IndexedTrieCursor) :
    M SpecState (TrieItem * IndexedTrieCursor) :=
  '(index_item, next_keys) ← of_outcome (rlp_index_cursor_pop cursor.(tc_keys));
  let index := index_item.(ii_index) in
  '(value, remaining) ←
    match source with
    | IndexedTransactions txs =>
        transaction ← zoom (ssz_list_at txs index);
        mret (InputTrieLeaf transaction, cursor.(receipt_remaining))
    | IndexedWithdrawals wds =>
        withdrawal ← of_outcome (ssz_fixed_list_at wds index WD_SIZE);
        encoded ← withdrawal_rlp withdrawal;
        mret (ScratchTrieLeaf encoded, cursor.(receipt_remaining))
    | IndexedReceipts _ =>
        if index =? 0 then mret (ScratchTrieLeaf cursor.(receipt_zero), cursor.(receipt_remaining))
        else
          '(receipt, rest) ← zoom (receipt_record_pop cursor.(receipt_remaining));
          mret (ScratchTrieLeaf receipt, rest)
    end;
  mret (trie_leaf index_item.(ii_key) value,
        mkIndexedTrieCursor next_keys cursor.(receipt_zero) remaining).

Section tries.
Context `{Keccak} (source : IndexedTrieSource).

Definition IndexedSubtree : Type := TrieItem * IndexedTrieCursor.

(** The loop over the children of a prefix. Each turn takes the keys under
    one more nibble, so seventeen turns are enough. *)
Fixpoint indexed_children (turns : nat)
    (below : IndexedTrieCursor → TriePath → M SpecState IndexedSubtree) (prefix : TriePath) (depth : Z)
    (c : TrieChildren) (remaining : IndexedTrieCursor) : M SpecState (TrieChildren * IndexedTrieCursor) :=
  under ← of_outcome (indexed_trie_next_under remaining prefix);
  if under : bool then
    match turns with
    | O => of_outcome out_of_fuel
    | S turns' =>
        next_key ← of_outcome (indexed_trie_cursor_key remaining);
        nib ← of_outcome (path_nibble next_key depth);
        child_prefix ← of_outcome (child_prefix_of prefix nib);
        '(child, next) ← below remaining child_prefix;
        c ← trie_children_add c prefix nib child;
        indexed_children turns' below prefix depth c next
    end
  else mret (c, remaining).

(** A prefix is at most 64 nibbles long. *)
Fixpoint indexed_trie_subtree (levels : nat) (cursor : IndexedTrieCursor) (prefix : TriePath) :
    M SpecState IndexedSubtree :=
  match levels with
  | O => of_outcome out_of_fuel
  | S levels' =>
      under ← of_outcome (indexed_trie_next_under cursor prefix);
      if negb under then it ← of_outcome trie_empty_subtree; mret (it, cursor)
      else
        key ← of_outcome (indexed_trie_cursor_key cursor);
        if path_eq key prefix then indexed_trie_pop source cursor
        else
          depth ← of_outcome (path_len prefix);
          fatal_if (64 <=? depth);;
          c ← of_outcome trie_children_empty;
          '(c, remaining) ← indexed_children 17 (indexed_trie_subtree levels') prefix depth c cursor;
          it ← trie_children_finish prefix c; mret (it, remaining)
  end.

Definition indexed_trie_root : M SpecState hash :=
  mark ← scratch_begin;
  initial ← zoom (indexed_trie_begin source);
  root_path ← of_outcome path_empty;
  '(subtree, remaining) ← indexed_trie_subtree 66 initial root_path;
  let retained := remaining.(receipt_remaining) in
  fatal_if (negb (indexed_trie_cursor_empty remaining) || negb (retained.(sl_len) =? 0));;
  root ← trie_subtree_root subtree;
  scratch_rewind mark;; of_outcome (Bytes32 root).
End tries.

Section payload.
Context `{Keccak}.

Definition transaction_trie_root (txs : BoundedSszListRef) : M SpecState hash :=
  indexed_trie_root (IndexedTransactions txs).
Definition withdrawals_trie_root (wds : BoundedSszListRef) : M SpecState hash :=
  indexed_trie_root (IndexedWithdrawals wds).
Definition indexed_receipt_trie_root (receipts : ReceiptRecordsRef) : M SpecState hash :=
  indexed_trie_root (IndexedReceipts receipts).

(** [receipt_store_root] of [executor/receipts.py] *)
Definition receipt_store_root (records_start count : Z) : M SpecState hash :=
  records ← scratch_finish records_start;
  count ← of_outcome (transaction_count count);
  root ← indexed_receipt_trie_root (mkReceiptRecords records count);
  scratch_rewind records_start;; of_outcome (Bytes32 root).

(** ** Block hashes *)

(** The Keccak hash of the encoding of an empty list. *)
Definition EMPTY_OMMER_HASH : outcome hash :=
  hash_from_bits (bits_of 256 0x1dcc4de8dec75d7aab85b567b6ccd41ad312451b948a7413f0a142fd40d49347).

(** The fields a fork has beyond those of Berlin: a condition, the length and
    the writer of each. *)
Record HeaderField : Type := mkHeaderField { hf_length : outcome Z; hf_write : M SpecState unit }.

Definition word_field (h : hash) : HeaderField :=
  mkHeaderField (Ok rlp_word_size) (w ← of_outcome (hash_to_word h); rlp_write_word w).
Definition uint_field (v : Z) : HeaderField := mkHeaderField (rlp_uint_word_size v) (rlp_write_uint_word v).

Definition when_fork (present : bool) (fields : list HeaderField) : list HeaderField :=
  if present then fields else [].

Definition fork_fields (fork : Z) (header : BlockHeader)
    (withdrawals_root requests_hash block_access_list_hash : hash) : list HeaderField :=
  when_fork (London <=? fork) [uint_field header.(bh_base_fee)] ++
  when_fork (Shanghai <=? fork) [word_field withdrawals_root] ++
  when_fork (Cancun <=? fork)
    [uint_field header.(bh_blob_gas_used); uint_field header.(bh_excess_blob_gas);
     word_field header.(bh_parent_beacon_block_root)] ++
  when_fork (Prague <=? fork) [word_field requests_hash] ++
  when_fork (Amsterdam <=? fork) [word_field block_access_list_hash; uint_field header.(bh_slot_number)].

(** [content_length = rlp_scratch_length_add(content_length, length)] for
    each length. *)
Fixpoint add_lengths (content_length : Z) (lengths : list (outcome Z)) : outcome Z :=
  match lengths with
  | [] => Ok content_length
  | l :: lengths' => n ← l; total ← scratch_length_sum content_length n; add_lengths total lengths'
  end.

Definition block_header_hash (header : BlockHeader)
    (transactions_root withdrawals_root requests_hash block_access_list_hash : hash) : M SpecState hash :=
  profile ← get_profile;
  let fields := fork_fields (fork profile) header withdrawals_root requests_hash block_access_list_hash in
  difficulty_length ← of_outcome (rlp_uint_word_size 0);
  number_length ← of_outcome (rlp_uint_word_size header.(bh_number));
  gas_limit_length ← of_outcome (rlp_uint_word_size header.(bh_gas_limit));
  gas_used_length ← of_outcome (rlp_uint_word_size header.(bh_gas_used));
  timestamp_length ← of_outcome (rlp_uint_word_size header.(bh_timestamp));
  extra_data_length ← zoom (rlp_input_scratch_slice_size header.(bh_extra_data));
  content_length ← of_outcome (rlp_scratch_length_add (6 * rlp_word_size) rlp_addr_size);
  content_length ← of_outcome (add_lengths content_length
    ([Ok (3 + LOGS_BLOOM_BYTE_LENGTH); Ok difficulty_length; Ok number_length; Ok gas_limit_length;
      Ok gas_used_length; Ok timestamp_length; Ok extra_data_length; Ok (1 + EIGHT_BYTE_LENGTH)] ++
     (hf_length <$> fields)));
  fatal_if (749 <? content_length);;
  content_len ← of_outcome (sail_tmod_int content_length 750);
  encoded_length ← of_outcome (rlp_list_size content_len);
  encoder ← rlp_encoder_begin encoded_length;
  rlp_write_list_prefix content_len;;
  hf_write (word_field header.(bh_parent_hash));;
  ommer_hash ← of_outcome EMPTY_OMMER_HASH;
  hf_write (word_field ommer_hash);;
  rlp_write_addr header.(bh_fee_recipient);;
  hf_write (word_field header.(bh_state_root));;
  hf_write (word_field transactions_root);;
  hf_write (word_field header.(bh_receipts_root));;
  logs_bloom ← zoom (logs_bloom_from_ref header.(bh_logs_bloom));
  rlp_write_logs_bloom logs_bloom;;
  rlp_write_uint_word 0;;
  rlp_write_uint_word header.(bh_number);;
  rlp_write_uint_word header.(bh_gas_limit);;
  rlp_write_uint_word header.(bh_gas_used);;
  rlp_write_uint_word header.(bh_timestamp);;
  rlp_write_input_slice header.(bh_extra_data);;
  rlp_write_word header.(bh_prev_randao);;
  rlp_write_string_prefix EIGHT_BYTE_LENGTH 0;;
  scratch_push_word_be ZERO_WORD EIGHT_BYTE_LENGTH;;
  for_each hf_write fields;;
  encoded ← rlp_encoder_finish encoder;
  block_hash ← zoom (scratch_keccak256 encoded);
  rlp_encoder_rewind encoder;; of_outcome (Bytes32 block_hash).

(** ** The payload *)

Definition expected_payload_excess_blob_gas (witness : WitnessContext) : M SpecState Z :=
  profile ← get_profile;
  of_outcome (v ← next_excess_blob_gas profile witness.(wc_parent_excess_blob_gas)
                witness.(wc_parent_blob_gas_used) witness.(wc_parent_base_fee_per_gas);
              excess_blob_gas v).

(** The digest of a request list that is not empty, behind its type. *)
Definition request_digest (request : Z * Slice) : M SpecState hash :=
  if negb (request.2.(sl_len) =? 0) then sha256_request_digest request.1 request.2 else mret ZERO_HASH.

Fixpoint request_digests (requests : list (Z * Slice)) : M SpecState (list (Slice * hash)) :=
  match requests with
  | [] => mret []
  | r :: requests' => d ← request_digest r; ds ← request_digests requests'; mret ((r.2, d) :: ds)
  end.

Definition execution_requests_hash (input_ref : StatelessInputRef) : M SpecState hash :=
  digests ← request_digests
    [(0, input_ref.(deposits)); (1, input_ref.(withdrawal_requests));
     (2, input_ref.(consolidation_requests)); (3, input_ref.(builder_deposit_requests));
     (4, input_ref.(builder_exit_requests))];
  mark ← scratch_reserve (5 * WORD_BYTE_LENGTH);
  for_each (λ d, when (negb (d.1.(sl_len) =? 0)) (scratch_push_b256 d.2 WORD_BYTE_LENGTH)) digests;;
  request_bytes ← scratch_finish mark;
  digest ← zoom (scratch_sha256 request_bytes);
  scratch_rewind mark;; of_outcome (Bytes32 digest).

(** [if present: root() else: default] *)
Definition root_or {A} (present : bool) (root : M SpecState A) (default : A) : M SpecState A :=
  if present then root else mret default.

Definition validate_execution_payload (input : StatelessInput) (input_ref : StatelessInputRef)
    (witness : WitnessContext) : M SpecState unit :=
  profile ← get_profile;
  let payload := input.(payload) in
  let header := payload.(block).(header) in
  let body := payload.(block).(body) in
  fatal_if (header.(bh_gas_limit) <? header.(bh_gas_used));;
  fatal_if (negb (bool_decide (witness.(wc_parent_hash) = header.(bh_parent_hash))));;
  expected_excess_blob_gas ← expected_payload_excess_blob_gas witness;
  fatal_if ((Cancun <=? fork profile) && negb (header.(bh_excess_blob_gas) =? expected_excess_blob_gas));;
  if Paris <=? fork profile then
    transactions_root ← transaction_trie_root body.(bb_transactions);
    withdrawals_root ← root_or (Shanghai <=? fork profile)
      (withdrawals_trie_root body.(bb_withdrawals)) EMPTY_TRIE_ROOT;
    requests_hash ← root_or (Prague <=? fork profile) (execution_requests_hash input_ref) ZERO_HASH;
    block_access_list_hash ← root_or (Amsterdam <=? fork profile)
      (zoom (stateless_input_keccak256 body.(bb_block_access_list))) ZERO_HASH;
    computed_block_hash ← block_header_hash header transactions_root withdrawals_root requests_hash
      block_access_list_hash;
    fatal_if (negb (bool_decide (computed_block_hash = payload.(expected_block_hash))))
  else mret tt.
End payload.

(** ** The index trie is a Merkle Patricia trie *)

Module IndexTrie.

(** ** Nodes written in the arena *)

Section node_refs.
Context `{Keccak}.

(** How the codec refers to a node it has written: by its bytes when they are
    short. *)
Definition node_ref (node : bytes) : NodeRef :=
  if py_len node <? 32 then ScratchInlineRef (mkInlineNode (rev (mem_range node 0 32)) (py_len node))
  else HashRef (digest_of node).

(** Rewinding the arena to where it was drops what was written. *)
Lemma rewind_ok st0 st p :
  arena_wf st0 → appends p st0 st →
  ∃ st2, scratch_rewind st0.(scratch_arena).(sl_len) st = (Ok tt, st2) ∧ appends [] st0 st2.
Proof.
  intros Hw0 (Hw & Ea & b & Eh). pose proof (arena_len _ Hw0) as L0. pose proof (arena_len _ Hw) as L.
  rewrite Ea, py_len_app in L. pose proof (py_len_nonneg p). pose proof (py_len_nonneg (arena st0)).
  set (n := st0.(scratch_arena).(sl_len)) in *.
  destruct (sub_slice_ok RScratch st.(scratch_arena) 0 n st.(sp_host)) as (t & Et & Ht & Htl & Htd);
    [apply Hw|lia..|].
  assert (t.(sl_bytes) = 0) as Ht0.
  { unfold sub_slice, checked_slice in Et. destruct (region_valid_range _ _); [|done]. injection Et as <-.
    cbn. rewrite (proj1 Hw). lia. }
  assert (Hm : mkSlice 0 n = t) by (destruct t; cbn in *; congruence). rewrite <-Hm in *. clear Hm Ht0 Htl.
  set (r := py_del_from st.(sp_host).(regions).(scratch_bytes) n).
  exists (mkSpec (set_regions (set_scratch_bytes r st.(sp_host).(regions)) st.(sp_host)) st.(sp_env) (mkSlice 0 n)).
  split.
  { unfold scratch_rewind, get_arena, set_arena. py_step. rewrite (proj2 (Z.leb_le _ _)) by lia.
    rewrite bind_run, of_outcome_run. unfold scratch_sub_slice. rewrite Et. py_step.
    unfold host_scratch_truncate, modify_regions. rewrite zoom_run. cbn [view spec_host sp_host]. by rewrite zoom_run. }
  assert (r = take (Z.to_nat n) (region_of RScratch st.(sp_host))) as Er.
  { unfold r, py_del_from. destruct Hw as [Hw1 (_ & _ & H3 & _)]. rewrite slice_bound_in; [done|].
    change (region_of RScratch (sp_host st)) with (scratch_bytes (regions (sp_host st))) in H3. lia. }
  assert (arena_wf (mkSpec (set_regions (set_scratch_bytes r st.(sp_host).(regions)) st.(sp_host)) st.(sp_env) (mkSlice 0 n))) as Hw2.
  { destruct Ht as (T1 & T2 & T3 & T4). cbn in T1, T2, T3, T4. split; [done|]. split_and!; cbn; [lia..| |lia]. rewrite Er.
    change (region_of RScratch (sp_host st)) with (scratch_bytes (regions (sp_host st))) in *.
    unfold py_len in *. rewrite length_take. lia. }
  split; [done|]. split.
  - rewrite app_nil_r, (arena_take _ Hw2). cbn. rewrite Er, take_take, Nat.min_id.
    rewrite drop_0 in Htd. fold (arena st) in Htd. rewrite Ea in Htd.
    rewrite slice_data_take in Htd by done. cbn in Htd. rewrite drop_0 in Htd. etrans; [exact Htd|].
    apply take_app_length'. unfold py_len in L0. lia.
  - exists r. cbn. rewrite Eh. done.
Qed.

(** The reference to a node that was just written. *)
Lemma child_ref_run node s st :
  slice_in RScratch s st.(sp_host) → slice_data RScratch s st.(sp_host) = node →
  child_ref s st = (Ok (node_ref node), st).
Proof.
  intros Hs Hd. pose proof (slice_data_length _ _ _ Hs) as Hl. rewrite Hd in Hl.
  unfold child_ref, node_ref, MPT_HASH_LENGTH, WORD_BYTE_LENGTH. rewrite Hl.
  destruct (Z.ltb_spec s.(sl_len) 32) as [Hlt|Hge]; rewrite bind_run.
  - erewrite host_read; [done|]. unfold inline_node_from_scratch_slice, inline_node_from_slice.
    unfold MPT_HASH_LENGTH, WORD_BYTE_LENGTH. rewrite (proj2 (Z.ltb_lt _ _)) by done.
    rewrite bind_run, slice_load_run, of_outcome_run, Hd by done. unfold inline_node.
    rewrite word_to_hash_ok, bind_value, BoundedUint_ok by (destruct Hs; lia).
    rewrite bind_value. by rewrite (be_bytes_from_be (mem_range node 0 32) : be_bytes 32 _ = _).
  - erewrite host_read; [done|]. unfold scratch_keccak256, _keccak_region, _region_bytes. py_step.
    unfold digest_of. by rewrite <-Hd.
Qed.

(** An operation that returns [a] and leaves nothing written. *)
Definition gives {A} (m : M SpecState A) (st : SpecState) (a : A) : Prop := writes m st [] a.

Lemma written_ok st content (payload : M SpecState unit) :
  arena_wf st → room st (py_len (rlp_list content)) →
  (∀ st', appends (rlp_prefix 0xc0 0xf7 (py_len content)) st st' → room st' (py_len content) →
     writes payload st' content tt) →
  gives (written_child_ref (py_len (rlp_list content)) (py_len content) payload) st (node_ref (rlp_list content)).
Proof.
  intros Hw Hr Hpay. pose proof (py_len_nonneg (rlp_list content)) as Hn0.
  pose proof (py_len_nonneg content) as Hc0. pose proof (py_len_nonneg (arena st)).
  assert (py_len (rlp_list content) = py_len (rlp_prefix 0xc0 0xf7 (py_len content)) + py_len content) as El
    by (unfold rlp_list; by rewrite py_len_app).
  pose proof (py_len_nonneg (rlp_prefix 0xc0 0xf7 (py_len content))).
  assert (py_len content < 2 ^ 32) as Hmax by (unfold room, SCRATCH_LIMIT in Hr; lia).
  set (e := mkRlpEncoder st.(scratch_arena).(sl_len) (py_len (rlp_list content))).
  destruct (reserve_ok st (py_len (rlp_list content)) Hw Hn0) as (st1 & E1 & A1).
  pose proof (arena_len _ Hw) as Hal.
  assert (rlp_encoder_begin (py_len (rlp_list content)) st = (Ok e, st1)) as Eb.
  { unfold rlp_encoder_begin. rewrite bind_run, E1, bind_run, of_outcome_run, Uint_ok by lia.
    rewrite bind_run, of_outcome_run, Uint_ok by lia. by rewrite ret_run. }
  assert (room st1 (py_len (rlp_list content))) as Hr1 by by apply (appends_room [] _ _ _ A1).
  destruct (write_prefix_ok st1 0xc0 0xf7 (py_len content)) as (st2 & E2 & A2);
    [apply A1|lia..|unfold room in *; lia|].
  pose proof (appends_trans _ _ _ _ _ A1 A2) as A02. cbn [app] in A02.
  destruct (Hpay st2 A02) as (st3 & E3 & A3).
  { apply (appends_room _ _ _ _ A02). unfold room in *. lia. }
  pose proof (appends_trans _ _ _ _ _ A02 A3) as A03. fold (rlp_list content) in A03.
  destruct (completes_finish st e (rlp_list content) Hw eq_refl eq_refl st3 A03) as (s & st4 & E4 & A4 & Hs & Hd);
    [by rewrite app_nil_r|].
  rewrite app_nil_r in A4, Hd.
  destruct (rewind_ok _ _ _ Hw A4) as (st5 & E5 & A5).
  exists st5. split; [|exact A5]. unfold written_child_ref. rewrite bind_run, Eb.
  rewrite bind_run. change (rlp_write_list_prefix (py_len content)) with (write_prefix 0xc0 0xf7 (py_len content)).
  rewrite E2, bind_run, E3, bind_run, E4, bind_run, (child_ref_run _ _ _ Hs Hd), bind_run.
  unfold rlp_encoder_rewind. cbn [enc_start e]. by rewrite E5, ret_run.
Qed.
End node_refs.

(** ** The parts of a node *)

Lemma pair_value h l : is_nibble h → is_nibble l → Z.lor (Z.shiftl h 4) l = 16 * h + l.
Proof.
  unfold is_nibble. intros Hh Hl. rewrite Z.lor_comm, lor_disjoint by lia. lia.
Qed.

Section hex.
Context (leaf : bool) (ns : list Z) (Hns : path_wf ns).
Let flag : Z := if leaf then 2 else 0.

Lemma hex_length_ok : hex_prefix_encoded_length (path_of ns) = Ok (py_len (hex_prefix leaf ns)).
Proof using All.
  unfold hex_prefix_encoded_length. rewrite path_len_ok, bind_value by done.
  rewrite sail_tdiv_ok, bind_value, Z.quot_div_nonneg, hex_prefix_length by lia.
  apply BoundedUint_ok. destruct Hns as [_ Hl].
  assert (0 <= Z.of_nat (length ns) / 2) by (apply Z.div_pos; lia).
  assert (Z.of_nat (length ns) / 2 <= 32) by (apply Z.div_le_upper_bound; lia). lia.
Qed.

(** The first byte, and how the rest starts. *)
Lemma hex_split :
  ∃ first, hex_prefix_first_byte (path_of ns) leaf = Ok (Z_of_byte first) ∧
    hex_prefix leaf ns = first :: pairs (drop (Z.to_nat (Z.of_nat (length ns) mod 2)) ns) ∧
    Z_of_byte first < 128.
Proof using All.
  destruct Hns as [Hnib Hlen]. unfold hex_prefix_first_byte. rewrite path_len_ok, bind_value by done.
  rewrite parity_ok, bind_value by lia.
  assert (is_nibble flag ∧ is_nibble (flag + 1) ∧ Z.lor flag 1 = flag + 1 ∧ flag <= 2) as (Hf & Hf1 & Ho & Hf2)
    by by unfold flag; destruct leaf.
  unfold hex_prefix. fold flag.
  destruct (even_or_odd ns) as [E|(n & ms & -> & E & Em)]; rewrite E.
  - apply Nat.even_spec in E as [m Hm].
    assert (Z.of_nat (length ns) mod 2 = 0) as ->.
    { rewrite Hm, Nat2Z.inj_mul, Z.mul_comm. apply Z.mod_mul. lia. }
    exists (nibble_pair flag 0). rewrite nibble_pair_value by done. split; [|split; [done|lia]].
    cbn [Z.eqb negb]. cbv iota. f_equal. rewrite Z.shiftl_mul_pow2 by lia. lia.
  - apply Nat.even_spec in Em as [m Hm]. apply Forall_cons in Hnib as [Hn _].
    assert (Z.of_nat (length (n :: ms)) mod 2 = 1) as ->.
    { cbn [length]. rewrite Hm, Nat2Z.inj_succ, Nat2Z.inj_mul.
      replace (Z.succ (Z.of_nat 2 * Z.of_nat m)) with (1 + Z.of_nat m * 2) by lia. by rewrite Z.mod_add. }
    exists (nibble_pair (flag + 1) n). change (nib (n :: ms) 0) with n.
    rewrite nibble_pair_value by done. split; [|split; [done|unfold is_nibble in *; lia]].
    change (negb (1 =? 0)) with true. cbv iota. rewrite path_nibble_ok by (done || by split).
    rewrite bind_value. change (nib (n :: ms) (Z.to_nat 0)) with n. rewrite Ho. f_equal. rewrite pair_value by done. done.
Qed.

Lemma hex_size_ok : rlp_hex_prefix_size (path_of ns) leaf = Ok (py_len (rlp_string (hex_prefix leaf ns))).
Proof using All.
  destruct hex_split as (first & Ef & Eh & Hlt). unfold rlp_hex_prefix_size.
  rewrite hex_length_ok, bind_value, Ef, bind_value.
  rewrite self_encoding_test.
  2: { intros _. by rewrite Eh. }
  assert (1 <= py_len (hex_prefix leaf ns) <= 33) as Hl.
  { rewrite hex_prefix_length. destruct Hns as [_ Hlen].
    assert (0 <= Z.of_nat (length ns) / 2) by (apply Z.div_pos; lia).
    assert (Z.of_nat (length ns) / 2 <= 32) by (apply Z.div_le_upper_bound; lia). lia. }
  unfold rlp_string. destruct (self_encoding (hex_prefix leaf ns)) eqn:Es.
  - destruct (hex_prefix leaf ns) as [|? [|? ?]]; try done.
  - rewrite py_len_app, rlp_prefix_len, (proj2 (Z.leb_le _ _)) by lia.
    rewrite BoundedUint_ok by lia. f_equal. lia.
Qed.

Lemma write_pairs_ok fuel : ∀ k st,
  (k <= length ns)%nat → Nat.even (length ns - k) = true → (length ns - k <= 2 * fuel)%nat →
  arena_wf st → room st (py_len (pairs (drop k ns))) →
  writes (write_pairs fuel (path_of ns) (Z.of_nat (length ns)) (Z.of_nat k)) st (pairs (drop k ns)) tt.
Proof using All.
  pose proof Hns as [Hnib Hlen].
  induction fuel as [|fuel IH]; intros k st Hk He Hf Hw Hr; cbn [write_pairs].
  - rewrite (proj2 (Z.ltb_ge _ _)) by lia. rewrite drop_ge by lia. by apply writes_ret.
  - destruct (Z.ltb_spec (Z.of_nat k) (Z.of_nat (length ns))) as [Hlt|Hge].
    2: { rewrite drop_ge by lia. by apply writes_ret. }
    assert (k + 1 < length ns)%nat as Hk1.
    { apply Nat.even_spec in He as [m Hm]. lia. }
    rewrite (drop_nib ns k), (drop_nib ns (S k)) in * by lia. cbn [pairs] in *.
    pose proof (nib_range ns k Hnib) as N1. pose proof (nib_range ns (S k) Hnib) as N2.
    unfold writes. rewrite bind_run, of_outcome_run, sail_tmod_ok, Z.rem_small by lia.
    rewrite bind_run, of_outcome_run, sail_tmod_ok, Z.rem_small by lia.
    rewrite bind_run, of_outcome_run, path_nibble_ok by (done || lia).
    rewrite bind_run, of_outcome_run, path_nibble_ok by (done || lia).
    rewrite Nat2Z.id. replace (Z.to_nat (Z.of_nat k + 1)) with (S k) by lia.
    replace (Z.of_nat k + 1 + 1) with (Z.of_nat (S (S k))) by lia.
    change (nibble_pair (nib ns k) (nib ns (S k)) :: pairs (drop (S (S k)) ns)) with
      ([nibble_pair (nib ns k) (nib ns (S k))] ++ pairs (drop (S (S k)) ns)) in *.
    rewrite py_len_app in Hr. pose proof (py_len_nonneg (pairs (drop (S (S k)) ns))).
    change (py_len [_]) with 1 in Hr.
    apply (writes_bind _ (λ _, write_pairs fuel _ _ _) _ _ _ tt).
    + unfold nibble_pair. apply push_byte_ok; [done| |unfold room in *; lia].
      rewrite pair_value by done. unfold is_nibble in *. lia.
    + intros st' Ha. apply IH; [lia| |lia|apply Ha|].
      * apply Nat.even_spec in He as [m Hm]. apply Nat.even_spec. exists (m - 1)%nat. lia.
      * by apply (appends_room _ _ _ _ Ha).
Qed.

Lemma write_hex_ok st :
  arena_wf st → room st (py_len (rlp_string (hex_prefix leaf ns))) →
  writes (rlp_write_hex_prefix (path_of ns) leaf) st (rlp_string (hex_prefix leaf ns)) tt.
Proof using All.
  intros Hw Hr. destruct hex_split as (first & Ef & Eh & Hlt). unfold rlp_write_hex_prefix, writes.
  rewrite bind_run, of_outcome_run, path_len_ok by done.
  rewrite bind_run, of_outcome_run, hex_length_ok, bind_run, of_outcome_run, Ef.
  assert (py_len (hex_prefix leaf ns) <= 33) as Hl.
  { rewrite hex_prefix_length. destruct Hns as [_ Hlen].
    assert (Z.of_nat (length ns) / 2 <= 32) by (apply Z.div_le_upper_bound; lia). lia. }
  apply write_string_ok; [done|by rewrite Eh|lia|done|].
  intros st' Ha Hr'. rewrite Eh in *.
  set (k := Z.to_nat (Z.of_nat (length ns) mod 2)) in *.
  change (first :: pairs (drop k ns)) with ([first] ++ pairs (drop k ns)) in *.
  rewrite py_len_app in Hr'. pose proof (py_len_nonneg (pairs (drop k ns))). change (py_len [_]) with 1 in Hr'.
  apply (writes_bind _ _ _ _ _ tt).
  { rewrite <-(byte_wrap_Z_of_byte first) at 2. apply push_byte_ok; [apply Ha| |unfold room in *; lia].
    apply Z_of_byte_range. }
  intros st2 Ha2. unfold writes. rewrite bind_run, of_outcome_run, parity_ok by lia.
  pose proof (Z.mod_pos_bound (Z.of_nat (length ns)) 2 ltac:(lia)) as Hm.
  pose proof (Z.div_mod (Z.of_nat (length ns)) 2 ltac:(lia)) as Hdm.
  replace (if negb (Z.of_nat (length ns) mod 2 =? 0) then 1 else 0) with (Z.of_nat k).
  2: { unfold k. destruct (Z.eqb_spec (Z.of_nat (length ns) mod 2) 0) as [->|]; cbn [negb]; lia. }
  destruct Hns as [_ Hlen]. apply write_pairs_ok; [lia| |lia|apply Ha2|].
  - apply Nat.even_spec. exists (Z.to_nat (Z.of_nat (length ns) / 2)). lia.
  - by apply (appends_room _ _ _ _ Ha2).
Qed.
End hex.

Section nodes.
Context `{Keccak}.

Lemma push_b256_ok st w n :
  arena_wf st → length w = 32%nat → 0 <= n <= 32 → room st n →
  writes (scratch_push_b256 (rev w) n) st (take (Z.to_nat n) w) tt.
Proof.
  intros Hw Hl Hn Hr. unfold scratch_push_b256. destruct (Z.eqb_spec n 0) as [->|]; cbn [negb].
  { by apply writes_ret. }
  apply push_store; [done|unfold py_len; rewrite length_take; replace (Z.of_nat _) with n by lia; done|].
  intros off. unfold host_scratch_store_b256, _fixed_wire_bytes. rewrite rev_involutive.
  unfold py_slice_to. by rewrite slice_bound_in by (unfold py_len; lia).
Qed.

Lemma ref_bytes_len node : node ≠ [] → 1 <= py_len (ref_bytes node) <= 33.
Proof.
  intros Hne. unfold ref_bytes. rewrite bool_decide_false by done.
  assert (0 < py_len node) by (destruct node; [done|unfold py_len; cbn; lia]).
  destruct (Z.ltb_spec (py_len node) 32); [lia|].
  assert (py_len (_keccak node) = 32) as Hk by (unfold py_len; by rewrite _keccak_length).
  rewrite short_string_len by lia. lia.
Qed.

Lemma node_ref_size_ok node : node ≠ [] → node_ref_size (node_ref node) = Ok (py_len (ref_bytes node)).
Proof.
  intros Hne. pose proof (ref_bytes_len node Hne) as Hl. unfold node_ref_size, node_ref, ref_bytes in *.
  rewrite bool_decide_false in * by done. destruct (Z.ltb_spec (py_len node) 32); [by apply BoundedUint_ok; lia|].
  assert (py_len (_keccak node) = 32) as Hk by (unfold py_len; by rewrite _keccak_length).
  rewrite short_string_len in * by lia. rewrite Hk. by apply BoundedUint_ok.
Qed.

Lemma digest_wire node : rev (digest_of node) = _keccak node.
Proof. unfold digest_of, _bytes32_from_wire. apply rev_involutive. Qed.
Lemma digest_length node : py_len (digest_of node) = 32.
Proof. unfold py_len, digest_of, _bytes32_from_wire. by rewrite length_rev, _keccak_length. Qed.

Lemma write_node_ref_ok st node :
  node ≠ [] → arena_wf st → room st (py_len (ref_bytes node)) →
  writes (rlp_write_node_ref (node_ref node)) st (ref_bytes node) tt.
Proof.
  intros Hne Hw Hr. unfold rlp_write_node_ref, node_ref, ref_bytes in *.
  rewrite bool_decide_false in * by done. destruct (Z.ltb_spec (py_len node) 32) as [Hlt|Hge]; cbn [in_data in_len].
  - pose proof (py_len_nonneg node).
    replace node with (take (Z.to_nat (py_len node)) (mem_range node 0 32)) at 3.
    { apply push_b256_ok; [done|apply mem_range_length|lia|done]. }
    apply list_eq. intros i. rewrite lookup_take. unfold py_len in *. case_decide as Hi.
    + destruct (lookup_lt_is_Some_2 node i) as [b Hb]; [lia|].
      rewrite mem_range_lookup by lia. unfold mem_at. by rewrite Z.add_0_l, Nat2Z.id, Hb.
    + symmetry. apply lookup_ge_None_2. lia.
  - unfold writes. rewrite bind_run, of_outcome_run, hash_to_word_ok by apply digest_length.
    rewrite <-digest_wire in *. by apply write_hash_ok; [apply digest_length|..].
Qed.

(** ** Leaves and extensions *)

Definition leaf_bytes (k : list Z) (v : bytes) : bytes := rlp_string (hex_prefix true k) ++ rlp_string v.

(** A value of a leaf is where the reference to it says. *)
Definition value_at_slice (lv : TrieLeafValue) (v : bytes) (st : SpecState) : Prop :=
  match lv with
  | InputTrieLeaf s => stable_slice RInput s st ∧ slice_data RInput s st.(sp_host) = v
  | ScratchTrieLeaf s => stable_slice RScratch s st ∧ slice_data RScratch s st.(sp_host) = v
  end.

Lemma value_appends lv v p st st' :
  arena_wf st → value_at_slice lv v st → appends p st st' → value_at_slice lv v st'.
Proof.
  intros Hw Hv Ha. destruct lv as [s|s]; destruct Hv as [Hs <-];
    destruct (stable_slice_appends _ _ _ _ _ Hw Hs Ha) as [? ?]; by split.
Qed.

Lemma scratch_list_size_ok content :
  py_len (rlp_list content) <= SCRATCH_LIMIT →
  rlp_scratch_list_size (py_len content) = Ok (py_len (rlp_list content)) ∧
  rlp_list_size (py_len content) = Ok (py_len (rlp_list content)).
Proof.
  unfold rlp_list, SCRATCH_LIMIT. rewrite py_len_app. intros Hr.
  pose proof (py_len_nonneg content). pose proof (py_len_nonneg (rlp_prefix 0xc0 0xf7 (py_len content))).
  unfold rlp_scratch_list_size, rlp_list_size. rewrite (length_prefix_ok 0xc0 0xf7), bind_value by lia.
  split; [|by apply Uint_ok; lia].
  unfold rlp_scratch_small_length, rlp_scratch_length_add, rlp_scratch_length.
  rewrite Uint_ok, bind_value by lia. change (Z.shiftl 1 32 - 1) with (2 ^ 32 - 1).
  rewrite (proj2 (Z.leb_le _ _)), Uint_ok, bind_value, Uint_ok by lia. f_equal. lia.
Qed.

Lemma materialized_run kind s h :
  slice_in kind s h → py_len (rlp_string (slice_data kind s h)) <= SCRATCH_LIMIT →
  materialized_size kind s h = (Ok (py_len (rlp_string (slice_data kind s h))), h).
Proof.
  intros Hs Hr. unfold materialized_size. rewrite bind_run, first_byte_run, of_outcome_run by done.
  rewrite <-(slice_data_length _ _ _ Hs) at 1. rewrite materialized_size_ok, bind_value by done.
  unfold rlp_scratch_length. by rewrite Uint_ok by apply py_len_nonneg.
Qed.

Lemma list_len_content content : py_len content < py_len (rlp_list content).
Proof.
  unfold rlp_list. rewrite py_len_app, rlp_prefix_len.
  pose proof (byte_len_nonneg (py_len content)). destruct (_ <=? 55); lia.
Qed.

Lemma leaf_ref_ok (size : M HostState Z) (write : M SpecState unit) k v st :
  path_wf k → arena_wf st → room st (py_len (rlp_list (leaf_bytes k v))) →
  size st.(sp_host) = (Ok (py_len (rlp_string v)), st.(sp_host)) →
  (∀ st', appends (rlp_prefix 0xc0 0xf7 (py_len (leaf_bytes k v)) ++ rlp_string (hex_prefix true k)) st st' →
     room st' (py_len (rlp_string v)) → writes write st' (rlp_string v) tt) →
  gives (leaf_ref size write (path_of k)) st (node_ref (rlp_list (leaf_bytes k v))).
Proof.
  intros Hk Hw Hr Hsize Hwrite. pose proof (py_len_nonneg (arena st)).
  pose proof (list_len_content (leaf_bytes k v)).
  assert (py_len (rlp_list (leaf_bytes k v)) <= SCRATCH_LIMIT) as Hlim by (unfold room in Hr; lia).
  destruct (scratch_list_size_ok _ Hlim) as [Els _].
  assert (py_len (leaf_bytes k v) = py_len (rlp_string (hex_prefix true k)) + py_len (rlp_string v)) as El
    by (unfold leaf_bytes; by rewrite py_len_app).
  pose proof (py_len_nonneg (rlp_string (hex_prefix true k))). pose proof (py_len_nonneg (rlp_string v)).
  destruct (written_ok st (leaf_bytes k v) (rlp_write_hex_prefix (path_of k) true;; write) Hw Hr) as (st' & E & A).
  { intros st1 A1 R1. rewrite El in R1. unfold leaf_bytes at 1.
    apply (writes_bind _ _ _ _ _ tt).
    - apply write_hex_ok; [done|apply A1|unfold room in *; lia].
    - intros st2 A2. apply Hwrite; [by eapply appends_trans|]. by apply (appends_room _ _ _ _ A2). }
  exists st'. split; [|done]. unfold leaf_ref.
  rewrite bind_run, of_outcome_run, hex_size_ok by done.
  rewrite bind_run, (host_read _ _ _ Hsize), bind_run, of_outcome_run.
  unfold rlp_scratch_length_add, rlp_scratch_length, SCRATCH_LIMIT in *. change (Z.shiftl 1 32 - 1) with (2 ^ 32 - 1).
  rewrite (proj2 (Z.leb_le _ _)), Uint_ok by lia. rewrite bind_run, of_outcome_run, <-El.
  fold (rlp_scratch_length). by rewrite Els.
Qed.

Lemma leaf_child_ref_ok k lv v st :
  path_wf k → arena_wf st → value_at_slice lv v st → room st (py_len (node_bytes (Leaf k v))) →
  gives (leaf_child_ref (path_of k) lv) st (node_ref (node_bytes (Leaf k v))).
Proof.
  intros Hk Hw Hv Hr. cbn [node_bytes] in *. fold (leaf_bytes k v) in *.
  assert (py_len (rlp_string v) <= SCRATCH_LIMIT) as Hlim.
  { pose proof (list_len_content (leaf_bytes k v)). pose proof (py_len_nonneg (arena st)).
    pose proof (py_len_nonneg (rlp_string (hex_prefix true k))).
    unfold leaf_bytes in *. rewrite py_len_app in *. unfold room in Hr. lia. }
  destruct lv as [s|s]; destruct Hv as [Hs <-]; apply leaf_ref_ok; try done.
  - by apply materialized_run; [apply Hs|].
  - intros st' A R. destruct (stable_slice_appends _ _ _ _ _ Hw Hs A) as [Hs' <-].
    apply (write_slice_ok st' RInput s (proj1 A) Hs'). by destruct (stable_slice_appends _ _ _ _ _ Hw Hs A) as [_ ->].
  - unfold rlp_scratch_scratch_slice_size, rlp_scratch_region_size.
    rewrite bind_run, materialized_run by (done || apply Hs). rewrite of_outcome_run. unfold rlp_scratch_length.
    by rewrite Uint_ok by apply py_len_nonneg.
  - intros st' A R. destruct (stable_slice_appends _ _ _ _ _ Hw Hs A) as [Hs' <-].
    apply (write_slice_ok st' RScratch s (proj1 A) Hs'). by destruct (stable_slice_appends _ _ _ _ _ Hw Hs A) as [_ ->].
Qed.

Lemma extension_child_ref_ok k t st :
  path_wf k → node_bytes t ≠ [] → arena_wf st → room st (py_len (node_bytes (Extension k t))) →
  gives (extension_child_ref (path_of k) (node_ref (node_bytes t))) st (node_ref (node_bytes (Extension k t))).
Proof.
  intros Hk Hne Hw Hr. cbn [node_bytes] in *.
  set (content := rlp_string (hex_prefix false k) ++ ref_bytes (node_bytes t)) in *.
  pose proof (py_len_nonneg (arena st)). pose proof (list_len_content content).
  assert (py_len (rlp_list content) <= SCRATCH_LIMIT) as Hlim by (unfold room in Hr; lia).
  destruct (scratch_list_size_ok _ Hlim) as [_ Els].
  assert (py_len content = py_len (rlp_string (hex_prefix false k)) + py_len (ref_bytes (node_bytes t))) as El
    by (unfold content; by rewrite py_len_app).
  pose proof (py_len_nonneg (rlp_string (hex_prefix false k))). pose proof (py_len_nonneg (ref_bytes (node_bytes t))).
  destruct (written_ok st content (rlp_write_hex_prefix (path_of k) false;; rlp_write_node_ref (node_ref (node_bytes t))) Hw Hr)
    as (st' & E & A).
  { intros st1 A1 R1. rewrite El in R1. unfold content at 1.
    apply (writes_bind _ _ _ _ _ tt).
    - apply write_hex_ok; [done|apply A1|unfold room in *; lia].
    - intros st2 A2. apply write_node_ref_ok; [done|apply A2|]. by apply (appends_room _ _ _ _ A2). }
  exists st'. split; [|done]. unfold extension_child_ref.
  rewrite bind_run, of_outcome_run, hex_size_ok by done.
  rewrite bind_run, of_outcome_run, node_ref_size_ok by done. cbv zeta. rewrite <-El.
  by rewrite bind_run, of_outcome_run, Els.
Qed.

(** ** Branches *)

Definition branch_bytes (kids : list trie) : bytes :=
  List.concat (map (λ c, ref_bytes (node_bytes c)) kids).

(** The mask and the references, from the index [j] on, are those of [kids]. *)
Definition refs_from (mask : Z) (refs : list NodeRef) (j : nat) (kids : list trie) : Prop :=
  ∀ i t, kids !! i = Some t →
    branch_mask_has mask (Z.of_nat (j + i)) = negb (bool_decide (node_bytes t = [])) ∧
    (node_bytes t ≠ [] → refs !! (j + i)%nat = Some (node_ref (node_bytes t))).

Lemma refs_from_cons mask refs j t kids :
  refs_from mask refs j (t :: kids) →
  (branch_mask_has mask (Z.of_nat j) = negb (bool_decide (node_bytes t = [])) ∧
   (node_bytes t ≠ [] → refs !! j = Some (node_ref (node_bytes t)))) ∧
  refs_from mask refs (S j) kids.
Proof.
  intros Hk. split.
  - specialize (Hk 0%nat t eq_refl). by rewrite Nat.add_0_r in Hk.
  - intros i t' Hi. specialize (Hk (S i) t' Hi). by rewrite Nat.add_succ_r in Hk.
Qed.

Lemma branch_bytes_len kids : py_len (branch_bytes kids) <= 33 * Z.of_nat (length kids).
Proof.
  unfold branch_bytes. induction kids as [|t kids IH]; [done|]. cbn [map List.concat length]. rewrite py_len_app.
  assert (py_len (ref_bytes (node_bytes t)) <= 33); [|lia].
  destruct (decide (node_bytes t = [])) as [->|Hne]; [done|]. by pose proof (ref_bytes_len _ Hne); lia.
Qed.

Lemma seqZ_first j n : (0 < n)%nat → seqZ (Z.of_nat j) (Z.of_nat n) = Z.of_nat j :: seqZ (Z.of_nat (S j)) (Z.of_nat (n - 1)).
Proof. intros Hn. rewrite seqZ_cons by lia. do 2 f_equal; lia. Qed.

Lemma branch_length_ok mask refs kids : ∀ j acc,
  refs_from mask refs j kids → (j + length kids <= length refs)%nat →
  0 <= acc → acc + 33 * Z.of_nat (length kids) <= 529 →
  branch_length mask (rev refs) (seqZ (Z.of_nat j) (Z.of_nat (length kids))) acc =
    Ok (acc + py_len (branch_bytes kids)).
Proof.
  unfold branch_bytes. induction kids as [|t kids IH]; intros j acc Hk Hl Ha Hm; [by rewrite Z.add_0_r|].
  apply refs_from_cons in Hk as [[Hmask Href] Hk]. cbn [length] in *.
  rewrite seqZ_first by lia. replace (S (length kids) - 1)%nat with (length kids) by lia.
  cbn [branch_length map List.concat]. unfold child_present. unfold branch_mask_has in Hmask. rewrite Hmask.
  assert (∀ n, 0 <= n <= 33 → ∀ X, (o ← Ok n; v ← branch_content_length_add acc o; v ← branch_content_length v; X v) = (X (acc + n) : outcome Z)) as Hstep.
  { intros n Hn X. rewrite bind_value. unfold branch_content_length_add, branch_content_length.
    rewrite (proj2 (Z.leb_le _ _)), bind_value, BoundedUint_ok, bind_value, BoundedUint_ok by lia. done. }
  rewrite py_len_app. destruct (decide (node_bytes t = [])) as [En|Hne].
  - rewrite bool_decide_true by done. cbn [negb]. rewrite Hstep, IH by (done || lia). rewrite En.
    change (py_len (ref_bytes [])) with 1. f_equal. lia.
  - rewrite bool_decide_false by done. cbn [negb].
    rewrite (rev_access _ _ _ (Href Hne)), bind_value, node_ref_size_ok by done.
    pose proof (ref_bytes_len _ Hne). rewrite Hstep, IH by (done || lia). f_equal. lia.
Qed.

Lemma branch_write_ok mask refs kids : ∀ j st,
  refs_from mask refs j kids → arena_wf st → room st (py_len (branch_bytes kids)) →
  writes (for_each (λ i,
       if child_present mask i
       then r ← of_outcome (sail_vector_access (rev refs) i false); rlp_write_node_ref r
       else scratch_push_byte 0x80) (seqZ (Z.of_nat j) (Z.of_nat (length kids)))) st (branch_bytes kids) tt.
Proof.
  unfold branch_bytes. induction kids as [|t kids IH]; intros j st Hk Hw Hr; [by apply writes_ret|].
  apply refs_from_cons in Hk as [[Hmask Href] Hk]. cbn [length].
  rewrite seqZ_first by lia. replace (S (length kids) - 1)%nat with (length kids) by lia.
  cbn [for_each map List.concat] in *. rewrite py_len_app in Hr.
  pose proof (py_len_nonneg (List.concat (map (λ c, ref_bytes (node_bytes c)) kids))).
  pose proof (py_len_nonneg (ref_bytes (node_bytes t))).
  apply (writes_bind _ _ _ _ _ tt).
  - unfold child_present. unfold branch_mask_has in Hmask. rewrite Hmask.
    destruct (decide (node_bytes t = [])) as [En|Hne].
    + rewrite bool_decide_true, En in * by done. cbn [negb].
      change (ref_bytes []) with [byte_wrap 0x80] in *. change (py_len [byte_wrap 0x80]) with 1 in *.
      apply push_byte_ok; [done|lia|unfold room in *; lia].
    + rewrite bool_decide_false by done. cbn [negb]. unfold writes.
      rewrite bind_run, of_outcome_run, (rev_access _ _ _ (Href Hne)).
      apply write_node_ref_ok; [done..|unfold room in *; lia].
  - intros st' Ha. apply IH; [done|apply Ha|]. by apply (appends_room _ _ _ _ Ha).
Qed.

Lemma branch_child_ref_ok mask refs kids st :
  length kids = 16%nat → length refs = 16%nat → refs_from mask refs 0 kids →
  arena_wf st → room st (py_len (node_bytes (Branch kids []))) →
  gives (branch_child_ref mask (rev refs)) st (node_ref (node_bytes (Branch kids []))).
Proof.
  intros Hk Hrefs Hfrom Hw Hr. cbn [node_bytes] in *. fold (branch_bytes kids) in *.
  change (rlp_string []) with [byte_wrap 0x80] in *.
  set (content := branch_bytes kids ++ [byte_wrap 0x80]) in *.
  pose proof (py_len_nonneg (arena st)). pose proof (list_len_content content).
  assert (py_len (rlp_list content) <= SCRATCH_LIMIT) as Hlim by (unfold room in Hr; lia).
  destruct (scratch_list_size_ok _ Hlim) as [Els _].
  assert (py_len content = 1 + py_len (branch_bytes kids)) as El
    by (unfold content; rewrite py_len_app; change (py_len [_]) with 1; lia).
  pose proof (branch_bytes_len kids) as Hb. rewrite Hk in Hb. pose proof (py_len_nonneg (branch_bytes kids)).
  pose proof (branch_length_ok mask refs kids 0 1 Hfrom ltac:(lia) ltac:(lia) ltac:(lia)) as Elen.
  rewrite Hk in Elen. change (seqZ (Z.of_nat 0) (Z.of_nat 16)) with (seqZ 0 16) in Elen.
  destruct (written_ok st content (for_each (λ i,
       if child_present mask i
       then r ← of_outcome (sail_vector_access (rev refs) i false); rlp_write_node_ref r
       else scratch_push_byte 0x80) (seqZ 0 16);; scratch_push_byte 0x80) Hw Hr) as (st' & E & A).
  { intros st1 A1 R1. rewrite El in R1. unfold content at 1. apply (writes_bind _ _ _ _ _ tt).
    - pose proof (branch_write_ok mask refs kids 0 st1 Hfrom (proj1 A1)) as W. rewrite Hk in W. apply W.
      unfold room in *. lia.
    - intros st2 A2. apply push_byte_ok; [apply A2|lia|]. apply (appends_room _ _ _ _ A2). unfold room in *. lia. }
  exists st'. split; [|done]. unfold branch_child_ref.
  assert (sail_range 0 15 1 true = Ok (seqZ 0 16)) as -> by reflexivity.
  rewrite bind_run, of_outcome_run, bind_run, of_outcome_run, Elen, <-El.
  unfold rlp_scratch_length_add, rlp_scratch_length. rewrite bind_run, of_outcome_run.
  change (Z.shiftl 1 32 - 1) with (2 ^ 32 - 1). unfold SCRATCH_LIMIT in Hlim.
  rewrite (proj2 (Z.leb_le _ _)), Uint_ok, Z.add_0_r by lia.
  rewrite bind_run, of_outcome_run, Els. exact E.
Qed.

(** ** The reference trie of some items *)

Definition items : Type := list (list Z * bytes).

(** The items under a nibble, their keys without it. *)
Definition below (n : Z) (l : items) : items :=
  omap (λ x : list Z * bytes,
    match x.1 with m :: k => if m =? n then Some (k, x.2) else None | [] => None end) l.

Definition is_null (t : trie) : bool := match t with Null => true | _ => false end.
(** A nibble before the path of a node. *)
Definition extend (n : Z) (t : trie) : trie :=
  match t with
  | Null => Null
  | Leaf k v => Leaf (n :: k) v
  | Extension p c => Extension (n :: p) c
  | Branch _ _ => Extension [n] t
  end.

Fixpoint present_from (j : Z) (kids : list trie) : list (Z * trie) :=
  match kids with
  | [] => []
  | t :: kids' => (if is_null t then [] else [(j, t)]) ++ present_from (j + 1) kids'
  end.

(** A branch has at least two children: one alone takes the nibble before its
    path. *)
Definition branch_of (kids : list trie) : trie :=
  match present_from 0 kids with
  | [] => Null
  | [(n, t)] => extend n t
  | _ => Branch kids []
  end.

(** The trie of items with different keys, none before another. *)
Fixpoint build (depth : nat) (l : items) : trie :=
  match l with
  | [] => Null
  | [(k, v)] => Leaf k v
  | _ =>
      match depth with
      | O => Null
      | S depth' => branch_of (map (λ n, build depth' (below n l)) (seqZ 0 16))
      end
  end.

Lemma below_app n l l' : below n (l ++ l') = below n l ++ below n l'.
Proof. apply omap_app. Qed.
Lemma below_cons_same n (us : items) : below n ((λ x, (n :: x.1, x.2)) <$> us) = us.
Proof.
  unfold below. induction us as [|[k v] us IH]; [done|]. cbn. rewrite Z.eqb_refl. by f_equal.
Qed.
Lemma below_other n m (us : items) : m ≠ n → below m ((λ x, (n :: x.1, x.2)) <$> us) = [].
Proof.
  intros Hne. unfold below. induction us as [|[k v] us IH]; [done|]. cbn. by rewrite (proj2 (Z.eqb_neq n m)).
Qed.
Lemma below_none n (l : items) : Forall (λ x, ∀ k, x.1 ≠ n :: k) l → below n l = [].
Proof.
  unfold below. induction 1 as [|[k v] l Hx _ IH]; [done|]. cbn.
  destruct k as [|m k]; [done|]. destruct (Z.eqb_spec m n) as [->|]; [by destruct (Hx k)|done].
Qed.

Lemma present_from_null j kids : Forall (λ t, is_null t = true) kids → present_from j kids = [].
Proof. intros Hk. revert j. induction Hk as [|t kids Ht _ IH]; intros j; cbn; [done|]. by rewrite Ht, IH. Qed.

Lemma present_insert kids : ∀ j i t,
  kids !! i = Some Null → is_null t = false →
  length (present_from j (<[i := t]> kids)) = S (length (present_from j kids)) ∧
  (j + Z.of_nat i, t) ∈ present_from j (<[i := t]> kids).
Proof.
  induction kids as [|t0 kids IH]; intros j i t Hi Ht; [done|]. destruct i as [|i].
  - injection Hi as ->. cbn [insert list_insert present_from is_null]. rewrite Ht. split; [done|].
    rewrite Z.add_0_r. apply list_elem_of_here.
  - destruct (IH (j + 1) i t Hi Ht) as [Hl Hin].
    change (<[S i := t]> (t0 :: kids)) with (t0 :: <[i := t]> kids). cbn [present_from].
    rewrite !length_app, Hl. split; [lia|]. apply elem_of_app. right.
    by replace (j + Z.of_nat (S i)) with (j + 1 + Z.of_nat i) by lia.
Qed.

(** *** Items in the order of their keys *)

Fixpoint key_lt (a b : list Z) : Prop :=
  match a, b with
  | x :: a', y :: b' => x < y ∨ (x = y ∧ key_lt a' b')
  | _, _ => False
  end.
Definition in_order (l : items) : Prop := StronglySorted (λ x y, key_lt x.1 y.1) l.

Lemma group_split (l : items) :
  in_order l → l ≠ [] → Forall (λ x, x.1 ≠ []) l →
  ∃ n us others, l = ((λ x, (n :: x.1, x.2)) <$> us) ++ others ∧ us ≠ [] ∧ in_order us ∧ in_order others ∧
    Forall (λ x, ∃ m k, x.1 = m :: k ∧ n < m) others.
Proof.
  intros Hs. induction Hs as [|[k v] l Hs IH Hlt]; [done|]. intros _ Hne.
  apply Forall_cons in Hne as [Hk Hne]. cbn in Hk. destruct k as [|n k]; [done|].
  destruct (decide (l = [])) as [->|Hl].
  { exists n, [(k, v)], []. split_and!; [done|done| |constructor|constructor]. by repeat constructor. }
  destruct (IH Hl Hne) as (n' & us & others & -> & Hus & Hsu & Hso & Ho).
  destruct us as [|[k1 v1] us]; [done|]. pose proof Hlt as Hlt'. apply Forall_cons in Hlt' as [Hh _].
  cbn in Hh. destruct Hh as [Hh|[-> Hh]].
  - exists n, [(k, v)], (((λ x, (n' :: x.1, x.2)) <$> (k1, v1) :: us) ++ others).
    split_and!; [done|done|by repeat constructor|done|]. apply Forall_app. split.
    + apply Forall_fmap, Forall_true. intros x. by exists n', x.1.
    + eapply Forall_impl; [exact Ho|]. intros x (m & k' & E & Hm). exists m, k'. split; [done|lia].
  - exists n', ((k, v) :: (k1, v1) :: us), others. split_and!; [done|done| |done|done].
    constructor; [done|]. apply Forall_forall. intros x Hx. rewrite Forall_forall in Hlt.
    destruct (Hlt (n' :: x.1, x.2)) as [Hlt1|[_ Hlt1]]; [|lia|exact Hlt1].
    apply elem_of_app. left. apply list_elem_of_fmap. by exists x.
Qed.

(** A key with nothing behind it is alone. *)
Lemma nonempty_keys (l : items) : in_order l → (∃ v, l = [([], v)]) ∨ Forall (λ x, x.1 ≠ []) l.
Proof.
  intros Hs. destruct Hs as [|[k v] l Hs Hlt]; [by right; constructor|].
  destruct l as [|[k' v'] l].
  - destruct k as [|n k]; [left; by exists v|]. right. by repeat constructor.
  - right. constructor.
    + apply Forall_cons in Hlt as [Hh _]. by destruct k.
    + eapply Forall_impl; [exact Hlt|]. intros [k2 v2]. cbn. by destruct k, k2.
Qed.

Lemma in_order_app_inv (l l' : items) : in_order (l ++ l') → in_order l'.
Proof. induction l as [|x l IH]; [done|]. cbn. intros [Hs _]%StronglySorted_inv. by apply IH. Qed.

(** *** What the reference trie holds *)

Lemma present_from_nth kids : ∀ j i t,
  (j + Z.of_nat i, t) ∈ present_from j kids ↔ kids !! i = Some t ∧ is_null t = false.
Proof.
  assert (∀ kids j n t, (n, t) ∈ present_from j kids → j <= n) as Hge.
  { induction kids0 as [|t0 kids0 IH]; intros j n t; cbn [present_from]; [by intros ?%elem_of_nil|].
    rewrite elem_of_app. intros [Hin|Hin].
    - destruct (is_null t0); [by apply elem_of_nil in Hin|]. apply list_elem_of_singleton in Hin. injection Hin as -> _. lia.
    - apply IH in Hin. lia. }
  induction kids as [|t0 kids IH]; intros j i t; cbn [present_from].
  { rewrite lookup_nil. split; [by intros ?%elem_of_nil|by intros []]. }
  rewrite elem_of_app. destruct i as [|i].
  - rewrite Z.add_0_r. change ((t0 :: kids) !! 0%nat) with (Some t0). split.
    + intros [Hin|Hin]; [|apply Hge in Hin; lia].
      destruct (is_null t0) eqn:En; [by apply elem_of_nil in Hin|].
      apply list_elem_of_singleton in Hin. by injection Hin as ->.
    + intros [[= ->] Ht]. left. rewrite Ht. by apply list_elem_of_singleton.
  - change ((t0 :: kids) !! S i) with (kids !! i). rewrite <-(IH (j + 1)).
    replace (j + 1 + Z.of_nat i) with (j + Z.of_nat (S i)) by lia. split; [|by right].
    intros [Hin|Hin]; [|done]. destruct (is_null t0); [by apply elem_of_nil in Hin|].
    apply list_elem_of_singleton in Hin. injection Hin as E _. lia.
Qed.

Lemma get_extend n t m k :
  trie_get (extend n t) (m :: k) = if bool_decide (m = n) then trie_get t k else [].
Proof.
  destruct t as [|p v|p c|kids v]; cbn [extend trie_get].
  - by case_bool_decide.
  - repeat case_bool_decide; simplify_eq; done.
  - destruct (bool_decide_reflect (n :: p `prefix_of` m :: k)) as [Hp|Hp]; cbn [length drop].
    + apply prefix_cons_inv_1 in Hp as Hn. apply prefix_cons_inv_2 in Hp. rewrite !bool_decide_true by done. done.
    + case_bool_decide as Hm; [|done]. rewrite bool_decide_false; [done|]. intros Hq. apply Hp. subst. by apply prefix_cons.
  - destruct (bool_decide_reflect ([n] `prefix_of` m :: k)) as [Hp|Hp]; cbn [length drop].
    + apply prefix_cons_inv_1 in Hp as Hn. by rewrite bool_decide_true.
    + rewrite bool_decide_false; [done|]. intros ->. apply Hp. apply prefix_cons, prefix_nil.
Qed.
Lemma get_extend_nil n t : trie_get (extend n t) [] = [].
Proof.
  destruct t; cbn [extend trie_get]; [done|..]; case_bool_decide as E; try done;
    by apply prefix_nil_inv in E.
Qed.

Lemma get_branch_of kids m t k :
  0 <= m → kids !! Z.to_nat m = Some t → trie_get (branch_of kids) (m :: k) = trie_get t k.
Proof.
  intros Hm Ht. unfold branch_of.
  pose proof (λ t, present_from_nth kids 0 (Z.to_nat m) t) as Hp. rewrite Z2Nat.id, Z.add_0_l in Hp by lia.
  assert (is_null t = true → trie_get t k = []) as Hnull by by destruct t.
  destruct (present_from 0 kids) as [|[n t'] [|x l]].
  - destruct (is_null t) eqn:En; [by rewrite Hnull|].
    assert ((m, t) ∈ @nil (Z * trie)) as Hin by by apply Hp. by apply elem_of_nil in Hin.
  - rewrite get_extend. case_bool_decide as E.
    + subst n. destruct (proj1 (Hp t') (proj2 (list_elem_of_singleton _ _) eq_refl)) as [Ht' _].
      rewrite Ht in Ht'. by injection Ht' as <-.
    + destruct (is_null t) eqn:En; [by rewrite Hnull|]. exfalso. apply E.
      assert ((m, t) ∈ [(n, t')]) as Hin by by apply Hp. apply list_elem_of_singleton in Hin. by injection Hin.
  - cbn [trie_get]. change (map (λ c, trie_get c k) kids) with ((λ c, trie_get c k) <$> kids).
    by rewrite nth_lookup, list_lookup_fmap, Ht.
Qed.
Lemma get_branch_of_nil kids : trie_get (branch_of kids) [] = [].
Proof. unfold branch_of. destruct (present_from 0 kids) as [|[n t] [|x l]]; [done|apply get_extend_nil|done]. Qed.

(** The nibbles of a node with all its keys behind a nibble. *)
Definition kids_of (depth : nat) (l : items) : list trie := map (λ n, build depth (below n l)) (seqZ 0 16).
Lemma kids_length depth l : length (kids_of depth l) = 16%nat.
Proof. unfold kids_of. by rewrite length_map, length_seqZ. Qed.
Lemma kids_lookup depth l n : is_nibble n → kids_of depth l !! Z.to_nat n = Some (build depth (below n l)).
Proof.
  intros Hn. unfold is_nibble in Hn. unfold kids_of.
  change (map ?f (seqZ 0 16)) with (f <$> seqZ 0 16). rewrite list_lookup_fmap, lookup_seqZ_lt by lia. cbn. do 3 f_equal. lia.
Qed.

Definition keys_ok (depth : nat) (l : items) : Prop := Forall (λ x, is_nibbles x.1 ∧ (length x.1 <= depth)%nat) l.

Lemma build_below depth l :
  keys_ok (S depth) l → Forall (λ x, x.1 ≠ []) l → l ≠ [] → build (S depth) l = branch_of (kids_of depth l).
Proof.
  intros Hk Hne Hl. destruct l as [|[k v] [|y l]]; [done| |done]. cbn [build].
  apply Forall_cons in Hk as [[Hnib _] _]. apply Forall_cons in Hne as [Hne _]. cbn in Hnib, Hne.
  destruct k as [|n k]; [done|]. apply Forall_cons in Hnib as [Hn _]. unfold is_nibble in Hn.
  assert (kids_of depth [(n :: k, v)] = <[Z.to_nat n := Leaf k v]> (replicate 16 Null)) as ->.
  { apply list_eq. intros i. destruct (decide (i < 16)%nat) as [Hi|Hi].
    2: { rewrite !lookup_ge_None_2; [done|rewrite length_insert; cbn; lia|rewrite kids_length; lia]. }
    rewrite <-(Nat2Z.id i), kids_lookup by (unfold is_nibble; lia). rewrite Nat2Z.id.
    assert (below (Z.of_nat i) [(n :: k, v)] = if n =? Z.of_nat i then [(k, v)] else []) as ->
      by (unfold below; cbn; by destruct (_ =? _)).
    destruct (Z.eqb_spec n (Z.of_nat i)) as [->|Hni].
    - rewrite Nat2Z.id, list_lookup_insert_eq by (rewrite length_replicate; lia). by destruct depth.
    - rewrite list_lookup_insert_ne by lia. rewrite lookup_replicate_2 by lia. by destruct depth. }
  destruct (present_insert (replicate 16 Null) 0 (Z.to_nat n) (Leaf k v)) as [Hlen Hin];
    [by apply lookup_replicate_2; lia|done|].
  rewrite (present_from_null 0 (replicate 16 Null)) in Hlen by by apply Forall_replicate.
  unfold branch_of. destruct (present_from 0 _) as [|x [|? ?]]; [done| |done].
  apply list_elem_of_singleton in Hin as <-. cbn. f_equal. f_equal. lia.
Qed.

Lemma below_keys_ok depth n l : keys_ok (S depth) l → keys_ok depth (below n l).
Proof.
  unfold keys_ok, below. induction 1 as [|[k v] l [Hn Hl] _ IH]; [constructor|]. cbn in *.
  destruct k as [|m k]; [done|]. destruct (m =? n); [|done]. constructor; [|done]. cbn in *.
  apply Forall_cons in Hn as [_ Hn]. split; [done|lia].
Qed.

Lemma below_elem n k v (l : items) : (k, v) ∈ below n l ↔ (n :: k, v) ∈ l.
Proof.
  unfold below. rewrite list_elem_of_omap. split.
  - intros ([k' v'] & Hin & E). cbn in E. destruct k' as [|m k']; [done|].
    destruct (Z.eqb_spec m n) as [->|]; [|done]. by injection E as -> ->.
  - intros Hin. exists (n :: k, v). split; [done|]. cbn. by rewrite Z.eqb_refl.
Qed.

Lemma below_in_order n l : in_order l → in_order (below n l).
Proof.
  unfold in_order, below. induction 1 as [|[k v] l Hs IH Hlt]; [constructor|]. cbn.
  destruct k as [|m k]; [done|]. destruct (Z.eqb_spec m n) as [->|]; [|done]. constructor; [done|].
  apply Forall_forall. intros [k' v'] Hin. apply (below_elem n k' v' l) in Hin. rewrite Forall_forall in Hlt.
  destruct (Hlt _ Hin) as [Hlt1|[_ Hlt1]]; [cbn in Hlt1; lia|exact Hlt1].
Qed.

Lemma build_get_single depth v0 k :
  (∀ v, (k, v) ∈ [([], v0)] → trie_get (build depth [([], v0)]) k = v) ∧
  ((∀ v, (k, v) ∉ [([], v0)]) → trie_get (build depth [([], v0)]) k = []).
Proof.
  assert (build depth [([], v0)] = Leaf [] v0) as -> by by destruct depth. cbn [trie_get].
  split.
  - intros v Hin. apply list_elem_of_singleton in Hin. injection Hin as -> ->. done.
  - intros Hin. case_bool_decide as E; [|done]. subst. destruct (Hin v0). by apply list_elem_of_singleton.
Qed.

(** The value under each key, and nothing anywhere else. *)
Lemma build_get depth : ∀ l k,
  in_order l → keys_ok depth l → is_nibbles k →
  (∀ v, (k, v) ∈ l → trie_get (build depth l) k = v) ∧
  ((∀ v, (k, v) ∉ l) → trie_get (build depth l) k = []).
Proof.
  induction depth as [|depth IH]; intros l k Hs Hk Hnib.
  all: destruct (nonempty_keys l Hs) as [[v0 ->]|Hne]; [apply build_get_single|].
  - assert (l = []) as ->.
    { destruct l as [|[k1 v1] l]; [done|]. apply Forall_cons in Hk as [[_ Hk] _]. apply Forall_cons in Hne as [Hne _].
      destruct k1; cbn in *; [done|lia]. }
    split; [by intros v Hin%elem_of_nil|done].
  - destruct (decide (l = [])) as [->|Hl]; [split; [by intros v Hin%elem_of_nil|done]|].
    rewrite build_below by done. destruct k as [|n k].
    + rewrite get_branch_of_nil. split; [|done]. intros v Hin. rewrite Forall_forall in Hne. by destruct (Hne _ Hin).
    + apply Forall_cons in Hnib as [Hn Hnib]. pose proof Hn as Hn'. unfold is_nibble in Hn'.
      rewrite (get_branch_of (kids_of depth l) n _ k (proj1 Hn') (kids_lookup depth l n Hn)).
      destruct (IH (below n l) k) as [I1 I2]; [by apply below_in_order|by apply below_keys_ok|done|].
      split; [intros v Hin; apply I1; by apply below_elem|]. intros Hno. apply I2. intros v Hin%below_elem. by apply (Hno v).
Qed.

Lemma build_perm depth : ∀ l l', l ≡ₚ l' → build depth l = build depth l'.
Proof.
  induction depth as [|depth IH]; intros l l' Hp; pose proof (Permutation_length Hp) as Hlen;
    destruct l as [|[k v] [|y l]], l' as [|[k' v'] [|y' l']]; try done;
    try (apply Permutation_singleton_inj in Hp; by injection Hp as -> ->).
  cbn [build]. f_equal. apply map_ext. intros n. apply IH. unfold below. by rewrite Hp.
Qed.

(** ** The items the codec builds *)

Section items_built.
Context (N : Z) (HN : 700 <= N).

(** A value long enough that a branch over two of them is not inline, and
    short enough for the arena. *)
Definition fits (v : bytes) : Prop := 7 <= py_len v ∧ py_len v + 100 <= N.

Definition is_branch (t : trie) : bool := match t with Branch _ _ => true | _ => false end.

(** The item of a node below a prefix: a leaf by its whole key and its slice,
    a branch by its place and its digest. *)
Definition item_of (P : list Z) (t : trie) (it : TrieItem) (st : SpecState) : Prop :=
  match t with
  | Null => False
  | Leaf k v => path_wf (P ++ k) ∧ fits v ∧ ∃ lv, it = trie_leaf (path_of (P ++ k)) lv ∧ value_at_slice lv v st
  | Extension p c =>
      path_wf (P ++ p) ∧ p ≠ [] ∧ is_branch c = true ∧ 32 <= py_len (node_bytes c) ∧
      it = trie_branch (path_of (P ++ p)) (node_ref (node_bytes c))
  | Branch kids v =>
      path_wf P ∧ 32 <= py_len (node_bytes t) ∧ length kids = 16%nat ∧ v = [] ∧
      it = trie_branch (path_of P) (node_ref (node_bytes t))
  end.

Lemma item_of_appends P t it p st st' :
  arena_wf st → item_of P t it st → appends p st st' → item_of P t it st'.
Proof.
  intros Hw Hit Ha. destruct t; try done. destruct Hit as (Hp & Hf & lv & -> & Hv).
  split; [done|]. split; [done|]. exists lv. split; [done|]. by eapply value_appends.
Qed.

(** A child alone is the item of its parent. *)
Lemma item_of_extend P n t it st :
  path_wf (P ++ [n]) → item_of (P ++ [n]) t it st → item_of P (extend n t) it st.
Proof.
  intros HP. destruct t as [|k v|p c|kids v]; cbn [extend item_of]; [done|..].
  - by rewrite <-app_assoc.
  - rewrite <-app_assoc. intros (H1 & H2 & H3). by split.
  - intros (_ & Hl & _ & _ & ->). by split_and!.
Qed.

Lemma path_wf_app_l (P Q : list Z) : path_wf (P ++ Q) → path_wf P.
Proof. unfold path_wf, is_nibbles. rewrite Forall_app, length_app. intros [[? _] ?]. split; [done|lia]. Qed.
Lemma path_wf_app_r (P Q : list Z) : path_wf (P ++ Q) → path_wf Q.
Proof. unfold path_wf, is_nibbles. rewrite Forall_app, length_app. intros [[_ ?] ?]. split; [done|lia]. Qed.

(** *** Sizes of nodes *)

Lemma hex_len leaf k : path_wf k → 1 <= py_len (hex_prefix leaf k) <= 33.
Proof.
  intros [_ Hl]. rewrite hex_prefix_length.
  assert (0 <= Z.of_nat (length k) / 2) by (apply Z.div_pos; lia).
  assert (Z.of_nat (length k) / 2 <= 32) by (apply Z.div_le_upper_bound; lia). lia.
Qed.

Lemma string_len p : py_len p < 2 ^ 32 → py_len p <= py_len (rlp_string p) <= py_len p + 5.
Proof.
  intros Hp. unfold rlp_string. destruct (self_encoding p); [lia|].
  rewrite py_len_app, rlp_prefix_len. pose proof (byte_len_nonneg (py_len p)). pose proof (py_len_nonneg p).
  assert (byte_len (py_len p) <= 4) by (apply byte_len_le; [lia|done|change (256 ^ 4) with (2 ^ 32); lia]).
  destruct (_ <=? 55); lia.
Qed.
Lemma list_len p : py_len p < 2 ^ 32 → py_len p + 1 <= py_len (rlp_list p) <= py_len p + 5.
Proof.
  intros Hp. unfold rlp_list. rewrite py_len_app, rlp_prefix_len. pose proof (byte_len_nonneg (py_len p)). pose proof (py_len_nonneg p).
  assert (byte_len (py_len p) <= 4) by (apply byte_len_le; [lia|done|change (256 ^ 4) with (2 ^ 32); lia]).
  destruct (_ <=? 55); lia.
Qed.

Lemma item_sizes P t it st :
  N <= SCRATCH_LIMIT → item_of P t it st →
  9 <= py_len (node_bytes t) <= N ∧ 9 <= py_len (ref_bytes (node_bytes t)).
Proof using HN.
  unfold SCRATCH_LIMIT. intros HL Hit.
  assert (9 <= py_len (node_bytes t) <= N) as Hn.
  { destruct t as [|k v|p c|kids v]; [done|..].
    - destruct Hit as (Hp & [Hf1 Hf2] & _). apply path_wf_app_r in Hp. pose proof (hex_len true k Hp).
      pose proof (string_len (hex_prefix true k) ltac:(lia)). pose proof (string_len v ltac:(lia)).
      cbn [node_bytes]. pose proof (list_len (rlp_string (hex_prefix true k) ++ rlp_string v)) as Hl.
      rewrite py_len_app in Hl. specialize (Hl ltac:(lia)). lia.
    - destruct Hit as (Hp & _ & _ & Hc & _). apply path_wf_app_r in Hp. pose proof (hex_len false p Hp).
      pose proof (string_len (hex_prefix false p) ltac:(lia)).
      assert (node_bytes c ≠ []) as Hne by (by intros E; rewrite E in Hc).
      pose proof (ref_bytes_len _ Hne) as Hr.
      assert (32 <= py_len (ref_bytes (node_bytes c))).
      { unfold ref_bytes in *. rewrite bool_decide_false in * by done.
        destruct (Z.ltb_spec (py_len (node_bytes c)) 32); [lia|].
        assert (py_len (_keccak (node_bytes c)) = 32) as Hk by (unfold py_len; by rewrite _keccak_length).
        rewrite short_string_len; lia. }
      cbn [node_bytes]. pose proof (list_len (rlp_string (hex_prefix false p) ++ ref_bytes (node_bytes c))) as Hl.
      rewrite py_len_app in Hl. specialize (Hl ltac:(lia)). lia.
    - destruct Hit as (_ & Hl & Hk & -> & _). split; [lia|]. cbn [node_bytes]. fold (branch_bytes kids).
      pose proof (branch_bytes_len kids) as Hb. rewrite Hk in Hb. pose proof (list_len (branch_bytes kids ++ rlp_string [])) as Hll.
      rewrite py_len_app in Hll. change (py_len (rlp_string [])) with 1 in Hll. specialize (Hll ltac:(lia)). lia. }
  split; [done|]. unfold ref_bytes. rewrite bool_decide_false by (intros E; rewrite E in Hn; change (py_len []) with 0 in Hn; lia).
  destruct (_ <? 32); [lia|].
  assert (py_len (_keccak (node_bytes t)) = 32) as Hk by (unfold py_len; by rewrite _keccak_length).
  rewrite short_string_len; lia.
Qed.

Lemma item_nonempty P t it st : item_of P t it st → node_bytes t ≠ [] ∧ is_null t = false.
Proof. intros Hit. destruct t; try done; split; try done; apply list_nonempty. Qed.

(** *** The reference to a child *)

Lemma child_ref_ok P t it st :
  N <= SCRATCH_LIMIT → item_of P t it st → arena_wf st → room st N →
  gives (trie_child_ref it (Z.of_nat (length P))) st (node_ref (node_bytes t)).
Proof using HN.
  intros HL Hit Hw Hr. destruct (item_sizes _ _ _ _ HL Hit) as [Hn _].
  assert (room st (py_len (node_bytes t))) as Hr' by (unfold room in *; lia).
  assert (∀ Q, drop (length P) (P ++ Q) = Q) as Hdrop by (intros Q; by apply drop_app_length).
  unfold gives, writes, trie_child_ref. destruct t as [|k v|p c|kids v]; [done|..].
  - destruct Hit as (Hp & _ & lv & -> & Hv). cbn [trie_leaf ti_path ti_value].
    rewrite bind_run, of_outcome_run, path_drop_ok, Nat2Z.id, Hdrop by (done || lia).
    apply path_wf_app_r in Hp. rewrite bind_run, of_outcome_run, path_len_ok by done.
    by apply leaf_child_ref_ok.
  - destruct Hit as (Hp & Hne & Hb & Hc & ->). cbn [trie_branch ti_path ti_value].
    rewrite bind_run, of_outcome_run, path_drop_ok, Nat2Z.id, Hdrop by (done || lia).
    apply path_wf_app_r in Hp. rewrite bind_run, of_outcome_run, path_len_ok by done.
    assert ((Z.of_nat (length p) =? 0) = false) as El by (destruct p; [done|apply Z.eqb_neq; cbn; lia]). rewrite El.
    unfold merge_ext_ref. rewrite bind_run, of_outcome_run, path_len_ok, El by done.
    assert (node_ref (node_bytes c) = HashRef (digest_of (node_bytes c))) as Eref
      by (unfold node_ref; by rewrite (proj2 (Z.ltb_ge _ _)) by lia).
    assert (node_bytes c ≠ []) as Hne' by (by intros E; rewrite E in Hc).
    rewrite Eref, <-Eref. by apply extension_child_ref_ok.
  - destruct Hit as (Hp & _ & _ & _ & ->). cbn [trie_branch ti_path ti_value].
    rewrite bind_run, of_outcome_run, path_drop_ok, Nat2Z.id by (done || lia).
    rewrite drop_all. rewrite bind_run, of_outcome_run, path_len_ok by by repeat constructor.
    change (Z.of_nat (length []) =? 0) with true. cbv iota. exists st. split; [done|]. by apply appends_refl.
Qed.


(** *** The children of a prefix *)

Lemma mask_for_bit n : is_nibble n → branch_mask_for n = 2 ^ n.
Proof.
  intros Hn. unfold is_nibble in Hn. unfold branch_mask_for.
  assert (Forall (λ k, Z.land (Z.shiftl 1 k) 0xffff = 2 ^ k) (seqZ 0 16)) as Hall by (by repeat constructor).
  rewrite Forall_forall in Hall. apply Hall. apply elem_of_seqZ. lia.
Qed.
Lemma mask_has_bit mask n : is_nibble n → branch_mask_has mask n = Z.testbit mask n.
Proof.
  intros Hn. unfold branch_mask_has. rewrite mask_for_bit by done. unfold is_nibble in Hn.
  assert (Z.land mask (2 ^ n) = if Z.testbit mask n then 2 ^ n else 0) as ->.
  { apply Z.bits_inj'. intros i Hi. rewrite Z.land_spec, Z.pow2_bits_eqb by lia.
    destruct (Z.eqb_spec n i) as [->|Hne].
    - destruct (Z.testbit mask i); [by rewrite Z.pow2_bits_true by lia|by rewrite Z.bits_0].
    - rewrite andb_false_r. destruct (Z.testbit mask n); [|by rewrite Z.bits_0].
      by rewrite Z.pow2_bits_false by lia. }
  destruct (Z.testbit mask n); [|done]. assert (0 < 2 ^ n) by (apply Z.pow_pos_nonneg; lia).
  by rewrite (proj2 (Z.eqb_neq _ _)) by lia.
Qed.
Lemma mask_has_set mask n i :
  is_nibble n → is_nibble i →
  branch_mask_has (branch_mask_set mask n) i = branch_mask_has mask i || (n =? i).
Proof.
  intros Hn Hi. rewrite !mask_has_bit by done. unfold branch_mask_set. rewrite mask_for_bit by done.
  unfold is_nibble in *. by rewrite Z.lor_spec, Z.pow2_bits_eqb by lia.
Qed.

(** What the accumulated children are. *)
Record children_ok (P : list Z) (c : TrieChildren) (kids : list trie) (st : SpecState) : Prop := {
  co_kids : length kids = 16%nat;
  co_refs : ∃ refs, c.(children) = rev refs ∧ length refs = 16%nat ∧ refs_from c.(mask) refs 0 kids;
  co_count : c.(count) = Z.of_nat (length (present_from 0 kids));
  co_long : ∀ i t, kids !! i = Some t → is_null t = false → 9 <= py_len (ref_bytes (node_bytes t));
  co_null : ∀ i t, kids !! i = Some t → is_null t = true ↔ node_bytes t = [];
  co_only : 0 < c.(count) →
    ∃ n t, is_nibble n ∧ (n, t) ∈ present_from 0 kids ∧ item_of (P ++ [n]) t c.(only) st;
}.

Lemma children_appends P c kids p st st' :
  arena_wf st → children_ok P c kids st → appends p st st' → children_ok P c kids st'.
Proof.
  intros Hw [H1 H2 H3 H4 H5 H6] Ha. split; try done.
  intros Hc. destruct (H6 Hc) as (n & t & Hn & Hin & Hit). exists n, t. split_and!; [done..|].
  by eapply item_of_appends.
Qed.

Lemma children_empty_ok P st :
  ∃ c, trie_children_empty = Ok c ∧ children_ok P c (replicate 16 Null) st.
Proof.
  eexists. split; [reflexivity|]. split.
  - done.
  - exists (replicate 16 EmptyRef). split; [done|]. split; [done|].
    intros i t [-> Hi]%lookup_replicate. split; [|by intros []]. cbn [mask].
    rewrite mask_has_bit by (unfold is_nibble; lia). by rewrite Z.bits_0.
  - done.
  - by intros i t [-> _]%lookup_replicate.
  - by intros i t [-> _]%lookup_replicate.
  - cbn. lia.
Qed.

Lemma present_length ks : ∀ j, (length (present_from j ks) <= length ks)%nat.
Proof.
  induction ks as [|x ks IH]; intros j; cbn; [lia|]. rewrite length_app. specialize (IH (j + 1)).
  destruct (is_null x); cbn; lia.
Qed.

(** An item lies under the prefix it was built for. *)
Lemma item_under P t it st :
  path_wf P → item_of P t it st → path_prefix_of (path_of P) it.(ti_path) = Ok true.
Proof.
  intros HP Hit. unfold path_prefix_of. destruct t as [|k v|p x|ks v]; [done|..].
  - destruct Hit as (Hp & _ & lv & -> & _). cbn [trie_leaf ti_path]. rewrite path_matches_ok by done.
    rewrite bool_decide_true; [done|]. split; [lia|]. cbn. by apply prefix_app_r.
  - destruct Hit as (Hp & _ & _ & _ & ->). cbn [trie_branch ti_path]. rewrite path_matches_ok by done.
    rewrite bool_decide_true; [done|]. split; [lia|]. cbn. by apply prefix_app_r.
  - destruct Hit as (Hp & _ & _ & _ & ->). cbn [trie_branch ti_path]. rewrite path_matches_ok by done.
    rewrite bool_decide_true; [done|]. by split; [lia|].
Qed.

(** The slot of a child that was not there takes its reference. *)
Lemma refs_insert mask refs kids n t :
  is_nibble n → length refs = 16%nat → length kids = 16%nat → node_bytes t ≠ [] →
  refs_from mask refs 0 kids →
  refs_from (branch_mask_set mask n) (<[Z.to_nat n := node_ref (node_bytes t)]> refs) 0 (<[Z.to_nat n := t]> kids).
Proof.
  intros Hn Hr Hk Hne Hfrom i u Hi. pose proof Hn as Hn'. unfold is_nibble in Hn'.
  cbn [Nat.add]. pose proof (lookup_lt_Some _ _ _ Hi) as Hil. rewrite length_insert in Hil.
  rewrite mask_has_set by (done || unfold is_nibble; lia).
  destruct (decide (i = Z.to_nat n)) as [->|Hine].
  - rewrite list_lookup_insert_eq in Hi by lia. injection Hi as <-. rewrite Z2Nat.id, Z.eqb_refl, orb_true_r by lia.
    rewrite bool_decide_false by done. split; [done|]. intros _. by rewrite list_lookup_insert_eq by lia.
  - rewrite list_lookup_insert_ne in Hi by done. rewrite list_lookup_insert_ne by done.
    destruct (Hfrom _ _ Hi) as [Em Er]. cbn [Nat.add] in *.
    rewrite Em, (proj2 (Z.eqb_neq _ _)), orb_false_r by lia. by split.
Qed.

Lemma children_insert_ok P n t it c kids refs st st' :
  arena_wf st → is_nibble n → children_ok P c kids st → kids !! Z.to_nat n = Some Null →
  c.(children) = rev refs → length refs = 16%nat → refs_from c.(mask) refs 0 kids →
  9 <= py_len (ref_bytes (node_bytes t)) → node_bytes t ≠ [] → is_null t = false →
  item_of (P ++ [n]) t it st → appends [] st st' →
  children_ok P (mkTrieChildren (branch_mask_set c.(mask) n) (rev (<[Z.to_nat n := node_ref (node_bytes t)]> refs)) it
    (c.(count) + 1)) (<[Z.to_nat n := t]> kids) st'.
Proof.
  intros Hw Hn [Hk _ Hcount Hlong Hnulls _] Hnull Erefs Hlr Hfrom Hsize Hne Hnn Hit Ha.
  pose proof Hn as Hn'. unfold is_nibble in Hn'.
  destruct (present_insert kids 0 (Z.to_nat n) t Hnull Hnn) as [Hins Hin]. rewrite Z2Nat.id, Z.add_0_l in Hin by lia.
  split; cbn [mask children only count].
  - by rewrite length_insert.
  - exists (<[Z.to_nat n := node_ref (node_bytes t)]> refs). split; [done|]. rewrite length_insert. split; [done|].
    by apply refs_insert.
  - rewrite Hins, Hcount. lia.
  - intros i u Hi Hu. destruct (decide (i = Z.to_nat n)) as [->|Hine].
    + rewrite list_lookup_insert_eq in Hi by lia. by injection Hi as <-.
    + rewrite list_lookup_insert_ne in Hi by done. by eapply Hlong.
  - intros i u Hi. destruct (decide (i = Z.to_nat n)) as [->|Hine].
    + rewrite list_lookup_insert_eq in Hi by lia. injection Hi as <-. by rewrite Hnn.
    + rewrite list_lookup_insert_ne in Hi by done. by eapply Hnulls.
  - intros _. exists n, t. split_and!; [done..|]. by eapply item_of_appends.
Qed.

Lemma children_add_ok P n t it c kids st :
  N <= SCRATCH_LIMIT → path_wf (P ++ [n]) → is_nibble n → children_ok P c kids st → kids !! Z.to_nat n = Some Null →
  item_of (P ++ [n]) t it st → arena_wf st → room st N →
  ∃ c' st', trie_children_add c (path_of P) n it st = (Ok c', st') ∧ appends [] st st' ∧
    children_ok P c' (<[Z.to_nat n := t]> kids) st'.
Proof using HN.
  intros HL HPn Hn Hok Hnull Hit Hw Hr. pose proof Hok as [Hk (refs & Erefs & Hlr & Hfrom) Hcount _ _ _].
  destruct (child_ref_ok _ _ _ _ HL Hit Hw Hr) as (st' & Eref & Ha).
  destruct (item_nonempty _ _ _ _ Hit) as [Hne Hnn]. destruct (item_sizes _ _ _ _ HL Hit) as [_ Hsize].
  pose proof (path_wf_app_l _ _ HPn) as HP. pose proof HPn as [_ HPl]. rewrite length_app in HPl. cbn [length] in HPl.
  pose proof Hn as Hn'. unfold is_nibble in Hn'.
  assert (length (present_from 0 kids) < 16)%nat as Hlt.
  { destruct (present_insert kids 0 (Z.to_nat n) t Hnull Hnn) as [Hins _].
    pose proof (present_length (<[Z.to_nat n:=t]> kids) 0) as Hl2. rewrite length_insert in Hl2. lia. }
  assert (branch_mask_has c.(mask) n = false) as Emask.
  { destruct (Hfrom _ _ Hnull) as [Em _]. cbn [Nat.add] in Em. rewrite Z2Nat.id in Em by lia. by rewrite Em. }
  eexists _, st'. split; [|split; [done|by eapply children_insert_ok]].
  unfold trie_children_add.
  assert (∀ (X Y : M SpecState TrieChildren), match it.(ti_value) with EmptySubtree => X | _ => Y end = Y) as Esel.
  { intros X Y. destruct t; [done|..]; [destruct Hit as (_ & _ & lv & -> & _)|destruct Hit as (_ & _ & _ & _ & ->)..]; done. }
  rewrite Esel. rewrite bind_run, of_outcome_run, path_len_ok by done.
  rewrite bind_run, of_outcome_run, (proj2 (Z.ltb_lt _ _)) by lia.
  rewrite bind_run, of_outcome_run, (proj2 (Z.ltb_lt _ _)) by lia.
  rewrite bind_run, of_outcome_run, path_single_ok by done.
  assert (path_wf [n]) as Hwn by (split; [by constructor|cbn; lia]).
  rewrite bind_run, of_outcome_run, path_concat_ok by done.
  rewrite decide_True by (rewrite length_app; cbn; lia).
  rewrite bind_run, of_outcome_run, (item_under _ _ _ _ HPn Hit), Emask.
  rewrite bind_run. change (fatal_when (negb true) st) with (Ok tt, st). cbv iota beta.
  rewrite bind_run. change (fatal_when false st) with (Ok tt, st). cbv iota beta.
  replace (Z.of_nat (length P) + 1) with (Z.of_nat (length (P ++ [n]))) by (rewrite length_app; cbn; lia).
  rewrite bind_run, Eref, of_outcome_run, Erefs. rewrite <-(Z2Nat.id n) at 1 by lia.
  rewrite rev_update, bind_value by lia. rewrite BoundedUint_ok, bind_value by lia. done.
Qed.

(** The sum over the children that are there. *)
Lemma branch_bytes_least P c kids st :
  children_ok P c kids st → 9 * c.(count) + (16 - c.(count)) <= py_len (branch_bytes kids).
Proof.
  intros [Hk _ -> Hlong _ _]. 
  assert (∀ ks j, (∀ i t, ks !! i = Some t → is_null t = false → 9 <= py_len (ref_bytes (node_bytes t))) →
    8 * Z.of_nat (length (present_from j ks)) + Z.of_nat (length ks) <= py_len (branch_bytes ks)) as Hsum.
  { unfold branch_bytes. induction ks as [|t ks IH]; intros j Hl; [done|]. cbn [present_from map List.concat length].
    rewrite length_app, py_len_app. specialize (IH (j + 1) (λ i t, Hl (S i) t)). specialize (Hl 0%nat t eq_refl).
    destruct (is_null t) eqn:En; cbn [length].
    - destruct t; try done. change (py_len (ref_bytes (node_bytes Null))) with 1. lia.
    - specialize (Hl eq_refl). lia. }
  specialize (Hsum kids 0 Hlong). lia.
Qed.

Lemma children_finish_ok P c kids st :
  N <= SCRATCH_LIMIT → path_wf P → children_ok P c kids st → 0 < c.(count) →
  (∀ n, is_nibble n → path_wf (P ++ [n])) → arena_wf st → room st N →
  ∃ it st', trie_children_finish (path_of P) c st = (Ok it, st') ∧ appends [] st st' ∧
    item_of P (branch_of kids) it st'.
Proof using HN.
  intros HL HP Hok Hpos HPn Hw Hr. pose proof Hok as [Hk (refs & Erefs & Hlr & Hfrom) Hcount Hlong Hnulls Honly].
  destruct (Honly Hpos) as (n & t & Hn & Hin & Hit). unfold trie_children_finish.
  rewrite (proj2 (Z.eqb_neq c.(count) 0)) by lia. destruct (Z.eqb_spec c.(count) 1) as [E1|Hn1].
  - exists c.(only), st. split; [done|]. split; [by apply appends_refl|].
    assert (branch_of kids = extend n t) as ->; [|by apply item_of_extend; [apply HPn|]].
    unfold branch_of. destruct (present_from 0 kids) as [|x [|? ?]]; cbn in Hcount; [lia| |lia].
    by apply list_elem_of_singleton in Hin as <-.
  - pose proof (branch_bytes_least _ _ _ _ Hok) as Hleast.
    assert (branch_of kids = Branch kids []) as ->.
    { unfold branch_of. destruct (present_from 0 kids) as [|x [|? ?]]; cbn in Hcount; [lia|lia|]. by destruct x. }
    assert (32 <= py_len (node_bytes (Branch kids [])) <= N) as Hlen.
    { cbn [node_bytes]. fold (branch_bytes kids). pose proof (branch_bytes_len kids) as Hb. rewrite Hk in Hb.
      pose proof (list_len (branch_bytes kids ++ rlp_string [])) as Hl. rewrite py_len_app in Hl.
      change (py_len (rlp_string [])) with 1 in Hl.
      pose proof (present_length kids 0).
      specialize (Hl ltac:(lia)). lia. }
    destruct (branch_child_ref_ok c.(mask) refs kids st) as (st' & Eb & Ha); [done..|unfold room in *; lia|].
    exists (trie_branch (path_of P) (node_ref (node_bytes (Branch kids [])))), st'.
    split; [by rewrite bind_run, Erefs, Eb, ret_run|]. split; [done|]. split; [done|]. split; [apply Hlen|]. by split_and!.
Qed.


(** *** The recursion *)

Definition prefixed (P : list Z) (l : items) : items := (λ x, (P ++ x.1, x.2)) <$> l.
Definition not_under (P : list Z) (l : items) : Prop :=
  match l with [] => True | x :: _ => ¬ P `prefix_of` x.1 end.
Definition items_wf (P : list Z) (l : items) : Prop := Forall (λ x, path_wf (P ++ x.1) ∧ fits x.2) l.

Section source.
Context (source : IndexedTrieSource) (cursor_at : IndexedTrieCursor → items → SpecState → Prop).
(** The cursor stands before some items: it is empty without them, peeks the
    first key, and popping gives the first item, whatever it writes for it. *)
Context (Hnil : ∀ c st, cursor_at c [] st → indexed_trie_cursor_empty c = true).
Context (Hkey : ∀ c k v l st, cursor_at c ((k, v) :: l) st →
  path_wf k ∧ indexed_trie_cursor_empty c = false ∧ indexed_trie_cursor_key c = Ok (path_of k)).
Context (Hpop : ∀ c k v l st, cursor_at c ((k, v) :: l) st → ∃ lv c' p st',
  indexed_trie_pop source c st = (Ok (trie_leaf (path_of k) lv, c'), st') ∧ appends p st st' ∧
  cursor_at c' l st' ∧ value_at_slice lv v st').
Context (Happ : ∀ c l st st', cursor_at c l st → appends [] st st' → cursor_at c l st').
Context (Hroom : ∀ c l st, cursor_at c l st → arena_wf st ∧ room st N ∧ N <= SCRATCH_LIMIT).

Lemma next_under_ok c P l st :
  path_wf P → cursor_at c l st →
  indexed_trie_next_under c (path_of P) = Ok (match l with [] => false | x :: _ => bool_decide (P `prefix_of` x.1) end).
Proof using Hnil Hkey.
  intros HP Hc. unfold indexed_trie_next_under. destruct l as [|[k v] l]; [by rewrite (Hnil _ _ Hc)|].
  destruct (Hkey _ _ _ _ _ Hc) as (Hk & -> & ->). rewrite bind_value. unfold path_prefix_of.
  rewrite path_matches_ok by done. f_equal. cbn [Z.to_nat drop fst]. apply bool_decide_ext. split; [by intros []|].
  intros Hp. split; [lia|done].
Qed.

(** What the recursion gives on the items under a prefix, the rest left. *)
Definition subtree_run (m : IndexedTrieCursor → TriePath → M SpecState IndexedSubtree) (depth : nat)
    (P : list Z) : Prop :=
  ∀ us rest c st, us ≠ [] → in_order us → keys_ok depth us → items_wf P us → not_under P rest →
    cursor_at c (prefixed P us ++ rest) st →
    ∃ it c' p st', m c (path_of P) st = (Ok (it, c'), st') ∧ appends p st st' ∧ cursor_at c' rest st' ∧
      item_of P (build depth us) it st'.

Lemma kids_of_step depth done n us :
  is_nibble n → Forall (λ x : list Z * bytes, ∃ m k, x.1 = m :: k ∧ m < n) done →
  kids_of depth (done ++ prefixed [n] us) = <[Z.to_nat n := build depth us]> (kids_of depth done) ∧
  kids_of depth done !! Z.to_nat n = Some Null.
Proof.
  intros Hn Hd. assert (below n done = []) as Hb.
  { apply below_none. eapply Forall_impl; [exact Hd|]. intros x (m & k & E & Hm) k'. rewrite E. intros [= ->]. lia. }
  split.
  - apply list_eq. intros i. destruct (decide (i < 16)%nat) as [Hi|Hi].
    2: { rewrite !lookup_ge_None_2; [done|rewrite length_insert, kids_length; lia|rewrite kids_length; lia]. }
    pose proof Hn as Hn'. unfold is_nibble in Hn'. rewrite <-(Nat2Z.id i), kids_lookup by (unfold is_nibble; lia).
    rewrite below_app. destruct (decide (Z.of_nat i = n)) as [<-|Hne].
    + rewrite list_lookup_insert_eq by (rewrite kids_length; lia). rewrite Hb. unfold prefixed.
      change (λ x : list Z * bytes, ([Z.of_nat i] ++ x.1, x.2)) with (λ x : list Z * bytes, (Z.of_nat i :: x.1, x.2)).
      by rewrite below_cons_same.
    + rewrite list_lookup_insert_ne by lia. rewrite kids_lookup by (unfold is_nibble; lia). unfold prefixed.
      change (λ x : list Z * bytes, ([n] ++ x.1, x.2)) with (λ x : list Z * bytes, (n :: x.1, x.2)).
      by rewrite below_other, app_nil_r.
  - rewrite kids_lookup by done. rewrite Hb. by destruct depth.
Qed.

Lemma prefixed_app P Q l : prefixed P (prefixed Q l) = prefixed (P ++ Q) l.
Proof. unfold prefixed. rewrite <-list_fmap_compose. apply list_fmap_ext. intros i [k v] _. cbn. by rewrite app_assoc. Qed.

Lemma items_wf_under P n us : items_wf P (prefixed [n] us) → items_wf (P ++ [n]) us.
Proof.
  unfold items_wf, prefixed. rewrite Forall_fmap. intros Hf. eapply Forall_impl; [exact Hf|].
  intros [k v]. cbn. by rewrite <-app_assoc.
Qed.

Lemma not_under_next P n (others rest : items) :
  Forall (λ x, ∃ m k, x.1 = m :: k ∧ n < m) others → not_under P rest →
  not_under (P ++ [n]) (prefixed P others ++ rest).
Proof.
  intros Ho Hr. destruct others as [|[k v] others]; cbn.
  - destruct rest as [|[k v] rest]; [done|]. cbn in *. intros Hp. apply Hr. by eapply prefix_app_l.
  - apply Forall_cons in Ho as [(m & k' & E & Hm) _]. cbn in E. subst k. intros Hp. apply prefix_app_inv in Hp.
    apply prefix_cons_inv_1 in Hp. lia.
Qed.

(** The first child of a prefix: the items that share its nibble. *)
Lemma first_group depth P lo k v l rest c st :
  path_wf P → in_order ((k, v) :: l) → Forall (λ x : list Z * bytes, ∃ m k, x.1 = m :: k ∧ lo <= m) ((k, v) :: l) →
  keys_ok (S depth) ((k, v) :: l) → items_wf P ((k, v) :: l) → not_under P rest →
  cursor_at c (prefixed P ((k, v) :: l) ++ rest) st →
  ∃ n k1 us others, (k, v) :: l = prefixed [n] us ++ others ∧ k = n :: k1 ∧ us ≠ [] ∧
    (is_nibble n ∧ lo <= n ∧ (length P < 64)%nat) ∧ path_wf (P ++ [n]) ∧
    (in_order us ∧ keys_ok depth us ∧ items_wf (P ++ [n]) us) ∧
    not_under (P ++ [n]) (prefixed P others ++ rest) ∧
    cursor_at c (prefixed (P ++ [n]) us ++ (prefixed P others ++ rest)) st ∧
    Forall (λ x : list Z * bytes, ∃ m k, x.1 = m :: k ∧ n + 1 <= m) others ∧
    (in_order others ∧ keys_ok (S depth) others ∧ items_wf P others).
Proof using Hkey.
  intros HP Hs Hlow Hkeys Hwf Hnu Hc. destruct (Hkey c (P ++ k) v (prefixed P l ++ rest) st Hc) as (Hwk & _ & _).
  destruct (group_split ((k, v) :: l)) as (n & us & others & El & Hus & Hsu & Hso & Hoth); [done..| |].
  { eapply Forall_impl; [exact Hlow|]. by intros x (m & k' & -> & _). }
  change ((λ x : list Z * bytes, (n :: x.1, x.2)) <$> us) with (prefixed [n] us) in El.
  assert (∃ k1, k = n :: k1) as [k1 ->] by (destruct us as [|[k1 v1] us]; [done|]; exists k1; by injection El).
  assert (is_nibble n ∧ lo <= n ∧ (length P < 64)%nat) as (Hn & Hlon & HPl).
  { apply Forall_cons in Hlow as [(m & k' & E & Hm) _]. apply Forall_cons in Hkeys as [[Hnib _] _].
    cbn in E, Hnib. injection E as <- _. apply Forall_cons in Hnib as [Hnib _]. split; [done|]. split; [done|].
    destruct Hwk as [_ Hwl]. rewrite length_app in Hwl. cbn in Hwl. lia. }
  rewrite El in Hkeys, Hwf, Hc. apply Forall_app in Hkeys as [Hkeys1 Hkeys2], Hwf as [Hwf1 Hwf2].
  exists n, k1, us, others. split; [done|]. split; [done|]. split; [done|]. split; [done|]. split.
  { destruct HP as [HP1 HP2]. split; [apply Forall_app; split; [done|by constructor]|rewrite length_app; cbn; lia]. }
  split; [split; [done|split; [|by apply items_wf_under]]|].
  { unfold keys_ok, prefixed in *. rewrite Forall_fmap in Hkeys1. eapply Forall_impl; [exact Hkeys1|].
    intros [k' v']. cbn. intros [[_ ?]%Forall_cons ?]. split; [done|lia]. }
  split; [by apply not_under_next|]. split.
  { rewrite <-prefixed_app. unfold prefixed in *. by rewrite fmap_app, <-app_assoc in Hc. }
  split; [|done]. eapply Forall_impl; [exact Hoth|]. intros x (m & k' & E & Hm). exists m, k'. split; [done|lia].
Qed.

Lemma children_loop_ok depth P fn :
  path_wf P →
  (∀ n, is_nibble n → (length P < 64)%nat → subtree_run (λ c p, fn c p) depth (P ++ [n])) →
  ∀ turns lo done l rest c ch st,
  0 <= lo → 16 - lo <= Z.of_nat turns → in_order l →
  Forall (λ x, ∃ m k, x.1 = m :: k ∧ lo <= m) l → Forall (λ x : list Z * bytes, ∃ m k, x.1 = m :: k ∧ m < lo) done →
  keys_ok (S depth) l → items_wf P l → not_under P rest → cursor_at c (prefixed P l ++ rest) st →
  children_ok P ch (kids_of depth done) st →
  ∃ ch' c' p st', indexed_children turns fn (path_of P) (Z.of_nat (length P)) ch c st = (Ok (ch', c'), st') ∧
    appends p st st' ∧ cursor_at c' rest st' ∧ children_ok P ch' (kids_of depth (done ++ l)) st' ∧
    ch.(count) <= ch'.(count) ∧ (l ≠ [] → ch.(count) < ch'.(count)).
Proof using Hnil Hkey Happ Hroom HN.
  intros HP Hfn. induction turns as [|turns IH]; intros lo done l rest c ch st Hlo Hturns Hs Hlow Hdone Hkeys Hwf Hnu Hc Hch;
    cbn [indexed_children]; rewrite bind_run, of_outcome_run, (next_under_ok _ _ _ _ HP Hc).
  all: destruct l as [|[k v] l];
    [exists ch, c, [], st; assert (match prefixed P [] ++ rest with [] => false | x :: _ => bool_decide (P `prefix_of` x.1) end = false) as ->
       by (destruct rest as [|[k v] rest]; [done|]; by apply bool_decide_false);
     split; [done|]; split; [apply appends_refl; by eapply Hroom|]; rewrite app_nil_r; by split_and!|].
  - exfalso. apply Forall_cons in Hlow as [(m & k' & E & Hm) _]. apply Forall_cons in Hkeys as [[Hnib _] _].
    cbn in E, Hnib. subst k. apply Forall_cons in Hnib as [Hnib _]. unfold is_nibble in Hnib. lia.
  - change (prefixed P ((k, v) :: l) ++ rest) with ((P ++ k, v) :: prefixed P l ++ rest) in Hc |- *.
    cbn [fst]. rewrite bool_decide_true by by apply prefix_app_r.
    destruct (Hkey _ _ _ _ _ Hc) as (Hwk & _ & Ek).
    destruct (first_group depth P lo k v l rest c st HP Hs Hlow Hkeys Hwf Hnu Hc)
      as (n & k1 & us & others & El & -> & Hus & (Hn & Hlon & HPl) & HPn & (Hsu & Hku & Hwu) & Hnu' & Hc' & Hoth & Hso & Hko & Hwo).
    rewrite El.
    destruct (Hfn n Hn HPl us (prefixed P others ++ rest) c st Hus Hsu Hku Hwu Hnu' Hc') as (it & c1 & p1 & st1 & E1 & A1 & C1 & I1).
    destruct (Hroom _ _ _ Hc) as (Hw & _ & HL). destruct (Hroom _ _ _ C1) as (Hw1 & Hr1 & _).
    destruct (kids_of_step depth done n us Hn) as [Ekids Enull].
    { eapply Forall_impl; [exact Hdone|]. intros x (m & k' & E & Hm). exists m, k'. split; [done|lia]. }
    destruct (children_add_ok P n (build depth us) it ch (kids_of depth done) st1 HL HPn Hn
                (children_appends _ _ _ _ _ _ Hw Hch A1) Enull I1 Hw1 Hr1) as (ch2 & st2 & E2 & A2 & Hch2).
    rewrite <-Ekids in Hch2.
    destruct (IH (n + 1) (done ++ prefixed [n] us) others rest c1 ch2 st2) as (ch3 & c3 & p3 & st3 & E3 & A3 & C3 & Hch3 & Hle & _);
      [lia|lia|done|done| |done|done|done|by eapply Happ|done|].
    { apply Forall_app. split.
      - eapply Forall_impl; [exact Hdone|]. intros x (m & k' & E & Hm). exists m, k'. split; [done|lia].
      - unfold prefixed. apply Forall_fmap, Forall_true. intros x. exists n, x.1. split; [done|lia]. }
    assert (ch.(count) < ch2.(count)) as Hlt.
    { rewrite (co_count _ _ _ _ Hch), (co_count _ _ _ _ Hch2), Ekids.
      destruct (present_insert (kids_of depth done) 0 (Z.to_nat n) (build depth us) Enull) as [-> _]; [|lia].
      by eapply item_nonempty. }
    exists ch3, c3, (p1 ++ [] ++ p3), st3. split; [|split; [by eapply appends_trans, appends_trans|]].
    + rewrite bind_run, of_outcome_run, Ek.
      rewrite bind_run, of_outcome_run, path_nibble_ok by (done || lia).
      assert (nib (P ++ n :: k1) (Z.to_nat (Z.of_nat (length P))) = n) as ->.
      { unfold nib. by rewrite Nat2Z.id, list_lookup_middle. }
      assert (path_wf [n]) as Hwn by (split; [by constructor|cbn; lia]).
      unfold child_prefix_of. rewrite bind_run, of_outcome_run, path_single_ok, bind_value, path_concat_ok by done.
      rewrite decide_True by (rewrite length_app; cbn; lia).
      rewrite bind_run, E1, bind_run, E2. exact E3.
    + split; [done|]. rewrite app_assoc. split; [done|]. split; [lia|]. intros _. lia.
Qed.

Lemma kids_of_nil depth : kids_of depth [] = replicate 16 Null.
Proof. by destruct depth. Qed.

(** An item at the prefix itself is a leaf; otherwise the children make the
    node. *)
Lemma subtree_leaf levels P v rest c st :
  path_wf P → fits v → cursor_at c ((P, v) :: rest) st →
  ∃ it c' p st', indexed_trie_subtree source (S levels) c (path_of P) st = (Ok (it, c'), st') ∧
    appends p st st' ∧ cursor_at c' rest st' ∧ item_of P (Leaf [] v) it st'.
Proof using Hnil Hkey Hpop.
  intros HP Hv Hc. destruct (Hkey _ _ _ _ _ Hc) as (_ & _ & Ek).
  destruct (Hpop _ _ _ _ _ Hc) as (lv & c' & p & st' & E & A & C & Hlv).
  exists (trie_leaf (path_of P) lv), c', p, st'. split; [|split; [done|split; [done|]]].
  - cbn [indexed_trie_subtree]. rewrite bind_run, of_outcome_run, (next_under_ok _ _ _ _ HP Hc). cbn [fst].
    rewrite bool_decide_true by done. cbn [negb]. rewrite bind_run, of_outcome_run, Ek, path_eq_ok by done.
    by rewrite bool_decide_true.
  - cbn [item_of]. rewrite app_nil_r. split; [done|]. split; [done|]. by exists lv.
Qed.

Lemma subtree_ok depth : ∀ levels P,
  (depth < levels)%nat → path_wf P → subtree_run (indexed_trie_subtree source levels) depth P.
Proof using Hnil Hkey Hpop Happ Hroom HN.
  induction depth as [|depth IH]; intros [|levels] P Hlev HP us rest c st Hus Hs Hk Hwf Hnu Hc; try lia.
  all: destruct (nonempty_keys us Hs) as [[v0 ->]|Hne].
  1, 3: apply Forall_cons in Hwf as [[_ Hf] _]; cbn [prefixed fmap list_fmap fst snd app] in Hc;
    rewrite app_nil_r in Hc; assert (∀ d, build d [([], v0)] = Leaf [] v0) as -> by (by intros []);
    by apply subtree_leaf.
  - exfalso. destruct us as [|[k v] us]; [done|]. apply Forall_cons in Hk as [[_ Hl] _].
    apply Forall_cons in Hne as [Hk0 _]. destruct k; cbn in *; [done|lia].
  - destruct us as [|[k v] us]; [done|].
    pose proof Hc as Hc'. change (prefixed P ((k, v) :: us) ++ rest) with ((P ++ k, v) :: prefixed P us ++ rest) in Hc'.
    destruct (Hkey _ _ _ _ _ Hc') as (Hwk & _ & Ek).
    assert (k ≠ []) as Hk0 by by apply Forall_cons in Hne as [? _].
    assert (length P < 64)%nat as HPl.
    { destruct Hwk as [_ Hl]. rewrite length_app in Hl. destruct k; [done|cbn in Hl; lia]. }
    destruct (children_empty_ok P st) as (ch & Ech & Hch). rewrite <-(kids_of_nil depth) in Hch.
    destruct (children_loop_ok depth P (indexed_trie_subtree source levels) HP) with (turns := 17%nat) (lo := 0)
      (done := @nil (list Z * bytes)) (l := (k, v) :: us) (rest := rest) (c := c) (ch := ch) (st := st)
      as (ch' & c' & p & st1 & E1 & A1 & C1 & Hch1 & Hle & Hlt); try done.
    { intros n Hn _. apply (IH levels (P ++ [n])); [lia|]. destruct HP as [HP1 HP2].
      split; [apply Forall_app; split; [done|by constructor]|rewrite length_app; cbn; lia]. }
    { apply Forall_forall. intros [k' v'] Hin. unfold keys_ok in Hk. rewrite Forall_forall in Hne, Hk.
      specialize (Hne _ Hin). destruct (Hk _ Hin) as [Hnib _]. cbn in *. destruct k' as [|m k']; [done|].
      apply Forall_cons in Hnib as [Hm _]. unfold is_nibble in Hm. exists m, k'. split; [done|lia]. }
    destruct (Hroom _ _ _ C1) as (Hw1 & Hr1 & HL).
    assert (0 < ch'.(count)) as Hpos.
    { specialize (Hlt ltac:(done)). injection Ech as <-. cbn in Hlt. lia. }
    destruct (children_finish_ok P ch' _ st1 HL HP Hch1 Hpos) as (it & st2 & E2 & A2 & I2); [|done..|].
    { intros n Hn. destruct HP as [HP1 HP2].
      split; [apply Forall_app; split; [done|by constructor]|rewrite length_app; cbn; lia]. }
    exists it, c', (p ++ []), st2. split; [|split; [by eapply appends_trans|split; [by eapply Happ|]]].
    + cbn [indexed_trie_subtree]. rewrite bind_run, of_outcome_run, (next_under_ok _ _ _ _ HP Hc'). cbn [fst].
      rewrite bool_decide_true by by apply prefix_app_r.
      cbn [negb]. rewrite bind_run, of_outcome_run, Ek, path_eq_ok by done.
      rewrite bool_decide_false by (intros Ekk; apply Hk0; apply (f_equal length) in Ekk; rewrite length_app in Ekk;
        destruct k; [done|cbn in Ekk; lia]).
      rewrite bind_run, of_outcome_run, path_len_ok by done.
      rewrite (proj2 (Z.leb_gt _ _)) by lia. rewrite bind_run. change (fatal_if false st) with (Ok tt, st). cbv iota beta.
      by rewrite bind_run, of_outcome_run, Ech, bind_run, E1, bind_run, E2, ret_run.
    + rewrite build_below; [exact I2|done..].
Qed.


(** The root over the whole cursor. *)
Context (Hend : ∀ c st, cursor_at c [] st → c.(receipt_remaining).(sl_len) = 0).

Lemma inline_hash_ok node st :
  py_len node < 32 → arena_wf st → room st 32 →
  gives (inline_node_hash (mkInlineNode (rev (mem_range node 0 32)) (py_len node))) st (digest_of node).
Proof.
  intros Hlt Hw Hr. pose proof (py_len_nonneg node). pose proof (arena_len _ Hw) as Hal.
  pose proof (py_len_nonneg (arena st)).
  assert (take (Z.to_nat (py_len node)) (mem_range node 0 32) = node) as Enode.
  { apply list_eq. intros i. rewrite lookup_take. unfold py_len in *. case_decide as Hi.
    + destruct (lookup_lt_is_Some_2 node i) as [b Hb]; [lia|].
      rewrite mem_range_lookup by lia. unfold mem_at. by rewrite Z.add_0_l, Nat2Z.id, Hb.
    + symmetry. apply lookup_ge_None_2. lia. }
  destruct (reserve_ok st (py_len node) Hw ltac:(lia)) as (st1 & E1 & A1).
  assert (room st (py_len node)) as Hr0 by (unfold room in *; lia).
  assert (room st1 (py_len node)) as Hr1 by by apply (appends_room [] _ _ _ A1).
  destruct (push_b256_ok st1 (mem_range node 0 32) (py_len node)) as (st2 & E2 & A2);
    [apply A1|apply mem_range_length|lia|done|]. rewrite Enode in A2.
  pose proof (appends_trans _ _ _ _ _ A1 A2) as A02. cbn [app] in A02.
  destruct (completes_finish st (mkRlpEncoder st.(scratch_arena).(sl_len) (py_len node)) node Hw eq_refl eq_refl st2 A02)
    as (s & st3 & E3 & A3 & Hs & Hd); [by rewrite app_nil_r|].
  rewrite app_nil_r in A3, Hd. destruct (rewind_ok _ _ _ Hw A3) as (st4 & E4 & A4).
  assert (scratch_finish st.(scratch_arena).(sl_len) st2 = (Ok s, st3)) as E3'.
  { unfold rlp_encoder_finish in E3. cbn [enc_start expected_len] in E3. rewrite bind_run in E3.
    destruct (scratch_finish _ st2) as [[s'|e] st3'] eqn:Ef; [|done].
    destruct (sl_len s' =? py_len node); [|done]. cbn in E3. by injection E3 as -> ->. }
  exists st4. split; [|exact A4]. unfold inline_node_hash, scratch_begin, get_arena, code_length.
  rewrite bind_run, bind_run, gets_run, of_outcome_run, Uint_ok by lia.
  rewrite bind_run. unfold inline_node_slice. cbn [in_len in_data].
  rewrite bind_run, E1, bind_run, E2, E3'. rewrite bind_run.
  assert (zoom (scratch_keccak256 s) st3 = (Ok (digest_of node), st3)) as ->.
  { apply host_read. unfold scratch_keccak256, _keccak_region, _region_bytes. py_step. unfold digest_of. by rewrite <-Hd. }
  rewrite bind_run, E4, of_outcome_run. unfold Bytes32. by rewrite fixed_bytes_ok by apply digest_length.
Qed.

Lemma subtree_root_ok t it st :
  N <= SCRATCH_LIMIT → item_of [] t it st → arena_wf st → room st N →
  gives (trie_subtree_root it) st (root_of t).
Proof using HN.
  intros HL Hit Hw Hr. destruct (child_ref_ok [] t it st HL Hit Hw Hr) as (st1 & E1 & A1).
  destruct (item_nonempty _ _ _ _ Hit) as [Hne Hnn].
  assert (root_of t = digest_of (node_bytes t)) as -> by by destruct t.
  assert (∀ X Y : M SpecState hash, match it.(ti_value) with EmptySubtree => X | _ => Y end = Y) as Esel.
  { intros X Y. destruct t; [done|..]; [destruct Hit as (_ & _ & lv & -> & _)|destruct Hit as (_ & _ & _ & _ & ->)..]; done. }
  unfold gives, writes, trie_subtree_root. rewrite Esel. change (Z.of_nat (length [])) with 0 in E1.
  assert (room st 32) as Hr0 by (unfold room in *; lia).
  assert (room st1 32) as Hr1 by by apply (appends_room [] _ _ _ A1).
  assert (Bytes32 (digest_of (node_bytes t)) = Ok (digest_of (node_bytes t))) as Eb
    by (unfold Bytes32; by rewrite fixed_bytes_ok by apply digest_length).
  unfold node_ref in E1. destruct (Z.ltb_spec (py_len (node_bytes t)) 32) as [Hlt|Hge].
  - destruct (inline_hash_ok (node_bytes t) st1 Hlt (proj1 A1) Hr1) as (st2 & E2 & A2).
    exists st2. split; [|by eapply (appends_trans [] [])].
    rewrite bind_run, E1, bind_run. unfold trie_ref_to_root. rewrite bind_run, E2, of_outcome_run, Eb, of_outcome_run, Eb. done.
  - exists st1. split; [|done]. rewrite bind_run, E1, bind_run. unfold trie_ref_to_root.
    by rewrite of_outcome_run, Eb, of_outcome_run, Eb.
Qed.

Lemma trie_root_ok c l st :
  indexed_trie_begin source st.(sp_host) = (Ok c, st.(sp_host)) → cursor_at c l st →
  in_order l → keys_ok 64 l → Forall (λ x, fits x.2) l →
  gives (indexed_trie_root source) st (root_of (build 64 l)).
Proof using Hnil Hkey Hpop Happ Hroom HN Hend.
  intros Hbegin Hc Hs Hk Hf. destruct (Hroom _ _ _ Hc) as (Hw & Hr & HL).
  pose proof (arena_len _ Hw) as Hal. pose proof (py_len_nonneg (arena st)).
  unfold gives, writes, indexed_trie_root, scratch_begin, get_arena, code_length.
  assert (∀ X : Z → M SpecState hash, ((arena ← gets scratch_arena; of_outcome (Uint arena.(sl_len))) ≫= X) st =
    X st.(scratch_arena).(sl_len) st) as Emark.
  { intros X. by rewrite bind_run, bind_run, gets_run, of_outcome_run, Uint_ok by lia. }
  rewrite Emark. clear Emark.
  assert (∀ root st1 p, py_len root = 32 → appends p st st1 →
    ∃ st2, (scratch_rewind st.(scratch_arena).(sl_len);; of_outcome (Bytes32 root)) st1 = (Ok root, st2) ∧ appends [] st st2) as Hfin.
  { intros root st1 p Hl A. destruct (rewind_ok _ _ _ Hw A) as (st2 & E & A2). exists st2. split; [|done].
    rewrite bind_run, E, of_outcome_run. unfold Bytes32. by rewrite fixed_bytes_ok. }
  assert (path_wf []) as Hnil0 by (split; [constructor|cbn; lia]).
  assert (prefixed [] l ++ [] = l) as Epre.
  { unfold prefixed. rewrite app_nil_r. etrans; [|apply list_fmap_id]. apply list_fmap_ext. by intros i [k v] _. }
  rewrite bind_run, (host_read _ _ _ Hbegin), bind_run, of_outcome_run, path_empty_ok.
  destruct (decide (l = [])) as [->|Hl].
  - rewrite bind_run. cbn [indexed_trie_subtree]. rewrite bind_run, of_outcome_run, (next_under_ok _ _ _ _ Hnil0 Hc).
    cbn [negb]. unfold trie_empty_subtree. rewrite path_empty_ok, bind_value, bind_run, of_outcome_run, ret_run.
    rewrite (Hnil _ _ Hc), (Hend _ _ Hc). cbn [negb orb Z.eqb]. rewrite bind_run. change (fatal_if false st) with (Ok tt, st).
    cbv iota beta. rewrite bind_run. unfold trie_subtree_root. cbn [ti_value]. rewrite of_outcome_run.
    change (Bytes32 EMPTY_TRIE_ROOT) with (Ok EMPTY_TRIE_ROOT). cbv iota beta.
    apply (Hfin _ _ []); [done|by apply appends_refl].
  - rewrite <-Epre in Hc.
    destruct (subtree_ok 64 66 [] ltac:(lia) Hnil0 l [] c st) as (it & c1 & p & st1 & E1 & A1 & C1 & I1); try done.
    { unfold items_wf, keys_ok in *. rewrite Forall_forall in *. intros x Hx. split; [apply Hk; done|by apply Hf]. }
    rewrite bind_run, E1. rewrite (Hnil _ _ C1), (Hend _ _ C1). cbn [negb orb Z.eqb].
    destruct (Hroom _ _ _ C1) as (Hw1 & Hr1 & _).
    destruct (subtree_root_ok _ _ _ HL I1 Hw1 Hr1) as (st2 & E2 & A2).
    rewrite bind_run. change (fatal_if false st1) with (Ok tt, st1). cbv iota beta. rewrite bind_run, E2.
    apply (Hfin _ _ (p ++ [])); [|by eapply appends_trans].
    destruct (item_nonempty _ _ _ _ I1) as [_ Hnn].
    destruct (build 64 l); [done|..]; apply digest_length.
Qed.
End source.
End items_built.
End nodes.

(** ** The keys of an index trie *)

(** The nibbles of the RLP encoding of an index. *)
Definition index_key (i : Z) : list Z := byte_nibbles (rlp_string (minimal_be i)).

Lemma byte_nibbles_app a b : byte_nibbles (a ++ b) = byte_nibbles a ++ byte_nibbles b.
Proof. unfold byte_nibbles. apply bind_app. Qed.

Lemma append_byte_ok bs b :
  (2 * S (length bs) <= 64)%nat →
  path_append_byte (path_of (byte_nibbles bs)) b = Ok (path_of (byte_nibbles (bs ++ [b]))).
Proof.
  intros Hl. unfold path_append_byte.
  pose proof (byte_nibbles_nibbles [b]) as Hb. apply Forall_cons in Hb as [Hh [Hlo _]%Forall_cons].
  pose proof (byte_nibbles_nibbles bs) as Hbs. pose proof (byte_nibbles_length bs) as Hbl.
  rewrite path_append_ok, bind_value; [|split; [done|lia]|done|lia].
  rewrite path_append_ok; [|split; [by apply Forall_app; split; [|constructor]|rewrite length_app; cbn; lia]|done|rewrite length_app; cbn; lia].
  rewrite byte_nibbles_app, <-app_assoc. done.
Qed.

Lemma append_index_ok n i : ∀ bs,
  (2 * (length bs + n) <= 64)%nat →
  append_index n i (path_of (byte_nibbles bs)) = Ok (path_of (byte_nibbles (bs ++ be_bytes n i))).
Proof.
  induction n as [|n IH]; intros bs Hl; cbn [append_index]; [by rewrite app_nil_r|].
  rewrite append_byte_ok, bind_value by lia. rewrite IH by (rewrite length_app; cbn; lia).
  do 3 f_equal. rewrite <-app_assoc. f_equal. cbn [app].
  symmetry. apply list_eq_same_length with (n := S n);
    [first [by rewrite be_bytes_length|cbn [length]; by rewrite be_bytes_length]..|].
  intros k x y Hk. rewrite be_bytes_lookup by lia. intros [= <-]. destruct k as [|k].
  - intros [= <-]. unfold digit. do 2 f_equal. lia.
  - change ((?b :: be_bytes n i) !! S k) with (be_bytes n i !! k). rewrite be_bytes_lookup by lia.
    intros [= <-]. unfold digit. do 3 f_equal. lia.
Qed.

Lemma encoded_width_ok i : 128 <= i < 2 ^ 24 → rlp_index_encoded_width i = Ok (byte_len i) ∧ 1 <= byte_len i <= 3.
Proof.
  intros Hi. unfold rlp_index_encoded_width, rlp_index_byte_width.
  pose proof (byte_len_pos i ltac:(lia)) as Hp.
  pose proof (byte_len_le i 1 ltac:(lia) ltac:(lia)) as H1. pose proof (byte_len_le i 2 ltac:(lia) ltac:(lia)) as H2.
  pose proof (byte_len_le i 3 ltac:(lia) ltac:(lia)) as H3.
  change (256 ^ 1) with 256 in H1. change (256 ^ 2) with 65536 in H2. change (256 ^ 3) with 16777216 in H3.
  change (2 ^ 24) with 16777216 in Hi.
  rewrite (proj2 (Z.ltb_lt i 16777216)) by lia.
  destruct (Z.ltb_spec i 256); [|destruct (Z.ltb_spec i 65536)]; rewrite BoundedUint_ok by lia; split; try lia; f_equal; lia.
Qed.

Lemma string_of_index i :
  0 <= i < 2 ^ 20 →
  rlp_string (minimal_be i) =
    if i =? 0 then [byte_wrap 0x80] else if i <=? 127 then [byte_wrap i]
    else byte_wrap (128 + byte_len i) :: be_bytes (Z.to_nat (byte_len i)) i.
Proof.
  intros Hi. destruct (Z.eqb_spec i 0) as [->|]; [done|]. destruct (Z.leb_spec i 127).
  - assert (byte_len i = 1) as E1.
    { pose proof (byte_len_pos i ltac:(lia)). pose proof (proj2 (byte_len_le i 1 ltac:(lia) ltac:(lia))). lia. }
    unfold minimal_be. rewrite E1. change (be_bytes (Z.to_nat 1) i) with [byte_wrap i].
    unfold rlp_string, self_encoding. rewrite Z_of_byte_wrap, Z.mod_small by lia. by rewrite (proj2 (Z.ltb_lt _ _)) by lia.
  - destruct (encoded_width_ok i) as [_ Hb]; [split; [lia|]; apply Z.lt_trans with (2 ^ 20); [apply Hi|done]|].
    unfold rlp_string. assert (self_encoding (minimal_be i) = false) as ->.
    { unfold minimal_be. destruct (Z.eq_dec (byte_len i) 1) as [E1|Hne].
      - rewrite E1. change (be_bytes (Z.to_nat 1) i) with [byte_wrap i]. unfold self_encoding.
        assert (i < 256) by (apply (byte_len_le i 1); lia).
        rewrite Z_of_byte_wrap, Z.mod_small by lia. by apply Z.ltb_ge; lia.
      - pose proof (be_bytes_length (Z.to_nat (byte_len i)) i) as Hl.
        destruct (be_bytes _ i) as [|? [|? ?]]; try done. cbn in Hl. lia. }
    unfold rlp_prefix. rewrite minimal_be_len, (proj2 (Z.leb_le _ 55)) by lia. done.
Qed.

Lemma index_key_ok i : 0 <= i < 2 ^ 20 → trie_index_key i = Ok (path_of (index_key i)).
Proof.
  intros Hi. unfold trie_index_key, index_key. rewrite path_empty_ok, bind_value, string_of_index by done.
  change [] with (byte_nibbles []) at 1 2 3.
  destruct (Z.eqb_spec i 0) as [->|]; [done|]. destruct (Z.leb_spec i 127).
  - by rewrite append_byte_ok by (cbn; lia).
  - destruct (encoded_width_ok i) as [-> Hb]; [split; [lia|]; apply Z.lt_trans with (2 ^ 20); [apply Hi|done]|].
    rewrite bind_value, append_byte_ok, bind_value, append_index_ok by (cbn; lia). done.
Qed.

Lemma index_key_shape i : 0 <= i < 2 ^ 20 → is_nibbles (index_key i) ∧ (length (index_key i) <= 8)%nat.
Proof.
  intros Hi. unfold index_key. split; [apply byte_nibbles_nibbles|]. rewrite byte_nibbles_length, string_of_index by done.
  destruct (i =? 0); [cbn; lia|]. destruct (Z.leb_spec i 127); [cbn; lia|].
  destruct (encoded_width_ok i) as [_ Hb]; [split; [lia|]; apply Z.lt_trans with (2 ^ 20); [apply Hi|done]|].
  cbn [length]. rewrite be_bytes_length. lia.
Qed.

(** *** Their order *)

Fixpoint bytes_lt (a b : bytes) : Prop :=
  match a, b with
  | x :: a', y :: b' => Z_of_byte x < Z_of_byte y ∨ (x = y ∧ bytes_lt a' b')
  | _, _ => False
  end.

Lemma bytes_lt_nibbles a : ∀ b, bytes_lt a b → key_lt (byte_nibbles a) (byte_nibbles b).
Proof.
  unfold byte_nibbles. induction a as [|x a IH]; intros [|y b] Hlt; [done..|].
  cbn [mbind list_bind app key_lt]. destruct Hlt as [Hlt|[-> Hlt]].
  - rewrite !high_nibble_div, !low_nibble_mod. pose proof (Z.div_mod (Z_of_byte x) 16). pose proof (Z.div_mod (Z_of_byte y) 16).
    pose proof (Z.mod_pos_bound (Z_of_byte x) 16). pose proof (Z.mod_pos_bound (Z_of_byte y) 16). lia.
  - right. split; [done|]. right. split; [done|]. by apply IH.
Qed.

Lemma bytes_lt_app a : ∀ b c d, length a = length b → bytes_lt a b → bytes_lt (a ++ c) (b ++ d).
Proof.
  induction a as [|x a IH]; intros [|y b] c d Hl Hlt; try done. destruct Hlt as [Hlt|[-> Hlt]]; [by left|].
  right. split; [done|]. injection Hl as Hl. by apply IH.
Qed.
Lemma bytes_lt_same a b c : bytes_lt b c → bytes_lt (a ++ b) (a ++ c).
Proof. induction a as [|x a IH]; [done|]. intros Hlt. right. split; [done|]. by apply IH. Qed.

Lemma be_bytes_lt n : ∀ i j, 0 <= i < j → j < 256 ^ Z.of_nat n → bytes_lt (be_bytes n i) (be_bytes n j).
Proof.
  induction n as [|n IH]; intros i j Hij Hj; [cbn in Hj; lia|].
  change (be_bytes (S n) ?v) with (be_bytes n (v / 256) ++ [byte_wrap v]).
  rewrite Nat2Z.inj_succ, Z.pow_succ_r in Hj by lia.
  pose proof (Z.div_mod i 256 ltac:(lia)). pose proof (Z.div_mod j 256 ltac:(lia)).
  pose proof (Z.mod_pos_bound i 256 ltac:(lia)). pose proof (Z.mod_pos_bound j 256 ltac:(lia)).
  destruct (Z.eq_dec (i / 256) (j / 256)) as [E|Hne].
  - rewrite E. apply bytes_lt_same. left. rewrite !Z_of_byte_wrap. lia.
  - apply bytes_lt_app; [by rewrite !be_bytes_length|]. apply IH; [split; [apply Z.div_pos; lia|lia]|].
    apply Z.div_lt_upper_bound; lia.
Qed.

(** Where an index comes among the keys: single bytes from 1, then 0, whose
    key is 0x80, then the others. *)
Definition rank (i : Z) : Z := if i =? 0 then 128 else if i <=? 127 then i else i + 1.

Lemma index_key_lt i j :
  0 <= i < 2 ^ 20 → 0 <= j < 2 ^ 20 → rank i < rank j → key_lt (index_key i) (index_key j).
Proof.
  intros Hi Hj Hr. apply bytes_lt_nibbles. rewrite !string_of_index by done. unfold rank in Hr.
  assert (∀ k, 127 < k < 2 ^ 20 → 1 <= byte_len k <= 3) as Hw.
  { intros k Hk. apply encoded_width_ok. split; [lia|]. apply Z.lt_trans with (2 ^ 20); [lia|done]. }
  destruct (Z.eqb_spec i 0), (Z.eqb_spec j 0), (Z.leb_spec i 127), (Z.leb_spec j 127); try lia.
  - left. specialize (Hw j ltac:(lia)). rewrite !Z_of_byte_wrap, !Z.mod_small by lia. lia.
  - left. rewrite !Z_of_byte_wrap, !Z.mod_small by lia. lia.
  - left. rewrite !Z_of_byte_wrap, !Z.mod_small by lia. lia.
  - left. specialize (Hw j ltac:(lia)). rewrite !Z_of_byte_wrap, !Z.mod_small by lia. lia.
  - pose proof (Hw i ltac:(lia)). pose proof (Hw j ltac:(lia)).
    assert (byte_len i <= byte_len j) as Hmono.
    { apply byte_len_le; [lia|lia|]. apply Z.lt_trans with j; [lia|]. apply byte_len_bound. lia. }
    destruct (Z.eq_dec (byte_len i) (byte_len j)) as [E|Hne].
    + rewrite E. right. split; [done|]. apply be_bytes_lt; [lia|]. rewrite Z2Nat.id by lia. apply byte_len_bound. lia.
    + left. rewrite !Z_of_byte_wrap, !Z.mod_small by lia. lia.
Qed.

(** The index at a position, in the order of the keys. *)
Definition nth_index (n p : Z) : Z :=
  let single := Z.min (n - 1) 127 in if p <? single then p + 1 else if p =? single then 0 else p.
Definition index_order (n : Z) : list Z := nth_index n <$> seqZ 0 n.

Lemma index_at_ok n p : 0 <= p < n → index_at n p = Ok (nth_index n p) ∧ 0 <= nth_index n p < n.
Proof.
  intros Hp. unfold index_at, nth_index. rewrite (proj2 (Z.ltb_lt p n)) by lia.
  replace (if n - 1 <? 127 then n - 1 else 127) with (Z.min (n - 1) 127) by (destruct (Z.ltb_spec (n - 1) 127); lia).
  destruct (Z.ltb_spec p (Z.min (n - 1) 127)); [rewrite Uint_ok by lia; split; [done|lia]|].
  destruct (Z.eqb_spec p (Z.min (n - 1) 127)); rewrite Uint_ok by lia; split; try done; lia.
Qed.

Lemma index_order_perm n : 0 <= n → index_order n ≡ₚ seqZ 0 n.
Proof.
  intros Hn. destruct (Z.eq_dec n 0) as [->|]; [done|]. set (m := Z.min (n - 1) 127).
  assert (index_order n = seqZ 1 m ++ 0 :: seqZ (m + 1) (n - m - 1)) as ->.
  { unfold index_order, nth_index. fold m. replace n with (m + (1 + (n - m - 1))) at 1 by lia.
    rewrite !seqZ_app, !fmap_app by lia. f_equal; [|].
    - replace 1 with (0 + 1) at 2 by lia. rewrite <-(fmap_add_seqZ 1 0). apply list_fmap_ext.
      intros i x Hx%lookup_seqZ. rewrite (proj2 (Z.ltb_lt _ _)) by lia. lia.
    - change (0 :: ?l) with ([0] ++ l). f_equal; [|].
      + rewrite seqZ_cons by lia. cbn. rewrite (proj2 (Z.ltb_ge _ _)), (proj2 (Z.eqb_eq _ _)) by lia. done.
      + etrans; [|apply list_fmap_id]. replace (0 + m + 1) with (m + 1) by lia. apply list_fmap_ext.
        intros i x Hx%lookup_seqZ. rewrite (proj2 (Z.ltb_ge _ _)), (proj2 (Z.eqb_neq _ _)) by lia. done. }
  replace n with (1 + (m + (n - m - 1))) at 2 by lia. rewrite !seqZ_app by lia.
  change (seqZ 0 1) with [0]. cbn [app]. replace (0 + 1) with 1 by lia. replace (1 + m) with (m + 1) by lia.
  symmetry. apply Permutation_middle.
Qed.

Lemma index_order_rank n p q : 0 <= p < q → q < n → rank (nth_index n p) < rank (nth_index n q).
Proof.
  intros Hp Hq. unfold rank, nth_index. repeat case_match; lia.
Qed.

(** ** The cursor over the keys *)

(** The cursor of [n] indices at a position. *)
Definition keys_at (kc : RlpIndexCursor) (n p : Z) : Prop :=
  0 <= p <= n ∧ n <= 2 ^ 20 ∧ kc.(ic_maximum) = 2 ^ 20 ∧ kc.(ic_count) = n ∧ kc.(ic_position) = p ∧
  (p < n → kc.(ic_current) = mkIndexItem (2 ^ 20) (nth_index n p) (path_of (index_key (nth_index n p)))).

Lemma index_item_ok i key :
  0 <= i < 2 ^ 20 → rlp_index_item (2 ^ 20) i (Ok key) = Ok (mkIndexItem (2 ^ 20) i key).
Proof.
  intros Hi. unfold rlp_index_item. rewrite Uint_ok by lia.
  cbn [rlp_index_valid_maximum andb validated mbind outcome_bind].
  by rewrite (proj2 (Z.leb_le 0 i)), (proj2 (Z.leb_le i _)) by lia.
Qed.
Lemma index_cursor_new_ok n p item :
  0 <= n <= 2 ^ 20 → 0 <= p <= 2 ^ 20 →
  rlp_index_cursor_new (2 ^ 20) n p (Ok item) = Ok (mkIndexCursor (2 ^ 20) n p item).
Proof.
  intros Hn Hp. unfold rlp_index_cursor_new. rewrite !Uint_ok by lia.
  cbn [rlp_index_valid_maximum andb validated mbind outcome_bind].
  by rewrite !(proj2 (Z.leb_le _ _)) by lia.
Qed.

(** [with_current] at a position. *)
Lemma with_current_ok n p item :
  0 <= p <= n → n <= 2 ^ 20 →
  ∃ kc, with_current (p <? n) (mkIndexCursor (2 ^ 20) n p item) = Ok kc ∧ keys_at kc n p.
Proof.
  intros Hp Hn. destruct (Z.ltb_spec p n) as [Hlt|Hge]; cbn [with_current].
  - destruct (index_at_ok n p ltac:(lia)) as [E Hi]. unfold rlp_index_at_position. cbn [ic_count ic_position ic_maximum].
    rewrite E, bind_value, index_key_ok, index_item_ok, bind_value, index_cursor_new_ok by lia.
    eexists. split; [done|]. by split_and!; try lia.
  - eexists. split; [done|]. by split_and!; try lia.
Qed.

Lemma cursor_begin_ok n : 0 <= n <= 2 ^ 20 → ∃ kc, rlp_index_cursor n (2 ^ 20) = Ok kc ∧ keys_at kc n 0.
Proof.
  intros Hn. unfold rlp_index_cursor. rewrite path_empty_ok, index_item_ok, index_cursor_new_ok, bind_value by lia.
  assert (negb (n =? 0) = (0 <? n)) as -> by (destruct (Z.eqb_spec n 0), (Z.ltb_spec 0 n); cbn; lia).
  by apply with_current_ok; lia.
Qed.

Lemma cursor_pop_ok kc n p :
  keys_at kc n p → p < n →
  ∃ kc', rlp_index_cursor_pop kc =
    Ok (mkIndexItem (2 ^ 20) (nth_index n p) (path_of (index_key (nth_index n p))), kc') ∧ keys_at kc' n (p + 1).
Proof.
  intros (Hp & Hn & Em & Ec & Ep & Ei) Hlt. unfold rlp_index_cursor_pop, rlp_index_cursor_peek, rlp_index_cursor_advance.
  rewrite Em, Ec, Ep, (Ei Hlt), (proj2 (Z.ltb_lt _ _)), bind_value by lia.
  rewrite path_empty_ok, index_item_ok, index_cursor_new_ok, bind_value by lia. cbn [ic_position].
  destruct (with_current_ok n (p + 1) (mkIndexItem (2 ^ 20) 0 (path_of []))) as (kc' & -> & Hk); [lia..|].
  exists kc'. by rewrite bind_value.
Qed.

(** The items of an index trie, and in the order they are popped. *)
Definition entry (vs : list bytes) (i : Z) : list Z * bytes := (index_key i, default [] (vs !! Z.to_nat i)).
Definition index_items (vs : list bytes) : items := entry vs <$> seqZ 0 (Z.of_nat (length vs)).
Definition popped_from (vs : list bytes) (p : Z) : items :=
  entry vs <$> drop (Z.to_nat p) (index_order (Z.of_nat (length vs))).

Lemma popped_next vs p :
  0 <= p < Z.of_nat (length vs) →
  popped_from vs p = entry vs (nth_index (Z.of_nat (length vs)) p) :: popped_from vs (p + 1).
Proof.
  intros Hp. unfold popped_from. rewrite (drop_S _ (nth_index (Z.of_nat (length vs)) p) (Z.to_nat p)).
  - cbn [fmap list_fmap]. do 3 f_equal. lia.
  - unfold index_order. rewrite list_lookup_fmap, lookup_seqZ_lt by lia. cbn. do 2 f_equal. lia.
Qed.
Lemma popped_all vs p : Z.of_nat (length vs) <= p → popped_from vs p = [].
Proof.
  intros Hp. unfold popped_from. rewrite drop_ge; [done|]. unfold index_order. rewrite length_fmap, length_seqZ. lia.
Qed.

Lemma popped_in_order vs : Z.of_nat (length vs) <= 2 ^ 20 → in_order (popped_from vs 0).
Proof.
  set (n := Z.of_nat (length vs)). intros Hn. unfold popped_from. fold n. cbn [Z.to_nat drop].
  assert (∀ k p, 0 <= p → p + Z.of_nat k = n → in_order (entry vs <$> (nth_index n <$> seqZ p (Z.of_nat k)))) as Hk.
  { induction k as [|k IH]; intros p Hp Hpk; [constructor|]. rewrite seqZ_cons by lia. cbn [fmap list_fmap].
    replace (Z.pred (Z.of_nat (S k))) with (Z.of_nat k) by lia. replace (Z.succ p) with (p + 1) by lia.
    constructor; [apply IH; lia|]. apply Forall_fmap, Forall_fmap, Forall_forall. intros q Hq%elem_of_seqZ.
    cbn. destruct (index_at_ok n p), (index_at_ok n q); [lia..|]. apply index_key_lt; [lia..|].
    apply index_order_rank; lia. }
  unfold index_order. specialize (Hk (length vs) 0). fold n in Hk. apply Hk; lia.
Qed.

Lemma index_items_perm vs : popped_from vs 0 ≡ₚ index_items vs.
Proof. unfold popped_from, index_items. cbn [Z.to_nat drop]. by rewrite index_order_perm by lia. Qed.

Lemma index_items_keys vs : Z.of_nat (length vs) <= 2 ^ 20 → keys_ok 64 (index_items vs).
Proof.
  intros Hn. unfold keys_ok, index_items. apply Forall_fmap, Forall_forall. intros i Hi%elem_of_seqZ. cbn.
  destruct (index_key_shape i) as [H1 H2]; [lia|]. split; [done|lia].
Qed.

(** The items of the reference trie are the values under their index keys. *)
Lemma index_trie_get vs k v :
  Z.of_nat (length vs) <= 2 ^ 20 →
  (∀ i, vs !! i = Some v → trie_get (build 64 (index_items vs)) (index_key (Z.of_nat i)) = v) ∧
  (is_nibbles k → (∀ i, (i < length vs)%nat → k ≠ index_key (Z.of_nat i)) → trie_get (build 64 (index_items vs)) k = []).
Proof.
  intros Hn. rewrite <-(build_perm 64 _ _ (index_items_perm vs)).
  assert (keys_ok 64 (popped_from vs 0)) as Hk.
  { unfold keys_ok. rewrite (index_items_perm vs). by apply index_items_keys. }
  pose proof (popped_in_order vs Hn) as Hs. split.
  - intros i Hi. pose proof (lookup_lt_Some _ _ _ Hi). destruct (index_key_shape (Z.of_nat i)) as [Hnib _]; [lia|].
    apply (build_get 64 _ _ Hs Hk Hnib). rewrite (index_items_perm vs). apply list_elem_of_fmap. exists (Z.of_nat i).
    split; [unfold entry; by rewrite Nat2Z.id, Hi|]. apply elem_of_seqZ. lia.
  - intros Hnib Hno. apply (build_get 64 _ _ Hs Hk Hnib). intros v'. rewrite (index_items_perm vs).
    intros (i & E & Hi%elem_of_seqZ)%list_elem_of_fmap. apply (Hno (Z.to_nat i)); [lia|]. rewrite Z2Nat.id by lia. by injection E.
Qed.

(** ** Transactions *)

Lemma appends_data kind s p st st' :
  kind ≠ RScratch → appends p st st' →
  (slice_in kind s st.(sp_host) ↔ slice_in kind s st'.(sp_host)) ∧
  slice_data kind s st'.(sp_host) = slice_data kind s st.(sp_host).
Proof. intros Hk Ha. pose proof (appends_region _ _ _ _ Hk Ha) as E. unfold slice_in, slice_data. by rewrite E. Qed.

Lemma offsets_lookup parts : ∀ start i x,
  parts !! i = Some x → offsets start parts !! i = Some (start + py_len (List.concat (take i parts))).
Proof.
  induction parts as [|p parts IH]; intros start i x Hi; [done|]. destruct i as [|i].
  - cbn. f_equal. change (py_len []) with 0. lia.
  - cbn [offsets take List.concat]. change ((?o :: ?l) !! S i) with (l !! i).
    rewrite (IH _ _ x Hi), py_len_app. f_equal. lia.
Qed.

Lemma ssz_list_at_run st s maximum limit (vs : list bytes) i x :
  slice_in RInput s st → slice_data RInput s st = ssz_list vs → Z.of_nat (length vs) <= maximum <= 2 ^ 32 - 1 →
  0 <= limit → Forall (item_fits limit) vs → vs !! i = Some x →
  ∃ t, ssz_list_at (mkSszListRef maximum s (Z.of_nat (length vs)) limit) (Z.of_nat i) st = (Ok t, st) ∧
    slice_in RInput t st ∧ slice_data RInput t st = x.
Proof.
  intros Hs Hd Hm Hlim Hfit Hi. pose proof (lookup_lt_Some _ _ _ Hi) as Hil.
  destruct (ssz_list_counted st s Hs vs maximum Hd ltac:(lia)) as (Hc & Hdrop & Htab).
  pose proof (counted_wf st s Hs _ maximum limit ltac:(lia) Hlim Hc) as Hwf.
  set (n := Z.of_nat (length vs)) in *. set (l := mkSszListRef maximum s n limit) in *.
  pose proof (data_len st s Hs) as Hdl. rewrite Hd in Hdl.
  assert (py_len (ssz_list vs) = 4 * n + py_len (List.concat vs)) as Hll.
  { unfold ssz_list. by rewrite py_len_app, table_len, offsets_length. }
  set (o := λ j, 4 * n + py_len (List.concat (take j vs))).
  assert (∀ j, (j < length vs)%nat → u32_at (slice_data RInput s st) (4 * Z.of_nat j) = o j) as Ho.
  { intros j Hj. destruct (lookup_lt_is_Some_2 vs j Hj) as [y Hy].
    pose proof (offsets_lookup vs (4 * n) j y Hy) as Ej. destruct j as [|j].
    - destruct Hc as (_ & [[_ E0]|(_ & E0 & _)]); [lia|]. change (4 * Z.of_nat 0) with 0. rewrite E0.
      unfold o. change (py_len (List.concat (take 0 vs))) with 0. lia.
    - etrans; [|exact (Htab j _ Ej)]. f_equal. lia. }
  assert (o i + py_len x = o (S i)) as Hox.
  { unfold o. rewrite (take_S_r _ _ _ Hi), List.concat_app, py_len_app. cbn. rewrite app_nil_r. lia. }
  assert (o (S i) <= s.(sl_len)) as Hend.
  { rewrite <-Hdl, Hll. unfold o. rewrite <-(take_drop (S i) vs) at 2. rewrite List.concat_app, py_len_app.
    pose proof (py_len_nonneg (List.concat (drop (S i) vs))). lia. }
  assert (0 <= o i) as Ho0 by (unfold o; pose proof (py_len_nonneg (List.concat (take i vs))); lia).
  pose proof (py_len_nonneg x). pose proof Hs as (Hs0 & _ & _ & Hsm).
  assert (stop_at st s l (Z.of_nat i + 1) = o (S i)) as Hstop.
  { unfold stop_at. change (lr_count l) with n. destruct (Z.ltb_spec (Z.of_nat i + 1) n).
    - replace (4 * (Z.of_nat i + 1)) with (4 * Z.of_nat (S i)) by lia. apply Ho. lia.
    - rewrite <-Hdl, Hll. unfold o. rewrite take_ge by lia. lia. }
  exists (mkSlice (s.(sl_bytes) + o i) (py_len x)).
  assert (slice_data RInput (mkSlice (s.(sl_bytes) + o i) (py_len x)) st = x) as Hx.
  { rewrite (span_data st s Hs) by lia.
    replace (Z.to_nat (o i)) with (Z.to_nat (4 * n) + Z.to_nat (py_len (List.concat (take i vs))))%nat by (unfold o; pose proof (py_len_nonneg (List.concat (take i vs))); lia).
    rewrite <-drop_drop, Hdrop. rewrite <-(take_drop i vs) at 2. rewrite List.concat_app, drop_py_len.
    rewrite (drop_S _ _ _ Hi). cbn [List.concat]. apply take_py_len. }
  split; [|split; [|done]].
  - unfold ssz_list_at. change (lr_count l) with n. rewrite (proj2 (Z.ltb_lt _ _)) by lia.
    rewrite bind_run, of_outcome_run. unfold ssz_offset_table_position, ssz_offset.
    pose proof Hwf as (_ & _ & _ & Ht & _). change (lr_count l) with n in Ht.
    rewrite BoundedUint_ok by lia. rewrite bind_run, of_outcome_run. change (lr_bytes l) with s.
    rewrite bind_run, (ssz_u32_in_slice_run st s Hs) by lia. rewrite (proj2 (Z.leb_le _ _)) by lia.
    rewrite (Z.mul_comm (Z.of_nat i)), Ho by done. unfold ssz_offset_to_source_pointer, code_length.
    rewrite bind_run, of_outcome_run, Uint_ok by done.
    rewrite bind_run, (item_stop_run st s Hs) by (done || lia).
    rewrite Hstop, of_outcome_run. rewrite (ssz_item_ok st s Hs) by done.
    replace (o (S i) - o i) with (py_len x) by lia.
    rewrite bool_decide_true; [done|]. split; [lia|]. rewrite Forall_lookup in Hfit. destruct (Hfit _ _ Hi); [by left|right].
    change (max_item_length l) with limit. lia.
  - destruct Hs as (S1 & S2 & S3 & S4). split_and!; cbn [sl_bytes sl_len]; lia.
Qed.

Section transactions.
Context `{Keccak} (N : Z) (HN : 700 <= N) (st0 : SpecState) (s : Slice) (maximum limit : Z) (vs : list bytes).
Context (Hs : slice_in RInput s st0.(sp_host)) (Hdata : slice_data RInput s st0.(sp_host) = ssz_list vs).
Context (Hmax : Z.of_nat (length vs) <= maximum <= 2 ^ 32 - 1) (Hcount : Z.of_nat (length vs) <= 2 ^ 20).
Context (Hlim : 0 <= limit) (Hitems : Forall (item_fits limit) vs) (Hfits : Forall (fits N) vs).
Let txs : BoundedSszListRef := mkSszListRef maximum s (Z.of_nat (length vs)) limit.
Let n : Z := Z.of_nat (length vs).

Definition transactions_at (c : IndexedTrieCursor) (l : items) (st : SpecState) : Prop :=
  (∃ p, appends p st0 st) ∧ room st N ∧ c.(receipt_remaining) = EMPTY_SCRATCH_SLICE ∧
  ∃ p, keys_at c.(tc_keys) n p ∧ l = popped_from vs p.

Lemma transactions_next c x l st :
  transactions_at c (x :: l) st →
  ∃ p, keys_at c.(tc_keys) n p ∧ p < n ∧ x = entry vs (nth_index n p) ∧ l = popped_from vs (p + 1) ∧
    0 <= nth_index n p < n.
Proof using Type.
  intros (_ & _ & _ & p & Hk & E). exists p. split; [done|].
  assert (p < n) as Hp.
  { destruct (Z.lt_ge_cases p n) as [|Hge]; [done|]. by rewrite popped_all in E. }
  destruct Hk as [Hp0 _]. rewrite popped_next in E by (fold n; lia). injection E as -> ->.
  destruct (index_at_ok n p) as [_ Hi]; [lia|]. by split_and!; try lia.
Qed.

Lemma transactions_trie_ok :
  arena_wf st0 → room st0 N →
  gives (transaction_trie_root txs) st0 (root_of (build 64 (index_items vs))).
Proof using HN Hs Hdata Hmax Hcount Hlim Hitems Hfits.
  intros Hw Hr. destruct (cursor_begin_ok n) as (kc & Ekc & Hkc); [lia|].
  rewrite <-(build_perm 64 _ _ (index_items_perm vs)).
  unfold transaction_trie_root.
  refine (trie_root_ok N HN (IndexedTransactions txs) transactions_at _ _ _ _ _ _
    (mkIndexedTrieCursor kc EMPTY_SCRATCH_SLICE EMPTY_SCRATCH_SLICE) (popped_from vs 0) st0 _ _ _ _ _).
  - intros c st (_ & _ & _ & p & Hk & E). unfold indexed_trie_cursor_empty, rlp_index_cursor_empty.
    destruct Hk as (Hp & _ & _ & -> & -> & _). apply Z.eqb_eq.
    destruct (Z.lt_ge_cases p n) as [Hlt|]; [|lia]. rewrite popped_next in E by (fold n; lia). done.
  - intros c k v l st Hc. destruct (transactions_next _ _ _ _ Hc) as (p & Hk & Hp & [= -> _] & _ & Hi).
    destruct (index_key_shape (nth_index n p)) as [H1 H2]; [lia|]. split; [split; [done|lia]|].
    destruct Hk as (_ & _ & _ & Ec & Ep & Ecur). unfold indexed_trie_cursor_empty, rlp_index_cursor_empty,
      indexed_trie_cursor_key, rlp_index_cursor_peek. rewrite Ec, Ep, (Ecur Hp).
    split; [apply Z.eqb_neq; lia|]. by rewrite (proj2 (Z.ltb_lt _ _)) by done.
  - intros c k v l st Hc. pose proof Hc as ((q & Ha) & Hr' & Hrec & _).
    destruct (transactions_next _ _ _ _ Hc) as (p & Hk & Hp & [= -> ->] & -> & Hi).
    destruct (cursor_pop_ok _ _ _ Hk Hp) as (kc' & Epop & Hk').
    destruct (lookup_lt_is_Some_2 vs (Z.to_nat (nth_index n p))) as [x Hx]; [lia|]. rewrite Hx. cbn [default].
    destruct (appends_data RInput s _ _ _ ltac:(done) Ha) as [Hin Hd].
    destruct (ssz_list_at_run st.(sp_host) s maximum limit vs (Z.to_nat (nth_index n p)) x) as (t & Et & Ht & Htd);
      [by apply Hin|by rewrite Hd|done..|]. rewrite Z2Nat.id in Et by lia.
    change (ssz_list_at txs (nth_index n p) st.(sp_host) = (Ok t, st.(sp_host))) in Et.
    exists (InputTrieLeaf t), (mkIndexedTrieCursor kc' c.(receipt_zero) c.(receipt_remaining)), [], st.
    split; [|split; [apply appends_refl, Ha|split]].
    + unfold indexed_trie_pop. rewrite bind_run, of_outcome_run, Epop, bind_run. cbn [ii_index ii_key].
      by rewrite bind_run, (host_read _ _ _ Et), ret_run, ret_run.
    + split; [by exists q|]. split; [done|]. split; [done|]. by exists (p + 1).
    + split; [|done]. by split.
  - intros c l st st' ((q & Ha) & Hr' & Hrest) Ha'. split; [exists (q ++ []); by eapply appends_trans|].
    split; [|done]. by apply (appends_room [] _ _ _ Ha').
  - intros c l st ((q & Ha) & Hr' & _). split; [apply Ha|]. split; [done|]. unfold room in Hr'.
    pose proof (py_len_nonneg (arena st)). lia.
  - intros c st (_ & _ & -> & _). done.
  - unfold indexed_trie_begin. cbn [indexed_receipt_parts source_count]. rewrite bind_run, ret_run, bind_run, of_outcome_run.
    change (lr_count txs) with n. by rewrite Ekc, ret_run.
  - split; [exists []; by apply appends_refl|]. split; [done|]. split; [done|]. by exists 0.
  - by apply popped_in_order.
  - unfold keys_ok. rewrite (index_items_perm vs). by apply index_items_keys.
  - rewrite (index_items_perm vs). unfold index_items. apply Forall_fmap, Forall_forall. intros i Hi%elem_of_seqZ.
    cbn. destruct (lookup_lt_is_Some_2 vs (Z.to_nat i)) as [x Hx]; [lia|]. rewrite Hx. cbn.
    rewrite Forall_lookup in Hfits. by eapply Hfits.
Qed.
End transactions.

(** C20: the transactions root is the Merkle Patricia root of the transactions
    under the RLP encodings of their indices: when the list in the input is the
    SSZ encoding of [vs], the one pass over the keys in their order returns the
    root of the trie that has each transaction under its index and nothing
    anywhere else, and leaves the arena as it was. *)
Theorem transaction_trie_root_exact `{Keccak} (st : SpecState) (s : Slice) (maximum limit N : Z) (vs : list bytes) :
  arena_wf st → slice_in RInput s st.(sp_host) → slice_data RInput s st.(sp_host) = ssz_list vs →
  Z.of_nat (length vs) <= maximum <= 2 ^ 20 → 0 <= limit → Forall (item_fits limit) vs →
  700 <= N → room st N → Forall (fits N) vs →
  let txs := mkSszListRef maximum s (Z.of_nat (length vs)) limit in
  let t := build 64 (index_items vs) in
  gives (transaction_trie_root txs) st (root_of t) ∧
  (∀ i v, vs !! i = Some v → trie_get t (index_key (Z.of_nat i)) = v) ∧
  (∀ k, is_nibbles k → (∀ i, (i < length vs)%nat → k ≠ index_key (Z.of_nat i)) → trie_get t k = []).
Proof.
  intros Hw Hs Hd Hmax Hlim Hitems HN Hr Hf txs t. split; [|split].
  - apply (transactions_trie_ok N HN st s maximum limit vs); try done; lia.
  - intros i v. apply (index_trie_get vs [] v). lia.
  - intros k. apply (index_trie_get vs k []). lia.
Qed.

(** Three transactions, one of them long: two levels of branches. *)
Definition three_items : list bytes := [zeros 9; repeat Byte.xab 40; zeros 7].
Definition three_state : SpecState :=
  mkSpec (set_regions (set_stateless_input_bytes (ssz_list three_items) initial_state.(regions)) initial_state)
    initial_environment EMPTY_SCRATCH_SLICE.
Lemma transaction_trie_root_exact_witness :
  fst (@transaction_trie_root toy_Keccak (mkSszListRef (2 ^ 20) (mkSlice 0 68) 3 0) three_state) =
    Ok (@root_of toy_Keccak (build 64 (index_items three_items))) ∧
  trie_get (build 64 (index_items three_items)) [8; 0] = zeros 9.
Proof.
  destruct (@transaction_trie_root_exact toy_Keccak three_state (mkSlice 0 68) (2 ^ 20) 0 700 three_items)
    as ((st' & E & _) & Hget & _).
  - vm_compute. intuition congruence.
  - vm_compute. intuition congruence.
  - vm_compute. reflexivity.
  - vm_compute. intuition congruence.
  - lia.
  - repeat constructor.
  - lia.
  - vm_compute. congruence.
  - repeat constructor; vm_compute; congruence.
  - split; [exact (f_equal fst E)|]. exact (Hget 0%nat _ eq_refl).
Defined.
End IndexTrie.
