(* ===== verification/BlockAccessList.v ===== *)
(** * BlockAccessList: the block access list of a payload against the one recorded

    [lib/rlp/codecs/block_access_list.py] and
    [executor/block_access_list.py]. The validator decodes the list of the
    payload and takes one event off the host's iterator for each item it
    meets; an item that is not the next event, or is not encoded canonically,
    is a fatal error. Every recursive call consumes at least one byte of its
    cursor, so the bytes left are fuel enough. *)

From Stdlib Require Import ZArith Lia Strings.Byte.
From stdpp Require Import base tactics option list gmap.
From S2P Require Import Prelude PyBytes HostTypes SailRuntime Words ChainConfig Regions RegionAccess Gas Crypto CodeDb Bal Environment Rlp Kernel TrieCodec Ssz StatelessInput.
Local Open Scope Z_scope.

Definition BLOCK_ACCESS_LIST_ITEM_GAS : Z := 2000.

(** ** Canonical fields *)

Definition bal_ref_cursor (f : RlpFieldRef) : M HostState Slice :=
  framing_canonical ← rlp_ref_framing_canonical f;
  of_outcome (if f.(is_list) && framing_canonical then rlp_decode_list f else fatal_error).

Definition bal_ref_bytes (f : RlpFieldRef) : M HostState Slice :=
  canonical ← rlp_ref_bytes_canonical f;
  of_outcome (if canonical : bool then rlp_item_content f else fatal_error).

Definition bal_ref_word (f : RlpFieldRef) : M HostState Z :=
  canonical ← rlp_item_uint_canonical f;
  if canonical && (f.(content_len) <=? 32)
  then w ← rlp_decode_word f; of_outcome (word w) else of_outcome fatal_error.

Definition bal_ref_uint64 (f : RlpFieldRef) : M HostState Z :=
  canonical ← rlp_item_uint_canonical f;
  if canonical && (f.(content_len) <=? 8)
  then v ← rlp_decode_uint64 f; of_outcome (ssz_uint v) else of_outcome fatal_error.

Definition bal_expect_end (cursor : Slice) : M HostState unit :=
  if cursor.(sl_len) =? 0 then mret tt else of_outcome fatal_error.

(** [field = rlp_decode_item(fields); fields = rlp_cursor_advance(...)], as
    in [next_item] of the trie's decoder. *)
Definition bal_item (fields : Slice) : M HostState (RlpFieldRef * Slice) := next_item RInput fields.

(** ** Pairs of an index and a value *)

(** The two fields of a pair, with nothing after them. *)
Definition bal_pair (field : RlpFieldRef) : M HostState (RlpFieldRef * RlpFieldRef) :=
  fields ← bal_ref_cursor field;
  '(index_field, fields) ← bal_item fields;
  '(value_field, fields) ← bal_item fields;
  bal_expect_end fields;; mret (index_field, value_field).

Definition bal_compare_index_word (field : RlpFieldRef) (index value : Z) : M HostState unit :=
  '(index_field, value_field) ← bal_pair field;
  decoded_index ← bal_ref_uint64 index_field;
  decoded_value ← bal_ref_word value_field;
  fatal_if (negb (decoded_index =? index) || negb (decoded_value =? value)).

Definition bal_compare_index_nonce (field : RlpFieldRef) (index value : Z) : M HostState unit :=
  '(index_field, value_field) ← bal_pair field;
  decoded_index ← bal_ref_uint64 index_field;
  decoded_value ← bal_ref_uint64 value_field;
  fatal_if (negb (decoded_index =? index) || negb (decoded_value =? value)).

Definition bal_compare_index_code `{Keccak} (field : RlpFieldRef) (index : Z) (code_hash : hash) :
    M HostState unit :=
  '(index_field, code_field) ← bal_pair field;
  code ← code_db_resolve code_hash;
  decoded_index ← bal_ref_uint64 index_field;
  encoded_code ← bal_ref_bytes code_field;
  expected_code ← of_outcome (code_bytes_slice code);
  code_matches ← input_code_slices_equal encoded_code expected_code;
  fatal_if (negb (decoded_index =? index) || negb code_matches).

(** ** Lists of changes *)

Definition next_event : M HostState BalIterEntry := zoom bal_iter_next.

(** [match event: case ...: ... case _: fatal_error(...)] *)
Definition unexpected {A} : M HostState A := of_outcome fatal_error.

Section changes.
Context `{Keccak}.

(** The loops over a list of pairs: an event for each. *)
Fixpoint bal_validate_pairs (fuel : nat) (check : RlpFieldRef → BalIterEntry → M HostState unit)
    (cursor : Slice) : M HostState unit :=
  if cursor.(sl_len) =? 0 then mret tt
  else match fuel with
  | O => of_outcome (Raise (RuntimeError "maximum recursion depth exceeded"))
  | S fuel' =>
      '(field, next) ← bal_item cursor;
      event ← next_event;
      check field event;;
      bal_validate_pairs fuel' check next
  end.
Definition bal_pairs (check : RlpFieldRef → BalIterEntry → M HostState unit) (cursor : Slice) :
    M HostState unit := bal_validate_pairs (Z.to_nat cursor.(sl_len)) check cursor.

Definition storage_change_matches (slot : Z) (field : RlpFieldRef) (event : BalIterEntry) : M HostState unit :=
  match event with
  | BalStorageChange s index value =>
      fatal_if (negb (s =? slot));; bal_compare_index_word field index value
  | _ => unexpected
  end.
Definition balance_change_matches (field : RlpFieldRef) (event : BalIterEntry) : M HostState unit :=
  match event with
  | BalBalanceChange index value => bal_compare_index_word field index value
  | _ => unexpected
  end.
Definition nonce_change_matches (field : RlpFieldRef) (event : BalIterEntry) : M HostState unit :=
  match event with
  | BalNonceChange index value => bal_compare_index_nonce field index value
  | _ => unexpected
  end.
Definition code_change_matches (field : RlpFieldRef) (event : BalIterEntry) : M HostState unit :=
  match event with
  | BalCodeChange index code_hash => bal_compare_index_code field index code_hash
  | _ => unexpected
  end.

Definition bal_validate_storage_change_values (cursor : Slice) (slot : Z) : M HostState unit :=
  bal_pairs (storage_change_matches slot) cursor.
Definition bal_validate_balance_changes (cursor : Slice) : M HostState unit :=
  bal_pairs balance_change_matches cursor.
Definition bal_validate_nonce_changes (cursor : Slice) : M HostState unit :=
  bal_pairs nonce_change_matches cursor.
Definition bal_validate_code_changes (cursor : Slice) : M HostState unit :=
  bal_pairs code_change_matches cursor.

(** The loops that count: one for each slot, read and account. *)
Fixpoint bal_count (fuel : nat) (step : RlpFieldRef → M HostState Z) (cursor : Slice) : M HostState Z :=
  if cursor.(sl_len) =? 0 then mret 0
  else match fuel with
  | O => of_outcome (Raise (RuntimeError "maximum recursion depth exceeded"))
  | S fuel' =>
      '(field, next) ← bal_item cursor;
      items ← step field;
      rest ← bal_count fuel' step next;
      of_outcome (Uint (items + rest))
  end.
Definition bal_counted (step : RlpFieldRef → M HostState Z) (cursor : Slice) : M HostState Z :=
  bal_count (Z.to_nat cursor.(sl_len)) step cursor.

(** The body of [bal_validate_storage_changes]: a slot and its changes. *)
Definition bal_validate_slot (slot_field : RlpFieldRef) : M HostState Z :=
  fields ← bal_ref_cursor slot_field;
  '(slot_value, fields) ← bal_item fields;
  '(changes_value, fields) ← bal_item fields;
  bal_expect_end fields;;
  changes ← bal_ref_cursor changes_value;
  fatal_if (changes.(sl_len) =? 0);;
  slot ← bal_ref_word slot_value;
  bal_validate_storage_change_values changes slot;; mret 1.
Definition bal_validate_storage_changes (cursor : Slice) : M HostState Z :=
  bal_counted bal_validate_slot cursor.

Definition bal_validate_read (slot_field : RlpFieldRef) : M HostState Z :=
  slot ← bal_ref_word slot_field;
  event ← next_event;
  match event with
  | BalStorageRead recorded => fatal_if (negb (recorded =? slot));; mret 1
  | _ => unexpected
  end.
Definition bal_validate_storage_reads (cursor : Slice) : M HostState Z :=
  bal_counted bal_validate_read cursor.

(** The body of [bal_validate_accounts]. *)
Definition bal_validate_account (account_field : RlpFieldRef) : M HostState Z :=
  fields ← bal_ref_cursor account_field;
  '(address_field, fields) ← bal_item fields;
  '(storage_changes_field, fields) ← bal_item fields;
  '(storage_reads_field, fields) ← bal_item fields;
  '(balance_changes_field, fields) ← bal_item fields;
  '(nonce_changes_field, fields) ← bal_item fields;
  '(code_changes_field, fields) ← bal_item fields;
  bal_expect_end fields;;
  address_bytes ← bal_ref_bytes address_field;
  address_word ← rlp_decode_word address_field;
  account ← of_outcome (word_to_address address_word);
  fatal_if (negb (address_bytes.(sl_len) =? 20));;
  account_event ← next_event;
  match account_event with
  | BalAccount recorded => fatal_if (negb (bool_decide (recorded = account)))
  | _ => unexpected
  end;;
  storage_changes_cursor ← bal_ref_cursor storage_changes_field;
  storage_changes ← bal_validate_storage_changes storage_changes_cursor;
  storage_reads_cursor ← bal_ref_cursor storage_reads_field;
  storage_reads ← bal_validate_storage_reads storage_reads_cursor;
  balance_changes_cursor ← bal_ref_cursor balance_changes_field;
  bal_validate_balance_changes balance_changes_cursor;;
  nonce_changes_cursor ← bal_ref_cursor nonce_changes_field;
  bal_validate_nonce_changes nonce_changes_cursor;;
  code_changes_cursor ← bal_ref_cursor code_changes_field;
  bal_validate_code_changes code_changes_cursor;;
  account_end_event ← next_event;
  match account_end_event with
  | BalAccountEnd => mret (1 + storage_changes + storage_reads)
  | _ => unexpected
  end.
Definition bal_validate_accounts (cursor : Slice) : M HostState Z :=
  bal_counted bal_validate_account cursor.

Definition validate_block_access_list (bytes : Slice) (block_gas_limit : Z) : M HostState unit :=
  zoom bal_prepare_iter;;
  root ← rlp_single_ref bytes;
  accounts_cursor ← bal_ref_cursor root;
  bal_items ← bal_validate_accounts accounts_cursor;
  remaining_event ← next_event;
  match remaining_event with BalEmpty => mret tt | _ => unexpected end;;
  fatal_if (block_gas_limit <? BLOCK_ACCESS_LIST_ITEM_GAS * bal_items).
End changes.
