(* ===== verification/Htr.v ===== *)
(** * Htr: the hash tree root of a payload request

    [lib/htr.py]: Merkle roots of the leaves of lists and containers, over
    SHA-256, with the roots of empty subtrees from a table. The five copies of
    the recursion over a subtree differ in their leaves, which are an argument
    here. The theorems compare the roots with the full binary tree of the SSZ
    specification, padded with zero leaves. *)

From Stdlib Require Import ZArith Lia Strings.Byte.
From stdpp Require Import base tactics option list.
From S2P Require Import Prelude PyBytes HostTypes SailRuntime Words ChainConfig Regions RegionAccess Gas Sha256 Crypto WordTheorems WordBits RegionFacts RlpTheorems TriePathTheorems Environment Rlp Machine Ssz StatelessInput Receipts.
Local Open Scope Z_scope.

Definition htr_depth (v : Z) : outcome Z := BoundedUint 0 25 v.
Definition htr_leaf_count (v : Z) : outcome Z := BoundedUint 0 33554432 v.

(** [SSZ_ZERO_HASH_01] to [SSZ_ZERO_HASH_25]: the roots of subtrees of zero
    leaves. *)
Definition ssz_zero_hashes : list Z :=
  [0xf5a5fd42d16a20302798ef6ed309979b43003d2320d9f0e8ea9831a92759fb4b;
   0xdb56114e00fdd4c1f85c892bf35ac9a89289aaecb1ebd0a96cde606a748b5d71;
   0xc78009fdf07fc56a11f122370658a353aaa542ed63e44c4bc15ff4cd105ab33c;
   0x536d98837f2dd165a55d5eeae91485954472d56f246df256bf3cae19352a123c;
   0x9efde052aa15429fae05bad4d0b1d7c64da64d03d7a1854a588c2cb8430c0d30;
   0xd88ddfeed400a8755596b21942c1497e114c302e6118290f91e6772976041fa1;
   0x87eb0ddba57e35f6d286673802a4af5975e22506c7cf4c64bb6be5ee11527f2c;
   0x26846476fd5fc54a5d43385167c95144f2643f533cc85bb9d16b782f8d7db193;
   0x506d86582d252405b840018792cad2bf1259f1ef5aa5f887e13cb2f0094f51e1;
   0xffff0ad7e659772f9534c195c815efc4014ef1e1daed4404c06385d11192e92b;
   0x6cf04127db05441cd833107a52be852868890e4317e6a02ab47683aa75964220;
   0xb7d05f875f140027ef5118a2247bbb84ce8f2f0f1123623085daf7960c329f5f;
   0xdf6af5f5bbdb6be9ef8aa618e4bf8073960867171e29676f8b284dea6a08a85e;
   0xb58d900f5e182e3c50ef74969ea16c7726c549757cc23523c369587da7293784;
   0xd49a7502ffcfb0340b1d7885688500ca308161a7f96b62df9d083b71fcc8f2bb;
   0x8fe6b1689256c0d385f42f5bbe2027a22c1996e110ba97c171d3e5948de92beb;
   0x8d0d63c39ebade8509e0ae3c9c3876fb5fa112be18f905ecacfecb92057603ab;
   0x95eec8b2e541cad4e91de38385f2e046619f54496c2382cb6cacd5b98c26f5a4;
   0xf893e908917775b62bff23294dbbe3a1cd8e6cc1c35b4801887b646a6f81f17f;
   0xcddba7b592e3133393c16194fac7431abf2f5485ed711db282183c819e08ebaa;
   0x8a8d7fe3af8caa085a7639a832001457dfb9128a8061142ad0335629ff23ff9c;
   0xfeb3c337d7a51a6fbf00b9e34c52e1c9195c969bd4e7a0bfd51d5c5bed9c1167;
   0xe71f0aa83cc32edfbefa9f4d3e0174ca85182eec9f3a09f6a6c0df6377a510d7;
   0x31206fa80a50bb6abe29085058f16212212a60eec8f049fecb92d8c8e0a84bc0;
   0x21352bfecbeddde993839f614c3dac0a3ee37543f9b412b16199dc158e23b544].

Definition ssz_zero_hash (level : Z) : outcome hash :=
  if level =? 0 then Bytes32 ZERO_HASH
  else
    let index := if level <=? 24 then level else 25 in
    h ← hash_from_bits (bits_of 256 (default 0 (ssz_zero_hashes !! Z.to_nat (index - 1)))); Bytes32 h.

Definition htr_leaf_capacity (depth : Z) : outcome Z :=
  htr_leaf_count (if depth <=? 24 then 2 ^ depth else 33554432).

(** The recursion over a subtree of [depth], whose first [count] leaves are
    those from [start] on. *)
Fixpoint subtree_root {S} (leaf : Z → M S hash) (depth : nat) (start count : Z) : M S hash :=
  if count =? 0 then of_outcome (ssz_zero_hash (Z.of_nat depth))
  else match depth with
  | O => if count =? 1 then h ← leaf start; of_outcome (Bytes32 h) else of_outcome fatal_error
  | Datatypes.S child_depth =>
      half ← of_outcome (htr_leaf_capacity (Z.of_nat child_depth));
      let left_count := if count <? half then count else half in
      let right_count := if count <? half then 0 else count - half in
      left_root ← subtree_root leaf child_depth start left_count;
      right_root ← subtree_root leaf child_depth (start + half) right_count;
      of_outcome (Bytes32 (sha256_pair left_root right_root))
  end.

(** ** Vectors of roots *)

Definition vector_leaf (leaves : list hash) (start : Z) : M HostState hash :=
  if start <? py_len leaves
  then of_outcome (sail_vector_access leaves (py_len leaves - 1 - start) false)
  else of_outcome fatal_error.
Definition merkleize_vector_subtree (leaves : list hash) (start count : Z) (depth : nat) :
    M HostState hash := subtree_root (vector_leaf leaves) depth start count.

Definition merkleize (leaves : list hash) (depth : nat) : M HostState hash :=
  let count := py_len leaves in
  capacity ← of_outcome (htr_leaf_capacity (Z.of_nat depth));
  if count <=? capacity then merkleize_vector_subtree leaves 0 count depth
  else of_outcome fatal_error.

(** ** Basic values *)

(** The updates [bytes[k] = Bits(8, value >> 8 * k)]. *)
Fixpoint scatter_le (v : Z) (ks : list Z) (result : hash) : outcome hash :=
  match ks with
  | [] => Ok result
  | k :: ks' =>
      result ← sail_vector_update result k (byte_wrap (Z.shiftr v (8 * k))) false;
      result ← Bytes32 result; scatter_le v ks' result
  end.
Definition htr_uint (v : Z) : outcome hash := h ← scatter_le v (seqZ 0 8) ZERO_HASH; Bytes32 h.
Definition htr_u256 (v : Z) : outcome hash := h ← scatter_le v (seqZ 0 32) ZERO_HASH; Bytes32 h.
Definition htr_bytes32 (b : hash) : outcome hash := Bytes32 b.

(** The updates [bytes[k] = address_bytes[k]]. *)
Fixpoint copy_address (a : address) (ks : list Z) (result : hash) : outcome hash :=
  match ks with
  | [] => Ok result
  | k :: ks' =>
      b ← sail_vector_access a k false;
      result ← sail_vector_update result k b false;
      result ← Bytes32 result; copy_address a ks' result
  end.
Definition htr_addr (a : address) : outcome hash := h ← copy_address a (seqZ 0 20) ZERO_HASH; Bytes32 h.

Definition htr_length_chunk (sail_len : Z) : outcome hash :=
  length_word ← word_of_source_byte_count sail_len; htr_u256 length_word.
Definition mix_in_length (root : hash) (sail_len : Z) : outcome hash :=
  length_chunk ← htr_length_chunk sail_len; Bytes32 (sha256_pair root length_chunk).

(** The loop of [clog2]: halvings of [n - 1] until it is zero. *)
Fixpoint clog2_loop (steps : list Z) (depth remaining : Z) : outcome Z :=
  match steps with
  | [] => htr_depth depth
  | _ :: steps' =>
      if negb (remaining =? 0) then
        d ← (if depth <? 25 then Ok (depth + 1) else fatal_error);
        depth ← htr_depth d;
        remaining ← sail_tdiv_int remaining 2; clog2_loop steps' depth remaining
      else clog2_loop steps' depth remaining
  end.
Definition clog2 (n : Z) : outcome Z :=
  steps ← sail_range 0 24 1 true; clog2_loop steps 0 (if n =? 0 then 0 else n - 1).

(** ** Bytes *)

Definition HTR_BYTE_LIST_LIMIT : Z := 1073741824.

Definition htr_chunk (bytes : Slice) (chunk_index : Z) : M HostState hash :=
  if chunk_index <=? 33554432 then
    chunk_word ← stateless_input_slice_load bytes (chunk_index * WORD_BYTE_LENGTH);
    of_outcome (h ← word_to_hash chunk_word; Bytes32 h)
  else of_outcome fatal_error.

Definition htr_chunk_count (byte_len : Z) : outcome Z :=
  if byte_len <=? HTR_BYTE_LIST_LIMIT then n ← sail_ediv_int (byte_len + 31) 32; htr_leaf_count n
  else fatal_error.

Definition htr_bytes_subtree (bytes : Slice) (start count : Z) (depth : nat) : M HostState hash :=
  subtree_root (htr_chunk bytes) depth start count.

Definition htr_bytes_root (bytes : Slice) (depth : Z) : M HostState hash :=
  count ← of_outcome (htr_chunk_count bytes.(sl_len));
  capacity ← of_outcome (htr_leaf_capacity depth);
  if count <=? capacity then h ← htr_bytes_subtree bytes 0 count (Z.to_nat depth); of_outcome (Bytes32 h)
  else of_outcome fatal_error.

Definition htr_bytevector (bytes : Slice) : M HostState hash :=
  depth ← of_outcome (chunks ← htr_chunk_count bytes.(sl_len); clog2 chunks);
  htr_bytes_root bytes depth.

Definition htr_bytelist (bytes : Slice) (limit_bytes : Z) : M HostState hash :=
  depth ← of_outcome (capacity ← htr_chunk_count limit_bytes; clog2 capacity);
  root ← htr_bytes_root bytes depth; of_outcome (mix_in_length root bytes.(sl_len)).

(** ** Fields of containers *)

Definition htr_ssz_uint (bytes : Slice) (offset : Z) : M HostState hash :=
  value ← decode_ssz_uint bytes offset; of_outcome (htr_uint value).
Definition htr_ssz_u256 (bytes : Slice) (offset : Z) : M HostState hash :=
  value ← ssz_u256 bytes offset; of_outcome (htr_u256 value).
Definition htr_ssz_bytes32 (bytes : Slice) (offset : Z) : M HostState hash :=
  value ← ssz_bytes32 bytes offset; of_outcome (htr_bytes32 value).
Definition htr_ssz_addr (bytes : Slice) (offset : Z) : M HostState hash :=
  value ← ssz_addr bytes offset; of_outcome (htr_addr value).
Definition htr_ssz_bytevector (bytes : Slice) (offset sail_len : Z) : M HostState hash :=
  if offset + sail_len <=? bytes.(sl_len) then
    field ← of_outcome (stateless_input_sub_slice bytes offset sail_len); htr_bytevector field
  else of_outcome fatal_error.

(** The fields of a container in order, each through its root. *)
Fixpoint field_roots (fields : list (M HostState hash)) : M HostState (list hash) :=
  match fields with
  | [] => mret []
  | f :: fields' => r ← f; rs ← field_roots fields'; mret (r :: rs)
  end.
Definition container_root (fields : list (M HostState hash)) (depth : nat) : M HostState hash :=
  roots ← field_roots fields; merkleize roots depth.

(** ** Transactions, withdrawals and versioned hashes *)

Definition htr_withdrawal (w : Slice) : M HostState hash :=
  container_root [htr_ssz_uint w WD_INDEX; htr_ssz_uint w WD_VALIDATOR_INDEX; htr_ssz_addr w WD_ADDRESS;
                  htr_ssz_uint w WD_AMOUNT] 2.

(** The root of a list: its leaves, then its length. *)
Definition list_root (leaf : Z → M HostState hash) (count : Z) (depth : nat) : M HostState hash :=
  root ← subtree_root leaf depth 0 count; of_outcome (mix_in_length root count).

Definition transaction_leaf (transactions : BoundedSszListRef) (start : Z) : M HostState hash :=
  transaction ← ssz_list_at transactions start; htr_bytelist transaction HTR_BYTE_LIST_LIMIT.
Definition htr_transactions_subtree (transactions : BoundedSszListRef) (start count : Z) (depth : nat) :
    M HostState hash := subtree_root (transaction_leaf transactions) depth start count.
Definition htr_transactions (transactions : BoundedSszListRef) : M HostState hash :=
  list_root (transaction_leaf transactions) transactions.(lr_count) 20.

Definition withdrawal_leaf (withdrawals : BoundedSszListRef) (start : Z) : M HostState hash :=
  withdrawal ← of_outcome (ssz_fixed_list_at withdrawals start WD_SIZE); htr_withdrawal withdrawal.
Definition htr_withdrawals_subtree (withdrawals : BoundedSszListRef) (start count : Z) (depth : nat) :
    M HostState hash := subtree_root (withdrawal_leaf withdrawals) depth start count.
Definition htr_withdrawals (withdrawals : BoundedSszListRef) : M HostState hash :=
  list_root (withdrawal_leaf withdrawals) withdrawals.(lr_count) 4.

Definition htr_versioned_hashes_subtree (versioned_hashes : Slice) (start count : Z) (depth : nat) :
    M HostState hash := subtree_root (htr_chunk versioned_hashes) depth start count.
Definition htr_versioned_hashes (versioned_hashes : Slice) : M HostState hash :=
  items ← of_outcome (ssz_bounded_fixed_list_ref versioned_hashes WORD_BYTE_LENGTH (Z.shiftl 1 12));
  list_root (htr_chunk versioned_hashes) items.(lr_count) 12.

(** ** Execution requests *)

Definition HTR_DEPOSIT_LENGTH : Z := 192.
Definition HTR_DEPOSIT_PUBKEY : Z := 0.
Definition HTR_DEPOSIT_PUBKEY_LENGTH : Z := 48.
Definition HTR_DEPOSIT_WITHDRAWAL_CREDENTIALS : Z := 48.
Definition HTR_DEPOSIT_AMOUNT : Z := 80.
Definition HTR_DEPOSIT_SIGNATURE : Z := 88.
Definition HTR_DEPOSIT_SIGNATURE_LENGTH : Z := 96.
Definition HTR_DEPOSIT_INDEX : Z := 184.
Definition HTR_WITHDRAWAL_REQUEST_LENGTH : Z := 76.
Definition HTR_REQUEST_SOURCE_ADDRESS : Z := 0.
Definition HTR_REQUEST_SOURCE_PUBKEY : Z := 20.
Definition HTR_REQUEST_PUBKEY_LENGTH : Z := 48.
Definition HTR_WITHDRAWAL_REQUEST_AMOUNT : Z := 68.
Definition HTR_CONSOLIDATION_REQUEST_LENGTH : Z := 116.
Definition HTR_CONSOLIDATION_REQUEST_TARGET_PUBKEY : Z := 68.
Definition HTR_BUILDER_DEPOSIT_LENGTH : Z := 184.
Definition HTR_BUILDER_DEPOSIT_PUBKEY : Z := 0.
Definition HTR_BUILDER_DEPOSIT_WITHDRAWAL_CREDENTIALS : Z := 48.
Definition HTR_BUILDER_DEPOSIT_AMOUNT : Z := 80.
Definition HTR_BUILDER_DEPOSIT_SIGNATURE : Z := 88.
Definition HTR_BUILDER_EXIT_LENGTH : Z := 68.
Definition HTR_BUILDER_EXIT_SOURCE_ADDRESS : Z := 0.
Definition HTR_BUILDER_EXIT_PUBKEY : Z := 20.

Definition htr_deposit (d : Slice) : M HostState hash :=
  container_root
    [htr_ssz_bytevector d HTR_DEPOSIT_PUBKEY HTR_DEPOSIT_PUBKEY_LENGTH;
     htr_ssz_bytes32 d HTR_DEPOSIT_WITHDRAWAL_CREDENTIALS; htr_ssz_uint d HTR_DEPOSIT_AMOUNT;
     htr_ssz_bytevector d HTR_DEPOSIT_SIGNATURE HTR_DEPOSIT_SIGNATURE_LENGTH;
     htr_ssz_uint d HTR_DEPOSIT_INDEX] 3.
Definition htr_withdrawal_request (r : Slice) : M HostState hash :=
  container_root
    [htr_ssz_addr r HTR_REQUEST_SOURCE_ADDRESS;
     htr_ssz_bytevector r HTR_REQUEST_SOURCE_PUBKEY HTR_REQUEST_PUBKEY_LENGTH;
     htr_ssz_uint r HTR_WITHDRAWAL_REQUEST_AMOUNT] 2.
Definition htr_consolidation_request (r : Slice) : M HostState hash :=
  container_root
    [htr_ssz_addr r HTR_REQUEST_SOURCE_ADDRESS;
     htr_ssz_bytevector r HTR_REQUEST_SOURCE_PUBKEY HTR_REQUEST_PUBKEY_LENGTH;
     htr_ssz_bytevector r HTR_CONSOLIDATION_REQUEST_TARGET_PUBKEY HTR_REQUEST_PUBKEY_LENGTH] 2.
Definition htr_builder_deposit_request (r : Slice) : M HostState hash :=
  container_root
    [htr_ssz_bytevector r HTR_BUILDER_DEPOSIT_PUBKEY HTR_REQUEST_PUBKEY_LENGTH;
     htr_ssz_bytes32 r HTR_BUILDER_DEPOSIT_WITHDRAWAL_CREDENTIALS;
     htr_ssz_uint r HTR_BUILDER_DEPOSIT_AMOUNT;
     htr_ssz_bytevector r HTR_BUILDER_DEPOSIT_SIGNATURE HTR_DEPOSIT_SIGNATURE_LENGTH] 2.
Definition htr_builder_exit_request (r : Slice) : M HostState hash :=
  container_root
    [htr_ssz_addr r HTR_BUILDER_EXIT_SOURCE_ADDRESS;
     htr_ssz_bytevector r HTR_BUILDER_EXIT_PUBKEY HTR_REQUEST_PUBKEY_LENGTH] 1.

Inductive HtrRequestKind : Type :=
| HtrDeposit | HtrWithdrawalRequest | HtrConsolidationRequest | HtrBuilderDepositRequest
| HtrBuilderExitRequest.

(** The length of a request and the root of one. *)
Definition request_length (kind : HtrRequestKind) : Z :=
  match kind with
  | HtrDeposit => HTR_DEPOSIT_LENGTH
  | HtrWithdrawalRequest => HTR_WITHDRAWAL_REQUEST_LENGTH
  | HtrConsolidationRequest => HTR_CONSOLIDATION_REQUEST_LENGTH
  | HtrBuilderDepositRequest => HTR_BUILDER_DEPOSIT_LENGTH
  | HtrBuilderExitRequest => HTR_BUILDER_EXIT_LENGTH
  end.
Definition request_root (kind : HtrRequestKind) : Slice → M HostState hash :=
  match kind with
  | HtrDeposit => htr_deposit
  | HtrWithdrawalRequest => htr_withdrawal_request
  | HtrConsolidationRequest => htr_consolidation_request
  | HtrBuilderDepositRequest => htr_builder_deposit_request
  | HtrBuilderExitRequest => htr_builder_exit_request
  end.

Definition htr_request_leaf (requests : Slice) (kind : HtrRequestKind) (index : Z) : M HostState hash :=
  let offset := index * request_length kind in
  if offset + request_length kind <=? requests.(sl_len) then
    request ← of_outcome (stateless_input_sub_slice requests offset (request_length kind));
    request_root kind request
  else of_outcome fatal_error.

Definition htr_requests_subtree (requests : Slice) (kind : HtrRequestKind) (start count : Z) (depth : nat) :
    M HostState hash := subtree_root (htr_request_leaf requests kind) depth start count.

(** The list of one kind of request. *)
Definition htr_request_list (requests : Slice) (kind : HtrRequestKind) (depth : nat) : M HostState hash :=
  items ← of_outcome (ssz_bounded_fixed_list_ref requests (request_length kind) (Z.shiftl 1 (Z.of_nat depth)));
  list_root (htr_request_leaf requests kind) items.(lr_count) depth.
Definition htr_deposits (s : Slice) : M HostState hash := htr_request_list s HtrDeposit 13.
Definition htr_withdrawal_requests (s : Slice) : M HostState hash := htr_request_list s HtrWithdrawalRequest 4.
Definition htr_consolidation_requests (s : Slice) : M HostState hash :=
  htr_request_list s HtrConsolidationRequest 1.
Definition htr_builder_deposit_requests (s : Slice) : M HostState hash :=
  htr_request_list s HtrBuilderDepositRequest 6.
Definition htr_builder_exit_requests (s : Slice) : M HostState hash :=
  htr_request_list s HtrBuilderExitRequest 4.

Definition htr_execution_requests (r : StatelessInputRef) : M HostState hash :=
  container_root
    [htr_deposits r.(deposits); htr_withdrawal_requests r.(withdrawal_requests);
     htr_consolidation_requests r.(consolidation_requests);
     htr_builder_deposit_requests r.(builder_deposit_requests);
     htr_builder_exit_requests r.(builder_exit_requests)] 3.

(** ** The payload request *)

Definition htr_execution_payload (r : StatelessInputRef) : M HostState hash :=
  let payload := r.(execution_payload) in
  container_root
    [htr_ssz_bytes32 payload 0; htr_ssz_addr payload PL_FEE_RECIPIENT;
     htr_ssz_bytes32 payload PL_STATE_ROOT; htr_ssz_bytes32 payload PL_RECEIPTS_ROOT;
     htr_ssz_bytevector payload PL_LOGS_BLOOM LOGS_BLOOM_BYTE_LENGTH;
     htr_ssz_bytes32 payload PL_PREV_RANDAO; htr_ssz_uint payload PL_BLOCK_NUMBER;
     htr_ssz_uint payload PL_GAS_LIMIT; htr_ssz_uint payload PL_GAS_USED;
     htr_ssz_uint payload PL_TIMESTAMP; htr_bytelist r.(extra_data) WORD_BYTE_LENGTH;
     htr_ssz_u256 payload PL_BASE_FEE; htr_ssz_bytes32 payload PL_BLOCK_HASH;
     htr_transactions r.(ir_transactions); htr_withdrawals r.(ir_withdrawals);
     htr_ssz_uint payload PL_BLOB_GAS_USED; htr_ssz_uint payload PL_EXCESS_BLOB_GAS;
     htr_bytelist r.(ir_block_access_list) HTR_BYTE_LIST_LIMIT;
     htr_ssz_uint payload PL_SLOT_NUMBER] 5.

Definition htr_new_payload_request (r : StatelessInputRef) : M HostState hash :=
  container_root
    [htr_execution_payload r; htr_versioned_hashes r.(versioned_hashes);
     htr_ssz_bytes32 r.(new_payload_request) NPR_BEACON_ROOT; htr_execution_requests r] 2.

(** ** The reference *)

(** [merkleize] of the SSZ specification: the root of the full binary tree
    over the chunks, zero chunks after the last, in wire order. *)
Fixpoint merkle (depth : nat) (chunks : list bytes) : bytes :=
  match depth with
  | O => default (zeros 32) (head chunks)
  | Datatypes.S child_depth =>
      let half := Z.to_nat (2 ^ Z.of_nat child_depth) in
      sha256 (merkle child_depth (take half chunks) ++ merkle child_depth (drop half chunks))
  end.

(** [pack]: the 32-byte chunks, the last padded with zeros. *)
Definition chunk_count (n : Z) : Z := (n + 31) / 32.
Definition chunk_at (data : bytes) (i : Z) : bytes := mem_range data (32 * i) 32.
Definition pack (data : bytes) : list bytes := chunk_at data <$> seqZ 0 (chunk_count (py_len data)).

Lemma merkle_length d chunks : Forall (λ c, length c = 32%nat) chunks → length (merkle d chunks) = 32%nat.
Proof.
  intros Hc. destruct d as [|d]; cbn [merkle]; [|apply sha256_length].
  destruct Hc as [|c chunks Hc]; [done|exact Hc].
Qed.

(** The table holds the roots of the empty trees. *)
Definition zero_step (k : nat) : bool :=
  match ssz_zero_hash (Z.of_nat k), ssz_zero_hash (Z.of_nat (Datatypes.S k)) with
  | Ok z, Ok z' => bool_decide (rev z' = sha256 (rev z ++ rev z))
  | _, _ => false
  end.
Lemma zero_steps : forallb zero_step (seq 0 25) = true.
Proof. vm_compute. reflexivity. Qed.

Lemma ssz_zero_hash_merkle d : (d <= 25)%nat → ssz_zero_hash (Z.of_nat d) = Ok (rev (merkle d [])).
Proof.
  induction d as [|d IH]; intros Hd; [done|].
  assert (In d (seq 0 25)) as Hin by (apply in_seq; lia).
  pose proof (proj1 (forallb_forall _ _) zero_steps d Hin) as H.
  unfold zero_step in H. rewrite IH in H by lia.
  destruct (ssz_zero_hash (Z.of_nat (Datatypes.S d))) as [z|]; [|done].
  apply bool_decide_eq_true in H. cbn [merkle]. rewrite take_nil, drop_nil.
  rewrite rev_involutive in H. by rewrite <-H, rev_involutive.
Qed.

Lemma sha256_pair_wire (l r : bytes) : sha256_pair (rev l) (rev r) = rev (sha256 (l ++ r)).
Proof. unfold sha256_pair, _bytes32_from_wire, _fixed_wire_bytes. by rewrite !rev_involutive. Qed.

Lemma leaf_capacity_ok d : (d <= 25)%nat → htr_leaf_capacity (Z.of_nat d) = Ok (2 ^ Z.of_nat d).
Proof.
  intros Hd. unfold htr_leaf_capacity, htr_leaf_count.
  assert (2 ^ Z.of_nat d <= 2 ^ 25) by (apply Z.pow_le_mono_r; lia).
  assert (0 < 2 ^ Z.of_nat d) by (apply Z.pow_pos_nonneg; lia).
  destruct (Z.leb_spec (Z.of_nat d) 24); [change (2 ^ 25) with 33554432 in *; apply BoundedUint_ok; lia|].
  assert (d = 25)%nat as -> by lia. done.
Qed.

Lemma Bytes32_wire (w : bytes) : length w = 32%nat → Bytes32 (rev w) = Ok (rev w).
Proof. intros Hw. unfold Bytes32. apply fixed_bytes_ok. unfold py_len. by rewrite length_rev, Hw. Qed.

(** The recursion over a subtree whose leaves read the chunks. *)
Lemma subtree_root_run {S} (leaf : Z → M S hash) (s : S) d : ∀ chunks start,
  (d <= 25)%nat → Z.of_nat (length chunks) <= 2 ^ Z.of_nat d →
  (∀ i c, chunks !! i = Some c → length c = 32%nat ∧ leaf (start + Z.of_nat i) s = (Ok (rev c), s)) →
  subtree_root leaf d start (py_len chunks) s = (Ok (rev (merkle d chunks)), s).
Proof.
  induction d as [|d IH]; intros chunks start Hd Hl Hc; cbn [subtree_root]; unfold py_len;
    destruct (Z.eqb_spec (Z.of_nat (length chunks)) 0) as [E|Hne];
    try (rewrite of_outcome_run, ssz_zero_hash_merkle by lia;
         assert (chunks = []) as -> by (apply length_zero_iff_nil; lia); done).
  - destruct chunks as [|c [|? ?]]; cbn in Hl, Hne; [lia| |lia].
    destruct (Hc 0%nat c eq_refl) as [Hc0 Hleaf]. rewrite Z.add_0_r in Hleaf. cbn [length].
    change (Z.of_nat 1 =? 1) with true. cbv iota.
    by rewrite bind_run, Hleaf, of_outcome_run, Bytes32_wire.
  - rewrite bind_run, of_outcome_run, leaf_capacity_ok by lia. cbv zeta.
    set (half := 2 ^ Z.of_nat d) in *.
    assert (0 < half) by (apply Z.pow_pos_nonneg; lia).
    assert (2 ^ Z.of_nat (Datatypes.S d) = 2 * half) as E2.
    { unfold half. rewrite Nat2Z.inj_succ, Z.pow_succ_r; lia. }
    rewrite E2 in Hl.
    assert (Forall (λ c, length c = 32%nat) chunks) as Hall.
    { apply Forall_lookup. intros i c Hi. by apply (Hc i). }
    set (n := Z.to_nat half).
    assert ((if Z.of_nat (length chunks) <? half then Z.of_nat (length chunks) else half) =
      py_len (take n chunks)) as ->.
    { unfold py_len. rewrite length_take. destruct (Z.ltb_spec (Z.of_nat (length chunks)) half); lia. }
    assert ((if Z.of_nat (length chunks) <? half then 0 else Z.of_nat (length chunks) - half) =
      py_len (drop n chunks)) as ->.
    { unfold py_len. rewrite length_drop. destruct (Z.ltb_spec (Z.of_nat (length chunks)) half); lia. }
    rewrite bind_run, IH; [|lia|rewrite length_take; lia|].
    2: { intros i c [Hi Hlt]%lookup_take_Some. by apply Hc. }
    rewrite bind_run, IH; [|lia|rewrite length_drop; lia|].
    2: { intros i c Hi. rewrite lookup_drop in Hi. destruct (Hc _ _ Hi) as [? Hr]. split; [done|].
         rewrite <-Hr. f_equal. lia. }
    rewrite of_outcome_run, sha256_pair_wire, Bytes32_wire by apply sha256_length. done.
Qed.

(** ** Lengths *)

Lemma scatter_le_ok v ks r :
  py_len r = 32 → Forall (λ k, 0 <= k < 32) ks →
  ∃ r', scatter_le v ks r = Ok r' ∧ py_len r' = 32 ∧
    ∀ j : nat, Z.of_nat j < 32 →
      r' !! j = if decide (31 - Z.of_nat j ∈ ks) then Some (digit v (31 - Z.of_nat j)) else r !! j.
Proof.
  intros Hr Hks. revert r Hr. induction Hks as [|k ks Hk _ IH]; intros r Hr.
  { exists r. split_and!; [done..|]. intros j _. by rewrite decide_False by apply not_elem_of_nil. }
  cbn [scatter_le]. unfold sail_vector_update. rewrite logical_index_down by lia.
  rewrite bind_value, bind_value, Hr.
  assert (py_len (<[Z.to_nat (32 - 1 - k):=byte_wrap (Z.shiftr v (8 * k))]> r) = 32) as Hl.
  { unfold py_len in *. by rewrite length_insert. }
  unfold Bytes32. rewrite fixed_bytes_ok, bind_value by done.
  destruct (IH _ Hl) as (r' & E & Hr' & H). exists r'. split_and!; [done..|].
  intros j Hj. rewrite H by done. unfold py_len in Hr.
  destruct (decide (31 - Z.of_nat j ∈ ks)) as [Hin|Hin].
  { by rewrite decide_True by by apply list_elem_of_further. }
  destruct (decide (31 - Z.of_nat j = k)) as [<-|E'].
  - rewrite decide_True by apply list_elem_of_here.
    replace (Z.to_nat (32 - 1 - (31 - Z.of_nat j))) with j by lia.
    by rewrite list_lookup_insert_eq by lia.
  - rewrite decide_False by (rewrite elem_of_cons; tauto).
    by rewrite list_lookup_insert_ne by lia.
Qed.

Lemma htr_u256_ok v : htr_u256 v = Ok (rev (le_bytes 32 v)).
Proof.
  unfold htr_u256, le_bytes. rewrite rev_involutive.
  destruct (scatter_le_ok v (seqZ 0 32) ZERO_HASH) as (r & -> & Hl & H); [done|..].
  { apply Forall_forall. intros k Hk%elem_of_seqZ. lia. }
  rewrite bind_value. unfold Bytes32. rewrite fixed_bytes_ok by done. f_equal.
  apply list_eq_same_length with (n := 32%nat); [by rewrite be_bytes_length|unfold py_len in Hl; lia|].
  intros i x y Hi. rewrite H by lia. rewrite decide_True by (apply elem_of_seqZ; lia). intros [= <-].
  rewrite be_bytes_lookup by lia. intros [= <-]. f_equal. lia.
Qed.

Lemma mix_in_length_ok (w : bytes) n :
  is_word n → mix_in_length (rev w) n = Ok (rev (sha256 (w ++ le_bytes 32 n))).
Proof.
  intros Hn. unfold mix_in_length, htr_length_chunk.
  change (word_of_source_byte_count n) with (rlp_length_word n).
  rewrite length_word_ok, bind_value, htr_u256_ok, bind_value, sha256_pair_wire by done.
  apply Bytes32_wire, sha256_length.
Qed.

(** ** Depths *)

Lemma clog2_loop_ok steps : ∀ depth remaining,
  0 <= depth → 0 <= remaining < 2 ^ py_len steps → depth + py_len steps <= 25 →
  clog2_loop steps depth remaining = Ok (depth + bit_length remaining).
Proof.
  induction steps as [|x steps IH]; intros depth remaining Hd Hr Hs; unfold py_len in *; cbn [length] in *.
  - cbn in Hr. assert (remaining = 0) as -> by lia. cbn [clog2_loop]. rewrite bit_length_0, Z.add_0_r.
    apply BoundedUint_ok. lia.
  - rewrite Nat2Z.inj_succ in *. rewrite Z.pow_succ_r in Hr by lia. cbn [clog2_loop].
    destruct (Z.eqb_spec remaining 0) as [->|Hne]; cbn [negb].
    { rewrite IH by lia. by rewrite bit_length_0. }
    rewrite (proj2 (Z.ltb_lt _ _)), bind_value by lia. unfold htr_depth.
    rewrite BoundedUint_ok, bind_value by lia. rewrite sail_tdiv_ok, bind_value by done.
    rewrite Z.quot_div_nonneg by lia.
    assert (bit_length remaining = 1 + bit_length (remaining / 2)) as ->; [|].
    { destruct (Z.eq_dec remaining 1) as [->|]; [done|].
      apply (bit_length_div remaining 1); [done|]. apply Z.div_str_pos. lia. }
    rewrite IH; [f_equal; lia|lia| |lia]. split; [apply Z.div_pos; lia|apply Z.div_lt_upper_bound; lia].
Qed.

(** The depth of the smallest full tree with that many leaves. *)
Definition depth_for (n : Z) : Z := bit_length (Z.max 0 (n - 1)).

Lemma depth_for_holds n : 0 <= n → n <= 2 ^ depth_for n.
Proof.
  intros Hn. unfold depth_for. pose proof (bit_length_nonneg (Z.max 0 (n - 1))).
  assert (Z.max 0 (n - 1) < 2 ^ bit_length (Z.max 0 (n - 1))); [|lia].
  apply bit_length_le; lia.
Qed.
Lemma depth_for_range n : 0 <= n <= 2 ^ 25 → 0 <= depth_for n <= 25.
Proof.
  intros Hn. split; [apply bit_length_nonneg|]. apply bit_length_le; lia.
Qed.

Lemma clog2_ok n : 0 <= n <= 2 ^ 25 → clog2 n = Ok (depth_for n).
Proof.
  intros Hn. unfold clog2.
  assert (sail_range 0 24 1 true = Ok (seqZ 0 25)) as -> by reflexivity. rewrite bind_value.
  rewrite clog2_loop_ok; [|lia| |done].
  - unfold depth_for. rewrite Z.add_0_l. do 2 f_equal. destruct (Z.eqb_spec n 0) as [->|]; lia.
  - change (2 ^ py_len _) with (2 ^ 25). destruct (Z.eqb_spec n 0); lia.
Qed.

Lemma chunk_count_bound b : 0 <= b <= 2 ^ 30 → 0 <= chunk_count b <= 2 ^ 25.
Proof.
  intros Hb. unfold chunk_count. split; [apply Z.div_pos; lia|].
  apply Z.lt_succ_r, Z.div_lt_upper_bound; lia.
Qed.

Lemma htr_chunk_count_run b :
  0 <= b → htr_chunk_count b = if b <=? 2 ^ 30 then Ok (chunk_count b) else Raise SailExit.
Proof.
  intros Hb. unfold htr_chunk_count, HTR_BYTE_LIST_LIMIT. change 1073741824 with (2 ^ 30).
  destruct (Z.leb_spec b (2 ^ 30)); [|done]. rewrite sail_ediv_pos, bind_value by lia.
  apply BoundedUint_ok. by apply chunk_count_bound.
Qed.

Lemma pack_length data : py_len (pack data) = chunk_count (py_len data).
Proof.
  unfold py_len at 1, pack. rewrite length_fmap, length_seqZ. rewrite Z2Nat.id; [done|].
  apply Z.div_pos; [unfold py_len|]; lia.
Qed.

(** ** Bytes *)

Section bytes.
Context (s : Slice) (st : HostState) (Hs : slice_in RInput s st).
Let data : bytes := slice_data RInput s st.

Lemma htr_chunk_run i :
  0 <= i <= 2 ^ 25 → 32 * i < s.(sl_len) → htr_chunk s i st = (Ok (rev (chunk_at data i)), st).
Proof.
  intros Hi Hlt. unfold htr_chunk. change 33554432 with (2 ^ 25). rewrite (proj2 (Z.leb_le _ _)) by lia.
  unfold stateless_input_slice_load, slice_load, stateless_input_load_word, WORD_BYTE_LENGTH.
  rewrite (proj2 (Z.ltb_lt _ _)) by lia.
  rewrite bind_run, bind_run, load_word_run by lia. rewrite of_outcome_run.
  change (_slice_bytes (region_of RInput st) s) with data. replace (i * 32) with (32 * i) by lia.
  change (mem_range data (32 * i) (Z.to_nat 32)) with (chunk_at data i).
  assert (length (chunk_at data i) = 32%nat) as Hl by apply mem_range_length.
  rewrite word_ok by (by apply (from_be_word 32)). cbv iota beta.
  rewrite of_outcome_run, word_to_hash_ok, bind_value. rewrite <-Hl at 1. rewrite be_bytes_from_be.
  by rewrite Bytes32_wire.
Qed.

Lemma htr_bytes_root_run depth :
  0 <= depth <= 25 →
  htr_bytes_root s depth st =
    (if chunk_count s.(sl_len) <=? 2 ^ depth then Ok (rev (merkle (Z.to_nat depth) (pack data)))
     else Raise SailExit, st).
Proof.
  intros Hd. pose proof (slice_data_length _ _ _ Hs) as Hl. fold data in Hl.
  pose proof Hs as (_ & Hn & _). unfold htr_bytes_root.
  rewrite bind_run, of_outcome_run, htr_chunk_count_run by done.
  assert (2 ^ depth <= 2 ^ 25) as Hp by (apply Z.pow_le_mono_r; lia).
  destruct (Z.leb_spec s.(sl_len) (2 ^ 30)) as [Hle|Hgt].
  2: { rewrite (proj2 (Z.leb_gt _ _)); [done|]. apply Z.le_lt_trans with (2 ^ 25); [done|].
       unfold chunk_count. apply Z.lt_le_trans with ((2 ^ 30 + 32) / 32); [done|].
       apply Z.div_le_mono; lia. }
  pose proof (chunk_count_bound _ (conj Hn Hle)) as Hc.
  rewrite bind_run, of_outcome_run. rewrite <-(Z2Nat.id depth) at 1 by lia.
  rewrite leaf_capacity_ok by lia. rewrite Z2Nat.id by lia.
  destruct (Z.leb_spec (chunk_count s.(sl_len)) (2 ^ depth)) as [Hle2|Hgt]; [|done].
  unfold htr_bytes_subtree. rewrite bind_run. rewrite <-Hl, <-pack_length, subtree_root_run; [|lia| |].
  - rewrite of_outcome_run. rewrite Bytes32_wire; [done|]. apply merkle_length.
    unfold pack. apply Forall_fmap, Forall_true. intros i. apply mem_range_length.
  - fold (py_len (pack data)). rewrite pack_length, Hl, Z2Nat.id by lia. done.
  - intros i c Hi. unfold pack in Hi. rewrite list_lookup_fmap in Hi.
    destruct (seqZ 0 _ !! i) as [k|] eqn:E; [|done]. injection Hi as <-.
    apply lookup_seqZ in E as [-> Hlt]. rewrite Hl in Hlt. split; [apply mem_range_length|].
    apply htr_chunk_run; [lia|]. unfold chunk_count in *.
    pose proof (Z.div_mod (s.(sl_len) + 31) 32 ltac:(lia)). pose proof (Z.mod_pos_bound (s.(sl_len) + 31) 32 ltac:(lia)). lia.
Qed.

(** C22: the root of a byte list read from the input is that of the SSZ
    specification: the Merkle root of its 32-byte chunks, padded to the tree of
    the list's limit, hashed with its length; a list whose chunks do not fit
    the tree is refused. No state changes, and SHA-256 is the real one. *)
Theorem htr_bytelist_exact limit :
  0 <= limit <= HTR_BYTE_LIST_LIMIT →
  let depth := depth_for (chunk_count limit) in
  htr_bytelist s limit st =
    (if chunk_count (py_len data) <=? 2 ^ depth
     then Ok (rev (sha256 (merkle (Z.to_nat depth) (pack data) ++ le_bytes 32 (py_len data))))
     else Raise SailExit, st).
Proof.
  intros Hlim depth. unfold HTR_BYTE_LIST_LIMIT in Hlim. change 1073741824 with (2 ^ 30) in Hlim.
  pose proof (chunk_count_bound _ Hlim) as Hc. pose proof (depth_for_range _ Hc) as Hd. fold depth in Hd.
  pose proof (slice_data_length _ _ _ Hs) as Hl. fold data in Hl. pose proof Hs as (_ & Hn & _ & Hmax).
  unfold htr_bytelist. rewrite bind_run, of_outcome_run, htr_chunk_count_run by lia.
  rewrite (proj2 (Z.leb_le limit _)), bind_value, clog2_ok by lia. fold depth.
  rewrite bind_run, htr_bytes_root_run, Hl by done.
  destruct (_ <=? 2 ^ depth); [|done]. rewrite of_outcome_run.
  rewrite mix_in_length_ok; [done|]. destruct Hs as (? & _). unfold is_word, WORD_MODULUS.
  assert (2 ^ 32 < 2 ^ 256) by done. lia.
Qed.
End bytes.

(** Five bytes of a list of at most 100, whose tree has four leaves. *)
Definition five_bytes : HostState :=
  set_regions (set_stateless_input_bytes [Byte.x01; Byte.x02; Byte.x03; Byte.x04; Byte.x05]
    initial_state.(regions)) initial_state.
Lemma htr_bytelist_exact_witness :
  fst (htr_bytelist (mkSlice 0 5) 100 five_bytes) =
    Ok (rev (sha256 (merkle 2 [[Byte.x01; Byte.x02; Byte.x03; Byte.x04; Byte.x05] ++ zeros 27] ++ le_bytes 32 5))) ∧
  fst (htr_bytelist (mkSlice 0 5) 0 five_bytes) = fst (htr_bytelist (mkSlice 0 5) 32 five_bytes).
Proof.
  split; rewrite !htr_bytelist_exact by (split_and!; vm_compute; congruence); vm_compute; reflexivity.
Defined.
