(* ===== verification/Executor.v ===== *)
(** * Executor: the execution of a block from its input to its result

    [executor/system_calls.py], [executor/block.py], [executor/stateless.py],
    [executor/result.py], [main.py] and the disabled debugging hooks of
    [host/debug_disabled.py], which do nothing. The interpreter's fuel is an
    argument, as for a transaction; the loop over the transactions of a block
    runs once for each, so their number is its fuel. *)

From Stdlib Require Import ZArith Lia Strings.Byte.
From stdpp Require Import base tactics option list gmap.
From S2P Require Import Prelude PyBytes HostTypes SailRuntime Words ChainConfig Regions RegionAccess Gas GasSchedule Crypto Storage Accounts WarmLogs Journal CodeDb Bal Accelerators OperandStack Environment Scratch Rlp Kernel Machine Execute TxCodec Interpreter Transaction TrieUpdates StateRoot Ssz StatelessInput Receipts Payload BlockAccessList Htr.
Local Open Scope Z_scope.

(** ** System contracts *)

Definition address_of (v : Z) : address := rev (be_bytes 20 v).
Definition SYSTEM_ADDRESS : address := address_of 0xfffffffffffffffffffffffffffffffffffffffe.
Definition BEACON_ROOTS_ADDR : address := address_of 0x000f3df6d732807ef1319fb7b8bb8522d0beac02.
Definition HISTORY_STORAGE_ADDR : address := address_of 0x0000f90827f1c53a10cb7a02335b175320002935.
Definition WITHDRAWAL_REQUEST_ADDR : address := address_of 0x00000961ef480eb55e80d19ad83579a64c007002.
Definition CONSOLIDATION_REQUEST_ADDR : address := address_of 0x0000bbddc7ce488642fb579f8b00f3a590007251.
Definition BUILDER_DEPOSIT_REQUEST_ADDR : address := address_of 0x0000bff46984e3725691fa540a8c7589300d8282.
Definition BUILDER_EXIT_REQUEST_ADDR : address := address_of 0x000064d678505ad48f8ccb093bc65613800e8282.
Definition DEPOSIT_CONTRACT_ADDR : address := address_of 0x00000000219ab540356cbb839cbe05303d7705fa.
Definition DEPOSIT_EVENT_TOPIC : Z :=
  0x649bbc62d0e31342afea4e5cd82d4049e7e1ee912fc0889aa790803be39038c5.

Definition SYSTEM_CALL_INPUT_LENGTH : Z := WORD_BYTE_LENGTH.
Definition DEPOSIT_EVENT_DATA_LENGTH : Z := 576.
Definition DEPOSIT_PUBKEY_HEAD : Z := 0.
Definition DEPOSIT_WITHDRAWAL_CREDENTIALS_HEAD : Z := 32.
Definition DEPOSIT_AMOUNT_HEAD : Z := 64.
Definition DEPOSIT_SIGNATURE_HEAD : Z := 96.
Definition DEPOSIT_INDEX_HEAD : Z := 128.
Definition DEPOSIT_PUBKEY_LENGTH_WORD : Z := 160.
Definition DEPOSIT_PUBKEY_DATA : Z := 192.
Definition DEPOSIT_PUBKEY_LENGTH : Z := 48.
Definition DEPOSIT_WITHDRAWAL_CREDENTIALS_LENGTH_WORD : Z := 256.
Definition DEPOSIT_WITHDRAWAL_CREDENTIALS_DATA : Z := 288.
Definition DEPOSIT_WITHDRAWAL_CREDENTIALS_LENGTH : Z := WORD_BYTE_LENGTH.
Definition DEPOSIT_AMOUNT_LENGTH_WORD : Z := 320.
Definition DEPOSIT_AMOUNT_DATA : Z := 352.
Definition DEPOSIT_AMOUNT_LENGTH : Z := EIGHT_BYTE_LENGTH.
Definition DEPOSIT_SIGNATURE_LENGTH_WORD : Z := 384.
Definition DEPOSIT_SIGNATURE_DATA : Z := 416.
Definition DEPOSIT_SIGNATURE_LENGTH : Z := 96.
Definition DEPOSIT_INDEX_LENGTH_WORD : Z := 512.
Definition DEPOSIT_INDEX_DATA : Z := 544.
Definition DEPOSIT_INDEX_LENGTH : Z := EIGHT_BYTE_LENGTH.
Definition DEPOSIT_REQUEST_LENGTH : Z := 192.
Definition DEPOSIT_REQUEST_PUBKEY : Z := 0.
Definition DEPOSIT_REQUEST_WITHDRAWAL_CREDENTIALS : Z := 48.
Definition DEPOSIT_REQUEST_AMOUNT : Z := 80.
Definition DEPOSIT_REQUEST_SIGNATURE : Z := 88.
Definition DEPOSIT_REQUEST_INDEX : Z := 184.

(** ** Deposits *)

Definition deposit_log_matches (index : Z) : M SpecState bool :=
  address_ ← on_host (log_address index);
  if negb (bool_decide (address_ = DEPOSIT_CONTRACT_ADDR)) then mret false
  else
    topic_count ← on_host (log_topics_count index);
    if topic_count =? 0 then mret false
    else first_topic ← on_host (log_topic index 0); mret (first_topic =? DEPOSIT_EVENT_TOPIC).

(** The words of a deposit event that are fixed: where each is and what it
    must be. All are read before any is checked. *)
Definition deposit_layout : list (Z * Z) :=
  [(DEPOSIT_PUBKEY_HEAD, 160); (DEPOSIT_WITHDRAWAL_CREDENTIALS_HEAD, 256); (DEPOSIT_AMOUNT_HEAD, 320);
   (DEPOSIT_SIGNATURE_HEAD, 384); (DEPOSIT_INDEX_HEAD, 512);
   (DEPOSIT_PUBKEY_LENGTH_WORD, 48); (DEPOSIT_WITHDRAWAL_CREDENTIALS_LENGTH_WORD, 32);
   (DEPOSIT_AMOUNT_LENGTH_WORD, 8); (DEPOSIT_SIGNATURE_LENGTH_WORD, 96); (DEPOSIT_INDEX_LENGTH_WORD, 8)].

(** The parts of a deposit: where each is in the event and in the request,
    and its length. All are compared before any mismatch is raised. *)
Definition deposit_parts : list (Z * Z * Z) :=
  [(DEPOSIT_PUBKEY_DATA, DEPOSIT_REQUEST_PUBKEY, DEPOSIT_PUBKEY_LENGTH);
   (DEPOSIT_WITHDRAWAL_CREDENTIALS_DATA, DEPOSIT_REQUEST_WITHDRAWAL_CREDENTIALS,
    DEPOSIT_WITHDRAWAL_CREDENTIALS_LENGTH);
   (DEPOSIT_AMOUNT_DATA, DEPOSIT_REQUEST_AMOUNT, DEPOSIT_AMOUNT_LENGTH);
   (DEPOSIT_SIGNATURE_DATA, DEPOSIT_REQUEST_SIGNATURE, DEPOSIT_SIGNATURE_LENGTH);
   (DEPOSIT_INDEX_DATA, DEPOSIT_REQUEST_INDEX, DEPOSIT_INDEX_LENGTH)].

(** The calls on a list in order, with their results. *)
Fixpoint each {S A B} (f : A → M S B) (l : list A) : M S (list B) :=
  match l with [] => mret [] | a :: l' => b ← f a; bs ← each f l'; mret (b :: bs) end.

Definition authenticate_deposit_request (data expected : Slice) : M HostState Slice :=
  data ← of_outcome (if data.(sl_len) =? DEPOSIT_EVENT_DATA_LENGTH then Ok data else fatal_error);
  words ← each (λ '(offset, value), w ← log_data_slice_load data offset; mret (w =? value)) deposit_layout;
  for_each (λ same : bool, fatal_if (negb same)) words;;
  if DEPOSIT_REQUEST_LENGTH <=? expected.(sl_len) then
    matches ← each (λ '(data_offset, request_offset, part_length),
      log_part ← of_outcome (log_data_sub_slice data data_offset part_length);
      expected_part ← of_outcome (stateless_input_sub_slice expected request_offset part_length);
      log_input_slices_equal log_part expected_part) deposit_parts;
    fatal_if (negb (forallb id matches));;
    of_outcome (stateless_input_slice_suffix expected DEPOSIT_REQUEST_LENGTH)
  else of_outcome fatal_error.

Definition authenticate_deposit_logs (logs : LogSeriesRef) (expected : Slice) : M SpecState Slice :=
  counting logs.(ls_count) (λ remaining offset,
    index ← of_outcome (log_store_index_add logs.(ls_start) offset);
    matches ← deposit_log_matches index;
    if matches : bool then data ← read_log_data index; zoom (authenticate_deposit_request data remaining)
    else mret remaining) expected.

(** ** Gas of a block *)

(** [BlockGasUsageFields] with the limit of its validity. *)
Record BlockGasUsage : Type := mkBlockGasUsage {
  bu_limit : Z;
  bu_execution : Z;
  bu_state : Z;
  bu_receipts : Z;
}.

Definition block_gas_usage_relation (limit execution state receipts : Z) : bool :=
  (0 <=? limit) && ((limit <=? 2 ^ 64 - 1) && ((0 <=? execution) && ((execution <=? limit) &&
  ((0 <=? state) && ((state <=? limit) && ((0 <=? receipts) && (receipts <=? execution + state))))))).

Definition block_gas_usage (limit execution state receipts : Z) : outcome BlockGasUsage :=
  validated (block_gas_usage_relation limit execution state receipts)
    (mkBlockGasUsage limit execution state receipts).
Definition block_gas_usage_empty (limit : Z) : outcome BlockGasUsage := block_gas_usage limit 0 0 0.
Definition block_gas_usage_add (u : BlockGasUsage) (add_execution add_state add_receipt : Z) :
    outcome BlockGasUsage :=
  block_gas_usage u.(bu_limit) (u.(bu_execution) + add_execution) (u.(bu_state) + add_state)
    (u.(bu_receipts) + add_receipt).

Record BlockExecutionResult : Type := mkBlockResult {
  header_gas_used : Z;
  execution_gas_used : Z;
  state_gas_used : Z;
  br_blob_gas_used : Z;
  first_tx_recipient : address;
  br_receipts_root : hash;
  br_logs : LogSeriesRef;
}.

(** The variables of the loop over the transactions. *)
Record BlockLoop : Type := mkBlockLoop {
  bl_cursor : BoundedSszListCursor;
  bl_keys : Slice;
  gas_usage : BlockGasUsage;
  blob_gas_acc : Z;
  tx0_to : address;
  remaining_deposits : Slice;
}.

Definition PRE_MERGE_BLOCK_REWARD : Z := 2000000000000000000.

Section executor.
Context `{Keccak} `{StateTrie} `{AccelLib}.
Context (fuel : nat).

(** ** System calls *)

Definition run_system_call_frame (tgt : address) (code : Code) (input : CalldataSlice) (memory_base : Z) :
    M SpecState InterpretResult :=
  k_journal_checkpoint;;
  stack_top ← stack_reset;
  interpreted fuel (transaction_frame SYSTEM_CALL_GAS_LIMIT STATE_GAS_ZERO STATE_GAS_SPILL_ZERO 0
    stack_top memory_base MEMORY_HEIGHT_ZERO SYSTEM_ADDRESS tgt tgt ZERO_WORD STATE_GAS_ZERO code input).

Definition system_call (tgt : address) (input : hash) : M SpecState unit :=
  code_hash ← k_code_key tgt;
  if bool_decide (code_hash = KECCAK_EMPTY) then mret tt
  else
    code ← zoom (code_db_resolve code_hash);
    expanded_memory ← expand_memory MEMORY_BASE_ZERO MEMORY_HEIGHT_ZERO SYSTEM_CALL_INPUT_LENGTH;
    input_word ← of_outcome (hash_to_word input);
    mem_store MEMORY_BASE_ZERO 0 input_word;;
    input_slice ← active_memory_slice MEMORY_BASE_ZERO expanded_memory 0 SYSTEM_CALL_INPUT_LENGTH;
    child_memory_base ← of_outcome (memory_absolute MEMORY_BASE_ZERO expanded_memory);
    memory_input ← of_outcome (evm_memory_slice input_slice.(sl_bytes) input_slice.(sl_len));
    '(_, _, _, _, status, _) ← run_system_call_frame tgt code (MemoryCalldata memory_input) child_memory_base;
    (if negb (frame_succeeded status) then k_journal_revert else k_journal_commit);;
    k_tx_merge.

Definition system_call_checked (tgt : address) : M SpecState Slice :=
  code_hash ← k_code_key tgt;
  if bool_decide (code_hash = KECCAK_EMPTY) then of_outcome fatal_error
  else
    code ← zoom (code_db_resolve code_hash);
    '(_, _, _, _, status, output) ← run_system_call_frame tgt code EMPTY_CALLDATA MEMORY_BASE_ZERO;
    if frame_succeeded status then
      start ← scratch_reserve output.(sl_len);
      output_scratch_push_slice output;;
      result ← scratch_finish start;
      k_journal_commit;;
      k_tx_merge;;
      mret result
    else
      k_journal_revert;;
      k_tx_merge;;
      of_outcome fatal_error.

Definition validate_request_stream (tgt : address) (expected : Slice) : M SpecState unit :=
  dequeued ← system_call_checked tgt;
  matches ← zoom (scratch_input_slices_equal dequeued expected);
  fatal_if (negb matches).

Definition validate_execution_requests (input_ref : StatelessInputRef) : M SpecState unit :=
  profile ← get_profile;
  validate_request_stream WITHDRAWAL_REQUEST_ADDR input_ref.(withdrawal_requests);;
  validate_request_stream CONSOLIDATION_REQUEST_ADDR input_ref.(consolidation_requests);;
  if Amsterdam <=? fork profile then
    validate_request_stream BUILDER_DEPOSIT_REQUEST_ADDR input_ref.(builder_deposit_requests);;
    validate_request_stream BUILDER_EXIT_REQUEST_ADDR input_ref.(builder_exit_requests)
  else
    builder_deposit_length ← of_outcome (stateless_input_slice_length input_ref.(builder_deposit_requests));
    builder_exit_length ← of_outcome (stateless_input_slice_length input_ref.(builder_exit_requests));
    fatal_if (negb (builder_deposit_length =? 0) || negb (builder_exit_length =? 0)).

Definition run_block_start_system_calls : M SpecState unit :=
  profile ← get_profile;
  header ← gets (λ s, s.(sp_env).(k_header));
  when (Cancun <=? fork profile) (system_call BEACON_ROOTS_ADDR header.(bh_parent_beacon_block_root));;
  when (Prague <=? fork profile) (system_call HISTORY_STORAGE_ADDR header.(bh_parent_hash)).

(** ** The transactions of a block *)

(** The gas of a transaction against what the block has left. *)
Definition block_admits (profile : ProtocolProfileFields) (gas_limit : Z) (u : BlockGasUsage)
    (allowance : TransactionGasAllowance) : bool :=
  let available_execution_gas := gas_limit - u.(bu_execution) in
  let available_state_gas := gas_limit - u.(bu_state) in
  if Amsterdam <=? fork profile then
    negb ((available_execution_gas <? allowance.(al_regular)) || (available_state_gas <? allowance.(al_total)))
  else negb (available_execution_gas <? allowance.(al_total)).

(** What the receipt of a transaction adds to the gas of the block. *)
Definition usage_after (profile : ProtocolProfileFields) (u : BlockGasUsage) (receipt : Receipt) :
    outcome BlockGasUsage :=
  if Amsterdam <=? fork profile
  then block_gas_usage_add u receipt.(execution_gas) receipt.(state_gas) receipt.(gas_used)
  else block_gas_usage_add u receipt.(gas_used) 0 receipt.(gas_used).

(** The body of the loop of [execute_block_transactions]. *)
Definition block_transaction (profile : ProtocolProfileFields) (gas_limits : GasLimitsFields)
    (b : BlockLoop) : M SpecState BlockLoop :=
  let gas_limit := gas_limits.(block_limit) in
  let i := b.(bl_cursor).(lc_index) in
  '(transaction, cursor) ← zoom (ssz_list_pop b.(bl_cursor));
  keys_fields ← of_outcome (if PUBLIC_KEY_LENGTH <=? b.(bl_keys).(sl_len) then Ok b.(bl_keys) else fatal_error);
  public_key ← of_outcome (stateless_input_sub_slice keys_fields 0 PUBLIC_KEY_LENGTH);
  keys ← of_outcome (stateless_input_slice_suffix keys_fields PUBLIC_KEY_LENGTH);
  tx ← decode_transaction transaction public_key;
  set_transaction_epoch (i + 1);;
  let first := if i =? 0 then tx.(recipient) else b.(tx0_to) in
  allowance ← of_outcome (transaction_gas_allowance tx.(tx_gas_limit) gas_limits.(transaction_total_limit)
    gas_limits.(transaction_regular_limit));
  fatal_if (negb (block_admits profile gas_limit b.(gas_usage) allowance));;
  let tx_blob_gas := Z.shiftl 1 17 * tx.(tx_blob_hashes).(blob_count) in
  next_blob_gas ← of_outcome
    (if fork profile <? Cancun then Ok b.(blob_gas_acc)
     else block_blob_gas_add profile.(pp_blob_schedule).(bs_max) b.(blob_gas_acc) tx_blob_gas);
  receipt ← process_transaction fuel tx allowance;
  next_usage ← of_outcome (usage_after profile b.(gas_usage) receipt);
  receipt_store_append receipt next_usage.(bu_receipts) i;;
  remaining ← (if Prague <=? fork profile
               then authenticate_deposit_logs receipt.(rc_logs) b.(remaining_deposits)
               else mret b.(remaining_deposits));
  mret (mkBlockLoop cursor keys next_usage next_blob_gas first remaining).

Fixpoint block_transactions (turns : nat) (profile : ProtocolProfileFields) (gas_limits : GasLimitsFields)
    (b : BlockLoop) : M SpecState BlockLoop :=
  if ssz_list_cursor_empty b.(bl_cursor) then mret b
  else match turns with
  | O => raise (RuntimeError "out of fuel")
  | Datatypes.S turns' =>
      b ← block_transaction profile gas_limits b; block_transactions turns' profile gas_limits b
  end.

Definition execute_block_transactions (transactions : BoundedSszListRef)
    (public_keys expected_deposits : Slice) : M SpecState BlockExecutionResult :=
  execution_profile ← gets (λ s, s.(sp_env).(k_execution_profile));
  let profile := execution_profile.(protocol) in
  let gas_limits := execution_profile.(ep_gas) in
  let public_keys_length := public_keys.(sl_len) in
  public_key_count ← of_outcome (sail_ediv_int public_keys_length PUBLIC_KEY_LENGTH);
  fatal_if (negb (public_key_count =? transactions.(lr_count)) ||
            negb (public_keys_length =? public_key_count * PUBLIC_KEY_LENGTH));;
  usage ← of_outcome (block_gas_usage_empty gas_limits.(block_limit));
  records_start ← receipt_store_begin;
  transaction_logs_start ← on_host logs_tx_start;
  transaction_logs_count ← on_host logs_tx_count;
  logs_start ← of_outcome (log_store_index_add transaction_logs_start transaction_logs_count);
  cursor ← zoom (ssz_list_cursor transactions);
  b ← block_transactions (items_left cursor) profile gas_limits
        (mkBlockLoop cursor public_keys usage 0 ZERO_ADDRESS expected_deposits);
  remaining_deposits_length ← of_outcome (stateless_input_slice_length b.(remaining_deposits));
  fatal_if ((Prague <=? fork profile) && negb (remaining_deposits_length =? 0));;
  let final_usage := b.(gas_usage) in
  let header_gas_used :=
    if (Amsterdam <=? fork profile) && (final_usage.(bu_execution) <? final_usage.(bu_state))
    then final_usage.(bu_state) else final_usage.(bu_execution) in
  receipts_root ← receipt_store_root records_start transactions.(lr_count);
  retained_logs_start ← on_host logs_tx_start;
  retained_logs_count ← on_host logs_tx_count;
  retained ← of_outcome (log_store_index_add retained_logs_start retained_logs_count);
  let logs_count := if logs_start <=? retained then retained - logs_start else 0 in
  mret (mkBlockResult header_gas_used final_usage.(bu_execution) final_usage.(bu_state) b.(blob_gas_acc)
    b.(tx0_to) receipts_root (mkLogSeries logs_start logs_count)).

(** The loop of [apply_withdrawals]: one withdrawal less each turn. *)
Fixpoint withdrawals_loop (turns : nat) (rest : BoundedSszListRef) : M SpecState unit :=
  if rest.(lr_count) =? 0 then mret tt
  else match turns with
  | O => raise (RuntimeError "out of fuel")
  | Datatypes.S turns' =>
      '(withdrawal_ref, tail) ← of_outcome (ssz_fixed_list_pop rest WD_SIZE);
      withdrawal ← zoom (decode_withdrawal withdrawal_ref);
      k_add_balance withdrawal.(wd_address) (withdrawal.(wd_amount) * 1000000000);;
      withdrawals_loop turns' tail
  end.
Definition apply_withdrawals (withdrawals : BoundedSszListRef) : M SpecState unit :=
  withdrawals_loop (Z.to_nat withdrawals.(lr_count)) withdrawals.

Definition apply_block_end_state (body : BlockBody) : M SpecState unit :=
  profile ← get_profile;
  when (Shanghai <=? fork profile) (apply_withdrawals body.(bb_withdrawals));;
  when (fork profile <? Paris) (coinbase ← k_coinbase; k_add_balance coinbase PRE_MERGE_BLOCK_REWARD);;
  k_tx_merge.

(** [warm_reset(environment.k_current_transaction_epoch)] at an epoch. *)
Definition begin_epoch (epoch : Z) : M SpecState unit :=
  set_transaction_epoch epoch;; on_host (warm_reset epoch).

Definition execute_block_body (body : BlockBody) (input_ref : StatelessInputRef) :
    M SpecState BlockExecutionResult :=
  profile ← get_profile;
  on_host bal_reset;;
  begin_epoch 0;;
  run_block_start_system_calls;;
  result ← execute_block_transactions body.(bb_transactions) input_ref.(public_keys) input_ref.(deposits);
  begin_epoch (body.(bb_transactions).(lr_count) + 1);;
  apply_block_end_state body;;
  when (Prague <=? fork profile) (validate_execution_requests input_ref);;
  mret result.
End executor.

(** ** The result of a block *)

Section validation.
Context `{Keccak} `{AccelLib}.
Context (fuel : nat).

(** [validation_debug_...] of [host/debug_disabled.py] *)
Definition validation_debug_reset : M ProgramState unit := mret tt.
Definition validation_debug_capture_block_gas (_actual _expected _execution _state : Z) : M SpecState unit :=
  mret tt.

Definition validate_executed_block (block : Block) (result : BlockExecutionResult) : M SpecState unit :=
  execution_profile ← gets (λ s, s.(sp_env).(k_execution_profile));
  let fork := execution_profile.(protocol).(ChainConfig.fork) in
  let header := block.(header) in
  validation_debug_capture_block_gas result.(header_gas_used) header.(bh_gas_used)
    result.(execution_gas_used) result.(state_gas_used);;
  fatal_if (negb (result.(header_gas_used) =? header.(bh_gas_used)));;
  fatal_if ((Cancun <=? fork) && negb (result.(br_blob_gas_used) =? header.(bh_blob_gas_used)));;
  poststate ← compute_state_root;
  fatal_if (negb (bool_decide (poststate = header.(bh_state_root))));;
  fatal_if (negb (bool_decide (result.(br_receipts_root) = header.(bh_receipts_root))));;
  logs_bloom_matches ← block_logs_bloom_matches result.(br_logs) header.(bh_logs_bloom);
  fatal_if (negb logs_bloom_matches);;
  when (Amsterdam <=? fork)
    (zoom (validate_block_access_list block.(body).(bb_block_access_list)
             execution_profile.(ep_gas).(block_limit))).

(** The kernel reads accounts and storage through the trie of [lib/state_trie.py],
    an instance of its interface. *)
Definition verify_stateless_payload (input_ref : StatelessInputRef) : M ProgramState unit :=
  on_spec scratch_reset;;
  input ← on_spec (decode_stateless_input input_ref);
  witness ← index_execution_witness input_ref;
  on_spec (validate_execution_payload input input_ref witness);;
  let block := input.(payload).(block) in
  result ← on_spec (execute_block_body fuel block.(body) input_ref);
  on_spec (validate_executed_block block result).

(** ** The public output *)

Definition RESULT_METADATA_LENGTH : Z := 5.

Definition write_prefix (root : hash) (success : bool) : M SpecState unit :=
  scratch_push_b256 root WORD_BYTE_LENGTH;;
  scratch_push_byte (if success then 1 else 0);;
  scratch_push_byte 0x25;;
  scratch_push_byte 0;;
  scratch_push_byte 0;;
  scratch_push_byte 0.

Definition commit_validation_result (root : hash) (success : bool) (chain_config : Slice) :
    M SpecState unit :=
  output_length ← of_outcome
    (scratch_length_add (WORD_BYTE_LENGTH + RESULT_METADATA_LENGTH) chain_config.(sl_len));
  start ← scratch_reserve output_length;
  write_prefix root success;;
  stateless_input_scratch_push_slice chain_config;;
  output ← scratch_finish start;
  written ← zoom (public_output_write output);
  sail_assert written "public output write".

Definition write_validation_result (input_ref : StatelessInputRef) (success : bool) : M SpecState unit :=
  root ← zoom (htr_new_payload_request input_ref);
  commit_validation_result root success input_ref.(ir_chain_config).

(** The updates of [default_chain_config]: the offsets of an empty chain
    configuration. *)
Definition default_chain_config : outcome hash :=
  h ← sail_vector_update ZERO_HASH 8 (byte_wrap 0x0c) false;
  h ← Bytes32 h;
  h ← sail_vector_update h 12 (byte_wrap 4) false;
  h ← Bytes32 h;
  h ← sail_vector_update h 16 (byte_wrap 8) false;
  h ← Bytes32 h;
  h ← sail_vector_update h 20 (byte_wrap 8) false; Bytes32 h.

Definition write_invalid_result : M SpecState unit :=
  start ← scratch_reserve 24;
  config ← of_outcome default_chain_config;
  scratch_push_b256 config 24;;
  chain_config ← scratch_finish start;
  output_length ← of_outcome
    (scratch_length_add (WORD_BYTE_LENGTH + RESULT_METADATA_LENGTH) chain_config.(sl_len));
  output_start ← scratch_reserve output_length;
  write_prefix ZERO_HASH false;;
  scratch_scratch_push_slice chain_config;;
  output ← scratch_finish output_start;
  written ← zoom (public_output_write output);
  sail_assert written "public output write".

Definition fatal_error_set_input (_input_ref : StatelessInputRef) : M ProgramState unit := mret tt.

Definition main : M ProgramState unit :=
  on_spec scratch_reset;;
  validation_debug_reset;;
  input_bytes ← on_input stateless_input;
  input_ref ← on_input (decode_stateless_input_ref input_bytes);
  fatal_error_set_input input_ref;;
  verify_stateless_payload input_ref;;
  on_spec (write_validation_result input_ref true).
End validation.
