(* ===== verification/BlockTheorems.v ===== *)
(** * BlockTheorems: what a run of the program writes and what it accepts

    No operation of the program but [public_output_write] touches the public
    output, and none the input, whether it returns or raises. The predicate
    [keeps] says so of an operation; it is closed under the combinators of the
    monad, so the tactic [keeps] proves it by following the definition, and its
    hint database holds the operations already done. *)

From Stdlib Require Import ZArith Lia Strings.Byte.
From stdpp Require Import base tactics option list gmap.
From S2P Require Import Prelude PyBytes HostTypes SailRuntime Words ChainConfig Regions RegionAccess RegionFacts Gas GasSchedule Crypto Storage Accounts WarmLogs Journal CodeDb Bal Accelerators AccelTheorems Secp256k1 OperandStack Environment Scratch Rlp RlpTheorems RlpEncoders Kernel Machine Instructions Execute Precompiles TxCodec Interpreter Transaction TriePath TrieCodec TrieUpdates StateRoot Ssz StatelessInput Receipts Payload BlockAccessList Htr Executor.
Local Open Scope Z_scope.

(** ** The predicate and its rules *)

(** Whatever the operation does, even when it raises, the states before and
    after it are related. *)
Definition keeps {S A} (R : S → S → Prop) (m : M S A) : Prop := ∀ s, R s (snd (m s)).

Section rules.
Context {S : Type} (R : S → S → Prop) `{!PreOrder R}.

Lemma keeps_ret {A} (a : A) : keeps R (mret a).
Proof. intros s. by cbn. Qed.
Lemma keeps_gets {A} (f : S → A) : keeps R (gets f).
Proof. intros s. by cbn. Qed.
Lemma keeps_reads {A} (f : S → outcome A) : keeps R (reads f).
Proof. intros s. by cbn. Qed.
Lemma keeps_outcome {A} (o : outcome A) : keeps R (of_outcome o).
Proof. intros s. by cbn. Qed.
Lemma keeps_raise {A} e : keeps R (raise e : M S A).
Proof. intros s. by cbn. Qed.
Lemma keeps_modify f : (∀ s, R s (f s)) → keeps R (modify f).
Proof. intros Hf s. apply Hf. Qed.
Lemma keeps_bind {A B} (m : M S A) (f : A → M S B) :
  keeps R m → (∀ a, keeps R (f a)) → keeps R (m ≫= f).
Proof.
  intros Hm Hf s. rewrite bind_run. specialize (Hm s). destruct (m s) as [[a|e] s1]; [|done].
  etrans; [exact Hm|apply Hf].
Qed.
Lemma keeps_when b (m : M S unit) : keeps R m → keeps R (when b m).
Proof. destruct b; [done|]. intros _. apply keeps_ret. Qed.
Lemma keeps_for_each {X} (body : X → M S unit) xs :
  (∀ x, keeps R (body x)) → keeps R (for_each body xs).
Proof.
  intros Hb. induction xs as [|x xs IH]; cbn; [apply keeps_ret|]. by apply keeps_bind.
Qed.
End rules.

Lemma keeps_zoom {S C A} `{Component S C} (R : S → S → Prop) (RC : C → C → Prop) (m : M C A) :
  (∀ c s, RC (view s) c → R s (put c s)) → keeps RC m → keeps R (zoom m).
Proof. intros Hput Hm s. rewrite zoom_run. apply Hput, Hm. Qed.
Definition anything {S} (s s' : S) : Prop := True.
Lemma keeps_any {S A} (m : M S A) : keeps anything m.
Proof. done. Qed.

(** The regions: the input, the public output and the scratch region are the
    same, and so for the host. For the specification, whose writers use the
    scratch region, the arena stays one. *)
Definition region_same (r r' : Regions) : Prop :=
  r'.(stateless_input_bytes) = r.(stateless_input_bytes) ∧ r'.(public_output) = r.(public_output) ∧
  r'.(scratch_bytes) = r.(scratch_bytes).
Definition host_same (s s' : HostState) : Prop := region_same s.(regions) s'.(regions).
Definition input_of (s : SpecState) : bytes := s.(sp_host).(regions).(stateless_input_bytes).
Definition output_of (s : SpecState) : bytes := s.(sp_host).(regions).(public_output).
(** What the input sets once in the environment. *)
Definition block_env (s : SpecState) : ExecutionProfileFields * BlockHeader * Z :=
  (s.(sp_env).(k_execution_profile), s.(sp_env).(k_header), s.(sp_env).(k_chain_id)).
(** The same but for these registers, which decoding the input sets. *)
Definition outside_same (s s' : SpecState) : Prop :=
  input_of s' = input_of s ∧ output_of s' = output_of s ∧ (arena_wf s → arena_wf s').
Definition spec_same (s s' : SpecState) : Prop := outside_same s s' ∧ block_env s' = block_env s.

#[export] Instance region_same_preorder : PreOrder region_same.
Proof. unfold region_same. split; [done|]. intros r1 r2 r3 (? & ? & ?) (? & ? & ?). by split_and!; etrans. Qed.
#[export] Instance host_same_preorder : PreOrder host_same.
Proof. split; [intros s; apply region_same_preorder|intros s1 s2 s3; apply region_same_preorder]. Qed.
#[export] Instance outside_same_preorder : PreOrder outside_same.
Proof.
  unfold outside_same. split; [done|]. intros s1 s2 s3 (? & ? & ?) (? & ? & ?).
  split; [by etrans|]. split; [by etrans|auto].
Qed.
#[export] Instance spec_same_preorder : PreOrder spec_same.
Proof.
  unfold spec_same. split; [done|]. intros s1 s2 s3 [H1 H2] [H3 H4].
  split; [by etrans|by rewrite H4].
Qed.

Lemma outside_env e s : outside_same s (set_env e s).
Proof. split; [done|]. split; [done|]. intros H. exact H. Qed.
Lemma same_env e s : block_env (set_env e s) = block_env s → spec_same s (set_env e s).
Proof. intros H. split; [apply outside_env|exact H]. Qed.

(** The components of the host other than the regions. *)
Lemma elsewhere {C A} `{Component HostState C} (m : M C A) :
  (∀ c s, (put c s : HostState).(regions) = s.(regions)) → keeps host_same (zoom m).
Proof.
  intros Hp. apply (keeps_zoom _ anything); [|done]. intros c s _. unfold host_same. rewrite Hp. done.
Qed.
Lemma same_world {A} (m : M World A) : keeps host_same (zoom m).
Proof. by apply elsewhere. Qed.
Lemma same_stacks {A} (m : M Stacks A) : keeps host_same (zoom m).
Proof. by apply elsewhere. Qed.
Lemma same_codes {A} (m : M CodeState A) : keeps host_same (zoom m).
Proof. by apply elsewhere. Qed.
Lemma same_auth {A} (m : M (gmap bytes AuthorizationRecord) A) : keeps host_same (zoom m).
Proof. by apply elsewhere. Qed.
Lemma same_bal {A} (m : M BalState A) : keeps host_same (zoom m).
Proof. by apply elsewhere. Qed.
Lemma same_regions {A} (m : M Regions A) : keeps region_same m → keeps host_same (zoom m).
Proof. by apply keeps_zoom. Qed.
Lemma same_put h (s : SpecState) : host_same s.(sp_host) h → spec_same s (put h s).
Proof.
  intros (Hi & Ho & Hs). split; [|done]. split; [exact Hi|]. split; [exact Ho|].
  intros [H0 Hin]. split; [exact H0|]. unfold slice_in in *. cbn in *. by rewrite Hs.
Qed.
Lemma same_host {A} (m : M HostState A) : keeps host_same m → keeps spec_same (zoom m).
Proof. apply keeps_zoom. intros h s. apply same_put. Qed.
Lemma same_itself {A} (m : M HostState A) :
  keeps host_same m → keeps host_same (zoom (H := host_itself) m).
Proof. by apply keeps_zoom. Qed.

Create HintDb keeps discriminated.
#[export] Hint Constants Opaque : keeps.
#[export] Hint Transparent OpResult MemResult JumpResult StepResult InterpretResult AuthResult
  Subtree IndexedSubtree : keeps.
#[export] Hint Resolve region_same_preorder host_same_preorder spec_same_preorder : keeps.
#[export] Hint Resolve @keeps_ret @keeps_gets @keeps_reads @keeps_outcome @keeps_raise
  @keeps_any @same_world @same_stacks @same_codes @same_auth @same_bal : keeps.

(** One step through a definition; a call is unfolded. *)
Ltac keeps_head m := lazymatch m with ?f _ => keeps_head f | _ => m end.
Ltac keeps_step :=
  match goal with
  | |- ∀ _, _ => intro
  | |- keeps _ (mbind _ _) => apply keeps_bind
  | |- keeps _ (when _ _) => apply keeps_when
  | |- keeps spec_same (on_host _) => apply same_host
  | |- keeps spec_same (zoom _) => apply same_host
  | |- keeps host_same (zoom _) => first [apply same_regions | apply same_itself]
  | |- keeps _ (for_each _ _) => apply keeps_for_each
  | |- keeps _ (let '_ := ?x in _) => destruct x
  | |- keeps _ (match ?x with _ => _ end) => destruct x
  | |- keeps _ (if ?b then _ else _) => destruct b
  | |- keeps _ ((if ?b then _ else _) _ _ _) => destruct b
  | |- keeps _ (modify _) => apply keeps_modify; intro;
      first [exact (conj eq_refl (conj eq_refl eq_refl)) | apply same_env; reflexivity]
  | |- keeps _ ?m => let h := keeps_head m in unfold h
  end.
Ltac keeps := repeat first [solve [auto with keeps] | keeps_step].

(** ** The host *)

Lemma store_output_keeps l : keeps host_same (_store_output l).
Proof. keeps. Qed.
Lemma append_code_keeps l : keeps host_same (_append_code l).
Proof. keeps. Qed.
Lemma region_bytes_keeps k s : keeps host_same (_region_bytes k s).
Proof. keeps. Qed.
#[export] Hint Resolve store_output_keeps append_code_keeps region_bytes_keeps : keeps.

(** ** The kernel *)

Section kernel.
Context `{Keccak}.

Lemma analyze_loop_keeps fuel code fork table position :
  keeps host_same (analyze_loop fuel code fork table position).
Proof. revert position. induction fuel as [|fuel IH]; intros; cbn; keeps. Qed.
#[local] Hint Resolve analyze_loop_keeps : keeps.

Lemma bytes_in_keeps k s i : keeps host_same (slice_byte (_region_byte k) s i).
Proof. keeps. Qed.
#[local] Hint Resolve bytes_in_keeps : keeps.
End kernel.

(** ** RLP and tries *)

Lemma uint64_width_keeps k content width : keeps host_same (uint64_width k content width).
Proof. induction width as [|n IH]; cbn; keeps. Qed.
#[export] Hint Resolve uint64_width_keeps bytes_in_keeps analyze_loop_keeps : keeps.

Lemma decode_item_keeps k s : keeps host_same (decode_item k s).
Proof. keeps. Qed.
#[export] Hint Resolve decode_item_keeps : keeps.

Lemma decode_branch_node_keeps k n c children : keeps host_same (decode_branch_node k n c children).
Proof. revert c children. induction n as [|n IH]; intros; cbn; keeps. Qed.
#[export] Hint Resolve decode_branch_node_keeps : keeps.

Lemma decode_input_trie_node_keeps s : keeps host_same (decode_input_trie_node s).
Proof. keeps. Qed.
#[export] Hint Resolve decode_input_trie_node_keeps : keeps.

Lemma trie_walk_keeps d node key pos : keeps host_same (trie_walk d node key pos).
Proof. revert node pos. induction d as [|d IH]; intros; cbn; keeps. Qed.
#[export] Hint Resolve trie_walk_keeps : keeps.

Lemma stateless_account_keeps `{Keccak} r k : keeps spec_same (stateless_account_by_key r k).
Proof. keeps. Qed.
Lemma stateless_storage_keeps `{Keccak} r k : keeps spec_same (stateless_storage_by_key r k).
Proof. keeps. Qed.
#[export] Hint Resolve stateless_account_keeps stateless_storage_keeps : keeps.
Ltac keeps_trie :=
  match goal with
  | |- keeps spec_same ((match state_trie with _ => _ end) ?x ?y) =>
      first [exact (stateless_account_keeps x y) | exact (stateless_storage_keeps x y)]
  end.
Ltac keeps ::= repeat first [solve [auto with keeps] | keeps_trie | keeps_step].

(** ** The scratch arena and the writers *)

(** A store at the end of the arena leaves an arena, whether its slice is
    valid or not. *)
Lemma scratch_store_same off p s :
  off = s.(scratch_arena).(sl_len) →
  spec_same s (put (snd (_scratch_store off p s.(sp_host))) s) ∧
  ∀ a, fst (_scratch_store off p s.(sp_host)) = Ok a →
    spec_same s (mkSpec (snd (_scratch_store off p s.(sp_host))) s.(sp_env) a).
Proof.
  intros ->. unfold _scratch_store, modify_regions. rewrite bind_run, zoom_run, modify_run, of_outcome_run.
  cbn [fst snd view put spec_host HostState_Regions]. split.
  - split; [|done]. split; [done|]. split; [done|]. intros [H0 Hin]. split; [exact H0|].
    destruct Hin as (? & Hl & Hb & ?). split_and!; [done..| |done].
    unfold region_of in *. cbn in *. rewrite splice_ensure_write by done.
    rewrite write_at_length by done. lia.
  - intros a Ha. split; [|done]. split; [done|]. split; [done|]. intros [H0 Hin].
    destruct Hin as (? & Hl & Hb & ?). unfold scratch_slice, checked_slice in Ha.
    destruct (region_valid_range _ _) eqn:Er; [|done]. injection Ha as <-.
    unfold region_valid_range in Er. split; [done|].
    split_and!; cbn -[Z.add]; [lia|pose proof (py_len_nonneg p); lia| |lia].
    rewrite splice_ensure_write by done. rewrite write_at_length by done. lia.
Qed.

Definition is_store (store : Z → M HostState Slice) : Prop :=
  ∀ off h, (∃ e, store off h = (Raise e, h)) ∨ (∃ p, store off h = _scratch_store off p h).

Lemma scratch_push_keeps store : is_store store → keeps spec_same (Scratch.push store).
Proof.
  intros Hs s. unfold Scratch.push, get_arena. rewrite bind_run, gets_run, bind_run, zoom_run.
  cbn [view spec_host]. destruct (Hs (sl_len (scratch_arena s)) (sp_host s)) as [(e & ->)|(p & ->)].
  - cbn. by destruct s.
  - pose proof (scratch_store_same _ p s eq_refl) as [Hf Ho].
    destruct (_scratch_store (sl_len (scratch_arena s)) p (sp_host s)) as [[a|e] h]; cbn [fst snd] in *.
    + by apply Ho.
    + exact Hf.
Qed.
Lemma is_store_bytes f : is_store (λ off, _scratch_store off f).
Proof. intros off h. right. by eexists. Qed.
Lemma scratch_byte_keeps b : keeps spec_same (scratch_push_byte b).
Proof.
  apply scratch_push_keeps. intros off h. unfold host_scratch_store_byte. rewrite bind_run, of_outcome_run.
  destruct (byte_of_Z b); [right|left]; by eexists.
Qed.
Lemma push_slice_keeps k d : keeps spec_same (push_slice k d).
Proof.
  unfold push_slice. destruct (negb _); [|apply keeps_ret; apply _]. apply scratch_push_keeps.
  intros off h. right. by eexists.
Qed.
Lemma push_address_keeps a : keeps spec_same (scratch_push_address a).
Proof. apply scratch_push_keeps, is_store_bytes. Qed.
Lemma push_fixed_keeps a : keeps spec_same (scratch_push_fixed_bytes_256 a).
Proof. apply scratch_push_keeps, is_store_bytes. Qed.
Lemma push_b256_keeps h n : keeps spec_same (scratch_push_b256 h n).
Proof.
  unfold scratch_push_b256. destruct (negb _); [|apply keeps_ret; apply _]. apply scratch_push_keeps.
  intros off st. right. by eexists.
Qed.
Lemma push_word_keeps d n : keeps spec_same (scratch_push_word_be d n).
Proof.
  unfold scratch_push_word_be. destruct (negb _); [|apply keeps_ret; apply _]. apply scratch_push_keeps.
  intros off st. right. by eexists.
Qed.
Lemma reserve_keeps n : keeps spec_same (scratch_reserve n).
Proof.
  unfold scratch_reserve, get_arena. apply keeps_bind; [apply _|apply keeps_gets; apply _|].
  intros a. apply keeps_bind; [apply _| |keeps]. intros s. rewrite zoom_run.
  unfold host_scratch_reserve, modify_regions. rewrite bind_run, zoom_run, modify_run.
  cbn [fst snd view put spec_host HostState_Regions]. rewrite ret_run. cbn [snd].
  split; [|done]. split; [done|]. split; [done|]. intros [H0 Hin]. split; [exact H0|].
  destruct Hin as (? & ? & ? & ?). split_and!; [done..| |done]. cbn in *. rewrite ensure_length_len. lia.
Qed.
Lemma finish_keeps n : keeps spec_same (scratch_finish n).
Proof. keeps. Qed.
Lemma rewind_keeps mark : keeps spec_same (scratch_rewind mark).
Proof.
  intros s. unfold scratch_rewind, get_arena. rewrite bind_run, gets_run.
  destruct (mark <=? _) eqn:Em; [|by rewrite raise_run].
  rewrite bind_run, of_outcome_run. unfold scratch_sub_slice, sub_slice, checked_slice.
  destruct (region_valid_range _ mark) eqn:Er; [|done]. unfold region_valid_range in Er.
  unfold set_arena. rewrite bind_run, modify_run, zoom_run. unfold host_scratch_truncate, modify_regions.
  rewrite zoom_run, modify_run. cbn [fst snd view put spec_host HostState_Regions].
  split; [|done]. split; [done|]. split; [done|]. intros [H0 Hin]. destruct Hin as (? & ? & Hb & ?).
  split; [cbn in *; lia|]. split_and!; cbn in *; [lia|lia| |lia].
  unfold py_del_from. rewrite slice_bound_in by lia. unfold py_len in *. rewrite length_take. lia.
Qed.
(** Emptying the arena makes one of any state. *)
Lemma scratch_reset_run s :
  ∃ s', scratch_reset s = (Ok tt, s') ∧ spec_same s s' ∧ arena_wf s' ∧ arena s' = [] ∧
    s'.(sp_env) = s.(sp_env).
Proof.
  eexists. split; [reflexivity|]. assert (arena_wf (snd (scratch_reset s))) as Hw.
  { split; [done|]. split_and!; cbn; [done|done| |done]. apply py_len_nonneg. }
  split; [split; [split; [done|split; [done|intros _; exact Hw]]|done]|].
  split; [exact Hw|]. split; [|done]. change (arena (snd (scratch_reset s)) = []).
  by rewrite arena_take.
Qed.
Lemma scratch_reset_keeps : keeps spec_same scratch_reset.
Proof.
  intros s. destruct (scratch_reset_run s) as (s' & -> & H & _). exact H.
Qed.
#[export] Hint Resolve scratch_byte_keeps push_slice_keeps push_address_keeps push_fixed_keeps push_b256_keeps push_word_keeps
  reserve_keeps finish_keeps rewind_keeps scratch_reset_keeps : keeps.
Lemma string_prefix_keeps n f : keeps spec_same (rlp_write_string_prefix n f).
Proof. keeps. Qed.
Lemma list_prefix_keeps n : keeps spec_same (rlp_write_list_prefix n).
Proof. keeps. Qed.
#[export] Hint Resolve string_prefix_keeps list_prefix_keeps : keeps.
Lemma write_uint_keeps w : keeps spec_same (rlp_write_uint_word w).
Proof. keeps. Qed.
Lemma write_slice_keeps k d : keeps spec_same (rlp_write_slice k d).
Proof. keeps. Qed.
#[export] Hint Resolve write_uint_keeps write_slice_keeps : keeps.

(** ** The kernel, the machine and the interpreter *)

Section machine.
Context `{Keccak} `{AccelLib}.

Lemma k_aload_keeps a : keeps spec_same (k_aload a).
Proof. keeps. Qed.
#[local] Hint Resolve k_aload_keeps : keeps.
Lemma k_sload_keeps a s : keeps spec_same (k_sload a s).
Proof. keeps. Qed.
#[local] Hint Resolve k_sload_keeps : keeps.
Lemma k_transfer_keeps a b v : keeps spec_same (k_transfer a b v).
Proof. keeps. Qed.
#[local] Hint Resolve k_transfer_keeps : keeps.
Lemma analyze_code_keeps code fork : keeps host_same (analyze_code code fork).
Proof. keeps. Qed.
#[local] Hint Resolve analyze_code_keeps : keeps.
Lemma code_db_resolve_keeps h : keeps host_same (code_db_resolve h).
Proof. keeps. Qed.
#[local] Hint Resolve code_db_resolve_keeps : keeps.
Lemma k_deploy_code_keeps a c : keeps spec_same (k_deploy_code a c).
Proof. keeps. Qed.
#[local] Hint Resolve k_deploy_code_keeps : keeps.
Lemma merge_accounts_keeps fuel semantics epoch : keeps spec_same (merge_accounts fuel semantics epoch).
Proof. induction fuel as [|fuel IH]; cbn; keeps. Qed.
Lemma merge_storages_keeps fuel epoch : keeps spec_same (merge_storages fuel epoch).
Proof. induction fuel as [|fuel IH]; cbn; keeps. Qed.
#[local] Hint Resolve merge_accounts_keeps merge_storages_keeps : keeps.
Lemma k_tx_merge_keeps : keeps spec_same k_tx_merge.
Proof. keeps. Qed.
End machine.
#[export] Hint Resolve k_aload_keeps k_sload_keeps k_transfer_keeps analyze_code_keeps
  code_db_resolve_keeps k_deploy_code_keeps k_tx_merge_keeps : keeps.

Section interpreter.
Context `{Keccak} `{AccelLib}.

Lemma pc_word_loop_keeps input start count input_length value offsets :
  keeps host_same (pc_word_loop input start count input_length value offsets).
Proof. revert value. induction offsets as [|x l IH]; intros; cbn; keeps. Qed.
#[local] Hint Resolve pc_word_loop_keeps : keeps.
Lemma pc_word_keeps input start count : keeps host_same (pc_word input start count).
Proof. keeps. Qed.
#[local] Hint Resolve pc_word_keeps : keeps.
Lemma stack_read_keeps sp i : keeps spec_same (stack_slot_read sp i).
Proof. keeps. Qed.
Lemma stack_write_keeps sp i v : keeps spec_same (stack_slot_write sp i v).
Proof. keeps. Qed.
Lemma pop_keeps sp : keeps spec_same (pop sp).
Proof. keeps. Qed.
Lemma push_keeps sp v : keeps spec_same (Execute.push sp v).
Proof. keeps. Qed.
Lemma expand_memory_keeps b h r : keeps spec_same (expand_memory b h r).
Proof. keeps. Qed.
#[local] Hint Resolve stack_read_keeps stack_write_keeps pop_keeps push_keeps expand_memory_keeps : keeps.
Lemma run_precompile_keeps n input : keeps spec_same (run_precompile_slice n input).
Proof. keeps. Qed.
#[local] Hint Resolve run_precompile_keeps : keeps.

Lemma execute_instruction_keeps fork fee context f i :
  keeps spec_same (execute_instruction fork fee context f i).
Proof. destruct i; keeps. Qed.
#[local] Hint Resolve execute_instruction_keeps : keeps.
Lemma run_call_keeps f kind : keeps spec_same (run_call f kind).
Proof. keeps. Qed.
Lemma run_create_keeps f kind : keeps spec_same (run_create f kind).
Proof. keeps. Qed.
#[local] Hint Resolve run_call_keeps run_create_keeps : keeps.
Lemma run_turn_keeps fork fee f context : keeps spec_same (run_turn fork fee f context).
Proof. keeps. Qed.
Lemma return_turn_keeps f context : keeps spec_same (return_turn f context).
Proof. keeps. Qed.
#[local] Hint Resolve run_turn_keeps return_turn_keeps : keeps.
Lemma interpret_loop_keeps fuel fork fee f context :
  keeps spec_same (interpret_loop fuel fork fee f context).
Proof. revert f context. induction fuel as [|fuel IH]; intros; cbn [interpret_loop]; keeps. Qed.
#[local] Hint Resolve interpret_loop_keeps : keeps.
Lemma interpret_keeps fuel f : keeps spec_same (interpret fuel f).
Proof. keeps. Qed.
End interpreter.
#[export] Hint Resolve pc_word_keeps run_precompile_keeps stack_read_keeps stack_write_keeps pop_keeps
  push_keeps expand_memory_keeps interpret_keeps : keeps.

(** ** Transactions *)

(** The recursion over the items of a list. *)
Lemma decode_items_keeps {S X A : Type} `{Component S HostState} (R : S → S → Prop) `{!PreOrder R}
    (finish : X → Slice → M S A) step :
  (∀ B (m : M HostState B), keeps host_same m → keeps R (zoom m)) →
  (∀ x c, keeps R (finish x c)) →
  (∀ x c i n k, (∀ x c, keeps R (k x c)) → keeps R (step x c i n k)) →
  ∀ fuel x c, keeps R (decode_items finish step fuel x c).
Proof.
  intros Hz Hf Hs fuel. induction fuel as [|fuel IH]; intros x c; cbn [decode_items]; [by apply keeps_raise|].
  case_match; [apply Hf|]. apply keeps_bind; [done|apply Hz; keeps|]. intros []. by apply Hs.
Qed.

Ltac keeps_items :=
  match goal with
  | |- keeps spec_same (decode_items _ _ _ _ _) =>
      apply decode_items_keeps; [apply _|intros ? ?; apply same_host| |]
  | |- keeps host_same (decode_items _ _ _ _ _) =>
      apply decode_items_keeps; [apply _|intros ? ?; apply same_itself| |]
  end.
Ltac keeps ::= repeat first [solve [auto with keeps] | keeps_trie | keeps_items | keeps_step].

Section transactions.
Context `{Keccak} `{AccelLib}.

Lemma prepare_authorization_entries_keeps cursor count :
  keeps spec_same (prepare_authorization_entries cursor count).
Proof. revert cursor. induction count as [|n IH]; intros; cbn; keeps. Qed.
Lemma process_auth_cursor_keeps l count : keeps spec_same (process_auth_cursor l count).
Proof. revert l. induction count as [|n IH]; intros; cbn; keeps. Qed.
#[local] Hint Resolve prepare_authorization_entries_keeps process_auth_cursor_keeps : keeps.
Lemma process_amsterdam_auth_cursor_keeps l count sender target tv g st p :
  keeps spec_same (process_amsterdam_auth_cursor l count sender target tv g st p).
Proof. revert l g st p. induction count as [|n IH]; intros; cbn [process_amsterdam_auth_cursor]; keeps. Qed.
#[local] Hint Resolve process_amsterdam_auth_cursor_keeps : keeps.
Lemma rlp_decode_tx_keeps tx pubkey limit : keeps spec_same (rlp_decode_tx tx pubkey limit).
Proof. keeps. Qed.
Lemma check_transaction_validity_keeps tx a : keeps spec_same (check_transaction_validity tx a).
Proof. keeps. Qed.
#[local] Hint Resolve check_transaction_validity_keeps : keeps.
Lemma process_transaction_keeps fuel tx a : keeps spec_same (process_transaction fuel tx a).
Proof. keeps. Qed.
End transactions.
#[export] Hint Resolve rlp_decode_tx_keeps process_transaction_keeps : keeps.

(** ** The state root *)

Lemma write_pairs_keeps fuel p length index : keeps spec_same (write_pairs fuel p length index).
Proof. revert index. induction fuel as [|fuel IH]; intros; cbn [write_pairs]; keeps. Qed.
#[export] Hint Resolve write_pairs_keeps : keeps.

Section trie.
Context `{Keccak}.

Lemma leaf_ref_keeps size write key :
  keeps host_same size → keeps spec_same write → keeps spec_same (leaf_ref size write key).
Proof. intros Hs Hw. keeps. Qed.
#[local] Hint Resolve leaf_ref_keeps : keeps.
Lemma input_leaf_keeps key v : keeps spec_same (input_leaf_child_ref key v).
Proof. keeps. Qed.
Lemma scratch_leaf_keeps key v : keeps spec_same (scratch_leaf_child_ref key v).
Proof. keeps. Qed.
Lemma extension_keeps key r : keeps spec_same (extension_child_ref key r).
Proof. keeps. Qed.
Lemma branch_keeps mask children : keeps spec_same (branch_child_ref mask children).
Proof. keeps. Qed.
#[local] Hint Resolve input_leaf_keeps scratch_leaf_keeps extension_keeps branch_keeps : keeps.
Lemma trie_child_ref_keeps it d : keeps spec_same (trie_child_ref it d).
Proof. keeps. Qed.
#[local] Hint Resolve trie_child_ref_keeps : keeps.
Lemma trie_children_finish_keeps prefix c : keeps spec_same (trie_children_finish prefix c).
Proof. keeps. Qed.
Lemma trie_children_add_keeps c prefix i it : keeps spec_same (trie_children_add c prefix i it).
Proof. keeps. Qed.
Lemma trie_subtree_root_keeps it : keeps spec_same (trie_subtree_root it).
Proof. keeps. Qed.
#[local] Hint Resolve trie_children_finish_keeps trie_children_add_keeps trie_subtree_root_keeps : keeps.

(** With a source of updates that keeps it. *)
Context (source_next : TrieUpdateSource → M SpecState TrieUpdateFetch).
Context (Hsource : ∀ s, keeps spec_same (source_next s)).
Abbreviation below_keeps below := (∀ u p n, keeps spec_same (below u p n)).

Lemma take_update_keeps u p : keeps spec_same (take_update source_next u p).
Proof using Hsource. keeps. Qed.
Lemma updates_children_keeps turns below prefix n c u :
  below_keeps below → keeps spec_same (updates_children turns below prefix n c u).
Proof. intros Hb. revert c u. induction turns as [|k IH]; intros; cbn [updates_children]; keeps. Qed.
Lemma overlay_children_keeps turns it nib consume below prefix n pending c u :
  below_keeps consume → below_keeps below →
  keeps spec_same (overlay_children turns it nib consume below prefix n pending c u).
Proof. intros Hc Hb. revert pending c u. induction turns as [|k IH]; intros; cbn [overlay_children]; keeps. Qed.
Lemma branch_children_keeps ids over below refs prefix n c u :
  (∀ node p u n, keeps spec_same (over node p u n)) → below_keeps below →
  keeps spec_same (branch_children ids over below refs prefix n c u).
Proof. intros Ho Hb. revert c u. induction ids as [|k l IH]; intros; cbn [branch_children]; keeps. Qed.
#[local] Hint Resolve take_update_keeps updates_children_keeps overlay_children_keeps
  branch_children_keeps : keeps.
Lemma updates_subtree_keeps d u p n : keeps spec_same (updates_subtree source_next d u p n).
Proof using Hsource. revert u p n. induction d as [|d IH]; intros; cbn [updates_subtree]; keeps. Qed.
#[local] Hint Resolve updates_subtree_keeps : keeps.
Lemma overlay_leaf_keeps d u p key v n : keeps spec_same (overlay_leaf_subtree source_next d u p key v n).
Proof using Hsource. revert u p n. induction d as [|d IH]; intros; cbn [overlay_leaf_subtree]; keeps. Qed.
#[local] Hint Resolve overlay_leaf_keeps : keeps.
Lemma witness_subtree_keeps d :
  (∀ node p u n, keeps spec_same (witness_subtree source_next d node p u n)) ∧
  (∀ r cp u p n, keeps spec_same (overlay_extension_subtree source_next d r cp u p n)).
Proof using Hsource.
  induction d as [|d [IH1 IH2]]; split; intros; cbn [witness_subtree overlay_extension_subtree]; keeps.
Qed.
Lemma trie_root_cursor_keeps base u : keeps spec_same (trie_root_cursor source_next base u).
Proof using Hsource. pose proof (λ d, proj1 (witness_subtree_keeps d)). keeps. Qed.
#[local] Hint Resolve trie_root_cursor_keeps : keeps.
Lemma trie_root_keeps base source : keeps spec_same (trie_root source_next base source).
Proof using Hsource. keeps. Qed.
End trie.

Section state_root.
Context `{Keccak}.

Lemma storage_update_loop_keeps fuel a : keeps spec_same (storage_update_loop fuel a).
Proof. induction fuel as [|fuel IH]; cbn [storage_update_loop]; keeps. Qed.
#[local] Hint Resolve storage_update_loop_keeps : keeps.
Lemma account_trie_update_keeps next e :
  (∀ s, keeps spec_same (next s)) → keeps spec_same (account_trie_update next e).
Proof. intros Hn. pose proof (trie_root_cursor_keeps next Hn). keeps. Qed.
#[local] Hint Resolve account_trie_update_keeps : keeps.
Lemma account_update_loop_keeps next fuel :
  (∀ s, keeps spec_same (next s)) → keeps spec_same (account_update_loop next fuel).
Proof. intros Hn. induction fuel as [|fuel IH]; cbn [account_update_loop]; keeps. Qed.
#[local] Hint Resolve account_update_loop_keeps : keeps.
Lemma source_next_within_keeps nesting s : keeps spec_same (source_next_within nesting s).
Proof. revert s. induction nesting as [|n IH]; intros []; cbn [source_next_within]; keeps. Qed.
#[local] Hint Resolve source_next_within_keeps : keeps.
Lemma compute_state_root_keeps : keeps spec_same compute_state_root.
Proof. pose proof (trie_root_keeps _ (source_next_within_keeps 1)). keeps. Qed.
End state_root.
#[export] Hint Resolve leaf_ref_keeps input_leaf_keeps scratch_leaf_keeps trie_child_ref_keeps
  trie_children_finish_keeps trie_children_add_keeps trie_subtree_root_keeps
  compute_state_root_keeps : keeps.

(** ** The block *)

Lemma u256_loop_keeps input offset ks r : keeps host_same (u256_loop input offset ks r).
Proof. revert r. induction ks as [|k l IH]; intros; cbn [u256_loop]; keeps. Qed.
#[export] Hint Resolve u256_loop_keeps : keeps.
Lemma decode_ssz_uint_keeps i o : keeps host_same (decode_ssz_uint i o).
Proof. keeps. Qed.
Lemma ssz_u32_keeps i o : keeps host_same (ssz_u32 i o).
Proof. keeps. Qed.
Lemma ssz_u32_in_slice_keeps i o : keeps host_same (ssz_u32_in_slice i o).
Proof. keeps. Qed.
#[export] Hint Resolve decode_ssz_uint_keeps ssz_u32_keeps ssz_u32_in_slice_keeps : keeps.
Lemma ssz_list_pop_keeps c : keeps host_same (ssz_list_pop c).
Proof. keeps. Qed.
#[export] Hint Resolve ssz_list_pop_keeps : keeps.

Lemma count_loop_keeps {S A} (R : S → S → Prop) `{!PreOrder R} turns offset count (body : A → Z → M S A) acc :
  (∀ a o, keeps R (body a o)) → keeps R (count_loop turns offset count body acc).
Proof. intros Hb. revert offset acc. induction turns as [|n IH]; intros; cbn [count_loop]; keeps. Qed.
Ltac keeps_loop := match goal with |- keeps _ (count_loop _ _ _ _ _) => apply count_loop_keeps end.
Ltac keeps ::= repeat first [solve [auto with keeps] | keeps_trie | keeps_items | keeps_loop | keeps_step].

Section block.
Context `{Keccak} `{AccelLib}.

Lemma bloom_from_loop_keeps r ks out : keeps host_same (bloom_from_loop r ks out).
Proof. revert out. induction ks as [|k l IH]; intros; cbn [bloom_from_loop]; keeps. Qed.
#[local] Hint Resolve bloom_from_loop_keeps : keeps.
Lemma receipt_store_append_keeps r g i : keeps spec_same (receipt_store_append r g i).
Proof. keeps. Qed.
#[local] Hint Resolve receipt_store_append_keeps : keeps.

Lemma indexed_children_keeps turns below prefix d c rest :
  (∀ c p, keeps spec_same (below c p)) →
  keeps spec_same (indexed_children turns below prefix d c rest).
Proof. intros Hb. revert c rest. induction turns as [|n IH]; intros; cbn [indexed_children]; keeps. Qed.
#[local] Hint Resolve indexed_children_keeps : keeps.
Lemma indexed_trie_pop_keeps source c : keeps spec_same (indexed_trie_pop source c).
Proof. keeps. Qed.
#[local] Hint Resolve indexed_trie_pop_keeps : keeps.
Lemma indexed_trie_subtree_keeps source levels c p :
  keeps spec_same (indexed_trie_subtree source levels c p).
Proof. revert c p. induction levels as [|n IH]; intros; cbn [indexed_trie_subtree]; keeps. Qed.
#[local] Hint Resolve indexed_trie_subtree_keeps : keeps.
Lemma indexed_trie_root_keeps source : keeps spec_same (indexed_trie_root source).
Proof. keeps. Qed.
#[local] Hint Resolve indexed_trie_root_keeps : keeps.
Lemma request_digests_keeps l : keeps spec_same (request_digests l).
Proof. induction l as [|r l IH]; cbn [request_digests]; keeps. Qed.
#[local] Hint Resolve request_digests_keeps : keeps.

Lemma keeps_fields (fields : list HeaderField) :
  Forall (λ f, keeps spec_same f.(hf_write)) fields → keeps spec_same (for_each hf_write fields).
Proof. induction 1; cbn [for_each]; keeps. Qed.
Lemma word_field_keeps h : keeps spec_same (hf_write (word_field h)).
Proof. cbn [hf_write word_field]. keeps. Qed.
Lemma uint_field_keeps v : keeps spec_same (hf_write (uint_field v)).
Proof. cbn [hf_write uint_field]. keeps. Qed.
#[local] Hint Resolve word_field_keeps uint_field_keeps : keeps.
Lemma fork_fields_keep fork h w r b : Forall (λ f, keeps spec_same f.(hf_write)) (fork_fields fork h w r b).
Proof.
  unfold fork_fields, when_fork. repeat apply Forall_app_2; case_match;
    repeat first [apply Forall_nil | apply Forall_cons; split]; auto with keeps.
Qed.
Lemma header_fields_keep fork h w r b : keeps spec_same (for_each hf_write (fork_fields fork h w r b)).
Proof. apply keeps_fields, fork_fields_keep. Qed.
#[local] Hint Resolve header_fields_keep : keeps.
Lemma logs_bloom_from_ref_keeps r : keeps host_same (logs_bloom_from_ref r).
Proof. keeps. Qed.
#[local] Hint Resolve logs_bloom_from_ref_keeps : keeps.
Lemma block_header_hash_keeps h t w r b : keeps spec_same (block_header_hash h t w r b).
Proof. keeps. Qed.
#[local] Hint Resolve block_header_hash_keeps : keeps.
Lemma validate_execution_payload_keeps i r w : keeps spec_same (validate_execution_payload i r w).
Proof. keeps. Qed.

Lemma bal_pairs_keeps fuel check c :
  (∀ f e, keeps host_same (check f e)) → keeps host_same (bal_validate_pairs fuel check c).
Proof. intros Hc. revert c. induction fuel as [|n IH]; intros; cbn [bal_validate_pairs]; keeps. Qed.
Lemma bal_count_keeps fuel step c :
  (∀ f, keeps host_same (step f)) → keeps host_same (bal_count fuel step c).
Proof. intros Hs. revert c. induction fuel as [|n IH]; intros; cbn [bal_count]; keeps. Qed.
Ltac keeps_loop ::=
  match goal with
  | |- keeps _ (count_loop _ _ _ _ _) => apply count_loop_keeps
  | |- keeps _ (bal_validate_pairs _ _ _) => apply bal_pairs_keeps
  | |- keeps _ (bal_count _ _ _) => apply bal_count_keeps
  end.
Lemma validate_block_access_list_keeps b l : keeps host_same (validate_block_access_list b l).
Proof. keeps. Qed.
#[local] Hint Resolve validate_block_access_list_keeps : keeps.

(** *** The execution *)

Lemma execute_system_call_keeps fuel t c i b : keeps spec_same (run_system_call_frame fuel t c i b).
Proof. keeps. Qed.
#[local] Hint Resolve execute_system_call_keeps : keeps.
Lemma system_call_keeps fuel t i : keeps spec_same (system_call fuel t i).
Proof. keeps. Qed.
Lemma validate_request_stream_keeps fuel t e : keeps spec_same (validate_request_stream fuel t e).
Proof. keeps. Qed.
#[local] Hint Resolve system_call_keeps validate_request_stream_keeps : keeps.
Lemma each_keeps {S A B} (R : S → S → Prop) `{!PreOrder R} (f : A → M S B) l :
  (∀ a, keeps R (f a)) → keeps R (each f l).
Proof. intros Hf. induction l as [|a l IH]; cbn [each]; keeps. Qed.
Ltac keeps_loop ::=
  match goal with
  | |- keeps _ (count_loop _ _ _ _ _) => apply count_loop_keeps
  | |- keeps _ (each _ _) => apply each_keeps
  end.
Lemma authenticate_deposit_logs_keeps logs e : keeps spec_same (authenticate_deposit_logs logs e).
Proof. keeps. Qed.
#[local] Hint Resolve authenticate_deposit_logs_keeps : keeps.
Lemma block_transaction_keeps fuel profile limits b :
  keeps spec_same (block_transaction fuel profile limits b).
Proof. keeps. Qed.
#[local] Hint Resolve block_transaction_keeps : keeps.
Lemma block_transactions_keeps fuel turns profile limits b :
  keeps spec_same (block_transactions fuel turns profile limits b).
Proof. revert b. induction turns as [|n IH]; intros; cbn [block_transactions]; keeps. Qed.
#[local] Hint Resolve block_transactions_keeps : keeps.
Lemma withdrawals_loop_keeps turns l : keeps spec_same (withdrawals_loop turns l).
Proof. revert l. induction turns as [|n IH]; intros; cbn [withdrawals_loop]; keeps. Qed.
#[local] Hint Resolve withdrawals_loop_keeps : keeps.
Lemma execute_block_body_keeps fuel body r : keeps spec_same (execute_block_body fuel body r).
Proof. keeps. Qed.
Lemma validate_executed_block_keeps b r : keeps spec_same (validate_executed_block b r).
Proof. keeps. Qed.
Lemma decode_stateless_input_ref_keeps i : keeps host_same (decode_stateless_input_ref i).
Proof. keeps. Qed.
(** Decoding the input sets the registers of the block. *)
Lemma outside_weaken {A} (m : M SpecState A) : keeps spec_same m → keeps outside_same m.
Proof. intros Hm s. apply Hm. Qed.
Lemma decode_stateless_input_keeps r : keeps outside_same (decode_stateless_input r).
Proof.
  assert (∀ f, keeps outside_same (update_env f)) as Hu
    by (intros f; apply keeps_modify; intros s; apply outside_env).
  unfold decode_stateless_input.
  repeat first [apply keeps_bind; [apply _| |intros ?] | apply Hu
    | apply keeps_modify; intros ?; apply outside_env | apply outside_weaken; keeps].
Qed.
Lemma index_witness_nodes_cursor_keeps fuel c : keeps host_same (index_witness_nodes_cursor fuel c).
Proof. revert c. induction fuel as [|n IH]; intros; cbn [index_witness_nodes_cursor]; keeps. Qed.
Lemma index_witness_codes_cursor_keeps fuel c : keeps spec_same (index_witness_codes_cursor fuel c).
Proof. revert c. induction fuel as [|n IH]; intros; cbn [index_witness_codes_cursor]; keeps. Qed.
End block.
#[export] Hint Resolve execute_block_body_keeps validate_executed_block_keeps
  decode_stateless_input_ref_keeps validate_execution_payload_keeps
  index_witness_nodes_cursor_keeps index_witness_codes_cursor_keeps : keeps.

(** ** The program *)

Definition program_same (p p' : ProgramState) : Prop := spec_same p.(program_spec) p'.(program_spec).
#[export] Instance program_same_preorder : PreOrder program_same.
Proof. split; [intros p; apply spec_same_preorder|intros p1 p2 p3; apply spec_same_preorder]. Qed.

Lemma on_spec_keeps {A} (m : M SpecState A) : keeps spec_same m → keeps program_same (on_spec m).
Proof. by apply keeps_zoom. Qed.
Lemma on_input_keeps {A} (m : M HostState A) : keeps host_same m → keeps program_same (on_input m).
Proof. intros Hm. by apply on_spec_keeps, same_host. Qed.
Lemma assign_keeps f : keeps program_same (assign f).
Proof. apply keeps_modify. intros s. by cbn. Qed.
#[export] Hint Resolve program_same_preorder assign_keeps : keeps.
Ltac keeps_program :=
  match goal with
  | |- keeps program_same (on_spec _) => apply on_spec_keeps
  | |- keeps program_same (on_input _) => apply on_input_keeps
  end.
Ltac keeps ::= repeat first [solve [auto with keeps] | keeps_program | keeps_trie | keeps_items | keeps_loop | keeps_step].

Section program.
Context `{Keccak} `{AccelLib}.

Lemma decode_parent_header_fields_keeps fuel c i :
  keeps program_same (decode_parent_header_fields fuel c i).
Proof. revert c i. induction fuel as [|n IH]; intros; cbn [decode_parent_header_fields]; keeps. Qed.
#[local] Hint Resolve decode_parent_header_fields_keeps : keeps.
Lemma index_witness_header_cursor_keeps fuel r : keeps program_same (index_witness_header_cursor fuel r).
Proof. revert r. induction fuel as [|n IH]; intros; cbn [index_witness_header_cursor]; keeps. Qed.
#[local] Hint Resolve index_witness_header_cursor_keeps : keeps.
Lemma index_execution_witness_keeps r : keeps program_same (index_execution_witness r).
Proof. keeps. Qed.
Definition program_outside (p p' : ProgramState) : Prop := outside_same p.(program_spec) p'.(program_spec).
#[export] Instance program_outside_preorder : PreOrder program_outside.
Proof. split; [intros p; apply outside_same_preorder|intros p1 p2 p3; apply outside_same_preorder]. Qed.
Lemma program_weaken {A} (m : M ProgramState A) : keeps program_same m → keeps program_outside m.
Proof. intros Hm s. apply Hm. Qed.
Lemma verify_stateless_payload_keeps fuel r : keeps program_outside (verify_stateless_payload fuel r).
Proof.
  unfold verify_stateless_payload. apply keeps_bind; [apply _|apply program_weaken; keeps|intros _].
  apply keeps_bind; [apply _| |intros input].
  { apply (keeps_zoom _ outside_same); [done|apply decode_stateless_input_keeps]. }
  apply keeps_bind; [apply _|apply program_weaken, index_execution_witness_keeps|intros w].
  apply program_weaken. keeps.
Qed.
End program.

(** ** The result *)

Section result.
Context `{Keccak}.

Lemma subtree_root_keeps {S} (R : S → S → Prop) `{!PreOrder R} leaf d start count :
  (∀ i, keeps R (leaf i)) → keeps R (subtree_root leaf d start count).
Proof. intros Hl. revert start count. induction d as [|d IH]; intros; cbn [subtree_root]; keeps. Qed.
Lemma field_roots_keeps fields :
  Forall (keeps host_same) fields → keeps host_same (field_roots fields).
Proof. induction 1; cbn [field_roots]; keeps. Qed.
Lemma container_root_keeps fields d :
  Forall (keeps host_same) fields → keeps host_same (container_root fields d).
Proof.
  intros Hf. unfold container_root. apply keeps_bind; [apply _|by apply field_roots_keeps|].
  intros roots. unfold merkleize. apply keeps_bind; [apply _|keeps|]. intros capacity.
  destruct (_ <=? _); [|keeps]. apply subtree_root_keeps; [apply _|]. intros i. keeps.
Qed.
Ltac keeps_loop ::=
  match goal with
  | |- keeps _ (subtree_root _ _ _ _) => apply subtree_root_keeps; [apply _|]
  | |- keeps _ (container_root _ _) =>
      apply container_root_keeps; repeat first [apply Forall_nil | apply Forall_cons; split]
  end.
Lemma ssz_list_at_keeps l i : keeps host_same (ssz_list_at l i).
Proof. keeps. Qed.
#[local] Hint Resolve ssz_list_at_keeps : keeps.
Lemma htr_bytelist_keeps b limit : keeps host_same (htr_bytelist b limit).
Proof. keeps. Qed.
#[local] Hint Resolve htr_bytelist_keeps : keeps.
Lemma request_root_keeps kind r : keeps host_same (request_root kind r).
Proof. destruct kind; keeps. Qed.
#[local] Hint Resolve request_root_keeps : keeps.
Lemma htr_execution_payload_keeps r : keeps host_same (htr_execution_payload r).
Proof. keeps. Qed.
#[local] Hint Resolve htr_execution_payload_keeps : keeps.
Lemma htr_new_payload_request_keeps r : keeps host_same (htr_new_payload_request r).
Proof. keeps. Qed.
#[local] Hint Resolve htr_new_payload_request_keeps : keeps.

(** A push that returns has appended its bytes. *)
Lemma push_appends store p s s' :
  arena_wf s → (∀ off, store off s.(sp_host) = _scratch_store off p s.(sp_host)) →
  runs (Scratch.push store) s tt s' → appends p s s'.
Proof.
  intros Hw Hs Hr. destruct (Z.leb_spec0 (py_len (arena s) + py_len p) SCRATCH_LIMIT) as [Hroom|Hno].
  - destruct (push_store store s p Hw Hroom Hs) as (s'' & E & Ha). unfold runs in Hr.
    rewrite E in Hr. by injection Hr as ->.
  - exfalso. rewrite (arena_len s Hw) in Hno. unfold SCRATCH_LIMIT in Hno.
    unfold runs, Scratch.push, get_arena in Hr. rewrite bind_run, gets_run, bind_run, zoom_run in Hr.
    cbn [view spec_host] in Hr. rewrite Hs in Hr. unfold _scratch_store, modify_regions in Hr.
    rewrite bind_run, zoom_run, modify_run, of_outcome_run in Hr.
    unfold scratch_slice, checked_slice, region_valid_range in Hr. cbn [fst snd] in Hr.
    match type of Hr with context [if ?b then _ else _] => destruct b eqn:Eb end; [|done]. lia.
Qed.
Lemma push_byte_appends b s s' :
  arena_wf s → 0 <= b < 256 → runs (scratch_push_byte b) s tt s' → appends [byte_wrap b] s s'.
Proof.
  intros Hw Hb Hr. apply (push_appends _ [byte_wrap b]) in Hr; [done..|]. intros off.
  unfold host_scratch_store_byte. rewrite byte_of_Z_small by done. by py_step.
Qed.
Lemma push_hash_appends h s s' :
  arena_wf s → py_len h = 32 → runs (scratch_push_b256 h WORD_BYTE_LENGTH) s tt s' → appends (rev h) s s'.
Proof.
  intros Hw Hh Hr. refine (push_appends _ (rev h) s s' Hw _ Hr). intros off.
  assert (py_len (rev h) = 32) as Hr32 by (unfold py_len in *; by rewrite length_rev).
  unfold host_scratch_store_b256, py_slice_to, _fixed_wire_bytes. change WORD_BYTE_LENGTH with 32.
  rewrite slice_bound_in by lia. rewrite take_ge; [done|]. unfold py_len in Hr32. lia.
Qed.
Lemma push_slice_appends kind d s s' :
  arena_wf s → runs (push_slice kind d) s tt s' → appends (slice_data kind d s.(sp_host)) s s'.
Proof.
  intros Hw. unfold push_slice. destruct (Z.eqb_spec (sl_len d) 0) as [H0|H0]; cbn [negb].
  - intros [_ ->]%runs_ret. replace (slice_data _ _ _) with ([] : bytes); [by apply appends_refl|].
    unfold slice_data, _slice_bytes, py_slice. by rewrite H0, Z.add_0_r, Z.sub_diag.
  - apply push_appends; [done|]. intros off. reflexivity.
Qed.

(** The record of a result: the root as it is hashed, the verdict, the offset
    of the chain configuration and the configuration. *)
Definition result_bytes (root : hash) (success : bool) (chain_config : bytes) : bytes :=
  rev root ++ [byte_wrap (if success then 1 else 0); Byte.x25; Byte.x00; Byte.x00; Byte.x00] ++ chain_config.

Lemma write_prefix_appends root success s s' :
  arena_wf s → py_len root = 32 → runs (write_prefix root success) s tt s' →
  appends (rev root ++ [byte_wrap (if success then 1 else 0); Byte.x25; Byte.x00; Byte.x00; Byte.x00]) s s'.
Proof.
  intros Hw Hl ([] & s1 & H1 & ([] & s2 & H2 & ([] & s3 & H3 & ([] & s4 & H4 & ([] & s5 & H5 &
    H6)%runs_bind)%runs_bind)%runs_bind)%runs_bind)%runs_bind.
  apply push_hash_appends in H1; [|done..]. pose proof (proj1 H1) as W1.
  apply push_byte_appends in H2; [|done|by destruct success]. pose proof (proj1 H2) as W2.
  apply push_byte_appends in H3; [|done|lia]. pose proof (proj1 H3) as W3.
  apply push_byte_appends in H4; [|done|lia]. pose proof (proj1 H4) as W4.
  apply push_byte_appends in H5; [|done|lia]. pose proof (proj1 H5) as W5.
  apply push_byte_appends in H6; [|done|lia].
  exact (appends_trans _ _ _ _ _ H1 (appends_trans _ _ _ _ _ H2 (appends_trans _ _ _ _ _ H3
    (appends_trans _ _ _ _ _ H4 (appends_trans _ _ _ _ _ H5 H6))))).
Qed.
(** The slice taken of what was written holds it. *)
Lemma finish_data p s s' o t :
  arena_wf s → appends p s s' → runs (scratch_finish s.(scratch_arena).(sl_len)) s' o t →
  t = s' ∧ slice_data RScratch o s'.(sp_host) = p.
Proof.
  intros Hw Ha. pose proof (proj1 Ha) as Hw'. pose proof (proj1 (proj2 Ha)) as E.
  pose proof (arena_len _ Hw) as L. pose proof (arena_len _ Hw') as L'.
  rewrite E, py_len_app in L'. pose proof (py_len_nonneg p). pose proof (py_len_nonneg (arena s)).
  unfold scratch_finish, get_arena, runs. rewrite bind_run, gets_run.
  rewrite (proj2 (Z.leb_le _ _)) by lia. rewrite of_outcome_run.
  destruct (sub_slice_ok RScratch s'.(scratch_arena) s.(scratch_arena).(sl_len)
    (sl_len (scratch_arena s') - sl_len (scratch_arena s)) s'.(sp_host)) as (u & Eu & _ & _ & Hd);
    [apply Hw'|lia..|].
  unfold scratch_sub_slice. rewrite Eu. intros [= <- <-]. split; [done|]. rewrite Hd.
  fold (arena s'). rewrite E, drop_app_length' by (unfold py_len in L; lia).
  apply take_ge. unfold py_len in *. lia.
Qed.

Lemma commit_writes root success cc s s' :
  arena_wf s → py_len root = 32 → runs (commit_validation_result root success cc) s tt s' →
  input_of s' = input_of s ∧
  output_of s' = output_of s ++ result_bytes root success (slice_data RInput cc s.(sp_host)).
Proof.
  intros Hw Hl (n & s1 & H1 & (start & s2 & H2 & ([] & s3 & H3 & ([] & s4 & H4 & (o & s5 & H5 &
    (w & s6 & H6 & H7)%runs_bind)%runs_bind)%runs_bind)%runs_bind)%runs_bind)%runs_bind.
  injection H1 as H1 <-. assert (0 <= n) as Hn.
  { unfold scratch_length_add, code_length, Uint in H1. repeat case_match; simplify_eq; lia. }
  destruct (reserve_ok s n Hw Hn) as (t & Er & A2). unfold runs in H2. rewrite Er in H2.
  injection H2 as <- <-. apply write_prefix_appends in H3; [|apply A2|done].
  apply (push_slice_appends RInput) in H4; [|apply H3].
  assert (slice_data RInput cc (sp_host s3) = slice_data RInput cc (sp_host s)) as Ec.
  { unfold slice_data. by rewrite (appends_region RInput _ _ _ ltac:(done) H3),
      (appends_region RInput _ _ _ ltac:(done) A2). }
  rewrite Ec in H4.
  assert (appends (result_bytes root success (slice_data RInput cc (sp_host s))) s s4) as A.
  { unfold result_bytes. rewrite app_assoc.
    exact (appends_trans _ _ _ _ _ A2 (appends_trans _ _ _ _ _ H3 H4)). }
  apply (finish_data _ _ _ _ _ Hw A) in H5 as [-> Hd].
  apply zoom_runs in H6 as (h & H6 & ->). unfold public_output_write, modify_regions in H6.
  destruct A as (_ & _ & b & Eh).
  apply runs_bind in H6 as (payload & h1 & Hp & H6). injection Hp as <- <-.
  change (_slice_bytes _ o) with (slice_data RScratch o (sp_host s4)) in H6. rewrite Hd in H6. unfold runs in H6. rewrite bind_run, zoom_run, modify_run in H6. cbn [fst snd] in H6.
  rewrite ret_run in H6. injection H6 as <- <-. injection H7 as <-.
  unfold input_of, output_of. cbn [sp_host put view spec_host]. rewrite Eh. done.
Qed.
End result.

(** ** What acceptance means *)

Lemma fatal_if_runs {S} b (s : S) a s' : runs (fatal_if b) s a s' ↔ b = false ∧ s' = s.
Proof.
  unfold runs, fatal_if. destruct b.
  - split; [intros E; discriminate E|intros [E _]; discriminate E].
  - rewrite when_false. destruct a. split; [intros E; by injection E as ->|by intros [_ ->]].
Qed.
Lemma get_profile_runs (s : SpecState) pr s' :
  runs get_profile s pr s' ↔ pr = s.(sp_env).(k_execution_profile).(protocol) ∧ s' = s.
Proof. unfold runs, get_profile, profile_of. rewrite gets_run. naive_solver. Qed.

(** The checks on the header before the block is executed. *)
Definition payload_checked (profile : ProtocolProfileFields) (header : BlockHeader)
    (w : WitnessContext) : Prop :=
  header.(bh_gas_used) <= header.(bh_gas_limit) ∧
  w.(wc_parent_hash) = header.(bh_parent_hash) ∧
  (Cancun <= fork profile →
     next_excess_blob_gas profile w.(wc_parent_excess_blob_gas) w.(wc_parent_blob_gas_used)
       w.(wc_parent_base_fee_per_gas) = Ok header.(bh_excess_blob_gas)).

Section acceptance.
Context `{Keccak} `{AccelLib}.

(** The roots the header is hashed with are those of the body. *)
Definition header_hashed (pl : ExecutionPayload) (r : StatelessInputRef) (s : SpecState) : Prop :=
  let header := pl.(block).(header) in
  let body := pl.(block).(body) in
  ∃ transactions withdrawals requests accesses s1 s2 s3 s4 s5,
    let fork := fork s.(sp_env).(k_execution_profile).(protocol) in
    runs (transaction_trie_root body.(bb_transactions)) s transactions s1 ∧
    runs (root_or (Shanghai <=? fork) (withdrawals_trie_root body.(bb_withdrawals)) EMPTY_TRIE_ROOT)
      s1 withdrawals s2 ∧
    runs (root_or (Prague <=? fork) (execution_requests_hash r) ZERO_HASH) s2 requests s3 ∧
    runs (root_or (Amsterdam <=? fork) (zoom (stateless_input_keccak256 body.(bb_block_access_list)))
      ZERO_HASH) s3 accesses s4 ∧
    runs (block_header_hash header transactions withdrawals requests accesses) s4
      pl.(expected_block_hash) s5.

Lemma validate_execution_payload_runs i r w s s' :
  runs (validate_execution_payload i r w) s tt s' →
  payload_checked s.(sp_env).(k_execution_profile).(protocol) i.(payload).(block).(header) w ∧
  (Paris <= fork s.(sp_env).(k_execution_profile).(protocol) → header_hashed i.(payload) r s).
Proof.
  unfold validate_execution_payload, expected_payload_excess_blob_gas.
  intros (pr & s0 & [-> ->]%get_profile_runs & (? & s1 & [H1 ->]%fatal_if_runs & (? & s2 &
    [H2 ->]%fatal_if_runs & (ex & s3 & (pr2 & s4 & [-> ->]%get_profile_runs & Hex)%runs_bind &
    (? & s5 & [H3 ->]%fatal_if_runs & Hrest)%runs_bind)%runs_bind)%runs_bind)%runs_bind)%runs_bind.
  injection Hex as Hex <-. apply negb_false_iff, bool_decide_eq_true in H2. split.
  - split_and!; [lia|done|]. intros Hf. rewrite (proj2 (Z.leb_le _ _) Hf) in H3. cbn in H3.
    apply negb_false_iff, Z.eqb_eq in H3. rewrite H3.
    destruct (next_excess_blob_gas _ _ _ _) as [v|]; [|done]. cbn in Hex.
    unfold excess_blob_gas, BoundedUint in Hex.
    destruct ((0 <=? v) && (v <=? 2994028288)); [|done]. by injection Hex as ->.
  - intros Hf. rewrite (proj2 (Z.leb_le _ _) Hf) in Hrest.
    revert Hrest. intros (tr & s1 & Ht & (wr & s2 & Hw & (rh & s3 & Hr & (bh & s4 & Hb & (ch & s5 & Hc &
      [He ->]%fatal_if_runs)%runs_bind)%runs_bind)%runs_bind)%runs_bind)%runs_bind.
    apply negb_false_iff, bool_decide_eq_true in He. subst ch.
    exists tr, wr, rh, bh, s1, s2, s3, s4, s5. cbv zeta. eauto 8.
Qed.

(** The checks on what the execution gave. *)
Definition result_checked (fork : Z) (header : BlockHeader) (result : BlockExecutionResult) : Prop :=
  result.(header_gas_used) = header.(bh_gas_used) ∧
  (Cancun <= fork → result.(br_blob_gas_used) = header.(bh_blob_gas_used)) ∧
  result.(br_receipts_root) = header.(bh_receipts_root).

(** The state root, the bloom filter and the access list of the header are
    those of the state the execution left. *)
Definition state_checked (b : Block) (result : BlockExecutionResult) (s : SpecState) : Prop :=
  ∃ s1 s2, runs compute_state_root s b.(header).(bh_state_root) s1 ∧
    runs (block_logs_bloom_matches result.(br_logs) b.(header).(bh_logs_bloom)) s1 true s2 ∧
    (Amsterdam <= fork s.(sp_env).(k_execution_profile).(protocol) →
     ∃ h, runs (validate_block_access_list b.(body).(bb_block_access_list)
                 s.(sp_env).(k_execution_profile).(ep_gas).(block_limit)) s2.(sp_host) tt h).

Lemma validate_executed_block_runs b result s s' :
  runs (validate_executed_block b result) s tt s' →
  result_checked (fork s.(sp_env).(k_execution_profile).(protocol)) b.(header) result ∧
  state_checked b result s.
Proof.
  unfold validate_executed_block.
  intros (ep & s0 & Hep & (? & s1 & [_ ->]%runs_ret & (? & s2 & [H1 ->]%fatal_if_runs & (? & s3 &
    [H2 ->]%fatal_if_runs & (post & s4 & Hpost & (? & s5 & [H3 ->]%fatal_if_runs & (? & s6 &
    [H4 ->]%fatal_if_runs & (ok & s7 & Hok & (? & s8 & [H5 ->]%fatal_if_runs &
    Hbal)%runs_bind)%runs_bind)%runs_bind)%runs_bind)%runs_bind)%runs_bind)%runs_bind)%runs_bind)%runs_bind.
  injection Hep as <- <-. apply negb_false_iff, Z.eqb_eq in H1.
  apply negb_false_iff, bool_decide_eq_true in H3, H4. apply negb_false_iff in H5. subst ok post.
  split.
  - split; [done|]. split; [|done]. intros Hf. rewrite (proj2 (Z.leb_le _ _) Hf) in H2.
    by apply negb_false_iff, Z.eqb_eq in H2.
  - exists s4, s7. split; [done|]. split; [done|]. intros Hf.
    rewrite (proj2 (Z.leb_le _ _) Hf) in Hbal. apply zoom_runs in Hbal as (h & Hb & _). by exists h.
Qed.

(** A subtree that is not empty has a digest. *)
Lemma subtree_root_length {S} (leaf : Z → M S hash) d start count s h s' :
  0 < count → runs (subtree_root leaf (Datatypes.S d) start count) s h s' → py_len h = 32.
Proof.
  intros Hc. cbn [subtree_root]. rewrite (proj2 (Z.eqb_neq _ _)) by lia.
  intros (half & s1 & _ & (l & s2 & _ & (r & s3 & _ & Hb)%runs_bind)%runs_bind)%runs_bind.
  injection Hb as Hb _. unfold Bytes32, fixed_bytes in Hb.
  destruct (Z.eqb_spec (py_len (sha256_pair l r)) 32) as [Hl|]; [|done]. by injection Hb as <-.
Qed.

(** ** Failures *)

(** A call that raises leaves the related state. *)
Definition failing_keeps {S A} (R : S → S → Prop) (m : M S A) : Prop :=
  ∀ s e s', m s = (Raise e, s') → R s s'.
Lemma failing_bind {S A B} (R : S → S → Prop) `{!PreOrder R} (m : M S A) (f : A → M S B) :
  keeps R m → (∀ a, failing_keeps R (f a)) → failing_keeps R (m ≫= f).
Proof.
  intros Hm Hf s e s'. rewrite bind_run. specialize (Hm s). destruct (m s) as [[a|x] s1].
  - intros E. etrans; [exact Hm|]. by eapply Hf.
  - by intros [= <- <-].
Qed.
Lemma failing_of {S A} (R : S → S → Prop) (m : M S A) : keeps R m → failing_keeps R m.
Proof. intros Hm s e s' E. specialize (Hm s). by rewrite E in Hm. Qed.

Lemma commit_fails root success cc : failing_keeps outside_same (commit_validation_result root success cc).
Proof.
  unfold commit_validation_result.
  do 5 (apply failing_bind; [apply _|apply outside_weaken; keeps|intros ?]).
  intros s e s'. rewrite bind_run, zoom_run. unfold public_output_write, modify_regions.
  rewrite bind_run. unfold _region_bytes. rewrite gets_run, bind_run, zoom_run, modify_run, ret_run.
  cbn [fst snd]. intros E. discriminate E.
Qed.

Lemma main_fails fuel : failing_keeps program_outside (main fuel).
Proof.
  unfold main. apply failing_bind; [apply _|apply program_weaken; keeps|intros _].
  apply failing_bind; [apply _|apply program_weaken; keeps|intros _].
  apply failing_bind; [apply _|apply program_weaken; keeps|intros i].
  apply failing_bind; [apply _|apply program_weaken; keeps|intros r].
  apply failing_bind; [apply _|apply program_weaken; keeps|intros _].
  apply failing_bind; [apply _|apply verify_stateless_payload_keeps|intros _].
  intros p e p'. unfold on_spec. rewrite zoom_run. intros [= E <-].
  unfold program_outside. cbn [put program_component program_spec].
  pose proof (failing_bind outside_same (zoom (htr_new_payload_request r)) _
    (outside_weaken _ (same_host _ (htr_new_payload_request_keeps r)))
    (λ root, commit_fails root true r.(ir_chain_config))) as Hf.
  refine (Hf (view p) e _ _). rewrite <-E. apply surjective_pairing.
Qed.

(** ** Runs that return *)

Lemma on_spec_runs_iff {A} (m : M SpecState A) p a p' :
  runs (on_spec m) p a p' ↔ ∃ s, runs m p.(program_spec) a s ∧ p' = mkProgram s p.(parent_fields).
Proof. unfold on_spec. rewrite zoom_runs. done. Qed.
Lemma keeps_runs {S A} (R : S → S → Prop) (m : M S A) s a s' : keeps R m → runs m s a s' → R s s'.
Proof. intros Hm Hr. specialize (Hm s). unfold runs in Hr. by rewrite Hr in Hm. Qed.

(** The stages of [main]. *)
Lemma main_runs fuel p p' :
  runs (main fuel) p tt p' →
  ∃ s r h q s', arena_wf s ∧ outside_same p.(program_spec) s ∧
    runs (decode_stateless_input_ref (mkSlice 0 (py_len (input_of s)))) s.(sp_host) r h ∧
    runs (verify_stateless_payload fuel r) (mkProgram (put h s) p.(parent_fields)) tt q ∧
    runs (write_validation_result r true) q.(program_spec) tt s' ∧ p' = mkProgram s' q.(parent_fields).
Proof.
  unfold main. intros (? & p1 & H1 & (? & p2 & [_ ->]%runs_ret & (b & p3 & H3 & (r & p4 & H4 &
    (? & p5 & [_ ->]%runs_ret & (? & q & H6 & H7)%runs_bind)%runs_bind)%runs_bind)%runs_bind)%runs_bind)%runs_bind.
  apply on_spec_runs_iff in H1 as (s & H1 & ->), H7 as (s' & H7 & ->).
  destruct (scratch_reset_run p.(program_spec)) as (s0 & E & Hs & Hw & _ & _). unfold runs in H1.
  rewrite E in H1. injection H1 as _ ->.
  apply on_spec_runs_iff in H3 as (s3 & H3 & ->), H4 as (s4 & H4 & ->).
  apply zoom_runs in H3 as (h3 & H3 & ->), H4 as (h4 & H4 & ->). cbn [program_spec parent_fields view] in *.
  unfold stateless_input in H3. apply runs_bind in H3 as (n & h & Hn & Hb).
  injection Hn as <- <-. injection Hb as Hb <-. cbn [put spec_host] in H4.
  unfold stateless_input_slice, checked_slice in Hb. destruct (region_valid_range _ _); [|done].
  injection Hb as <-. exists s, r, h4, q, s'. split; [exact Hw|]. split; [apply Hs|].
  split; [exact H4|]. split; [|by split]. destruct x2. by destruct s.
Qed.

Lemma container_root_length fields d h root h' :
  fields ≠ [] → runs (container_root fields (Datatypes.S d)) h root h' → py_len root = 32.
Proof.
  intros Hne (roots & h1 & Hf & Hm)%runs_bind.
  assert (0 < py_len roots) as Hl.
  { destruct fields as [|f fields]; [done|].
    apply runs_bind in Hf as (x & h2 & _ & Hf). apply runs_bind in Hf as (xs & h3 & _ & Hf).
    injection Hf as <- _. unfold py_len. cbn. lia. }
  unfold merkleize in Hm. apply runs_bind in Hm as (c & h2 & _ & Hm).
  destruct (_ <=? c); [|discriminate Hm]. by apply subtree_root_length in Hm.
Qed.

(** C2: the public output of a run is all or nothing: a run that raises,
    wherever it does, has written nothing, and one that returns has appended
    exactly one record, with the root of the new payload request it decoded
    from the input, a success and the chain configuration of the input. The
    input itself is never changed. *)
Theorem main_writes_once fuel p o p' :
  main fuel p = (o, p') →
  input_of p'.(program_spec) = input_of p.(program_spec) ∧
  match o with
  | Raise _ => output_of p'.(program_spec) = output_of p.(program_spec)
  | Ok _ => ∃ r root h h1 h2 h3,
      h.(regions).(stateless_input_bytes) = input_of p.(program_spec) ∧
      runs (decode_stateless_input_ref (mkSlice 0 (py_len (input_of p.(program_spec))))) h r h1 ∧
      h2.(regions).(stateless_input_bytes) = input_of p.(program_spec) ∧
      runs (htr_new_payload_request r) h2 root h3 ∧
      output_of p'.(program_spec) =
        output_of p.(program_spec) ++ result_bytes root true (slice_data RInput r.(ir_chain_config) h)
  end.
Proof.
  intros E. destruct o as [[]|e].
  - apply main_runs in E as (s & r & h & q & s' & Hw & Hs & Hd & Hv & Hr & ->). cbn [program_spec].
    apply (keeps_runs program_outside) in Hv; [|apply verify_stateless_payload_keeps].
    apply (keeps_runs host_same) in Hd as Hd'; [|apply decode_stateless_input_ref_keeps].
    apply runs_bind in Hr as (root & s1 & Hroot & Hr). apply zoom_runs in Hroot as (h1 & Hroot & ->).
    pose proof (keeps_runs host_same _ _ _ _ (htr_new_payload_request_keeps r) Hroot) as Hk.
    assert (py_len root = 32) as Hl by (eapply container_root_length; [|exact Hroot]; done).
    assert (outside_same p.(program_spec) q.(program_spec)) as Hq.
    { etrans; [exact Hs|]. etrans; [apply (same_put h s Hd')|]. exact Hv. }
    pose proof (same_put h1 _ Hk) as [Hq1 _].
    assert (arena_wf (put h1 q.(program_spec))) as Hw1.
    { apply Hq1, Hv. by apply (same_put h s Hd'). }
    apply commit_writes in Hr as [Hi Ho]; [|done..].
    destruct Hs as (Hsi & _ & _), Hq as (Hqi & Hqo & _), Hq1 as (Hi1 & Ho1 & _).
    split; [by rewrite Hi, Hi1|]. exists r, root, s.(sp_host), h, (view q.(program_spec)), h1.
    split; [exact Hsi|]. split; [by rewrite <-Hsi|]. split; [exact Hqi|]. split; [exact Hroot|].
    rewrite Ho, Ho1, Hqo. f_equal. f_equal. unfold slice_data, region_of.
    change (stateless_input_bytes (regions (sp_host (put h1 (program_spec q))))) with
      (input_of (put h1 (program_spec q))). by rewrite Hi1, Hqi, <-Hsi.
  - apply main_fails in E as (Hi & Ho & _). done.
Qed.

(** Decoding the input sets the profile of the fork it names and the header. *)
Lemma decode_sets_env r s input s1 :
  runs (decode_stateless_input r) s input s1 →
  execution_profile_for r.(ir_protocol) input.(payload).(block).(header).(bh_gas_limit) =
    Ok s1.(sp_env).(k_execution_profile) ∧
  s1.(sp_env).(k_header) = input.(payload).(block).(header).
Proof.
  unfold decode_stateless_input.
  intros (hd & t1 & (h1 & H1 & ->)%zoom_runs & (cc & t2 & (h2 & H2 & ->)%zoom_runs & (? & t3 & H3 &
    (? & t4 & H4 & (pr & t5 & H5 & (? & t6 & H6 & (bh & t7 & (h7 & H7 & ->)%zoom_runs &
    [-> ->]%runs_ret)%runs_bind)%runs_bind)%runs_bind)%runs_bind)%runs_bind)%runs_bind)%runs_bind.
  injection H3 as <- <-. injection H4 as <- <-. injection H5 as H5 <-. injection H6 as <- <-. done.
Qed.

End acceptance.

(** ** A block that is accepted

    A Cancun block without transactions over an empty state, serialised by
    hand, its hashes taken with the toy digest of Crypto.v. The same input
    under an earlier or a later schema is rejected. *)
Module AcceptedBlock.
Definition wire_le (n : nat) (v : Z) : bytes := rev (be_bytes n v).
Definition wire_word (b : bytes) : bytes := Byte.xa0 :: b.
Definition trie_root_wire : bytes := rev EMPTY_TRIE_ROOT.
Definition ommers_wire : bytes :=
  be_bytes 32 0x1dcc4de8dec75d7aab85b567b6ccd41ad312451b948a7413f0a142fd40d49347.

(** The parent, with a base fee of 7 and empty optional fields. *)
Definition parent_header : bytes :=
  [Byte.xf8; Byte.x53] ++ wire_word (zeros 32) ++ [Byte.x80; Byte.x80] ++ wire_word trie_root_wire ++
  repeat Byte.x80 11 ++ [Byte.x07; Byte.x80; Byte.x80; Byte.x80].

(** Block 1: a gas limit of 30 million, a timestamp of 12. *)
Definition header_content : bytes :=
  wire_word (toy_keccak parent_header) ++ wire_word ommers_wire ++ [Byte.x94] ++ zeros 20 ++
  wire_word trie_root_wire ++ wire_word trie_root_wire ++ wire_word trie_root_wire ++
  [Byte.xb9; Byte.x01; Byte.x00] ++ zeros 256 ++ [Byte.x80; Byte.x01] ++ [Byte.x84] ++
  be_bytes 4 30000000 ++ [Byte.x80; Byte.x0c; Byte.x80] ++ wire_word (zeros 32) ++ [Byte.x88] ++
  zeros 8 ++ [Byte.x07] ++ wire_word trie_root_wire ++ [Byte.x80; Byte.x80] ++ wire_word (zeros 32).
Definition header_rlp : bytes := Byte.xf9 :: be_bytes 2 (py_len header_content) ++ header_content.

(** The containers of the input, each as its fixed part with its offsets. *)
Definition payload_bytes : bytes :=
  toy_keccak parent_header ++ zeros 20 ++ trie_root_wire ++ trie_root_wire ++ zeros 256 ++ zeros 32 ++
  wire_le 8 1 ++ wire_le 8 30000000 ++ wire_le 8 0 ++ wire_le 8 12 ++ wire_le 4 540 ++ wire_le 32 7 ++
  toy_keccak header_rlp ++ wire_le 4 540 ++ wire_le 4 540 ++ wire_le 8 0 ++ wire_le 8 0 ++
  wire_le 4 540 ++ wire_le 8 0.
Definition requests_bytes : bytes := List.concat (repeat (wire_le 4 20) 5).
Definition request_bytes : bytes :=
  wire_le 4 44 ++ wire_le 4 584 ++ zeros 32 ++ wire_le 4 584 ++ payload_bytes ++ requests_bytes.
Definition witness_bytes : bytes :=
  wire_le 4 12 ++ wire_le 4 12 ++ wire_le 4 12 ++ wire_le 4 4 ++ parent_header.
Definition config_bytes : bytes :=
  wire_le 8 1 ++ wire_le 4 12 ++ wire_le 4 4 ++ wire_le 4 8 ++ wire_le 4 8 ++ wire_le 8 0.
Definition input_bytes : bytes :=
  let start := 16 + py_len request_bytes in
  wire_le 4 16 ++ wire_le 4 start ++ wire_le 4 (start + py_len witness_bytes) ++
  wire_le 4 (start + py_len witness_bytes + py_len config_bytes) ++
  request_bytes ++ witness_bytes ++ config_bytes.

(** The program on these bytes under the schema of a fork. *)
Definition sample (schema : byte) : ProgramState :=
  let r := set_stateless_input_bytes ([schema; Byte.x01] ++ input_bytes) initial_state.(regions) in
  mkProgram (mkSpec (set_regions r initial_state) initial_environment EMPTY_SCRATCH_SLICE)
    EMPTY_PARENT_HEADER_FIELDS.
Definition run_sample (schema : byte) : outcome unit * ProgramState :=
  @main toy_Keccak toy_lib 1 (sample schema).

Example only_cancun_accepted :
  map (λ schema, is_ok (fst (run_sample schema))) [Byte.x0f; Byte.x10; Byte.x11; Byte.x12] =
  [false; true; false; false].
Proof. vm_compute. reflexivity. Qed.
End AcceptedBlock.

Lemma run_result {S A} (m : M S A) s o : fst (m s) = o → m s = (o, snd (m s)).
Proof. by destruct (m s) as [x y]; intros <-. Qed.

Lemma main_writes_once_witness :
  (∃ r root h h1 h2 h3,
    runs (decode_stateless_input_ref (mkSlice 0 (py_len (input_of (AcceptedBlock.sample Byte.x10).(program_spec))))) h r h1 ∧
    runs (htr_new_payload_request r) h2 root h3 ∧
    output_of (snd (AcceptedBlock.run_sample Byte.x10)).(program_spec) =
      result_bytes root true (slice_data RInput r.(ir_chain_config) h)) ∧
  output_of (snd (AcceptedBlock.run_sample Byte.x0f)).(program_spec) = [].
Proof.
  split.
  - assert (@main toy_Keccak toy_lib 1 (AcceptedBlock.sample Byte.x10) =
      (Ok tt, snd (AcceptedBlock.run_sample Byte.x10))) as E by (refine (run_result (@main toy_Keccak toy_lib 1) (AcceptedBlock.sample Byte.x10) _ _); vm_compute; reflexivity).
    destruct (main_writes_once _ _ _ _ E) as (_ & r & root & h & h1 & h2 & h3 & _ & Hd & _ & Hr & Ho).
    exists r, root, h, h1, h2, h3. split; [exact Hd|]. split; [exact Hr|exact Ho].
  - assert (@main toy_Keccak toy_lib 1 (AcceptedBlock.sample Byte.x0f) =
      (Raise SailExit, snd (AcceptedBlock.run_sample Byte.x0f))) as E by (refine (run_result (@main toy_Keccak toy_lib 1) (AcceptedBlock.sample Byte.x0f) _ _); vm_compute; reflexivity).
    exact (proj2 (main_writes_once _ _ _ _ E)).
Defined.

